(* ===== verification/_CoqProject ===== *)
-Q . S2P
Prelude.v
Bytes.v
Mem.v
Str.v
User.v
Segments.v
Kalloc.v
Buf.v
Memide.v
Cells.v
Bio.v
Bcache.v
Log.v
LogCrash.v
Tx.v
Recovery.v
LogSpace.v
Pipe.v
PipeSys.v
Spinlock.v
Fs.v
File.v
Itoa.v
TxSpec.v
FsBlock.v
Mkfs.v
FsImage.v
FsFile.v
FsRw.v
FsInode.v
Icache.v
Files.v
Trunc.v
Dirs.v
Paths.v
Vm.v
VmTable.v
VmSpace.v
VmKernel.v
VmCopy.v
Uvm.v
Proc.v
ProcSys.v
ProcInv.v
Processes.v
OpenFiles.v
Syscall.v
Links.v
Sysfile.v
Exec.v
Trap.v
Args.v
Descriptors.v
Calls.v
TrapSpec.v
ExecStack.v
Format.v
Grep.v
Uprogs.v
UprogsSpec.v
GrepMain.v
Ports.v
Irq.v
Lapic.v
Main.v
Mp.v
Kbd.v
Console.v
ConsoleSpec.v
Procdump.v
Ide.v
IdeSpec.v
Boot.v
Umalloc.v
UmallocInv.v
UmallocSpec.v
Sh.v
ShParse.v
ShPrint.v
ShRun.v
