(* ===== verification/Prelude.v ===== *)
(** * A verification library for the xv6-memory kernel

    The sources under src/ are xv6 for the x86, a small Unix: a boot loader, a
    multiprocessor kernel, a C library, a shell and the usual programs, with
    helpers for swap files in fs.c.  This library translates the C code into
    executable definitions and proves what makes each part correct.

    ** The parts, and how they interact

    bootmain.c loads the kernel.  The kernel finds its processors (mp.c), sets up
    the interrupt controllers (picirq.c, ioapic.c, lapic.c), memory (kalloc.c, vm.c),
    the console (console.c, uart.c, kbd.c) and the first process (proc.c).
    Processes enter it by traps (trap.c), which lead to system calls (syscall.c,
    sysproc.c, sysfile.c, exec.c).  Files go from descriptors (sysfile.c) to open
    files (file.c), pipes (pipe.c) or inodes (fs.c), to transactions (log.c), to the
    buffer cache (bio.c) and to a disk driver (ide.c, or memide.c).  mkfs.c makes the
    first disk image.  The programs (sh.c, grep.c, cat.c, ...) use the kernel through
    system calls and the library (ulib.c, printf.c, umalloc.c).

    ** How code becomes definitions

    Integers are [Z]; [u32], [s32], [u8] are written wherever the machine's width
    matters.  Memory is a function from addresses to bytes ([Mem]); structures the code
    overlays on memory (the free list, page tables, the blocks of malloc, the ELF and
    MP tables) stay there.  A C string that is only read is the list of its bytes
    without the final 0.  Statements that have effects are computations of the monad
    [M S A] below: they carry a state, emit events (wakeups, disk writes, characters)
    and end in a value, a panic, a sleep, an access to an object that is not there, or
    the bound of a loop.  A component has its own state; [zoom] runs it inside a larger
    one.  Locks are [acquire] and [release]; what they must guarantee is proved of
    spinlock.c.  A function that sleeps is a computation that ends in [Sleep], and its
    continuation after the wakeup is another definition; the interleavings are step
    relations.

    Devices, and code that runs on the other side of an interface, are type classes:
    [Ports] and [Mmio] (registers of devices), [Driver] (a disk driver, for bio.c),
    [BCache] (the buffer cache, for log.c), [TxDisk] (the log, for fs.c), [FileOps]
    (files, for proc.c), [UserSys] (system calls, for the programs).  Classes named
    [...Spec], [ConsoleHw], [OtherCpus] or [FileSys] add the laws; the implementations
    are instances.  Laws about devices state documented behaviour: of the disk
    controller ([AtaSpec], without disk errors), of the clock chip ([RtcSpec]), of the
    local APIC and the processors it starts ([OtherCpus]).

    ** The files

    Basics: [Prelude] (integers, the monad, lenses, sequences of operations, rules of
    partial correctness), [Bytes], [Mem], [Str] (string.c and ulib.c), [User], [Ports].

    Start and devices: [Boot] (bootmain.c), [Mp] (mp.c), [Segments] (descriptor tables
    of vm.c and trap.c), [Irq] (picirq.c, ioapic.c, timer.c), [Lapic] (lapic.c), [Kbd]
    (kbd.c), [Console] and [ConsoleSpec] (console.c, uart.c), [Format] (cprintf and
    printf), [Procdump], [Main] (main.c).  bootmain loads every segment and zeroes the
    rest; mpinit numbers the processors; the gates let programs in through the system
    call only; cmostime returns a date the chip showed, never a mixture; the console
    refines an abstract terminal with a line editor; main starts every other processor on a stack of its own and
    leaves all of memory but the stacks and the kernel's tables on the free list.

    Memory: [Kalloc] (kalloc.c), [Vm] (vm.c), [VmTable], [VmSpace], [VmKernel],
    [VmCopy], [Uvm].  No page is handed out twice; page tables are maps; allocuvm,
    deallocuvm, copyuvm and freevm do to the map and to the free list what they should.

    Disk: [Buf] (also the layout of fs.h), [Cells], [Bio] and [Bcache] (bio.c),
    [Memide] (memide.c), [Ide] and [IdeSpec] (ide.c).  The cache refines a map from block numbers to contents over any
    driver that keeps [DriverSpec]; ide.c serves its queue in order.

    Log: [Log] (log.c), [LogCrash], [Tx], [Recovery], [LogSpace].  A
    transaction is atomic and durable whatever disk write a crash stops at, also during
    recovery; the reservation of begin_op is an invariant of all interleavings of
    calls with each other and with the steps of a commit, and no call runs during one;
    with the log that mkfs makes the reservation is shown to be too generous.

    File system: [Fs] (fs.c), [TxSpec], [FsBlock], [FsFile], [FsRw],
    [FsInode], [Icache], [Files], [Trunc], [Dirs], [Paths], [Itoa], [Mkfs] (mkfs.c),
    [FsImage].  Blocks are allocated once; readi and writei read and change a sequence
    of bytes; the last iput of a file without links gives its blocks back; dirlink adds
    a name to a directory; namex finds what a path names and leaves no reference behind
    but the one it returns; the image of mkfs satisfies the invariants that the
    theorems start from.

    Files and pipes: [File] (file.c), [OpenFiles], [Pipe] (pipe.c),
    [PipeSys].  Reference counts are exact; a pipe is a queue, and as long as no writer
    is killed no reader or writer sleeps although it could go on; a killed writer is
    shown to strand sleeping readers.

    Processes and calls: [Spinlock] (spinlock.c), [Proc] (proc.c), [ProcSys],
    [ProcInv], [Processes], [Syscall] (syscall.c, sysproc.c), [Links] and [Sysfile]
    (sysfile.c, the swap files of fs.c), [Exec] (exec.c), [Trap] (trap.c), [Args],
    [Descriptors], [Calls], [TrapSpec], [ExecStack].  Mutual exclusion; the invariant
    of the process table on any number of CPUs; a parent never misses the exit of a
    child and gets all its memory back; arguments are checked before they are used;
    descriptors and references agree after every call; no killed process returns to
    user mode, and a trap the kernel does not know kills the process that caused it;
    exec puts the arguments where main looks for them, above a guard page.

    Programs: [Sh], [ShParse], [ShPrint], [ShRun] (sh.c), [Grep] and [GrepMain]
    (grep.c), [Umalloc], [UmallocInv], [UmallocSpec] (umalloc.c), [Uprogs] and
    [UprogsSpec] (cat.c, wc.c, echo.c, ls.c, ...).  The parser ends on every line and
    reads back every command; commands get the descriptors they should; grep prints
    the lines that its pattern means, of all its files; malloc hands out disjoint
    blocks that stay apart.

    ** Bounds

    Loops that are not structural take fuel.  Where the bound is a property of the data
    (a list, a table, the bytes of a line, the pages of a range) the definition gives
    it, and the theorems show it is enough.  Where it depends on a device or on input,
    the theorem says how much is enough: the polls of a controller that answers within
    [bound] ([Ide], [Boot]), the characters waiting ([Console]), the entries of a table
    ([Mp]), the time until the clock chip is calm ([Lapic]), the bytes of a file
    ([Grep], [Uprogs]).  [NoFuel] is never the result in a theorem that promises one.

    ** Not modelled

    Assembly (bootasm.S, entry.S, entryother.S, initcode.S, swtch.S, trapasm.S,
    usys.S) has no place in a shallow embedding; its effect on C data is in the
    definitions that call it.  Of main.c, the calls that set up devices are an argument
    of [main_memory], since their components have states of their own, and mpenter and
    mpmain, which the other processors run, are behind the interface
    [OtherCpus].  usertests.c, forktest.c and stressfs.c are tests of a running system;
    init.c and zombie.c start other programs and have no data of their own.  Timing,
    caches and the reordering of memory accesses by the processor are left out. *)

From stdpp Require Import base numbers list gmap strings.

Open Scope Z_scope.

(** ** Machine integers

    A C [uint] is a [Z] in the range [0 .. 2^32-1]; every place where the code
    can wrap around says so with [u32].  [s32] is the value of the same bits
    read as a C [int]. *)

Definition u32 (x : Z) : Z := x `mod` (2 ^ 32).

Definition s32 (x : Z) : Z :=
  let y := u32 x in if y <? 2 ^ 31 then y else y - 2 ^ 32.

Definition u8 (x : Z) : Z := x `mod` 256.

Lemma u32_small x : 0 <= x < 2 ^ 32 -> u32 x = x.
Proof. apply Z.mod_small. Qed.

Lemma u32_range x : 0 <= u32 x < 2 ^ 32.
Proof. apply Z.mod_pos_bound. lia. Qed.

Lemma u8_range x : 0 <= u8 x < 256.
Proof. apply Z.mod_pos_bound. lia. Qed.

Lemma s32_small x : 0 <= x < 2 ^ 31 -> s32 x = x.
Proof.
  intros H. unfold s32. rewrite u32_small by lia.
  destruct (Z.ltb_spec x (2 ^ 31)); lia.
Qed.

(** ** Flag words

    [has f m] is the C test [(f & m) != 0]. *)

Definition has (f m : Z) : bool := negb (Z.land f m =? 0).

(** [set_flag f m] is [f |= m], [clear_flag f m] is [f &= ~m]. *)
Definition set_flag (f m : Z) : Z := Z.lor f m.
Definition clear_flag (f m : Z) : Z := Z.land f (Z.lnot m).

Lemma has_pow2 f k : 0 <= k -> has f (2 ^ k) = Z.testbit f k.
Proof.
  intros Hk. unfold has.
  destruct (Z.testbit f k) eqn:E.
  - destruct (Z.eqb_spec (Z.land f (2 ^ k)) 0) as [H0|]; [|done].
    assert (Z.testbit (Z.land f (2 ^ k)) k = true) as Ht.
    { rewrite Z.land_spec, E, Z.pow2_bits_true by lia. done. }
    rewrite H0, Z.bits_0 in Ht. done.
  - assert (Z.land f (2 ^ k) = 0) as ->; [|done].
    apply Z.bits_inj'. intros n Hn. rewrite Z.land_spec, Z.bits_0.
    rewrite Z.pow2_bits_eqb by lia.
    destruct (Z.eqb_spec k n) as [<-|]; [by rewrite E|apply andb_false_r].
Qed.

Lemma testbit_set_flag f k j :
  0 <= k -> Z.testbit (set_flag f (2 ^ k)) j = (k =? j) || Z.testbit f j.
Proof.
  intros. unfold set_flag. rewrite Z.lor_spec, Z.pow2_bits_eqb by lia.
  apply orb_comm.
Qed.

Lemma testbit_clear_flag f k j :
  0 <= k -> 0 <= j ->
  Z.testbit (clear_flag f (2 ^ k)) j = negb (k =? j) && Z.testbit f j.
Proof.
  intros. unfold clear_flag. rewrite Z.land_spec, Z.lnot_spec by lia.
  rewrite Z.pow2_bits_eqb by lia. apply andb_comm.
Qed.

(** ** Effects

    Kernel code threads a state, may [panic], may block in [sleep], may touch
    memory that is not there, and emits events other components observe: the
    wake-ups it sends, the sectors it writes, the characters it prints.  A
    computation returns the events it emitted, oldest first, with its outcome. *)

(** The addresses the kernel uses as sleep channels. *)
Inductive chan :=
  | ChBuf (i : nat)          (* &bcache.buf[i] *)
  | ChLog                    (* &log *)
  | ChInode (i : nat)        (* &icache.inode[i] *)
  | ChPipeRead (p : Z)       (* &p->nread *)
  | ChPipeWrite (p : Z)      (* &p->nwrite *)
  | ChTicks                  (* &ticks *)
  | ChInput                  (* &input.r *)
  | ChProc (i : nat).        (* &ptable.proc[i] *)

#[global] Instance chan_eq_dec : EqDecision chan.
Proof. solve_decision. Defined.

Inductive event :=
  | EvWakeup (c : chan)
  | EvDiskWrite (blockno : Z) (data : list Z)
  | EvPutc (c : Z).

#[global] Instance event_eq_dec : EqDecision event.
Proof. solve_decision. Defined.

(** How a computation over state [S] ends. *)
Inductive res (S A : Type) :=
  | Ret (a : A) (s : S)            (* returns a value *)
  | Panic (msg : string)           (* panic(msg) *)
  | Sleep (c : chan) (s : S)       (* blocks in sleep(c, lk), lk released *)
  | Fault                          (* accesses an object that is not there *)
  | NoFuel.                        (* the loop bound of the model is reached *)

Arguments Ret {S A} a s.
Arguments Panic {S A} msg.
Arguments Sleep {S A} c s.
Arguments Fault {S A}.
Arguments NoFuel {S A}.

Definition M (S A : Type) : Type := S -> list event * res S A.

Definition ret {S A} (a : A) : M S A := fun s => ([], Ret a s).

Definition bind {S A B} (m : M S A) (k : A -> M S B) : M S B := fun s =>
  match m s with
  | (e, Ret a s') => let '(e', r) := k a s' in (e ++ e', r)
  | (e, Panic msg) => (e, Panic msg)
  | (e, Sleep c s') => (e, Sleep c s')
  | (e, Fault) => (e, Fault)
  | (e, NoFuel) => (e, NoFuel)
  end.

Definition get {S} : M S S := fun s => ([], Ret s s).
Definition put {S} (s : S) : M S unit := fun _ => ([], Ret tt s).
Definition modify {S} (f : S -> S) : M S unit := fun s => ([], Ret tt (f s)).
Definition gets {S A} (f : S -> A) : M S A := fun s => ([], Ret (f s) s).
Definition panic {S A} (msg : string) : M S A := fun _ => ([], Panic msg).
Definition fault {S A} : M S A := fun _ => ([], Fault).
Definition nofuel {S A} : M S A := fun _ => ([], NoFuel).
Definition emit {S} (e : event) : M S unit := fun s => ([e], Ret tt s).
Definition wakeup {S} (c : chan) : M S unit := emit (EvWakeup c).
Definition block_on {S A} (c : chan) : M S A := fun s => ([], Sleep c s).

(** An access through a pointer or an index: [Fault] when nothing is there. *)
Definition deref {S A} (o : option A) : M S A :=
  match o with Some a => ret a | None => fault end.

Declare Scope kernel_scope.
Delimit Scope kernel_scope with kernel.
Notation "'let*' x := m 'in' k" := (bind m (fun x => k))
  (at level 10, x name, m at level 100, k at level 200) : kernel_scope.
Notation "'let*' ' p := m 'in' k" := (bind m (fun x => match x with p => k end))
  (at level 10, p pattern, m at level 100, k at level 200) : kernel_scope.
Notation "m ;; k" := (bind m (fun _ => k))
  (at level 100, k at level 200, right associativity) : kernel_scope.
Open Scope kernel_scope.

(** [if(b) m] *)
Definition when {S} (b : bool) (m : M S unit) : M S unit :=
  if b then m else ret tt.

(** A [for] loop over an explicit range of indices; the body says whether the
    loop goes on ([None]) or is left with a value ([Some r]). *)
Fixpoint for_each {S X R} (l : list X) (body : X -> M S (option R))
  : M S (option R) :=
  match l with
  | [] => ret None
  | x :: l' =>
      let* o := body x in
      match o with
      | Some r => ret (Some r)
      | None => for_each l' body
      end
  end.

(** A [for] loop that always runs to its end. *)
Fixpoint for_all {S X} (l : list X) (body : X -> M S unit) : M S unit :=
  match l with
  | [] => ret tt
  | x :: l' => body x ;; for_all l' body
  end.

(** ** Parts of a state

    A [lens] names a field of a larger state; [zoom] runs a computation of the
    component that owns the field inside the larger state. *)

Record lens (S T : Type) := Lens { lget : S -> T; lset : T -> S -> S }.
Arguments Lens {S T}.
Arguments lget {S T}.
Arguments lset {S T}.

Definition zoom {S T A} (L : lens S T) (m : M T A) : M S A := fun s =>
  match m (lget L s) with
  | (e, Ret a t) => (e, Ret a (lset L t s))
  | (e, Panic msg) => (e, Panic msg)
  | (e, Sleep c t) => (e, Sleep c (lset L t s))
  | (e, Fault) => (e, Fault)
  | (e, NoFuel) => (e, NoFuel)
  end.

(** A spinlock as the thread that runs sees it: held by this CPU or not.
    Taking a lock one holds and releasing one that is free are the panics of
    spinlock.c; contention between CPUs is the subject of [Spinlock]. *)
Definition acquire {S} (L : lens S bool) : M S unit := fun s =>
  if lget L s then ([], Panic "acquire") else ([], Ret tt (lset L true s)).

Definition release {S} (L : lens S bool) : M S unit := fun s =>
  if lget L s then ([], Ret tt (lset L false s)) else ([], Panic "release").

(** [sleep(c, &lk)]: the lock is released and the thread blocks. *)
Definition sleep {S A} (c : chan) (L : lens S bool) : M S A :=
  release L ;; block_on c.

(** ** Reasoning about runs *)

Lemma bind_ret_eq {S A B} (m : M S A) (k : A -> M S B) s e a s' e' r :
  m s = (e, Ret a s') -> k a s' = (e', r) -> bind m k s = (e ++ e', r).
Proof. intros H1 H2. unfold bind. by rewrite H1, H2. Qed.

(** A silent first half just hands over its state. *)
Lemma bind_nil {S A B} (m : M S A) (k : A -> M S B) s a s' :
  m s = ([], Ret a s') -> bind m k s = k a s'.
Proof. intros H. unfold bind. rewrite H. by destruct (k a s'). Qed.

Lemma bind_panic_eq {S A B} (m : M S A) (k : A -> M S B) s e msg :
  m s = (e, Panic msg) -> bind m k s = (e, Panic msg).
Proof. intros H. unfold bind. by rewrite H. Qed.

Lemma bind_sleep_eq {S A B} (m : M S A) (k : A -> M S B) s e c s' :
  m s = (e, Sleep c s') -> bind m k s = (e, Sleep c s').
Proof. intros H. unfold bind. by rewrite H. Qed.

Lemma bind_assoc {S A B C} (m : M S A) (f : A -> M S B) (g : B -> M S C) s :
  bind (bind m f) g s = bind m (fun x => bind (f x) g) s.
Proof.
  unfold bind. destruct (m s) as [e [a s1| | | |]]; try done.
  destruct (f a s1) as [e1 [b s2| | | |]]; try done.
  destruct (g b s2). by rewrite app_assoc.
Qed.

(** Inversion: a computation that returns did so through both halves. *)
Lemma bind_inv {S A B} (m : M S A) (k : A -> M S B) s e b s' :
  bind m k s = (e, Ret b s') ->
  exists e1 a s1 e2, m s = (e1, Ret a s1) /\ k a s1 = (e2, Ret b s') /\ e = e1 ++ e2.
Proof.
  unfold bind. destruct (m s) as [e1 [a s1| | | |]] eqn:E1; try done.
  destruct (k a s1) as [e2 r] eqn:E2. intros [= <- ->]. eauto 10.
Qed.

(** Run the first half of a [bind] with a known result. *)
Ltac run_with H := rewrite (bind_nil _ _ _ _ _ H).
Ltac run_by tac :=
  erewrite bind_nil; [|solve [tac]].

Lemma for_all_app {S X} (l1 l2 : list X) (f : X -> M S unit) s e s1 :
  for_all l1 f s = (e, Ret tt s1) ->
  for_all (l1 ++ l2) f s = (let '(e2, r) := for_all l2 f s1 in (e ++ e2, r)).
Proof.
  revert s e s1. induction l1 as [|x l1 IH]; intros s e s1 H; simpl in *.
  - injection H as <- <-. by destruct (for_all l2 f s).
  - apply bind_inv in H as (e1 & [] & s2 & e2 & H1 & H2 & ->).
    unfold bind. rewrite H1, (IH _ _ _ H2).
    destruct (for_all l2 f s1). by rewrite app_assoc.
Qed.

Lemma for_all_seq {S X} (l1 l2 : list X) (f : X -> M S unit) s :
  (for_all l1 f ;; for_all l2 f) s = for_all (l1 ++ l2) f s.
Proof.
  revert s. induction l1 as [|x l1 IH]; intros s; cbn [for_all app].
  - by rewrite (bind_nil (ret tt) _ s tt s).
  - rewrite bind_assoc. unfold bind at 1 3. destruct (f x s) as [e [[] s1| | | |]]; try done. by rewrite IH.
Qed.

(** ** Finite ranges of integers *)

(** The integers [a, a+1, .., a+n-1]. *)
Definition zrange (a : Z) (n : nat) : list Z := (fun i => a + Z.of_nat i) <$> seq 0 n.

Lemma elem_of_zrange a n x : x ∈ zrange a n <-> a <= x < a + Z.of_nat n.
Proof.
  unfold zrange. rewrite list_elem_of_fmap. split.
  - intros (i & -> & Hi%elem_of_seq). lia.
  - intros H. exists (Z.to_nat (x - a)). split; [lia|].
    apply elem_of_seq. lia.
Qed.

(** A decidable property of a bounded integer, checked by evaluation. *)
Lemma zrange_check (P : Z -> bool) a n :
  forallb P (zrange a n) = true -> forall x, a <= x < a + Z.of_nat n -> P x = true.
Proof.
  intros H x Hx. rewrite forallb_forall in H. apply H.
  apply list_elem_of_In, elem_of_zrange, Hx.
Qed.

(** Nothing in the list passes the test. *)
Lemma find_none_intro {A} (f : A -> bool) (l : list A) :
  (forall x, x ∈ l -> f x = false) -> find f l = None.
Proof.
  induction l as [|x l IH]; intros H; simpl; [done|].
  rewrite H by (by left). apply IH. intros y Hy. apply H. by right.
Qed.

(** ** Runs and the disk writes they make

    [runs m s w a s']: from [s], [m] returns [a] in state [s'], and the blocks it
    wrote to the disk, in order, are [w]. *)

Definition writes (ev : list event) : list (Z * list Z) :=
  omap (fun e => match e with EvDiskWrite n d => Some (n, d) | _ => None end) ev.

Definition runs {S A} (m : M S A) (s : S) (w : list (Z * list Z)) (a : A) (s' : S) : Prop :=
  exists ev, m s = (ev, Ret a s') /\ writes ev = w.

Lemma writes_app e1 e2 : writes (e1 ++ e2) = writes e1 ++ writes e2.
Proof. apply omap_app. Qed.

Lemma writes_prefix p ev : p `prefix_of` ev -> writes p `prefix_of` writes ev.
Proof. intros [q ->]. rewrite writes_app. by exists (writes q). Qed.

Lemma runs_bind {S A B} (m : M S A) (k : A -> M S B) s w1 a s1 w2 b s' :
  runs m s w1 a s1 -> runs (k a) s1 w2 b s' -> runs (bind m k) s (w1 ++ w2) b s'.
Proof.
  intros (e1 & H1 & <-) (e2 & H2 & <-). exists (e1 ++ e2). split; [|apply writes_app].
  by apply (bind_ret_eq _ _ _ _ a s1).
Qed.

(** A first half that writes nothing. *)
Lemma runs_bind_nil {S A B} (m : M S A) (k : A -> M S B) s a s1 w b s' :
  runs m s [] a s1 -> runs (k a) s1 w b s' -> runs (bind m k) s w b s'.
Proof. apply runs_bind. Qed.

Lemma runs_bind_nil_inv {S A B} (m : M S A) (k : A -> M S B) s b s' :
  runs (bind m k) s [] b s' -> exists a s1, runs m s [] a s1 /\ runs (k a) s1 [] b s'.
Proof.
  intros (ev & E & W). apply bind_inv in E as (e1 & a & s1 & e2 & E1 & E2 & ->).
  rewrite writes_app in W. apply app_eq_nil in W as [W1 W2]. exists a, s1.
  split; [by exists e1|by exists e2].
Qed.

Lemma runs_silent {S A} (m : M S A) s a s' : m s = ([], Ret a s') -> runs m s [] a s'.
Proof. intros Hm. by exists []. Qed.

Lemma runs_ret {S A} (a : A) (s : S) : runs (ret a) s [] a s.
Proof. by exists []. Qed.

Lemma runs_modify {S} (f : S -> S) (s : S) : runs (modify f) s [] tt (f s).
Proof. by exists []. Qed.

Lemma runs_gets {S A} (f : S -> A) (s : S) : runs (gets f) s [] (f s) s.
Proof. by exists []. Qed.

Lemma runs_wakeup {S} c (s : S) : runs (wakeup c) s [] tt s.
Proof. by exists [EvWakeup c]. Qed.

Lemma runs_zoom {S T A} (L : lens S T) (m : M T A) s w a t :
  runs m (lget L s) w a t -> runs (zoom L m) s w a (lset L t s).
Proof. intros (ev & Hm & Hw). exists ev. unfold zoom. by rewrite Hm. Qed.

Lemma runs_acquire {S} (L : lens S bool) s :
  lget L s = false -> runs (acquire L) s [] tt (lset L true s).
Proof. intros Hl. exists []. unfold acquire. by rewrite Hl. Qed.

Lemma runs_release {S} (L : lens S bool) s :
  lget L s = true -> runs (release L) s [] tt (lset L false s).
Proof. intros Hl. exists []. unfold release. by rewrite Hl. Qed.

Lemma runs_for_all_nil {S X} (f : X -> M S unit) s : runs (for_all [] f) s [] tt s.
Proof. by exists []. Qed.

Lemma runs_for_all_cons {S X} (f : X -> M S unit) x l s w1 s1 w2 s' :
  runs (f x) s w1 tt s1 -> runs (for_all l f) s1 w2 tt s' ->
  runs (for_all (x :: l) f) s (w1 ++ w2) tt s'.
Proof. intros H1 H2. exact (runs_bind _ _ _ _ _ _ _ _ _ H1 H2). Qed.

Create HintDb runs.
#[export] Hint Resolve runs_ret runs_modify runs_gets runs_wakeup runs_zoom runs_acquire
  runs_release runs_for_all_nil : runs.

(** [m] panics with [msg] and has written nothing. *)
Definition panics {S A} (m : M S A) (s : S) (msg : string) : Prop :=
  exists ev, m s = (ev, Panic msg) /\ writes ev = [].

Lemma panics_bind_nil {S A B} (m : M S A) (k : A -> M S B) s a s1 msg :
  runs m s [] a s1 -> panics (k a) s1 msg -> panics (bind m k) s msg.
Proof.
  intros (e1 & H1 & Hw1) (e2 & H2 & Hw2). exists (e1 ++ e2).
  unfold bind. rewrite H1, H2, writes_app, Hw1, Hw2. done.
Qed.

Lemma panics_panic {S A} msg (s : S) : panics (@panic S A msg) s msg.
Proof. by exists []. Qed.

Lemma runs_get {S} (s : S) : runs get s [] s s.
Proof. by exists []. Qed.

(** Step over a first half that writes nothing. *)
Ltac rstep := eapply runs_bind_nil; [solve [eauto with runs]|cbn beta iota].
Ltac rstep_by H := eapply runs_bind_nil; [apply runs_zoom, runs_silent; exact H|cbn beta iota].

(** Decide integer comparisons of the goal by [lia]. *)
Ltac zcase :=
  repeat match goal with
  | |- context [(?a <? ?b)%Z] => destruct (Z.ltb_spec a b); try lia
  | |- context [(?a <=? ?b)%Z] => destruct (Z.leb_spec a b); try lia
  | |- context [(?a >? ?b)%Z] => destruct (Z.gtb_spec a b); try lia
  | |- context [(?a >=? ?b)%Z] => destruct (Z.geb_spec a b); try lia
  | |- context [(?a =? ?b)%Z] => destruct (Z.eqb_spec a b); try lia
  end.

(** ** Computations that emit no event *)

Definition silent {S A} (m : M S A) : Prop := forall s, (m s).1 = [].

Lemma silent_bind {S A B} (m : M S A) (k : A -> M S B) :
  silent m -> (forall a, silent (k a)) -> silent (bind m k).
Proof.
  intros Hm Hk s. unfold bind. specialize (Hm s). destruct (m s) as [e [a s1| | | |]]; cbn in *; auto.
  specialize (Hk a s1). destruct (k a s1). cbn in *. by subst.
Qed.

Lemma silent_ret {S A} (a : A) : silent (@ret S A a).
Proof. done. Qed.
Lemma silent_get {S} : silent (@get S).
Proof. done. Qed.
Lemma silent_gets {S A} (f : S -> A) : silent (gets f).
Proof. done. Qed.
Lemma silent_modify {S} (f : S -> S) : silent (modify f).
Proof. done. Qed.
Lemma silent_panic {S A} msg : silent (@panic S A msg).
Proof. done. Qed.
Lemma silent_acquire {S} (L : lens S bool) : silent (acquire L).
Proof. intros s. unfold acquire. by destruct (lget L s). Qed.
Lemma silent_release {S} (L : lens S bool) : silent (release L).
Proof. intros s. unfold release. by destruct (lget L s). Qed.
Lemma silent_when {S} b (m : M S unit) : silent m -> silent (when b m).
Proof. intros Hm. by destruct b. Qed.

Create HintDb silent.
#[export] Hint Resolve silent_bind silent_ret silent_get silent_gets silent_modify silent_panic
  silent_acquire silent_release silent_when : silent.

(** ** Sequences of operations

    [step] is an operation of a component with its outcome, [None] where it has none;
    refinement of each operation is refinement of every sequence. *)
Fixpoint run_ops {O R S : Type} (step : O -> S -> option (R * S)) (os : list O) (s : S) : option (list R * S) :=
  match os with
  | [] => Some ([], s)
  | o :: os' =>
      match step o s with
      | Some (r, s1) =>
          match run_ops step os' s1 with Some (rs, s2) => Some (r :: rs, s2) | None => None end
      | None => None
      end
  end.

Lemma run_ops_refines {O R S A : Type} (step : O -> S -> option (R * S)) (spec : O -> A -> option (R * A)) (rel : S -> A -> Prop) :
  (forall o s a r a', rel s a -> spec o a = Some (r, a') -> exists s', step o s = Some (r, s') /\ rel s' a') ->
  forall os s a rs a', rel s a -> run_ops spec os a = Some (rs, a') ->
    exists s', run_ops step os s = Some (rs, s') /\ rel s' a'.
Proof.
  intros Hstep os. induction os as [|o os IH]; intros s a rs a' Hr E; cbn [run_ops] in *.
  - injection E as <- <-. by exists s.
  - destruct (spec o a) as [[r a1]|] eqn:E1; [|done].
    destruct (run_ops spec os a1) as [[rs1 a2]|] eqn:E2; [|done]. injection E as <- <-.
    destruct (Hstep o s a r a1 Hr E1) as (s1 & -> & Hr1). destruct (IH s1 a1 rs1 a2 Hr1 E2) as (s2 & -> & Hr2).
    by exists s2.
Qed.

(** ** Partial-correctness rules for computations *)

(** If [m] returns from a state of [P], it does so in one of [Q]. *)
Definition hoare {S A} (P : S -> Prop) (m : M S A) (Q : A -> S -> Prop) : Prop :=
  forall s e a s', P s -> m s = (e, Ret a s') -> Q a s'.

Lemma hoare_bind {S A B} (P : S -> Prop) (m : M S A) (n : A -> M S B) R Q :
  hoare P m R -> (forall a, hoare (R a) (n a) Q) -> hoare P (bind m n) Q.
Proof.
  intros Hm Hn s e b s' HP E. apply bind_inv in E as (e1 & a & s1 & e2 & E1 & E2 & ->).
  by eapply Hn; [eapply Hm|].
Qed.

Lemma hoare_ret {S A} (a : A) (Q : A -> S -> Prop) : hoare (Q a) (ret a) Q.
Proof. by intros s e b s' HP [= <- <- <-]. Qed.

Lemma hoare_conseq {S A} (P P' : S -> Prop) (m : M S A) (Q Q' : A -> S -> Prop) :
  hoare P' m Q' -> (forall s, P s -> P' s) -> (forall a s, Q' a s -> Q a s) -> hoare P m Q.
Proof. intros Hm HP HQ s e a s' Hs E. eapply HQ, Hm, E. auto. Qed.

Lemma hoare_pre {S A} (P P' : S -> Prop) (m : M S A) Q :
  hoare P' m Q -> (forall s, P s -> P' s) -> hoare P m Q.
Proof. intros Hm HP. by apply (hoare_conseq _ _ _ _ _ Hm). Qed.

Lemma hoare_post {S A} (P : S -> Prop) (m : M S A) (Q Q' : A -> S -> Prop) :
  hoare P m Q' -> (forall a s, Q' a s -> Q a s) -> hoare P m Q.
Proof. intros Hm HQ. by apply (hoare_conseq _ _ _ _ _ Hm). Qed.

(** A step that keeps the precondition. *)
Lemma hoare_keep {S A B} (P : S -> Prop) (m : M S A) (n : A -> M S B) Q :
  hoare P m (fun _ => P) -> (forall a, hoare P (n a) Q) -> hoare P (bind m n) Q.
Proof. apply hoare_bind. Qed.

Lemma hoare_skip {S} (P : S -> Prop) : hoare P (ret tt) (fun _ => P).
Proof. by intros s e [] s' HP [= <- <-]. Qed.

Lemma hoare_panic {S A} (P : S -> Prop) msg (Q : A -> S -> Prop) : hoare P (panic msg) Q.
Proof. by intros s e a s' _ E. Qed.

(** A fact that does not depend on the state. *)
Lemma hoare_pure {S A} (P : S -> Prop) (X : Prop) (m : M S A) Q :
  (X -> hoare P m Q) -> hoare (fun s => X /\ P s) m Q.
Proof. intros Hm s e a s' [HX HP] E. by eapply Hm. Qed.

Lemma hoare_ex {S A X} (P : X -> S -> Prop) (m : M S A) Q :
  (forall x, hoare (P x) m Q) -> hoare (fun s => exists x, P x s) m Q.
Proof. intros Hm s e a s' [x HP] E. by eapply Hm. Qed.

Lemma hoare_for_all {S} (P : nat -> S -> Prop) (body : nat -> M S unit) n : forall a,
  (forall i, hoare (P i) (body i) (fun _ => P (Datatypes.S i))) ->
  hoare (P a) (for_all (seq a n) body) (fun _ => P (a + n)%nat).
Proof.
  induction n as [|n IH]; intros a Hb; cbn [seq for_all].
  - rewrite Nat.add_0_r. apply (hoare_skip (P a)).
  - eapply hoare_bind; [apply Hb|intros ?]. rewrite <- Nat.add_succ_comm. by apply IH.
Qed.

(** A property of the part a lens shows. *)
Lemma hoare_zoom {S T A} (L : lens S T) (P : S -> Prop) (m : M T A) (Q : A -> S -> Prop) :
  (forall s, P s -> hoare (fun t => t = lget L s) m (fun a t => Q a (lset L t s))) -> hoare P (zoom L m) Q.
Proof.
  intros Hm s e a s' HP. unfold zoom. destruct (m (lget L s)) as [e1 [b t| | | |]] eqn:E; try done.
  intros [= <- <- <-]. by eapply (Hm s HP).
Qed.
