(* ===== verification/Bytes.v ===== *)
(** * Byte buffers

    The contents of a disk block or of a small on-stack structure is a list of
    bytes.  C code casts such a buffer to a struct; the accessors here read and
    write the little-endian fields in place. *)

From stdpp Require Import base numbers list.
From S2P Require Import Prelude.

Open Scope Z_scope.

Definition byte_at (l : list Z) (i : nat) : Z := nth i l 0.

Definition get16 (l : list Z) (off : nat) : Z :=
  byte_at l off + 2 ^ 8 * byte_at l (off + 1).

Definition put16 (l : list Z) (off : nat) (v : Z) : list Z :=
  <[(off + 1)%nat := u8 (Z.shiftr v 8)]> (<[off := u8 v]> l).

Definition get32 (l : list Z) (off : nat) : Z :=
  byte_at l off + 2 ^ 8 * byte_at l (off + 1) + 2 ^ 16 * byte_at l (off + 2)
    + 2 ^ 24 * byte_at l (off + 3).

Definition put32 (l : list Z) (off : nat) (v : Z) : list Z :=
  <[(off + 3)%nat := u8 (Z.shiftr v 24)]>
    (<[(off + 2)%nat := u8 (Z.shiftr v 16)]>
      (<[(off + 1)%nat := u8 (Z.shiftr v 8)]> (<[off := u8 v]> l))).

(** A C [short] read from its 16 bits. *)
Definition s16 (x : Z) : Z := if x <? 2 ^ 15 then x else x - 2 ^ 16.

(** [memmove(buf + off, src, length src)] on a buffer. *)
Definition splice (l : list Z) (off : nat) (src : list Z) : list Z :=
  take off l ++ src ++ drop (off + length src) l.

(** The [n] bytes from [off]. *)
Definition slice (l : list Z) (off n : nat) : list Z := take n (drop off l).

Definition bytes_ok (l : list Z) : Prop := Forall (fun b => 0 <= b < 256) l.

(** ** Lengths *)

Lemma length_put16 l off v : length (put16 l off v) = length l.
Proof. unfold put16. by rewrite !length_insert. Qed.

Lemma length_put32 l off v : length (put32 l off v) = length l.
Proof. unfold put32. by rewrite !length_insert. Qed.

Lemma length_splice l off src :
  (off + length src <= length l)%nat -> length (splice l off src) = length l.
Proof. intros. unfold splice. rewrite !length_app, length_take, length_drop. lia. Qed.

Lemma length_slice l off n :
  (off + n <= length l)%nat -> length (slice l off n) = n.
Proof. intros. unfold slice. rewrite length_take, length_drop. lia. Qed.

(** ** Reading back *)

Lemma byte_at_lookup l i : byte_at l i = default 0 (l !! i).
Proof. unfold byte_at. by rewrite nth_lookup. Qed.

Lemma byte_at_insert l i j v :
  byte_at (<[i := v]> l) j =
    if decide (i = j /\ (j < length l)%nat) then v else byte_at l j.
Proof.
  rewrite !byte_at_lookup. destruct (decide _) as [[-> Hl]|Hn].
  - by rewrite list_lookup_insert_eq.
  - destruct (decide (i = j)) as [->|Hne].
    + rewrite list_insert_ge by lia. done.
    + by rewrite list_lookup_insert_ne.
Qed.

Ltac byte_cases :=
  rewrite ?byte_at_insert, ?length_insert;
  repeat (case_decide; try lia).

Lemma byte_combine v :
  0 <= v < 2 ^ 32 ->
  u8 v + 2 ^ 8 * u8 (Z.shiftr v 8) + 2 ^ 16 * u8 (Z.shiftr v 16)
    + 2 ^ 24 * u8 (Z.shiftr v 24) = v.
Proof.
  intros H. unfold u8. rewrite !Z.shiftr_div_pow2 by lia.
  rewrite (Z.mod_small (v `div` (2 ^ 24))) by (split; [apply Z.div_pos; lia|];
    apply Z.div_lt_upper_bound; lia).
  change (2 ^ 16) with (2 ^ 8 * 2 ^ 8). change (2 ^ 24) with (2 ^ 8 * 2 ^ 8 * 2 ^ 8).
  change 256 with (2 ^ 8). rewrite <- !Zdiv.Zdiv_Zdiv by lia.
  pose proof (Z.div_mod v (2 ^ 8)). pose proof (Z.div_mod (v `div` (2 ^ 8)) (2 ^ 8)).
  pose proof (Z.div_mod ((v `div` (2 ^ 8)) `div` (2 ^ 8)) (2 ^ 8)). lia.
Qed.

Lemma get32_put32_eq l off v :
  (off + 4 <= length l)%nat -> 0 <= v < 2 ^ 32 -> get32 (put32 l off v) off = v.
Proof.
  intros Hl Hv. unfold get32, put32. byte_cases. by apply byte_combine.
Qed.

Lemma get32_put32_ne l off off' v :
  (off + 4 <= off' \/ off' + 4 <= off)%nat -> get32 (put32 l off v) off' = get32 l off'.
Proof. intros H. unfold get32, put32. byte_cases; done. Qed.

Lemma get16_put16_eq l off v :
  (off + 2 <= length l)%nat -> 0 <= v < 2 ^ 16 -> get16 (put16 l off v) off = v.
Proof.
  intros Hl Hv. unfold get16, put16. byte_cases. unfold u8.
  rewrite Z.shiftr_div_pow2 by lia. change 256 with (2 ^ 8).
  rewrite (Z.mod_small (v `div` (2 ^ 8))) by (split; [apply Z.div_pos; lia|];
    apply Z.div_lt_upper_bound; lia).
  pose proof (Z.div_mod v (2 ^ 8)). lia.
Qed.

Lemma get16_put16_ne l off off' v :
  (off + 2 <= off' \/ off' + 2 <= off)%nat -> get16 (put16 l off v) off' = get16 l off'.
Proof. intros H. unfold get16, put16. byte_cases; done. Qed.

Lemma get32_put16_ne l off off' v :
  (off + 2 <= off' \/ off' + 4 <= off)%nat -> get32 (put16 l off v) off' = get32 l off'.
Proof. intros H. unfold get32, put16. byte_cases; done. Qed.

Lemma get16_put32_ne l off off' v :
  (off + 4 <= off' \/ off' + 2 <= off)%nat -> get16 (put32 l off v) off' = get16 l off'.
Proof. intros H. unfold get16, put32. byte_cases; done. Qed.

Lemma byte_at_range l i : bytes_ok l -> 0 <= byte_at l i < 256.
Proof.
  intros H. rewrite byte_at_lookup. destruct (l !! i) eqn:E; simpl; [|lia].
  unfold bytes_ok in H. rewrite Forall_forall in H. apply H.
  by eapply list_elem_of_lookup_2.
Qed.

Lemma get32_range l off : bytes_ok l -> 0 <= get32 l off < 2 ^ 32.
Proof.
  intros H. unfold get32.
  pose proof (byte_at_range l off H). pose proof (byte_at_range l (off + 1) H).
  pose proof (byte_at_range l (off + 2) H). pose proof (byte_at_range l (off + 3) H). lia.
Qed.

Lemma get16_range l off : bytes_ok l -> 0 <= get16 l off < 2 ^ 16.
Proof.
  intros H. unfold get16.
  pose proof (byte_at_range l off H). pose proof (byte_at_range l (off + 1) H). lia.
Qed.

Lemma insert_bytes_ok l i v : bytes_ok l -> bytes_ok (<[i := u8 v]> l).
Proof. intros H. apply Forall_insert; [done|]. apply u8_range. Qed.

Lemma put32_bytes_ok l off v : bytes_ok l -> bytes_ok (put32 l off v).
Proof. intros. unfold put32. by repeat apply insert_bytes_ok. Qed.

Lemma put16_bytes_ok l off v : bytes_ok l -> bytes_ok (put16 l off v).
Proof. intros. unfold put16. by repeat apply insert_bytes_ok. Qed.

Lemma slice_splice_eq l off src :
  (off + length src <= length l)%nat -> slice (splice l off src) off (length src) = src.
Proof.
  intros H. unfold slice, splice. rewrite drop_app_length' by (rewrite length_take; lia).
  by rewrite take_app_length.
Qed.

Lemma splice_bytes_ok l off src : bytes_ok l -> bytes_ok src -> bytes_ok (splice l off src).
Proof.
  intros Hl Hs. unfold bytes_ok, splice in *.
  apply Forall_app; split; [by apply Forall_take|].
  apply Forall_app; split; [done|by apply Forall_drop].
Qed.
