(* ===== verification/Mem.v ===== *)
(** * Byte-addressed memory

    The 32-bit address space as the kernel sees it: a total map from addresses
    to bytes, with the little-endian word accesses the page tables and the free
    list use.  A [view] is what a [char *] reads: the bytes from a pointer on. *)

From stdpp Require Import base numbers list.
From S2P Require Import Prelude Bytes.

Open Scope Z_scope.

Definition mem : Type := Z -> Z.

Definition upd (m : mem) (a v : Z) : mem := fun x => if x =? a then v else m x.

(** [*(uint* )a] and [*(uint* )a = v]. *)
Definition load32 (m : mem) (a : Z) : Z :=
  m a + 2 ^ 8 * m (a + 1) + 2 ^ 16 * m (a + 2) + 2 ^ 24 * m (a + 3).

Definition store32 (m : mem) (a v : Z) : mem :=
  upd (upd (upd (upd m a (u8 v)) (a + 1) (u8 (Z.shiftr v 8)))
           (a + 2) (u8 (Z.shiftr v 16))) (a + 3) (u8 (Z.shiftr v 24)).

(** All bytes are bytes. *)
Definition mem_ok (m : mem) : Prop := forall x, 0 <= m x < 256.

Definition view : Type := nat -> Z.
Definition at_ (m : mem) (p : Z) : view := fun i => m (u32 (p + Z.of_nat i)).
Definition next_char (p : view) : view := fun i => p (S i).
Definition bytes (l : list Z) : view := fun i => nth i l 0.

(** ** Lemmas *)

Lemma upd_eq m a v : upd m a v a = v.
Proof. unfold upd. by rewrite Z.eqb_refl. Qed.

Lemma upd_ne m a v x : x <> a -> upd m a v x = m x.
Proof. intros H. unfold upd. by destruct (Z.eqb_spec x a). Qed.

Lemma upd_ok m a v : mem_ok m -> 0 <= v < 256 -> mem_ok (upd m a v).
Proof. intros Hm Hv x. unfold upd. destruct (x =? a); auto. Qed.

Lemma u32_u32 x : u32 (u32 x) = u32 x.
Proof. unfold u32. by rewrite Z.mod_mod. Qed.

Lemma u32_add_u32 x y : u32 (u32 x + y) = u32 (x + y).
Proof. unfold u32. by rewrite Zplus_mod_idemp_l. Qed.

(** Unfold every word access and write, then decide the address equalities. *)
Ltac mem_cases :=
  repeat match goal with
  | |- context [?x =? ?y] => destruct (Z.eqb_spec x y); try lia
  end.


Lemma load32_store32_eq m a v :
  0 <= v < 2 ^ 32 -> load32 (store32 m a v) a = v.
Proof.
  intros H. unfold load32, store32, upd. mem_cases. by apply byte_combine.
Qed.

Lemma store32_other m a v x : x < a \/ a + 4 <= x -> store32 m a v x = m x.
Proof. intros H. unfold store32, upd. mem_cases; done. Qed.

Lemma load32_store32_ne m a v b :
  b + 4 <= a \/ a + 4 <= b -> load32 (store32 m a v) b = load32 m b.
Proof. intros H. unfold load32. rewrite !store32_other by lia. done. Qed.

Lemma load32_ext m m' a :
  (forall i, 0 <= i < 4 -> m (a + i) = m' (a + i)) -> load32 m a = load32 m' a.
Proof.
  intros H. unfold load32. rewrite <- (Z.add_0_r a) at 1 5.
  rewrite !H by lia. done.
Qed.

Lemma load32_range m a : mem_ok m -> 0 <= load32 m a < 2 ^ 32.
Proof.
  intros H. unfold load32.
  pose proof (H a). pose proof (H (a + 1)). pose proof (H (a + 2)).
  pose proof (H (a + 3)). lia.
Qed.

Lemma store32_ok m a v : mem_ok m -> mem_ok (store32 m a v).
Proof.
  intros H. unfold store32.
  repeat apply upd_ok; auto using u8_range.
Qed.
