(* ===== verification/Str.v ===== *)
(** * The string and memory routines: string.c, and their user-level
    counterparts in ulib.c

    Routines that write take and return the whole memory, so that overlapping
    arguments behave as they do in C; the pointer the C function returns is its
    argument and is left out.  Routines that only read work on [view]s. *)

From stdpp Require Import base numbers list.
From S2P Require Import Prelude Mem.

Open Scope Z_scope.

(** ** x86.h: [rep stosb] and [rep stosl] *)

Fixpoint stosb (cnt : nat) (addr data : Z) (m : mem) : mem :=
  match cnt with
  | O => m
  | S k => stosb k (u32 (addr + 1)) data (upd m addr (u8 data))
  end.

Fixpoint stosl (cnt : nat) (addr data : Z) (m : mem) : mem :=
  match cnt with
  | O => m
  | S k => stosl k (u32 (addr + 4)) data (store32 m addr data)
  end.

(** ** string.c *)

Definition memset (dst c n : Z) (m : mem) : mem :=
  if (dst `mod` 4 =? 0) && (n `mod` 4 =? 0) then
    let c := Z.land c 255 in
    stosl (Z.to_nat (n / 4)) dst
      (u32 (Z.lor (Z.lor (Z.lor (Z.shiftl c 24) (Z.shiftl c 16)) (Z.shiftl c 8)) c)) m
  else stosb (Z.to_nat n) dst c m.

Fixpoint memcmp (n : nat) (s1 s2 : view) : Z :=
  match n with
  | O => 0
  | S k => if s1 0%nat =? s2 0%nat then memcmp k (next_char s1) (next_char s2)
           else s1 0%nat - s2 0%nat
  end.

(** [while(n-- > 0) *d++ = *s++;] *)
Fixpoint copy_up (n : nat) (d s : Z) (m : mem) : mem :=
  match n with
  | O => m
  | S k => copy_up k (u32 (d + 1)) (u32 (s + 1)) (upd m d (m s))
  end.

(** [while(n-- > 0) *--d = *--s;] *)
Fixpoint copy_down (n : nat) (d s : Z) (m : mem) : mem :=
  match n with
  | O => m
  | S k => let d' := u32 (d - 1) in
           let s' := u32 (s - 1) in
           copy_down k d' s' (upd m d' (m s'))
  end.

Definition memmove (dst src n : Z) (m : mem) : mem :=
  if (src <? dst) && (u32 (src + n) >? dst) then
    copy_down (Z.to_nat n) (u32 (dst + n)) (u32 (src + n)) m
  else copy_up (Z.to_nat n) dst src m.

Definition memcpy (dst src n : Z) (m : mem) : mem := memmove dst src n m.

Fixpoint strncmp (n : nat) (p q : view) : Z :=
  match n with
  | O => 0
  | S k => if negb (p 0%nat =? 0) && (p 0%nat =? q 0%nat)
           then strncmp k (next_char p) (next_char q)
           else p 0%nat - q 0%nat
  end.

(** [while(n-- > 0) *s++ = 0;] *)
Fixpoint zero_fill (n : nat) (s : Z) (m : mem) : mem :=
  match n with
  | O => m
  | S k => zero_fill k (u32 (s + 1)) (upd m s 0)
  end.

(** Both loops of [strncpy]; [n] is what [n-- > 0] still allows. *)
Fixpoint strncpy_loop (n : nat) (s t : Z) (m : mem) : mem :=
  match n with
  | O => m
  | S k => let c := m t in
           let m' := upd m s c in
           if c =? 0 then zero_fill k (u32 (s + 1)) m'
           else strncpy_loop k (u32 (s + 1)) (u32 (t + 1)) m'
  end.

Definition strncpy (s t n : Z) (m : mem) : mem := strncpy_loop (Z.to_nat n) s t m.

(** [while(--n > 0 && ( *s++ = *t++) != 0); *s = 0;] *)
Fixpoint safestrcpy_loop (n : nat) (s t : Z) (m : mem) : mem :=
  match n with
  | O => upd m s 0
  | S k => let c := m t in
           let m' := upd m s c in
           let s' := u32 (s + 1) in
           if c =? 0 then upd m' s' 0 else safestrcpy_loop k s' (u32 (t + 1)) m'
  end.

Definition safestrcpy (s t n : Z) (m : mem) : mem :=
  if n <=? 0 then m else safestrcpy_loop (Z.to_nat (n - 1)) s t m.

(** [for(n = 0; s[n]; n++)], with a bound on the iterations. *)
Fixpoint strlen_from (fuel : nat) (s : view) (n : nat) : option Z :=
  match fuel with
  | O => None
  | S k => if s n =? 0 then Some (Z.of_nat n) else strlen_from k s (S n)
  end.

Definition strlen (fuel : nat) (s : view) : option Z := strlen_from fuel s 0.

(** ** ulib.c *)

Module Ulib.

Fixpoint strcpy (fuel : nat) (s t : Z) (m : mem) : option mem :=
  match fuel with
  | O => None
  | S k => let c := m t in
           let m' := upd m s c in
           if c =? 0 then Some m' else strcpy k (u32 (s + 1)) (u32 (t + 1)) m'
  end.

Fixpoint strcmp (fuel : nat) (p q : view) : option Z :=
  match fuel with
  | O => None
  | S k => if negb (p 0%nat =? 0) && (p 0%nat =? q 0%nat)
           then strcmp k (next_char p) (next_char q)
           else Some (p 0%nat - q 0%nat)
  end.

Definition memset (dst c n : Z) (m : mem) : mem := stosb (Z.to_nat n) dst c m.

(** [Some (Some i)]: the pointer [s + i]; [Some None]: the null pointer. *)
Fixpoint strchr_from (fuel : nat) (s : view) (c : Z) (i : nat) : option (option nat) :=
  match fuel with
  | O => None
  | S k => if s i =? 0 then Some None
           else if s i =? c then Some (Some i)
           else strchr_from k s c (S i)
  end.

Definition strchr (fuel : nat) (s : view) (c : Z) : option (option nat) :=
  strchr_from fuel s c 0.

(** [gets(buf, max)] reading one byte at a time: [input] is what successive
    [read(0, &c, 1)] calls return (no byte left: [read] returns 0).  The
    result is the bytes stored in [buf] with the terminating NUL, and the
    input that is left. *)
Fixpoint gets_loop (k : nat) (input : list Z) : list Z * list Z :=
  match k with
  | O => ([0], input)
  | S k' =>
      match input with
      | [] => ([0], [])
      | c :: rest =>
          if (c =? 10) || (c =? 13) then ([c; 0], rest)
          else let '(b, r) := gets_loop k' rest in (c :: b, r)
      end
  end.

Definition gets (max : Z) (input : list Z) : list Z * list Z :=
  gets_loop (Z.to_nat (max - 1)) input.

(** [n = n*10 + *s++ - '0'] on C [int]s. *)
Fixpoint atoi_loop (fuel : nat) (s : view) (n : Z) : option Z :=
  match fuel with
  | O => None
  | S k => if (48 <=? s 0%nat) && (s 0%nat <=? 57)
           then atoi_loop k (next_char s) (s32 (n * 10 + s 0%nat - 48))
           else Some n
  end.

Definition atoi (fuel : nat) (s : view) : option Z := atoi_loop fuel s 0.

Definition memmove (vdst vsrc n : Z) (m : mem) : mem :=
  copy_up (Z.to_nat n) vdst vsrc m.

End Ulib.

(** ** The loops *)

Lemma u32_succ x : 0 <= x -> x + 1 < 2 ^ 32 -> u32 (x + 1) = x + 1.
Proof. intros. apply u32_small. lia. Qed.

Lemma u32_pred x : 0 < x < 2 ^ 32 -> u32 (x - 1) = x - 1.
Proof. intros. apply u32_small. lia. Qed.

(** The bytes [d .. d+n-1] replaced by [f 0 .. f (n-1)]. *)
Definition filled (m : mem) (d n : Z) (f : Z -> Z) : mem :=
  fun x => if (d <=? x) && (x <? d + n) then f (x - d) else m x.

Lemma filled_in m d n f x : d <= x < d + n -> filled m d n f x = f (x - d).
Proof. intros. unfold filled. destruct (Z.leb_spec d x), (Z.ltb_spec x (d + n)); simpl; lia. Qed.

Lemma filled_out m d n f x : ~ (d <= x < d + n) -> filled m d n f x = m x.
Proof. intros. unfold filled. destruct (Z.leb_spec d x), (Z.ltb_spec x (d + n)); simpl; lia. Qed.

Ltac filled_case H :=
  match goal with
  | |- context [filled ?m ?d ?n ?f ?x] =>
      let C := fresh H in
      destruct (decide (d <= x < d + n)) as [C|C];
      [rewrite (filled_in m d n f x C)|rewrite (filled_out m d n f x C)]
  end.

Lemma copy_up_filled n d s m x :
  0 <= d -> d + Z.of_nat n < 2 ^ 32 -> 0 <= s -> s + Z.of_nat n < 2 ^ 32 ->
  d <= s \/ s + Z.of_nat n <= d ->
  copy_up n d s m x = filled m d (Z.of_nat n) (fun i => m (s + i)) x.
Proof.
  revert d s m. induction n as [|n IH]; intros d s m Hd Hdn Hs Hsn Hov; simpl.
  - by rewrite filled_out by lia.
  - rewrite !u32_succ by lia. rewrite IH by lia.
    repeat filled_case H; try lia.
    + rewrite upd_ne by lia. f_equal. lia.
    + assert (x = d) as -> by lia. rewrite upd_eq. f_equal. lia.
    + rewrite upd_ne by lia. done.
Qed.

Lemma copy_down_filled n d s m x :
  0 <= d - Z.of_nat n -> d < 2 ^ 32 -> 0 <= s - Z.of_nat n -> s < 2 ^ 32 ->
  s <= d \/ d + Z.of_nat n <= s ->
  copy_down n d s m x =
    filled m (d - Z.of_nat n) (Z.of_nat n) (fun i => m (s - Z.of_nat n + i)) x.
Proof.
  revert d s m. induction n as [|n IH]; intros d s m Hd Hdn Hs Hsn Hov; simpl.
  - by rewrite filled_out by lia.
  - rewrite !u32_pred by lia. rewrite IH by lia.
    repeat filled_case H; try lia.
    + rewrite upd_ne by lia. f_equal. lia.
    + assert (x = d - 1) as -> by lia. rewrite upd_eq. f_equal. lia.
    + rewrite upd_ne by lia. done.
Qed.

Lemma stosb_filled n d c m x :
  0 <= d -> d + Z.of_nat n < 2 ^ 32 ->
  stosb n d c m x = filled m d (Z.of_nat n) (fun _ => u8 c) x.
Proof.
  revert d m. induction n as [|n IH]; intros d m Hd Hdn; simpl.
  - by rewrite filled_out by lia.
  - rewrite !u32_succ by lia. rewrite IH by lia.
    repeat filled_case H; try lia; [|rewrite upd_ne by lia; done].
    assert (x = d) as -> by lia. by rewrite upd_eq.
Qed.

(** A word whose four bytes are equal. *)
Definition byte4 (w c : Z) : Prop :=
  u8 w = c /\ u8 (Z.shiftr w 8) = c /\ u8 (Z.shiftr w 16) = c /\ u8 (Z.shiftr w 24) = c.

Lemma stosl_filled n d w c m x :
  byte4 w c -> 0 <= d -> d + 4 * Z.of_nat n < 2 ^ 32 ->
  stosl n d w m x = filled m d (4 * Z.of_nat n) (fun _ => c) x.
Proof.
  intros (H0 & H1 & H2 & H3). revert d m.
  induction n as [|n IH]; intros d m Hd Hdn; simpl.
  - by rewrite filled_out by lia.
  - rewrite (u32_small (d + 4)) by lia. rewrite IH by lia.
    repeat filled_case H; try lia.
    + unfold store32. rewrite H0, H1, H2, H3. unfold upd. mem_cases; done.
    + rewrite store32_other by lia. done.
Qed.

Definition fill_word (b : Z) : Z :=
  u32 (Z.lor (Z.lor (Z.lor (Z.shiftl b 24) (Z.shiftl b 16)) (Z.shiftl b 8)) b).

Definition byte4_fill_word_check (b : Z) : bool :=
  (u8 (fill_word b) =? b) && (u8 (Z.shiftr (fill_word b) 8) =? b)
  && (u8 (Z.shiftr (fill_word b) 16) =? b) && (u8 (Z.shiftr (fill_word b) 24) =? b).

Lemma byte4_fill_word b : 0 <= b < 256 -> byte4 (fill_word b) b.
Proof.
  intros Hb. assert (byte4_fill_word_check b = true) as H.
  { apply (zrange_check _ 0 256); [vm_compute; reflexivity|lia]. }
  unfold byte4_fill_word_check in H. rewrite !andb_true_iff, !Z.eqb_eq in H.
  unfold byte4. tauto.
Qed.

Lemma memset_word c : byte4 (fill_word (Z.land c 255)) (u8 c).
Proof.
  change 255 with (Z.ones 8). rewrite Z.land_ones by lia.
  apply (byte4_fill_word (u8 c)), u8_range.
Qed.

(** ** Correctness *)

(** The C string at [p], cut after [n] characters. *)
Fixpoint cstr (n : nat) (p : view) : list Z :=
  match n with
  | O => []
  | S k => if p 0%nat =? 0 then [] else p 0%nat :: cstr k (next_char p)
  end.

(** What [strncpy] leaves in an [n]-byte field: the string, then NULs. *)
Definition strncpy_bytes (n : nat) (p : view) : list Z :=
  cstr n p ++ replicate (n - length (cstr n p)) 0.

Lemma cstr_length n p : (length (cstr n p) <= n)%nat.
Proof.
  revert p. induction n as [|n IH]; intros p; simpl; [lia|].
  destruct (p 0%nat =? 0); simpl; [lia|]. specialize (IH (next_char p)). lia.
Qed.

Lemma cstr_ext n p q : (forall i, (i < n)%nat -> p i = q i) -> cstr n p = cstr n q.
Proof.
  revert p q. induction n as [|n IH]; intros p q H; simpl; [done|].
  rewrite (H 0%nat) by lia. destruct (q 0%nat =? 0); [done|]. f_equal.
  apply IH. intros i Hi. apply H. lia.
Qed.

Lemma next_char_at m p : 0 <= p -> p + 1 < 2 ^ 32 ->
  forall i, next_char (at_ m p) i = at_ m (u32 (p + 1)) i.
Proof.
  intros Hp Hp1 i. unfold next_char, at_. rewrite u32_succ by lia. f_equal. f_equal. lia.
Qed.

Lemma zero_fill_filled n d m x :
  0 <= d -> d + Z.of_nat n < 2 ^ 32 ->
  zero_fill n d m x = filled m d (Z.of_nat n) (fun _ => 0) x.
Proof.
  revert d m. induction n as [|n IH]; intros d m Hd Hdn; simpl.
  - by rewrite filled_out by lia.
  - rewrite !u32_succ by lia. rewrite IH by lia.
    repeat filled_case H; try lia; [|rewrite upd_ne by lia; done].
    assert (x = d) as -> by lia. by rewrite upd_eq.
Qed.

Lemma nth_strncpy_bytes_S n p i :
  p 0%nat <> 0 ->
  nth i (strncpy_bytes (S n) p) 0 =
    match i with O => p 0%nat | S j => nth j (strncpy_bytes n (next_char p)) 0 end.
Proof.
  intros Hp. unfold strncpy_bytes. simpl.
  destruct (Z.eqb_spec (p 0%nat) 0); [done|]. by destruct i.
Qed.

Lemma nth_replicate0 k i : nth i (replicate k 0) 0 = 0.
Proof. revert i. induction k; intros [|i]; simpl; auto. Qed.

Lemma strncpy_loop_filled n s t m x :
  0 <= s -> s + Z.of_nat n < 2 ^ 32 -> 0 <= t -> t + Z.of_nat n < 2 ^ 32 ->
  s + Z.of_nat n <= t \/ t + Z.of_nat n <= s ->
  strncpy_loop n s t m x =
    filled m s (Z.of_nat n) (fun i => nth (Z.to_nat i) (strncpy_bytes n (at_ m t)) 0) x.
Proof.
  revert s t m. induction n as [|n IH]; intros s t m Hs Hsn Ht Htn Hd.
  { simpl. by rewrite filled_out by lia. }
  assert (at_ m t 0%nat = m t) as Hat by (unfold at_; rewrite u32_small by lia; f_equal; lia).
  cbn [strncpy_loop]. destruct (Z.eqb_spec (m t) 0) as [E|E].
  - rewrite u32_succ by lia. rewrite zero_fill_filled by lia.
    unfold strncpy_bytes. simpl cstr. rewrite Hat, E. simpl.
    repeat filled_case H; try lia.
    + destruct (Z.to_nat (x - s)) as [|j]; [done|]. symmetry. apply (nth_replicate0 n j).
    + assert (x = s) as -> by lia. rewrite upd_eq, Z.sub_diag. done.
    + rewrite upd_ne by lia. done.
  - rewrite IH by (rewrite ?u32_succ by lia; lia). rewrite !u32_succ by lia.
    assert (strncpy_bytes n (at_ (upd m s (m t)) (t + 1)) = strncpy_bytes n (next_char (at_ m t))) as Hb.
    { unfold strncpy_bytes.
      rewrite (cstr_ext n (at_ (upd m s (m t)) (t + 1)) (next_char (at_ m t))); [done|].
      intros i Hi. rewrite next_char_at by lia. unfold at_. rewrite u32_succ by lia.
      rewrite u32_small by lia. rewrite upd_ne by lia. done. }
    rewrite Hb. repeat filled_case H; try lia.
    + rewrite nth_strncpy_bytes_S by (rewrite Hat; done).
      replace (Z.to_nat (x - s)) with (S (Z.to_nat (x - (s + 1)))) by lia. done.
    + assert (x = s) as -> by lia. rewrite upd_eq, Z.sub_diag.
      rewrite nth_strncpy_bytes_S by (rewrite Hat; done). done.
    + rewrite upd_ne by lia. done.
Qed.

Lemma memmove_filled dst src n m x :
  0 <= n -> 0 <= dst -> dst + n < 2 ^ 32 -> 0 <= src -> src + n < 2 ^ 32 ->
  memmove dst src n m x = filled m dst n (fun i => m (src + i)) x.
Proof.
  intros Hn Hd Hdn Hs Hsn. unfold memmove. rewrite !u32_small by lia.
  rewrite Z.gtb_ltb.
  destruct (Z.ltb_spec src dst); destruct (Z.ltb_spec dst (src + n)); simpl;
    rewrite ?copy_up_filled, ?copy_down_filled by lia;
    rewrite !Z2Nat.id by lia; try done.
  by rewrite !Z.add_simpl_r.
Qed.

(** Kernel [memmove] copies [n] bytes from [src] to [dst] however the two
    regions overlap: every destination byte gets the byte that was at the
    matching source address before the call, and no other byte changes. *)
Theorem memmove_correct dst src n m x :
  0 <= n -> 0 <= dst -> dst + n < 2 ^ 32 -> 0 <= src -> src + n < 2 ^ 32 ->
  memmove dst src n m x = filled m dst n (fun i => m (src + i)) x.
Proof. exact (memmove_filled dst src n m x). Qed.
Lemma memmove_correct_witness :
  memmove 1002 1000 4 (fun a => a `mod` 256) 1005 = 1003 `mod` 256.
Proof. rewrite (memmove_correct 1002 1000 4) by lia. reflexivity. Defined.

Lemma memset_filled dst c n m x :
  0 <= n -> 0 <= dst -> dst + n < 2 ^ 32 ->
  memset dst c n m x = filled m dst n (fun _ => u8 c) x.
Proof.
  intros Hn Hd Hdn. unfold memset.
  destruct (Z.eqb_spec (dst `mod` 4) 0), (Z.eqb_spec (n `mod` 4) 0); simpl;
    try (rewrite stosb_filled by lia; by rewrite Z2Nat.id by lia).
  assert (4 * (n `div` 4) = n) as Hn4 by (pose proof (Z.div_mod n 4); lia).
  assert (0 <= n `div` 4) by (apply Z.div_pos; lia).
  rewrite (stosl_filled _ _ _ (u8 c)); rewrite ?Z2Nat.id by lia; rewrite ?Hn4;
    auto; apply memset_word.
Qed.

(** [memset] stores the low byte of [c] in all [n] bytes from [dst] and in
    no other byte, on the word-wise path and on the byte-wise path. *)
Theorem memset_correct dst c n m x :
  0 <= n -> 0 <= dst -> dst + n < 2 ^ 32 ->
  memset dst c n m x = filled m dst n (fun _ => u8 c) x.
Proof. exact (memset_filled dst c n m x). Qed.
Lemma memset_correct_witness :
  memset 4096 1 4096 (fun _ => 7) 5000 = 1 /\ memset 4097 257 3 (fun _ => 7) 4100 = 7.
Proof. split; rewrite memset_correct by lia; reflexivity. Defined.

(** [strncmp] returns 0 exactly when the two strings, cut after [n]
    characters, are the same. *)
Theorem strncmp_zero n p q : strncmp n p q = 0 <-> cstr n p = cstr n q.
Proof.
  revert p q. induction n as [|n IH]; intros p q; simpl; [done|].
  destruct (Z.eqb_spec (p 0%nat) 0) as [Ep|Ep]; simpl.
  - rewrite Ep. destruct (Z.eqb_spec (q 0%nat) 0); split; try done; lia.
  - destruct (Z.eqb_spec (p 0%nat) (q 0%nat)) as [E|E].
    + destruct (Z.eqb_spec (q 0%nat) 0); [lia|]. rewrite IH, <- E.
      split; [by intros ->|by intros [= ->]].
    + destruct (Z.eqb_spec (q 0%nat) 0).
      * split; [lia|done].
      * split; [lia|intros [=]; lia].
Qed.

(** [strncpy] into a field that does not overlap its source fills the whole
    field, with the string cut to the field and NULs after it, and nothing else. *)
Theorem strncpy_correct s t n m x :
  0 <= s -> s + n < 2 ^ 32 -> 0 <= t -> t + n < 2 ^ 32 -> 0 <= n ->
  s + n <= t \/ t + n <= s ->
  strncpy s t n m x =
    filled m s n (fun i => nth (Z.to_nat i) (strncpy_bytes (Z.to_nat n) (at_ m t)) 0) x.
Proof.
  intros. unfold strncpy. rewrite strncpy_loop_filled; rewrite ?Z2Nat.id by lia; auto.
Qed.
Lemma strncpy_correct_witness :
  strncpy 100 200 14 (fun a => if a =? 203 then 0 else 65) 104 = 0.
Proof. rewrite strncpy_correct by lia. reflexivity. Defined.
