(* ===== verification/User.v ===== *)
(** * User programs: strings and flags

    A C string of a user program is the list of its bytes before the NUL. *)

From stdpp Require Import base numbers list strings.
From S2P Require Import Prelude Bytes Mem Str.

Open Scope Z_scope.

(** The bytes of a string literal, and of a character literal. *)
Fixpoint codes (s : string) : list Z :=
  match s with
  | EmptyString => []
  | String a s' => Z.of_N (Ascii.N_of_ascii a) :: codes s'
  end.

Definition chr (s : string) : Z := hd 0 (codes s).

(** The string at the start of an array of characters. *)
Fixpoint c_string (l : list Z) : list Z :=
  match l with
  | [] => []
  | c :: l' => if c =? 0 then [] else c :: c_string l'
  end.

(** The modes of [open]. *)
Definition O_RDONLY : Z := 0x000.
Definition O_WRONLY : Z := 0x001.
Definition O_RDWR : Z := 0x002.
Definition O_CREATE : Z := 0x200.

(** [strchr(s, c)] as a truth value. *)
Fixpoint strchr (s : list Z) (c : Z) : bool :=
  match s with
  | [] => false
  | x :: s' => if x =? c then true else strchr s' c
  end.

Lemma strchr_spec s c : strchr s c = true <-> c ∈ s.
Proof.
  induction s as [|x s IH]; cbn.
  - split; [done|by intros ?%elem_of_nil].
  - rewrite elem_of_cons. destruct (Z.eqb_spec x c) as [->|]; [tauto|].
    rewrite IH. split; [tauto|]. by intros [->|?].
Qed.

Lemma strchr_false s c : strchr s c = false <-> c ∉ s.
Proof. rewrite <- strchr_spec. by destruct (strchr s c). Qed.

(** It is the search of ulib.c on a string in memory. *)
Lemma strchr_ulib s c :
  0 ∉ s -> exists o, Ulib.strchr (S (length s)) (bytes s) c = Some o /\
                     strchr s c = bool_decide (is_Some o).
Proof.
  intros H0. unfold Ulib.strchr.
  assert (forall l p, s = p ++ l -> exists o,
    Ulib.strchr_from (S (length l)) (bytes s) c (length p) = Some o /\
    strchr l c = bool_decide (is_Some o)) as Hl; [|exact (Hl s [] eq_refl)].
  induction l as [|x l IH]; intros p Hs; cbn.
  - exists None. unfold bytes. by rewrite nth_overflow by (rewrite Hs, length_app; cbn; lia).
  - assert (s !! length p = Some x) as Hx by (by rewrite Hs, list_lookup_middle).
    unfold bytes at 1 2. rewrite nth_lookup, Hx. cbn.
    assert (x <> 0) by (intros ->; by apply H0, list_elem_of_lookup; eauto).
    destruct (Z.eqb_spec x 0); [done|].
    destruct (Z.eqb_spec x c); [by exists (Some (length p))|].
    destruct (IH (p ++ [x])) as (o & E & Eo); [by rewrite <- app_assoc|].
    exists o. rewrite length_app, Nat.add_1_r in E. by rewrite Eo.
Qed.
