(* ===== verification/Segments.v ===== *)
(** * Segments and gates: mmu.h, traps.h, seginit of vm.c, tvinit of trap.c

    The descriptor tables the processor consults on every access and on every
    trap, and what it makes of them. *)

From stdpp Require Import base numbers list.
From S2P Require Import Prelude.

Open Scope Z_scope.

Definition u16 (x : Z) : Z := x `mod` 2 ^ 16.

(** ** Trap numbers *)

Definition T_GPFLT : Z := 13.
Definition T_SYSCALL : Z := 64.
Definition T_IRQ0 : Z := 32.
Definition IRQ_TIMER : Z := 0.
Definition IRQ_KBD : Z := 1.
Definition IRQ_COM1 : Z := 4.
Definition IRQ_IDE : Z := 14.
Definition IRQ_ERROR : Z := 19.
Definition IRQ_SPURIOUS : Z := 31.

(** ** Segment descriptors *)

Definition SEG_KCODE : Z := 1.
Definition SEG_KDATA : Z := 2.
Definition SEG_KCPU : Z := 3.
Definition SEG_UCODE : Z := 4.
Definition SEG_UDATA : Z := 5.
Definition SEG_TSS : Z := 6.
Definition NSEGS : nat := 7.

Definition DPL_USER : Z := 0x3.
Definition STA_X : Z := 0x8.
Definition STA_W : Z := 0x2.
Definition STA_R : Z := 0x2.
Definition STS_T32A : Z := 0x9.
Definition STS_IG32 : Z := 0xE.
Definition STS_TG32 : Z := 0xF.

Record segdesc := mk_segdesc {
  lim_15_0 : Z; base_15_0 : Z; base_23_16 : Z; sd_type : Z; sd_s : Z; sd_dpl : Z; sd_p : Z;
  lim_19_16 : Z; sd_avl : Z; sd_rsv1 : Z; sd_db : Z; sd_g : Z; base_31_24 : Z
}.

Definition SEG (type base lim dpl : Z) : segdesc :=
  mk_segdesc (Z.land (Z.shiftr lim 12) 0xffff) (Z.land (u32 base) 0xffff)
    (Z.land (Z.shiftr (u32 base) 16) 0xff) type 1 dpl 1
    (Z.shiftr (u32 lim) 28) 0 0 1 1 (Z.shiftr (u32 base) 24).

Definition SEG16 (type base lim dpl : Z) : segdesc :=
  mk_segdesc (Z.land lim 0xffff) (Z.land (u32 base) 0xffff)
    (Z.land (Z.shiftr (u32 base) 16) 0xff) type 1 dpl 1
    (Z.shiftr (u32 lim) 16) 0 0 1 0 (Z.shiftr (u32 base) 24).

(** ** Gates *)

Record gatedesc := mk_gatedesc {
  off_15_0 : Z; gd_cs : Z; gd_args : Z; gd_rsv1 : Z; gd_type : Z; gd_s : Z; gd_dpl : Z; gd_p : Z; off_31_16 : Z
}.

Definition SETGATE (istrap : bool) (sel off d : Z) : gatedesc :=
  mk_gatedesc (Z.land (u32 off) 0xffff) sel 0 0 (if istrap then STS_TG32 else STS_IG32) 0 d 1 (Z.shiftr (u32 off) 16).

(** The interrupt descriptor table; [vectors] are the entry points of vectors.S. *)
Definition tvinit (vectors : list Z) : option (list gatedesc) :=
  let idt := (fun v => SETGATE false (Z.shiftl SEG_KCODE 3) v 0) <$> vectors in
  v ← vectors !! Z.to_nat T_SYSCALL;
  Some (<[Z.to_nat T_SYSCALL := SETGATE true (Z.shiftl SEG_KCODE 3) v DPL_USER]> idt).

(** [seginit] on the table [gdt] of a CPU whose field [cpu] is at [cpu_addr]. *)
Definition seginit (cpu_addr : Z) (gdt : list segdesc) : list segdesc :=
  let set n d (g : list segdesc) := <[Z.to_nat n := d]> g in
  set SEG_KCPU (SEG STA_W cpu_addr 8 0)
    (set SEG_UDATA (SEG STA_W 0 0xffffffff DPL_USER)
      (set SEG_UCODE (SEG (Z.lor STA_X STA_R) 0 0xffffffff DPL_USER)
        (set SEG_KDATA (SEG STA_W 0 0xffffffff 0)
          (set SEG_KCODE (SEG (Z.lor STA_X STA_R) 0 0xffffffff 0) gdt)))).

(** The task state segment that [switchuvm] sets up: the descriptor, [ss0] and
    [esp0]; [ts] is the address of the structure of 104 bytes. *)
Definition task_segment (ts kstack kstacksize : Z) : segdesc * Z * Z :=
  let d := SEG16 STS_T32A ts (104 - 1) 0 in
  let d := mk_segdesc (lim_15_0 d) (base_15_0 d) (base_23_16 d) (sd_type d) 0 (sd_dpl d) (sd_p d) (lim_19_16 d)
             (sd_avl d) (sd_rsv1 d) (sd_db d) (sd_g d) (base_31_24 d) in
  (d, Z.shiftl SEG_KDATA 3, u32 (kstack + kstacksize)).

(** ** What the processor does with them *)

Definition seg_base (d : segdesc) : Z := base_15_0 d + 2 ^ 16 * base_23_16 d + 2 ^ 24 * base_31_24 d.

(** The last offset inside the segment. *)
Definition seg_limit (d : segdesc) : Z :=
  let l := lim_15_0 d + 2 ^ 16 * lim_19_16 d in if sd_g d =? 0 then l else l * 2 ^ 12 + 0xfff.

Definition gate_offset (g : gatedesc) : Z := off_15_0 g + 2 ^ 16 * off_31_16 g.

(** [int n] at privilege level [cpl]: a gate that is too privileged is a general
    protection fault; otherwise the code segment, the address, and whether
    interrupts are turned off. *)
Inductive entry := Protection | Enters (cs eip : Z) (cli : bool).

Definition software_int (idt : list gatedesc) (cpl n : Z) : option entry :=
  g ← idt !! Z.to_nat n;
  Some (if gd_dpl g <? cpl then Protection else Enters (gd_cs g) (gate_offset g) (gd_type g =? STS_IG32)).

(** An exception or an interrupt from a device: the privilege is not checked. *)
Definition hardware_int (idt : list gatedesc) (n : Z) : option entry :=
  g ← idt !! Z.to_nat n;
  Some (Enters (gd_cs g) (gate_offset g) (gd_type g =? STS_IG32)).

Lemma split_word x : 0 <= x < 2 ^ 32 ->
  Z.land x 0xffff + 2 ^ 16 * Z.land (Z.shiftr x 16) 0xff + 2 ^ 24 * Z.shiftr x 24 = x /\
  Z.land x 0xffff + 2 ^ 16 * Z.shiftr x 16 = x.
Proof.
  intros Hx. change 0xffff with (Z.ones 16). change 0xff with (Z.ones 8).
  rewrite !Z.land_ones, !Z.shiftr_div_pow2 by lia. split; Z.to_euclidean_division_equations; lia.
Qed.

Lemma SEG_base type base lim dpl : seg_base (SEG type base lim dpl) = u32 base.
Proof. apply (split_word (u32 base) (u32_range base)). Qed.

Lemma SEG16_base type base lim dpl : seg_base (SEG16 type base lim dpl) = u32 base.
Proof. apply (split_word (u32 base) (u32_range base)). Qed.

(** The limit in units of 4096 bytes: rounded up to the end of its page. *)
Lemma SEG_limit type base lim dpl : 0 <= lim < 2 ^ 32 -> seg_limit (SEG type base lim dpl) = lim / 2 ^ 12 * 2 ^ 12 + 0xfff.
Proof.
  intros Hl. unfold seg_limit. cbn [lim_15_0 lim_19_16 sd_g SEG]. rewrite u32_small by done. cbn [Z.eqb].
  change 0xffff with (Z.ones 16). rewrite !Z.land_ones, !Z.shiftr_div_pow2 by lia.
  Z.to_euclidean_division_equations; lia.
Qed.

Lemma gate_offset_eq t sel off d : gate_offset (SETGATE t sel off d) = u32 off.
Proof. apply (split_word (u32 off) (u32_range off)). Qed.

(** C38: programs enter the kernel through the system call gate only.  After [tvinit]
    each of the 256 vectors leads to its own entry point in the kernel's code segment,
    with interrupts off except for system calls; [int n] from user mode is a
    protection fault for every other [n], and the segments of [seginit] span all of
    memory from 0, the two user ones alone being open to user mode. *)
Theorem gates_protect (vectors : list Z) (cpu_addr : Z) (gdt : list segdesc) :
  length vectors = 256%nat -> length gdt = NSEGS ->
  exists idt, tvinit vectors = Some idt /\ length idt = 256%nat /\
    (forall n v, vectors !! Z.to_nat n = Some v -> 0 <= n ->
      hardware_int idt n = Some (Enters (8 * SEG_KCODE) (u32 v) (negb (n =? T_SYSCALL))) /\
      software_int idt DPL_USER n =
        Some (if n =? T_SYSCALL then Enters (8 * SEG_KCODE) (u32 v) false else Protection)) /\
    (forall n, n ∈ [SEG_KCODE; SEG_KDATA; SEG_UCODE; SEG_UDATA] -> exists d,
      seginit cpu_addr gdt !! Z.to_nat n = Some d /\ seg_base d = 0 /\ seg_limit d = 2 ^ 32 - 1 /\
      sd_p d = 1 /\ sd_dpl d = (if (n =? SEG_UCODE) || (n =? SEG_UDATA) then DPL_USER else 0)) /\
    (exists d, seginit cpu_addr gdt !! Z.to_nat SEG_KCPU = Some d /\ seg_base d = u32 cpu_addr /\ sd_dpl d = 0 /\
      8 <= seg_limit d).
Proof.
  intros Hv Hg. destruct (lookup_lt_is_Some_2 vectors (Z.to_nat T_SYSCALL)) as [v0 E0]; [rewrite Hv; unfold T_SYSCALL; lia|].
  unfold tvinit. rewrite E0. eexists. split; [reflexivity|]. split; [by rewrite length_insert, length_fmap|].
  split; [|split].
  - intros n v En Hn. unfold hardware_int, software_int.
    destruct (Z.eqb_spec n T_SYSCALL) as [->|Hne].
    + rewrite list_lookup_insert_eq by (rewrite length_fmap, Hv; unfold T_SYSCALL; lia). cbn [mbind option_bind].
      rewrite gate_offset_eq. rewrite E0 in En. injection En as ->. done.
    + rewrite list_lookup_insert_ne by (unfold T_SYSCALL in *; lia). rewrite list_lookup_fmap, En. cbn [fmap option_fmap option_map mbind option_bind].
      rewrite gate_offset_eq. done.
  - intros n Hn. do 7 (destruct gdt as [|? gdt]; [done|]). destruct gdt; [|done].
    repeat (apply elem_of_cons in Hn as [->|Hn]; [eexists; split; [reflexivity|]; done|]). by apply elem_of_nil in Hn.
  - do 7 (destruct gdt as [|? gdt]; [done|]). destruct gdt; [|done].
    eexists. split; [reflexivity|]. rewrite SEG_base, SEG_limit by lia. done.
Qed.

(** Entry points one byte apart. *)
Lemma gates_protect_witness :
  exists idt, tvinit (zrange 0x80100000 256) = Some idt /\
    software_int idt DPL_USER 14 = Some Protection /\
    software_int idt DPL_USER 64 = Some (Enters 8 0x80100040 false) /\
    hardware_int idt 33 = Some (Enters 8 0x80100021 true).
Proof.
  destruct (gates_protect (zrange 0x80100000 256) 0x80112000 (repeat (SEG 0 0 0 0) NSEGS) eq_refl eq_refl)
    as (idt & E & _ & K & _). exists idt. split; [exact E|].
  split; [exact (proj2 (K 14 0x8010000e eq_refl ltac:(done)))|].
  split; [exact (proj2 (K 64 0x80100040 eq_refl ltac:(done)))|exact (proj1 (K 33 0x80100021 eq_refl ltac:(done)))].
Defined.
