(* ===== verification/Kalloc.v ===== *)
(** * The physical page allocator: kalloc.c

    The free list is threaded through the free pages themselves: the first word
    of a free page holds the address of the next one.  The model keeps it there,
    in [ram], so that the theorems also say what a client's writes and the junk
    fill of [kfree] do to it. *)

From stdpp Require Import base numbers list gmap strings.
From S2P Require Import Prelude Mem Str.

Open Scope Z_scope.

(** ** mmu.h and memlayout.h *)

Definition PGSIZE : Z := 4096.
Definition PHYSTOP : Z := 0xE000000.
Definition KERNBASE : Z := 0x80000000.

Definition PGROUNDUP (sz : Z) : Z := Z.land (u32 (sz + PGSIZE - 1)) (u32 (Z.lnot (PGSIZE - 1))).
Definition PGROUNDDOWN (a : Z) : Z := Z.land a (u32 (Z.lnot (PGSIZE - 1))).

Definition v2p (a : Z) : Z := u32 (a - KERNBASE).
Definition p2v (a : Z) : Z := u32 (a + KERNBASE).

(** ** State *)

Record kmem := mk_kmem {
  km_lock : bool;        (* kmem.lock *)
  use_lock : bool;
  freelist : Z           (* head of the list, 0 when empty *)
}.

(** Memory and its allocator. *)
Record pmem := mk_pmem { ram : mem; km : kmem }.

Definition klock : lens pmem bool :=
  Lens (fun s => km_lock (km s))
       (fun b s => mk_pmem (ram s) (mk_kmem b (use_lock (km s)) (freelist (km s)))).

Definition set_freelist (p : Z) (s : pmem) : pmem :=
  mk_pmem (ram s) (mk_kmem (km_lock (km s)) (use_lock (km s)) p).
Definition set_use_lock (b : bool) (s : pmem) : pmem :=
  mk_pmem (ram s) (mk_kmem (km_lock (km s)) b (freelist (km s))).
Definition on_ram (f : mem -> mem) (s : pmem) : pmem := mk_pmem (f (ram s)) (km s).

Section Kalloc.

(** [end], the first address after the kernel, is set by the linker script. *)
Variable kend : Z.

(** ** Operations *)

Definition kfree (v : Z) : M pmem unit :=
  if negb (v `mod` PGSIZE =? 0) || (v <? kend) || (v2p v >=? PHYSTOP) then
    panic "kfree"
  else
    (* Fill with junk to catch dangling refs. *)
    modify (on_ram (memset v 1 PGSIZE)) ;;
    let* s := get in
    when (use_lock (km s)) (acquire klock) ;;
    let* s := get in
    modify (on_ram (fun m => store32 m v (freelist (km s)))) ;;
    modify (set_freelist v) ;;
    let* s := get in
    when (use_lock (km s)) (release klock).

Definition kalloc : M pmem Z :=
  let* s := get in
  when (use_lock (km s)) (acquire klock) ;;
  let* s := get in
  let r := freelist (km s) in
  when (negb (r =? 0)) (modify (set_freelist (load32 (ram s) r))) ;;
  let* s := get in
  when (use_lock (km s)) (release klock) ;;
  ret r.

(** [for(; p + PGSIZE <= vend; p += PGSIZE) kfree(p);] *)
Fixpoint freerange_loop (fuel : nat) (p vend : Z) : M pmem unit :=
  if u32 (p + PGSIZE) <=? vend then
    match fuel with
    | O => fun _ => ([], NoFuel)
    | S k => kfree p ;; freerange_loop k (u32 (p + PGSIZE)) vend
    end
  else ret tt.

Definition freerange (vstart vend : Z) : M pmem unit :=
  let p := PGROUNDUP vstart in
  freerange_loop (Z.to_nat ((vend - p) / PGSIZE)) p vend.

Definition kinit1 (vstart vend : Z) : M pmem unit :=
  modify (fun s => mk_pmem (ram s) (mk_kmem false (use_lock (km s)) (freelist (km s)))) ;;
  modify (set_use_lock false) ;;
  freerange vstart vend.

Definition kinit2 (vstart vend : Z) : M pmem unit :=
  freerange vstart vend ;;
  modify (set_use_lock true).

Lemma silent_kfree v : silent (kfree v).
Proof. unfold kfree. case_match; eauto 12 with silent. Qed.

(** ** The free list as a list *)

(** A page [kfree] accepts. *)
Definition good_page (p : Z) : Prop :=
  p `mod` PGSIZE = 0 /\ kend <= p < 2 ^ 32 /\ v2p p < PHYSTOP.

Definition in_page (p x : Z) : Prop := p <= x < p + PGSIZE.

(** [chain m head l]: following the next words from [head] visits [l]. *)
Fixpoint chain (m : mem) (head : Z) (l : list Z) : Prop :=
  match l with
  | [] => head = 0
  | p :: l' => head = p /\ chain m (load32 m p) l'
  end.

(** The allocator invariant, with the list of free pages it stands for. *)
Record alloc_inv (s : pmem) (l : list Z) : Prop := {
  ai_ram : mem_ok (ram s);
  ai_chain : chain (ram s) (freelist (km s)) l;
  ai_good : Forall good_page l;
  ai_nodup : NoDup l;
  ai_unlocked : km_lock (km s) = false
}.

(** The kernel is linked above [KERNBASE] (kernel.ld). *)
Hypothesis Hend : KERNBASE <= kend.

Lemma good_page_range p :
  good_page p -> KERNBASE <= p /\ p + PGSIZE <= KERNBASE + PHYSTOP.
Proof.
  intros (Ha & Hr & Hp). unfold v2p in Hp. unfold PGSIZE, PHYSTOP, KERNBASE in *.
  rewrite u32_small in Hp by lia.
  pose proof (Z.div_mod p 4096). lia.
Qed.

Lemma pages_disjoint p q :
  p `mod` PGSIZE = 0 -> q `mod` PGSIZE = 0 -> p <> q ->
  p + PGSIZE <= q \/ q + PGSIZE <= p.
Proof.
  unfold PGSIZE. intros Hp Hq Hne.
  pose proof (Z.div_mod p 4096). pose proof (Z.div_mod q 4096). lia.
Qed.

Lemma good_page_disjoint p q x :
  good_page p -> good_page q -> p <> q -> in_page p x -> ~ in_page q x.
Proof.
  intros (Hp & _) (Hq & _) Hne Hx Hx'. unfold in_page, PGSIZE in *.
  destruct (pages_disjoint p q Hp Hq Hne); unfold PGSIZE in *; lia.
Qed.

(** The list only depends on the next words of its pages. *)
Lemma chain_frame m m' h l :
  (forall p x, p ∈ l -> in_page p x -> m' x = m x) -> chain m h l -> chain m' h l.
Proof.
  revert h. induction l as [|p l IH]; intros h Hx; simpl; [done|].
  intros [-> Hc]. split; [done|].
  rewrite (load32_ext m' m p).
  - apply IH; [|done]. intros q x Hq. apply Hx. by right.
  - intros i Hi. apply (Hx p); [by left|]. unfold in_page, PGSIZE. lia.
Qed.

Lemma alloc_inv_nil m ul : mem_ok m -> alloc_inv (mk_pmem m (mk_kmem false ul 0)) [].
Proof.
  intros Hm. constructor; simpl; auto. apply NoDup_nil_2.
Qed.

Lemma kfree_run v s :
  good_page v -> km_lock (km s) = false ->
  kfree v s = ([], Ret tt (mk_pmem (store32 (memset v 1 PGSIZE (ram s)) v (freelist (km s)))
                             (mk_kmem false (use_lock (km s)) v))).
Proof.
  intros (Ha & Hr & Hp) Hl. unfold kfree.
  rewrite Ha, Z.eqb_refl. simpl negb.
  destruct (Z.ltb_spec v kend); [lia|]. destruct (Z.geb_spec (v2p v) PHYSTOP); [lia|].
  simpl orb. destruct s as [m [lk ul fl]]. simpl in *. subst lk.
  by destruct ul.
Qed.

Lemma junk_byte m v fl x :
  good_page v -> in_page v x -> v + 4 <= x -> store32 (memset v 1 PGSIZE m) v fl x = 1.
Proof.
  intros Hg%good_page_range Hx Hx4. unfold in_page, PGSIZE, KERNBASE, PHYSTOP in *.
  rewrite store32_other by lia. rewrite memset_filled by lia.
  rewrite filled_in by lia. done.
Qed.

Lemma kfree_frame m v fl x :
  good_page v -> ~ in_page v x -> store32 (memset v 1 PGSIZE m) v fl x = m x.
Proof.
  intros Hg%good_page_range Hx. unfold in_page, PGSIZE, KERNBASE, PHYSTOP in *.
  rewrite store32_other by lia. rewrite memset_filled by lia.
  rewrite filled_out by lia. done.
Qed.

Lemma filled_ok m d n c : mem_ok m -> mem_ok (filled m d n (fun _ => u8 c)).
Proof.
  intros H x. unfold filled. destruct (_ && _); [apply u8_range|apply H].
Qed.

Lemma memset_page_ok m v c : good_page v -> mem_ok m -> mem_ok (memset v c PGSIZE m).
Proof.
  intros Hg%good_page_range Hm x. unfold PGSIZE, KERNBASE, PHYSTOP in *.
  rewrite memset_filled by lia. by apply filled_ok.
Qed.

Lemma chain_head_range s l :
  alloc_inv s l -> 0 <= freelist (km s) < 2 ^ 32.
Proof.
  intros [_ Hc Hg _ _]. destruct l as [|p l]; simpl in Hc; [lia|].
  destruct Hc as [-> _]. apply Forall_cons in Hg as [(? & ? & ?) _].
  unfold KERNBASE in *. lia.
Qed.

Lemma kfree_inv s l v :
  alloc_inv s l -> good_page v -> v ∉ l ->
  exists s', kfree v s = ([], Ret tt s') /\ alloc_inv s' (v :: l)
    /\ use_lock (km s') = use_lock (km s)
    /\ (forall x, ~ in_page v x -> ram s' x = ram s x)
    /\ (forall x, in_page v x -> v + 4 <= x -> ram s' x = 1).
Proof.
  intros Hi Hv Hnin. pose proof (chain_head_range _ _ Hi) as Hh.
  destruct Hi as [Hm Hc Hg Hnd Hl].
  rewrite (kfree_run v s Hv Hl). eexists. split; [done|]. simpl.
  split; [|by eauto using kfree_frame, junk_byte].
  constructor; cbn [ram km freelist km_lock chain].
  - apply store32_ok. by apply memset_page_ok.
  - split; [done|]. rewrite load32_store32_eq by done.
    apply (chain_frame (ram s)); [|done]. intros p x Hp Hx.
    apply kfree_frame; [done|].
    rewrite Forall_forall in Hg. apply (good_page_disjoint p v); auto.
    intros ->. done.
  - by constructor.
  - by constructor.
  - done.
Qed.

Lemma kalloc_inv s l :
  alloc_inv s l ->
  match l with
  | [] => kalloc s = ([], Ret 0 s)
  | p :: l' => exists s', kalloc s = ([], Ret p s') /\ alloc_inv s' l'
                /\ ram s' = ram s /\ use_lock (km s') = use_lock (km s)
  end.
Proof.
  intros [Hm Hc Hg Hnd Hl]. destruct s as [m [lk ul fl]]. simpl in *. subst lk.
  destruct l as [|p l]; simpl in Hc.
  - subst fl. by destruct ul.
  - destruct Hc as [-> Hc]. apply Forall_cons in Hg as [Hp Hg].
    apply good_page_range in Hp. apply NoDup_cons in Hnd as [_ Hnd].
    assert (p <> 0) by (unfold KERNBASE in *; lia).
    exists (mk_pmem m (mk_kmem false ul (load32 m p))).
    split; [|split; [by constructor|done]].
    unfold kalloc. simpl. destruct ul; unfold bind; simpl;
      destruct (Z.eqb_spec p 0); done.
Qed.

(** ** Rounding and ranges of pages *)

Lemma land_pgmask a : 0 <= a < 2 ^ 32 -> PGROUNDDOWN a = a - a `mod` PGSIZE.
Proof.
  intros Ha. unfold PGROUNDDOWN.
  change (u32 (Z.lnot (PGSIZE - 1))) with (Z.ldiff (Z.ones 32) (Z.ones 12)).
  rewrite <- (Z.mod_small a (2 ^ 32)) at 1 by lia. rewrite <- Z.land_ones by lia.
  assert (Z.land (Z.land a (Z.ones 32)) (Z.ldiff (Z.ones 32) (Z.ones 12))
          = Z.ldiff (Z.land a (Z.ones 32)) (Z.ones 12)) as ->.
  { apply Z.bits_inj'. intros n Hn. rewrite !Z.land_spec, !Z.ldiff_spec, Z.land_spec.
    destruct (Z.testbit a n), (Z.testbit (Z.ones 32) n); done. }
  rewrite Z.land_ones, Z.mod_small by lia.
  rewrite Z.ldiff_ones_r, Z.shiftl_mul_pow2, Z.shiftr_div_pow2 by lia.
  unfold PGSIZE. change (2 ^ 12) with 4096. pose proof (Z.div_mod a 4096). lia.
Qed.

Lemma PGROUNDUP_spec a :
  0 <= a -> a + PGSIZE <= 2 ^ 32 ->
  PGROUNDUP a `mod` PGSIZE = 0 /\ a <= PGROUNDUP a < a + PGSIZE.
Proof.
  intros Ha Ha'. unfold PGROUNDUP. rewrite u32_small by (unfold PGSIZE in *; lia).
  fold (PGROUNDDOWN (a + PGSIZE - 1)). rewrite land_pgmask by (unfold PGSIZE in *; lia).
  unfold PGSIZE in *. pose proof (Z.mod_pos_bound (a + 4096 - 1) 4096).
  split; [|lia]. rewrite Zminus_mod_idemp_r, Z.sub_diag. done.
Qed.

Definition pages (p : Z) (n : nat) : list Z := (fun i => p + PGSIZE * Z.of_nat i) <$> seq 0 n.

Lemma pages_S p n : pages p (S n) = p :: pages (p + PGSIZE) n.
Proof.
  unfold pages. simpl. f_equal; [lia|]. rewrite <- seq_shift, <- list_fmap_compose.
  apply list_fmap_ext. intros i x Hi. simpl. lia.
Qed.

Lemma elem_of_pages p n x :
  x ∈ pages p n <-> exists i, 0 <= i < Z.of_nat n /\ x = p + PGSIZE * i.
Proof.
  unfold pages. rewrite list_elem_of_fmap. split.
  - intros (i & -> & Hi%elem_of_seq). exists (Z.of_nat i). split; [lia|done].
  - intros (i & Hi & ->). exists (Z.to_nat i). split; [rewrite Z2Nat.id by lia; done|].
    apply elem_of_seq. lia.
Qed.

Lemma freerange_loop_spec n p vend s l fuel :
  alloc_inv s l -> Forall good_page (pages p n) -> (forall q, q ∈ pages p n -> q ∉ l) ->
  0 <= p -> vend - PGSIZE < p + PGSIZE * Z.of_nat n <= vend -> vend + PGSIZE < 2 ^ 32 ->
  (n <= fuel)%nat ->
  exists s', freerange_loop fuel p vend s = ([], Ret tt s')
    /\ alloc_inv s' (rev (pages p n) ++ l) /\ use_lock (km s') = use_lock (km s)
    /\ (forall x, x < p \/ vend <= x -> ram s' x = ram s x).
Proof.
  revert p s l fuel. induction n as [|n IH]; intros p s l fuel Hi Hg Hd Hp Hv Hw Hf.
  - exists s. split; [|by simpl].
    assert ((u32 (p + PGSIZE) <=? vend) = false) as Hc.
    { apply Z.leb_gt. rewrite u32_small by (unfold PGSIZE in *; lia). lia. }
    destruct fuel; simpl; rewrite Hc; done.
  - destruct fuel as [|fuel]; [lia|].
    rewrite pages_S in Hg, Hd. apply Forall_cons in Hg as [Hgp Hg].
    destruct (kfree_inv s l p Hi Hgp) as (s1 & Hk & Hi1 & Hu & Hm1 & _); [apply Hd; by left|].
    assert (u32 (p + PGSIZE) = p + PGSIZE) as Hpp by (apply u32_small; unfold PGSIZE in *; lia).
    destruct (IH (p + PGSIZE) s1 (p :: l) fuel) as (s2 & Hr & Hi2 & Hu2 & Hm2); auto;
      try (unfold PGSIZE in *; lia).
    { intros q Hq [->|Hq']%elem_of_cons.
      - apply elem_of_pages in Hq as (i & Hi' & Hq). unfold PGSIZE in *. lia.
      - apply (Hd q); [by right|done]. }
    exists s2. split; [|split; [|split; [congruence|]]].
    3: { intros x Hx. rewrite Hm2, Hm1; [done|..]; unfold in_page, PGSIZE in *; lia. }
    + cbn [freerange_loop]. rewrite Hpp.
      destruct (Z.leb_spec (p + PGSIZE) vend); [|unfold PGSIZE in *; lia].
      unfold bind. by rewrite Hk, Hr.
    + rewrite pages_S. simpl. rewrite <- app_assoc. exact Hi2.
Qed.

Lemma freerange_spec vstart vend s l :
  alloc_inv s l -> kend <= vstart <= vend -> PGROUNDUP vstart <= vend -> vend <= KERNBASE + PHYSTOP ->
  (forall q, q ∈ l -> q < vstart \/ vend <= q) ->
  let p := PGROUNDUP vstart in
  let n := Z.to_nat ((vend - p) / PGSIZE) in
  exists s', freerange vstart vend s = ([], Ret tt s')
    /\ alloc_inv s' (rev (pages p n) ++ l) /\ use_lock (km s') = use_lock (km s)
    /\ (forall x, x < p \/ vend <= x -> ram s' x = ram s x).
Proof.
  intros Hi Hs Hpe He Hd p n. unfold KERNBASE, PHYSTOP, PGSIZE in *.
  destruct (PGROUNDUP_spec vstart) as [Hal Hr].
  { lia. } { unfold PGSIZE. lia. }
  fold p in Hal, Hr, Hpe.
  assert (Hdiv := Z.div_mod (vend - p) 4096 ltac:(lia)).
  assert (Hmod := Z.mod_pos_bound (vend - p) 4096 ltac:(lia)).
  assert (0 <= (vend - p) `div` 4096) by (apply Z.div_pos; lia).
  assert (Hpg : forall q, q ∈ pages p n -> p <= q /\ q + 4096 <= vend /\ q `mod` 4096 = 0).
  { intros q (i & Hi' & ->)%elem_of_pages. unfold n, PGSIZE in *. rewrite Z2Nat.id in Hi' by lia.
    split; [lia|]. split; [lia|]. rewrite Z.mul_comm, Z_mod_plus_full. done. }
  apply freerange_loop_spec; unfold PGSIZE; auto; try (unfold n, PGSIZE; lia).
  - apply Forall_forall. intros q Hq. destruct (Hpg q Hq) as (? & ? & ?).
    unfold good_page, v2p, KERNBASE, PHYSTOP, PGSIZE. rewrite u32_small by lia. lia.
  - intros q Hq Hql. destruct (Hpg q Hq) as (? & ? & ?). destruct (Hd q Hql); lia.
Qed.

(** ** The allocator and its clients

    [owned] is the set of pages handed out and not given back.  Clients may
    write anywhere in the pages they own, and nowhere else. *)

Inductive astep : pmem * gset Z -> pmem * gset Z -> Prop :=
  | as_alloc s o e p s' :
      kalloc s = (e, Ret p s') -> p <> 0 -> astep (s, o) (s', {[p]} ∪ o)
  | as_alloc_fail s o e s' :
      kalloc s = (e, Ret 0 s') -> astep (s, o) (s', o)
  | as_free s o v e s' :
      v ∈ o -> kfree v s = (e, Ret tt s') -> astep (s, o) (s', o ∖ {[v]})
  | as_write s o m' :
      mem_ok m' -> (forall x, (forall p, p ∈ o -> ~ in_page p x) -> m' x = ram s x) ->
      astep (s, o) (mk_pmem m' (km s), o).

(** Free and owned pages partition the pages [all] the allocator started with. *)
Definition partitioned (all : list Z) (so : pmem * gset Z) : Prop :=
  exists l, alloc_inv so.1 l /\ (forall p, p ∈ l -> p ∉ so.2)
    /\ (forall p, p ∈ all <-> p ∈ l \/ p ∈ so.2).

Lemma astep_partitioned all x y :
  Forall good_page all -> partitioned all x -> astep x y -> partitioned all y.
Proof.
  intros Hall (l & Hi & Hd & Hp) Hst. destruct Hst as [s o e p s' Hk Hp0|s o e s' Hk|s o v e s' Hv Hk|s o m' Hm Hw]; simpl in *.
  - pose proof (kalloc_inv s l Hi) as Ha. destruct l as [|q l]; [congruence|].
    destruct Ha as (s1 & Hs1 & Hi1 & _). rewrite Hk in Hs1. injection Hs1 as -> -> ->.
    pose proof (ai_nodup _ _ Hi) as Hnd. apply NoDup_cons in Hnd as [Hnd _].
    exists l. split; [done|]. split; [|set_solver].
    intros q' Hq'. specialize (Hd q' ltac:(by right)). set_solver.
  - pose proof (kalloc_inv s l Hi) as Ha. destruct l as [|q l].
    + rewrite Hk in Ha. injection Ha as -> ->. by exists [].
    + destruct Ha as (s1 & Hs1 & _). rewrite Hk in Hs1. injection Hs1 as -> <- ->.
      pose proof (ai_good _ _ Hi) as Hg. apply Forall_cons in Hg as [Hg%good_page_range _].
      unfold KERNBASE in *. lia.
  - rewrite Forall_forall in Hall. assert (v ∉ l) by set_solver.
    destruct (kfree_inv s l v Hi) as (s1 & Hs1 & Hi1 & _); [set_solver|done|].
    rewrite Hk in Hs1. injection Hs1 as -> ->.
    exists (v :: l). split; [done|]. split; [set_solver|].
    intros p. rewrite Hp. destruct (decide (p = v)); set_solver.
  - exists l. split; [|done]. destruct Hi as [_ Hc Hg Hnd Hl]. constructor; auto.
    simpl. apply (chain_frame (ram s)); [|done]. intros p x Hpl Hx. apply Hw.
    intros q Hq. rewrite Forall_forall in Hall. apply (good_page_disjoint p q); set_solver.
Qed.

End Kalloc.

(** ** Theorems *)

(** [kfree] panics on exactly the addresses that are not whole pages of
    the memory above the kernel: misaligned, below [end], or above [PHYSTOP]. *)
Theorem kfree_panics kend v s :
  0 <= v < 2 ^ 32 -> km_lock (km s) = false ->
  kfree kend v s = ([], Panic "kfree") <-> ~ good_page kend v.
Proof.
  intros Hv Hl. split.
  - intros H Hg. rewrite (kfree_run kend v s Hg Hl) in H. done.
  - intros Hng. unfold kfree, good_page in *.
    destruct (Z.eqb_spec (v `mod` PGSIZE) 0), (Z.ltb_spec v kend),
      (Z.geb_spec (v2p v) PHYSTOP); simpl; try done. destruct Hng. lia.
Qed.
Lemma kfree_panics_witness :
  kfree 0x80100000 0x80200001 (mk_pmem (fun _ => 0) (mk_kmem false true 0))
  = ([], Panic "kfree").
Proof.
  apply (kfree_panics 0x80100000 0x80200001); [lia|done|].
  intros (H & _). vm_compute in H. done.
Defined.

(** [kinit1] leaves on the free list exactly the whole pages between
    [vstart] and [vend], each once, and the lock not yet in use; the memory below
    stays as it was, and the loop of [freerange] runs to its end. *)
Theorem kinit1_free_list kend vstart vend s :
  KERNBASE <= kend <= vstart -> vstart <= vend -> PGROUNDUP vstart <= vend ->
  vend <= KERNBASE + PHYSTOP -> mem_ok (ram s) -> freelist (km s) = 0 ->
  let p := PGROUNDUP vstart in
  exists s', kinit1 kend vstart vend s = ([], Ret tt s')
    /\ alloc_inv kend s' (rev (pages p (Z.to_nat ((vend - p) / PGSIZE))))
    /\ use_lock (km s') = false /\ (forall x, x < p -> ram s' x = ram s x).
Proof.
  intros Hk Hv Hp He Hm Hf p.
  destruct s as [m [lk ul fl]]. simpl in Hm, Hf. subst fl.
  set (s0 := mk_pmem m (mk_kmem false false 0)).
  destruct (freerange_spec kend ltac:(lia) vstart vend s0 []) as (s' & Hr & Hi & Hu & Hx);
    try lia; [by apply alloc_inv_nil|set_solver|].
  exists s'. rewrite app_nil_r in Hi. split; [|split; [done|split; [done|]]].
  2: { intros x Hlow. apply Hx. unfold p in *. lia. }
  cbv [kinit1 bind modify set_use_lock ram km use_lock freelist km_lock].
  fold s0. by rewrite Hr.
Qed.
Lemma kinit1_free_list_witness :
  exists s', kinit1 0x80100000 0x80100001 0x80103000 (mk_pmem (fun _ => 0) (mk_kmem false true 0))
             = ([], Ret tt s') /\ alloc_inv 0x80100000 s' [0x80102000; 0x80101000].
Proof.
  destruct (kinit1_free_list 0x80100000 0x80100001 0x80103000
              (mk_pmem (fun _ => 0) (mk_kmem false true 0))) as (s' & H & Hi & _).
  - vm_compute. split; discriminate.
  - lia.
  - vm_compute. discriminate.
  - vm_compute. discriminate.
  - intros x. simpl. lia.
  - done.
  - exists s'. split; [exact H|exact Hi].
Defined.

(** C6: whatever clients do with [kalloc], [kfree] and the pages they own, the
    free pages and the owned pages always partition the pages the allocator
    started with.  So [kalloc] never returns a page that is in use, no page is
    lost, and freeing an owned page never panics. *)
Theorem alloc_safe kend s0 all s o :
  KERNBASE <= kend -> alloc_inv kend s0 all ->
  rtc (astep kend) (s0, ∅) (s, o) ->
  partitioned kend all (s, o)
  /\ (forall e p s', kalloc s = (e, Ret p s') -> (p ∉ o) /\ (p <> 0 -> p ∈ all))
  /\ (forall v, v ∈ o -> exists s', kfree kend v s = ([], Ret tt s')).
Proof.
  intros Hk Hi Hr.
  assert (Hp : partitioned kend all (s, o)).
  { assert (partitioned kend all (s0, ∅)) as H0.
    { exists all. split; [done|]. split; set_solver. }
    revert H0. induction Hr; [done|]. intros H0. apply IHHr.
    eapply astep_partitioned; eauto using ai_good. }
  split; [done|]. destruct Hp as (l & Hl & Hd & Hp). simpl in *. split.
  - intros e p s' Hka. pose proof (kalloc_inv kend Hk s l Hl) as Ha.
    destruct l as [|q l].
    + rewrite Hka in Ha. injection Ha as _ -> _. split; [|done]. intros H0.
      pose proof (ai_good _ _ _ Hi) as Hg. rewrite Forall_forall in Hg.
      destruct (good_page_range kend Hk 0); [apply Hg, Hp; by right|].
      unfold KERNBASE in *. lia.
    + destruct Ha as (s1 & Hs1 & _). rewrite Hka in Hs1. injection Hs1 as _ -> _.
      split; [apply Hd; by left|]. intros _. apply Hp. left. by left.
  - intros v Hv. pose proof (ai_good _ _ _ Hi) as Hg. rewrite Forall_forall in Hg.
    destruct (kfree_inv kend Hk s l v) as (s' & Hs' & _); eauto; set_solver.
Qed.
Definition witness_pmem : pmem := mk_pmem (fun _ => 0) (mk_kmem false true 0x80200000).
Lemma alloc_safe_witness :
  partitioned 0x80100000 [0x80200000]
    (mk_pmem (fun _ => 0) (mk_kmem false true 0), {[0x80200000]} ∪ ∅).
Proof.
  apply (alloc_safe 0x80100000 witness_pmem [0x80200000]).
  - vm_compute. discriminate.
  - constructor.
    + intros x. simpl. lia.
    + done.
    + constructor; [|constructor]. vm_compute. repeat split; discriminate.
    + constructor; [set_solver|constructor].
    + done.
  - apply rtc_once. apply as_alloc with (e := []); [vm_compute; reflexivity|lia].
Defined.
