(* ===== verification/Buf.v ===== *)
(** * Disk buffers and the interfaces around the buffer cache

    [struct buf] of buf.h; the [Driver] class, which is what bio.c asks of a disk
    driver (memide.c and ide.c provide it); and the [BCache] class, which is what
    bio.c promises to log.c and fs.c.  At the end, the on-disk format of fs.h and the
    superblock reader of fs.c. *)

From stdpp Require Import base numbers list gmap strings.
From S2P Require Import Prelude Bytes.

Open Scope Z_scope.

(** ** param.h, fs.h, buf.h *)

Definition BSIZE : nat := 512.
Definition MAXOPBLOCKS : Z := 10.
Definition LOGSIZE : Z := MAXOPBLOCKS * 3.
Definition NBUF : nat := 30.
Definition FSSIZE : Z := 1000.
Definition ROOTDEV : Z := 1.

Definition B_BUSY : Z := 1.
Definition B_VALID : Z := 2.
Definition B_DIRTY : Z := 4.

(** [prev] and [next] point to buffers by their index in [bcache]. *)
Record buf := mk_buf {
  flags : Z;
  dev : Z;
  blockno : Z;
  prev : nat;
  next : nat;
  data : list Z
}.

Definition set_flags (f : Z) (b : buf) : buf :=
  mk_buf f (dev b) (blockno b) (prev b) (next b) (data b).
Definition set_prev (p : nat) (b : buf) : buf :=
  mk_buf (flags b) (dev b) (blockno b) p (next b) (data b).
Definition set_next (n : nat) (b : buf) : buf :=
  mk_buf (flags b) (dev b) (blockno b) (prev b) n (data b).
Definition set_data (d : list Z) (b : buf) : buf :=
  mk_buf (flags b) (dev b) (blockno b) (prev b) (next b) d.
Definition set_dev (d : Z) (b : buf) : buf :=
  mk_buf (flags b) d (blockno b) (prev b) (next b) (data b).
Definition set_blockno (n : Z) (b : buf) : buf :=
  mk_buf (flags b) (dev b) n (prev b) (next b) (data b).

(** The three flags as booleans. *)
Definition busy (b : buf) : bool := has (flags b) B_BUSY.
Definition valid (b : buf) : bool := has (flags b) B_VALID.
Definition dirty (b : buf) : bool := has (flags b) B_DIRTY.

Lemma busy_bit b : busy b = Z.testbit (flags b) 0.
Proof. apply (has_pow2 (flags b) 0). lia. Qed.
Lemma valid_bit b : valid b = Z.testbit (flags b) 1.
Proof. apply (has_pow2 (flags b) 1). lia. Qed.
Lemma dirty_bit b : dirty b = Z.testbit (flags b) 2.
Proof. apply (has_pow2 (flags b) 2). lia. Qed.

(** [(flags & (B_VALID|B_DIRTY)) == B_VALID] *)
Definition synced (b : buf) : bool := Z.land (flags b) (Z.lor B_VALID B_DIRTY) =? B_VALID.

Lemma synced_bits b : synced b = valid b && negb (dirty b).
Proof.
  unfold synced. rewrite valid_bit, dirty_bit.
  change (Z.lor B_VALID B_DIRTY) with (Z.lor (2 ^ 1) (2 ^ 2)). change B_VALID with (2 ^ 1).
  destruct (Z.eqb_spec (Z.land (flags b) (Z.lor (2 ^ 1) (2 ^ 2))) (2 ^ 1)) as [E|E].
  - pose proof (f_equal (fun x => Z.testbit x 1) E) as E1.
    pose proof (f_equal (fun x => Z.testbit x 2) E) as E2. cbn beta in E1, E2.
    rewrite Z.land_spec in E1, E2.
    change (Z.testbit (Z.lor (2 ^ 1) (2 ^ 2)) 1) with true in E1.
    change (Z.testbit (Z.lor (2 ^ 1) (2 ^ 2)) 2) with true in E2.
    change (Z.testbit (2 ^ 1) 1) with true in E1.
    change (Z.testbit (2 ^ 1) 2) with false in E2.
    rewrite andb_true_r in E1, E2. by rewrite E1, E2.
  - destruct (Z.testbit (flags b) 1) eqn:T1, (Z.testbit (flags b) 2) eqn:T2; try done.
    destruct E. apply Z.bits_inj'. intros n Hn.
    rewrite Z.land_spec, Z.lor_spec, !Z.pow2_bits_eqb by lia.
    destruct (Z.eqb_spec 1 n) as [<-|]; [by rewrite T1|].
    destruct (Z.eqb_spec 2 n) as [<-|]; [by rewrite T2|].
    apply andb_false_r.
Qed.

(** Flags after [|=] and [&= ~]. *)
Lemma busy_set_flag b k : 0 <= k ->
  busy (set_flags (set_flag (flags b) (2 ^ k)) b) = (k =? 0) || busy b.
Proof. intros. rewrite !busy_bit. by apply testbit_set_flag. Qed.
Lemma valid_set_flag b k : 0 <= k ->
  valid (set_flags (set_flag (flags b) (2 ^ k)) b) = (k =? 1) || valid b.
Proof. intros. rewrite !valid_bit. by apply testbit_set_flag. Qed.
Lemma dirty_set_flag b k : 0 <= k ->
  dirty (set_flags (set_flag (flags b) (2 ^ k)) b) = (k =? 2) || dirty b.
Proof. intros. rewrite !dirty_bit. by apply testbit_set_flag. Qed.
Lemma busy_clear_flag b k : 0 <= k ->
  busy (set_flags (clear_flag (flags b) (2 ^ k)) b) = negb (k =? 0) && busy b.
Proof. intros. rewrite !busy_bit. by apply testbit_clear_flag. Qed.
Lemma valid_clear_flag b k : 0 <= k ->
  valid (set_flags (clear_flag (flags b) (2 ^ k)) b) = negb (k =? 1) && valid b.
Proof. intros. rewrite !valid_bit. by apply testbit_clear_flag. Qed.
Lemma dirty_clear_flag b k : 0 <= k ->
  dirty (set_flags (clear_flag (flags b) (2 ^ k)) b) = negb (k =? 2) && dirty b.
Proof. intros. rewrite !dirty_bit. by apply testbit_clear_flag. Qed.

(** ** What a disk driver provides

    [iderw i b] synchronises buffer [b] (number [i]) with the disk and returns
    the buffer as the driver leaves it. *)
Class Driver (D : Type) := { drv_iderw : nat -> buf -> M D buf }.

(** Its contract: [drv_sector d n] is the block on the disk, [drv_ok d n] says
    that block [n] of [ROOTDEV] exists and the driver is ready. *)
Class DriverSpec (D : Type) `{Driver D} := {
  drv_sector : D -> Z -> list Z;
  drv_blocks : D -> Z;
  drv_ready : D -> Prop;

  drv_read : forall d i b,
    drv_ready d -> dev b = ROOTDEV -> 0 <= blockno b < drv_blocks d ->
    busy b = true -> valid b = false -> dirty b = false ->
    exists d', drv_iderw i b d =
      ([], Ret (set_flags (set_flag (flags b) B_VALID)
                  (set_data (drv_sector d (blockno b)) b)) d')
      /\ drv_ready d' /\ drv_blocks d' = drv_blocks d
      /\ (forall n, 0 <= n < drv_blocks d -> drv_sector d' n = drv_sector d n);

  drv_write : forall d i b,
    drv_ready d -> dev b = ROOTDEV -> 0 <= blockno b < drv_blocks d ->
    busy b = true -> dirty b = true -> length (data b) = BSIZE ->
    exists d' f, drv_iderw i b d = ([EvDiskWrite (blockno b) (data b)], Ret (set_flags f b) d')
      /\ (forall k, 0 <= k -> Z.testbit f k = if k =? 1 then true else if k =? 2 then false
                                              else Z.testbit (flags b) k)
      /\ drv_ready d' /\ drv_blocks d' = drv_blocks d
      /\ (forall n, 0 <= n < drv_blocks d ->
            drv_sector d' n = if n =? blockno b then data b else drv_sector d n);

  drv_sector_length : forall d n,
    drv_ready d -> 0 <= n < drv_blocks d -> length (drv_sector d n) = BSIZE
}.

(** ** What the buffer cache provides *)

(** [i] is the buffer number [bread] returned. *)
Class BCache (S : Type) := {
  bread : Z -> Z -> M S nat;
  bwrite : nat -> M S unit;
  brelse : nat -> M S unit;
  bdata : nat -> M S (list Z);              (* b->data *)
  set_bdata : nat -> list Z -> M S unit;    (* the caller changed b->data *)
  bblockno : nat -> M S Z;                  (* b->blockno *)
  pin : nat -> M S unit                     (* b->flags |= B_DIRTY *)
}.

(** The abstract buffer cache of device [ROOTDEV]: what readers see, what the
    disk holds, which buffers are held (busy) with the block each holds, and
    which blocks are pinned (dirty) and so may not be evicted. *)
Record cache := mk_cache {
  c_view : Z -> list Z;
  c_disk : Z -> list Z;
  c_held : gmap nat Z;
  c_pinned : gset Z
}.

Definition zupd {A} (f : Z -> A) (n : Z) (v : A) : Z -> A :=
  fun x => if x =? n then v else f x.

Definition held_block (c : cache) (n : Z) : Prop := exists i, c_held c !! i = Some n.

(** The cache nobody has used yet. *)
Definition fresh_cache (disk : Z -> list Z) : cache := mk_cache disk disk ∅ ∅.

(** Caches are compared block by block. *)
#[export] Instance cache_equiv : Equiv cache := fun c c' =>
  (forall n, c_view c n = c_view c' n) /\ (forall n, c_disk c n = c_disk c' n)
  /\ c_held c = c_held c' /\ c_pinned c = c_pinned c'.

#[export] Instance cache_equivalence : Equivalence (≡@{cache}).
Proof.
  split.
  - done.
  - intros c c' (H1 & H2 & H3 & H4). repeat split; symmetry; auto.
  - intros c1 c2 c3 (H1 & H2 & H3 & H4) (H5 & H6 & H7 & H8).
    split; [intros n; by rewrite H1|]. split; [intros n; by rewrite H2|]. split; congruence.
Qed.

(** There is a buffer to recycle. *)
Definition room (c : cache) : Prop := (size (c_held c) + size (c_pinned c) < NBUF)%nat.

Class BCacheSpec (S : Type) `{BCache S} := {
  brep : S -> cache -> Prop;
  nblk : S -> Z;                     (* number of blocks of the disk *)

  brep_proper : Proper ((=) ==> (≡) ==> iff) brep;

  bread_ok : forall s c n,
    brep s c -> 0 <= n < nblk s -> ~ held_block c n -> n ∈ c_pinned c \/ room c ->
    exists i s', bread ROOTDEV n s = ([], Ret i s') /\ c_held c !! i = None
      /\ brep s' (mk_cache (c_view c) (c_disk c) (<[i := n]> (c_held c)) (c_pinned c))
      /\ nblk s' = nblk s;

  bdata_ok : forall s c i n,
    brep s c -> c_held c !! i = Some n -> bdata i s = ([], Ret (c_view c n) s);

  bblockno_ok : forall s c i n,
    brep s c -> c_held c !! i = Some n -> bblockno i s = ([], Ret n s);

  set_bdata_ok : forall s c i n d,
    brep s c -> c_held c !! i = Some n -> length d = BSIZE ->
    exists s', set_bdata i d s = ([], Ret tt s')
      /\ brep s' (mk_cache (zupd (c_view c) n d) (c_disk c) (c_held c) (c_pinned c))
      /\ nblk s' = nblk s;

  pin_ok : forall s c i n,
    brep s c -> c_held c !! i = Some n ->
    exists s', pin i s = ([], Ret tt s')
      /\ brep s' (mk_cache (c_view c) (c_disk c) (c_held c) ({[n]} ∪ c_pinned c))
      /\ nblk s' = nblk s;

  bwrite_ok : forall s c i n,
    brep s c -> c_held c !! i = Some n ->
    exists s', bwrite i s = ([EvDiskWrite n (c_view c n)], Ret tt s')
      /\ brep s' (mk_cache (c_view c) (zupd (c_disk c) n (c_view c n)) (c_held c)
                    (c_pinned c ∖ {[n]}))
      /\ nblk s' = nblk s;

  brelse_ok : forall s c i n,
    brep s c -> c_held c !! i = Some n -> n ∈ c_pinned c \/ c_view c n = c_disk c n ->
    exists s', brelse i s = ([EvWakeup (ChBuf i)], Ret tt s')
      /\ brep s' (mk_cache (c_view c) (c_disk c) (delete i (c_held c)) (c_pinned c))
      /\ nblk s' = nblk s;

  bview_length : forall s c n,
    brep s c -> 0 <= n < nblk s -> length (c_view c n) = BSIZE;

  bclean : forall s c n,
    brep s c -> 0 <= n < nblk s -> n ∉ c_pinned c -> ~ held_block c n ->
    c_view c n = c_disk c n;

  bheld_range : forall s c i n,
    brep s c -> c_held c !! i = Some n -> 0 <= n < nblk s;

  bheld_uniq : forall s c i j n,
    brep s c -> c_held c !! i = Some n -> c_held c !! j = Some n -> i = j
}.

#[export] Existing Instance brep_proper.

Lemma brep_ext {S} `{BCacheSpec S} (s : S) c c' : c ≡ c' -> brep s c -> brep s c'.
Proof. intros Hc. by rewrite Hc. Qed.

Lemma zupd_eq {A} (f : Z -> A) n v : zupd f n v n = v.
Proof. unfold zupd. by rewrite Z.eqb_refl. Qed.
Lemma zupd_ne {A} (f : Z -> A) n v x : x <> n -> zupd f n v x = f x.
Proof. intros Hx. unfold zupd. by destruct (Z.eqb_spec x n). Qed.
Lemma zupd_zupd {A} (f : Z -> A) n v w x : zupd (zupd f n v) n w x = zupd f n w x.
Proof. unfold zupd. by destruct (x =? n). Qed.

(** ** The layout of the disk *)

Definition ROOTINO : Z := 1.
Definition NDIRECT : Z := 12.
Definition NINDIRECT : Z := Z.of_nat BSIZE / 4.
Definition MAXFILE : Z := NDIRECT + NINDIRECT.

Record superblock := mk_sb {
  sb_size : Z;          (* size of the image in blocks *)
  sb_nblocks : Z;       (* number of data blocks *)
  sb_ninodes : Z;
  sb_nlog : Z;          (* number of log blocks *)
  sb_logstart : Z;
  sb_inodestart : Z;
  sb_bmapstart : Z
}.

(** The seven [uint]s of [struct superblock] at the start of a block. *)
Definition sb_of (d : list Z) : superblock :=
  mk_sb (get32 d 0) (get32 d 4) (get32 d 8) (get32 d 12) (get32 d 16) (get32 d 20) (get32 d 24).

(** [sizeof(struct dinode)]: four shorts, a [uint] and [NDIRECT+1] addresses. *)
Definition DINODE_SIZE : Z := 2 * 4 + 4 + 4 * (NDIRECT + 1).
Definition IPB : Z := Z.of_nat BSIZE / DINODE_SIZE.
Definition IBLOCK (i : Z) (sb : superblock) : Z := u32 (i / IPB + sb_inodestart sb).
Definition BPB : Z := Z.of_nat BSIZE * 8.
Definition BBLOCK (b : Z) (sb : superblock) : Z := u32 (b / BPB + sb_bmapstart sb).
Definition DIRSIZ : nat := 14.

Section Readsb.
Context {S : Type} `{BCache S}.

Definition readsb (dev : Z) : M S superblock :=
  let* bp := bread dev 1 in
  let* d := bdata bp in
  let sb := sb_of d in
  brelse bp ;;
  ret sb.

End Readsb.
