(* ===== verification/Memide.v ===== *)
(** * The in-memory disk: memide.c

    The disk image is an array of bytes linked into the kernel. *)

From stdpp Require Import base numbers list strings.
From S2P Require Import Prelude Bytes Mem Str Buf.

Open Scope Z_scope.

Record memide := mk_memide {
  memdisk : mem;         (* the bytes of the image, from offset 0 *)
  disksize : Z           (* in blocks *)
}.

(** [ideinit], given the image the linker placed in the kernel and its size. *)
Definition ideinit (fs_img : mem) (fs_img_size : Z) : memide :=
  mk_memide fs_img (fs_img_size / Z.of_nat BSIZE).

Definition ideintr : M memide unit := ret tt.

(** [memmove(b->data, p, BSIZE)] and [memmove(p, b->data, BSIZE)]. *)
Definition read_block (m : mem) (p : Z) : list Z := m <$> zrange p BSIZE.
Definition write_block (m : mem) (p : Z) (d : list Z) : mem :=
  filled m p (Z.of_nat BSIZE) (fun i => byte_at d (Z.to_nat i)).

Definition iderw (b : buf) : M memide buf :=
  if negb (busy b) then panic "iderw: buf not busy"
  else if synced b then panic "iderw: nothing to do"
  else if negb (dev b =? 1) then panic "iderw: request not for disk 1"
  else
    let* d := get in
    if blockno b >=? disksize d then panic "iderw: block out of range"
    else
      let p := u32 (blockno b * Z.of_nat BSIZE) in
      let* b :=
        if dirty b then
          let b := set_flags (clear_flag (flags b) B_DIRTY) b in
          modify (fun d => mk_memide (write_block (memdisk d) p (data b)) (disksize d)) ;;
          emit (EvDiskWrite (blockno b) (data b)) ;;
          ret b
        else ret (set_data (read_block (memdisk d) p) b)
      in
      ret (set_flags (set_flag (flags b) B_VALID) b).

#[export] Instance memide_driver : Driver memide := { drv_iderw := fun _ => iderw }.

(** ** The driver contract *)

Lemma length_read_block m p : length (read_block m p) = BSIZE.
Proof. unfold read_block, zrange. by rewrite !length_fmap, length_seq. Qed.

Lemma lookup_read_block m p i :
  (i < BSIZE)%nat -> read_block m p !! i = Some (m (p + Z.of_nat i)).
Proof.
  intros Hi. unfold read_block, zrange. rewrite !list_lookup_fmap, lookup_seq_lt by done.
  done.
Qed.

Lemma read_write_block_eq m p d :
  length d = BSIZE -> read_block (write_block m p d) p = d.
Proof.
  intros Hd. apply list_eq_same_length with (n := BSIZE); auto using length_read_block.
  intros i x y Hi. rewrite lookup_read_block by done. intros [= <-] Hy.
  unfold write_block. rewrite filled_in by lia.
  rewrite byte_at_lookup. replace (Z.to_nat (p + Z.of_nat i - p)) with i by lia.
  by rewrite Hy.
Qed.

Lemma read_write_block_ne m p q d :
  q + Z.of_nat BSIZE <= p \/ p + Z.of_nat BSIZE <= q ->
  read_block (write_block m p d) q = read_block m q.
Proof.
  intros H. apply list_eq_same_length with (n := BSIZE); auto using length_read_block.
  intros i x y Hi. rewrite !lookup_read_block by done. intros [= <-] [= <-].
  unfold write_block. rewrite filled_out by lia. done.
Qed.

Definition sector (d : memide) (n : Z) : list Z :=
  read_block (memdisk d) (u32 (n * Z.of_nat BSIZE)).

Definition memide_ready (d : memide) : Prop := disksize d * Z.of_nat BSIZE < 2 ^ 32.

Lemma iderw_read d b :
  dev b = ROOTDEV -> 0 <= blockno b < disksize d ->
  busy b = true -> valid b = false -> dirty b = false ->
  iderw b d = ([], Ret (set_flags (set_flag (flags b) B_VALID)
                         (set_data (sector d (blockno b)) b)) d).
Proof.
  intros Hdev Hb Hbusy Hv Hd. unfold iderw. rewrite Hbusy, synced_bits, Hv, Hd, Hdev.
  unfold bind, get. simpl. destruct (Z.geb_spec (blockno b) (disksize d)); [lia|]. done.
Qed.

Lemma iderw_write d b :
  dev b = ROOTDEV -> 0 <= blockno b < disksize d -> busy b = true -> dirty b = true ->
  iderw b d =
    ([EvDiskWrite (blockno b) (data b)],
     Ret (set_flags (set_flag (clear_flag (flags b) B_DIRTY) B_VALID) b)
         (mk_memide (write_block (memdisk d) (u32 (blockno b * Z.of_nat BSIZE)) (data b))
                    (disksize d))).
Proof.
  intros Hdev Hb Hbusy Hd. unfold iderw.
  rewrite Hbusy, synced_bits, Hd, andb_false_r, Hdev. simpl negb.
  unfold bind, get. simpl. destruct (Z.geb_spec (blockno b) (disksize d)); [lia|]. done.
Qed.

Lemma block_offset d n :
  memide_ready d -> 0 <= n < disksize d -> u32 (n * Z.of_nat BSIZE) = n * Z.of_nat BSIZE.
Proof. unfold memide_ready, BSIZE. intros. apply u32_small. lia. Qed.

#[export, program] Instance memide_spec : DriverSpec memide := {
  drv_sector := sector;
  drv_blocks := disksize;
  drv_ready := memide_ready
}.
Next Obligation.
  intros d i b Hr Hdev Hb Hbusy Hv Hd. exists d. simpl.
  by rewrite iderw_read.
Qed.
Next Obligation.
  intros d i b Hr Hdev Hb Hbusy Hd Hlen. do 2 eexists. simpl.
  rewrite iderw_write by done. split; [done|].
  split; [|split; [exact Hr|split; [done|]]].
  - intros k Hk. change B_VALID with (2 ^ 1). change B_DIRTY with (2 ^ 2).
    rewrite testbit_set_flag, testbit_clear_flag by lia.
    destruct (Z.eqb_spec 1 k), (Z.eqb_spec k 1), (Z.eqb_spec 2 k), (Z.eqb_spec k 2);
      simpl; try done; lia.
  - intros n Hn. unfold sector. simpl. rewrite !(block_offset d) by done.
    destruct (Z.eqb_spec n (blockno b)) as [->|Hne].
    + by apply read_write_block_eq.
    + apply read_write_block_ne. unfold BSIZE. lia.
Qed.
Next Obligation. intros d n Hr Hn. apply length_read_block. Qed.
