(* ===== verification/Cells.v ===== *)
(** * The contents of the buffers and the abstract cache

    How the [NBUF] buffers of bio.c, seen without their links, represent the
    abstract [cache] of [Buf], and what each change of one buffer does to it. *)

From stdpp Require Import base numbers list gmap strings.
From S2P Require Import Prelude Bytes Buf.

Open Scope Z_scope.

Definition cells : Type := nat -> buf.

Definition cset (g : cells) (i : nat) (b : buf) : cells :=
  fun k => if decide (k = i) then b else g k.

(** [N] is the number of blocks of the disk. *)
Record cells_rep (g : cells) (c : cache) (N : Z) : Prop := {
  cr_dev : forall k, (k < NBUF)%nat ->
    dev (g k) = ROOTDEV \/ (dev (g k) <> ROOTDEV /\ busy (g k) = false /\ dirty (g k) = false);
  cr_uniq : forall i j, (i < NBUF)%nat -> (j < NBUF)%nat -> dev (g i) = ROOTDEV ->
    dev (g j) = ROOTDEV -> blockno (g i) = blockno (g j) -> i = j;
  cr_range : forall k, (k < NBUF)%nat -> dev (g k) = ROOTDEV -> 0 <= blockno (g k) < N;
  cr_valid : forall k, (k < NBUF)%nat -> dev (g k) = ROOTDEV -> valid (g k) = true;
  cr_data : forall k, (k < NBUF)%nat -> dev (g k) = ROOTDEV ->
    data (g k) = c_view c (blockno (g k));
  cr_held : forall k n, c_held c !! k = Some n <->
    (k < NBUF)%nat /\ busy (g k) = true /\ blockno (g k) = n;
  cr_pinned : forall n, n ∈ c_pinned c <->
    exists k, (k < NBUF)%nat /\ dirty (g k) = true /\ blockno (g k) = n;
  cr_clean : forall n, 0 <= n < N -> n ∉ c_pinned c -> ~ held_block c n ->
    c_view c n = c_disk c n;
  cr_len : forall n, 0 <= n < N -> length (c_view c n) = BSIZE
}.

Lemma cset_eq g i b : cset g i b i = b.
Proof. unfold cset. by rewrite decide_True. Qed.
Lemma cset_ne g i b k : k <> i -> cset g i b k = g k.
Proof. intros. unfold cset. by rewrite decide_False. Qed.

(** Split on whether an index is the one that changed. *)
Ltac cell_case k i :=
  destruct (decide (k = i)) as [->|?]; rewrite ?cset_eq in *; rewrite ?(cset_ne _ i _ k) in * by done.

Section CellsRep.
Variables (g : cells) (c : cache) (N : Z).
Hypothesis R : cells_rep g c N.

Lemma busy_dev k : (k < NBUF)%nat -> busy (g k) = true -> dev (g k) = ROOTDEV.
Proof. intros Hk Hb. destruct (cr_dev _ _ _ R k Hk) as [|(_ & H & _)]; congruence. Qed.

Lemma dirty_dev k : (k < NBUF)%nat -> dirty (g k) = true -> dev (g k) = ROOTDEV.
Proof. intros Hk Hb. destruct (cr_dev _ _ _ R k Hk) as [|(_ & _ & H)]; congruence. Qed.

(** A block that is held is in one buffer only. *)
Lemma held_inv i n : c_held c !! i = Some n ->
  (i < NBUF)%nat /\ busy (g i) = true /\ blockno (g i) = n /\ dev (g i) = ROOTDEV
  /\ valid (g i) = true /\ data (g i) = c_view c n /\ 0 <= n < N.
Proof.
  intros H. apply (cr_held _ _ _ R) in H as (Hi & Hb & <-).
  pose proof (busy_dev i Hi Hb) as Hd.
  repeat split; auto; try (by apply (cr_range _ _ _ R));
    [by apply (cr_valid _ _ _ R)|by apply (cr_data _ _ _ R)].
Qed.

Lemma held_block_dec n : held_block c n \/ ~ held_block c n.
Proof.
  destruct (decide (map_Exists (fun _ m => m = n) (c_held c))) as [E|E].
  - left. apply map_Exists_lookup in E as (i & m & Hi & ->). by exists i.
  - right. intros [i Hi]. apply E. apply map_Exists_lookup. eauto.
Qed.

Lemma cells_take i b' n :
  (i < NBUF)%nat -> dev (g i) = ROOTDEV -> blockno (g i) = n -> busy (g i) = false ->
  busy b' = true -> dirty b' = dirty (g i) -> valid b' = valid (g i) ->
  dev b' = dev (g i) -> blockno b' = blockno (g i) -> data b' = data (g i) ->
  cells_rep (cset g i b') (mk_cache (c_view c) (c_disk c) (<[i := n]> (c_held c)) (c_pinned c)) N.
Proof.
  intros Hi Hd Hn Hb Hb' Hdi Hv Hde Hbn Hda.
  constructor; cbn [c_view c_disk c_held c_pinned].
  - intros k Hk. cell_case k i; [left; congruence|by apply (cr_dev _ _ _ R)].
  - intros j k Hj Hk. cell_case j i; cell_case k i; try done;
      rewrite ?Hde, ?Hbn; intros; apply (cr_uniq _ _ _ R); auto; congruence.
  - intros k Hk. cell_case k i; rewrite ?Hde, ?Hbn; by apply (cr_range _ _ _ R).
  - intros k Hk. cell_case k i; rewrite ?Hde, ?Hv; by apply (cr_valid _ _ _ R).
  - intros k Hk. cell_case k i; rewrite ?Hde, ?Hbn, ?Hda; by apply (cr_data _ _ _ R).
  - intros k m. cell_case k i.
    + rewrite lookup_insert_eq, Hbn, Hn. naive_solver.
    + rewrite lookup_insert_ne by done. apply (cr_held _ _ _ R).
  - intros m. rewrite (cr_pinned _ _ _ R). split; intros (k & Hk & Hdk & Hm); exists k;
      (split; [done|]); cell_case k i; split; congruence.
  - intros m Hm Hp Hh. apply (cr_clean _ _ _ R); auto. intros [k Hk]. apply Hh. exists k.
    cbn [c_held]. rewrite lookup_insert_ne; [done|]. intros <-.
    apply (cr_held _ _ _ R) in Hk as (_ & Hk & _). congruence.
  - apply (cr_len _ _ _ R).
Qed.

Lemma cells_recycle i b' n :
  (i < NBUF)%nat -> busy (g i) = false -> dirty (g i) = false -> 0 <= n < N ->
  (forall k, (k < NBUF)%nat -> dev (g k) = ROOTDEV -> blockno (g k) <> n) ->
  busy b' = true -> dirty b' = false -> valid b' = true -> dev b' = ROOTDEV ->
  blockno b' = n -> data b' = c_disk c n ->
  cells_rep (cset g i b') (mk_cache (c_view c) (c_disk c) (<[i := n]> (c_held c)) (c_pinned c)) N.
Proof.
  intros Hi Hb Hd Hn Hnew Hb' Hdi Hv Hde Hbn Hda.
  assert (n ∉ c_pinned c) as Hnp.
  { rewrite (cr_pinned _ _ _ R). intros (k & Hk & Hdk & Hm).
    apply (Hnew k Hk); [by apply dirty_dev|done]. }
  assert (~ held_block c n) as Hnh.
  { intros [k Hk]. apply held_inv in Hk as (Hk & _ & Hm & Hkd & _). by apply (Hnew k). }
  constructor; cbn [c_view c_disk c_held c_pinned].
  - intros k Hk. cell_case k i; [by left|by apply (cr_dev _ _ _ R)].
  - intros j k Hj Hk. cell_case j i; cell_case k i; try done; rewrite ?Hbn; intros Hj' Hk' E.
    + by destruct (Hnew k Hk Hk').
    + by destruct (Hnew j Hj Hj').
    + by apply (cr_uniq _ _ _ R).
  - intros k Hk. cell_case k i; [by rewrite Hbn|by apply (cr_range _ _ _ R)].
  - intros k Hk. cell_case k i; [done|by apply (cr_valid _ _ _ R)].
  - intros k Hk. cell_case k i; [|by apply (cr_data _ _ _ R)].
    intros _. rewrite Hbn, Hda. symmetry. by apply (cr_clean _ _ _ R).
  - intros k m. cell_case k i.
    + rewrite lookup_insert_eq, Hbn. naive_solver.
    + rewrite lookup_insert_ne by done. apply (cr_held _ _ _ R).
  - intros m. rewrite (cr_pinned _ _ _ R). split; intros (k & Hk & Hdk & Hm); exists k;
      (split; [done|]); cell_case k i; split; congruence.
  - intros m Hm Hp Hh. apply (cr_clean _ _ _ R); auto. intros [k Hk]. apply Hh. exists k.
    cbn [c_held]. rewrite lookup_insert_ne; [done|]. intros <-.
    apply (cr_held _ _ _ R) in Hk as (_ & Hk & _). congruence.
  - apply (cr_len _ _ _ R).
Qed.

(** The other changes touch a held buffer and keep its block. *)
Section HeldCell.
Variables (i : nat) (n : Z) (b' : buf).
Hypothesis Hh : c_held c !! i = Some n.
Hypothesis Hde : dev b' = dev (g i).
Hypothesis Hbn : blockno b' = blockno (g i).

(** The parts of the invariant that only look at devices and block numbers. *)
Lemma cells_same_block :
  (forall j k, (j < NBUF)%nat -> (k < NBUF)%nat -> dev (cset g i b' j) = ROOTDEV ->
    dev (cset g i b' k) = ROOTDEV -> blockno (cset g i b' j) = blockno (cset g i b' k) -> j = k)
  /\ (forall k, (k < NBUF)%nat -> dev (cset g i b' k) = ROOTDEV ->
        0 <= blockno (cset g i b' k) < N)
  /\ (forall k, (k < NBUF)%nat -> dev (cset g i b' k) = ROOTDEV \/
       (dev (cset g i b' k) <> ROOTDEV /\ busy (cset g i b' k) = false
        /\ dirty (cset g i b' k) = false)).
Proof.
  destruct (held_inv i n Hh) as (Hi & Hb & Hn & Hd & _). split; [|split].
  - intros j k Hj Hk. cell_case j i; cell_case k i; try done;
      rewrite ?Hde, ?Hbn; intros; apply (cr_uniq _ _ _ R); auto; congruence.
  - intros k Hk. cell_case k i; rewrite ?Hde, ?Hbn; by apply (cr_range _ _ _ R).
  - intros k Hk. cell_case k i; [left; congruence|by apply (cr_dev _ _ _ R)].
Qed.

Lemma other_block k : (k < NBUF)%nat -> k <> i -> dev (g k) = ROOTDEV -> blockno (g k) <> n.
Proof.
  destruct (held_inv i n Hh) as (Hi & _ & Hn & Hd & _). intros Hk Hne Hdk E. apply Hne.
  apply (cr_uniq _ _ _ R); congruence.
Qed.

Lemma cells_set_data d :
  length d = BSIZE -> data b' = d ->
  busy b' = busy (g i) -> dirty b' = dirty (g i) -> valid b' = valid (g i) ->
  cells_rep (cset g i b') (mk_cache (zupd (c_view c) n d) (c_disk c) (c_held c) (c_pinned c)) N.
Proof.
  intros Hl Hda Hb Hd Hv. destruct (held_inv i n Hh) as (Hi & Hbi & Hn & Hdi & Hvi & _).
  destruct cells_same_block as (Hu & Hr & Hdv).
  constructor; cbn [c_view c_disk c_held c_pinned]; auto.
  - intros k Hk. cell_case k i; rewrite ?Hde, ?Hv; by apply (cr_valid _ _ _ R).
  - intros k Hk. unfold zupd. cell_case k i.
    + rewrite Hbn, Hn, Z.eqb_refl. done.
    + intros Hkd. destruct (Z.eqb_spec (blockno (g k)) n) as [E|E].
      * by destruct (other_block k).
      * by apply (cr_data _ _ _ R).
  - intros k m. rewrite (cr_held _ _ _ R). cell_case k i; rewrite ?Hb, ?Hbn; done.
  - intros m. rewrite (cr_pinned _ _ _ R). split; intros (k & Hk & Hdk & Hm); exists k;
      (split; [done|]); cell_case k i; split; congruence.
  - intros m Hm Hp Hnh. unfold zupd. destruct (Z.eqb_spec m n) as [->|].
    + destruct Hnh. by exists i.
    + by apply (cr_clean _ _ _ R).
  - intros m Hm. unfold zupd. destruct (m =? n); [done|by apply (cr_len _ _ _ R)].
Qed.

Lemma cells_pin :
  dirty b' = true -> busy b' = busy (g i) -> valid b' = valid (g i) -> data b' = data (g i) ->
  cells_rep (cset g i b') (mk_cache (c_view c) (c_disk c) (c_held c) ({[n]} ∪ c_pinned c)) N.
Proof.
  intros Hd Hb Hv Hda. destruct (held_inv i n Hh) as (Hi & Hbi & Hn & Hdi & Hvi & _).
  destruct cells_same_block as (Hu & Hr & Hdv).
  constructor; cbn [c_view c_disk c_held c_pinned]; auto.
  - intros k Hk. cell_case k i; rewrite ?Hde, ?Hv; by apply (cr_valid _ _ _ R).
  - intros k Hk. cell_case k i; rewrite ?Hde, ?Hbn, ?Hda; by apply (cr_data _ _ _ R).
  - intros k m. rewrite (cr_held _ _ _ R). cell_case k i; rewrite ?Hb, ?Hbn; done.
  - intros m. rewrite elem_of_union, elem_of_singleton, (cr_pinned _ _ _ R). split.
    + intros [->|(k & Hk & Hdk & Hm)].
      * exists i. rewrite cset_eq. split; [done|]. split; congruence.
      * exists k. split; [done|]. cell_case k i; split; congruence.
    + intros (k & Hk & Hdk & Hm). cell_case k i; [left; congruence|]. right. eauto.
  - intros m Hm Hp Hnh. apply (cr_clean _ _ _ R); auto. set_solver.
  - apply (cr_len _ _ _ R).
Qed.

Lemma cells_write :
  dirty b' = false -> busy b' = busy (g i) -> valid b' = true -> data b' = data (g i) ->
  cells_rep (cset g i b')
    (mk_cache (c_view c) (zupd (c_disk c) n (c_view c n)) (c_held c) (c_pinned c ∖ {[n]})) N.
Proof.
  intros Hd Hb Hv Hda. destruct (held_inv i n Hh) as (Hi & Hbi & Hn & Hdi & Hvi & _).
  destruct cells_same_block as (Hu & Hr & Hdv).
  constructor; cbn [c_view c_disk c_held c_pinned]; auto.
  - intros k Hk. cell_case k i; [done|by apply (cr_valid _ _ _ R)].
  - intros k Hk. cell_case k i; rewrite ?Hde, ?Hbn, ?Hda; by apply (cr_data _ _ _ R).
  - intros k m. rewrite (cr_held _ _ _ R). cell_case k i; rewrite ?Hb, ?Hbn; done.
  - intros m. rewrite elem_of_difference, elem_of_singleton, (cr_pinned _ _ _ R). split.
    + intros [(k & Hk & Hdk & Hm) Hne]. exists k. split; [done|].
      cell_case k i; [congruence|done].
    + intros (k & Hk & Hdk & Hm). cell_case k i; [congruence|]. split; [eauto|].
      intros ->. apply (other_block k); auto. by apply (dirty_dev k).
  - intros m Hm Hp Hnh. unfold zupd. destruct (Z.eqb_spec m n) as [->|]; [done|].
    apply (cr_clean _ _ _ R); auto. set_solver.
  - apply (cr_len _ _ _ R).
Qed.

Lemma cells_release :
  busy b' = false -> dirty b' = dirty (g i) -> valid b' = valid (g i) -> data b' = data (g i) ->
  n ∈ c_pinned c \/ c_view c n = c_disk c n ->
  cells_rep (cset g i b')
    (mk_cache (c_view c) (c_disk c) (delete i (c_held c)) (c_pinned c)) N.
Proof.
  intros Hb Hd Hv Hda Hsync. destruct (held_inv i n Hh) as (Hi & Hbi & Hn & Hdi & Hvi & _).
  destruct cells_same_block as (Hu & Hr & Hdv).
  constructor; cbn [c_view c_disk c_held c_pinned]; auto.
  - intros k Hk. cell_case k i; rewrite ?Hde, ?Hv; by apply (cr_valid _ _ _ R).
  - intros k Hk. cell_case k i; rewrite ?Hde, ?Hbn, ?Hda; by apply (cr_data _ _ _ R).
  - intros k m. cell_case k i.
    + rewrite lookup_delete_eq, Hb. naive_solver.
    + rewrite lookup_delete_ne by done. apply (cr_held _ _ _ R).
  - intros m. rewrite (cr_pinned _ _ _ R). split; intros (k & Hk & Hdk & Hm); exists k;
      (split; [done|]); cell_case k i; split; congruence.
  - intros m Hm Hp Hnh. destruct (decide (m = n)) as [->|Hne]; [naive_solver|].
    apply (cr_clean _ _ _ R); auto. intros [k Hk]. apply Hnh. exists k. cbn [c_held].
    rewrite lookup_delete_ne; [done|]. intros <-. congruence.
  - apply (cr_len _ _ _ R).
Qed.

End HeldCell.

(** Counting: when there is room, some buffer is neither held nor pinned. *)
Lemma room_clean :
  room c -> exists k, (k < NBUF)%nat /\ busy (g k) = false /\ dirty (g k) = false.
Proof.
  intros Hroom.
  set (B := filter (fun k => busy (g k) = true) (seq 0 NBUF)).
  set (P := filter (fun k => busy (g k) <> true) (seq 0 NBUF)).
  assert (Hlen : (length B + length P = NBUF)%nat).
  { rewrite <- length_app. unfold B, P.
    rewrite (filter_app_complement (fun k => busy (g k) = true) (seq 0 NBUF)).
    apply length_seq. }
  destruct (decide (Exists (fun k => dirty (g k) = false) P)) as [E|E].
  - apply Exists_exists in E as (k & Hk & Hd). exists k.
    apply list_elem_of_filter in Hk as [Hb Hk%elem_of_seq].
    split; [lia|]. split; [by destruct (busy (g k))|done].
  - exfalso. apply not_Exists_Forall in E; [|solve_decision]. rewrite Forall_forall in E.
    assert (length B <= size (c_held c))%nat as HB.
    { rewrite <- size_dom. rewrite <- (size_list_to_set (C := gset nat) B).
      - apply subseteq_size. intros k. rewrite elem_of_list_to_set, elem_of_dom.
        intros [Hb Hk%elem_of_seq]%list_elem_of_filter. exists (blockno (g k)).
        apply (cr_held _ _ _ R). split; [lia|done].
      - apply NoDup_filter, NoDup_seq. }
    assert (length P <= size (c_pinned c))%nat as HP.
    { rewrite <- (length_fmap (fun k => blockno (g k)) P).
      rewrite <- (size_list_to_set (C := gset Z)).
      - apply subseteq_size. intros m. rewrite elem_of_list_to_set, list_elem_of_fmap.
        intros (k & -> & Hk). apply (cr_pinned _ _ _ R). exists k.
        specialize (E k Hk). apply list_elem_of_filter in Hk as [_ Hk%elem_of_seq].
        split; [lia|]. split; [by apply not_false_iff_true|done].
      - apply NoDup_fmap_2_strong; [|apply NoDup_filter, NoDup_seq].
        intros j k Hj Hk Eb.
        pose proof (E j Hj) as Ej. pose proof (E k Hk) as Ek.
        apply list_elem_of_filter in Hj as [_ Hj%elem_of_seq].
        apply list_elem_of_filter in Hk as [_ Hk%elem_of_seq].
        apply (cr_uniq _ _ _ R); try lia; try done; apply dirty_dev; try lia;
          by apply not_false_iff_true. }
    unfold room in Hroom. lia.
Qed.

End CellsRep.

Lemma cells_rep_ext g g' c N :
  (forall k, (k < NBUF)%nat -> flags (g k) = flags (g' k) /\ dev (g k) = dev (g' k)
     /\ blockno (g k) = blockno (g' k) /\ data (g k) = data (g' k)) ->
  cells_rep g c N -> cells_rep g' c N.
Proof.
  intros He R.
  assert (Hf : forall k, (k < NBUF)%nat -> busy (g k) = busy (g' k) /\ dirty (g k) = dirty (g' k)
     /\ valid (g k) = valid (g' k) /\ dev (g k) = dev (g' k) /\ blockno (g k) = blockno (g' k)
     /\ data (g k) = data (g' k)).
  { intros k Hk. destruct (He k Hk) as (Hf & ?). unfold busy, dirty, valid. by rewrite Hf. }
  constructor.
  - intros k Hk. destruct (Hf k Hk) as (<- & <- & _ & <- & _). by apply (cr_dev _ _ _ R).
  - intros i j Hi Hj. destruct (Hf i Hi) as (_ & _ & _ & <- & <- & _).
    destruct (Hf j Hj) as (_ & _ & _ & <- & <- & _). by apply (cr_uniq _ _ _ R).
  - intros k Hk. destruct (Hf k Hk) as (_ & _ & _ & <- & <- & _). by apply (cr_range _ _ _ R).
  - intros k Hk. destruct (Hf k Hk) as (_ & _ & <- & <- & _). by apply (cr_valid _ _ _ R).
  - intros k Hk. destruct (Hf k Hk) as (_ & _ & _ & <- & <- & <-). by apply (cr_data _ _ _ R).
  - intros k n. rewrite (cr_held _ _ _ R). split; intros (Hk & Hr);
      destruct (Hf k Hk) as (E1 & _ & _ & _ & E2 & _); rewrite E1, E2 in *; done.
  - intros n. rewrite (cr_pinned _ _ _ R). split; intros (k & Hk & Hr); exists k;
      destruct (Hf k Hk) as (_ & E1 & _ & _ & E2 & _); rewrite E1, E2 in *; done.
  - apply (cr_clean _ _ _ R).
  - apply (cr_len _ _ _ R).
Qed.

Lemma cells_rep_cache g c c' N : c ≡ c' -> cells_rep g c N -> cells_rep g c' N.
Proof.
  intros (Hv & Hd & Hh & Hp) [R1 R2 R3 R4 R5 R6 R7 R8 R9]. constructor; auto.
  - intros k Hk Hdv. rewrite <- Hv. auto.
  - rewrite <- Hh. auto.
  - rewrite <- Hp. auto.
  - intros n Hn. rewrite <- Hp, <- Hv, <- Hd. unfold held_block. rewrite <- Hh. auto.
  - intros n Hn. rewrite <- Hv. auto.
Qed.
