(* ===== verification/Bio.v ===== *)
(** * The buffer cache: bio.c

    The buffers and the list head are the nodes [0 .. NBUF-1] and [HEAD = NBUF]
    of one array; [prev] and [next] are indices into it, updated in the order of
    the code.  A run that would block in [sleep] ends in [Sleep]; when the
    buffer's holder wakes it, the thread starts the operation's loop again. *)

From stdpp Require Import base numbers list gmap strings.
From S2P Require Import Prelude Bytes Buf Cells.

Open Scope Z_scope.

Definition HEAD : nat := NBUF.
(** [b->dev = -1] *)
Definition NODEV : Z := 2 ^ 32 - 1.

Record bio (D : Type) := mk_bio {
  bc_lock : bool;             (* bcache.lock *)
  nodes : list buf;           (* bcache.buf and bcache.head *)
  drv : D                     (* the disk behind the driver *)
}.
Arguments mk_bio {D}.
Arguments bc_lock {D}.
Arguments nodes {D}.
Arguments drv {D}.

Section Bio.
Context {D : Type} `{Driver D}.

Definition bclock : lens (bio D) bool :=
  Lens bc_lock (fun l s => mk_bio l (nodes s) (drv s)).
Definition drvl : lens (bio D) D :=
  Lens drv (fun d s => mk_bio (bc_lock s) (nodes s) d).

(** [*b], and an assignment to a field of [*b]. *)
Definition node (i : nat) : M (bio D) buf := fun s => deref (nodes s !! i) s.
Definition upd_node (i : nat) (f : buf -> buf) : M (bio D) unit :=
  let* b := node i in
  modify (fun s => mk_bio (bc_lock s) (<[i := f b]> (nodes s)) (drv s)).

(** Put [b] right after the head. *)
Definition binit_one (b : nat) : M (bio D) unit :=
  let* h := node HEAD in
  upd_node b (set_next (next h)) ;;
  upd_node b (set_prev HEAD) ;;
  upd_node b (set_dev NODEV) ;;
  let* h := node HEAD in
  upd_node (next h) (set_prev b) ;;
  upd_node HEAD (set_next b).

Definition binit : M (bio D) unit :=
  modify (lset bclock false) ;;
  upd_node HEAD (set_prev HEAD) ;;
  upd_node HEAD (set_next HEAD) ;;
  for_all (seq 0 NBUF) binit_one.

(** Is the block already cached?  Walks [next] from the head. *)
Fixpoint bget_scan (fuel : nat) (d n : Z) (i : nat) : M (bio D) (option nat) :=
  if (i =? HEAD)%nat then ret None
  else
    match fuel with
    | O => fun _ => ([], NoFuel)
    | S k =>
        let* b := node i in
        if (dev b =? d) && (blockno b =? n) then
          if negb (has (flags b) B_BUSY) then
            upd_node i (fun b => set_flags (set_flag (flags b) B_BUSY) b) ;;
            release bclock ;;
            ret (Some i)
          else sleep (ChBuf i) bclock
        else bget_scan k d n (next b)
    end.

(** Recycle some non-busy and clean buffer.  Walks [prev] from the head. *)
Fixpoint bget_recycle (fuel : nat) (d n : Z) (i : nat) : M (bio D) (option nat) :=
  if (i =? HEAD)%nat then ret None
  else
    match fuel with
    | O => fun _ => ([], NoFuel)
    | S k =>
        let* b := node i in
        if (Z.land (flags b) B_BUSY =? 0) && (Z.land (flags b) B_DIRTY =? 0) then
          upd_node i (set_dev d) ;;
          upd_node i (set_blockno n) ;;
          upd_node i (set_flags B_BUSY) ;;
          release bclock ;;
          ret (Some i)
        else bget_recycle k d n (prev b)
    end.

Definition bget (d n : Z) : M (bio D) nat :=
  acquire bclock ;;
  let* h := node HEAD in
  let* found := bget_scan NBUF d n (next h) in
  match found with
  | Some i => ret i
  | None =>
      let* h := node HEAD in
      let* found := bget_recycle NBUF d n (prev h) in
      match found with
      | Some i => ret i
      | None => panic "bget: no buffers"
      end
  end.

(** [iderw(b)]: the driver reads and writes [*b]. *)
Definition iderw (i : nat) : M (bio D) unit :=
  let* b := node i in
  let* b' := zoom drvl (drv_iderw i b) in
  upd_node i (fun _ => b').

Definition bread (d n : Z) : M (bio D) nat :=
  let* i := bget d n in
  let* b := node i in
  when (negb (has (flags b) B_VALID)) (iderw i) ;;
  ret i.

Definition bwrite (i : nat) : M (bio D) unit :=
  let* b := node i in
  if Z.land (flags b) B_BUSY =? 0 then panic "bwrite"
  else
    upd_node i (fun b => set_flags (set_flag (flags b) B_DIRTY) b) ;;
    iderw i.

Definition brelse (i : nat) : M (bio D) unit :=
  let* b := node i in
  if Z.land (flags b) B_BUSY =? 0 then panic "brelse"
  else
    acquire bclock ;;
    let* b := node i in
    upd_node (next b) (set_prev (prev b)) ;;
    let* b := node i in
    upd_node (prev b) (set_next (next b)) ;;
    let* h := node HEAD in
    upd_node i (set_next (next h)) ;;
    upd_node i (set_prev HEAD) ;;
    let* h := node HEAD in
    upd_node (next h) (set_prev i) ;;
    upd_node HEAD (set_next i) ;;
    upd_node i (fun b => set_flags (clear_flag (flags b) B_BUSY) b) ;;
    wakeup (ChBuf i) ;;
    release bclock.

#[export] Instance bio_bcache : BCache (bio D) := {
  Buf.bread := bread;
  Buf.bwrite := bwrite;
  Buf.brelse := brelse;
  Buf.bdata := fun i => let* b := node i in ret (data b);
  Buf.set_bdata := fun i d => upd_node i (set_data d);
  Buf.bblockno := fun i => let* b := node i in ret (blockno b);
  Buf.pin := fun i => upd_node i (fun b => set_flags (set_flag (flags b) B_DIRTY) b)
}.

(** ** The ring of buffers

    [seg nx pv i l j]: starting at [i], the [nx] links visit [l] and then [j],
    and the [pv] links lead back. *)

Fixpoint seg (nx pv : nat -> nat) (i : nat) (l : list nat) (j : nat) : Prop :=
  match l with
  | [] => nx i = j /\ pv j = i
  | x :: l' => nx i = x /\ pv x = i /\ seg nx pv x l' j
  end.

Lemma seg_frame nx pv nx' pv' i l j :
  (forall k, k ∈ i :: l -> nx' k = nx k) -> (forall k, k ∈ l ++ [j] -> pv' k = pv k) ->
  seg nx pv i l j -> seg nx' pv' i l j.
Proof.
  revert i. induction l as [|x l IH]; intros i Hn Hp; simpl.
  - intros [H1 H2]. split; [rewrite Hn; [done|by left]|rewrite Hp; [done|by left]].
  - intros (H1 & H2 & Hs). split; [rewrite Hn; [done|by left]|]. split.
    + rewrite Hp; [done|by left].
    + apply IH; [|intros k Hk; apply Hp; by right|done].
      intros k Hk. apply Hn. by right.
Qed.

Lemma seg_app nx pv i l1 x l2 j :
  seg nx pv i (l1 ++ x :: l2) j <-> seg nx pv i l1 x /\ seg nx pv x l2 j.
Proof.
  revert i. induction l1 as [|y l1 IH]; intros i; simpl; [tauto|]. rewrite IH. tauto.
Qed.

Lemma seg_rev nx pv i l j : seg nx pv i l j -> seg pv nx j (reverse l) i.
Proof.
  revert i. induction l as [|x l IH]; intros i; [simpl; tauto|].
  rewrite reverse_cons. intros (H1 & H2 & H3). apply seg_app. split; [by apply IH|by split].
Qed.

Lemma seg_last nx pv i l j : seg nx pv i l j -> pv j = default i (last l).
Proof.
  intros Hs. destruct l as [|l0 x] using rev_ind; simpl; [apply Hs|].
  rewrite last_snoc. simpl. apply seg_app in Hs as [_ [_ Hs]]. done.
Qed.

Lemma seg_head nx pv i l j : seg nx pv i l j -> nx i = default j (head l).
Proof. destruct l; simpl; intros Hs; apply Hs. Qed.

(** Taking a node out of the ring. *)
Lemma seg_unlink nx pv nx' pv' h l1 x l2 :
  seg nx pv h (l1 ++ x :: l2) h -> NoDup (h :: l1 ++ x :: l2) ->
  (forall k, nx' k = if decide (k = pv x) then nx x else nx k) ->
  (forall k, pv' k = if decide (k = nx x) then pv x else pv k) ->
  seg nx' pv' h (l1 ++ l2) h.
Proof.
  intros Hs Hnd Hnx Hpv. apply seg_app in Hs as [Hs1 Hs2].
  pose proof (seg_last _ _ _ _ _ Hs1) as Hp. pose proof (seg_head _ _ _ _ _ Hs2) as Hn.
  apply NoDup_cons in Hnd as [Hh Hnd]. apply NoDup_app in Hnd as (Hnd1 & Hd & Hnd2).
  apply NoDup_cons in Hnd2 as [Hx2 Hnd2].
  destruct l1 as [|p l1 _] using rev_ind; destruct l2 as [|n l2]; simpl in Hp, Hn.
  - simpl. rewrite Hnx, Hpv, Hp, Hn. by rewrite !decide_True.
  - simpl. rewrite (Hnx h), (Hpv n), Hp, Hn, !decide_True by done.
    split; [done|]. split; [done|]. destruct Hs2 as (_ & _ & Hs2).
    revert Hs2. apply seg_frame; intros k Hk.
    + rewrite Hnx, Hp, decide_False; [done|]. intros ->. set_solver.
    + rewrite Hpv, Hn, decide_False; [done|]. intros ->.
      apply NoDup_cons in Hnd2 as [? _]. set_solver.
  - rewrite app_nil_r. rewrite last_snoc in Hp. simpl in Hp.
    apply seg_app. apply seg_app in Hs1 as [Hs1 _]. split.
    + revert Hs1. apply seg_frame; intros k Hk.
      * rewrite Hnx, Hp, decide_False; [done|]. intros ->. apply NoDup_app in Hnd1. set_solver.
      * rewrite Hpv, Hn, decide_False; [done|]. intros ->. set_solver.
    + simpl. rewrite Hnx, Hpv, Hp, Hn, !decide_True by done. done.
  - rewrite last_snoc in Hp. simpl in Hp. rewrite <- app_assoc. simpl.
    apply seg_app. apply seg_app in Hs1 as [Hs1 _]. split.
    + revert Hs1. apply seg_frame; intros k Hk.
      * rewrite Hnx, Hp, decide_False; [done|]. intros ->. apply NoDup_app in Hnd1. set_solver.
      * rewrite Hpv, Hn, decide_False; [done|]. intros ->. set_solver.
    + simpl. rewrite (Hnx p), (Hpv n), Hp, Hn, !decide_True by done.
      split; [done|]. split; [done|]. destruct Hs2 as (_ & _ & Hs2).
      revert Hs2. apply seg_frame; intros k Hk.
      * rewrite Hnx, Hp, decide_False; [done|]. intros ->. set_solver.
      * rewrite Hpv, Hn, decide_False; [done|]. intros ->.
        apply NoDup_cons in Hnd2 as [? _]. set_solver.
Qed.

(** Putting a node right after the head. *)
Lemma seg_link nx pv nx' pv' h l j x :
  seg nx pv h l j -> NoDup (h :: l) -> x ∉ h :: l -> x <> j -> j ∉ l ->
  (forall k, nx' k = if decide (k = h) then x else if decide (k = x) then nx h else nx k) ->
  (forall k, pv' k = if decide (k = nx h) then x else if decide (k = x) then h else pv k) ->
  seg nx' pv' h (x :: l) j.
Proof.
  intros Hs Hnd Hx Hxj Hj Hnx Hpv. pose proof (seg_head _ _ _ _ _ Hs) as Hn.
  apply NoDup_cons in Hnd as [Hh Hnd].
  assert (x <> h) by set_solver.
  cbn [seg]. rewrite (Hnx h), decide_True by done. split; [done|].
  destruct l as [|y l]; simpl in Hn.
  - cbn [seg]. rewrite (Hpv x), (Hpv j), (Hnx x), Hn.
    repeat case_decide; naive_solver.
  - rewrite (Hpv x), Hn, decide_False by set_solver. rewrite decide_True by done.
    split; [done|]. cbn [seg]. rewrite (Hnx x), decide_False, decide_True by done.
    split; [done|]. rewrite (Hpv y), decide_True by done. split; [done|].
    destruct Hs as (_ & _ & Hs). revert Hs.
    apply NoDup_cons in Hnd as [Hy Hnd].
    apply seg_frame; intros k Hk.
    + rewrite Hnx, !decide_False; [done|set_solver..].
    + rewrite Hpv, Hn, !decide_False; [done|set_solver..].
Qed.

(** The links and the rest of a node array. *)
Definition nx (ns : list buf) (i : nat) : nat :=
  match ns !! i with Some b => next b | None => 0%nat end.
Definition pv (ns : list buf) (i : nat) : nat :=
  match ns !! i with Some b => prev b | None => 0%nat end.

Definition core_of (b : buf) : Z * Z * Z * list Z := (flags b, dev b, blockno b, data b).
Definition core (ns : list buf) (i : nat) : option (Z * Z * Z * list Z) := core_of <$> ns !! i.

Lemma lookup_alter_nodes (f : buf -> buf) (i : nat) (ns : list buf) (k : nat) :
  alter f i ns !! k = if decide (k = i) then f <$> ns !! k else ns !! k.
Proof.
  case_decide as E; [subst; apply list_lookup_alter_eq|by apply list_lookup_alter_ne].
Qed.

Lemma nx_alter (f : buf -> buf) (i : nat) (ns : list buf) k :
  (i < length ns)%nat ->
  nx (alter f i ns) k = if decide (k = i) then match ns !! i with Some b => next (f b) | _ => 0%nat end
                        else nx ns k.
Proof.
  intros Hi. unfold nx. rewrite lookup_alter_nodes. case_decide; [|done]. subst.
  by destruct (ns !! i).
Qed.

Lemma pv_alter (f : buf -> buf) (i : nat) (ns : list buf) k :
  (i < length ns)%nat ->
  pv (alter f i ns) k = if decide (k = i) then match ns !! i with Some b => prev (f b) | _ => 0%nat end
                        else pv ns k.
Proof.
  intros Hi. unfold pv. rewrite lookup_alter_nodes. case_decide; [|done]. subst.
  by destruct (ns !! i).
Qed.

Lemma nx_set_next v (i : nat) (ns : list buf) k :
  (i < length ns)%nat -> nx (alter (set_next v) i ns) k = if decide (k = i) then v else nx ns k.
Proof.
  intros Hi. rewrite nx_alter by done. case_decide; [|done].
  apply lookup_lt_is_Some_2 in Hi as [b ->]. done.
Qed.

Lemma pv_set_prev v (i : nat) (ns : list buf) k :
  (i < length ns)%nat -> pv (alter (set_prev v) i ns) k = if decide (k = i) then v else pv ns k.
Proof.
  intros Hi. rewrite pv_alter by done. case_decide; [|done].
  apply lookup_lt_is_Some_2 in Hi as [b ->]. done.
Qed.

(** An update that leaves a link field alone leaves the links alone. *)
Lemma nx_same (f : buf -> buf) (i : nat) (ns : list buf) k : (forall b, next (f b) = next b) -> nx (alter f i ns) k = nx ns k.
Proof.
  intros Hf. unfold nx. rewrite lookup_alter_nodes. case_decide; [|done]. subst.
  destruct (ns !! i); simpl; auto.
Qed.

Lemma pv_same (f : buf -> buf) (i : nat) (ns : list buf) k : (forall b, prev (f b) = prev b) -> pv (alter f i ns) k = pv ns k.
Proof.
  intros Hf. unfold pv. rewrite lookup_alter_nodes. case_decide; [|done]. subst.
  destruct (ns !! i); simpl; auto.
Qed.

Lemma core_same (f : buf -> buf) (i : nat) (ns : list buf) k :
  (forall b, core_of (f b) = core_of b) -> core (alter f i ns) k = core ns k.
Proof.
  intros Hf. unfold core. rewrite lookup_alter_nodes. case_decide; [|done]. subst.
  destruct (ns !! i); simpl; f_equal; auto.
Qed.

Lemma length_alter_nodes (f : buf -> buf) (i : nat) (ns : list buf) : length (alter f i ns) = length ns.
Proof. apply length_alter. Qed.

(** ** Runs of the primitive accesses *)

Lemma node_run i (s : bio D) :
  (i < length (nodes s))%nat ->
  exists b, nodes s !! i = Some b /\ node i s = ([], Ret b s)
    /\ next b = nx (nodes s) i /\ prev b = pv (nodes s) i.
Proof.
  intros Hi. apply lookup_lt_is_Some_2 in Hi as [b Hb]. exists b.
  unfold node, nx, pv. by rewrite Hb.
Qed.

Lemma upd_node_run i f (s : bio D) :
  (i < length (nodes s))%nat ->
  upd_node i f s = ([], Ret tt (mk_bio (bc_lock s) (alter f i (nodes s)) (drv s))).
Proof.
  intros Hi. apply lookup_lt_is_Some_2 in Hi as [b Hb]. unfold upd_node.
  rewrite (bind_nil _ _ _ b s) by (unfold node; by rewrite Hb).
  unfold modify. do 3 f_equal. apply list_eq. intros k. rewrite lookup_alter_nodes.
  case_decide; [subst|by rewrite list_lookup_insert_ne].
  rewrite Hb. apply list_lookup_insert_eq. by eapply lookup_lt_Some.
Qed.

(** ** The invariant of the list *)

Record bio_inv (s : bio D) (order : list nat) : Prop := {
  bi_len : length (nodes s) = S NBUF;
  bi_ring : seg (nx (nodes s)) (pv (nodes s)) HEAD order HEAD;
  bi_perm : order ≡ₚ seq 0 NBUF;
  bi_unlocked : bc_lock s = false
}.

Lemma seg_nx_in nx' pv' i l j k : seg nx' pv' i l j -> k ∈ i :: l -> nx' k ∈ l ++ [j].
Proof.
  revert i. induction l as [|x l IH]; intros i; simpl.
  - intros [H1 _] Hk. assert (k = i) as -> by set_solver. set_solver.
  - intros (H1 & _ & Hs) [->|Hk]%elem_of_cons; [set_solver|].
    specialize (IH _ Hs Hk). set_solver.
Qed.

Lemma seg_pv_in nx' pv' i l j k : seg nx' pv' i l j -> k ∈ l ++ [j] -> pv' k ∈ i :: l.
Proof.
  intros Hs Hk. apply seg_rev in Hs. apply (seg_nx_in _ _ _ _ _ k) in Hs; [|].
  - rewrite elem_of_app, elem_of_reverse in Hs. set_solver.
  - rewrite elem_of_app in Hk. rewrite elem_of_cons, elem_of_reverse. set_solver.
Qed.

Lemma order_elem s order i : bio_inv s order -> i ∈ order <-> (i < NBUF)%nat.
Proof.
  intros [_ _ Hp _]. rewrite Hp, elem_of_seq. lia.
Qed.

Lemma order_nodup s order : bio_inv s order -> NoDup (HEAD :: order).
Proof.
  intros Hi. constructor.
  - rewrite (order_elem _ _ _ Hi). unfold HEAD. lia.
  - rewrite (bi_perm _ _ Hi). apply NoDup_seq.
Qed.

Lemma links_range s order i :
  bio_inv s order -> (i < S NBUF)%nat ->
  (nx (nodes s) i < S NBUF)%nat /\ (pv (nodes s) i < S NBUF)%nat.
Proof.
  intros Hi Hlt.
  assert (i ∈ HEAD :: order) as Hin.
  { rewrite elem_of_cons, (order_elem _ _ _ Hi). unfold HEAD. lia. }
  assert (forall k, k ∈ HEAD :: order -> (k < S NBUF)%nat) as Hb.
  { intros k. rewrite elem_of_cons, (order_elem _ _ _ Hi). unfold HEAD. lia. }
  pose proof (bi_ring _ _ Hi) as Hs. split; apply Hb.
  - apply (seg_nx_in _ _ _ _ _ i) in Hs; [|done]. set_solver.
  - apply (seg_pv_in _ _ _ _ _ i) in Hs; [done|]. set_solver.
Qed.

(** What [brelse] does to the ring: [i] moves to the front. *)
Lemma relink_ring ns l1 i l2 :
  length ns = S NBUF -> seg (nx ns) (pv ns) HEAD (l1 ++ i :: l2) HEAD ->
  NoDup (HEAD :: l1 ++ i :: l2) ->
  (i < length ns)%nat -> (nx ns i < length ns)%nat -> (pv ns i < length ns)%nat ->
  let ns2 := alter (set_next (nx ns i)) (pv ns i) (alter (set_prev (pv ns i)) (nx ns i) ns) in
  let ns4 := alter (set_prev HEAD) i (alter (set_next (nx ns2 HEAD)) i ns2) in
  let ns6 := alter (set_next i) HEAD (alter (set_prev i) (nx ns2 HEAD) ns4) in
  (nx ns2 HEAD < length ns)%nat ->
  seg (nx ns6) (pv ns6) HEAD (i :: l1 ++ l2) HEAD.
Proof.
  intros Hlen Hs Hnd Hi Hn Hp ns2 ns4 ns6 Hn2.
  assert (HEAD < length ns)%nat by (unfold HEAD; lia).
  assert (Hs2 : seg (nx ns2) (pv ns2) HEAD (l1 ++ l2) HEAD).
  { apply (seg_unlink (nx ns) (pv ns) _ _ _ _ _ _ Hs Hnd); intros k; unfold ns2.
    - rewrite nx_set_next by (rewrite length_alter_nodes; done). case_decide; [done|].
      by apply nx_same.
    - rewrite pv_same by done. by rewrite pv_set_prev. }
  assert (Hnd' : NoDup (HEAD :: l1 ++ l2) /\ i ∉ HEAD :: l1 ++ l2).
  { assert (HEAD :: l1 ++ i :: l2 ≡ₚ i :: HEAD :: l1 ++ l2) as Hpm.
    { rewrite <- (Permutation_middle l1 l2 i). constructor. }
    rewrite Hpm in Hnd. by apply NoDup_cons in Hnd as [? ?]. }
  destruct Hnd' as [Hnd' Hfresh].
  assert (L4 : length ns4 = length ns) by (unfold ns4, ns2; by rewrite !length_alter_nodes).
  assert (L2 : length ns2 = length ns) by (unfold ns2; by rewrite !length_alter_nodes).
  apply (seg_link (nx ns2) (pv ns2)); auto.
  - set_solver.
  - apply NoDup_cons in Hnd' as [? _]. done.
  - intros k. unfold ns6. rewrite nx_set_next by (rewrite length_alter_nodes; lia).
    case_decide; [done|]. rewrite nx_same by done. unfold ns4. rewrite nx_same by done.
    by rewrite nx_set_next by lia.
  - intros k. unfold ns6. rewrite pv_same by done. rewrite pv_set_prev by lia.
    case_decide; [done|]. unfold ns4. rewrite pv_set_prev by (rewrite length_alter_nodes; lia).
    case_decide; [done|]. by apply pv_same.
Qed.

Lemma land_busy b : (Z.land (flags b) B_BUSY =? 0) = negb (busy b).
Proof. unfold busy, has. by rewrite negb_involutive. Qed.
Lemma land_dirty b : (Z.land (flags b) B_DIRTY =? 0) = negb (dirty b).
Proof. unfold dirty, has. by rewrite negb_involutive. Qed.

(** Step over an update of a node whose index is in range. *)
Local Ltac upd_step :=
  match goal with
  | |- bind (upd_node ?i ?f) _ ?s = _ =>
      rewrite (bind_nil _ _ _ _ _
        (upd_node_run i f s ltac:(simpl; rewrite ?length_alter_nodes; lia)));
      cbn [nodes drv bc_lock]
  end.
Local Ltac node_step b Hb Hnx Hpv :=
  let Hr := fresh "Hr" in
  match goal with
  | |- bind (node ?i) _ ?s = _ =>
      destruct (node_run i s ltac:(simpl; rewrite ?length_alter_nodes; lia))
        as (b & Hb & Hr & Hnx & Hpv);
      rewrite (bind_nil _ _ _ _ _ Hr); clear Hr; cbn [nodes drv bc_lock] in Hb, Hnx, Hpv
  end.

Definition clear_busy (b : buf) : buf := set_flags (clear_flag (flags b) B_BUSY) b.

Lemma brelse_run s order i b :
  bio_inv s order -> (i < NBUF)%nat -> nodes s !! i = Some b -> busy b = true ->
  exists ns' l1 l2,
    brelse i s = ([EvWakeup (ChBuf i)], Ret tt (mk_bio false ns' (drv s)))
    /\ order = l1 ++ i :: l2
    /\ bio_inv (mk_bio false ns' (drv s)) (i :: l1 ++ l2)
    /\ (forall k, core ns' k = core (alter clear_busy i (nodes s)) k).
Proof.
  intros Hi Hlt Hb Hbusy.
  pose proof (order_nodup _ _ Hi) as Hnd.
  pose proof (links_range _ _ i Hi ltac:(lia)) as [Hn Hp].
  pose proof (bi_len _ _ Hi) as Hlen. pose proof (bi_ring _ _ Hi) as Hring.
  assert (i ∈ order) as Hin by (by apply (order_elem _ _ _ Hi)).
  apply list_elem_of_split in Hin as (l1 & l2 & ->).
  assert (nx (nodes s) i <> i) as Hni.
  { apply seg_app in Hring as [_ Hs2]. apply seg_head in Hs2. rewrite Hs2.
    apply NoDup_cons in Hnd as [Hh Hnd]. apply NoDup_app in Hnd as (_ & _ & Hnd).
    apply NoDup_cons in Hnd as [Hi2 _]. destruct l2; simpl; set_solver. }
  destruct s as [lk ns d]. pose proof (bi_unlocked _ _ Hi) as Hl. simpl in *. subst lk.
  set (ns2 := alter (set_next (nx ns i)) (pv ns i) (alter (set_prev (pv ns i)) (nx ns i) ns)).
  assert (Hn2 : (nx ns2 HEAD < S NBUF)%nat).
  { unfold ns2. rewrite nx_set_next by (rewrite length_alter_nodes; lia).
    case_decide; [done|]. rewrite nx_same by done.
    apply (links_range _ _ HEAD Hi). unfold HEAD. lia. }
  assert (HEAD < S NBUF)%nat by (unfold HEAD; lia).
  set (ns4 := alter (set_prev HEAD) i (alter (set_next (nx ns2 HEAD)) i ns2)).
  set (ns6 := alter (set_next i) HEAD (alter (set_prev i) (nx ns2 HEAD) ns4)).
  exists (alter clear_busy i ns6), l1, l2.
  split; [|split; [done|split]].
  - unfold brelse. rewrite (bind_nil _ _ _ b (mk_bio false ns d)) by (unfold node; simpl; by rewrite Hb).
    rewrite land_busy, Hbusy. cbn [negb].
    run_by ltac:(reflexivity). cbn [lset bclock nodes drv].
    node_step b1 Hb1 Hnx1 Hpv1. rewrite Hnx1, Hpv1. upd_step.
    node_step b2 Hb2 Hnx2 Hpv2. rewrite Hnx2, Hpv2.
    rewrite nx_same by done. rewrite pv_set_prev, decide_False by (done || lia). upd_step.
    assert (length ns2 = S NBUF) by (unfold ns2; by rewrite !length_alter_nodes).
    fold ns2. node_step h Hh Hnxh Hpvh. rewrite Hnxh.
    upd_step. upd_step. fold ns4.
    assert (length ns4 = S NBUF) by (unfold ns4; by rewrite !length_alter_nodes).
    node_step h' Hh' Hnxh' Hpvh'. rewrite Hnxh'.
    assert (nx ns4 HEAD = nx ns2 HEAD) as ->.
    { unfold ns4. rewrite nx_same by done. rewrite nx_set_next by lia.
      rewrite decide_False; [done|unfold HEAD; lia]. }
    upd_step. upd_step. fold ns6.
    assert (length ns6 = S NBUF) by (unfold ns6; by rewrite !length_alter_nodes).
    upd_step. reflexivity.
  - constructor; cbn [nodes drv bc_lock].
    + rewrite length_alter_nodes. unfold ns6, ns4, ns2. by rewrite !length_alter_nodes.
    + apply (seg_frame (nx ns6) (pv ns6)); [intros; by apply nx_same|intros; by apply pv_same|].
      apply relink_ring; rewrite ?Hlen; auto; lia.
    + rewrite <- (bi_perm _ _ Hi). by rewrite Permutation_middle.
    + done.
  - intros k. unfold core. rewrite !lookup_alter_nodes. case_decide; [subst|].
    + assert (core ns6 i = core ns i) as Hc.
      { unfold ns6, ns4, ns2. by rewrite !core_same by done. }
      unfold core in Hc. rewrite Hb in *. destruct (ns6 !! i) as [b6|]; simpl in *; [|done].
      injection Hc as Hf Hd Hbn Hda. unfold core_of, clear_busy, set_flags. simpl. congruence.
    + change (core ns6 k = core ns k). unfold ns6, ns4, ns2. by rewrite !core_same by done.
Qed.

(** ** [bget] on the list *)

Definition matches (ns : list buf) (d n : Z) (k : nat) : bool :=
  match ns !! k with Some b => (dev b =? d) && (blockno b =? n) | None => false end.
Definition clean (ns : list buf) (k : nat) : bool :=
  match ns !! k with Some b => negb (busy b) && negb (dirty b) | None => false end.

Definition take_busy (b : buf) : buf := set_flags (set_flag (flags b) B_BUSY) b.
Lemma busy_take_busy b : busy (take_busy b) = true.
Proof. apply (busy_set_flag b 0). lia. Qed.
Lemma valid_take_busy b : valid (take_busy b) = valid b.
Proof. apply (valid_set_flag b 0). lia. Qed.
Lemma dirty_take_busy b : dirty (take_busy b) = dirty b.
Proof. apply (dirty_set_flag b 0). lia. Qed.

Definition recycle (d n : Z) (b : buf) : buf :=
  set_flags B_BUSY (set_blockno n (set_dev d b)).

Lemma alter_alter_nodes (f g : buf -> buf) (i : nat) (ns : list buf) :
  alter f i (alter g i ns) = alter (fun b => f (g b)) i ns.
Proof.
  apply list_eq. intros k. rewrite !lookup_alter_nodes. case_decide; [|done].
  by destruct (ns !! k).
Qed.

Lemma bget_scan_spec fuel d n ns dr p l :
  length ns = S NBUF -> seg (nx ns) (pv ns) p l HEAD ->
  (forall k, k ∈ l -> (k < NBUF)%nat) -> (length l <= fuel)%nat ->
  bget_scan fuel d n (nx ns p) (mk_bio true ns dr) =
    match find (matches ns d n) l with
    | None => ([], Ret None (mk_bio true ns dr))
    | Some k =>
        if default true (busy <$> ns !! k) then ([], Sleep (ChBuf k) (mk_bio false ns dr))
        else ([], Ret (Some k) (mk_bio false (alter take_busy k ns) dr))
    end.
Proof.
  intros Hlen. revert fuel p. induction l as [|k l IH]; intros fuel p Hs Hk Hf.
  - destruct Hs as [-> _]. destruct fuel; done.
  - destruct Hs as (-> & _ & Hs). assert (k < NBUF)%nat as Hkn by (apply Hk; by left).
    destruct fuel as [|fuel]; [simpl in Hf; lia|]. cbn [bget_scan].
    destruct (Nat.eqb_spec k HEAD); [unfold HEAD in *; lia|].
    node_step b Hb Hnx Hpv. rewrite Hnx. simpl find. unfold matches at 1. rewrite Hb.
    destruct ((dev b =? d) && (blockno b =? n)).
    + rewrite Hb. simpl. fold (busy b). destruct (busy b); simpl; [done|].
      rewrite (bind_nil _ _ _ _ _ (upd_node_run k _ (mk_bio true ns dr) ltac:(simpl; lia))).
      done.
    + apply IH; [done| |simpl in Hf; lia]. intros k' Hk'. apply Hk. by right.
Qed.

Lemma bget_recycle_spec fuel d n ns dr p l :
  length ns = S NBUF -> seg (pv ns) (nx ns) p l HEAD ->
  (forall k, k ∈ l -> (k < NBUF)%nat) -> (length l <= fuel)%nat ->
  bget_recycle fuel d n (pv ns p) (mk_bio true ns dr) =
    match find (clean ns) l with
    | None => ([], Ret None (mk_bio true ns dr))
    | Some k => ([], Ret (Some k) (mk_bio false (alter (recycle d n) k ns) dr))
    end.
Proof.
  intros Hlen. revert fuel p. induction l as [|k l IH]; intros fuel p Hs Hk Hf.
  - destruct Hs as [-> _]. destruct fuel; done.
  - destruct Hs as (-> & _ & Hs). assert (k < NBUF)%nat as Hkn by (apply Hk; by left).
    destruct fuel as [|fuel]; [simpl in Hf; lia|]. cbn [bget_recycle].
    destruct (Nat.eqb_spec k HEAD); [unfold HEAD in *; lia|].
    node_step b Hb Hnx Hpv. rewrite Hpv. simpl find. unfold clean at 1. rewrite Hb.
    rewrite land_busy, land_dirty. destruct (negb (busy b) && negb (dirty b)).
    + upd_step. upd_step. upd_step. by rewrite !alter_alter_nodes.
    + apply IH; [done| |simpl in Hf; lia]. intros k' Hk'. apply Hk. by right.
Qed.

(** [bget], from the list of buffers in most-recently-used order: a cached block
    is taken where it is (or waited for), otherwise the least recently used
    clean buffer is recycled. *)
Lemma bget_run s order d n :
  bio_inv s order ->
  bget d n s =
    match find (matches (nodes s) d n) order with
    | Some k =>
        if default true (busy <$> nodes s !! k) then ([], Sleep (ChBuf k) s)
        else ([], Ret k (mk_bio false (alter take_busy k (nodes s)) (drv s)))
    | None =>
        match find (clean (nodes s)) (reverse order) with
        | Some k => ([], Ret k (mk_bio false (alter (recycle d n) k (nodes s)) (drv s)))
        | None => ([], Panic "bget: no buffers")
        end
    end.
Proof.
  intros Hi. destruct s as [lk ns dr]. pose proof (bi_unlocked _ _ Hi) as Hl.
  pose proof (bi_len _ _ Hi) as Hlen. pose proof (bi_ring _ _ Hi) as Hr. simpl in *. subst lk.
  assert (length order = NBUF) as Hol by (rewrite (bi_perm _ _ Hi); by rewrite length_seq).
  assert (forall k, k ∈ order -> (k < NBUF)%nat) as Hok by (intros k; by rewrite (order_elem _ _ _ Hi)).
  assert (HEAD < S NBUF)%nat by (unfold HEAD; lia).
  unfold bget. run_by ltac:(reflexivity). cbn [lset bclock nodes drv].
  node_step h Hh Hnx Hpv. rewrite Hnx.
  pose proof (bget_scan_spec NBUF d n ns dr HEAD order Hlen Hr Hok ltac:(lia)) as Hsc.
  destruct (find (matches ns d n) order) as [k|].
  - destruct (default true (busy <$> ns !! k)).
    + by apply bind_sleep_eq.
    + by run_with Hsc.
  - run_with Hsc. clear h Hh Hnx Hpv. node_step h Hh Hnx Hpv. rewrite Hpv.
    pose proof (bget_recycle_spec NBUF d n ns dr HEAD (reverse order) Hlen (seg_rev _ _ _ _ _ Hr)) as Hrc.
    rewrite length_reverse in Hrc.
    specialize (Hrc ltac:(intros k; rewrite elem_of_reverse; apply Hok) ltac:(lia)).
    destruct (find (clean ns) (reverse order)); by run_with Hrc.
Qed.

(** ** [binit] builds the ring *)

Definition fresh_dev (b : buf) : buf := set_dev NODEV b.

Lemma binit_one_run ns dr l x :
  length ns = S NBUF -> seg (nx ns) (pv ns) HEAD l HEAD -> NoDup (HEAD :: l) ->
  x ∉ HEAD :: l -> (x < NBUF)%nat -> (forall k, k ∈ l -> (k < NBUF)%nat) ->
  exists ns', binit_one x (mk_bio false ns dr) = ([], Ret tt (mk_bio false ns' dr))
    /\ length ns' = S NBUF /\ seg (nx ns') (pv ns') HEAD (x :: l) HEAD
    /\ (forall k, core ns' k = core (alter fresh_dev x ns) k).
Proof.
  intros Hlen Hs Hnd Hx Hlt Hl.
  assert (HEAD < S NBUF)%nat by (unfold HEAD; lia).
  assert (nx ns HEAD < S NBUF)%nat as Hnh.
  { rewrite (seg_head _ _ _ _ _ Hs). destruct l as [|y l]; simpl; [done|].
    specialize (Hl y ltac:(by left)). lia. }
  assert (x <> HEAD) as Hxh by (unfold HEAD; lia).
  set (ns3 := alter (fun b => set_dev NODEV (set_prev HEAD (set_next (nx ns HEAD) b))) x ns).
  assert (length ns3 = S NBUF) as Hl3 by (unfold ns3; by rewrite length_alter_nodes).
  assert (nx ns3 HEAD = nx ns HEAD) as Hnx3.
  { unfold ns3. rewrite nx_alter by lia. by rewrite decide_False. }
  exists (alter (set_next x) HEAD (alter (set_prev x) (nx ns HEAD) ns3)).
  split; [|split; [by rewrite !length_alter_nodes|split]].
  - unfold binit_one. node_step h Hh Hnxh Hpvh. rewrite Hnxh.
    upd_step. upd_step. upd_step. rewrite !alter_alter_nodes. fold ns3.
    node_step h' Hh' Hnxh' Hpvh'. rewrite Hnxh', Hnx3. upd_step.
    rewrite upd_node_run; [done|]. simpl. rewrite length_alter_nodes. lia.
  - apply (seg_link (nx ns) (pv ns)); auto.
    + by apply NoDup_cons in Hnd as [? _].
    + intros k. rewrite nx_set_next by (rewrite length_alter_nodes; lia).
      case_decide; [done|]. rewrite nx_same by done. unfold ns3. rewrite nx_alter by lia.
      case_decide; [subst|done].
      destruct (proj2 (lookup_lt_is_Some ns x) ltac:(lia)) as [b ->]. done.
    + intros k. rewrite pv_same by done. rewrite pv_set_prev by lia.
      case_decide; [done|]. unfold ns3. rewrite pv_alter by lia.
      case_decide; [subst|done].
      destruct (proj2 (lookup_lt_is_Some ns x) ltac:(lia)) as [b ->]. done.
  - intros k. rewrite !core_same by done. unfold ns3, core. rewrite !lookup_alter_nodes.
    case_decide; [|done]. by destruct (ns !! k).
Qed.

Lemma binit_loop m k ns dr :
  (k + m <= NBUF)%nat -> length ns = S NBUF ->
  seg (nx ns) (pv ns) HEAD (reverse (seq 0 k)) HEAD ->
  exists ns', for_all (seq k m) binit_one (mk_bio false ns dr) = ([], Ret tt (mk_bio false ns' dr))
    /\ length ns' = S NBUF /\ seg (nx ns') (pv ns') HEAD (reverse (seq 0 (k + m))) HEAD
    /\ (forall i, core ns' i = if decide (k <= i < k + m)%nat
                              then core_of <$> (fresh_dev <$> ns !! i) else core ns i).
Proof.
  revert k ns. induction m as [|m IH]; intros k ns Hkm Hlen Hs.
  - exists ns. rewrite Nat.add_0_r. repeat split; auto.
    intros i. rewrite decide_False by lia. done.
  - destruct (binit_one_run ns dr (reverse (seq 0 k)) k) as (ns1 & H1 & Hl1 & Hs1 & Hc1); auto.
    + constructor; [|rewrite reverse_Permutation; apply NoDup_seq].
      rewrite elem_of_reverse, elem_of_seq. unfold HEAD. lia.
    + rewrite elem_of_cons, elem_of_reverse, elem_of_seq. unfold HEAD. lia.
    + lia.
    + intros i. rewrite elem_of_reverse, elem_of_seq. lia.
    + destruct (IH (S k) ns1) as (ns2 & H2 & Hl2 & Hs2 & Hc2); [lia|done| |].
      { rewrite seq_S, reverse_app. done. }
      exists ns2. split; [|split; [done|split]].
      * simpl. by run_with H1.
      * by rewrite <- Nat.add_succ_comm.
      * intros i. rewrite Hc2. specialize (Hc1 i). unfold core in *.
        rewrite lookup_alter_nodes in Hc1.
        repeat (case_decide; try lia); rewrite ?Hc1; try done.
        -- destruct (ns1 !! i), (ns !! i); simpl in *; try done.
           injection Hc1 as E1 E2 E3 E4. unfold core_of. simpl. congruence.
Qed.

Lemma binit_run s :
  length (nodes s) = S NBUF ->
  exists ns', binit s = ([], Ret tt (mk_bio false ns' (drv s)))
    /\ bio_inv (mk_bio false ns' (drv s)) (reverse (seq 0 NBUF))
    /\ (forall i, (i < NBUF)%nat -> core ns' i = core_of <$> (fresh_dev <$> nodes s !! i)).
Proof.
  intros Hlen. destruct s as [lk ns dr]. simpl in *.
  assert (HEAD < S NBUF)%nat by (unfold HEAD; lia).
  set (ns0 := alter (fun b => set_next HEAD (set_prev HEAD b)) HEAD ns).
  destruct (binit_loop NBUF 0 ns0 dr) as (ns' & Hr & Hl & Hs & Hc).
  - lia.
  - unfold ns0. by rewrite length_alter_nodes.
  - simpl. unfold ns0. rewrite nx_alter, pv_alter, !decide_True by (done || lia).
    destruct (proj2 (lookup_lt_is_Some ns HEAD) ltac:(lia)) as [b ->]. done.
  - exists ns'. split; [|split].
    + unfold binit. run_by ltac:(reflexivity). cbn [lset bclock nodes drv].
      upd_step. upd_step. rewrite alter_alter_nodes. fold ns0. done.
    + constructor; simpl; auto. by rewrite reverse_Permutation.
    + intros i Hi. rewrite Hc, decide_True by lia. unfold ns0.
      rewrite lookup_alter_nodes, decide_False; [done|unfold HEAD; lia].
Qed.

(** ** bio.c implements the abstract cache *)

Definition no_buf : buf := mk_buf 0 NODEV 0 0 0 [].
Definition cell (ns : list buf) : cells := fun k => default no_buf (ns !! k).

Lemma cell_alter (f : buf -> buf) (i : nat) (ns : list buf) k :
  (i < length ns)%nat -> cell (alter f i ns) k = cset (cell ns) i (f (cell ns i)) k.
Proof.
  intros Hi. unfold cell, cset. rewrite lookup_alter_nodes. case_decide; [subst|done].
  apply lookup_lt_is_Some_2 in Hi as [b ->]. done.
Qed.

Lemma cell_lookup (ns : list buf) i : (i < length ns)%nat -> ns !! i = Some (cell ns i).
Proof. intros Hi. unfold cell. by apply lookup_lt_is_Some_2 in Hi as [b ->]. Qed.

Lemma bio_inv_alter s order (f : buf -> buf) i d :
  bio_inv s order -> (forall b, next (f b) = next b /\ prev (f b) = prev b) ->
  bio_inv (mk_bio false (alter f i (nodes s)) d) order.
Proof.
  intros [Hl Hr Hp Hu] Hf. constructor; simpl; auto.
  - by rewrite length_alter_nodes.
  - revert Hr. apply seg_frame; intros; [apply nx_same|apply pv_same]; intros; apply Hf.
Qed.

Section BioSpec.
Context `{!DriverSpec D}.

Definition bio_rep (s : bio D) (c : cache) : Prop :=
  (exists order, bio_inv s order) /\ drv_ready (drv s)
  /\ (forall n, 0 <= n < drv_blocks (drv s) -> drv_sector (drv s) n = c_disk c n)
  /\ cells_rep (cell (nodes s)) c (drv_blocks (drv s)).

Lemma rep_alter s c c' (f : buf -> buf) i :
  bio_rep s c -> (i < NBUF)%nat -> (forall b, next (f b) = next b /\ prev (f b) = prev b) ->
  c_disk c' = c_disk c ->
  cells_rep (cset (cell (nodes s)) i (f (cell (nodes s) i))) c' (drv_blocks (drv s)) ->
  bio_rep (mk_bio false (alter f i (nodes s)) (drv s)) c'.
Proof.
  intros ((order & Hi) & Hrd & Hsec & Hc) Hlt Hf Hd Hc'. split; [|split; [done|split]].
  - exists order. by apply bio_inv_alter.
  - simpl. by rewrite Hd.
  - simpl. revert Hc'. apply cells_rep_ext. intros k Hk.
    rewrite cell_alter by (rewrite (bi_len _ _ Hi); lia). done.
Qed.

Lemma rep_len s c : bio_rep s c -> length (nodes s) = S NBUF.
Proof. intros ((order & Hi) & _). apply (bi_len _ _ Hi). Qed.

Lemma rep_held s c i n : bio_rep s c -> c_held c !! i = Some n ->
  (i < NBUF)%nat /\ nodes s !! i = Some (cell (nodes s) i)
  /\ busy (cell (nodes s) i) = true /\ blockno (cell (nodes s) i) = n
  /\ dev (cell (nodes s) i) = ROOTDEV /\ data (cell (nodes s) i) = c_view c n
  /\ 0 <= n < drv_blocks (drv s).
Proof.
  intros Hr Hh. pose proof (rep_len _ _ Hr) as Hl. destruct Hr as (_ & _ & _ & Hc).
  destruct (held_inv _ _ _ Hc i n Hh) as (Hi & Hb & Hn & Hd & _ & Hda & Hrg).
  split; [done|]. split; [apply cell_lookup; lia|]. done.
Qed.

Lemma bio_upd_held s c i n f :
  bio_rep s c -> c_held c !! i = Some n ->
  upd_node i f s = ([], Ret tt (mk_bio false (alter f i (nodes s)) (drv s))).
Proof.
  intros Hr Hh. destruct (rep_held _ _ _ _ Hr Hh) as (Hi & _).
  rewrite upd_node_run by (rewrite (rep_len _ _ Hr); lia).
  destruct Hr as ((order & Hb) & _). by rewrite (bi_unlocked _ _ Hb).
Qed.

Lemma find_matches_some ns order n k :
  find (matches ns ROOTDEV n) order = Some k ->
  k ∈ order /\ dev (cell ns k) = ROOTDEV /\ blockno (cell ns k) = n.
Proof.
  intros [Hin Hm]%find_some. unfold matches, cell in *. split; [by apply list_elem_of_In|].
  destruct (ns !! k); [|done]. rewrite andb_true_iff, !Z.eqb_eq in Hm. done.
Qed.

Lemma find_matches_none ns order n k :
  find (matches ns ROOTDEV n) order = None -> k ∈ order ->
  dev (cell ns k) = ROOTDEV -> blockno (cell ns k) <> n.
Proof.
  intros Hf Hk Hd Hb. apply list_elem_of_In in Hk. pose proof (find_none _ _ Hf k Hk) as Hm.
  unfold matches, cell in *. destruct (ns !! k); [|done].
  simpl in *. by rewrite Hd, Hb, !Z.eqb_refl in Hm.
Qed.

Lemma alter_const (ns : list buf) (k : nat) (b : buf) (f : buf -> buf) :
  ns !! k = Some b -> alter (fun _ => f b) k ns = alter f k ns.
Proof.
  intros Hb. apply list_eq. intros j. rewrite !lookup_alter_nodes.
  case_decide; [subst; by rewrite Hb|done].
Qed.

(** The recycled buffer once the driver has read the block into it. *)
Definition loaded (n : Z) (sec : list Z) (b : buf) : buf :=
  set_flags (set_flag B_BUSY B_VALID) (set_data sec (recycle ROOTDEV n b)).

Lemma bio_bread_hit s c n order k :
  bio_rep s c -> bio_inv s order -> ~ held_block c n ->
  find (matches (nodes s) ROOTDEV n) order = Some k ->
  exists s', bread ROOTDEV n s = ([], Ret k s') /\ c_held c !! k = None
    /\ bio_rep s' (mk_cache (c_view c) (c_disk c) (<[k := n]> (c_held c)) (c_pinned c))
    /\ drv s' = drv s.
Proof.
  intros Hr Hi Hnh Hf. pose proof (rep_len _ _ Hr) as Hl.
  destruct (find_matches_some _ _ _ _ Hf) as (Hk & Hd & Hb).
  apply (order_elem _ _ _ Hi) in Hk.
  pose proof Hr as (_ & _ & _ & Hc).
  pose proof (cell_lookup (nodes s) k ltac:(lia)) as Hn.
  assert (busy (cell (nodes s) k) = false) as Hbusy.
  { destruct (busy (cell (nodes s) k)) eqn:E; [|done]. destruct Hnh. exists k.
    by apply (cr_held _ _ _ Hc). }
  eexists. split; [|split; [|split]].
  - unfold bread. rewrite (bind_nil _ _ _ k (mk_bio false (alter take_busy k (nodes s)) (drv s))).
    + rewrite (bind_nil _ _ _ (take_busy (cell (nodes s) k)) (mk_bio false (alter take_busy k (nodes s)) (drv s))).
      * fold (valid (take_busy (cell (nodes s) k))).
        rewrite valid_take_busy, (cr_valid _ _ _ Hc k Hk Hd). reflexivity.
      * unfold node. simpl. rewrite lookup_alter_nodes, decide_True, Hn by done. done.
    + rewrite (bget_run s order) by done. rewrite Hf, Hn. simpl. by rewrite Hbusy.
  - destruct (c_held c !! k) eqn:E; [|done].
    apply (cr_held _ _ _ Hc) in E as (_ & E & _). congruence.
  - apply (rep_alter s c); auto.
    apply cells_take; auto using busy_take_busy, dirty_take_busy, valid_take_busy.
  - done.
Qed.

Lemma bio_bread_miss s c n order :
  bio_rep s c -> bio_inv s order -> 0 <= n < drv_blocks (drv s) ->
  n ∈ c_pinned c \/ room c ->
  find (matches (nodes s) ROOTDEV n) order = None ->
  exists k s', bread ROOTDEV n s = ([], Ret k s') /\ c_held c !! k = None
    /\ bio_rep s' (mk_cache (c_view c) (c_disk c) (<[k := n]> (c_held c)) (c_pinned c))
    /\ drv_blocks (drv s') = drv_blocks (drv s).
Proof.
  intros Hr Hi Hn Hroom Hf. pose proof (rep_len _ _ Hr) as Hl.
  pose proof Hr as (_ & Hrd & Hsec & Hc).
  assert (Hnone : forall k, (k < NBUF)%nat -> dev (cell (nodes s) k) = ROOTDEV ->
                    blockno (cell (nodes s) k) <> n).
  { intros k Hk. apply (find_matches_none _ order); [done|]. by apply (order_elem _ _ _ Hi). }
  destruct Hroom as [Hp|Hroom].
  { apply (cr_pinned _ _ _ Hc) in Hp as (k & Hk & Hd & Hb).
    destruct (Hnone k Hk); [by apply (dirty_dev _ _ _ Hc)|done]. }
  destruct (find (clean (nodes s)) (reverse order)) as [k|] eqn:Hfc.
  2:{ exfalso. destruct (room_clean _ _ _ Hc Hroom) as (k & Hk & Hb & Hd).
      assert (In k (reverse order)) as Hin.
      { apply list_elem_of_In, elem_of_reverse. by apply (order_elem _ _ _ Hi). }
      pose proof (find_none _ _ Hfc k Hin) as Hcl. unfold clean in Hcl.
      rewrite (cell_lookup _ k) in Hcl by lia. by rewrite Hb, Hd in Hcl. }
  apply find_some in Hfc as Hfc'. destruct Hfc' as [Hin Hcl].
  apply list_elem_of_In in Hin. rewrite elem_of_reverse in Hin. apply (order_elem _ _ _ Hi) in Hin as Hk.
  pose proof (cell_lookup (nodes s) k ltac:(lia)) as Hnk.
  unfold clean in Hcl. rewrite Hnk in Hcl. rewrite andb_true_iff, !negb_true_iff in Hcl.
  destruct Hcl as [Hb Hd].
  set (b := cell (nodes s) k) in *. set (b1 := recycle ROOTDEV n b).
  set (s1 := mk_bio false (alter (recycle ROOTDEV n) k (nodes s)) (drv s)).
  destruct (drv_read (drv s) k b1 Hrd) as (d' & Hio & Hrd' & Hbl & Hsec'); auto.
  exists k, (mk_bio false (alter (loaded n (drv_sector (drv s) n)) k (nodes s)) d').
  split; [|split; [|split; [|done]]].
  - unfold bread. rewrite (bind_nil _ _ _ k s1).
    2:{ rewrite (bget_run s order) by done. by rewrite Hf, Hfc. }
    assert (nodes s1 !! k = Some b1) as Hn1.
    { simpl. rewrite lookup_alter_nodes, decide_True, Hnk by done. done. }
    rewrite (bind_nil _ _ _ b1 s1) by (unfold node; by rewrite Hn1).
    change (has (flags b1) B_VALID) with false. cbn [negb when].
    rewrite (bind_nil _ _ _ tt (mk_bio false (alter (loaded n (drv_sector (drv s) n)) k (nodes s)) d')); [done|].
    unfold iderw. rewrite (bind_nil _ _ _ b1 s1) by (unfold node; by rewrite Hn1).
    rewrite (bind_nil _ _ _ _ (mk_bio false (nodes s1) d'))
      by (unfold zoom; change (lget drvl s1) with (drv s); by rewrite Hio).
    rewrite upd_node_run by (simpl; rewrite length_alter_nodes; lia). simpl.
    rewrite alter_alter_nodes. do 3 f_equal.
    apply (alter_const (nodes s) k b (loaded n (drv_sector (drv s) n))). done.
  - destruct (c_held c !! k) eqn:E; [|done].
    apply (cr_held _ _ _ Hc) in E as (_ & E & _). fold b in E. congruence.
  - split; [|split; [done|split]].
    + exists order. by apply bio_inv_alter.
    + cbn [drv]. rewrite Hbl. intros m Hm. rewrite Hsec' by done. by apply Hsec.
    + cbn [drv nodes]. rewrite Hbl.
      eapply cells_rep_ext; [|apply (cells_recycle (cell (nodes s)) c _ Hc k (loaded n (drv_sector (drv s) n) b) n);
        auto].
      * intros j Hj. rewrite cell_alter by lia. done.
      * simpl. by rewrite Hsec.
Qed.

Definition mark_dirty (b : buf) : buf := set_flags (set_flag (flags b) B_DIRTY) b.

Lemma mark_dirty_flags b :
  busy (mark_dirty b) = busy b /\ valid (mark_dirty b) = valid b /\ dirty (mark_dirty b) = true.
Proof.
  split; [apply (busy_set_flag b 2); lia|]. split; [apply (valid_set_flag b 2); lia|].
  apply (dirty_set_flag b 2). lia.
Qed.

Lemma clear_busy_flags b :
  busy (clear_busy b) = false /\ valid (clear_busy b) = valid b /\ dirty (clear_busy b) = dirty b.
Proof.
  split; [apply (busy_clear_flag b 0); lia|]. split; [apply (valid_clear_flag b 0); lia|].
  apply (dirty_clear_flag b 0). lia.
Qed.

Lemma bio_set_data_ok s c i n d :
  bio_rep s c -> c_held c !! i = Some n -> length d = BSIZE ->
  exists s', upd_node i (set_data d) s = ([], Ret tt s')
    /\ bio_rep s' (mk_cache (zupd (c_view c) n d) (c_disk c) (c_held c) (c_pinned c))
    /\ drv_blocks (drv s') = drv_blocks (drv s).
Proof.
  intros Hr Hh Hl. rewrite (bio_upd_held s c i n) by done. eexists. split; [done|].
  destruct (rep_held _ _ _ _ Hr Hh) as (Hi & _). split; [|done].
  apply (rep_alter s c); auto. destruct Hr as (_ & _ & _ & Hc).
  by apply (cells_set_data _ _ _ Hc i n).
Qed.

Lemma bio_pin_ok s c i n :
  bio_rep s c -> c_held c !! i = Some n ->
  exists s', upd_node i mark_dirty s = ([], Ret tt s')
    /\ bio_rep s' (mk_cache (c_view c) (c_disk c) (c_held c) ({[n]} ∪ c_pinned c))
    /\ drv_blocks (drv s') = drv_blocks (drv s).
Proof.
  intros Hr Hh. rewrite (bio_upd_held s c i n) by done. eexists. split; [done|].
  destruct (rep_held _ _ _ _ Hr Hh) as (Hi & _). split; [|done].
  apply (rep_alter s c); auto. destruct Hr as (_ & _ & _ & Hc).
  destruct (mark_dirty_flags (cell (nodes s) i)) as (Hb & Hv & Hd).
  by apply (cells_pin _ _ _ Hc i n).
Qed.

Lemma bio_bwrite_ok s c i n :
  bio_rep s c -> c_held c !! i = Some n ->
  exists s', bwrite i s = ([EvDiskWrite n (c_view c n)], Ret tt s')
    /\ bio_rep s' (mk_cache (c_view c) (zupd (c_disk c) n (c_view c n)) (c_held c)
                     (c_pinned c ∖ {[n]}))
    /\ drv_blocks (drv s') = drv_blocks (drv s).
Proof.
  intros Hr Hh. pose proof (rep_len _ _ Hr) as Hl.
  destruct (rep_held _ _ _ _ Hr Hh) as (Hi & Hn & Hb & Hbn & Hdev & Hda & Hrg).
  pose proof Hr as ((order & Hinv) & Hrd & Hsec & Hc).
  set (b := cell (nodes s) i) in *.
  destruct (mark_dirty_flags b) as (Hb1 & Hv1 & Hd1).
  destruct (drv_write (drv s) i (mark_dirty b) Hrd) as (d' & f & Hio & Hf & Hrd' & Hbl & Hsec');
    auto; try congruence; cbn [mark_dirty set_flags dev blockno data];
    [by rewrite Hbn|rewrite Hda; by apply (cr_len _ _ _ Hc)|].
  simpl in Hio. rewrite Hbn, Hda in Hio.
  exists (mk_bio false (alter (set_flags f) i (nodes s)) d').
  split; [|split; [|done]].
  - unfold bwrite. rewrite (bind_nil _ _ _ b s) by (unfold node; by rewrite Hn).
    rewrite land_busy, Hb. cbn [negb]. fold mark_dirty.
    rewrite (bind_nil _ _ _ _ _ (bio_upd_held s c i n mark_dirty Hr Hh)).
    unfold iderw.
    rewrite (bind_nil _ _ _ (mark_dirty b) (mk_bio false (alter mark_dirty i (nodes s)) (drv s)))
      by (unfold node; simpl; rewrite lookup_alter_nodes, decide_True, Hn by done; done).
    erewrite bind_ret_eq; [| |].
    2:{ unfold zoom. simpl. rewrite Hio. reflexivity. }
    2:{ apply upd_node_run. simpl. rewrite length_alter_nodes. lia. }
    simpl. rewrite alter_alter_nodes. do 3 f_equal.
    by apply (alter_const (nodes s) i b (fun b => set_flags f (mark_dirty b))).
  - assert (busy (set_flags f b) = true /\ valid (set_flags f b) = true /\ dirty (set_flags f b) = false)
      as (Hb2 & Hv2 & Hd2).
    { rewrite busy_bit, valid_bit, dirty_bit. cbn [set_flags flags]. rewrite !Hf by lia.
      split; [|done]. rewrite <- Hb, <- Hb1. by rewrite busy_bit. }
    split; [|split; [done|split]].
    + exists order. by apply bio_inv_alter.
    + cbn [drv c_disk]. rewrite Hbl. intros m Hm. rewrite Hsec' by done. unfold zupd. simpl.
      rewrite Hbn. destruct (m =? n); [done|by apply Hsec].
    + cbn [drv nodes]. rewrite Hbl.
      eapply cells_rep_ext; [|apply (cells_write _ _ _ Hc i n (set_flags f b)); auto].
      * intros j Hj. rewrite cell_alter by lia. done.
      * fold b. congruence.
Qed.

Lemma bio_brelse_ok s c i n :
  bio_rep s c -> c_held c !! i = Some n -> n ∈ c_pinned c \/ c_view c n = c_disk c n ->
  exists s', brelse i s = ([EvWakeup (ChBuf i)], Ret tt s')
    /\ bio_rep s' (mk_cache (c_view c) (c_disk c) (delete i (c_held c)) (c_pinned c))
    /\ drv_blocks (drv s') = drv_blocks (drv s).
Proof.
  intros Hr Hh Hsync. pose proof (rep_len _ _ Hr) as Hl.
  destruct (rep_held _ _ _ _ Hr Hh) as (Hi & Hn & Hb & Hbn & Hdev & Hda & Hrg).
  pose proof Hr as ((order & Hinv) & Hrd & Hsec & Hc).
  destruct (brelse_run s order i _ Hinv Hi Hn Hb) as (ns' & l1 & l2 & Hrun & _ & Hinv' & Hcore).
  eexists. split; [exact Hrun|]. split; [|done].
  split; [eauto|]. split; [done|]. split; [done|]. cbn [drv nodes].
  destruct (clear_busy_flags (cell (nodes s) i)) as (Hb2 & Hv2 & Hd2).
  eapply cells_rep_ext; [|apply (cells_release _ _ _ Hc i n (clear_busy (cell (nodes s) i))); auto].
  intros k Hk. rewrite <- cell_alter by lia.
  specialize (Hcore k). unfold core in Hcore. pose proof (bi_len _ _ Hinv') as Hl'. simpl in Hl'.
  rewrite (cell_lookup ns' k), (cell_lookup (alter clear_busy i (nodes s)) k) in Hcore
    by (rewrite ?length_alter_nodes; lia).
  injection Hcore as -> -> -> ->. done.
Qed.

#[export, program] Instance bio_spec : BCacheSpec (bio D) := {
  brep := bio_rep;
  nblk := fun s => drv_blocks (drv s)
}.
Next Obligation.
  intros s ? <- c c' (Hv & Hd & Hh & Hp). unfold bio_rep. setoid_rewrite Hd.
  split; intros (? & ? & ? & Hc); (split; [done|]); (split; [done|]); (split; [done|]);
    revert Hc; apply cells_rep_cache; split_and!; auto.
Qed.
Next Obligation.
  intros s c n Hr Hn Hnh Hroom. pose proof Hr as ((order & Hi) & _).
  destruct (find (matches (nodes s) ROOTDEV n) order) as [k|] eqn:Hf.
  - destruct (bio_bread_hit s c n order k Hr Hi Hnh Hf) as (s' & ? & ? & ? & Hd).
    exists k, s'. by rewrite Hd.
  - by apply (bio_bread_miss s c n order).
Qed.
Next Obligation.
  intros s c i n Hr Hh. destruct (rep_held _ _ _ _ Hr Hh) as (_ & Hn & _ & _ & _ & Hda & _).
  simpl. rewrite (bind_nil _ _ _ (cell (nodes s) i) s) by (unfold node; by rewrite Hn).
  by rewrite Hda.
Qed.
Next Obligation.
  intros s c i n Hr Hh. destruct (rep_held _ _ _ _ Hr Hh) as (_ & Hn & _ & Hbn & _).
  simpl. rewrite (bind_nil _ _ _ (cell (nodes s) i) s) by (unfold node; by rewrite Hn).
  by rewrite Hbn.
Qed.
Next Obligation. apply bio_set_data_ok. Qed.
Next Obligation. apply bio_pin_ok. Qed.
Next Obligation. apply bio_bwrite_ok. Qed.
Next Obligation. apply bio_brelse_ok. Qed.
Next Obligation. intros s c n (_ & _ & _ & Hc). apply (cr_len _ _ _ Hc). Qed.
Next Obligation. intros s c n (_ & _ & _ & Hc). apply (cr_clean _ _ _ Hc). Qed.
Next Obligation.
  intros s c i n Hr Hh. by destruct (rep_held _ _ _ _ Hr Hh) as (_ & _ & _ & _ & _ & _ & ?).
Qed.
Next Obligation.
  intros s c i j n Hr Hi Hj. destruct (rep_held _ _ _ _ Hr Hi) as (? & _ & _ & ? & ? & _).
  destruct (rep_held _ _ _ _ Hr Hj) as (? & _ & _ & ? & ? & _).
  destruct Hr as (_ & _ & _ & Hc). apply (cr_uniq _ _ _ Hc); congruence.
Qed.

End BioSpec.

End Bio.
