(* ===== verification/Bcache.v ===== *)
(** * The buffer cache over a disk: what bio.c promises

    The theorems about bio.c over any driver that keeps the [DriverSpec]
    contract, and their instance for memide.c. *)

From stdpp Require Import base numbers list gmap strings.
From S2P Require Import Prelude Bytes Mem Buf Memide Cells Bio.

Open Scope Z_scope.

(** ** The state at boot *)

(** The [bcache] array before [binit]: zeroed memory. *)
Definition zero_buf : buf := mk_buf 0 0 0 0 0 (replicate BSIZE 0).
Definition boot {D} (d : D) : bio D := mk_bio false (replicate (S NBUF) zero_buf) d.

Lemma binit_boot {D} `{DriverSpec D} (d : D) :
  drv_ready d ->
  exists s, binit (boot d) = ([], Ret tt s) /\ drv s = d
    /\ bio_inv s (reverse (seq 0 NBUF)) /\ brep s (fresh_cache (drv_sector d))
    /\ (forall k, (k < NBUF)%nat -> exists b, nodes s !! k = Some b /\ flags b = 0 /\ dev b = NODEV).
Proof.
  intros Hrd. destruct (binit_run (boot d)) as (ns & Hr & Hi & Hc); [apply length_replicate|].
  exists (mk_bio false ns (drv (boot d))). split; [exact Hr|]. clear Hr.
  split; [reflexivity|]. split; [exact Hi|].
  assert (Hnode : forall k, (k < NBUF)%nat ->
    exists b, ns !! k = Some b /\ flags b = 0 /\ dev b = NODEV).
  { intros k Hk. specialize (Hc k Hk). unfold core in Hc. unfold boot in Hc. cbn [nodes] in Hc.
    rewrite lookup_replicate_2 in Hc by lia.
    destruct (ns !! k) as [b|]; [|done]. exists b. split; [reflexivity|].
    split.
    - exact (f_equal (fun o => match o with Some (f, _, _, _) => f | None => 0 end) Hc).
    - exact (f_equal (fun o => match o with Some (_, d, _, _) => d | None => 0 end) Hc). }
  split; [|exact Hnode].
  assert (Hcell : forall k, (k < NBUF)%nat ->
    dev (cell ns k) <> ROOTDEV /\ busy (cell ns k) = false /\ dirty (cell ns k) = false).
  { intros k Hk. destruct (Hnode k Hk) as (b & Hb & Hf & Hd). unfold cell. rewrite Hb. cbn.
    rewrite busy_bit, dirty_bit, Hf, Hd. done. }
  split; [by eexists|]. split; [exact Hrd|]. split; [done|]. cbn [nodes drv].
  constructor; cbn [fresh_cache c_view c_disk c_held c_pinned].
  - intros k Hk. right. by apply Hcell.
  - intros i j Hi' _ Hd. by destruct (Hcell i Hi').
  - intros k Hk Hd. by destruct (Hcell k Hk).
  - intros k Hk Hd. by destruct (Hcell k Hk).
  - intros k Hk Hd. by destruct (Hcell k Hk).
  - intros k n. rewrite lookup_empty. split; [done|]. intros (Hk & Hb & _).
    destruct (Hcell k Hk) as (_ & Hb' & _). congruence.
  - intros n. split; [set_solver|]. intros (k & Hk & Hb & _).
    destruct (Hcell k Hk) as (_ & _ & Hb'). congruence.
  - done.
  - intros n Hn. by apply drv_sector_length.
Qed.

(** ** Client operations *)

(** What log.c and fs.c do with the cache. *)
Inductive bop :=
  | OpRead (n : Z)                    (* bread(ROOTDEV, n) *)
  | OpData (i : nat)                  (* read b->data *)
  | OpSet (i : nat) (d : list Z)      (* write b->data *)
  | OpPin (i : nat)                   (* b->flags |= B_DIRTY *)
  | OpWrite (i : nat)                 (* bwrite(b) *)
  | OpRelse (i : nat).                (* brelse(b) *)

Inductive bout := OutBuf (i : nat) | OutData (d : list Z) | OutUnit.

Definition run_op {S} `{BCache S} (o : bop) : M S bout :=
  match o with
  | OpRead n => let* i := Buf.bread ROOTDEV n in ret (OutBuf i)
  | OpData i => let* d := bdata i in ret (OutData d)
  | OpSet i d => set_bdata i d ;; ret OutUnit
  | OpPin i => pin i ;; ret OutUnit
  | OpWrite i => Buf.bwrite i ;; ret OutUnit
  | OpRelse i => Buf.brelse i ;; ret OutUnit
  end.

(** The operations the protocol of the cache allows: one holder per block, a
    buffer to recycle, and no release of a modified buffer that is neither
    pinned nor written. *)
Definition op_allowed (N : Z) (c : cache) (o : bop) : Prop :=
  match o with
  | OpRead n => 0 <= n < N /\ ~ held_block c n /\ (n ∈ c_pinned c \/ room c)
  | OpSet i d => is_Some (c_held c !! i) /\ length d = BSIZE
  | OpData i | OpPin i | OpWrite i => is_Some (c_held c !! i)
  | OpRelse i => exists n, c_held c !! i = Some n /\ (n ∈ c_pinned c \/ c_view c n = c_disk c n)
  end.

(** What the abstract cache does, with the disk writes and wake-ups one sees. *)
Inductive abs_op (c : cache) : bop -> list event -> bout -> cache -> Prop :=
  | ao_read n i : c_held c !! i = None ->
      abs_op c (OpRead n) [] (OutBuf i)
        (mk_cache (c_view c) (c_disk c) (<[i := n]> (c_held c)) (c_pinned c))
  | ao_data i n : c_held c !! i = Some n -> abs_op c (OpData i) [] (OutData (c_view c n)) c
  | ao_set i n d : c_held c !! i = Some n ->
      abs_op c (OpSet i d) [] OutUnit
        (mk_cache (zupd (c_view c) n d) (c_disk c) (c_held c) (c_pinned c))
  | ao_pin i n : c_held c !! i = Some n ->
      abs_op c (OpPin i) [] OutUnit
        (mk_cache (c_view c) (c_disk c) (c_held c) ({[n]} ∪ c_pinned c))
  | ao_write i n : c_held c !! i = Some n ->
      abs_op c (OpWrite i) [EvDiskWrite n (c_view c n)] OutUnit
        (mk_cache (c_view c) (zupd (c_disk c) n (c_view c n)) (c_held c) (c_pinned c ∖ {[n]}))
  | ao_relse i n : c_held c !! i = Some n ->
      abs_op c (OpRelse i) [EvWakeup (ChBuf i)] OutUnit
        (mk_cache (c_view c) (c_disk c) (delete i (c_held c)) (c_pinned c)).

Lemma run_op_sim {S} `{BCacheSpec S} (s : S) c o :
  brep s c -> op_allowed (nblk s) c o ->
  exists ev out s' c', run_op o s = (ev, Ret out s') /\ abs_op c o ev out c'
    /\ brep s' c' /\ nblk s' = nblk s.
Proof.
  intros Hr Ho. destruct o as [n|i|i d|i|i|i]; simpl in Ho.
  - destruct Ho as (Hn & Hh & Hp). destruct (bread_ok s c n) as (i & s' & Hb & Hi & Hr' & Hn'); auto.
    exists [], (OutBuf i), s'. eexists. split; [simpl; by run_with Hb|]. by split; [constructor|].
  - destruct Ho as [n Hi]. exists [], (OutData (c_view c n)), s, c.
    split; [simpl; by run_with (bdata_ok s c i n Hr Hi)|]. by split; [constructor|].
  - destruct Ho as [[n Hi] Hl]. destruct (set_bdata_ok s c i n d) as (s' & Hb & Hr' & Hn'); auto.
    exists [], OutUnit, s'. eexists. split; [simpl; by run_with Hb|].
    by split; [econstructor|].
  - destruct Ho as [n Hi]. destruct (pin_ok s c i n) as (s' & Hb & Hr' & Hn'); auto.
    exists [], OutUnit, s'. eexists. split; [simpl; by run_with Hb|]. by split; [econstructor|].
  - destruct Ho as [n Hi]. destruct (bwrite_ok s c i n) as (s' & Hb & Hr' & Hn'); auto.
    do 4 eexists. split; [simpl; unfold bind; rewrite Hb; reflexivity|].
    by split; [econstructor|].
  - destruct Ho as (n & Hi & Hp). destruct (brelse_ok s c i n) as (s' & Hb & Hr' & Hn'); auto.
    do 4 eexists. split; [simpl; unfold bind; rewrite Hb; reflexivity|].
    by split; [econstructor|].
Qed.

(** ** The claims *)

(** [binit] on zeroed buffers links all [NBUF] of them into the ring and
    leaves a cache that shows exactly the contents of the disk, with no buffer
    held or pinned. *)
Theorem binit_fresh {D} `{DriverSpec D} (d : D) :
  drv_ready d ->
  exists s, binit (boot d) = ([], Ret tt s) /\ bio_inv s (reverse (seq 0 NBUF))
    /\ bio_rep s (fresh_cache (drv_sector d)).
Proof.
  intros Hd. destruct (binit_boot d Hd) as (s & Hr & _ & Hi & Hb & _).
  exists s. split; [exact Hr|]. split; [exact Hi|exact Hb].
Qed.

Definition example_disk : memide := mk_memide (fun x => x `mod` 256) 100.
Lemma example_ready : drv_ready example_disk.
Proof. vm_compute. reflexivity. Qed.

Lemma binit_fresh_witness :
  exists s, binit (boot example_disk) = ([], Ret tt s) /\ bio_inv s (reverse (seq 0 NBUF))
    /\ bio_rep s (fresh_cache (sector example_disk)).
Proof. exact (binit_fresh example_disk example_ready). Defined.

(** C4: bio.c refines the abstract cache.  From any state that represents a
    cache, every operation the protocol allows runs to completion (no panic, no
    sleep, no fault), does to the cache and to the disk what the abstract
    operation does, writes the disk in [bwrite] only, and the new state
    represents the new cache: reads see the last write, whatever was evicted in
    between. *)
Theorem bio_refines {D} `{DriverSpec D} (s : bio D) c o :
  bio_rep s c -> op_allowed (drv_blocks (drv s)) c o ->
  exists ev out s' c', run_op o s = (ev, Ret out s') /\ abs_op c o ev out c'
    /\ bio_rep s' c' /\ drv_blocks (drv s') = drv_blocks (drv s).
Proof. exact (run_op_sim (S := bio D) s c o). Qed.

Lemma bio_refines_witness :
  exists s ev out s' c', run_op (OpRead 7) s = (ev, Ret out s')
    /\ abs_op (fresh_cache (sector example_disk)) (OpRead 7) ev out c' /\ bio_rep s' c'.
Proof.
  destruct (binit_boot example_disk example_ready) as (s & _ & Hd & _ & Hr & _).
  destruct (bio_refines s (fresh_cache (sector example_disk)) (OpRead 7))
    as (ev & out & s' & c' & Hrun & Habs & Hr' & _); [exact Hr| |by exists s, ev, out, s', c'].
  split; [rewrite Hd; vm_compute; split; [discriminate|reflexivity]|].
  split; [intros [i Hi]; discriminate Hi|]. right. unfold room. vm_compute. lia.
Defined.

(** [bget] looks the block up in the ring; a cached block is taken where it
    is when free and waited for when busy.  Otherwise the least recently used
    buffer that is neither busy nor dirty is recycled for the block, and bget
    panics only when there is none. *)
Theorem bget_policy {D} `{Driver D} (s : bio D) order d n :
  bio_inv s order ->
  bget d n s =
    match find (matches (nodes s) d n) order with
    | Some k =>
        if default true (busy <$> nodes s !! k) then ([], Sleep (ChBuf k) s)
        else ([], Ret k (mk_bio false (alter take_busy k (nodes s)) (drv s)))
    | None =>
        match find (clean (nodes s)) (reverse order) with
        | Some k => ([], Ret k (mk_bio false (alter (recycle d n) k (nodes s)) (drv s)))
        | None => ([], Panic "bget: no buffers")
        end
    end.
Proof. apply bget_run. Qed.

Lemma bget_policy_witness :
  exists s, bget ROOTDEV 5 s
    = ([], Ret 0%nat (mk_bio false (alter (recycle ROOTDEV 5) 0%nat (nodes s)) example_disk)).
Proof.
  destruct (binit_boot example_disk example_ready) as (s & _ & Hd & Hi & _ & Hn).
  exists s. pose proof (bget_policy s _ ROOTDEV 5 Hi) as Hb.
  rewrite find_none_intro in Hb.
  - change (reverse (reverse (seq 0 NBUF))) with (0%nat :: seq 1 29) in Hb. cbn [find] in Hb.
    destruct (Hn 0%nat) as (b & Hk & Hf & _); [unfold NBUF; lia|].
    unfold clean at 1 in Hb. rewrite Hk, busy_bit, dirty_bit, Hf, Hd in Hb. exact Hb.
  - intros k Hk. apply (order_elem _ _ _ Hi), Hn in Hk as (b & Hk & _ & Hdev).
    unfold matches. by rewrite Hk, Hdev.
Defined.

(** [brelse] of a busy buffer moves it from wherever it is in the ring to
    the most recently used end, keeps the order of the others and the contents
    of all, clears [B_BUSY] and wakes the waiters; releasing a buffer that is
    not busy panics. *)
Theorem brelse_mru {D} `{Driver D} (s : bio D) order i b :
  bio_inv s order -> (i < NBUF)%nat -> nodes s !! i = Some b ->
  (busy b = false -> brelse i s = ([], Panic "brelse"))
  /\ (busy b = true ->
      exists ns' l1 l2,
        brelse i s = ([EvWakeup (ChBuf i)], Ret tt (mk_bio false ns' (drv s)))
        /\ order = l1 ++ i :: l2 /\ bio_inv (mk_bio false ns' (drv s)) (i :: l1 ++ l2)
        /\ (forall k, core ns' k = core (alter clear_busy i (nodes s)) k)).
Proof.
  intros Hi Hlt Hb. split; intros Hbusy.
  - unfold brelse. rewrite (bind_nil _ _ _ b s) by (unfold node; by rewrite Hb).
    by rewrite land_busy, Hbusy.
  - by apply (brelse_run s order i b).
Qed.

Lemma brelse_mru_witness :
  exists s : bio memide, brelse 3%nat s = ([], Panic "brelse").
Proof.
  destruct (binit_boot example_disk example_ready) as (s & _ & _ & Hi & _ & Hn).
  destruct (Hn 3%nat) as (b & Hk & Hf & _); [unfold NBUF; lia|].
  exists s. apply (brelse_mru s _ 3 b Hi); [unfold NBUF; lia|exact Hk|].
  by rewrite busy_bit, Hf.
Defined.
