(* ===== verification/Log.v ===== *)
(** * The write-ahead log: log.c

    The code runs over any buffer cache ([BCache]); its theorems use the
    contract [BCacheSpec], which bio.c implements (file [Bio]).  What a crash
    leaves on the disk is read off the [EvDiskWrite] events of a run. *)

From stdpp Require Import base numbers list gmap strings.
From S2P Require Import Prelude Bytes Buf.

Open Scope Z_scope.

(** [struct log] with its [struct logheader].  Block numbers are kept as their
    32 bits, the way [bread] takes them. *)
Record log := mk_log {
  l_lock : bool;
  l_start : Z;
  l_size : Z;
  outstanding : Z;       (* how many FS sys calls are executing *)
  committing : bool;     (* in commit(), please wait *)
  l_dev : Z;
  lh_n : Z;
  lh_block : list Z      (* LOGSIZE entries *)
}.

Definition set_llock (b : bool) (l : log) : log :=
  mk_log b (l_start l) (l_size l) (outstanding l) (committing l) (l_dev l) (lh_n l) (lh_block l).
Definition set_where (start size dev : Z) (l : log) : log :=
  mk_log (l_lock l) start size (outstanding l) (committing l) dev (lh_n l) (lh_block l).
Definition set_outstanding (n : Z) (l : log) : log :=
  mk_log (l_lock l) (l_start l) (l_size l) n (committing l) (l_dev l) (lh_n l) (lh_block l).
Definition set_committing (b : bool) (l : log) : log :=
  mk_log (l_lock l) (l_start l) (l_size l) (outstanding l) b (l_dev l) (lh_n l) (lh_block l).
Definition set_n (n : Z) (l : log) : log :=
  mk_log (l_lock l) (l_start l) (l_size l) (outstanding l) (committing l) (l_dev l) n (lh_block l).
Definition set_blocks (bs : list Z) (l : log) : log :=
  mk_log (l_lock l) (l_start l) (l_size l) (outstanding l) (committing l) (l_dev l) (lh_n l) bs.

(** The log and the buffer cache below it. *)
Record logst (S : Type) := mk_logst { lbio : S; lg : log }.
Arguments mk_logst {S}.
Arguments lbio {S}.
Arguments lg {S}.

Section Log.
Context {S : Type} `{BCache S}.

Definition lb : lens (logst S) S := Lens lbio (fun b s => mk_logst b (lg s)).
Definition loglock : lens (logst S) bool :=
  Lens (fun s => l_lock (lg s)) (fun b s => mk_logst (lbio s) (set_llock b (lg s))).
Definition on_log (f : log -> log) : M (logst S) unit :=
  modify (fun s => mk_logst (lbio s) (f (lg s))).
Definition the_log : M (logst S) log := gets lg.

(** [log.lh.block[i]] *)
Definition lh_at (i : nat) : M (logst S) Z :=
  let* L := the_log in deref (lh_block L !! i).
Definition set_lh (i : nat) (v : Z) : M (logst S) unit :=
  let* L := the_log in
  if (i <? length (lh_block L))%nat then on_log (set_blocks (<[i := v]> (lh_block L)))
  else fault.

(** Copy committed blocks from log to their home location. *)
Definition install_one (tail : nat) : M (logst S) unit :=
  let* L := the_log in
  let* lbuf := zoom lb (bread (l_dev L) (u32 (l_start L + Z.of_nat tail + 1))) in
  let* home := lh_at tail in
  let* dbuf := zoom lb (bread (l_dev L) home) in
  let* d := zoom lb (bdata lbuf) in
  zoom lb (set_bdata dbuf d) ;;
  zoom lb (bwrite dbuf) ;;
  zoom lb (brelse lbuf) ;;
  zoom lb (brelse dbuf).

Definition install_trans : M (logst S) unit :=
  let* L := the_log in
  for_all (seq 0 (Z.to_nat (lh_n L))) install_one.

(** Byte offsets of [n] and [block[i]] in the header block. *)
Definition hdr_off (i : nat) : nat := 4 + 4 * i.

(** Read the log header from disk into the in-memory log header. *)
Definition read_head : M (logst S) unit :=
  let* L := the_log in
  let* buf := zoom lb (bread (l_dev L) (u32 (l_start L))) in
  let* d := zoom lb (bdata buf) in
  on_log (set_n (s32 (get32 d 0))) ;;
  let* L := the_log in
  for_all (seq 0 (Z.to_nat (lh_n L))) (fun i => set_lh i (get32 d (hdr_off i))) ;;
  zoom lb (brelse buf).

(** Write in-memory log header to disk. *)
Definition write_head : M (logst S) unit :=
  let* L := the_log in
  let* buf := zoom lb (bread (l_dev L) (u32 (l_start L))) in
  let* d := zoom lb (bdata buf) in
  zoom lb (set_bdata buf (put32 d 0 (lh_n L))) ;;
  for_all (seq 0 (Z.to_nat (lh_n L))) (fun i =>
    let* v := lh_at i in
    let* d := zoom lb (bdata buf) in
    zoom lb (set_bdata buf (put32 d (hdr_off i) v))) ;;
  zoom lb (bwrite buf) ;;
  zoom lb (brelse buf).

Definition recover_from_log : M (logst S) unit :=
  read_head ;;
  install_trans ;;
  on_log (set_n 0) ;;
  write_head.

(** [sizeof(struct logheader)] *)
Definition LOGHEADER_SIZE : Z := 4 + 4 * LOGSIZE.

Definition initlog (dev : Z) : M (logst S) unit :=
  if LOGHEADER_SIZE >=? Z.of_nat BSIZE then panic "initlog: too big logheader"
  else
    on_log (set_llock false) ;;
    let* sb := zoom lb (readsb dev) in
    on_log (set_where (s32 (sb_logstart sb)) (s32 (sb_nlog sb)) dev) ;;
    recover_from_log.

(** Called at the start of each FS system call. *)
Definition begin_op : M (logst S) unit :=
  acquire loglock ;;
  let* L := the_log in
  if committing L then sleep ChLog loglock
  else if lh_n L + (outstanding L + 1) * MAXOPBLOCKS >? LOGSIZE then sleep ChLog loglock
  else
    on_log (set_outstanding (outstanding L + 1)) ;;
    release loglock.

(** Copy modified blocks from cache to log. *)
Definition write_log_one (tail : nat) : M (logst S) unit :=
  let* L := the_log in
  let* to := zoom lb (bread (l_dev L) (u32 (l_start L + Z.of_nat tail + 1))) in
  let* home := lh_at tail in
  let* from := zoom lb (bread (l_dev L) home) in
  let* d := zoom lb (bdata from) in
  zoom lb (set_bdata to d) ;;
  zoom lb (bwrite to) ;;
  zoom lb (brelse from) ;;
  zoom lb (brelse to).

Definition write_log : M (logst S) unit :=
  let* L := the_log in
  for_all (seq 0 (Z.to_nat (lh_n L))) write_log_one.

Definition commit : M (logst S) unit :=
  let* L := the_log in
  when (lh_n L >? 0)
    (write_log ;;
     write_head ;;
     install_trans ;;
     on_log (set_n 0) ;;
     write_head).

(** Called at the end of each FS system call; commits if this was the last
    outstanding operation.  Its two critical sections, the commit between them
    without the lock. *)
Definition end_op_begin : M (logst S) bool :=
  acquire loglock ;;
  let* L := the_log in
  on_log (set_outstanding (outstanding L - 1)) ;;
  let* L := the_log in
  if committing L then panic "log.committing"
  else
    let do_commit := outstanding L =? 0 in
    (if do_commit then on_log (set_committing true) else wakeup ChLog) ;;
    release loglock ;;
    ret do_commit.

Definition end_op_finish : M (logst S) unit :=
  acquire loglock ;;
  on_log (set_committing false) ;;
  wakeup ChLog ;;
  release loglock.

Definition end_op : M (logst S) unit :=
  let* do_commit := end_op_begin in
  when do_commit (commit ;; end_op_finish).

(** The index of the block in the header, or [n]. *)
Fixpoint absorb (bs : list Z) (n : nat) (b : Z) : nat :=
  match n, bs with
  | Datatypes.S n', x :: bs' => if x =? b then O else Datatypes.S (absorb bs' n' b)
  | _, _ => O
  end.

(** Caller has modified b->data and is done with the buffer. *)
Definition log_write (b : nat) : M (logst S) unit :=
  let* L := the_log in
  if (lh_n L >=? LOGSIZE) || (lh_n L >=? l_size L - 1) then panic "too big a transaction"
  else if outstanding L <? 1 then panic "log_write outside of trans"
  else
    acquire loglock ;;
    let* bno := zoom lb (bblockno b) in
    let i := absorb (lh_block L) (Z.to_nat (lh_n L)) bno in
    set_lh i bno ;;
    when (Z.of_nat i =? lh_n L) (on_log (set_n (lh_n L + 1))) ;;
    zoom lb (pin b) ;;
    release loglock.

End Log.

Lemma runs_on_log {S} f (s : logst S) : runs (on_log f) s [] tt (mk_logst (lbio s) (f (lg s))).
Proof. by exists []. Qed.

Lemma runs_set_lh {S} i v (s : logst S) :
  (i < length (lh_block (lg s)))%nat ->
  runs (set_lh i v) s [] tt (mk_logst (lbio s) (set_blocks (<[i := v]> (lh_block (lg s))) (lg s))).
Proof.
  intros Hi. unfold set_lh. rstep. rewrite (proj2 (Nat.ltb_lt _ _)) by done. apply runs_on_log.
Qed.
#[export] Hint Resolve runs_on_log runs_set_lh : runs.

(** ** What the operations do to the abstract cache *)

(** The blocks of the transaction, and the place of the log on the disk. *)
Definition blocks (L : log) : list Z := take (Z.to_nat (lh_n L)) (lh_block L).
Definition lblk (L : log) (i : nat) : Z := l_start L + Z.of_nat i + 1.
Definition in_log (L : log) (x : Z) : Prop := l_start L <= x < l_start L + l_size L.

(** A block the file system may log: on the disk, not in the log itself and not
    the superblock, which says where the log is. *)
Definition home (L : log) (N x : Z) : Prop := 0 <= x < N /\ x <> 1 /\ ~ in_log L x.

Record log_ok (L : log) (N : Z) : Prop := {
  lo_dev : l_dev L = ROOTDEV;
  lo_start : 1 < l_start L;
  lo_size : 1 <= l_size L;
  lo_fits : l_start L + l_size L <= N;
  lo_N : N <= 2 ^ 31;
  lo_len : length (lh_block L) = Z.to_nat LOGSIZE;
  lo_n : 0 <= lh_n L <= LOGSIZE /\ lh_n L <= l_size L - 1;
  lo_nodup : NoDup (blocks L);
  lo_home : Forall (home L N) (blocks L)
}.

Lemma blocks_lookup L N i b :
  log_ok L N -> blocks L !! i = Some b ->
  lh_block L !! i = Some b /\ (i < Z.to_nat (lh_n L))%nat /\ home L N b.
Proof.
  intros Hok Hb. pose proof (lo_home _ _ Hok) as Hh. rewrite Forall_lookup in Hh.
  split; [|split; [|by eapply Hh]].
  - unfold blocks in Hb. apply lookup_take_Some in Hb. tauto.
  - unfold blocks in Hb. apply lookup_take_Some in Hb. tauto.
Qed.

Lemma blocks_length L N : log_ok L N -> length (blocks L) = Z.to_nat (lh_n L).
Proof.
  intros Hok. unfold blocks. rewrite length_take, (lo_len _ _ Hok).
  destruct (lo_n _ _ Hok) as [Hn _]. lia.
Qed.

Lemma lblk_in_log L N i : log_ok L N -> (i < Z.to_nat (lh_n L))%nat -> in_log L (lblk L i).
Proof.
  intros Hok Hi. pose proof (lo_n _ _ Hok). pose proof (lo_start _ _ Hok).
  unfold in_log, lblk. lia.
Qed.

Lemma in_log_range L N x : log_ok L N -> in_log L x -> 0 <= x < N.
Proof.
  intros Hok Hx. pose proof (lo_start _ _ Hok). pose proof (lo_fits _ _ Hok).
  unfold in_log in Hx. lia.
Qed.

Lemma lblk_u32 L N i :
  log_ok L N -> (i < Z.to_nat (lh_n L))%nat -> u32 (l_start L + Z.of_nat i + 1) = lblk L i.
Proof.
  intros Hok Hi. apply u32_small. pose proof (lo_N _ _ Hok).
  pose proof (in_log_range _ _ _ Hok (lblk_in_log _ _ _ Hok Hi)). unfold lblk in *. lia.
Qed.

Lemma start_u32 L N : log_ok L N -> u32 (l_start L) = l_start L.
Proof.
  intros Hok. apply u32_small. pose proof (lo_N _ _ Hok). pose proof (lo_fits _ _ Hok).
  pose proof (lo_size _ _ Hok). pose proof (lo_start _ _ Hok). lia.
Qed.

Lemma start_in_log L N : log_ok L N -> in_log L (l_start L).
Proof. intros Hok. pose proof (lo_size _ _ Hok). unfold in_log. lia. Qed.

(** The disk (or the cache contents) after a sequence of block writes. *)
Definition apply_writes (w : list (Z * list Z)) (f : Z -> list Z) : Z -> list Z :=
  foldl (fun f nv => zupd f nv.1 nv.2) f w.

Lemma apply_writes_cons n v w f : apply_writes ((n, v) :: w) f = apply_writes w (zupd f n v).
Proof. done. Qed.

Lemma apply_writes_app w1 w2 f : apply_writes (w1 ++ w2) f = apply_writes w2 (apply_writes w1 f).
Proof. apply foldl_app. Qed.

Definition blk (L : log) (i : nat) : Z := nth i (blocks L) 0.

(** What [install_trans] and [write_log] write, from index [k] on. *)
Definition install_w (L : log) (view : Z -> list Z) (k m : nat) : list (Z * list Z) :=
  (fun i => (blk L i, view (lblk L i))) <$> seq k m.
Definition log_w (L : log) (view : Z -> list Z) (k m : nat) : list (Z * list Z) :=
  (fun i => (lblk L i, view (blk L i))) <$> seq k m.

Lemma blk_lookup L N i : log_ok L N -> (i < Z.to_nat (lh_n L))%nat -> blocks L !! i = Some (blk L i).
Proof.
  intros Hok Hi. rewrite <- (blocks_length L N) in Hi by done. unfold blk.
  apply lookup_lt_is_Some_2 in Hi as [b Hb]. by rewrite nth_lookup, Hb.
Qed.

Lemma blk_home L N i : log_ok L N -> (i < Z.to_nat (lh_n L))%nat -> home L N (blk L i).
Proof.
  intros Hok Hi. apply (blocks_lookup L N i); [done|]. by apply (blk_lookup L N).
Qed.

Lemma blk_inj L N i j : log_ok L N -> (i < Z.to_nat (lh_n L))%nat -> (j < Z.to_nat (lh_n L))%nat ->
  blk L i = blk L j -> i = j.
Proof.
  intros Hok Hi Hj E. apply (NoDup_lookup (blocks L) i j (blk L i)).
  - apply (lo_nodup _ _ Hok).
  - by apply (blk_lookup L N).
  - rewrite E. by apply (blk_lookup L N).
Qed.

Lemma lblk_blk L N i j : log_ok L N -> (i < Z.to_nat (lh_n L))%nat -> (j < Z.to_nat (lh_n L))%nat ->
  lblk L i <> blk L j.
Proof.
  intros Hok Hi Hj E. destruct (blk_home _ _ _ Hok Hj) as (_ & _ & Hh). apply Hh. rewrite <- E.
  by apply (lblk_in_log L N).
Qed.

Section LogSpec.
Context {S : Type} `{BCacheSpec S}.

Lemma held_insert c i n x : held_block (mk_cache (c_view c) (c_disk c) (<[i := n]> (c_held c)) (c_pinned c)) x ->
  x = n \/ held_block c x.
Proof.
  intros [j Hj]. cbn in Hj. destruct (decide (i = j)) as [<-|Hne].
  - rewrite lookup_insert_eq in Hj. left. congruence.
  - rewrite lookup_insert_ne in Hj by done. right. by exists j.
Qed.

(** Two different blocks are read, the first one needing a free buffer, the
    second one pinned or a second free buffer at hand. *)
Lemma bread_two s c a b :
  brep s c -> 0 <= a < nblk s -> 0 <= b < nblk s -> a <> b ->
  ~ held_block c a -> ~ held_block c b -> room c ->
  b ∈ c_pinned c \/ (size (c_held c) + size (c_pinned c) + 1 < NBUF)%nat ->
  exists i j s1 s2, bread ROOTDEV a s = ([], Ret i s1) /\ bread ROOTDEV b s1 = ([], Ret j s2)
    /\ c_held c !! i = None /\ c_held c !! j = None /\ i <> j
    /\ brep s2 (mk_cache (c_view c) (c_disk c) (<[j := b]> (<[i := a]> (c_held c))) (c_pinned c))
    /\ nblk s2 = nblk s.
Proof.
  intros Hr Ha Hb Hab Hha Hhb Hroom Hrb.
  destruct (bread_ok s c a) as (i & s1 & H1 & Hi & Hr1 & Hn1); auto.
  destruct (bread_ok s1 _ b Hr1) as (j & s2 & H2 & Hj & Hr2 & Hn2).
  - by rewrite Hn1.
  - intros Hh. apply held_insert in Hh as [->|Hh]; done.
  - destruct Hrb as [Hp|Hs]; [by left|right]. unfold room. cbn.
    rewrite map_size_insert_None by done. lia.
  - cbn in *. assert (i <> j) as Hij by (intros ->; by rewrite lookup_insert_eq in Hj).
    rewrite lookup_insert_ne in Hj by done.
    exists i, j, s1, s2. repeat split; auto. congruence.
Qed.

Lemma held_restore (h : gmap nat Z) i j a b :
  h !! i = None -> h !! j = None -> i <> j ->
  delete j (delete i (<[j := b]> (<[i := a]> h))) = h /\ delete i (delete j (<[j := b]> (<[i := a]> h))) = h.
Proof.
  intros Hi Hj Hij. split; apply map_eq; intros x;
    destruct (decide (x = i)), (decide (x = j)); simplify_map_eq; done.
Qed.

Section Copy.
Variables (s : S) (c : cache) (L : log) (k : nat) (b : Z).
Hypothesis Hr : brep s c.
Hypothesis Hok : log_ok L (nblk s).
Hypothesis Hb : blocks L !! k = Some b.
Hypothesis Hlog : forall x, in_log L x -> ~ held_block c x /\ x ∉ c_pinned c.
Hypothesis Hhb : ~ held_block c b.
Hypothesis Hroom : room c.

Lemma copy_setup :
  b ∈ c_pinned c \/ (size (c_held c) + size (c_pinned c) + 1 < NBUF)%nat ->
  exists i j s1 s2, bread (l_dev L) (u32 (l_start L + Z.of_nat k + 1)) s = ([], Ret i s1)
    /\ lh_block L !! k = Some b /\ bread (l_dev L) b s1 = ([], Ret j s2)
    /\ c_held c !! i = None /\ c_held c !! j = None /\ i <> j
    /\ brep s2 (mk_cache (c_view c) (c_disk c) (<[j := b]> (<[i := lblk L k]> (c_held c))) (c_pinned c))
    /\ nblk s2 = nblk s /\ lblk L k <> b /\ c_view c (lblk L k) = c_disk c (lblk L k)
    /\ length (c_view c (lblk L k)) = BSIZE /\ length (c_view c b) = BSIZE.
Proof.
  intros Hrb. destruct (blocks_lookup _ _ _ _ Hok Hb) as (Hl & Hk & Hh).
  pose proof (lblk_in_log _ _ _ Hok Hk) as Hin. destruct (Hlog _ Hin) as [Hna Hpa].
  pose proof (in_log_range _ _ _ Hok Hin) as Ha.
  assert (lblk L k <> b) as Hab by (intros <-; by destruct Hh as (_ & _ & ?)).
  destruct (bread_two s c (lblk L k) b) as (i & j & s1 & s2 & H1 & H2 & Hi & Hj & Hij & Hr2 & Hn2);
    auto; [apply Hh|].
  exists i, j, s1, s2. rewrite (lblk_u32 L (nblk s)), (lo_dev _ _ Hok) by done.
  split; [exact H1|]. split; [exact Hl|]. split; [exact H2|]. do 3 (split; [done|]).
  split; [exact Hr2|]. do 2 (split; [done|]). split; [by eapply bclean|].
  split; eapply bview_length; eauto; apply Hh.
Qed.

Lemma install_one_ok :
  b ∈ c_pinned c \/ (size (c_held c) + size (c_pinned c) + 1 < NBUF)%nat ->
  exists s', runs (install_one k) (mk_logst s L) [(b, c_view c (lblk L k))] tt (mk_logst s' L)
    /\ brep s' (mk_cache (zupd (c_view c) b (c_view c (lblk L k)))
                  (zupd (c_disk c) b (c_view c (lblk L k))) (c_held c) (c_pinned c ∖ {[b]}))
    /\ nblk s' = nblk s.
Proof.
  intros Hrb. destruct (copy_setup Hrb) as
    (i & j & s1 & s2 & H1 & Hl & H2 & Hi & Hj & Hij & Hr2 & Hn2 & Hab & Hcl & Hla & _).
  pose proof (bdata_ok _ _ i (lblk L k) Hr2) as H3. cbn in H3.
  specialize (H3 ltac:(rewrite lookup_insert_ne by done; apply lookup_insert_eq)).
  destruct (set_bdata_ok _ _ j b (c_view c (lblk L k)) Hr2) as (s3 & H4 & Hr3 & Hn3);
    [apply lookup_insert_eq|done|].
  destruct (bwrite_ok _ _ j b Hr3) as (s4 & H5 & Hr4 & Hn4); [apply lookup_insert_eq|].
  cbn in H5, Hr4. rewrite zupd_eq in H5, Hr4.
  destruct (brelse_ok _ _ i (lblk L k) Hr4) as (s5 & H6 & Hr5 & Hn5); cbn.
  { rewrite lookup_insert_ne by done. apply lookup_insert_eq. }
  { right. by rewrite !zupd_ne. }
  destruct (brelse_ok _ _ j b Hr5) as (s6 & H7 & Hr6 & Hn6); cbn.
  { rewrite lookup_delete_ne by done. apply lookup_insert_eq. }
  { right. by rewrite !zupd_eq. }
  cbn in Hr6. rewrite (proj1 (held_restore _ _ _ _ _ Hi Hj Hij)) in Hr6.
  exists s6. split; [|split; [done|congruence]].
  unfold install_one. rstep. rstep_by H1. unfold lh_at. 
  eapply runs_bind_nil; [apply runs_silent; cbn; by rewrite Hl|cbn beta].
  rstep_by H2. rstep_by H3. rstep_by H4.
  change [(b, c_view c (lblk L k))] with ([(b, c_view c (lblk L k))] ++ ([] ++ [])).
  eapply runs_bind; [apply runs_zoom; eexists; split; [exact H5|reflexivity]|].
  eapply runs_bind; [apply runs_zoom; eexists; split; [exact H6|reflexivity]|].
  apply (runs_zoom lb (brelse j) (mk_logst s5 L)). eexists. split; [exact H7|reflexivity].
Qed.

Lemma write_log_one_ok :
  b ∈ c_pinned c ->
  exists s', runs (write_log_one k) (mk_logst s L) [(lblk L k, c_view c b)] tt (mk_logst s' L)
    /\ brep s' (mk_cache (zupd (c_view c) (lblk L k) (c_view c b))
                  (zupd (c_disk c) (lblk L k) (c_view c b)) (c_held c) (c_pinned c))
    /\ nblk s' = nblk s.
Proof.
  intros Hp. destruct (copy_setup (or_introl Hp)) as
    (i & j & s1 & s2 & H1 & Hl & H2 & Hi & Hj & Hij & Hr2 & Hn2 & Hab & Hcl & _ & Hlb).
  destruct (blocks_lookup _ _ _ _ Hok Hb) as (_ & Hk & _).
  destruct (Hlog _ (lblk_in_log _ _ _ Hok Hk)) as [_ Hpa].
  pose proof (bdata_ok _ _ j b Hr2 ltac:(apply lookup_insert_eq)) as H3. cbn in H3.
  assert ((<[j:=b]> (<[i:=lblk L k]> (c_held c)) : gmap nat Z) !! i = Some (lblk L k)) as Hii
    by (rewrite lookup_insert_ne by done; apply lookup_insert_eq).
  destruct (set_bdata_ok _ _ i (lblk L k) (c_view c b) Hr2) as (s3 & H4 & Hr3 & Hn3); [done|done|].
  destruct (bwrite_ok _ _ i (lblk L k) Hr3) as (s4 & H5 & Hr4 & Hn4); [done|].
  cbn in H5, Hr4. rewrite zupd_eq in H5, Hr4.
  replace (c_pinned c ∖ {[lblk L k]}) with (c_pinned c) in Hr4 by set_solver.
  destruct (brelse_ok _ _ j b Hr4) as (s5 & H6 & Hr5 & Hn5); cbn; [apply lookup_insert_eq|by left|].
  destruct (brelse_ok _ _ i (lblk L k) Hr5) as (s6 & H7 & Hr6 & Hn6); cbn.
  { by rewrite lookup_delete_ne. }
  { right. by rewrite !zupd_eq. }
  cbn in Hr6. rewrite (proj2 (held_restore _ _ _ _ _ Hi Hj Hij)) in Hr6.
  exists s6. split; [|split; [done|congruence]].
  unfold write_log_one. rstep. rstep_by H1. unfold lh_at. 
  eapply runs_bind_nil; [apply runs_silent; cbn; by rewrite Hl|cbn beta].
  rstep_by H2. rstep_by H3. rstep_by H4.
  change [(lblk L k, c_view c b)] with ([(lblk L k, c_view c b)] ++ ([] ++ [])).
  eapply runs_bind; [apply runs_zoom; eexists; split; [exact H5|reflexivity]|].
  eapply runs_bind; [apply runs_zoom; eexists; split; [exact H6|reflexivity]|].
  apply (runs_zoom lb (brelse i) (mk_logst s5 L)). eexists. split; [exact H7|reflexivity].
Qed.

End Copy.

Definition log_free (L : log) (c : cache) : Prop :=
  forall x, in_log L x -> ~ held_block c x /\ x ∉ c_pinned c.

Lemma install_loop L m k s c :
  brep s c -> log_ok L (nblk s) -> (k + m <= Z.to_nat (lh_n L))%nat -> log_free L c ->
  (forall i, (k <= i < k + m)%nat -> ~ held_block c (blk L i)) -> room c ->
  (forall i, (k <= i < k + m)%nat -> blk L i ∈ c_pinned c)
    \/ (size (c_held c) + size (c_pinned c) + 1 < NBUF)%nat ->
  exists s', runs (for_all (seq k m) install_one) (mk_logst s L)
               (install_w L (c_view c) k m) tt (mk_logst s' L)
    /\ brep s' (mk_cache (apply_writes (install_w L (c_view c) k m) (c_view c))
                  (apply_writes (install_w L (c_view c) k m) (c_disk c))
                  (c_held c) (c_pinned c ∖ list_to_set (blk L <$> seq k m)))
    /\ nblk s' = nblk s.
Proof.
  revert k s c. induction m as [|m IH]; intros k s c Hr Hok Hkm Hlog Hhb Hroom Hp.
  { exists s. split; [apply runs_for_all_nil|]. split; [|done]. cbn.
    rewrite difference_empty_L. by destruct c. }
  destruct (install_one_ok s c L k (blk L k)) as (s1 & H1 & Hr1 & Hn1); auto.
  { apply (blk_lookup L (nblk s)); [done|lia]. }
  { apply Hhb. lia. }
  { destruct Hp as [Hp|?]; [left; apply Hp; lia|by right]. }
  assert (size (c_pinned c ∖ {[blk L k]}) <= size (c_pinned c))%nat as Hsz
    by (apply subseteq_size; set_solver).
  destruct (IH (Datatypes.S k) s1 _ Hr1) as (s2 & H2 & Hr2 & Hn2); cbn in *.
  - by rewrite Hn1.
  - lia.
  - intros x Hx. destruct (Hlog x Hx). split; [done|set_solver].
  - intros i Hi. apply Hhb. lia.
  - unfold room in *. cbn. lia.
  - destruct Hp as [Hp|?]; [left|right; lia]. intros i Hi.
    apply elem_of_difference. split; [apply Hp; lia|]. rewrite elem_of_singleton.
    intros E. apply (blk_inj L (nblk s)) in E; [lia|done|lia|lia].
  - assert (install_w L (zupd (c_view c) (blk L k) (c_view c (lblk L k))) (Datatypes.S k) m
            = install_w L (c_view c) (Datatypes.S k) m) as E.
    { apply list_fmap_ext. intros ? i Hi. apply list_elem_of_lookup_2, elem_of_seq in Hi.
      rewrite zupd_ne; [done|]. apply (lblk_blk L (nblk s)); [done|lia|lia]. }
    rewrite E in *. exists s2. split; [|split; [|congruence]].
    + exact (runs_for_all_cons _ _ _ _ _ _ _ _ H1 H2).
    + cbn. replace (c_pinned c ∖ ({[blk L k]} ∪ list_to_set (blk L <$> seq (Datatypes.S k) m)))
        with (c_pinned c ∖ {[blk L k]} ∖ list_to_set (blk L <$> seq (Datatypes.S k) m))
        by (by rewrite difference_difference_l_L). done.
Qed.

Lemma write_log_loop L m k s c :
  brep s c -> log_ok L (nblk s) -> (k + m <= Z.to_nat (lh_n L))%nat -> log_free L c ->
  (forall i, (k <= i < k + m)%nat -> ~ held_block c (blk L i)) -> room c ->
  (forall i, (k <= i < k + m)%nat -> blk L i ∈ c_pinned c) ->
  exists s', runs (for_all (seq k m) write_log_one) (mk_logst s L)
               (log_w L (c_view c) k m) tt (mk_logst s' L)
    /\ brep s' (mk_cache (apply_writes (log_w L (c_view c) k m) (c_view c))
                  (apply_writes (log_w L (c_view c) k m) (c_disk c)) (c_held c) (c_pinned c))
    /\ nblk s' = nblk s.
Proof.
  revert k s c. induction m as [|m IH]; intros k s c Hr Hok Hkm Hlog Hhb Hroom Hp.
  { exists s. split; [apply runs_for_all_nil|]. split; [|done]. by destruct c. }
  destruct (write_log_one_ok s c L k (blk L k)) as (s1 & H1 & Hr1 & Hn1); auto.
  { apply (blk_lookup L (nblk s)); [done|lia]. }
  { apply Hhb. lia. }
  { apply Hp. lia. }
  destruct (IH (Datatypes.S k) s1 _ Hr1) as (s2 & H2 & Hr2 & Hn2); cbn in *; auto.
  - by rewrite Hn1.
  - lia.
  - intros i Hi. apply Hhb. lia.
  - intros i Hi. apply Hp. lia.
  - assert (log_w L (zupd (c_view c) (lblk L k) (c_view c (blk L k))) (Datatypes.S k) m
            = log_w L (c_view c) (Datatypes.S k) m) as E.
    { apply list_fmap_ext. intros ? i Hi. apply list_elem_of_lookup_2, elem_of_seq in Hi.
      rewrite zupd_ne; [done|]. intros E. symmetry in E. revert E.
      apply (lblk_blk L (nblk s)); [done|lia|lia]. }
    rewrite E in *. exists s2. split; [|split; [done|congruence]].
    exact (runs_for_all_cons _ _ _ _ _ _ _ _ H1 H2).
Qed.

(** *** The header block *)

Definition hdr_fill (L : log) (l : list nat) (d : list Z) : list Z :=
  foldl (fun d i => put32 d (hdr_off i) (blk L i)) d l.
Definition hdr_of (L : log) (d : list Z) : list Z :=
  hdr_fill L (seq 0 (Z.to_nat (lh_n L))) (put32 d 0 (lh_n L)).

Lemma hdr_fill_cons L i l d :
  hdr_fill L (i :: l) d = hdr_fill L l (put32 d (hdr_off i) (blk L i)).
Proof. done. Qed.

Lemma hdr_fill_length L l d : length (hdr_fill L l d) = length d.
Proof. revert d. induction l as [|i l IH]; intros d; [done|]. by rewrite hdr_fill_cons, IH, length_put32. Qed.

Lemma hdr_fill_other L l d off :
  (forall i, i ∈ l -> off + 4 <= hdr_off i \/ hdr_off i + 4 <= off)%nat ->
  get32 (hdr_fill L l d) off = get32 d off.
Proof.
  revert d. induction l as [|i l IH]; intros d Hl; [done|].
  rewrite hdr_fill_cons, IH by (intros j Hj; apply Hl; by right). apply get32_put32_ne.
  specialize (Hl i ltac:(by left)). lia.
Qed.

Lemma hdr_fill_at L N l d i :
  log_ok L N -> NoDup l -> i ∈ l -> (i < Z.to_nat (lh_n L))%nat -> length d = BSIZE ->
  get32 (hdr_fill L l d) (hdr_off i) = blk L i.
Proof.
  intros Hok Hnd. revert d. induction Hnd as [|j l Hj Hnd IH]; intros d Hi Hlt Hd; [set_solver|].
  destruct (blk_home _ _ _ Hok Hlt) as ((Hb & Hb') & _). pose proof (lo_N _ _ Hok).
  pose proof (lo_n _ _ Hok) as [Hn _].
  rewrite hdr_fill_cons. apply elem_of_cons in Hi as [->|Hi].
  - rewrite hdr_fill_other.
    + apply get32_put32_eq; [|lia]. unfold hdr_off, LOGSIZE, MAXOPBLOCKS, BSIZE in *. lia.
    + intros i Hi. unfold hdr_off. assert (i <> j) by (intros ->; done). lia.
  - apply IH; [done|done|by rewrite length_put32].
Qed.

Lemma hdr_of_ok L N d :
  log_ok L N -> length d = BSIZE ->
  length (hdr_of L d) = BSIZE /\ get32 (hdr_of L d) 0 = lh_n L
  /\ (forall i, (i < Z.to_nat (lh_n L))%nat -> get32 (hdr_of L d) (hdr_off i) = blk L i).
Proof.
  intros Hok Hd. unfold hdr_of. pose proof (lo_n _ _ Hok) as [Hn _].
  split; [by rewrite hdr_fill_length, length_put32|]. split.
  - rewrite hdr_fill_other by (intros i _; unfold hdr_off; lia).
    apply get32_put32_eq; [unfold BSIZE in *; lia|]. unfold LOGSIZE, MAXOPBLOCKS in Hn. lia.
  - intros i Hi. apply (hdr_fill_at L N); auto; [apply NoDup_seq| |by rewrite length_put32].
    apply elem_of_seq. lia.
Qed.

(** The loop of [write_head] on the buffer [j] that holds block [n]. *)
Lemma write_head_loop L (j : nat) n l s c :
  brep s c -> log_ok L (nblk s) -> c_held c !! j = Some n ->
  (forall i, i ∈ l -> (i < Z.to_nat (lh_n L))%nat) -> length (c_view c n) = BSIZE ->
  exists s', runs (for_all l (fun i =>
        let* v := lh_at i in
        let* d := zoom lb (bdata j) in
        zoom lb (set_bdata j (put32 d (hdr_off i) v)))) (mk_logst s L) [] tt (mk_logst s' L)
    /\ brep s' (mk_cache (zupd (c_view c) n (hdr_fill L l (c_view c n))) (c_disk c) (c_held c)
                  (c_pinned c))
    /\ nblk s' = nblk s.
Proof.
  revert s c. induction l as [|i l IH]; intros s c Hr Hok Hj Hl Hlen.
  { exists s. split; [apply runs_for_all_nil|]. split; [|done].
    apply (brep_ext s c); [|done]. split; [|done]. intros x. cbn. unfold zupd.
    by destruct (Z.eqb_spec x n) as [->|]. }
  pose proof (Hl i ltac:(by left)) as Hi.
  destruct (blocks_lookup L _ i (blk L i) Hok) as (Hbi & _); [by eapply blk_lookup|].
  pose proof (bdata_ok _ _ j n Hr Hj) as H1.
  destruct (set_bdata_ok _ _ j n (put32 (c_view c n) (hdr_off i) (blk L i)) Hr Hj)
    as (s1 & H2 & Hr1 & Hn1); [by rewrite length_put32|].
  destruct (IH s1 _ Hr1) as (s2 & H3 & Hr2 & Hn2); cbn [c_view c_disk c_held c_pinned].
  { by rewrite Hn1. } { done. } { intros k Hk. apply Hl. by right. }
  { by rewrite zupd_eq, length_put32. }
  exists s2. split; [|split; [|congruence]].
  - change (@nil (Z * list Z)) with (@nil (Z * list Z) ++ []). eapply runs_for_all_cons; [|exact H3].
    unfold lh_at. eapply runs_bind_nil; [apply runs_silent; cbn; by rewrite Hbi|cbn beta].
    rstep_by H1. apply (runs_zoom lb (set_bdata j _) (mk_logst s L)), runs_silent. exact H2.
  - revert Hr2. apply brep_ext. cbn [c_view c_disk c_held c_pinned]. split; [|done]. intros x. cbn [c_view]. rewrite zupd_eq. apply zupd_zupd.
Qed.

Lemma write_head_ok L s c :
  brep s c -> log_ok L (nblk s) -> log_free L c -> room c ->
  let v := hdr_of L (c_view c (l_start L)) in
  exists s', runs write_head (mk_logst s L) [(l_start L, v)] tt (mk_logst s' L)
    /\ brep s' (mk_cache (zupd (c_view c) (l_start L) v) (zupd (c_disk c) (l_start L) v) (c_held c)
                  (c_pinned c))
    /\ nblk s' = nblk s.
Proof.
  intros Hr Hok Hlog Hroom v. pose proof (start_in_log _ _ Hok) as Hin.
  pose proof (in_log_range _ _ _ Hok Hin) as Hst. destruct (Hlog _ Hin) as [Hnh Hnp].
  pose proof (bview_length _ _ _ Hr Hst) as Hlen.
  destruct (bread_ok s c (l_start L)) as (j & s1 & H1 & Hj & Hr1 & Hn1); auto.
  pose proof (bdata_ok _ _ j (l_start L) Hr1 ltac:(apply lookup_insert_eq)) as H2.
  destruct (set_bdata_ok _ _ j (l_start L) (put32 (c_view c (l_start L)) 0 (lh_n L)) Hr1)
    as (s2 & H3 & Hr2 & Hn2); [apply lookup_insert_eq|by rewrite length_put32|].
  destruct (write_head_loop L j (l_start L) (seq 0 (Z.to_nat (lh_n L))) s2 _ Hr2)
    as (s3 & H4 & Hr3 & Hn3); cbn [c_view c_disk c_held c_pinned].
  { by rewrite Hn2, Hn1. } { apply lookup_insert_eq. } { intros i Hi%elem_of_seq. lia. }
  { by rewrite zupd_eq, length_put32. }
  cbn [c_view c_disk c_held c_pinned] in Hr3. rewrite zupd_eq in Hr3. fold (hdr_of L (c_view c (l_start L))) in Hr3. fold v in Hr3.
  destruct (bwrite_ok _ _ j (l_start L) Hr3) as (s4 & H5 & Hr4 & Hn4); [apply lookup_insert_eq|].
  cbn [c_view c_disk c_held c_pinned] in H5, Hr4. rewrite zupd_eq in H5, Hr4.
  replace (c_pinned c ∖ {[l_start L]}) with (c_pinned c) in Hr4 by set_solver.
  destruct (brelse_ok _ _ j (l_start L) Hr4) as (s5 & H6 & Hr5 & Hn5); cbn [c_view c_disk c_held c_pinned].
  { apply lookup_insert_eq. } { right. by rewrite !zupd_eq. }
  cbn [c_view c_disk c_held c_pinned] in Hr5. rewrite delete_insert_id in Hr5 by done.
  exists s5. split; [|split; [|congruence]].
  - unfold write_head. rstep. cbn [lg]. rewrite (start_u32 _ _ Hok), (lo_dev _ _ Hok).
    rstep_by H1. rstep_by H2. rstep_by H3. eapply runs_bind_nil; [exact H4|cbn beta].
    change [(l_start L, v)] with ([(l_start L, v)] ++ []).
    eapply runs_bind; [apply runs_zoom; eexists; split; [exact H5|reflexivity]|].
    apply (runs_zoom lb (brelse j) (mk_logst s4 L)). eexists. split; [exact H6|reflexivity].
  - revert Hr5. apply brep_ext. split; [|done]. intros x. apply zupd_zupd.
Qed.

(** The block numbers in a header block. *)
Definition hdr_n (d : list Z) : Z := s32 (get32 d 0).
Definition hdr_blocks (d : list Z) : list Z :=
  (fun i => get32 d (hdr_off i)) <$> seq 0 (Z.to_nat (hdr_n d)).

Lemma set_lh_loop (d : list Z) m k (s : S) L :
  (k + m <= length (lh_block L))%nat ->
  exists bs, runs (for_all (seq k m) (fun i => set_lh i (get32 d (hdr_off i)))) (mk_logst s L)
      [] tt (mk_logst s (set_blocks bs L))
    /\ length bs = length (lh_block L)
    /\ (forall i, (i < length bs)%nat ->
          bs !! i = if decide (k <= i < k + m)%nat then Some (get32 d (hdr_off i))
                    else lh_block L !! i).
Proof.
  revert k L. induction m as [|m IH]; intros k L Hkm.
  { exists (lh_block L). split; [|split; [done|]].
    - exists []. destruct L. done.
    - intros i Hi. by rewrite decide_False by lia. }
  set (L1 := set_blocks (<[k := get32 d (hdr_off k)]> (lh_block L)) L).
  destruct (IH (Datatypes.S k) L1) as (bs & H1 & Hl & Hbs).
  { cbn. rewrite length_insert. lia. }
  cbn [lh_block L1 set_blocks] in Hl, Hbs. rewrite length_insert in Hl.
  exists bs. split; [|split; [done|]].
  - change (@nil (Z * list Z)) with (@nil (Z * list Z) ++ []). eapply runs_for_all_cons; [|exact H1].
    apply (runs_set_lh k _ (mk_logst s L)). cbn. lia.
  - intros i Hi. rewrite Hbs by done. repeat case_decide; try lia; try done.
    + assert (i = k) as -> by lia. apply list_lookup_insert_eq. lia.
    + apply list_lookup_insert_ne. lia.
Qed.

Lemma read_head_ok L s c :
  brep s c -> log_ok (set_n 0 L) (nblk s) -> log_free L c -> room c ->
  let v := c_view c (l_start L) in
  0 <= hdr_n v <= LOGSIZE ->
  exists s' bs, runs read_head (mk_logst s L) [] tt
                  (mk_logst s' (set_blocks bs (set_n (hdr_n v) L)))
    /\ brep s' c /\ nblk s' = nblk s /\ length bs = Z.to_nat LOGSIZE
    /\ take (Z.to_nat (hdr_n v)) bs = hdr_blocks v.
Proof.
  intros Hr Hok Hlog Hroom v Hn. pose proof (start_in_log _ _ Hok) as Hin.
  pose proof (in_log_range _ _ _ Hok Hin) as Hst. destruct (Hlog _ Hin) as [Hnh Hnp].
  pose proof (lo_len _ _ Hok) as Hlen. cbn in Hst, Hnh, Hnp, Hlen.
  destruct (bread_ok s c (l_start L)) as (j & s1 & H1 & Hj & Hr1 & Hn1); auto.
  pose proof (bdata_ok _ _ j (l_start L) Hr1 ltac:(apply lookup_insert_eq)) as H2.
  destruct (brelse_ok _ _ j (l_start L) Hr1) as (s2 & H3 & Hr2 & Hn2).
  { apply lookup_insert_eq. } { right. by apply (bclean s c). }
  cbn [c_view c_disk c_held c_pinned] in Hr2. rewrite delete_insert_id in Hr2 by done.
  destruct (set_lh_loop v (Z.to_nat (hdr_n v)) 0 s1 (set_n (hdr_n v) L)) as (bs & H4 & Hl & Hbs).
  { cbn. rewrite Hlen. lia. }
  cbn [lh_block set_n] in Hl. exists s2, bs.
  split; [|split; [by destruct c|split; [congruence|split; [congruence|]]]].
  - unfold read_head. rstep. cbn [lg].
    pose proof (start_u32 _ _ Hok) as Hsu. pose proof (lo_dev _ _ Hok) as Hd. cbn in Hsu, Hd.
    rewrite Hsu, Hd. rstep_by H1. rstep_by H2.
    eapply runs_bind_nil; [apply runs_modify|cbn beta]. rstep. cbn [lg lbio lh_n set_n].
    eapply runs_bind_nil; [exact H4|cbn beta].
    apply (runs_zoom lb (brelse j) (mk_logst s1 _)). eexists. split; [exact H3|reflexivity].
  - apply list_eq. intros i. unfold hdr_blocks. rewrite list_lookup_fmap.
    destruct (decide (i < Z.to_nat (hdr_n v))%nat).
    + rewrite lookup_take_lt, lookup_seq_lt, Hbs by lia. rewrite decide_True by lia. done.
    + rewrite lookup_take_ge, lookup_seq_ge by lia. done.
Qed.

End LogSpec.
