(* ===== verification/LogCrash.v ===== *)
(** * Crashes and the log

    The disk at a crash is the disk before the run with a prefix of the run's
    block writes applied.  [log_apply] is what the disk means once its log is
    taken into account; recovery, commit and their interruptions are described
    by what they do to it. *)

From stdpp Require Import base numbers list gmap strings.
From S2P Require Import Prelude Bytes Buf Log.

Open Scope Z_scope.

(** ** The disk and its log *)

Definition disk : Type := Z -> list Z.

(** The superblock says where the log is. *)
Definition sb_at (L : log) (d : disk) : Prop :=
  s32 (sb_logstart (sb_of (d 1))) = l_start L /\ s32 (sb_nlog (sb_of (d 1))) = l_size L.

Record wf_log (L : log) (N : Z) (d : disk) : Prop := {
  wl_n : 0 <= hdr_n (d (l_start L)) <= LOGSIZE /\ hdr_n (d (l_start L)) <= l_size L - 1;
  wl_nodup : NoDup (hdr_blocks (d (l_start L)));
  wl_home : Forall (home L N) (hdr_blocks (d (l_start L)));
  wl_sb : sb_at L d
}.

(** What recovery copies home. *)
Definition hdr_w (L : log) (d : disk) : list (Z * list Z) :=
  (fun i => (get32 (d (l_start L)) (hdr_off i), d (lblk L i)))
    <$> seq 0 (Z.to_nat (hdr_n (d (l_start L)))).

Definition log_apply (L : log) (d : disk) : disk := apply_writes (hdr_w L d) d.

Lemma hdr_w_fst L d : (hdr_w L d).*1 = hdr_blocks (d (l_start L)).
Proof. unfold hdr_w, hdr_blocks. by rewrite <- list_fmap_compose. Qed.

Lemma apply_writes_notin w d x : x ∉ w.*1 -> apply_writes w d x = d x.
Proof.
  revert d. induction w as [|[n v] w IH]; intros d Hx; [done|].
  rewrite fmap_cons in Hx. cbn [fst] in Hx. rewrite apply_writes_cons, IH by set_solver.
  apply zupd_ne. set_solver.
Qed.

Lemma apply_writes_in w d x v : NoDup w.*1 -> (x, v) ∈ w -> apply_writes w d x = v.
Proof.
  revert d. induction w as [|[n u] w IH]; intros d Hnd Hx; [set_solver|].
  cbn in Hnd. apply NoDup_cons in Hnd as [Hn Hnd]. apply elem_of_cons in Hx as [[= -> ->]|Hx].
  - rewrite apply_writes_cons, apply_writes_notin by done. apply zupd_eq.
  - rewrite apply_writes_cons. by apply IH.
Qed.

(** Doing some of the writes first does not change the outcome. *)
Lemma apply_writes_prefix w p d x :
  NoDup w.*1 -> p `prefix_of` w -> apply_writes w (apply_writes p d) x = apply_writes w d x.
Proof.
  intros Hnd [q ->]. destruct (decide (x ∈ (p ++ q).*1)) as [Hx|Hx].
  - apply list_elem_of_fmap in Hx as ([n v] & -> & Hx).
    by rewrite !(apply_writes_in _ _ _ v).
  - rewrite !(apply_writes_notin (p ++ q)) by done. apply apply_writes_notin.
    rewrite fmap_app in Hx. set_solver.
Qed.

Lemma prefix_app_cases {A} (p a b : list A) :
  p `prefix_of` a ++ b -> p `prefix_of` a \/ exists q, p = a ++ q /\ q `prefix_of` b.
Proof.
  intros Hp. destruct (prefix_weak_total p a (a ++ b)) as [Hpa|[q ->]]; auto.
  { by exists b. }
  right. exists q. split; [done|]. by apply prefix_app_inv in Hp.
Qed.

Lemma prefix_one {A} (p : list A) x : p `prefix_of` [x] -> p = [] \/ p = [x].
Proof.
  intros [q Hq]. destruct p as [|y p]; [by left|]. right.
  cbn in Hq. injection Hq as <- Hq. symmetry in Hq. by apply app_eq_nil in Hq as [-> _].
Qed.

(** Writes that stay away from the log and the superblock. *)
Lemma hdr_w_frame L d d' :
  d' (l_start L) = d (l_start L) ->
  (forall i, (i < Z.to_nat (hdr_n (d (l_start L))))%nat -> d' (lblk L i) = d (lblk L i)) ->
  hdr_w L d' = hdr_w L d.
Proof.
  intros Hs Hl. unfold hdr_w. rewrite Hs. apply list_fmap_ext. intros ? i Hi.
  apply list_elem_of_lookup_2, elem_of_seq in Hi. rewrite Hl by lia. done.
Qed.

Lemma wf_frame L N d d' :
  d' (l_start L) = d (l_start L) -> d' 1 = d 1 -> wf_log L N d -> wf_log L N d'.
Proof. intros Hs H1 [W1 W2 W3 W4]. unfold sb_at in *. constructor; unfold sb_at; rewrite ?Hs, ?H1; auto. Qed.

(** A log whose header says 0 blocks. *)
Lemma log_apply_empty L d x : get32 (d (l_start L)) 0 = 0 -> log_apply L d x = d x.
Proof. intros H0. unfold log_apply, hdr_w, hdr_n. by rewrite H0. Qed.

Lemma wf_empty L N d :
  1 <= l_size L -> get32 (d (l_start L)) 0 = 0 -> sb_at L d -> wf_log L N d.
Proof.
  intros Hsz H0 Hsb. constructor; unfold hdr_blocks, hdr_n; rewrite ?H0; try done; try constructor.
  - done.
  - change (s32 0) with 0. lia.
Qed.

Section Recovery.
Variables (L : log) (N : Z) (d : disk) (h : list Z).
Hypothesis Hok : log_ok (set_n 0 L) N.
Hypothesis Hwf : wf_log L N d.
Hypothesis Hh : get32 h 0 = 0.

Lemma lblk_log i : (i < Z.to_nat (hdr_n (d (l_start L))))%nat -> in_log L (lblk L i).
Proof.
  intros Hi. pose proof (wl_n _ _ _ Hwf). unfold in_log, lblk. lia.
Qed.

Lemma hdr_w_home n : n ∈ (hdr_w L d).*1 -> home L N n.
Proof.
  rewrite hdr_w_fst. pose proof (wl_home _ _ _ Hwf) as Hf. rewrite Forall_forall in Hf. auto.
Qed.

Lemma hdr_w_nodup : NoDup (hdr_w L d).*1.
Proof. rewrite hdr_w_fst. apply (wl_nodup _ _ _ Hwf). Qed.

Lemma start_log : in_log L (l_start L).
Proof. pose proof (lo_size _ _ Hok) as Hs. cbn in Hs. unfold in_log. lia. Qed.

Lemma install_prefix p :
  p `prefix_of` hdr_w L d ->
  wf_log L N (apply_writes p d)
  /\ (forall x, home L N x -> log_apply L (apply_writes p d) x = log_apply L d x).
Proof.
  intros Hp.
  assert (forall x, ~ home L N x -> apply_writes p d x = d x) as Hout.
  { intros x Hx. apply apply_writes_notin. intros Hin. apply Hx, hdr_w_home.
    destruct Hp as [r ->]. rewrite fmap_app. set_solver. }
  assert (Hs : apply_writes p d (l_start L) = d (l_start L)).
  { apply Hout. intros (_ & _ & Hn). by apply Hn, start_log. }
  split; [apply (wf_frame L N d); [done| |done]; apply Hout; by intros (_ & ? & _)|].
  intros x Hx. unfold log_apply. rewrite (hdr_w_frame L d).
  - apply apply_writes_prefix; [apply hdr_w_nodup|done].
  - done.
  - intros i Hi. apply Hout. intros (_ & _ & Hn). by apply Hn, lblk_log.
Qed.

(** Interrupting recovery anywhere leaves a disk that means the same. *)
Lemma recovery_prefix p :
  p `prefix_of` hdr_w L d ++ [(l_start L, h)] ->
  wf_log L N (apply_writes p d)
  /\ (forall x, home L N x -> log_apply L (apply_writes p d) x = log_apply L d x).
Proof.
  intros Hp. apply prefix_app_cases in Hp as [Hp|(q & -> & Hq)]; [by apply install_prefix|].
  apply prefix_one in Hq as [->| ->]; [rewrite app_nil_r; by apply install_prefix|].
  rewrite apply_writes_app, apply_writes_cons. cbn [apply_writes foldl].
  pose proof (lo_start _ _ Hok) as Hst. cbn in Hst. split.
  - apply wf_empty; [apply (lo_size _ _ Hok)|by rewrite zupd_eq|].
    unfold sb_at. rewrite zupd_ne by lia. rewrite apply_writes_notin; [apply (wl_sb _ _ _ Hwf)|].
    by intros (_ & ? & _)%hdr_w_home.
  - intros x Hx. rewrite log_apply_empty by (by rewrite zupd_eq). rewrite zupd_ne; [done|].
    intros ->. destruct Hx as (_ & _ & Hn). by apply Hn, start_log.
Qed.

Lemma recovery_full x :
  home L N x -> apply_writes (hdr_w L d ++ [(l_start L, h)]) d x = log_apply L d x.
Proof.
  intros Hx. rewrite apply_writes_app, apply_writes_cons. cbn [apply_writes foldl].
  rewrite zupd_ne; [done|]. intros ->. destruct Hx as (_ & _ & Hn). by apply Hn, start_log.
Qed.

End Recovery.

(** ** Runs of recovery and commit *)

Section Runs.
Context {S : Type} `{BCacheSpec S}.

Lemma fresh_room d : room (fresh_cache d).
Proof. unfold room, NBUF. cbn. rewrite map_size_empty, size_empty. lia. Qed.

Lemma fresh_free L d : log_free L (fresh_cache d).
Proof. intros x _. split; [intros [i Hi]; cbn in Hi; by rewrite lookup_empty in Hi|set_solver]. Qed.

Lemma fresh_unheld d x : ~ held_block (fresh_cache d) x.
Proof. intros [i Hi]. cbn in Hi. by rewrite lookup_empty in Hi. Qed.

(** The in-memory log after [read_head] of a well-formed header. *)
Lemma log_ok_loaded L N d bs :
  log_ok (set_n 0 L) N -> wf_log L N d -> length bs = Z.to_nat LOGSIZE ->
  take (Z.to_nat (hdr_n (d (l_start L)))) bs = hdr_blocks (d (l_start L)) ->
  log_ok (set_blocks bs (set_n (hdr_n (d (l_start L))) L)) N.
Proof.
  intros Hok Hwf Hl Ht. constructor; cbn; try apply Hok; auto.
  - apply (wl_n _ _ _ Hwf).
  - unfold blocks. cbn. rewrite Ht. apply (wl_nodup _ _ _ Hwf).
  - unfold blocks. cbn. rewrite Ht. apply (wl_home _ _ _ Hwf).
Qed.

Lemma install_w_loaded L d bs :
  take (Z.to_nat (hdr_n (d (l_start L)))) bs = hdr_blocks (d (l_start L)) ->
  install_w (set_blocks bs (set_n (hdr_n (d (l_start L))) L)) d 0 (Z.to_nat (hdr_n (d (l_start L))))
  = hdr_w L d.
Proof.
  intros Ht. unfold install_w, hdr_w. apply list_fmap_ext. intros ? i Hi.
  apply list_elem_of_lookup_2, elem_of_seq in Hi. f_equal.
  unfold blk, blocks. cbn [lh_n lh_block set_blocks set_n]. rewrite Ht.
  unfold hdr_blocks. rewrite nth_lookup, list_lookup_fmap, lookup_seq_lt by lia. done.
Qed.

Lemma hdr_of_0 L N d :
  log_ok (set_n 0 L) N -> length d = BSIZE -> get32 (hdr_of (set_n 0 L) d) 0 = 0.
Proof. intros Hok Hd. by apply (hdr_of_ok (set_n 0 L) N d). Qed.

Lemma recover_run s L d :
  brep s (fresh_cache d) -> log_ok (set_n 0 L) (nblk s) -> wf_log L (nblk s) d ->
  exists s' L' h, runs recover_from_log (mk_logst s L) (hdr_w L d ++ [(l_start L, h)]) tt (mk_logst s' L')
    /\ get32 h 0 = 0 /\ nblk s' = nblk s
    /\ brep s' (fresh_cache (apply_writes (hdr_w L d ++ [(l_start L, h)]) d))
    /\ log_ok L' (nblk s) /\ lh_n L' = 0 /\ l_start L' = l_start L /\ l_size L' = l_size L
    /\ outstanding L' = outstanding L /\ committing L' = committing L /\ l_lock L' = l_lock L.
Proof.
  intros Hr Hok Hwf. pose proof (wl_n _ _ _ Hwf) as [Hn _].
  destruct (read_head_ok L s (fresh_cache d) Hr Hok (fresh_free L d) (fresh_room d) Hn)
    as (s1 & bs & H1 & Hr1 & Hn1 & Hl & Ht). cbn [fresh_cache c_view] in H1, Ht.
  set (L1 := set_blocks bs (set_n (hdr_n (d (l_start L))) L)) in *.
  assert (Hok1 : log_ok L1 (nblk s)) by (by apply log_ok_loaded).
  destruct (install_loop L1 (Z.to_nat (lh_n L1)) 0 s1 (fresh_cache d) Hr1) as (s2 & H2 & Hr2 & Hn2).
  { by rewrite Hn1. } { lia. } { apply fresh_free. } { intros; apply fresh_unheld. }
  { apply fresh_room. } { right. cbn. rewrite map_size_empty, size_empty. unfold NBUF. lia. }
  cbn [fresh_cache c_view c_disk c_held c_pinned] in H2, Hr2.
  change (install_w L1 d 0 (Z.to_nat (lh_n L1))) with
    (install_w (set_blocks bs (set_n (hdr_n (d (l_start L))) L)) d 0
       (Z.to_nat (hdr_n (d (l_start L))))) in H2, Hr2.
  rewrite (install_w_loaded L d bs Ht) in H2, Hr2.
  replace (∅ ∖ _) with (∅ : gset Z) in Hr2 by set_solver.
  set (L2 := set_n 0 L1).
  assert (Hok2 : log_ok L2 (nblk s)).
  { constructor; cbn; try apply Hok; try apply Hok1. }
  destruct (write_head_ok L2 s2 _ Hr2) as (s3 & H3 & Hr3 & Hn3).
  { by rewrite Hn2, Hn1. } { apply fresh_free. } { apply fresh_room. }
  cbn [c_view c_disk c_held c_pinned] in H3, Hr3.
  set (h := hdr_of L2 _) in *. change (l_start L2) with (l_start L) in *.
  exists s3, L2, h. split; [|split; [|split; [congruence|split; [|split; [done|]]]]].
  - unfold recover_from_log. eapply runs_bind_nil; [exact H1|].
    eapply runs_bind; [unfold install_trans; rstep; exact H2|].
    eapply runs_bind_nil; [apply runs_modify|exact H3].
  - apply (hdr_of_ok L2 (nblk s)); [done|].
    assert (in_log L (l_start L)) as Hin by (apply (start_in_log _ _ Hok)).
    apply (bview_length _ _ (l_start L) Hr2). rewrite Hn2, Hn1.
    apply (in_log_range _ _ _ Hok Hin).
  - rewrite apply_writes_app. exact Hr3.
  - done.
Qed.

Lemma readsb_run s d :
  brep s (fresh_cache d) -> 0 <= 1 < nblk s ->
  exists s', runs (readsb ROOTDEV) s [] (sb_of (d 1)) s' /\ brep s' (fresh_cache d) /\ nblk s' = nblk s.
Proof.
  intros Hr Hn. destruct (bread_ok s _ 1 Hr) as (j & s1 & H1 & Hj & Hr1 & Hn1); auto using fresh_unheld, fresh_room.
  pose proof (bdata_ok _ _ j 1 Hr1 ltac:(apply lookup_insert_eq)) as H2.
  destruct (brelse_ok _ _ j 1 Hr1) as (s2 & H3 & Hr2 & Hn2); [apply lookup_insert_eq|by right|].
  cbn [c_view c_disk c_held c_pinned] in Hr2. rewrite delete_insert_id in Hr2 by done.
  exists s2. split; [|split; [done|congruence]]. unfold readsb.
  eapply runs_bind_nil; [apply runs_silent; exact H1|]. cbn beta.
  eapply runs_bind_nil; [apply runs_silent; exact H2|]. cbn beta.
  eapply runs_bind_nil; [eexists; split; [exact H3|reflexivity]|]. apply runs_ret.
Qed.

Lemma initlog_run s L0 L d :
  brep s (fresh_cache d) -> set_where (l_start L) (l_size L) ROOTDEV (set_llock false L0) = L ->
  log_ok (set_n 0 L) (nblk s) -> wf_log L (nblk s) d ->
  exists s' L' h, runs (initlog ROOTDEV) (mk_logst s L0) (hdr_w L d ++ [(l_start L, h)]) tt (mk_logst s' L')
    /\ get32 h 0 = 0 /\ nblk s' = nblk s
    /\ brep s' (fresh_cache (apply_writes (hdr_w L d ++ [(l_start L, h)]) d))
    /\ log_ok L' (nblk s) /\ lh_n L' = 0 /\ l_start L' = l_start L /\ l_size L' = l_size L
    /\ outstanding L' = outstanding L /\ committing L' = committing L /\ l_lock L' = false.
Proof.
  intros Hr HL Hok Hwf.
  pose proof (lo_start _ _ Hok) as Hst. pose proof (lo_size _ _ Hok) as Hsz.
  pose proof (lo_fits _ _ Hok) as Hf. cbn in Hst, Hsz, Hf.
  destruct (readsb_run s d Hr) as (s1 & H1 & Hr1 & Hn1); [lia|].
  destruct (recover_run s1 L d Hr1) as (s2 & L2 & h & H2 & Hh & Hn2 & Hr2 & Hok2 & ?);
    [by rewrite Hn1|by rewrite Hn1|].
  exists s2, L2, h. rewrite Hn1 in *. destruct (wl_sb _ _ _ Hwf) as [Hsb1 Hsb2].
  split; [|repeat split; auto; try apply Hok2; try tauto; try congruence].
  - unfold initlog. change (LOGHEADER_SIZE >=? Z.of_nat BSIZE) with false.
    eapply runs_bind_nil; [apply runs_modify|]. cbn beta.
    eapply runs_bind_nil; [apply runs_zoom; exact H1|]. cbn beta. rewrite Hsb1, Hsb2.
    eapply runs_bind_nil; [apply runs_modify|]. cbn [lbio lg lset lb]. rewrite HL. exact H2.
  - assert (l_lock L = false) as E by (rewrite <- HL; done). rewrite <- E. tauto.
Qed.

(** *** Commit *)

(** Between transactions and during one: the header on the disk is empty, and
    exactly the blocks of the running transaction are pinned. *)
Record log_inv (L : log) (c : cache) (N : Z) : Prop := {
  li_ok : log_ok L N;
  li_free : log_free L c;
  li_pinned : c_pinned c = list_to_set (blocks L);
  li_header : get32 (c_disk c (l_start L)) 0 = 0;
  li_sb : sb_at L (c_disk c)
}.

(** The disk the transaction means to leave. *)
Definition committed (L : log) (c : cache) (x : Z) : list Z :=
  if decide (x ∈ blocks L) then c_view c x else c_disk c x.

Lemma log_ok_0 L N : log_ok L N -> log_ok (set_n 0 L) N.
Proof.
  intros Hok. constructor; cbn; try apply Hok.
  - pose proof (lo_size _ _ Hok). unfold LOGSIZE, MAXOPBLOCKS. lia.
  - constructor.
  - constructor.
Qed.

Lemma blocks_blk L N : log_ok L N -> blk L <$> seq 0 (Z.to_nat (lh_n L)) = blocks L.
Proof.
  intros Hok. apply list_eq. intros i. rewrite list_lookup_fmap.
  destruct (decide (i < Z.to_nat (lh_n L))%nat).
  - rewrite lookup_seq_lt by lia. symmetry. by apply (blk_lookup L N).
  - rewrite lookup_seq_ge by lia. symmetry. apply lookup_ge_None.
    rewrite (blocks_length L N) by done. lia.
Qed.

Lemma log_w_fst L view k m : (log_w L view k m).*1 = lblk L <$> seq k m.
Proof. unfold log_w. by rewrite <- list_fmap_compose. Qed.

Lemma log_w_notin L N view x :
  log_ok L N -> (forall i, (i < Z.to_nat (lh_n L))%nat -> x <> lblk L i) ->
  x ∉ (log_w L view 0 (Z.to_nat (lh_n L))).*1.
Proof.
  intros Hok Hx. rewrite log_w_fst, list_elem_of_fmap. intros (i & -> & Hi%elem_of_seq).
  apply (Hx i); [lia|done].
Qed.

Lemma log_w_at L N view f i :
  log_ok L N -> (i < Z.to_nat (lh_n L))%nat ->
  apply_writes (log_w L view 0 (Z.to_nat (lh_n L))) f (lblk L i) = view (blk L i).
Proof.
  intros Hok Hi. apply apply_writes_in.
  - rewrite log_w_fst. apply NoDup_fmap_2; [|apply NoDup_seq]. intros a b. unfold lblk. lia.
  - unfold log_w. apply list_elem_of_fmap. exists i. split; [done|]. apply elem_of_seq. lia.
Qed.

(** The disk after the commit point. *)
Section CommitPoint.
Variables (L : log) (N : Z) (c : cache) (h : list Z).
Hypothesis Hinv : log_inv L c N.
Hypothesis Hh0 : get32 h 0 = lh_n L.
Hypothesis Hhi : forall i, (i < Z.to_nat (lh_n L))%nat -> get32 h (hdr_off i) = blk L i.

Let WL := log_w L (c_view c) 0 (Z.to_nat (lh_n L)).
Let d1 := zupd (apply_writes WL (c_disk c)) (l_start L) h.

Let Hok : log_ok L N := li_ok _ _ _ Hinv.

Lemma cp_n : hdr_n (d1 (l_start L)) = lh_n L.
Proof.
  unfold d1. rewrite zupd_eq. unfold hdr_n. rewrite Hh0. pose proof (lo_n _ _ Hok) as [Hn _].
  apply s32_small. unfold LOGSIZE, MAXOPBLOCKS in Hn. lia.
Qed.

Lemma cp_blocks : hdr_blocks (d1 (l_start L)) = blocks L.
Proof.
  unfold hdr_blocks. rewrite cp_n, <- (blocks_blk L N) by done. apply list_fmap_ext.
  intros ? i Hi. apply list_elem_of_lookup_2, elem_of_seq in Hi. unfold d1. rewrite zupd_eq.
  apply Hhi. lia.
Qed.

Lemma lblk_not_start i : lblk L i <> l_start L.
Proof. unfold lblk. lia. Qed.

Lemma cp_hdr_w : hdr_w L d1 = (fun i => (blk L i, c_view c (blk L i))) <$> seq 0 (Z.to_nat (lh_n L)).
Proof.
  unfold hdr_w. rewrite cp_n. apply list_fmap_ext. intros ? i Hi.
  apply list_elem_of_lookup_2, elem_of_seq in Hi. f_equal.
  - unfold d1. rewrite zupd_eq. apply Hhi. lia.
  - unfold d1. rewrite zupd_ne by apply lblk_not_start. apply (log_w_at L N); [done|lia].
Qed.

Lemma home_not_lblk x i : home L N x -> (i < Z.to_nat (lh_n L))%nat -> x <> lblk L i.
Proof. intros (_ & _ & Hx) Hi ->. by apply Hx, (lblk_in_log L N). Qed.

Lemma home_not_start x : home L N x -> x <> l_start L.
Proof. intros (_ & _ & Hx) ->. by apply Hx, (start_in_log L N). Qed.

Lemma cp_wf : wf_log L N d1.
Proof.
  pose proof (lo_start _ _ Hok).
  constructor; rewrite ?cp_n, ?cp_blocks; try apply Hok.
  unfold sb_at, d1. rewrite zupd_ne by lia.
  rewrite apply_writes_notin; [apply (li_sb _ _ _ Hinv)|]. apply (log_w_notin L N); [done|].
  intros i Hi. unfold lblk. lia.
Qed.

Lemma cp_apply x : home L N x -> log_apply L d1 x = committed L c x.
Proof.
  intros Hx. unfold log_apply, committed. rewrite cp_hdr_w.
  case_decide as Hin.
  - apply apply_writes_in.
    + rewrite <- cp_hdr_w, hdr_w_fst, cp_blocks. apply Hok.
    + rewrite <- (blocks_blk L N) in Hin by done. apply list_elem_of_fmap in Hin as (i & -> & Hi).
      apply list_elem_of_fmap. by exists i.
  - rewrite apply_writes_notin by (rewrite <- cp_hdr_w, hdr_w_fst, cp_blocks; done).
    unfold d1. rewrite zupd_ne by (by apply home_not_start).
    apply apply_writes_notin, (log_w_notin L N); [done|]. intros i Hi. by apply home_not_lblk.
Qed.

(** A crash before the commit point loses the transaction and nothing else. *)
Lemma before_commit p :
  p `prefix_of` WL ->
  wf_log L N (apply_writes p (c_disk c))
  /\ (forall x, home L N x -> log_apply L (apply_writes p (c_disk c)) x = c_disk c x).
Proof.
  clear Hh0 Hhi h d1. intros Hp. pose proof (lo_start _ _ Hok).
  assert (forall x, (forall i, (i < Z.to_nat (lh_n L))%nat -> x <> lblk L i) ->
            apply_writes p (c_disk c) x = c_disk c x) as Hout.
  { intros x Hx. apply apply_writes_notin. intros Hin.
    apply (log_w_notin L N (c_view c) x Hok Hx). fold WL. destruct Hp as [q ->].
    rewrite fmap_app. set_solver. }
  assert (apply_writes p (c_disk c) (l_start L) = c_disk c (l_start L)) as Hs.
  { apply Hout. intros i _ E. symmetry in E. revert E. apply lblk_not_start. }
  split.
  - apply wf_empty; [apply Hok|rewrite Hs; apply (li_header _ _ _ Hinv)|].
    unfold sb_at. rewrite Hout; [apply (li_sb _ _ _ Hinv)|]. intros i _. unfold lblk. lia.
  - intros x Hx. rewrite log_apply_empty by (rewrite Hs; apply (li_header _ _ _ Hinv)).
    apply Hout. intros i Hi. by apply home_not_lblk.
Qed.

End CommitPoint.

Section CommitRun.
Variables (s : S) (c : cache) (L : log).
Hypothesis Hr : brep s c.
Hypothesis Hinv : log_inv L c (nblk s).
Hypothesis Hunheld : forall b, b ∈ blocks L -> ~ held_block c b.
Hypothesis Hroom : room c.

Let N := nblk s.
Let n := Z.to_nat (lh_n L).
Let Hok : log_ok L N := li_ok _ _ _ Hinv.

Definition commit_w (h1 h2 : list Z) : list (Z * list Z) :=
  log_w L (c_view c) 0 n ++ [(l_start L, h1)]
  ++ ((fun i => (blk L i, c_view c (blk L i))) <$> seq 0 n) ++ [(l_start L, h2)].

Lemma blk_in_blocks i : (i < n)%nat -> blk L i ∈ blocks L.
Proof. intros Hi. eapply list_elem_of_lookup_2, (blk_lookup L N); done. Qed.

Lemma blk_seq : blk L <$> seq 0 n = blocks L.
Proof. exact (blocks_blk L N Hok). Qed.

Lemma commit_steps :
  0 < lh_n L ->
  exists s' h1 h2, runs commit (mk_logst s L) (commit_w h1 h2) tt (mk_logst s' (set_n 0 L))
    /\ nblk s' = N /\ get32 h1 0 = lh_n L
    /\ (forall i, (i < n)%nat -> get32 h1 (hdr_off i) = blk L i) /\ get32 h2 0 = 0
    /\ brep s' (mk_cache (apply_writes (commit_w h1 h2) (c_view c))
                  (apply_writes (commit_w h1 h2) (c_disk c)) (c_held c) ∅).
Proof.
  intros Hpos.
  assert (forall i, (0 <= i < 0 + n)%nat -> ~ held_block c (blk L i)) as Hub
    by (intros i Hi; apply Hunheld, blk_in_blocks; lia).
  destruct (write_log_loop L n 0 s c Hr) as (s1 & H1 & Hr1 & Hn1); auto; try apply Hinv.
  { intros i Hi. rewrite (li_pinned _ _ _ Hinv). apply elem_of_list_to_set, blk_in_blocks. lia. }
  destruct (write_head_ok L s1 _ Hr1) as (s2 & H2 & Hr2 & Hn2); [by rewrite Hn1|apply Hinv|done|].
  cbn [c_view c_disk c_held c_pinned] in H2, Hr2. set (h1 := hdr_of L _) in *.
  destruct (install_loop L n 0 s2 _ Hr2) as (s3 & H3 & Hr3 & Hn3); auto;
    [by rewrite Hn2, Hn1|apply Hinv| |].
  { left. intros i Hi. cbn. rewrite (li_pinned _ _ _ Hinv).
    apply elem_of_list_to_set, blk_in_blocks. lia. }
  assert (Hst : 0 <= l_start L < N) by (apply (in_log_range L N); [done|by eapply start_in_log]).
  assert (Hw : install_w L (zupd (apply_writes (log_w L (c_view c) 0 n) (c_view c)) (l_start L) h1) 0 n
            = (fun i => (blk L i, c_view c (blk L i))) <$> seq 0 n).
  { apply list_fmap_ext. intros ? i Hi. apply list_elem_of_lookup_2, elem_of_seq in Hi. f_equal.
    rewrite zupd_ne by apply lblk_not_start. apply (log_w_at L N); [done|lia]. }
  cbn [c_view c_disk c_held c_pinned] in H3, Hr3. rewrite Hw in H3, Hr3.
  rewrite blk_seq, (li_pinned _ _ _ Hinv), difference_diag_L in Hr3.
  destruct (write_head_ok (set_n 0 L) s3 _ Hr3) as (s4 & H4 & Hr4 & Hn4).
  { rewrite Hn3, Hn2, Hn1. by apply log_ok_0. }
  { intros x Hx. split; [apply (li_free _ _ _ Hinv x Hx)|set_solver]. }
  { unfold room in *. cbn. rewrite size_empty. lia. }
  cbn [c_view c_disk c_held c_pinned] in H4, Hr4. set (h2 := hdr_of (set_n 0 L) _) in *.
  exists s4, h1, h2. split; [|split; [by rewrite Hn4, Hn3, Hn2|]].
  - unfold commit. rstep. cbn [lg]. rewrite (proj2 (Z.gtb_lt (lh_n L) 0)) by lia. cbn [when].
    unfold commit_w. eapply runs_bind; [unfold write_log; rstep; exact H1|].
    eapply runs_bind; [exact H2|]. eapply runs_bind; [unfold install_trans; rstep; exact H3|].
    eapply runs_bind_nil; [apply runs_modify|exact H4].
  - pose proof (bview_length _ _ (l_start L) Hr1 ltac:(by rewrite Hn1)) as Hl1.
    pose proof (bview_length _ _ (l_start L) Hr3 ltac:(by rewrite Hn3, Hn2, Hn1)) as Hl3.
    destruct (hdr_of_ok L N _ Hok Hl1) as (_ & E1 & E2).
    destruct (hdr_of_ok (set_n 0 L) N _ (log_ok_0 _ _ Hok) Hl3) as (_ & E3 & _).
    split; [exact E1|]. split; [exact E2|]. split; [exact E3|].
    unfold commit_w. rewrite !apply_writes_app. exact Hr4.
Qed.

(** A run with writes [w] from disk [d] is atomic: wherever it stops, the disk
    means all of [old] or all of [new], and all of [new] once it is complete. *)
Definition atomic (L : log) (N : Z) (d old new : disk) (w : list (Z * list Z)) : Prop :=
  forall p, p `prefix_of` w ->
    wf_log L N (apply_writes p d)
    /\ (((forall x, home L N x -> log_apply L (apply_writes p d) x = old x) /\ p <> w)
        \/ (forall x, home L N x -> log_apply L (apply_writes p d) x = new x)).

Lemma commit_w_atomic h1 h2 :
  get32 h1 0 = lh_n L -> (forall i, (i < n)%nat -> get32 h1 (hdr_off i) = blk L i) ->
  get32 h2 0 = 0 ->
  atomic L N (c_disk c) (c_disk c) (committed L c) (commit_w h1 h2)
  /\ (forall x, home L N x -> apply_writes (commit_w h1 h2) (c_disk c) x = committed L c x).
Proof.
  intros E1 E2 E3.
  set (d1 := zupd (apply_writes (log_w L (c_view c) 0 n) (c_disk c)) (l_start L) h1).
  pose proof (cp_wf L N c h1 Hinv E1 E2) as Hwf. fold n in Hwf. fold d1 in Hwf.
  pose proof (cp_hdr_w L N c h1 Hinv E1 E2) as Hw. fold n in Hw. fold d1 in Hw.
  pose proof (fun x => cp_apply L N c h1 Hinv E1 E2 x) as Ha. fold n in Ha. fold d1 in Ha.
  unfold commit_w. rewrite <- Hw. split.
  - intros p Hp. apply prefix_app_cases in Hp as [Hp|(q & -> & Hq)].
    { destruct (before_commit L N c Hinv p Hp) as [? ?]. split; [done|]. left. split; [done|].
      apply prefix_length in Hp. intros ->. rewrite length_app in Hp. cbn in Hp. lia. }
    rewrite apply_writes_app. destruct q as [|[k v] q].
    { destruct (before_commit L N c Hinv (log_w L (c_view c) 0 n)) as [? ?]; [done|].
      split; [done|]. left. split; [done|]. intros Eq%app_inv_head. discriminate. }
    apply prefix_cons_inv_1 in Hq as E. injection E as -> ->. apply prefix_cons_inv_2 in Hq.
    rewrite apply_writes_cons. fold d1.
    destruct (recovery_prefix L N d1 h2 (log_ok_0 _ _ Hok) Hwf E3 q Hq) as [Hq1 Hq2].
    split; [done|]. right. intros x Hx. rewrite Hq2 by done. by apply Ha.
  - intros x Hx. rewrite apply_writes_app. cbn [app]. rewrite apply_writes_cons. fold d1.
    rewrite (recovery_full L N d1 h2 (log_ok_0 _ _ Hok)) by done. by apply Ha.
Qed.

Lemma commit_view h1 h2 x :
  home L N x -> apply_writes (commit_w h1 h2) (c_view c) x = c_view c x.
Proof.
  intros Hx. unfold commit_w. rewrite !apply_writes_app, apply_writes_cons.
  cbn [apply_writes foldl].
  pose proof (home_not_start L N c Hinv x Hx) as Hs. rewrite zupd_ne by done.
  destruct (decide (x ∈ blocks L)) as [Hin|Hin].
  - rewrite <- blk_seq in Hin. apply list_elem_of_fmap in Hin as (i & -> & Hi).
    apply apply_writes_in.
    + rewrite <- list_fmap_compose. change (NoDup (blk L <$> seq 0 n)).
      rewrite blk_seq. apply (lo_nodup _ _ Hok).
    + apply list_elem_of_fmap. by exists i.
  - rewrite apply_writes_notin.
    + rewrite zupd_ne by done. apply apply_writes_notin, (log_w_notin L N); [done|].
      intros i Hi. by apply (home_not_lblk L N c Hinv).
    + rewrite <- list_fmap_compose. change (x ∉ (blk L <$> seq 0 n)). by rewrite blk_seq.
Qed.

Lemma commit_disk1 h1 h2 : apply_writes (commit_w h1 h2) (c_disk c) 1 = c_disk c 1.
Proof.
  pose proof (lo_start _ _ Hok) as Hst. apply apply_writes_notin. unfold commit_w.
  rewrite !fmap_app, !fmap_cons, log_w_fst. cbn [fst]. rewrite <- list_fmap_compose.
  change (1 ∉ (lblk L <$> seq 0 n) ++ [l_start L] ++ (blk L <$> seq 0 n) ++ [l_start L]).
  rewrite blk_seq. rewrite !elem_of_app, !list_elem_of_singleton, list_elem_of_fmap.
  pose proof (lo_home _ _ Hok) as Hh. rewrite Forall_forall in Hh.
  intros [(i & E & _)|[E|[E|E]]]; [unfold lblk in E; lia|lia| |lia].
  apply Hh in E as (_ & ? & _). done.
Qed.

Lemma commit_ok :
  exists s' w c', runs commit (mk_logst s L) w tt (mk_logst s' (set_n 0 L))
    /\ brep s' c' /\ nblk s' = N /\ log_inv (set_n 0 L) c' N /\ c_held c' = c_held c
    /\ (forall x, home L N x -> c_view c' x = c_view c x)
    /\ (forall x, home L N x -> c_disk c' x = committed L c x)
    /\ atomic L N (c_disk c) (c_disk c) (committed L c) w.
Proof.
  destruct (decide (0 < lh_n L)) as [Hpos|Hpos].
  - destruct (commit_steps Hpos) as (s' & h1 & h2 & H1 & Hn & E1 & E2 & E3 & Hr').
    destruct (commit_w_atomic h1 h2 E1 E2 E3) as [Hat Hd].
    eexists s', _, _. split; [exact H1|]. split; [exact Hr'|]. split; [done|].
    split; [|split; [done|split; [|done]]].
    + constructor; [by apply log_ok_0| |done| |].
      * intros x Hx. split; [apply (li_free _ _ _ Hinv x Hx)|set_solver].
      * cbn [c_disk set_n l_start]. unfold commit_w. rewrite !apply_writes_app.
        unfold apply_writes at 1. cbn [foldl fst snd]. by rewrite zupd_eq.
      * unfold sb_at. cbn [c_disk set_n l_start l_size]. rewrite commit_disk1. apply (li_sb _ _ _ Hinv).
    + intros x Hx. by apply commit_view.
  - pose proof (lo_n _ _ Hok) as [Hn0 _]. assert (lh_n L = 0) as Hz by lia.
    assert (set_n 0 L = L) as -> by (rewrite <- Hz; by destruct L).
    assert (forall x, committed L c x = c_disk c x) as Hcm.
    { intros x. unfold committed, blocks. rewrite Hz. done. }
    exists s, [], c. split; [|split; [done|split; [done|split; [done|split; [done|split; [done|]]]]]].
    + unfold commit. rstep. cbn [lg]. rewrite Hz. apply runs_ret.
    + split; [intros x _; by rewrite Hcm|]. intros p Hp. apply prefix_nil_inv in Hp as ->.
      destruct (before_commit L N c Hinv []) as [? Hx]; [apply prefix_nil|]. split; [done|]. right.
      intros x Hxh. rewrite Hcm. by apply Hx.
Qed.

End CommitRun.

End Runs.
