(* ===== verification/Tx.v ===== *)
(** * Transactions

    The discipline log.c asks of file-system code ([begin_op], then for each
    block bread / modify / log_write / brelse, then [end_op]) and what it buys:
    a transaction reaches the disk entirely or not at all, whatever crashes
    happen during it and during the recoveries that follow. *)

From stdpp Require Import base numbers list gmap strings.
From S2P Require Import Prelude Bytes Buf Log LogCrash.

Open Scope Z_scope.

Section Tx.
Context {S : Type} `{BCacheSpec S}.

(** The typical use of [log_write]. *)
Definition update (n : Z) (f : list Z -> list Z) : M (logst S) unit :=
  let* bp := zoom lb (bread ROOTDEV n) in
  let* d := zoom lb (bdata bp) in
  zoom lb (set_bdata bp (f d)) ;;
  log_write bp ;;
  zoom lb (brelse bp).

Definition transaction (us : list (Z * (list Z -> list Z))) : M (logst S) unit :=
  begin_op ;;
  for_all us (fun u => update u.1 u.2) ;;
  end_op.

(** ** [log_write] *)

Lemma absorb_spec bs n b :
  (n <= length bs)%nat ->
  (absorb bs n b <= n)%nat
  /\ ((absorb bs n b < n)%nat -> bs !! absorb bs n b = Some b)
  /\ (absorb bs n b = n -> b ∉ take n bs).
Proof.
  revert n. induction bs as [|x bs IH]; intros [|n] Hn; cbn in *; try lia.
  - split; [lia|]. split; [lia|set_solver].
  - split; [lia|]. split; [lia|set_solver].
  - destruct (Z.eqb_spec x b) as [->|Hx].
    + split; [lia|]. split; [done|lia].
    + destruct (IH n ltac:(lia)) as (H1 & H2 & H3). split; [lia|]. split.
      * intros Hi. apply H2. lia.
      * intros Hi. specialize (H3 ltac:(lia)). set_solver.
Qed.

(** The transaction's blocks with one more, unless it is there already. *)
Definition add_block (b : Z) (l : list Z) : list Z := if decide (b ∈ l) then l else l ++ [b].

(** Distinct new blocks are all added. *)
Lemma add_blocks_new bs l :
  NoDup bs -> (forall b, b ∈ bs -> b ∉ l) -> foldl (flip add_block) l bs = l ++ bs.
Proof using Type.
  revert l. induction bs as [|b bs IH]; intros l Hnd Hl; [by rewrite app_nil_r|].
  apply NoDup_cons in Hnd as [Hb Hnd]. cbn [foldl]. unfold add_block at 2. cbn.
  rewrite decide_False by (apply Hl; set_solver). rewrite IH; [by rewrite <- app_assoc|done|].
  intros x Hx. rewrite elem_of_app, list_elem_of_singleton. intros [Hin| ->]; [|done]. apply (Hl x); set_solver.
Qed.

(** Everything of the log but its header. *)
Definition same_log (L L' : log) : Prop :=
  l_lock L' = l_lock L /\ l_start L' = l_start L /\ l_size L' = l_size L
  /\ outstanding L' = outstanding L /\ committing L' = committing L /\ l_dev L' = l_dev L.

Definition logged (L : log) (b : Z) : log :=
  let i := absorb (lh_block L) (Z.to_nat (lh_n L)) b in
  set_blocks (<[i := b]> (lh_block L))
    (set_n (if Z.of_nat i =? lh_n L then lh_n L + 1 else lh_n L) L).

Lemma logged_blocks L N b :
  log_ok L N -> lh_n L < LOGSIZE ->
  blocks (logged L b) = add_block b (blocks L)
  /\ lh_n L <= lh_n (logged L b) <= lh_n L + 1 /\ length (lh_block (logged L b)) = Z.to_nat LOGSIZE.
Proof.
  intros Hok Hlt. pose proof (lo_n _ _ Hok) as [Hn _]. pose proof (lo_len _ _ Hok) as Hl.
  destruct (absorb_spec (lh_block L) (Z.to_nat (lh_n L)) b) as (H1 & H2 & H3); [lia|].
  unfold logged, blocks, add_block. cbn. set (i := absorb _ _ _) in *.
  destruct (Z.eqb_spec (Z.of_nat i) (lh_n L)) as [E|E].
  - rewrite decide_False by (apply H3; lia). rewrite length_insert.
    split; [|split; [lia|done]].
    replace (Z.to_nat (lh_n L + 1)) with (Datatypes.S i) by lia.
    replace (Z.to_nat (lh_n L)) with i by lia.
    rewrite (take_S_r _ _ b) by (apply list_lookup_insert_eq; lia).
    by rewrite take_insert_ge by lia.
  - rewrite decide_True.
    + rewrite list_insert_id by (apply H2; lia). split; [done|]. split; [lia|done].
    + apply list_elem_of_lookup. exists i. rewrite lookup_take_lt by lia. apply H2. lia.
Qed.

Lemma log_ok_logged L N b :
  log_ok L N -> lh_n L < LOGSIZE -> lh_n L < l_size L - 1 -> home L N b -> log_ok (logged L b) N.
Proof.
  intros Hok H1 H2 Hb. destruct (logged_blocks L N b Hok H1) as (E & Hn & Hl).
  pose proof (lo_n _ _ Hok). pose proof (lo_nodup _ _ Hok) as Hnd. pose proof (lo_home _ _ Hok) as Hh.
  constructor; try apply Hok; auto; rewrite ?E; unfold add_block; try (case_decide; try done).
  - cbn [logged l_size set_blocks set_n] in *. lia.
  - apply NoDup_app. split; [done|]. split; [|apply NoDup_singleton]. set_solver.
  - apply Forall_app. split; [done|]. by constructor.
Qed.

Lemma log_write_run s c L j b :
  brep s c -> 0 <= lh_n L -> length (lh_block L) = Z.to_nat LOGSIZE -> c_held c !! j = Some b -> l_lock L = false ->
  1 <= outstanding L -> lh_n L < LOGSIZE -> lh_n L < l_size L - 1 ->
  exists s', runs (log_write j) (mk_logst s L) [] tt (mk_logst s' (logged L b))
    /\ brep s' (mk_cache (c_view c) (c_disk c) (c_held c) ({[b]} ∪ c_pinned c)) /\ nblk s' = nblk s.
Proof.
  intros Hr Hn Hl Hj Hlk Ho H1 H2. pose proof (bblockno_ok s c j b Hr Hj) as H3.
  destruct (pin_ok s c j b Hr Hj) as (s' & H4 & Hr' & Hn').
  destruct (absorb_spec (lh_block L) (Z.to_nat (lh_n L)) b) as (Hi & _); [lia|].
  exists s'. split; [|done]. unfold log_write. rstep. cbn [lg].
  assert ((lh_n L >=? LOGSIZE) || (lh_n L >=? l_size L - 1) = false) as -> by (by zcase).
  assert ((outstanding L <? 1) = false) as -> by (by zcase).
  eapply runs_bind_nil; [by apply runs_acquire|cbn beta]. rstep_by H3.
  eapply runs_bind_nil; [apply runs_set_lh; cbn; lia|cbn beta].
  eapply runs_bind_nil; [instantiate (1 := mk_logst s (set_llock true (logged L b)))|cbn beta].
  { unfold logged. set (i := absorb _ _ _). destruct (Z.of_nat i =? lh_n L); cbn [when];
      exists []; (split; [|done]); by destruct L. }
  rstep_by H4. exists []. split; [|done]. unfold release. cbn. unfold logged. cbn.
  rewrite <- Hlk. by destruct L.
Qed.

(** ** The body of a transaction *)

Lemma log_inv_room L c N : log_inv L c N -> c_held c = ∅ -> lh_n L < Z.of_nat NBUF -> room c.
Proof.
  intros Hinv Hh Hn. unfold room. rewrite Hh, map_size_empty, (li_pinned _ _ _ Hinv).
  rewrite size_list_to_set by apply Hinv.
  rewrite (blocks_length L N) by apply Hinv. unfold NBUF in *. lia.
Qed.

Lemma empty_unheld c x : c_held c = ∅ -> ~ held_block c x.
Proof. intros Hh [i Hi]. rewrite Hh, lookup_empty in Hi. done. Qed.

Lemma update_run s c L n f :
  brep s c -> log_inv L c (nblk s) -> c_held c = ∅ -> home L (nblk s) n ->
  length (f (c_view c n)) = BSIZE -> l_lock L = false -> 1 <= outstanding L ->
  lh_n L < Z.of_nat NBUF -> lh_n L < LOGSIZE -> lh_n L < l_size L - 1 ->
  let c' := mk_cache (zupd (c_view c) n (f (c_view c n))) (c_disk c) ∅ ({[n]} ∪ c_pinned c) in
  exists s', runs (update n f) (mk_logst s L) [] tt (mk_logst s' (logged L n))
    /\ brep s' c' /\ nblk s' = nblk s /\ log_inv (logged L n) c' (nblk s).
Proof.
  intros Hr Hinv Hh Hn Hf Hlk Ho H1 H2 H3 c'. pose proof (li_ok _ _ _ Hinv) as Hok.
  pose proof (log_inv_room _ _ _ Hinv Hh H1) as Hroom.
  destruct (bread_ok s c n) as (j & s1 & E1 & Hj & Hr1 & Hn1);
    [done|apply Hn|by apply empty_unheld|by right|].
  pose proof (bdata_ok _ _ j n Hr1 ltac:(apply lookup_insert_eq)) as E2.
  destruct (set_bdata_ok _ _ j n (f (c_view c n)) Hr1) as (s2 & E3 & Hr2 & Hn2);
    [apply lookup_insert_eq|done|].
  destruct (log_write_run s2 _ L j n Hr2) as (s3 & E4 & Hr3 & Hn3); auto.
  { apply (lo_n _ _ Hok). } { apply (lo_len _ _ Hok). } { apply lookup_insert_eq. }
  destruct (brelse_ok _ _ j n Hr3) as (s4 & E5 & Hr4 & Hn4); [apply lookup_insert_eq|left; cbn; set_solver|].
  cbn [c_view c_disk c_held c_pinned] in Hr4. rewrite delete_insert_id, Hh in Hr4 by done.
  exists s4. split; [|split; [exact Hr4|split; [congruence|]]].
  - unfold update. rstep_by E1. rstep_by E2. rstep_by E3.
    eapply runs_bind_nil; [exact E4|cbn beta].
    apply (runs_zoom lb (brelse j) (mk_logst s3 _)). eexists. split; [exact E5|reflexivity].
  - constructor; cbn [c' c_view c_disk c_held c_pinned].
    + by apply log_ok_logged.
    + intros x Hx. split; [by apply empty_unheld|]. cbn. rewrite not_elem_of_union.
      split; [|apply (li_free _ _ _ Hinv x Hx)]. rewrite elem_of_singleton. intros ->.
      by destruct Hn as (_ & _ & ?).
    + rewrite (proj1 (logged_blocks L _ n Hok H2)), (li_pinned _ _ _ Hinv). unfold add_block.
      case_decide; [|rewrite list_to_set_app_L; cbn; set_solver]. set_solver.
    + apply (li_header _ _ _ Hinv).
    + apply (li_sb _ _ _ Hinv).
Qed.

Definition tx_view (us : list (Z * (list Z -> list Z))) (v : Z -> list Z) : Z -> list Z :=
  foldl (fun v u => zupd v u.1 (u.2 (v u.1))) v us.

(** A block update the file system may make: to a block outside the log, and
    keeping its size. *)
Definition good_update (L : log) (N : Z) (u : Z * (list Z -> list Z)) : Prop :=
  home L N u.1 /\ forall d, length d = BSIZE -> length (u.2 d) = BSIZE.

Lemma updates_run us s c L :
  brep s c -> log_inv L c (nblk s) -> c_held c = ∅ -> Forall (good_update L (nblk s)) us ->
  l_lock L = false -> 1 <= outstanding L ->
  lh_n L + Z.of_nat (length us) <= Z.of_nat NBUF -> lh_n L + Z.of_nat (length us) <= l_size L - 1 ->
  exists s' L' pinned',
    let c' := mk_cache (tx_view us (c_view c)) (c_disk c) ∅ pinned' in
    runs (for_all us (fun u => update u.1 u.2)) (mk_logst s L) [] tt (mk_logst s' L')
    /\ brep s' c' /\ nblk s' = nblk s /\ log_inv L' c' (nblk s) /\ same_log L L'
    /\ lh_n L' <= lh_n L + Z.of_nat (length us) /\ blocks L' = foldl (flip add_block) (blocks L) us.*1.
Proof.
  revert s c L. induction us as [|[n f] us IH]; intros s c L Hr Hinv Hh Hg Hlk Ho H1 H2.
  { exists s, L, (c_pinned c). cbn. assert (c = mk_cache (c_view c) (c_disk c) ∅ (c_pinned c)) as Hc
      by (rewrite <- Hh; by destruct c).
    rewrite <- Hc. split; [apply runs_ret|]. repeat (split; [done|]). split; [lia|done]. }
  inversion Hg as [|? ? [Hn Hf] Hg']; subst. clear Hg. rename Hg' into Hg. cbn [length fst snd] in *.
  assert (0 <= n < nblk s) as Hnr by apply Hn.
  destruct (update_run s c L n f) as (s1 & E1 & Hr1 & Hn1 & Hinv1); auto.
  { apply Hf. by eapply bview_length. } { lia. } { unfold LOGSIZE, MAXOPBLOCKS, NBUF in *. lia. } { lia. }
  destruct (logged_blocks L (nblk s) n) as (Hadd & Hcnt & _);
    [apply Hinv|unfold LOGSIZE, MAXOPBLOCKS, NBUF in *; lia|].
  rewrite <- Hn1 in Hinv1, Hg.
  destruct (IH s1 _ (logged L n) Hr1 Hinv1) as (s2 & L2 & p2 & E2 & Hr2 & Hn2 & Hinv2 & Hsame & Hle & Hbl); auto.
  { lia. } { cbn [logged l_size set_blocks set_n]. lia. }
  exists s2, L2, p2. split; [|split; [exact Hr2|split; [congruence|split]]].
  - exact (runs_for_all_cons (fun u => update u.1 u.2) (n, f) us _ [] _ [] _ E1 E2).
  - by rewrite <- Hn1.
  - split; [exact Hsame|]. split; [lia|]. by rewrite Hbl, Hadd.
Qed.

(** ** Whole transactions *)

(** Nothing of the log but the lock, the counters and the flag differ. *)
Lemma log_inv_same L L' c N :
  l_start L' = l_start L -> l_size L' = l_size L -> l_dev L' = l_dev L -> lh_n L' = lh_n L ->
  lh_block L' = lh_block L -> log_inv L c N -> log_inv L' c N.
Proof.
  destruct L, L'. cbn. intros -> -> -> -> -> [[] ? ? ? ?]. constructor; auto. constructor; auto.
Qed.

(** No transaction is running and no buffer is in use. *)
Record quiet (L : log) (c : cache) (N : Z) : Prop := {
  q_inv : log_inv L c N;
  q_n : lh_n L = 0;
  q_outstanding : outstanding L = 0;
  q_committing : committing L = false;
  q_lock : l_lock L = false;
  q_held : c_held c = ∅
}.

Lemma begin_op_run (s : S) L :
  l_lock L = false -> committing L = false ->
  lh_n L + (outstanding L + 1) * MAXOPBLOCKS <= LOGSIZE ->
  runs begin_op (mk_logst s L) [] tt (mk_logst s (set_outstanding (outstanding L + 1) L)).
Proof.
  intros Hlk Hc Hsp. unfold begin_op.
  eapply runs_bind_nil; [by apply runs_acquire|cbn beta]. rstep. cbn [lg lset loglock].
  cbn [committing set_llock]. rewrite Hc. cbn [lh_n outstanding set_llock].
  assert ((lh_n L + (outstanding L + 1) * MAXOPBLOCKS >? LOGSIZE) = false) as -> by (by zcase).
  rstep. exists []. split; [|done]. unfold release. cbn. rewrite <- Hlk. by destruct L.
Qed.

Lemma wf_log_same L L' N d :
  l_start L' = l_start L -> l_size L' = l_size L -> wf_log L N d -> wf_log L' N d.
Proof. destruct L, L'. cbn. intros -> -> []. by constructor. Qed.

Lemma atomic_same L L' N d old new w :
  l_start L' = l_start L -> l_size L' = l_size L ->
  atomic L N d old new w -> atomic L' N d old new w.
Proof.
  intros E1 E2 Ha p Hp. destruct (Ha p Hp) as [Hw Hx]. split; [by apply (wf_log_same L)|].
  unfold home, in_log, log_apply, hdr_w, lblk in *. by rewrite E1, E2.
Qed.

(** The critical sections of [end_op]. *)
Lemma end_op_begin_run (s : S) L :
  l_lock L = false -> committing L = false ->
  runs end_op_begin (mk_logst s L) [] (outstanding L =? 1)
    (mk_logst s (set_committing (outstanding L =? 1) (set_outstanding (outstanding L - 1) L))).
Proof.
  intros Hlk Hc. unfold end_op_begin. eapply runs_bind_nil; [by apply runs_acquire|cbn beta].
  rstep. rstep. rstep. cbn [lg lset loglock lbio committing outstanding set_outstanding set_llock]. rewrite Hc.
  replace (outstanding L - 1 =? 0) with (outstanding L =? 1) by (by zcase). cbn zeta.
  destruct (outstanding L =? 1); rstep; (eapply runs_bind_nil; [by apply runs_release|cbn beta]);
    cbn [lg lset loglock lbio]; exists []; (split; [|done]); unfold ret; do 3 f_equal;
    destruct L; cbn in *; by subst.
Qed.

Lemma end_op_finish_run (s : S) L :
  l_lock L = false -> runs end_op_finish (mk_logst s L) [] tt (mk_logst s (set_committing false L)).
Proof.
  intros Hlk. unfold end_op_finish. eapply runs_bind_nil; [by apply runs_acquire|cbn beta].
  rstep. rstep. exists []. split; [|done]. unfold release. cbn. do 3 f_equal. destruct L; cbn in *; by subst.
Qed.

Lemma end_op_run s c L :
  brep s c -> log_inv L c (nblk s) -> c_held c = ∅ -> lh_n L < Z.of_nat NBUF ->
  l_lock L = false -> committing L = false -> outstanding L = 1 ->
  exists s' w c', runs end_op (mk_logst s L) w tt (mk_logst s' (set_n 0 (set_outstanding 0 L)))
    /\ brep s' c' /\ nblk s' = nblk s /\ quiet (set_n 0 (set_outstanding 0 L)) c' (nblk s)
    /\ (forall x, home L (nblk s) x -> c_view c' x = c_view c x)
    /\ (forall x, home L (nblk s) x -> c_disk c' x = committed L c x)
    /\ atomic L (nblk s) (c_disk c) (c_disk c) (committed L c) w.
Proof.
  intros Hr Hinv Hh Hn Hlk Hcm Ho.
  set (L1 := set_committing true (set_outstanding 0 L)).
  destruct (commit_ok s c L1) as (s' & w & c' & E1 & Hr' & Hn' & Hinv' & Hh' & Hv & Hd & Hat).
  { done. } { by apply (log_inv_same L). } { intros; by apply empty_unheld. }
  { by apply (log_inv_room L c (nblk s)). }
  exists s', w, c'.
  split; [|split; [done|split; [done|split; [|split; [exact Hv|split; [exact Hd|by apply (atomic_same L1)]]]]]].
  - unfold end_op. eapply runs_bind_nil; [by apply end_op_begin_run|cbn beta].
    rewrite Ho. cbn [Z.eqb when]. rewrite <- (app_nil_r w). eapply runs_bind; [exact E1|].
    replace (set_n 0 (set_outstanding 0 L)) with (set_committing false (set_n 0 L1)); [by apply end_op_finish_run|].
    unfold L1, set_committing, set_n, set_outstanding. cbn. by rewrite Hcm.
  - constructor; try done; [by apply (log_inv_same (set_n 0 L1))|by rewrite Hh'].
Qed.

Lemma atomic_ext L N d old new new' w :
  (forall x, home L N x -> new x = new' x) -> atomic L N d old new w -> atomic L N d old new' w.
Proof.
  intros E Ha p Hp. destruct (Ha p Hp) as [Hw [Ho|Hn]]; (split; [done|]); [by left|right].
  intros x Hx. rewrite Hn by done. by apply E.
Qed.

Lemma transaction_run s c L us :
  brep s c -> quiet L c (nblk s) -> Forall (good_update L (nblk s)) us ->
  Z.of_nat (length us) <= l_size L - 1 -> (length us < NBUF)%nat ->
  exists s' w L' c', runs (transaction us) (mk_logst s L) w tt (mk_logst s' L')
    /\ brep s' c' /\ nblk s' = nblk s /\ quiet L' c' (nblk s)
    /\ (forall x, home L (nblk s) x -> c_view c' x = tx_view us (c_view c) x)
    /\ (forall x, home L (nblk s) x -> c_disk c' x = tx_view us (c_view c) x)
    /\ atomic L (nblk s) (c_disk c) (c_disk c) (tx_view us (c_view c)) w.
Proof.
  intros Hr [Hinv Hn Ho Hcm Hlk Hh] Hus Hlen1 Hlen2.
  set (L1 := set_outstanding 1 L).
  destruct (updates_run us s c L1) as (s1 & L2 & p2 & E2 & Hr2 & Hn2 & Hinv2 & Hsame & Hle & _); auto.
  { by apply (log_inv_same L). } { done. } { cbn. rewrite Hn. lia. } { cbn. rewrite Hn. lia. }
  destruct Hsame as (S1 & S2 & S3 & S4 & S5 & S6). cbn in S1, S2, S3, S4, S5, S6, Hle.
  rewrite <- Hn2 in Hinv2.
  destruct (end_op_run s1 _ L2 Hr2 Hinv2) as (s3 & w & c3 & E3 & Hr3 & Hn3 & Hq & Hv & Hd & Hat);
    [done|rewrite Hn in Hle; lia|congruence|congruence|done|].
  assert (Hhome : forall x, home L2 (nblk s1) x <-> home L (nblk s) x).
  { intros x. unfold home, in_log. by rewrite S2, S3, Hn2. }
  assert (Hcom : forall x, home L2 (nblk s1) x ->
     committed L2 (mk_cache (tx_view us (c_view c)) (c_disk c) ∅ p2) x = tx_view us (c_view c) x).
  { intros x Hx. unfold committed. case_decide as Hin; [done|]. symmetry.
    apply (bclean _ _ x Hr2); [apply Hx| |by apply empty_unheld].
    rewrite (li_pinned _ _ _ Hinv2). by rewrite elem_of_list_to_set. }
  rewrite Hn2 in *. do 4 eexists.
  split; [|split; [exact Hr3|split; [congruence|split; [exact Hq|split; [|split]]]]].
  - unfold transaction. eapply runs_bind_nil; [apply begin_op_run; auto|cbn beta].
    + rewrite Hn, Ho. by unfold LOGSIZE, MAXOPBLOCKS.
    + rewrite Ho. eapply runs_bind_nil; [exact E2|exact E3].
  - intros x Hx. apply Hv. by apply Hhome.
  - intros x Hx. apply Hhome in Hx. rewrite Hd by done. by apply Hcom.
  - apply (atomic_same L2); auto. by apply (atomic_ext _ _ _ _ _ _ _ Hcom).
Qed.

End Tx.
