(* ===== verification/Recovery.v ===== *)
(** * Crash safety of the file-system log

    The theorems about log.c over a buffer cache, with their instances for
    bio.c over memide.c. *)

From stdpp Require Import base numbers list gmap strings.
From S2P Require Import Prelude Bytes Mem Buf Memide Cells Bio Bcache Log LogCrash Tx.

Open Scope Z_scope.

(** ** Crashes and reboots *)

(** [struct log] at boot: zeroed memory. *)
Definition boot_log : log := mk_log false 0 0 0 false 0 0 (replicate (Z.to_nat LOGSIZE) 0).

(** The disk after recovery of [d] was started and the machine crashed again. *)
Definition interrupted {S} `{BCacheSpec S} (N : Z) (d d' : disk) : Prop :=
  exists (s : S) ev r p,
    brep s (fresh_cache d) /\ nblk s = N
    /\ initlog ROOTDEV (mk_logst s boot_log) = (ev, r)
    /\ p `prefix_of` ev /\ d' = apply_writes (writes p) d.

Section Reboot.
Context {S : Type} `{BCacheSpec S}.
Variables (L : log) (N : Z).
Hypothesis Hok : log_ok L N.

Definition at_boot : log := set_where (l_start L) (l_size L) ROOTDEV boot_log.

Lemma at_boot_ok : log_ok (set_n 0 at_boot) N.
Proof.
  constructor; cbn; try apply Hok; try done; [|constructor..].
  pose proof (lo_size _ _ Hok). unfold LOGSIZE, MAXOPBLOCKS. lia.
Qed.

Lemma reboot_run (s : S) d :
  brep s (fresh_cache d) -> nblk s = N -> wf_log L N d ->
  exists ev s' L' h, initlog ROOTDEV (mk_logst s boot_log) = (ev, Ret tt (mk_logst s' L'))
    /\ writes ev = hdr_w L d ++ [(l_start L, h)] /\ get32 h 0 = 0
    /\ nblk s' = N /\ brep s' (fresh_cache (apply_writes (writes ev) d))
    /\ quiet L' (fresh_cache (apply_writes (writes ev) d)) N
    /\ l_start L' = l_start L /\ l_size L' = l_size L.
Proof.
  intros Hr HN Hwf. pose proof at_boot_ok as Hb. rewrite <- HN in Hb, Hwf |- *.
  assert (wf_log at_boot (nblk s) d) as Hwb by (by apply (wf_log_same L)).
  destruct (initlog_run s boot_log at_boot d Hr eq_refl Hb Hwb)
    as (s' & L' & h & (ev & E & Hw) & Hh & Hn & Hr' & Hok' & Hn0 & Hs & Hz & Ho & Hc & Hlk).
  exists ev, s', L', h. rewrite Hw. split; [done|]. split; [done|]. split; [done|]. split; [done|].
  split; [exact Hr'|]. split; [|done].
  destruct (recovery_prefix at_boot (nblk s) d h Hb Hwb Hh (writes ev)) as [Hwf' _];
    [by rewrite Hw|]. rewrite Hw in Hwf'.
  constructor; try done. constructor; auto.
  - apply fresh_free.
  - unfold blocks. by rewrite Hn0.
  - rewrite Hs. cbn [fresh_cache c_disk]. rewrite apply_writes_app, apply_writes_cons.
    cbn [apply_writes foldl]. by rewrite zupd_eq.
  - unfold sb_at. rewrite Hs, Hz. exact (wl_sb _ _ _ Hwf').
Qed.

(** A second crash during recovery changes nothing. *)
Lemma interrupted_ok d d' :
  interrupted (S := S) N d d' -> wf_log L N d ->
  wf_log L N d' /\ (forall x, home L N x -> log_apply L d' x = log_apply L d x).
Proof.
  intros (s & ev & r & p & Hr & Hn & E & Hp & ->) Hwf.
  destruct (reboot_run s d Hr Hn Hwf) as (ev' & s' & L' & h & E' & Hw & Hh & _).
  rewrite E in E'. injection E' as <- _.
  apply (recovery_prefix L N d h (log_ok_0 _ _ Hok) Hwf Hh). rewrite <- Hw. by apply writes_prefix.
Qed.

(** Any number of interrupted recoveries and one that completes. *)
Lemma eventually_recovers d d' v :
  rtc (interrupted (S := S) N) d d' -> wf_log L N d ->
  (forall x, home L N x -> log_apply L d x = v x) ->
  forall s : S, brep s (fresh_cache d') -> nblk s = N ->
  exists ev s' L' c', initlog ROOTDEV (mk_logst s boot_log) = (ev, Ret tt (mk_logst s' L'))
    /\ brep s' c' /\ quiet L' c' N /\ (forall x, home L N x -> c_view c' x = v x).
Proof.
  intros Hrtc. induction Hrtc as [d|d d1 d2 H1 _ IH]; intros Hwf Hv s Hr Hn.
  - destruct (reboot_run s d Hr Hn Hwf) as (ev & s' & L' & h & E & Hw & Hh & Hn' & Hr' & Hq & _).
    exists ev, s', L', (fresh_cache (apply_writes (writes ev) d)).
    split; [done|]. split; [done|]. split; [done|].
    intros x Hx. cbn. rewrite Hw, (recovery_full L N d h (log_ok_0 _ _ Hok)) by done. by apply Hv.
  - destruct (interrupted_ok _ _ H1 Hwf) as [Hwf1 Hv1]. apply IH; auto.
    intros x Hx. rewrite Hv1 by done. by apply Hv.
Qed.

End Reboot.

(** C1: a file-system transaction is atomic and durable under crashes.  Start
    from a quiet file system and run [begin_op], block updates through
    [log_write], [end_op].  Let the machine crash after any prefix of what this
    did to the disk, reboot, crash any number of times during the recovery that
    [initlog] makes, and reboot once more: [initlog] then returns, and the file
    system shows every block as before the transaction or every block as after
    it; after it if [end_op] had returned. *)
Theorem transaction_atomic {S} `{BCacheSpec S} (s : S) c L us :
  brep s c -> quiet L c (nblk s) -> Forall (good_update L (nblk s)) us ->
  Z.of_nat (length us) <= l_size L - 1 -> (length us < NBUF)%nat ->
  exists ev s' L', transaction us (mk_logst s L) = (ev, Ret tt (mk_logst s' L'))
    /\ forall p d s0, p `prefix_of` ev ->
       rtc (interrupted (S := S) (nblk s)) (apply_writes (writes p) (c_disk c)) d ->
       brep s0 (fresh_cache d) -> nblk s0 = nblk s ->
       exists ev0 s1 L1 c1,
         initlog ROOTDEV (mk_logst s0 boot_log) = (ev0, Ret tt (mk_logst s1 L1))
         /\ brep s1 c1 /\ quiet L1 c1 (nblk s)
         /\ (((forall x, home L (nblk s) x -> c_view c1 x = c_disk c x) /\ p <> ev)
             \/ forall x, home L (nblk s) x -> c_view c1 x = tx_view us (c_view c) x).
Proof.
  intros Hr Hq Hus Hl1 Hl2. pose proof (li_ok _ _ _ (q_inv _ _ _ Hq)) as Hok.
  destruct (transaction_run s c L us Hr Hq Hus Hl1 Hl2)
    as (s' & w & L' & c' & (ev & E & Hw) & Hr' & Hn' & Hq' & _ & Hd & Hat).
  exists ev, s', L'. split; [done|]. intros p d s0 Hp Hrtc Hr0 Hn0.
  destruct (Hat (writes p)) as [Hwf [[Hv Hne]|Hv]]; [rewrite <- Hw; by apply writes_prefix| |].
  - destruct (eventually_recovers L (nblk s) Hok _ _ _ Hrtc Hwf Hv s0 Hr0 Hn0)
      as (ev0 & s1 & L1 & c1 & E1 & Hr1 & Hq1 & Hv1).
    exists ev0, s1, L1, c1. repeat (split; [done|]). left. split; [done|].
    intros ->. by rewrite Hw in Hne.
  - destruct (eventually_recovers L (nblk s) Hok _ _ _ Hrtc Hwf Hv s0 Hr0 Hn0)
      as (ev0 & s1 & L1 & c1 & E1 & Hr1 & Hq1 & Hv1).
    exists ev0, s1, L1, c1. repeat (split; [done|]). by right.
Qed.

(** A small disk: 100 blocks, the log of [LOGSIZE] blocks from block 2, the
    superblock saying so, and everything else zero. *)
Definition small_image : mem := fun x =>
  if x =? Z.of_nat BSIZE + 12 then LOGSIZE else if x =? Z.of_nat BSIZE + 16 then 2 else 0.
Definition small_disk : memide := mk_memide small_image 100.
Definition small_log : log := set_where 2 LOGSIZE ROOTDEV boot_log.

Lemma small_ready : drv_ready small_disk.
Proof. vm_compute. reflexivity. Qed.

Lemma small_quiet : quiet small_log (fresh_cache (drv_sector small_disk)) 100.
Proof.
  constructor; try reflexivity. constructor.
  - constructor; cbn; try lia; try done; constructor.
  - apply fresh_free.
  - reflexivity.
  - vm_compute. reflexivity.
  - vm_compute. split; reflexivity.
Qed.

Definition fill7 (d : list Z) : list Z := replicate (length d) 7.

Lemma small_update n : 50 <= n < 100 -> good_update small_log 100 (n, fill7).
Proof.
  intros Hn. split; [|intros d Hd; cbn; unfold fill7; by rewrite length_replicate].
  unfold home, in_log. cbn [fst small_log set_where l_start l_size].
  unfold LOGSIZE, MAXOPBLOCKS. lia.
Qed.

Lemma transaction_atomic_witness :
  exists (s : bio memide) ev s' L',
    transaction [(50, fill7); (51, fill7)] (mk_logst s small_log) = (ev, Ret tt (mk_logst s' L')).
Proof.
  destruct (binit_boot small_disk small_ready) as (s & _ & Hd & _ & Hr & _).
  assert (nblk s = 100) as HN by (cbn; rewrite Hd; reflexivity).
  destruct (transaction_atomic s (fresh_cache (drv_sector small_disk)) small_log
              [(50, fill7); (51, fill7)]) as (ev & s' & L' & E & _).
  - exact Hr.
  - rewrite HN. exact small_quiet.
  - rewrite HN. repeat constructor; apply small_update; lia.
  - cbn. unfold LOGSIZE, MAXOPBLOCKS. lia.
  - cbn. unfold NBUF. lia.
  - exists s, ev, s', L'. exact E.
Defined.

(** [recover_from_log] through [initlog] installs exactly the committed
    blocks: on a disk with a well-formed log, [initlog] returns, every block
    outside the log has the contents the log gives it (the logged copy if the
    header names it, its own otherwise), the header is cleared, and what is on
    the disk is what the cache shows. *)
Theorem initlog_recovers {S} `{BCacheSpec S} (s : S) L d :
  brep s (fresh_cache d) -> log_ok L (nblk s) -> wf_log L (nblk s) d ->
  exists ev s' L' d', initlog ROOTDEV (mk_logst s boot_log) = (ev, Ret tt (mk_logst s' L'))
    /\ brep s' (fresh_cache d') /\ quiet L' (fresh_cache d') (nblk s)
    /\ (forall i, (i < Z.to_nat (hdr_n (d (l_start L))))%nat ->
          d' (get32 (d (l_start L)) (hdr_off i)) = d (lblk L i))
    /\ (forall x, home L (nblk s) x -> x ∉ hdr_blocks (d (l_start L)) -> d' x = d x)
    /\ hdr_n (d' (l_start L)) = 0.
Proof.
  intros Hr Hok Hwf.
  destruct (reboot_run L (nblk s) Hok s d Hr eq_refl Hwf)
    as (ev & s' & L' & h & E & Hw & Hh & _ & Hr' & Hq & Hst & _).
  exists ev, s', L', (apply_writes (writes ev) d). repeat (split; [done|]).
  pose proof (hdr_w_nodup L (nblk s) d Hwf) as Hnd.
  pose proof (recovery_full L (nblk s) d h (log_ok_0 _ _ Hok)) as Hfull. rewrite <- Hw in Hfull.
  split; [|split].
  - intros i Hi.
    assert ((get32 (d (l_start L)) (hdr_off i), d (lblk L i)) ∈ hdr_w L d) as Hin.
    { unfold hdr_w. apply list_elem_of_fmap. exists i. split; [done|]. apply elem_of_seq. lia. }
    rewrite Hfull; [by apply apply_writes_in|]. eapply hdr_w_home; [done|].
    apply list_elem_of_fmap. eexists. split; [|exact Hin]. done.
  - intros x Hx Hnin. rewrite Hfull by done. apply apply_writes_notin. by rewrite hdr_w_fst.
  - pose proof (li_header _ _ _ (q_inv _ _ _ Hq)) as H0'. cbn in H0'. rewrite Hst in H0'.
    unfold hdr_n. by rewrite H0'.
Qed.

Lemma small_wf : wf_log small_log 100 (drv_sector small_disk).
Proof.
  apply wf_empty; [cbn; unfold LOGSIZE, MAXOPBLOCKS; lia|vm_compute; reflexivity|].
  vm_compute. split; reflexivity.
Qed.

Lemma initlog_recovers_witness :
  exists (s : bio memide) ev s' L', initlog ROOTDEV (mk_logst s boot_log) = (ev, Ret tt (mk_logst s' L')).
Proof.
  destruct (binit_boot small_disk small_ready) as (s & _ & Hd & _ & Hr & _).
  assert (nblk s = 100) as HN by (cbn; rewrite Hd; reflexivity).
  destruct (initlog_recovers s small_log (drv_sector small_disk)) as (ev & s' & L' & _ & E & _).
  - exact Hr.
  - rewrite HN. apply (li_ok _ _ _ (q_inv _ _ _ small_quiet)).
  - rewrite HN. exact small_wf.
  - exists s, ev, s', L'. exact E.
Defined.

(** ** Log space *)

(** Three calls of [begin_op]; together the operations then log the given blocks,
    one [log_write] each. *)
Definition three_ops {S} `{BCache S} (us : list (Z * (list Z -> list Z))) : M (logst S) unit :=
  begin_op ;; begin_op ;; begin_op ;;
  for_all us (fun u => update u.1 u.2).

(** With a full log the update of one more block panics. *)
Lemma update_full {S} `{BCacheSpec S} (s : S) c L n f :
  brep s c -> log_inv L c (nblk s) -> c_held c = ∅ -> home L (nblk s) n ->
  length (f (c_view c n)) = BSIZE -> lh_n L < Z.of_nat NBUF -> l_size L - 1 <= lh_n L ->
  panics (update n f) (mk_logst s L) "too big a transaction".
Proof.
  intros Hr Hinv Hh Hn Hf H1 H2.
  destruct (bread_ok s c n) as (j & s1 & E1 & Hj & Hr1 & Hn1);
    [done|apply Hn|by apply empty_unheld|right; by eapply log_inv_room|].
  pose proof (bdata_ok _ _ j n Hr1 ltac:(apply lookup_insert_eq)) as E2.
  destruct (set_bdata_ok _ _ j n (f (c_view c n)) Hr1) as (s2 & E3 & _);
    [apply lookup_insert_eq|done|].
  unfold update. eapply panics_bind_nil; [apply runs_zoom, runs_silent; exact E1|cbn beta].
  eapply panics_bind_nil; [apply runs_zoom, runs_silent; exact E2|cbn beta].
  eapply panics_bind_nil; [apply runs_zoom, runs_silent; exact E3|cbn beta].
  exists []. split; [|done]. apply bind_panic_eq. unfold log_write, the_log, gets, bind. cbn.
  assert ((lh_n L >=? LOGSIZE) || (lh_n L >=? l_size L - 1) = true) as ->; [|done].
  apply orb_true_iff. right. by zcase.
Qed.

(** C3: with a log of at most [LOGSIZE] blocks, header included, such as the one that
    mkfs makes, [begin_op]'s reservation is too generous.  From any quiet state it
    admits three operations; let them log [3 * MAXOPBLOCKS] distinct blocks, as many as
    they may.  Whatever the blocks and their contents, a [log_write] panics, and the
    disk has not been written. *)
Theorem log_reservation_panics {S} `{BCacheSpec S} (s : S) c L us :
  brep s c -> quiet L c (nblk s) -> l_size L <= LOGSIZE -> Forall (good_update L (nblk s)) us ->
  NoDup us.*1 -> Z.of_nat (length us) = 3 * MAXOPBLOCKS ->
  panics (three_ops us) (mk_logst s L) "too big a transaction".
Proof.
  intros Hr [Hinv Hn Ho Hcm Hlk Hh] Hsz Hg Hnd Hlen. pose proof (lo_size _ _ (li_ok _ _ _ Hinv)) as Hs1.
  unfold LOGSIZE, MAXOPBLOCKS in Hsz, Hlen. unfold three_ops.
  do 3 (eapply panics_bind_nil; [apply begin_op_run; auto; cbn; by rewrite Hn, Ho|cbn beta]).
  cbn [outstanding set_outstanding]. rewrite Ho. set (L3 := set_outstanding _ _).
  set (k := Z.to_nat (l_size L - 1)).
  assert (exists us1 n f rest, us = us1 ++ (n, f) :: rest /\ length us1 = k) as (us1 & n & f & rest & -> & Hk).
  { destruct (lookup_lt_is_Some_2 us k ltac:(lia)) as [[n f] Hu]. exists (take k us), n, f, (drop (Datatypes.S k) us).
    split; [by rewrite take_drop_middle|]. rewrite length_take. lia. }
  apply Forall_app in Hg as [Hg1 Hg2].
  apply Forall_cons in Hg2 as [[Hhome Hf] _]. cbn [fst snd] in Hhome, Hf.
  rewrite fmap_app in Hnd. apply NoDup_app in Hnd as [Hnd _].
  destruct (updates_run us1 s c L3) as (s1 & L4 & p4 & (e1 & E1 & W1) & Hr1 & Hn1 & Hinv1 & Hsame & _ & Hbl); auto.
  { by apply (log_inv_same L). } { done. } { unfold NBUF, k in *. cbn. lia. } { unfold k in *. cbn in *. lia. }
  assert (lh_n L4 = l_size L - 1) as Hfull.
  { rewrite add_blocks_new in Hbl by (try done; intros b _; unfold blocks; cbn; rewrite Hn; apply not_elem_of_nil).
    apply (f_equal length) in Hbl. rewrite (blocks_length L4 (nblk s)) in Hbl by apply Hinv1.
    rewrite length_app, length_fmap, Hk in Hbl. unfold blocks in Hbl. cbn in Hbl. rewrite Hn in Hbl. cbn in Hbl.
    unfold k in Hbl. pose proof (lo_n _ _ (li_ok _ _ _ Hinv1)). change (Z.to_nat 0) with 0%nat in Hbl. rewrite take_0 in Hbl. cbn in Hbl. lia. }
  destruct Hsame as (_ & S2 & S3 & _). cbn in S2, S3. rewrite <- Hn1 in Hinv1.
  destruct (update_full s1 _ L4 n f Hr1 Hinv1) as (e2 & E2 & W2); [done| | |unfold NBUF; lia|lia|].
  { unfold home, in_log in *. by rewrite Hn1, S2, S3. }
  { apply Hf. eapply bview_length; [exact Hr1|]. rewrite Hn1. apply Hhome. }
  exists (e1 ++ e2). rewrite (for_all_app _ _ _ _ _ _ E1), writes_app, W1, W2. cbn [for_all fst snd].
  by rewrite (bind_panic_eq _ _ _ _ _ E2).
Qed.

(** Blocks 50 to 79 of the small disk. *)
Lemma log_reservation_panics_witness :
  exists s : bio memide,
    panics (three_ops ((fun n => (n, fill7)) <$> zrange 50 30)) (mk_logst s small_log) "too big a transaction".
Proof.
  destruct (binit_boot small_disk small_ready) as (s & _ & Hd & _ & Hr & _).
  assert (nblk s = 100) as HN by (cbn; rewrite Hd; reflexivity). exists s.
  apply (log_reservation_panics s (fresh_cache (drv_sector small_disk)) small_log); [exact Hr| | | | |].
  - rewrite HN. exact small_quiet.
  - cbn. lia.
  - rewrite HN. apply Forall_fmap, Forall_forall. intros n Hn. apply small_update. apply elem_of_zrange in Hn. lia.
  - vm_compute. repeat constructor; set_solver.
  - reflexivity.
Defined.
