(* ===== verification/LogSpace.v ===== *)
(** * The log-space reservation of [begin_op]

    Concurrent file-system calls interleave their [begin_op], [log_write] and
    [end_op], and the commit at the end of [end_op] is interleaved with the other
    calls block by block.  Each admitted call may log [MAXOPBLOCKS] blocks; the
    counters of log.c are shown to keep enough room for all of them, and the flag
    [committing] to keep them apart from the commit. *)

From stdpp Require Import base numbers list gmap strings relations.
From S2P Require Import Prelude Bytes Mem Buf Memide Cells Bio Bcache Log LogCrash Tx Recovery.

Open Scope Z_scope.

Create HintDb keeps.

Section LogSpace.
Context {S : Type} `{BCache S}.

(** What a computation on the buffer cache leaves alone. *)
Lemma zoom_lb_log {A} (m : M S A) s e a s' : zoom lb m s = (e, Ret a s') -> lg s' = lg s.
Proof.
  unfold zoom. destruct (m (lget lb s)) as [e1 [a1 t| | | |]]; try done.
  by intros [= _ _ <-].
Qed.

Definition keeps {A} (m : M (logst S) A) : Prop :=
  forall s e a s', m s = (e, Ret a s') -> lg s' = lg s.

Lemma keeps_bind {A B} (m : M (logst S) A) (k : A -> M (logst S) B) :
  keeps m -> (forall a, keeps (k a)) -> keeps (bind m k).
Proof.
  intros Hm Hk s e b s' Hr. apply bind_inv in Hr as (e1 & a & s1 & e2 & E1 & E2 & ->).
  rewrite (Hk a _ _ _ _ E2). by apply (Hm _ _ _ _ E1).
Qed.

Lemma keeps_zoom {A} (m : M S A) : keeps (zoom lb m).
Proof. intros s e a s'. apply zoom_lb_log. Qed.

Lemma keeps_the_log : keeps the_log.
Proof. intros s e a s' Hr. cbn in Hr. by injection Hr as _ _ <-. Qed.

Lemma keeps_lh_at i : keeps (lh_at i).
Proof.
  intros s e a s' Hr. unfold lh_at, bind, the_log, gets in Hr. cbn in Hr.
  destruct (lh_block (lg s) !! i); [|done]. by injection Hr as _ _ <-.
Qed.

Lemma keeps_for_all {X} (l : list X) f : (forall x, keeps (f x)) -> keeps (for_all l f).
Proof.
  intros Hf. induction l as [|x l IH]; cbn.
  - intros s e a s' Hr. by injection Hr as _ _ <-.
  - by apply keeps_bind.
Qed.

Hint Resolve keeps_bind keeps_zoom keeps_the_log keeps_lh_at keeps_for_all : keeps.

Lemma keeps_write_head : keeps write_head.
Proof. unfold write_head. eauto 15 with keeps. Qed.
Lemma keeps_write_log_one i : keeps (write_log_one i).
Proof. unfold write_log_one. eauto 20 with keeps. Qed.
Lemma keeps_install_one i : keeps (install_one i).
Proof. unfold install_one. eauto 20 with keeps. Qed.

(** ** What a call does to the counters *)

Lemma acquire_inv (s : logst S) e s' :
  acquire loglock s = (e, Ret tt s') -> l_lock (lg s) = false /\ s' = mk_logst (lbio s) (set_llock true (lg s)).
Proof. unfold acquire. cbn. destruct (l_lock (lg s)); [done|]. by intros [= _ <-]. Qed.

Lemma release_inv (s : logst S) e s' :
  release loglock s = (e, Ret tt s') -> s' = mk_logst (lbio s) (set_llock false (lg s)).
Proof. unfold release. cbn. destruct (l_lock (lg s)); [|done]. by intros [= _ <-]. Qed.

Lemma set_lh_eq i v (s : logst S) :
  set_lh i v s =
    if (i <? length (lh_block (lg s)))%nat
    then ([], Ret tt (mk_logst (lbio s) (set_blocks (<[i := v]> (lh_block (lg s))) (lg s))))
    else ([], Fault).
Proof. unfold set_lh, the_log, gets, bind. by destruct (i <? length (lh_block (lg s)))%nat. Qed.

(** The loop of [begin_op], once around. *)
Lemma begin_op_eq (s : logst S) :
  l_lock (lg s) = false ->
  begin_op s =
    if committing (lg s) || (lh_n (lg s) + (outstanding (lg s) + 1) * MAXOPBLOCKS >? LOGSIZE)
    then ([], Sleep ChLog s)
    else ([], Ret tt (mk_logst (lbio s) (set_outstanding (outstanding (lg s) + 1) (lg s)))).
Proof.
  intros Hl. destruct s as [b L]. unfold begin_op, acquire, the_log, gets, sleep, release, block_on, on_log, modify, bind.
  cbn in *. rewrite Hl. cbn.
  destruct (committing L) eqn:Hc; cbn; [do 3 f_equal; destruct L; cbn in *; by subst|].
  destruct (_ >? _); cbn; do 3 f_equal; destruct L; cbn in *; by subst.
Qed.

(** A block is logged or absorbed; nothing but the header changes. *)
Lemma log_write_inv j (s : logst S) e s' :
  log_write j s = (e, Ret tt s') ->
  exists bs n, lg s' = set_blocks bs (set_n n (lg s)) /\ lh_n (lg s) <= n <= lh_n (lg s) + 1
    /\ length bs = length (lh_block (lg s)).
Proof.
  intros Hr. apply bind_inv in Hr as (e1 & L & s1 & e2 & E1 & Hr & ->). injection E1 as _ <- <-.
  destruct ((lh_n (lg s) >=? LOGSIZE) || (lh_n (lg s) >=? l_size (lg s) - 1)); [done|].
  destruct (outstanding (lg s) <? 1); [done|].
  apply bind_inv in Hr as (e3 & [] & s3 & e4 & [Hl ->]%acquire_inv & Hr & ->).
  apply bind_inv in Hr as (e5 & b & s5 & e6 & E5%zoom_lb_log & Hr & ->). cbn in E5.
  set (i := absorb _ _ _) in Hr. clearbody i.
  apply bind_inv in Hr as (e7 & [] & s7 & e8 & E7 & Hr & ->).
  apply bind_inv in Hr as (e9 & [] & s9 & e10 & E9 & Hr & ->).
  apply bind_inv in Hr as (e11 & [] & s11 & e12 & E11%zoom_lb_log & Hr%release_inv & ->). subst s'.
  rewrite set_lh_eq, E5 in E7. destruct (i <? length _)%nat; [|done]. injection E7 as _ <-. cbn in E9.
  exists (<[i := b]> (lh_block (lg s))), (if Z.of_nat i =? lh_n (lg s) then lh_n (lg s) + 1 else lh_n (lg s)).
  rewrite length_insert. cbn. rewrite E11.
  destruct (Z.of_nat i =? lh_n (lg s)); cbn in E9; injection E9 as _ <-; cbn;
    (split; [destruct (lg s); cbn in *; by subst|]); (split; [lia|done]).
Qed.

Lemma end_op_begin_eq (s : logst S) :
  l_lock (lg s) = false -> committing (lg s) = false ->
  let last := outstanding (lg s) =? 1 in
  end_op_begin s = (if last then [] else [EvWakeup ChLog],
    Ret last (mk_logst (lbio s) (set_committing last (set_outstanding (outstanding (lg s) - 1) (lg s))))).
Proof.
  intros Hl Hc last. replace last with (outstanding (lg s) - 1 =? 0) by (unfold last; by zcase). clear last.
  destruct s as [b L]. unfold end_op_begin, acquire, the_log, gets, release, on_log, modify, wakeup, emit, bind.
  cbn in *. rewrite Hl. cbn. rewrite Hc. cbn.
  destruct (outstanding L - 1 =? 0); cbn; do 3 f_equal; destruct L; cbn in *; by subst.
Qed.

Lemma end_op_finish_eq (s : logst S) :
  l_lock (lg s) = false ->
  end_op_finish s = ([EvWakeup ChLog], Ret tt (mk_logst (lbio s) (set_committing false (lg s)))).
Proof.
  intros Hl. destruct s as [b L]. unfold end_op_finish, acquire, release, on_log, modify, wakeup, emit, bind.
  cbn in *. rewrite Hl. cbn. do 3 f_equal. destruct L; cbn in *; by subst.
Qed.

Definition total (rem : list Z) : Z := foldr Z.add 0 rem.

Lemma total_app r1 r2 : total (r1 ++ r2) = total r1 + total r2.
Proof. induction r1 as [|x r1 IH]; cbn; [done|]. unfold total in *. rewrite IH. lia. Qed.

Lemma total_bound rem :
  Forall (fun r => 0 <= r <= MAXOPBLOCKS) rem -> 0 <= total rem <= MAXOPBLOCKS * Z.of_nat (length rem).
Proof.
  unfold total, MAXOPBLOCKS. induction 1 as [|r rem Hr _ IH]; [done|].
  cbn [foldr length]. lia.
Qed.

Lemma total_split rem k r :
  rem !! k = Some r -> total rem = r + total (delete k rem)
  /\ forall r', total (<[k := r']> rem) = r' + total (delete k rem).
Proof.
  revert k. induction rem as [|x rem IH]; intros [|k] Hk; try done.
  - injection Hk as ->. done.
  - destruct (IH k Hk) as [E1 E2].
    change (delete (Datatypes.S k) (x :: rem)) with (x :: delete k rem).
    change (x + total rem = r + (x + total (delete k rem)) /\
            forall r', x + total (<[k := r']> rem) = r' + (x + total (delete k rem))).
    split; [lia|]. intros r'. rewrite E2. lia.
Qed.

(** ** The commit, block by block *)

(** Where a process is in [commit]. *)
Inductive cpc :=
  | CStart                  (* at the test of [log.lh.n] *)
  | CLog (tail : nat)       (* in the loop of [write_log] *)
  | CHead                   (* at [write_head] *)
  | CInstall (tail : nat)   (* in the loop of [install_trans] *)
  | CClear                  (* at [log.lh.n = 0] *)
  | CErase                  (* at the second [write_head] *)
  | CDone.                  (* back in [end_op] *)

(** What the process does next, and where it is then. *)
Definition commit_step (pc : cpc) (L : log) : M (logst S) unit * cpc :=
  match pc with
  | CStart => (ret tt, if lh_n L >? 0 then CLog 0 else CDone)
  | CLog tail =>
      if (tail <? Z.to_nat (lh_n L))%nat then (write_log_one tail, CLog (Datatypes.S tail)) else (ret tt, CHead)
  | CHead => (write_head, CInstall 0)
  | CInstall tail =>
      if (tail <? Z.to_nat (lh_n L))%nat then (install_one tail, CInstall (Datatypes.S tail)) else (ret tt, CClear)
  | CClear => (on_log (set_n 0), CErase)
  | CErase => (write_head, CDone)
  | CDone => (ret tt, CDone)
  end.

Definition cstep (e : list event) (x y : cpc * logst S) : Prop :=
  x.1 <> CDone /\ (commit_step x.1 (lg x.2)).1 x.2 = (e, Ret tt y.2) /\ y.1 = (commit_step x.1 (lg x.2)).2.

Definition csteps : relation (cpc * logst S) := rtc (fun x y => exists e, cstep e x y).

Lemma cstep_once pc s e s' :
  pc <> CDone -> (commit_step pc (lg s)).1 s = (e, Ret tt s') -> csteps (pc, s) ((commit_step pc (lg s)).2, s').
Proof. intros Hpc E. apply rtc_once. by exists e. Qed.

#[local] Instance csteps_transitive : Transitive csteps.
Proof. unfold csteps. apply _. Qed.

(** A loop over the blocks of the transaction is a sequence of steps. *)
Lemma loop_steps (at_ : nat -> cpc) (out : cpc) (one : nat -> M (logst S) unit) k m s e s' :
  (forall i, keeps (one i)) -> (forall i, at_ i <> CDone) ->
  (forall i L, commit_step (at_ i) L =
     if (i <? Z.to_nat (lh_n L))%nat then (one i, at_ (Datatypes.S i)) else (ret tt, out)) ->
  (k + m = Z.to_nat (lh_n (lg s)))%nat ->
  for_all (seq k m) one s = (e, Ret tt s') -> lg s' = lg s /\ csteps (at_ k, s) (out, s').
Proof.
  intros Hk Hd Hs. revert k s e. induction m as [|m IH]; intros k s e Hn Hr; cbn [seq for_all] in Hr.
  - injection Hr as _ <-. split; [done|]. pose proof (cstep_once (at_ k) s [] s (Hd k)) as Hc.
    rewrite Hs, (proj2 (Nat.ltb_ge _ _)) in Hc by lia. by apply Hc.
  - apply bind_inv in Hr as (e1 & [] & s1 & e2 & E1 & E2 & ->).
    pose proof (Hk _ _ _ _ _ E1) as El. rewrite <- El in Hn.
    destruct (IH (Datatypes.S k) s1 e2 ltac:(lia) E2) as [El' Hrest]. split; [congruence|].
    etrans; [|exact Hrest]. pose proof (cstep_once (at_ k) s e1 s1 (Hd k)) as Hc.
    rewrite El in Hn. rewrite Hs, (proj2 (Nat.ltb_lt _ _)) in Hc by lia. by apply Hc.
Qed.

(** The steps are those of [commit]. *)
Lemma commit_by_steps s e s' : commit s = (e, Ret tt s') -> csteps (CStart, s) (CDone, s').
Proof.
  intros Hr. apply bind_inv in Hr as (e1 & L & s1 & e2 & E1 & Hr & ->). injection E1 as _ <- <-.
  pose proof (cstep_once CStart s [] s ltac:(done) eq_refl) as H1. cbn [commit_step snd] in H1.
  destruct (lh_n (lg s) >? 0); cbn [when] in Hr; [|by injection Hr as _ <-].
  etrans; [exact H1|]. clear H1.
  apply bind_inv in Hr as (e3 & [] & s3 & e4 & E3 & Hr & ->).
  apply bind_inv in E3 as (? & ? & ? & ? & E0 & E3 & ->). injection E0 as _ <- <-.
  destruct (loop_steps CLog CHead write_log_one 0 _ s _ s3 keeps_write_log_one ltac:(done) ltac:(done) eq_refl E3)
    as [Hl3 H3]. etrans; [exact H3|]. clear H3 E3.
  apply bind_inv in Hr as (e5 & [] & s5 & e6 & E5 & Hr & ->).
  etrans; [apply (cstep_once CHead s3 e5 s5); done|].
  apply bind_inv in Hr as (e7 & [] & s7 & e8 & E7 & Hr & ->).
  apply bind_inv in E7 as (? & ? & ? & ? & E0 & E7 & ->). injection E0 as _ <- <-.
  destruct (loop_steps CInstall CClear install_one 0 _ s5 _ s7 keeps_install_one ltac:(done) ltac:(done) eq_refl E7)
    as [_ H7]. etrans; [exact H7|].
  apply bind_inv in Hr as (e9 & [] & s9 & e10 & E9 & Hr & ->).
  etrans; [apply (cstep_once CClear s7 e9 s9); done|].
  by apply (cstep_once CErase s9 e10 s').
Qed.

(** ** Interleaved calls *)

(** The log with, for each call in progress, how many more blocks it may log; the
    processes that are committing; and the number of processes asleep in
    [begin_op]. *)
Record lsys := mk_lsys {
  ls_st : logst S;
  ls_rem : list Z;
  ls_commits : list cpc;
  ls_asleep : nat
}.

(** [wakeup(&log)] wakes all of them; each goes around the loop of [begin_op] again. *)
Definition still_asleep (e : list event) (k : nat) : nat := if decide (EvWakeup ChLog ∈ e) then O else k.

Inductive lstep : lsys -> lsys -> Prop :=
  | ls_begin st e s' :
      begin_op (ls_st st) = (e, Ret tt s') ->
      lstep st (mk_lsys s' (ls_rem st ++ [MAXOPBLOCKS]) (ls_commits st) (still_asleep e (ls_asleep st)))
  | ls_sleep st e s' :
      begin_op (ls_st st) = (e, Sleep ChLog s') ->
      lstep st (mk_lsys s' (ls_rem st) (ls_commits st) (Datatypes.S (still_asleep e (ls_asleep st))))
  | ls_write st k r j e s' :
      ls_rem st !! k = Some r -> 0 < r -> log_write j (ls_st st) = (e, Ret tt s') ->
      lstep st (mk_lsys s' (<[k := r - 1]> (ls_rem st)) (ls_commits st) (still_asleep e (ls_asleep st)))
  | ls_end st k r do_commit e s' :
      ls_rem st !! k = Some r -> end_op_begin (ls_st st) = (e, Ret do_commit s') ->
      lstep st (mk_lsys s' (delete k (ls_rem st))
        (if do_commit then ls_commits st ++ [CStart] else ls_commits st) (still_asleep e (ls_asleep st)))
  | ls_commit st k pc pc' e s' :
      ls_commits st !! k = Some pc -> cstep e (pc, ls_st st) (pc', s') ->
      lstep st (mk_lsys s' (ls_rem st) (<[k := pc']> (ls_commits st)) (still_asleep e (ls_asleep st)))
  | ls_finish st k e s' :
      ls_commits st !! k = Some CDone -> end_op_finish (ls_st st) = (e, Ret tt s') ->
      lstep st (mk_lsys s' (ls_rem st) (delete k (ls_commits st)) (still_asleep e (ls_asleep st)))
  | ls_cache st b :              (* the buffer cache is used by anyone at any time *)
      lstep st (mk_lsys (mk_logst b (lg (ls_st st))) (ls_rem st) (ls_commits st) (ls_asleep st)).

(** [begin_op] goes to sleep. *)
Definition must_wait (L : log) : bool :=
  committing L || (lh_n L + (outstanding L + 1) * MAXOPBLOCKS >? LOGSIZE).

Record reserved (size : Z) (st : lsys) : Prop := {
  rs_size : l_size (lg (ls_st st)) = size;
  rs_count : outstanding (lg (ls_st st)) = Z.of_nat (length (ls_rem st));
  rs_each : Forall (fun r => 0 <= r <= MAXOPBLOCKS) (ls_rem st);
  rs_n : 0 <= lh_n (lg (ls_st st));
  rs_room : lh_n (lg (ls_st st)) + total (ls_rem st) <= LOGSIZE;
  rs_lock : l_lock (lg (ls_st st)) = false;
  rs_len : length (lh_block (lg (ls_st st))) = Z.to_nat LOGSIZE;
  rs_commits : if committing (lg (ls_st st)) then length (ls_commits st) = 1%nat /\ ls_rem st = []
               else ls_commits st = [];
  rs_asleep : (0 < ls_asleep st)%nat -> must_wait (lg (ls_st st)) = true
}.

(** The sleepers still wait if [begin_op]'s condition did not become false. *)
Lemma asleep_mono e (st : lsys) L :
  ((0 < ls_asleep st)%nat -> must_wait (lg (ls_st st)) = true) ->
  (must_wait (lg (ls_st st)) = true -> must_wait L = true) ->
  (0 < still_asleep e (ls_asleep st))%nat -> must_wait L = true.
Proof. intros H1 H2. unfold still_asleep. case_decide; [lia|]. auto. Qed.

Lemma begin_reserved z st e s' :
  begin_op (ls_st st) = (e, Ret tt s') -> reserved z st ->
  reserved z (mk_lsys s' (ls_rem st ++ [MAXOPBLOCKS]) (ls_commits st) (still_asleep e (ls_asleep st))).
Proof.
  intros E [Hz Hc He Hn Hr Hlk Hln Hco Hs]. pose proof (total_bound _ He) as Hb.
  rewrite begin_op_eq in E by done. fold (must_wait (lg (ls_st st))) in E.
  destruct (must_wait (lg (ls_st st))) eqn:Hw; [done|]. injection E as <- <-.
  unfold must_wait in Hw. apply orb_false_iff in Hw as [Hw1 Hw2]. rewrite Hw1 in Hco. rewrite Z.gtb_ltb in Hw2.
  apply Z.ltb_ge in Hw2. constructor; cbn [ls_st ls_rem ls_commits ls_asleep lg]; cbn; auto.
  - rewrite Hc, length_app. cbn. lia.
  - apply Forall_app. split; [done|]. constructor; [|constructor]. unfold MAXOPBLOCKS. lia.
  - rewrite total_app. change (total [MAXOPBLOCKS]) with 10. rewrite Hc in Hw2.
    unfold LOGSIZE, MAXOPBLOCKS in *. lia.
  - by rewrite Hw1.
  - intros Ha. by specialize (Hs Ha).
Qed.

Lemma write_reserved z st k r j e s' :
  ls_rem st !! k = Some r -> 0 < r -> log_write j (ls_st st) = (e, Ret tt s') -> reserved z st ->
  reserved z (mk_lsys s' (<[k := r - 1]> (ls_rem st)) (ls_commits st) (still_asleep e (ls_asleep st))).
Proof.
  intros Hk Hr0 E [Hz Hc He Hn Hr Hlk Hln Hco Hs].
  apply log_write_inv in E as (bs & n & El & En & Eb). destruct (total_split _ _ _ Hk) as [E1 E2].
  pose proof (Forall_lookup_1 _ _ _ _ He Hk) as Hrk. cbn beta in Hrk.
  assert (committing (lg (ls_st st)) = false) as Hnc.
  { destruct (committing (lg (ls_st st))); [|done]. destruct Hco as [_ Hco]. by rewrite Hco in Hk. }
  rewrite Hnc in Hco. constructor; cbn [ls_st ls_rem ls_commits ls_asleep]; rewrite ?El; cbn; auto.
  - by rewrite length_insert.
  - apply Forall_insert; [done|lia].
  - lia.
  - rewrite E2. lia.
  - congruence.
  - by rewrite Hnc.
  - apply (asleep_mono e); [done|]. unfold must_wait. cbn. rewrite Hnc. cbn. rewrite !Z.gtb_ltb, !Z.ltb_lt. lia.
Qed.

Lemma end_reserved z st k r b e s' :
  ls_rem st !! k = Some r -> end_op_begin (ls_st st) = (e, Ret b s') -> reserved z st ->
  reserved z (mk_lsys s' (delete k (ls_rem st))
    (if b then ls_commits st ++ [CStart] else ls_commits st) (still_asleep e (ls_asleep st))).
Proof.
  intros Hk E [Hz Hc He Hn Hr Hlk Hln Hco Hs]. destruct (total_split _ _ _ Hk) as [E1 _].
  pose proof (Forall_lookup_1 _ _ _ _ He Hk) as Hrk. cbn beta in Hrk. pose proof (lookup_lt_Some _ _ _ Hk) as Hlt.
  assert (committing (lg (ls_st st)) = false) as Hnc.
  { destruct (committing (lg (ls_st st))); [|done]. destruct Hco as [_ Hco]. by rewrite Hco in Hk. }
  rewrite Hnc in Hco. rewrite end_op_begin_eq in E by done. injection E as <- <- <-.
  assert (length (delete k (ls_rem st)) = (length (ls_rem st) - 1)%nat) as Hdel by (rewrite length_delete by eauto; lia).
  constructor; cbn [ls_st ls_rem ls_commits ls_asleep lg]; cbn; auto.
  - rewrite Hdel. lia.
  - by apply Forall_delete.
  - lia.
  - rewrite Hco. destruct (Z.eqb_spec (outstanding (lg (ls_st st))) 1); [|done].
    split; [done|]. apply nil_length_inv. lia.
  - destruct (_ =? _); [done|]. unfold still_asleep. rewrite decide_True by set_solver. lia.
Qed.

(** A step of the commit leaves the log alone, but for [log.lh.n = 0]. *)
Lemma cstep_log e pc s pc' s' :
  cstep e (pc, s) (pc', s') -> lg s' = lg s \/ lg s' = set_n 0 (lg s).
Proof.
  intros (Hpc & E & _). cbn in Hpc, E.
  assert (forall m : M (logst S) unit, keeps m -> m s = (e, Ret tt s') -> lg s' = lg s) as Hk
    by (intros m Hm Hr; by apply (Hm _ _ _ _ Hr)).
  assert (keeps (ret tt : M (logst S) unit)) as Hret by (intros ? ? ? ? [= _ _ <-]; done).
  destruct pc as [|i| |i| | |]; cbn [commit_step fst] in E; try done; try (left; eapply Hk; [|exact E]; auto using keeps_write_head; fail).
  - left. destruct (_ <? _)%nat; cbn [fst] in E; (eapply Hk; [|exact E]); auto using keeps_write_log_one.
  - left. destruct (_ <? _)%nat; cbn [fst] in E; (eapply Hk; [|exact E]); auto using keeps_install_one.
  - right. by injection E as _ <-.
Qed.

Lemma commit_reserved z st k pc pc' e s' :
  ls_commits st !! k = Some pc -> cstep e (pc, ls_st st) (pc', s') -> reserved z st ->
  reserved z (mk_lsys s' (ls_rem st) (<[k := pc']> (ls_commits st)) (still_asleep e (ls_asleep st))).
Proof.
  intros Hk E [Hz Hc He Hn Hr Hlk Hln Hco Hs]. pose proof (total_bound _ He) as Hb.
  destruct (committing (lg (ls_st st))) eqn:Hcm; [|by rewrite Hco in Hk].
  assert (must_wait (lg s') = true) as Hw
    by (unfold must_wait; destruct (cstep_log _ _ _ _ _ E) as [->| ->]; cbn; by rewrite Hcm).
  destruct Hco as [Hco1 Hco2].
  destruct (cstep_log _ _ _ _ _ E) as [El|El]; constructor; cbn [ls_st ls_rem ls_commits ls_asleep];
    rewrite ?El; cbn; auto; rewrite ?Hcm, ?length_insert; auto; try lia; rewrite <- El; auto.
Qed.

Lemma finish_reserved z st k e s' :
  ls_commits st !! k = Some CDone -> end_op_finish (ls_st st) = (e, Ret tt s') -> reserved z st ->
  reserved z (mk_lsys s' (ls_rem st) (delete k (ls_commits st)) (still_asleep e (ls_asleep st))).
Proof.
  intros Hk E [Hz Hc He Hn Hr Hlk Hln Hco Hs].
  rewrite end_op_finish_eq in E by done. injection E as <- <-.
  destruct (committing (lg (ls_st st))) eqn:Hcm; [|by rewrite Hco in Hk]. destruct Hco as [Hco1 Hco2].
  constructor; cbn [ls_st ls_rem ls_commits ls_asleep lg]; cbn; auto.
  - apply nil_length_inv. rewrite length_delete by eauto. lia.
  - unfold still_asleep. rewrite decide_True by set_solver. lia.
Qed.

Lemma lstep_reserved z st st' : lstep st st' -> reserved z st -> reserved z st'.
Proof.
  intros Hst Hres. destruct Hst as [st e s' E|st e s' E|st k r j e s' Hk Hr E|st k r b e s' Hk E
    |st k pc pc' e s' Hk E|st k e s' Hk E|st b].
  - by apply begin_reserved.
  - pose proof (rs_lock _ _ Hres) as Hlk. rewrite begin_op_eq in E by done. fold (must_wait (lg (ls_st st))) in E.
    destruct (must_wait (lg (ls_st st))) eqn:Hw; [|done]. injection E as <- <-. destruct Hres. by constructor.
  - by eapply write_reserved.
  - by eapply end_reserved.
  - by eapply commit_reserved.
  - by eapply finish_reserved.
  - destruct Hres. by constructor.
Qed.

Lemma rtc_reserved z st0 st : rtc lstep st0 st -> reserved z st0 -> reserved z st.
Proof. induction 1 as [st|st st1 st2 H1 _ IH]; [done|]. intros H0. apply IH. by eapply lstep_reserved. Qed.

(** [end_op] run without interruption is a sequence of these steps. *)
Lemma end_op_steps st k r e s' :
  ls_rem st !! k = Some r -> ls_commits st = [] -> end_op (ls_st st) = (e, Ret tt s') ->
  exists n, rtc lstep st (mk_lsys s' (delete k (ls_rem st)) [] n).
Proof.
  intros Hk Hc Hr. apply bind_inv in Hr as (e1 & b & s1 & e2 & E1 & Hr & _).
  pose proof (ls_end st k r b e1 s1 Hk E1) as H1. rewrite Hc in H1. destruct b; cbn [when] in Hr.
  - apply bind_inv in Hr as (e3 & [] & s3 & e4 & E3%commit_by_steps & E4 & _).
    assert (forall x y n, rtc (fun x y => exists e, cstep e x y) x y ->
      exists n', rtc lstep (mk_lsys x.2 (delete k (ls_rem st)) [x.1] n)
                           (mk_lsys y.2 (delete k (ls_rem st)) [y.1] n')) as Hall.
    { intros x y n Hxy. revert n. induction Hxy as [x|[pc s] [pc' s2] z [e' H2] _ IH]; intros n; [by exists n|].
      destruct (IH (still_asleep e' n)) as [n' IHn]. exists n'. eapply rtc_l; [|exact IHn].
      exact (ls_commit (mk_lsys s _ [pc] n) 0 pc pc' e' s2 eq_refl H2). }
    destruct (Hall _ _ (still_asleep e1 (ls_asleep st)) E3) as [n Hn].
    eexists. eapply rtc_l; [exact H1|]. eapply rtc_r; [exact Hn|].
    exact (ls_finish (mk_lsys s3 _ [CDone] n) 0 e4 s' eq_refl E4).
  - injection Hr as _ <-. eexists. apply rtc_once. exact H1.
Qed.

End LogSpace.

(** C2: [begin_op]'s admission test reserves log space, and [committing] keeps calls
    and commit apart.  Calls that each log at most [MAXOPBLOCKS] blocks interleave in any
    way, also with the steps of a commit and with any use of the buffer cache.  Then the
    blocks logged plus those the admitted calls may still log never exceed [LOGSIZE];
    at most one process commits, and no call is in progress while it does.  [begin_op]
    sleeps or admits the call, by its condition alone; with a log of more than [LOGSIZE]
    blocks [log_write] of a buffer that is held returns for a call within its budget; both
    critical sections of [end_op] return.  So none of the panics of these functions
    happens.  And nobody sleeps in [begin_op] without having to wait. *)
Theorem log_space_reserved {S} `{BCacheSpec S} (s0 : logst S) st :
  lh_n (lg s0) = 0 -> outstanding (lg s0) = 0 -> committing (lg s0) = false -> l_lock (lg s0) = false ->
  length (lh_block (lg s0)) = Z.to_nat LOGSIZE ->
  rtc lstep (mk_lsys s0 [] [] 0) st ->
  let s := ls_st st in let L := lg s in
  lh_n L + total (ls_rem st) <= LOGSIZE
  /\ (ls_commits st <> [] -> committing L = true /\ length (ls_commits st) = 1%nat /\ ls_rem st = [])
  /\ begin_op s = ([], if must_wait L then Sleep ChLog s
                       else Ret tt (mk_logst (lbio s) (set_outstanding (outstanding L + 1) L)))
  /\ (forall k r j c b, ls_rem st !! k = Some r -> 0 < r -> LOGSIZE < l_size (lg s0) ->
        brep (lbio s) c -> c_held c !! j = Some b -> exists e s', log_write j s = (e, Ret tt s'))
  /\ (forall k r, ls_rem st !! k = Some r -> exists e b s', end_op_begin s = (e, Ret b s'))
  /\ (ls_commits st <> [] -> exists e s', end_op_finish s = (e, Ret tt s'))
  /\ ((0 < ls_asleep st)%nat -> must_wait L = true).
Proof.
  intros Hn Ho Hcm Hlk Hln Hrtc. destruct st as [s rem commits asleep]. cbn zeta.
  destruct (rtc_reserved (l_size (lg s0)) _ _ Hrtc) as [Hz Hc He Hn' Hr Hlk' Hln' Hco Hs].
  { constructor; cbn; auto; rewrite ?Hn, ?Hcm; try done; lia. }
  cbn [ls_st ls_rem ls_commits ls_asleep] in *. set (L := lg s) in *. split; [done|]. split; [|split; [|split; [|split; [|split; [|done]]]]].
  - intros Hne. by destruct (committing L).
  - rewrite begin_op_eq by done. fold L. unfold must_wait. by destruct (_ || _).
  - intros k r j c b Hk Hpos Hbig Hrep Hj. destruct (total_split _ _ _ Hk) as [E1 _].
    pose proof (total_bound _ (Forall_delete _ _ k He)) as Hb. pose proof (lookup_lt_Some _ _ _ Hk) as Hlt.
    destruct (log_write_run (lbio s) c L j b) as (s' & (e & E & _) & _); auto; try lia.
    exists e, (mk_logst s' (logged L b)). unfold L in E. by destruct s.
  - intros k r Hk. rewrite end_op_begin_eq; [eauto|done|]. fold L.
    destruct (committing L); [|done]. destruct Hco as [_ Hco]. by rewrite Hco in Hk.
  - intros _. rewrite end_op_finish_eq by done. eauto.
Qed.

(** One call admitted, on a small disk. *)
Lemma log_space_reserved_witness :
  exists s, begin_op (mk_logst (boot small_disk) small_log) = ([], Ret tt s)
    /\ lh_n (lg s) + total [MAXOPBLOCKS] <= LOGSIZE
    /\ exists e b s', end_op_begin s = (e, Ret b s').
Proof.
  set (s0 := mk_logst (boot small_disk) small_log).
  set (s1 := mk_logst (boot small_disk) (set_outstanding 1 small_log)).
  assert (begin_op s0 = ([], Ret tt s1)) as E by reflexivity.
  exists s1. split; [exact E|].
  destruct (log_space_reserved s0 (mk_lsys s1 [MAXOPBLOCKS] [] 0)) as (H1 & _ & _ & _ & H2 & _);
    [reflexivity..| |].
  - apply rtc_once. exact (ls_begin (mk_lsys s0 [] [] 0) [] s1 E).
  - split; [exact H1|]. exact (H2 0%nat MAXOPBLOCKS eq_refl).
Defined.
