(* ===== verification/Pipe.v ===== *)
(** * Pipes: pipe.c

    A pipe is named by the address of its page.  A call that blocks in [sleep]
    gives back its loop index; after the wake-up it goes on from there, with the
    lock taken again. *)

From stdpp Require Import base numbers list gmap strings.
From S2P Require Import Prelude Mem Kalloc.

Open Scope Z_scope.

Definition PIPESIZE : Z := 512.

Record pipe := mk_pipe {
  p_lock : bool;
  p_data : list Z;
  nread : Z;            (* number of bytes read *)
  nwrite : Z;           (* number of bytes written *)
  readopen : bool;      (* read fd is still open *)
  writeopen : bool      (* write fd is still open *)
}.

Definition plock : lens pipe bool :=
  Lens p_lock (fun b p => mk_pipe b (p_data p) (nread p) (nwrite p) (readopen p) (writeopen p)).

(** [p->data[p->nwrite++ % PIPESIZE] = c] *)
Definition push (c : Z) (p : pipe) : pipe :=
  mk_pipe (p_lock p) (<[Z.to_nat (nwrite p `mod` PIPESIZE) := c]> (p_data p)) (nread p)
    (u32 (nwrite p + 1)) (readopen p) (writeopen p).

(** [p->data[p->nread % PIPESIZE]], then [p->nread++] *)
Definition front (p : pipe) : Z := nth (Z.to_nat (nread p `mod` PIPESIZE)) (p_data p) 0.
Definition pop (p : pipe) : pipe :=
  mk_pipe (p_lock p) (p_data p) (u32 (nread p + 1)) (nwrite p) (readopen p) (writeopen p).

Definition set_readopen (b : bool) (p : pipe) : pipe :=
  mk_pipe (p_lock p) (p_data p) (nread p) (nwrite p) b (writeopen p).
Definition set_writeopen (b : bool) (p : pipe) : pipe :=
  mk_pipe (p_lock p) (p_data p) (nread p) (nwrite p) (readopen p) b.

Definition full (p : pipe) : bool := nwrite p =? u32 (nread p + PIPESIZE).
Definition empty (p : pipe) : bool := nread p =? nwrite p.

(** How a write or a read ends: with its return value, or asleep.  [i] is the
    loop index at that point. *)
Inductive wres := WRet (r : Z) (i : nat) | WSleep (i : nat).
Inductive rres := RRet (r : Z) (l : list Z) | RSleep.

Section Pipe.
Variable p : Z.        (* the address of the pipe *)

(** The loop of [pipewrite] from index [i], where [rest] is what is still to
    be written. *)
Fixpoint pipewrite_loop (killed : bool) (n : Z) (rest : list Z) (i : nat) : M pipe wres :=
  match rest with
  | [] =>
      wakeup (ChPipeRead p) ;;
      release plock ;;
      ret (WRet n i)
  | c :: rest' =>
      let* q := get in
      if full q then
        if negb (readopen q) || killed then
          release plock ;;
          ret (WRet (-1) i)
        else
          wakeup (ChPipeRead p) ;;
          release plock ;;
          ret (WSleep i)
      else
        modify (push c) ;;
        pipewrite_loop killed n rest' (S i)
  end.

(** [pipewrite], entered ([i = 0]) or woken up at index [i]. *)
Definition pipewrite (killed : bool) (addr : list Z) (n : Z) (i : nat) : M pipe wres :=
  acquire plock ;;
  pipewrite_loop killed n (drop i (take (Z.to_nat n) addr)) i.

(** The copy loop of [piperead]. *)
Fixpoint piperead_copy (n : nat) : M pipe (list Z) :=
  match n with
  | O => ret []
  | S n' =>
      let* q := get in
      if empty q then ret []
      else
        modify pop ;;
        let* l := piperead_copy n' in
        ret (front q :: l)
  end.

Definition piperead (killed : bool) (n : Z) : M pipe rres :=
  acquire plock ;;
  let* q := get in
  if empty q && writeopen q then
    if killed then
      release plock ;;
      ret (RRet (-1) [])
    else
      release plock ;;
      ret RSleep
  else
    let* l := piperead_copy (Z.to_nat n) in
    wakeup (ChPipeWrite p) ;;
    release plock ;;
    ret (RRet (Z.of_nat (length l)) l).

End Pipe.

(** ** Pipes and the pages they live in *)

Record pworld := mk_pworld { pipes : gmap Z pipe; pages_of : pmem }.

Definition pagel : lens pworld pmem := Lens pages_of (fun m w => mk_pworld (pipes w) m).

(** Run an operation on the pipe at [p]. *)
Definition on_pipe {A} (p : Z) (m : M pipe A) : M pworld A := fun w =>
  match pipes w !! p with
  | None => ([], Fault)
  | Some q =>
      match m q with
      | (e, Ret a q') => (e, Ret a (mk_pworld (<[p := q']> (pipes w)) (pages_of w)))
      | (e, Panic msg) => (e, Panic msg)
      | (e, Sleep c q') => (e, Sleep c (mk_pworld (<[p := q']> (pipes w)) (pages_of w)))
      | (e, Fault) => (e, Fault)
      | (e, NoFuel) => (e, NoFuel)
      end
  end.

(** The page is gone as a pipe once it is given back. *)
Definition free_pipe (kend p : Z) : M pworld unit :=
  modify (fun w => mk_pworld (delete p (pipes w)) (pages_of w)) ;;
  zoom pagel (kfree kend p).

Definition pipeclose (kend p : Z) (writable : bool) : M pworld unit :=
  on_pipe p (acquire plock) ;;
  (if writable then
     on_pipe p (modify (set_writeopen false)) ;;
     wakeup (ChPipeRead p)
   else
     on_pipe p (modify (set_readopen false)) ;;
     wakeup (ChPipeWrite p)) ;;
  let* q := on_pipe p get in
  if negb (readopen q) && negb (writeopen q) then
    on_pipe p (release plock) ;;
    free_pipe kend p
  else on_pipe p (release plock).

(** ** The pipe as a queue *)

Definition count (p : pipe) : Z := u32 (nwrite p - nread p).

Record pipe_ok (p : pipe) : Prop := {
  pk_len : length (p_data p) = Z.to_nat PIPESIZE;
  pk_r : 0 <= nread p < 2 ^ 32;
  pk_w : 0 <= nwrite p < 2 ^ 32;
  pk_count : count p <= PIPESIZE
}.

(** The byte [k] places behind the front, and all of them. *)
Definition nth_byte (p : pipe) (k : nat) : Z :=
  nth (Z.to_nat (u32 (nread p + Z.of_nat k) `mod` PIPESIZE)) (p_data p) 0.
Definition contents (p : pipe) : list Z := nth_byte p <$> seq 0 (Z.to_nat (count p)).

Lemma u32_mod_pipe x : u32 x `mod` PIPESIZE = x `mod` PIPESIZE.
Proof.
  unfold u32, PIPESIZE. change (2 ^ 32) with (512 * 2 ^ 23).
  rewrite (Z.rem_mul_r x 512 (2 ^ 23)) by lia.
  rewrite Z.mul_comm, Z.mod_add by lia. by rewrite Z.mod_mod by lia.
Qed.

Lemma full_spec p : pipe_ok p -> full p = (count p =? PIPESIZE).
Proof.
  intros [_ Hr Hw Hc]. unfold full, count, u32, PIPESIZE in *.
  destruct (Z.eqb_spec (nwrite p) ((nread p + 512) `mod` 2 ^ 32)) as [E|E];
    destruct (Z.eqb_spec ((nwrite p - nread p) `mod` 2 ^ 32) 512) as [E'|E']; try done; exfalso.
  - apply E'. rewrite E, Zminus_mod_idemp_l. by replace (nread p + 512 - nread p) with 512 by lia.
  - apply E. rewrite <- E', Zplus_mod_idemp_r. replace (nread p + (nwrite p - nread p)) with (nwrite p) by lia.
    symmetry. by apply Z.mod_small.
Qed.

Lemma empty_spec p : pipe_ok p -> empty p = (count p =? 0).
Proof.
  intros [_ Hr Hw Hc]. unfold empty, count, u32 in *.
  destruct (Z.eqb_spec (nread p) (nwrite p)) as [E|E].
  - rewrite E, Z.sub_diag. done.
  - destruct (Z.eqb_spec ((nwrite p - nread p) `mod` 2 ^ 32) 0) as [E'|]; [|done]. exfalso.
    apply Z.mod_divide in E' as [k Hk]; [|lia]. nia.
Qed.

Lemma count_range p : 0 <= count p.
Proof. apply u32_range. Qed.

Lemma push_count p c : pipe_ok p -> count p < PIPESIZE -> count (push c p) = count p + 1.
Proof.
  intros [_ Hr Hw _] Hc. unfold count, push, u32, PIPESIZE in *. cbn.
  rewrite Zminus_mod_idemp_l. replace (nwrite p + 1 - nread p) with (nwrite p - nread p + 1) by lia.
  rewrite <- Zplus_mod_idemp_l. apply Z.mod_small.
  pose proof (Z.mod_pos_bound (nwrite p - nread p) (2 ^ 32)). lia.
Qed.

Lemma pop_count p : pipe_ok p -> 0 < count p -> count (pop p) = count p - 1.
Proof.
  intros [_ Hr Hw _] Hc. unfold count, pop, u32 in *. cbn.
  rewrite Zminus_mod_idemp_r. replace (nwrite p - (nread p + 1)) with (nwrite p - nread p - 1) by lia.
  rewrite <- Zminus_mod_idemp_l. apply Z.mod_small.
  pose proof (Z.mod_pos_bound (nwrite p - nread p) (2 ^ 32)). lia.
Qed.

Lemma push_ok p c : pipe_ok p -> count p < PIPESIZE -> pipe_ok (push c p).
Proof.
  intros Hok Hc. pose proof (push_count p c Hok Hc) as E. destruct Hok. constructor; auto.
  - cbn. by rewrite length_insert.
  - apply u32_range.
  - rewrite E. lia.
Qed.

Lemma pop_ok p : pipe_ok p -> 0 < count p -> pipe_ok (pop p).
Proof.
  intros Hok Hc. pose proof (pop_count p Hok Hc) as E. destruct Hok. constructor; auto.
  - apply u32_range.
  - rewrite E. lia.
Qed.

Lemma slot_lt p x : pipe_ok p -> (Z.to_nat (x `mod` PIPESIZE) < length (p_data p))%nat.
Proof.
  intros Hok. rewrite (pk_len _ Hok). pose proof (Z.mod_pos_bound x PIPESIZE). unfold PIPESIZE in *. lia.
Qed.

(** Different places of the queue are in different slots. *)
Lemma slot_inj a b : 0 < b - a < PIPESIZE ->
  Z.to_nat (a `mod` PIPESIZE) <> Z.to_nat (b `mod` PIPESIZE).
Proof.
  unfold PIPESIZE. intros Hd E.
  pose proof (Z.mod_pos_bound a 512). pose proof (Z.mod_pos_bound b 512).
  assert (a `mod` 512 = b `mod` 512) as E' by lia.
  pose proof (Z.div_mod a 512). pose proof (Z.div_mod b 512). nia.
Qed.

Lemma nwrite_slot p : pipe_ok p -> nwrite p `mod` PIPESIZE = (nread p + count p) `mod` PIPESIZE.
Proof.
  intros Hok. unfold count. rewrite <- Zplus_mod_idemp_r, u32_mod_pipe, Zplus_mod_idemp_r.
  f_equal. lia.
Qed.

Lemma push_contents p c :
  pipe_ok p -> count p < PIPESIZE -> contents (push c p) = contents p ++ [c].
Proof.
  intros Hok Hc. pose proof (count_range p). unfold contents.
  rewrite push_count by done. replace (Z.to_nat (count p + 1)) with (S (Z.to_nat (count p))) by lia.
  rewrite seq_S, fmap_app. f_equal.
  - apply list_fmap_ext. intros ? k Hk. apply list_elem_of_lookup_2, elem_of_seq in Hk.
    unfold nth_byte, push. cbn. rewrite u32_mod_pipe, !nth_lookup, list_lookup_insert_ne; [done|].
    rewrite nwrite_slot by done. intros E. symmetry in E. revert E. apply slot_inj. lia.
  - cbn. f_equal. unfold nth_byte, push. cbn. rewrite u32_mod_pipe, nth_lookup.
    rewrite Z2Nat.id by lia. rewrite <- nwrite_slot by done.
    by rewrite list_lookup_insert_eq by (by apply slot_lt).
Qed.

Lemma pop_contents p :
  pipe_ok p -> 0 < count p -> contents p = front p :: contents (pop p).
Proof.
  intros Hok Hc. unfold contents. rewrite pop_count by done.
  replace (Z.to_nat (count p)) with (S (Z.to_nat (count p - 1))) by lia.
  cbn [seq fmap list_fmap]. f_equal.
  - unfold nth_byte, front. rewrite u32_mod_pipe. by rewrite Z.add_0_r.
  - rewrite <- fmap_S_seq, <- list_fmap_compose. apply list_fmap_ext. intros ? k _. cbn.
    unfold nth_byte, pop. cbn. rewrite !u32_mod_pipe. do 2 f_equal.
    rewrite <- (Zplus_mod_idemp_l (u32 _)), u32_mod_pipe, Zplus_mod_idemp_l. f_equal. lia.
Qed.

(** ** One stretch of a write or a read *)

Definition windex (r : wres) : nat := match r with WRet _ i => i | WSleep i => i end.

(** What a stretch of [pipewrite] that starts at index [i] with [rest] to write
    can end with; [q] is the pipe it leaves. *)
Inductive wrote (p : Z) (killed : bool) (n : Z) (ro : bool) (i len : nat) (q : pipe)
  : wres -> list event -> Prop :=
  | wr_done : wrote p killed n ro i len q (WRet n (i + len)) [EvWakeup (ChPipeRead p)]
  | wr_fail j : ro = false \/ killed = true -> count q = PIPESIZE -> (i <= j < i + len)%nat ->
      wrote p killed n ro i len q (WRet (-1) j) []
  | wr_sleep j : ro = true -> killed = false -> count q = PIPESIZE -> (i <= j < i + len)%nat ->
      wrote p killed n ro i len q (WSleep j) [EvWakeup (ChPipeRead p)].

(** The flags a stretch leaves alone. *)
Definition same_ends (q q' : pipe) : Prop := readopen q' = readopen q /\ writeopen q' = writeopen q.

Lemma release_pipe q : p_lock q = true ->
  release plock q = ([], Ret tt (mk_pipe false (p_data q) (nread q) (nwrite q) (readopen q) (writeopen q))).
Proof. intros Hl. unfold release. cbn. by rewrite Hl. Qed.

Lemma unlock_ok q : pipe_ok q -> pipe_ok (lset plock false q) /\ contents (lset plock false q) = contents q.
Proof. intros []. by split. Qed.

Lemma pipewrite_loop_spec p killed n rest i q :
  pipe_ok q -> p_lock q = true ->
  exists q' r ev, pipewrite_loop p killed n rest i q = (ev, Ret r q')
    /\ pipe_ok q' /\ p_lock q' = false /\ same_ends q q'
    /\ contents q' = contents q ++ take (windex r - i) rest
    /\ wrote p killed n (readopen q) i (length rest) q' r ev.
Proof.
  revert i q. induction rest as [|c rest IH]; intros i q Hok Hl; cbn [pipewrite_loop].
  { eexists _, _, _. split; [unfold bind, wakeup, emit; rewrite release_pipe by done; reflexivity|].
    destruct (unlock_ok q Hok) as [H1 H2]. split; [exact H1|]. do 2 (split; [done|]).
    split; [by rewrite take_nil, app_nil_r|]. rewrite <- (Nat.add_0_r i) at 2. constructor. }
  rewrite (bind_nil _ _ _ q q) by done. rewrite full_spec by done.
  destruct (Z.eqb_spec (count q) PIPESIZE) as [Hf|Hf].
  - destruct (unlock_ok q Hok) as [H1 H2].
    destruct (negb (readopen q) || killed) eqn:Hk.
    + eexists _, _, _. split; [unfold bind; rewrite release_pipe by done; reflexivity|].
      split; [exact H1|]. do 2 (split; [done|]).
      split; [cbn [windex]; by rewrite Nat.sub_diag, app_nil_r|].
      apply wr_fail; [|exact Hf|cbn; lia].
      apply orb_true_iff in Hk as [Hk|Hk]; [left; by apply negb_true_iff|by right].
    + eexists _, _, _. split; [unfold bind, wakeup, emit; rewrite release_pipe by done; reflexivity|].
      split; [exact H1|]. do 2 (split; [done|]).
      split; [cbn [windex]; by rewrite Nat.sub_diag, app_nil_r|].
      apply orb_false_iff in Hk as [Hk1 Hk2]. apply negb_false_iff in Hk1.
      apply wr_sleep; auto. cbn. lia.
  - pose proof (pk_count _ Hok). assert (count q < PIPESIZE) as Hlt by lia.
    rewrite (bind_nil _ _ _ tt (push c q)) by done.
    destruct (IH (S i) (push c q)) as (q' & r & ev & E & Hok' & Hl' & Hs & Hc & Hw);
      [by apply push_ok|done|].
    exists q', r, ev. split; [done|]. do 3 (split; [done|]).
    assert (i < windex r)%nat as Hi by (destruct Hw; cbn; lia). split.
    + rewrite Hc, push_contents by done. rewrite <- app_assoc. f_equal.
      by replace (windex r - i)%nat with (S (windex r - S i)) by lia.
    + cbn [length]. destruct Hw as [|j ? ? ?|j ? ? ? ?].
      * replace (S i + length rest)%nat with (i + S (length rest))%nat by lia. constructor.
      * apply wr_fail; auto. lia.
      * apply wr_sleep; auto. lia.
Qed.

Lemma pipewrite_spec p killed addr n i q :
  pipe_ok q -> p_lock q = false ->
  let rest := drop i (take (Z.to_nat n) addr) in
  exists q' r ev, pipewrite p killed addr n i q = (ev, Ret r q')
    /\ pipe_ok q' /\ p_lock q' = false /\ same_ends q q'
    /\ contents q' = contents q ++ take (windex r - i) rest
    /\ wrote p killed n (readopen q) i (length rest) q' r ev.
Proof.
  intros Hok Hl rest. unfold pipewrite.
  rewrite (bind_nil _ _ _ tt (lset plock true q)) by (unfold acquire; cbn; by rewrite Hl).
  apply (pipewrite_loop_spec p killed n rest i (lset plock true q)); [by destruct Hok|done].
Qed.

Lemma piperead_copy_spec n q :
  pipe_ok q ->
  exists q', piperead_copy n q = ([], Ret (take n (contents q)) q')
    /\ pipe_ok q' /\ p_lock q' = p_lock q /\ same_ends q q' /\ contents q' = drop n (contents q).
Proof.
  revert q. induction n as [|n IH]; intros q Hok; cbn [piperead_copy].
  { exists q. by rewrite take_0, drop_0. }
  rewrite (bind_nil _ _ _ q q) by done. rewrite empty_spec by done.
  pose proof (count_range q). destruct (Z.eqb_spec (count q) 0) as [E|E].
  - exists q. assert (contents q = []) as Ec by (unfold contents; by rewrite E).
    by rewrite Ec, take_nil, drop_nil.
  - rewrite (bind_nil _ _ _ tt (pop q)) by done.
    destruct (IH (pop q)) as (q' & Er & Hok' & Hl & Hs & Hc); [apply pop_ok; [done|lia]|].
    exists q'. rewrite (bind_nil _ _ _ _ _ Er). rewrite (pop_contents q) by (done || lia). done.
Qed.

Lemma piperead_spec p killed n q :
  pipe_ok q -> p_lock q = false ->
  exists q' r ev, piperead p killed n q = (ev, Ret r q')
    /\ pipe_ok q' /\ p_lock q' = false /\ same_ends q q'
    /\ ((r = RSleep /\ contents q = [] /\ contents q' = [] /\ writeopen q = true /\ ev = [])
        \/ (r = RRet (-1) [] /\ contents q' = contents q /\ killed = true /\ contents q = [] /\ ev = [])
        \/ (exists l, r = RRet (Z.of_nat (length l)) l /\ l = take (Z.to_nat n) (contents q)
            /\ contents q' = drop (Z.to_nat n) (contents q) /\ ev = [EvWakeup (ChPipeWrite p)]
            /\ (contents q <> [] \/ writeopen q = false))).
Proof.
  intros Hok Hl. unfold piperead.
  rewrite (bind_nil _ _ _ tt (lset plock true q)) by (unfold acquire; cbn; by rewrite Hl).
  rewrite (bind_nil _ _ _ (lset plock true q) (lset plock true q)) by done.
  set (q1 := lset plock true q). assert (pipe_ok q1) as Hok1 by (by destruct Hok).
  change (writeopen q1) with (writeopen q). rewrite empty_spec by done.
  change (count q1) with (count q). pose proof (count_range q).
  destruct (unlock_ok q1 Hok1) as [H1 H2].
  destruct (Z.eqb_spec (count q) 0) as [E|E]; cbn [andb].
  - assert (contents q = []) as Ec by (unfold contents; by rewrite E).
    destruct (writeopen q) eqn:Ew.
    + destruct killed; eexists _, _, _;
        (split; [unfold bind; rewrite release_pipe by done; reflexivity|]);
        (split; [exact H1|]); do 2 (split; [done|]).
      * right. left. done.
      * left. done.
    + destruct (piperead_copy_spec (Z.to_nat n) q1 Hok1) as (q2 & Er & Hok2 & Hl2 & Hs2 & Hc2).
      destruct (unlock_ok q2 Hok2) as [H3 H4].
      eexists _, _, _. split; [rewrite (bind_nil _ _ _ _ _ Er); unfold bind, wakeup, emit;
        rewrite release_pipe by (by rewrite Hl2); reflexivity|].
      split; [exact H3|]. split; [done|]. split; [exact Hs2|]. right. right. eexists.
      split; [reflexivity|]. split; [done|]. split; [exact Hc2|]. split; [done|by right].
  - destruct (piperead_copy_spec (Z.to_nat n) q1 Hok1) as (q2 & Er & Hok2 & Hl2 & Hs2 & Hc2).
    destruct (unlock_ok q2 Hok2) as [H3 H4].
    eexists _, _, _. split; [rewrite (bind_nil _ _ _ _ _ Er); unfold bind, wakeup, emit;
      rewrite release_pipe by (by rewrite Hl2); reflexivity|].
    split; [exact H3|]. split; [done|]. split; [exact Hs2|]. right. right. eexists.
    split; [reflexivity|]. split; [done|]. split; [exact Hc2|]. split; [done|left].
    rewrite (pop_contents q) by (done || lia). done.
Qed.
