(* ===== verification/PipeSys.v ===== *)
(** * Readers and writers of one pipe

    Any number of processes in [pipewrite] and [piperead] on the same pipe.  The
    stretches between [acquire] and [release] or [sleep] interleave freely; a
    wake-up makes every process asleep on its channel runnable again, and so does
    [kill], which also sets [proc->killed]. *)

From stdpp Require Import base numbers list gmap strings.
From S2P Require Import Prelude Mem Kalloc Pipe.

Open Scope Z_scope.

Inductive thread :=
  | TW (addr : list Z) (n : Z) (i : nat) (asleep : bool)     (* in pipewrite, at index i *)
  | TR (n : Z) (asleep : bool).                              (* in piperead *)

Definition t_asleep (t : thread) : bool := match t with TW _ _ _ b => b | TR _ b => b end.
Definition t_writer (t : thread) : bool := match t with TW _ _ _ _ => true | TR _ _ => false end.
Definition t_wake (t : thread) : thread :=
  match t with TW a n i _ => TW a n i false | TR n _ => TR n false end.
Definition t_chan (p : Z) (t : thread) : chan := if t_writer t then ChPipeWrite p else ChPipeRead p.

(** The threads after the wake-ups of a run. *)
Definition woken (p : Z) (ev : list event) (ts : gmap nat thread) : gmap nat thread :=
  (fun t => if decide (EvWakeup (t_chan p t) ∈ ev) then t_wake t else t) <$> ts.

(** [sent] is everything that was stored in the pipe, [received] everything
    that was handed to readers, [dead] the processes with [proc->killed] set. *)
Record psys := mk_psys {
  world : pworld;
  threads : gmap nat thread;
  sent : list Z;
  received : list Z;
  dead : gset nat
}.

Section System.
Variables (kend p : Z).

(** Readers may be killed at any time, writers if [wkill]. *)
Inductive pstep (wkill : bool) : psys -> psys -> Prop :=
  | ps_enter st q t th :
      pipes (world st) !! p = Some q -> threads st !! t = None -> t_asleep th = false ->
      (if t_writer th then writeopen q else readopen q) = true ->
      (forall a n i b, th = TW a n i b -> i = 0%nat) ->
      (t_writer th = true -> t ∈ dead st -> wkill = true) ->
      pstep wkill st (mk_psys (world st) (<[t := th]> (threads st)) (sent st) (received st) (dead st))
  | ps_write st w' t addr n i r ev :
      threads st !! t = Some (TW addr n i false) ->
      on_pipe p (pipewrite p (bool_decide (t ∈ dead st)) addr n i) (world st) = (ev, Ret r w') ->
      pstep wkill st
        (mk_psys w'
           (match r with
            | WRet _ _ => delete t (woken p ev (threads st))
            | WSleep j => <[t := TW addr n j true]> (woken p ev (threads st))
            end)
           (sent st ++ take (windex r - i) (drop i (take (Z.to_nat n) addr)))
           (received st) (dead st))
  | ps_read st w' t n r ev :
      threads st !! t = Some (TR n false) ->
      on_pipe p (piperead p (bool_decide (t ∈ dead st)) n) (world st) = (ev, Ret r w') ->
      pstep wkill st
        (mk_psys w'
           (match r with
            | RRet _ _ => delete t (woken p ev (threads st))
            | RSleep => <[t := TR n true]> (woken p ev (threads st))
            end)
           (sent st)
           (received st ++ match r with RRet _ l => l | RSleep => [] end) (dead st))
  | ps_close st w' (writable : bool) q ev :
      pipes (world st) !! p = Some q ->
      (if writable then writeopen q else readopen q) = true ->
      (forall t th, threads st !! t = Some th -> t_writer th <> writable) ->
      pipeclose kend p writable (world st) = (ev, Ret tt w') ->
      pstep wkill st (mk_psys w' (woken p ev (threads st)) (sent st) (received st) (dead st))
  | ps_kill st t :                 (* also when the process is not in the pipe *)
      (forall th, threads st !! t = Some th -> t_writer th = true -> wkill = true) ->
      pstep wkill st (mk_psys (world st) (alter t_wake t (threads st)) (sent st) (received st) ({[t]} ∪ dead st)).

(** ** The queue *)

Record queue_inv (st : psys) (q : pipe) : Prop := {
  qi_ok : pipe_ok q;
  qi_unlocked : p_lock q = false;
  qi_fifo : sent st = received st ++ contents q;
  qi_ends : forall t th, threads st !! t = Some th ->
    (if t_writer th then writeopen q else readopen q) = true
}.

Definition fifo_inv (st : psys) : Prop :=
  match pipes (world st) !! p with
  | Some q => queue_inv st q
  | None => threads st = ∅ /\ received st `prefix_of` sent st
  end.

(** No process sleeps on a condition that does not hold. *)
Definition sleep_inv (st : psys) : Prop :=
  forall q t th, pipes (world st) !! p = Some q -> threads st !! t = Some th -> t_asleep th = true ->
    if t_writer th then full q = true /\ readopen q = true
    else empty q = true /\ writeopen q = true.

(** No writer was killed. *)
Definition writers_live (st : psys) : Prop :=
  forall t th, threads st !! t = Some th -> t_writer th = true -> t ∉ dead st.

Lemma on_pipe_inv {A} (m : M pipe A) w q e a w' :
  pipes w !! p = Some q -> on_pipe p m w = (e, Ret a w') ->
  exists q', m q = (e, Ret a q') /\ pipes w' = <[p := q']> (pipes w) /\ pages_of w' = pages_of w.
Proof.
  intros Hq. unfold on_pipe. rewrite Hq. destruct (m q) as [e1 [a1 q1| | | |]]; try done.
  intros [= <- <- <-]. by exists q1.
Qed.

Lemma on_pipe_none {A} (m : M pipe A) w e a w' :
  pipes w !! p = None -> on_pipe p m w <> (e, Ret a w').
Proof. intros Hq. unfold on_pipe. by rewrite Hq. Qed.

Lemma pipeclose_inv writable w q ev w' :
  pipes w !! p = Some q -> p_lock q = false -> pipeclose kend p writable w = (ev, Ret tt w') ->
  let q1 := if writable then set_writeopen false q else set_readopen false q in
  ev = [EvWakeup (if writable then ChPipeRead p else ChPipeWrite p)]
  /\ pipes w' !! p = (if negb (readopen q1) && negb (writeopen q1) then None else Some q1).
Proof.
  intros Hq Hl Hr q1. destruct w as [ps pm]. cbn in Hq. unfold pipeclose in Hr.
  set (ql := lset plock true q).
  rewrite (bind_nil _ _ _ tt (mk_pworld (<[p := ql]> ps) pm)) in Hr
    by (unfold on_pipe, acquire; cbn; by rewrite Hq, Hl).
  set (q2 := lset plock true q1).
  assert (H2 : forall k, bind (if writable then
       on_pipe p (modify (set_writeopen false)) ;; wakeup (ChPipeRead p)
     else on_pipe p (modify (set_readopen false)) ;; wakeup (ChPipeWrite p)) k
       (mk_pworld (<[p := ql]> ps) pm)
     = let '(e', r) := k tt (mk_pworld (<[p := q2]> ps) pm) in
       ([EvWakeup (if writable then ChPipeRead p else ChPipeWrite p)] ++ e', r : res pworld unit)).
  { intros k. destruct writable; unfold bind, on_pipe, modify, wakeup, emit; cbn;
      rewrite lookup_insert_eq, insert_insert_eq; done. }
  rewrite H2 in Hr. clear H2.
  rewrite (bind_nil _ _ _ q2 (mk_pworld (<[p := q2]> ps) pm)) in Hr
    by (unfold on_pipe; cbn; by rewrite lookup_insert_eq, insert_insert_eq).
  change (readopen q2) with (readopen q1) in Hr. change (writeopen q2) with (writeopen q1) in Hr.
  assert (Hq1 : lset plock false q2 = q1) by (unfold q2, q1; rewrite <- Hl; destruct writable, q; done).
  assert (Hrel : on_pipe p (release plock) (mk_pworld (<[p := q2]> ps) pm)
                 = ([], Ret tt (mk_pworld (<[p := q1]> ps) pm))).
  { unfold on_pipe, release. cbn [pipes]. rewrite lookup_insert_eq. cbn [lget plock p_lock q2 lset].
    rewrite insert_insert_eq. by rewrite <- Hq1. }
  destruct (negb (readopen q1) && negb (writeopen q1)).
  - rewrite (bind_nil _ _ _ _ _ Hrel) in Hr. unfold free_pipe in Hr.
    rewrite (bind_nil _ _ _ tt (mk_pworld (delete p (<[p := q1]> ps)) pm)) in Hr by done.
    unfold zoom in Hr. cbn in Hr.
    destruct (kfree kend p pm) as [e3 [[] pm'| | | |]] eqn:Hk; try done.
    assert (e3 = []) as -> by (pose proof (silent_kfree kend p pm) as Hs; by rewrite Hk in Hs).
    injection Hr as <- <-. cbn. split; [done|apply lookup_delete_eq].
  - rewrite Hrel in Hr. injection Hr as <- <-. cbn. split; [done|apply lookup_insert_eq].
Qed.

(** ** Invariance *)

Lemma woken_lookup ev ts t :
  woken p ev ts !! t = (fun th => if decide (EvWakeup (t_chan p th) ∈ ev) then t_wake th else th) <$> ts !! t.
Proof. apply lookup_fmap. Qed.

Lemma t_wake_writer th : t_writer (t_wake th) = t_writer th.
Proof. by destruct th. Qed.

(** A thread after the wake-ups is the same thread, awake or not. *)
Lemma woken_inv ev ts t th :
  woken p ev ts !! t = Some th ->
  exists th0, ts !! t = Some th0 /\ t_writer th0 = t_writer th
    /\ (t_asleep th = true -> t_asleep th0 = true /\ EvWakeup (t_chan p th) ∉ ev).
Proof.
  rewrite woken_lookup. intros Ht. destruct (ts !! t) as [th0|]; [|done]. cbn in Ht.
  injection Ht as <-. exists th0. split; [done|]. case_decide as Hd.
  - rewrite t_wake_writer. split; [done|]. by destruct th0.
  - done.
Qed.

Lemma kill_lookup t (ts : gmap nat thread) t' th :
  alter t_wake t ts !! t' = Some th ->
  exists th0, ts !! t' = Some th0 /\ t_writer th0 = t_writer th /\ (t_asleep th = true -> th0 = th).
Proof using Type.
  intros [[<- (th0 & Ht & ->)]|[_ Ht]]%lookup_alter_Some; [|by exists th].
  exists th0. split; [done|]. split; [by rewrite t_wake_writer|]. by destruct th0.
Qed.

Lemma woken_empty ev ts : woken p ev ts = ∅ <-> ts = ∅.
Proof. apply fmap_empty_iff. Qed.

(** The threads after a stretch of thread [t]: the others, and possibly [t]. *)
Lemma after_inv ev ts t (o : option thread) t' th :
  (match o with Some x => <[t := x]> (woken p ev ts) | None => delete t (woken p ev ts) end) !! t' = Some th ->
  (t' = t /\ o = Some th)
  \/ (t' <> t /\ exists th0, ts !! t' = Some th0 /\ t_writer th0 = t_writer th
      /\ (t_asleep th = true -> t_asleep th0 = true /\ EvWakeup (t_chan p th) ∉ ev)).
Proof.
  intros Ht. destruct (decide (t' = t)) as [->|Hne].
  - left. split; [done|]. destruct o; [by rewrite lookup_insert_eq in Ht|by rewrite lookup_delete_eq in Ht].
  - right. split; [done|]. apply (woken_inv ev). destruct o.
    + by rewrite lookup_insert_ne in Ht.
    + by rewrite lookup_delete_ne in Ht.
Qed.

Definition w_after (addr : list Z) (n : Z) (r : wres) : option thread :=
  match r with WRet _ _ => None | WSleep j => Some (TW addr n j true) end.
Definition r_after (n : Z) (r : rres) : option thread :=
  match r with RRet _ _ => None | RSleep => Some (TR n true) end.

Lemma fifo_step wkill st st' : pstep wkill st st' -> fifo_inv st -> fifo_inv st'.
Proof.
  unfold fifo_inv. intros Hst Hinv. destruct Hst as
    [st q t th Hq Ht Ha He Hi Hd|st w' t addr n i r ev Ht Hr|st w' t n r ev Ht Hr
    |st w' wr q ev Hq Ho Hno Hr|st t Hk]; cbn [world threads sent received].
  - rewrite Hq in *. destruct Hinv as [H1 H2 H3 H4]. constructor; auto. cbn.
    intros t' th' Hl. destruct (decide (t' = t)) as [->|Hne].
    + rewrite lookup_insert_eq in Hl. by injection Hl as <-.
    + rewrite lookup_insert_ne in Hl by done. eauto.
  - destruct (pipes (world st) !! p) as [q|] eqn:Hq; [|by apply on_pipe_none in Hr].
    destruct Hinv as [H1 H2 H3 H4].
    destruct (on_pipe_inv _ _ _ _ _ _ Hq Hr) as (q' & Hm & Hp & _).
    destruct (pipewrite_spec p (bool_decide (t ∈ dead st)) addr n i q H1 H2) as (q1 & r1 & ev1 & Hm1 & Hok & Hl & [E1 E2] & Hc & _).
    rewrite Hm in Hm1. injection Hm1 as <- <- <-. rewrite Hp, lookup_insert_eq.
    constructor; auto; cbn.
    + by rewrite H3, Hc, app_assoc.
    + intros t' th' Hl'. rewrite E1, E2.
      destruct (after_inv ev (threads st) t (w_after addr n r) t' th') as [[-> Ho]|(_ & th0 & Ht0 & Hw & _)];
        [by destruct r| |].
      * destruct r; [done|]. injection Ho as <-. exact (H4 _ _ Ht).
      * rewrite <- Hw. eauto.
  - destruct (pipes (world st) !! p) as [q|] eqn:Hq; [|by apply on_pipe_none in Hr].
    destruct Hinv as [H1 H2 H3 H4].
    destruct (on_pipe_inv _ _ _ _ _ _ Hq Hr) as (q' & Hm & Hp & _).
    destruct (piperead_spec p (bool_decide (t ∈ dead st)) n q H1 H2) as (q1 & r1 & ev1 & Hm1 & Hok & Hl & [E1 E2] & Hc).
    rewrite Hm in Hm1. injection Hm1 as <- <- <-. rewrite Hp, lookup_insert_eq.
    constructor; auto; cbn.
    + rewrite H3, <- app_assoc. f_equal.
      destruct Hc as [(-> & -> & -> & _)|[(-> & -> & _)|(l & -> & -> & -> & _)]];
        [done|done|by rewrite take_drop].
    + intros t' th' Hl'. rewrite E1, E2.
      destruct (after_inv ev (threads st) t (r_after n r) t' th') as [[-> Ho]|(_ & th0 & Ht0 & Hw & _)];
        [by destruct r| |].
      * destruct r; [done|]. injection Ho as <-. exact (H4 _ _ Ht).
      * rewrite <- Hw. eauto.
  - rewrite Hq in *. destruct Hinv as [H1 H2 H3 H4].
    destruct (pipeclose_inv wr _ _ _ _ Hq H2 Hr) as [-> Hp]. rewrite Hp.
    set (q1 := if wr then set_writeopen false q else set_readopen false q) in *.
    assert (forall t th, threads st !! t = Some th ->
      (if t_writer th then writeopen q1 else readopen q1) = true) as Hends.
    { intros t th Hth. specialize (Hno _ _ Hth). specialize (H4 _ _ Hth).
      unfold q1. destruct wr, (t_writer th); done. }
    destruct (negb (readopen q1) && negb (writeopen q1)) eqn:Hboth.
    + rewrite woken_empty. rewrite H3. split; [|by eexists].
      apply map_empty. intros t. destruct (threads st !! t) as [th|] eqn:Hth; [|done].
      specialize (Hends _ _ Hth). apply andb_true_iff in Hboth as [B1 B2].
      rewrite negb_true_iff in B1, B2. destruct (t_writer th); congruence.
    + constructor; cbn; auto.
      * unfold q1. destruct wr; by destruct H1.
      * unfold q1. by destruct wr.
      * rewrite H3. unfold q1. by destruct wr.
      * intros t th Hth. apply woken_inv in Hth as (th0 & Hth & <- & _). eauto.
  - destruct (pipes (world st) !! p) as [q|]; [|destruct Hinv as [-> ?]; by rewrite alter_empty].
    destruct Hinv as [H1 H2 H3 H4]. constructor; auto. cbn. intros t' th (th0 & Ht0 & <- & _)%kill_lookup. eauto.
Qed.

(** ** No lost wake-ups *)

Lemma full_not_empty q : pipe_ok q -> full q = true -> empty q = false.
Proof.
  intros Hok. rewrite full_spec, empty_spec by done. unfold PIPESIZE.
  destruct (Z.eqb_spec (count q) 512) as [->|]; done.
Qed.

Lemma contents_nil_empty q : pipe_ok q -> contents q = [] -> empty q = true.
Proof.
  intros Hok Hc. rewrite empty_spec by done. apply (f_equal length) in Hc. unfold contents in Hc.
  rewrite length_fmap, length_seq in Hc. cbn in Hc. pose proof (count_range q).
  apply Z.eqb_eq. lia.
Qed.

Lemma sleep_write_step st w' t addr n i r ev :
  fifo_inv st -> sleep_inv st -> threads st !! t = Some (TW addr n i false) ->
  on_pipe p (pipewrite p false addr n i) (world st) = (ev, Ret r w') ->
  sleep_inv (mk_psys w' (match r with
            | WRet _ _ => delete t (woken p ev (threads st))
            | WSleep j => <[t := TW addr n j true]> (woken p ev (threads st))
            end) (sent st ++ take (windex r - i) (drop i (take (Z.to_nat n) addr))) (received st) (dead st)).
Proof.
  unfold fifo_inv. intros Hf Hs Ht Hr.
  destruct (pipes (world st) !! p) as [q|] eqn:Hq; [|by apply on_pipe_none in Hr].
  destruct Hf as [H1 H2 H3 H4].
  destruct (on_pipe_inv _ _ _ _ _ _ Hq Hr) as (q' & Hm & Hp & _).
  destruct (pipewrite_spec p false addr n i q H1 H2)
    as (q1 & r1 & ev1 & Hm1 & Hok & Hl & [E1 E2] & Hc & Hw).
  rewrite Hm in Hm1. injection Hm1 as <- <- <-.
  intros q2 t' th Hq2 Hth Has. cbn in Hq2, Hth. rewrite Hp, lookup_insert_eq in Hq2. injection Hq2 as <-.
  assert (Hfull : forall j, r = WSleep j -> full q' = true /\ readopen q' = true).
  { intros j ->. inversion Hw; subst. rewrite full_spec, E1 by done. split; [by apply Z.eqb_eq|congruence]. }
  destruct (after_inv ev (threads st) t (w_after addr n r) t' th)
    as [[-> Ho]|(_ & th0 & Ht0 & Hwr & Hslp)]; [by destruct r| |].
  - destruct r as [|j]; [done|]. injection Ho as <-. by apply (Hfull j).
  - destruct (Hslp Has) as [Has0 Hnot]. specialize (Hs _ _ _ Hq Ht0 Has0).
    rewrite Hwr in Hs. unfold t_chan in Hnot. destruct (t_writer th).
    + destruct Hs as [Hfl Hro]. rewrite E1. split; [|done].
      (* a full pipe stays full: nothing can have been written *)
      destruct Hw as [|j Hk Hcnt Hj|j ? ? Hcnt Hj]; try (rewrite full_spec by done; by apply Z.eqb_eq).
      rewrite full_spec in * by done. apply Z.eqb_eq in Hfl. apply Z.eqb_eq.
      pose proof (pk_count _ Hok) as Hle.
      apply (f_equal length) in Hc. rewrite length_app in Hc. unfold contents in Hc.
      rewrite !length_fmap, !length_seq in Hc. pose proof (count_range q'). lia.
    + (* a sleeping reader would have been woken *)
      destruct Hw as [|j [Hk|Hk] ? ?|j ? ? ? ?]; [set_solver| |done|set_solver].
      exfalso. assert (writeopen q = true) as _ by (exact (H4 _ _ Ht)).
      specialize (H4 _ _ Ht0). rewrite Hwr in H4. congruence.
Qed.

Lemma sleep_read_step st w' t n killed r ev :
  fifo_inv st -> sleep_inv st -> threads st !! t = Some (TR n false) ->
  on_pipe p (piperead p killed n) (world st) = (ev, Ret r w') ->
  sleep_inv (mk_psys w' (match r with
            | RRet _ _ => delete t (woken p ev (threads st))
            | RSleep => <[t := TR n true]> (woken p ev (threads st))
            end) (sent st) (received st ++ match r with RRet _ l => l | RSleep => [] end) (dead st)).
Proof.
  unfold fifo_inv. intros Hf Hs Ht Hr.
  destruct (pipes (world st) !! p) as [q|] eqn:Hq; [|by apply on_pipe_none in Hr].
  destruct Hf as [H1 H2 H3 H4].
  destruct (on_pipe_inv _ _ _ _ _ _ Hq Hr) as (q' & Hm & Hp & _).
  destruct (piperead_spec p killed n q H1 H2) as (q1 & r1 & ev1 & Hm1 & Hok & Hl & [E1 E2] & Hc).
  rewrite Hm in Hm1. injection Hm1 as <- <- <-.
  intros q2 t' th Hq2 Hth Has. cbn in Hq2, Hth. rewrite Hp, lookup_insert_eq in Hq2. injection Hq2 as <-.
  destruct (after_inv ev (threads st) t (r_after n r) t' th)
    as [[-> Ho]|(_ & th0 & Ht0 & Hwr & Hslp)]; [by destruct r| |].
  - destruct r as [|]; [done|]. injection Ho as <-. cbn.
    destruct Hc as [(_ & _ & Hc & Hwo & _)|[(? & _)|(l & ? & _)]]; [|done|done].
    rewrite E2. split; [by apply contents_nil_empty|done].
  - destruct (Hslp Has) as [Has0 Hnot]. specialize (Hs _ _ _ Hq Ht0 Has0).
    rewrite Hwr in Hs. unfold t_chan in Hnot. destruct (t_writer th).
    + destruct Hs as [Hfl _]. apply full_not_empty in Hfl; [|done].
      destruct Hc as [(_ & Hc & _)|[(_ & _ & _ & Hc & _)|(l & _ & _ & _ & -> & _)]]; [| |set_solver];
        (apply contents_nil_empty in Hc; [congruence|done]).
    + destruct Hs as [Hemp Hwo]. rewrite E2. split; [|done].
      assert (contents q = []) as Hnil.
      { rewrite empty_spec in Hemp by done. apply Z.eqb_eq in Hemp. unfold contents. by rewrite Hemp. }
      apply contents_nil_empty; [done|].
      destruct Hc as [(_ & _ & Hc & _)|[(_ & Hc & _)|(l & _ & _ & Hc & _)]]; [done|congruence|].
      by rewrite Hc, Hnil, drop_nil.
Qed.

Lemma sleep_close_step st w' (wr : bool) q ev :
  fifo_inv st -> sleep_inv st -> pipes (world st) !! p = Some q ->
  (forall t th, threads st !! t = Some th -> t_writer th <> wr) ->
  pipeclose kend p wr (world st) = (ev, Ret tt w') ->
  sleep_inv (mk_psys w' (woken p ev (threads st)) (sent st) (received st) (dead st)).
Proof.
  unfold fifo_inv. intros Hf Hs Hq Hno Hr. rewrite Hq in Hf. destruct Hf as [H1 H2 H3 H4].
  destruct (pipeclose_inv wr _ _ _ _ Hq H2 Hr) as [-> Hp].
  intros q2 t th Hq2 Hth Has. cbn in Hq2, Hth. exfalso.
  apply woken_inv in Hth as (th0 & Hth & Hw & Hslp). destruct (Hslp Has) as [_ Hnot].
  specialize (Hno _ _ Hth). unfold t_chan in Hnot. rewrite <- Hw in Hnot.
  destruct (t_writer th0), wr; try done; set_solver.
Qed.

Lemma live_step st st' : pstep false st st' -> writers_live st -> writers_live st'.
Proof.
  intros Hst Hl. destruct Hst as
    [st q t th Hq Ht Ha He Hi Hd|st w' t addr n i r ev Ht Hr|st w' t n r ev Ht Hr
    |st w' wr q ev Hq Ho Hno Hr|st t Hk]; intros t' th' Hth Hw; cbn [threads dead] in *.
  - destruct (decide (t' = t)) as [->|Hne].
    + rewrite lookup_insert_eq in Hth. injection Hth as <-. intros Hin. by specialize (Hd Hw Hin).
    + rewrite lookup_insert_ne in Hth by done. by apply (Hl t' th').
  - destruct (after_inv ev (threads st) t (w_after addr n r) t' th') as [[-> _]|(_ & th0 & Ht0 & E & _)]; [by destruct r| |].
    + by apply (Hl t _ Ht).
    + apply (Hl _ _ Ht0). by rewrite E.
  - destruct (after_inv ev (threads st) t (r_after n r) t' th') as [[-> Ho]|(_ & th0 & Ht0 & E & _)]; [by destruct r| |].
    + destruct r; [done|]. by injection Ho as <-.
    + apply (Hl _ _ Ht0). by rewrite E.
  - apply woken_inv in Hth as (th0 & Ht0 & E & _). apply (Hl _ _ Ht0). by rewrite E.
  - apply kill_lookup in Hth as (th0 & Ht0 & E & _). rewrite <- E in Hw. apply not_elem_of_union. split; [|by apply (Hl _ _ Ht0)].
    rewrite elem_of_singleton. intros ->. by specialize (Hk _ Ht0 Hw).
Qed.

Lemma sleep_step st st' : pstep false st st' -> fifo_inv st -> writers_live st -> sleep_inv st -> sleep_inv st'.
Proof.
  intros Hst Hf Hl Hs. destruct Hst as
    [st q t th Hq Ht Ha He Hi Hd|st w' t addr n i r ev Ht Hr|st w' t n r ev Ht Hr
    |st w' wr q ev Hq Ho Hno Hr|st t Hk].
  - intros q' t' th' Hq' Hth Has. cbn in Hq', Hth. destruct (decide (t' = t)) as [->|Hne].
    + rewrite lookup_insert_eq in Hth. injection Hth as <-. congruence.
    + rewrite lookup_insert_ne in Hth by done. exact (Hs _ _ _ Hq' Hth Has).
  - rewrite bool_decide_eq_false_2 in Hr by (by apply (Hl _ _ Ht)). by apply sleep_write_step.
  - by apply (sleep_read_step st w' t n (bool_decide (t ∈ dead st))).
  - by apply (sleep_close_step st w' wr q ev).
  - intros q' t' th' Hq' Hth Has. cbn in Hq', Hth. apply kill_lookup in Hth as (th0 & Ht0 & _ & E). rewrite (E Has) in Ht0.
    exact (Hs _ _ _ Hq' Ht0 Has).
Qed.

End System.

(** ** The claims *)

(** A pipe as [pipealloc] leaves it, with nobody using it yet. *)
Definition new_pipe (d : list Z) : pipe := mk_pipe false d 0 0 true true.
Definition pipe_start (p : Z) (d : list Z) (m : pmem) : psys :=
  mk_psys (mk_pworld {[p := new_pipe d]} m) ∅ [] [] ∅.

Lemma start_inv p d m :
  length d = Z.to_nat PIPESIZE -> fifo_inv p (pipe_start p d m) /\ sleep_inv p (pipe_start p d m).
Proof.
  intros Hd. split.
  - unfold fifo_inv. cbn. rewrite lookup_singleton_eq. by constructor.
  - intros q t th _ Ht. cbn in Ht. by rewrite lookup_empty in Ht.
Qed.

Lemma reachable_fifo kend p d m st wkill :
  length d = Z.to_nat PIPESIZE -> rtc (pstep kend p wkill) (pipe_start p d m) st -> fifo_inv p st.
Proof.
  intros Hd Hrtc. destruct (start_inv p d m Hd) as [H0 _]. revert H0.
  induction Hrtc as [|st st1 st2 H1 _ IH]; [done|]. intros H0. apply IH. by eapply fifo_step.
Qed.

Lemma contents_length q : Z.of_nat (length (contents q)) = count q.
Proof. unfold contents. rewrite length_fmap, length_seq. pose proof (count_range q). lia. Qed.

(** A killed writer of more than [PIPESIZE] bytes, from the empty pipe. *)
Lemma killed_write p n q q' addr r ev :
  pipe_ok q -> pipe_ok q' -> empty q = true -> PIPESIZE < n <= Z.of_nat (length addr) ->
  contents q' = contents q ++ take (windex r - 0) (drop 0 (take (Z.to_nat n) addr)) ->
  wrote p true n (readopen q) 0 (length (drop 0 (take (Z.to_nat n) addr))) q' r ev ->
  r = WRet (-1) (Z.to_nat PIPESIZE) /\ ev = [] /\ count q' = PIPESIZE.
Proof.
  intros Hok Hok' He Hn Hc Hw. rewrite empty_spec in He by done. apply Z.eqb_eq in He.
  pose proof (pk_count _ Hok') as Hle. apply (f_equal (fun l => Z.of_nat (length l))) in Hc.
  rewrite length_app, Nat2Z.inj_add, !contents_length, He, length_take, drop_0, length_take in Hc.
  rewrite drop_0, length_take in Hw. destruct Hw as [|j _ Hcnt Hj|j ? ? ? ?]; cbn [windex] in Hc; [lia| |done].
  split; [|done]. do 2 f_equal. lia.
Qed.

Lemma no_writer_killed kend p d m st :
  length d = Z.to_nat PIPESIZE -> rtc (pstep kend p false) (pipe_start p d m) st -> fifo_inv p st /\ sleep_inv p st.
Proof.
  intros Hd Hrtc. split; [by apply (reachable_fifo kend p d m st false)|]. destruct (start_inv p d m Hd) as [H0 H1].
  assert (writers_live (pipe_start p d m)) as H2 by (intros t th Ht; cbn in Ht; by rewrite lookup_empty in Ht).
  revert H0 H1 H2. induction Hrtc as [|st st1 st2 H1 _ IH]; [done|]. intros H2 H3 H4.
  apply IH; [by eapply fifo_step|by eapply sleep_step|by eapply live_step].
Qed.

(** C28: a pipe is a bounded FIFO queue.  However any number of writers and
    readers interleave, block, are killed, and close their ends, what readers
    received is a prefix of what writers stored, in order and without loss or
    duplication; the rest is in the pipe, never more than [PIPESIZE] bytes. *)
Theorem pipe_fifo kend p d m st :
  length d = Z.to_nat PIPESIZE -> rtc (pstep kend p true) (pipe_start p d m) st ->
  received st `prefix_of` sent st
  /\ (forall q, pipes (world st) !! p = Some q ->
        sent st = received st ++ contents q /\ Z.of_nat (length (contents q)) <= PIPESIZE).
Proof.
  intros Hd Hrtc. pose proof (reachable_fifo kend p d m st true Hd Hrtc) as Hinv. unfold fifo_inv in Hinv. destruct (pipes (world st) !! p) as [q|].
  - destruct Hinv as [H1 _ H3 _]. split; [by eexists|]. intros q' [= <-]. split; [done|].
    unfold contents. rewrite length_fmap, length_seq. pose proof (pk_count _ H1).
    pose proof (count_range q). lia.
  - by destruct Hinv.
Qed.

Definition some_data : list Z := replicate 512 0.
Definition some_pages : pmem := mk_pmem (fun _ => 0) (mk_kmem false true 0).

(** A writer of two bytes has come and gone. *)
Lemma pipe_fifo_witness :
  exists q, [] `prefix_of` [65; 66]
    /\ [65; 66] = [] ++ contents q /\ Z.of_nat (length (contents q)) <= PIPESIZE.
Proof.
  set (th := TW [65; 66] 2 0 false).
  set (s1 := mk_psys (mk_pworld {[0x80400000 := new_pipe some_data]} some_pages) {[0%nat := th]} [] [] ∅).
  assert (exists w', on_pipe 0x80400000 (pipewrite 0x80400000 false [65; 66] 2 0) (world s1)
    = ([EvWakeup (ChPipeRead 0x80400000)], Ret (WRet 2 2) w')
    /\ exists q, pipes w' !! 0x80400000 = Some q) as (w' & Hr & q & Hq).
  { eexists. split; [reflexivity|]. eexists. reflexivity. }
  exists q. set (s2 := mk_psys w' (delete 0%nat (woken 0x80400000 [EvWakeup (ChPipeRead 0x80400000)] (threads s1))) [65; 66] [] ∅).
  destruct (pipe_fifo 0x80100000 0x80400000 some_data some_pages s2) as [H1 H2].
  - reflexivity.
  - eapply (rtc_l _ _ s1).
    + assert (forall a n i b, th = TW a n i b -> i = 0%nat) as Hi
        by (intros a n i b E; injection E as _ _ <- _; reflexivity).
      exact (ps_enter 0x80100000 0x80400000 true (pipe_start 0x80400000 some_data some_pages)
               (new_pipe some_data) 0%nat th eq_refl eq_refl eq_refl eq_refl Hi ltac:(done)).
    + apply rtc_once.
      exact (ps_write 0x80100000 0x80400000 true s1 w' 0%nat [65; 66] 2 0%nat (WRet 2 2) _ eq_refl Hr).
  - split; [exact H1|]. exact (H2 q Hq).
Defined.

(** C29: no wake-up is lost as long as no writer is killed; readers may be killed at
    any time.  A sleeping reader always finds the pipe empty with the write end open, a
    sleeping writer always finds it full with the read end open; so readers and
    writers are never asleep at the same time. *)
Theorem pipe_no_lost_wakeup kend p d m st q :
  length d = Z.to_nat PIPESIZE -> rtc (pstep kend p false) (pipe_start p d m) st ->
  pipes (world st) !! p = Some q ->
  (forall t n, threads st !! t = Some (TR n true) -> empty q = true /\ writeopen q = true)
  /\ (forall t a n i, threads st !! t = Some (TW a n i true) -> full q = true /\ readopen q = true)
  /\ (forall t t' n a n' i, threads st !! t = Some (TR n true) ->
        threads st !! t' <> Some (TW a n' i true)).
Proof.
  intros Hd Hrtc Hq. destruct (no_writer_killed kend p d m st Hd Hrtc) as [Hf Hs].
  assert (forall t n, threads st !! t = Some (TR n true) -> empty q = true /\ writeopen q = true) as HR
    by (intros t n Ht; exact (Hs _ _ _ Hq Ht eq_refl)).
  assert (forall t a n i, threads st !! t = Some (TW a n i true) -> full q = true /\ readopen q = true) as HW
    by (intros t a n i Ht; exact (Hs _ _ _ Hq Ht eq_refl)).
  split; [done|]. split; [done|]. intros t t' n a n' i Ht Ht'.
  destruct (HR _ _ Ht) as [He _]. destruct (HW _ _ _ _ Ht') as [Hfl _].
  unfold fifo_inv in Hf. rewrite Hq in Hf. apply full_not_empty in Hfl; [congruence|apply Hf].
Qed.

(** A reader that found the pipe empty and went to sleep. *)
Definition sleepy : psys :=
  mk_psys (world (pipe_start 0x80400000 some_data some_pages)) {[0%nat := TR 1 true]} [] [] ∅.

Lemma reader_sleeps k :
  rtc (pstep 0x80100000 0x80400000 k) (pipe_start 0x80400000 some_data some_pages) sleepy.
Proof.
  set (s0 := pipe_start 0x80400000 some_data some_pages).
  set (s1 := mk_psys (world s0) {[0%nat := TR 1 false]} [] [] ∅).
  eapply rtc_l; [|apply rtc_once].
  - exact (ps_enter 0x80100000 0x80400000 k s0 (new_pipe some_data) 0%nat (TR 1 false)
             eq_refl eq_refl eq_refl eq_refl ltac:(discriminate) ltac:(discriminate)).
  - exact (ps_read 0x80100000 0x80400000 k s1 (world s0) 0%nat 1 RSleep [] eq_refl eq_refl).
Qed.

Lemma pipe_no_lost_wakeup_witness :
  threads sleepy !! 0%nat = Some (TR 1 true)
  /\ empty (new_pipe some_data) = true /\ writeopen (new_pipe some_data) = true.
Proof.
  split; [reflexivity|].
  apply (proj1 (pipe_no_lost_wakeup 0x80100000 0x80400000 some_data some_pages sleepy (new_pipe some_data)
           eq_refl (reader_sleeps false) eq_refl) 0%nat 1).
  reflexivity.
Defined.

(** C30: a killed writer strands sleeping readers.  Take any state that the system
    reaches, with a reader [t'] asleep on the empty pipe and its write end open, and any
    process [t] that writes more than [PIPESIZE] bytes and is killed: [pipewrite] stores
    [PIPESIZE] bytes, returns -1 and wakes nobody up, and [t'] still sleeps although the
    pipe is full. *)
Theorem pipe_killed_writer_strands_reader kend p d m st q t t' nr addr n :
  length d = Z.to_nat PIPESIZE -> rtc (pstep kend p true) (pipe_start p d m) st ->
  pipes (world st) !! p = Some q -> empty q = true -> writeopen q = true ->
  threads st !! t' = Some (TR nr true) -> threads st !! t = None -> PIPESIZE < n <= Z.of_nat (length addr) ->
  exists st1 st2 q',
    rtc (pstep kend p true) st st1 /\ threads st1 !! t = Some (TW addr n 0 false) /\ t ∈ dead st1
    /\ on_pipe p (pipewrite p true addr n 0) (world st1) = ([], Ret (WRet (-1) (Z.to_nat PIPESIZE)) (world st2))
    /\ pstep kend p true st1 st2
    /\ pipes (world st2) !! p = Some q' /\ full q' = true /\ writeopen q' = true
    /\ contents q' = take (Z.to_nat PIPESIZE) addr
    /\ threads st2 !! t = None /\ threads st2 !! t' = Some (TR nr true).
Proof.
  intros Hd Hrtc Hq He Ho Ht' Ht Hn. pose proof (reachable_fifo kend p d m st true Hd Hrtc) as Hinv.
  unfold fifo_inv in Hinv. rewrite Hq in Hinv. destruct Hinv as [Hok Hlk _ _].
  set (th := TW addr n 0 false). assert (t' <> t) as Hne by congruence.
  set (st0 := mk_psys (world st) (<[t := th]> (threads st)) (sent st) (received st) (dead st)).
  set (st1 := mk_psys (world st) (alter t_wake t (<[t := th]> (threads st))) (sent st) (received st) ({[t]} ∪ dead st)).
  assert (threads st1 !! t = Some th) as Ht1 by (cbn; by rewrite lookup_alter_eq, lookup_insert_eq).
  assert (bool_decide (t ∈ dead st1) = true) as Hdead by (apply bool_decide_eq_true_2; cbn; set_solver).
  destruct (pipewrite_spec p true addr n 0 q Hok Hlk) as (q' & r & ev & Hr & Hok' & _ & [_ E2] & Hc & Hw).
  assert (r = WRet (-1) (Z.to_nat PIPESIZE) /\ ev = [] /\ count q' = PIPESIZE) as (-> & -> & Hcnt)
    by (by apply (killed_write p n q q' addr r ev)).
  set (w' := mk_pworld (<[p := q']> (pipes (world st))) (pages_of (world st))).
  assert (on_pipe p (pipewrite p true addr n 0) (world st1) = ([], Ret (WRet (-1) (Z.to_nat PIPESIZE)) w')) as Hrun
    by (unfold on_pipe; cbn [st1 world]; by rewrite Hq, Hr).
  exists st1, (mk_psys w' (delete t (woken p [] (threads st1)))
    (sent st1 ++ take (Z.to_nat PIPESIZE - 0) (drop 0 (take (Z.to_nat n) addr))) (received st1) (dead st1)), q'.
  split; [|split; [exact Ht1|split; [cbn; set_solver|split; [exact Hrun|split]]]].
  - eapply rtc_l; [|apply rtc_once].
    + apply (ps_enter kend p true st q t th); auto. by intros a k i b [= _ _ <- _].
    + by apply (ps_kill kend p true st0 t).
  - apply (ps_write kend p true st1 w' t addr n 0 (WRet (-1) (Z.to_nat PIPESIZE)) [] Ht1). by rewrite Hdead.
  - cbn [world threads w' pipes]. rewrite lookup_insert_eq. split; [done|].
    split; [by rewrite full_spec, Hcnt by done|]. split; [congruence|]. split; [|split].
    + rewrite Hc. cbn [windex]. assert (contents q = []) as ->; [|].
      { unfold contents. rewrite empty_spec in He by done. apply Z.eqb_eq in He. by rewrite He. }
      cbn [app]. rewrite drop_0, Nat.sub_0_r, take_take, Nat.min_l by lia. done.
    + apply lookup_delete_eq.
    + rewrite lookup_delete_ne, woken_lookup by done. cbn [threads st1].
      rewrite lookup_alter_ne, lookup_insert_ne, Ht' by done. cbn. by rewrite decide_False by apply not_elem_of_nil.
Qed.

(** The reader of [sleepy], and a writer of 513 bytes. *)
Lemma pipe_killed_writer_strands_reader_witness :
  exists st1 st2, on_pipe 0x80400000 (pipewrite 0x80400000 true (replicate 513 7) 513 0) (world st1)
      = ([], Ret (WRet (-1) 512) (world st2)) /\ threads st2 !! 0%nat = Some (TR 1 true).
Proof.
  destruct (pipe_killed_writer_strands_reader 0x80100000 0x80400000 some_data some_pages sleepy (new_pipe some_data)
    1 0 1 (replicate 513 7) 513 eq_refl (reader_sleeps true)) as (st1 & st2 & q' & _ & _ & _ & Hr & _ & _ & _ & _ & _ & _ & Ht);
    [reflexivity..|rewrite length_replicate; unfold PIPESIZE; lia|].
  exists st1, st2. split; [exact Hr|exact Ht].
Defined.
