(* ===== verification/Spinlock.v ===== *)
(** * Spinlocks between CPUs: spinlock.c

    Any number of CPUs run [acquire] and [release] of one lock.  Each access to
    the lock is a step of its own, so that the unsynchronised reads of
    [holding] race with the other CPUs; [xchg] is one step. *)

From stdpp Require Import base numbers list gmap strings.
From S2P Require Import Prelude Mem Kalloc.

Open Scope Z_scope.

Definition FL_IF : Z := 0x200.

(** The part of [struct cpu] and of the hardware that locks use. *)
Record cpu := mk_cpu {
  eflags : Z;          (* the flags register *)
  ncli : Z;            (* depth of pushcli nesting *)
  intena : Z           (* were interrupts enabled before pushcli? *)
}.

Definition readeflags : M cpu Z := gets eflags.
Definition cli : M cpu unit :=
  modify (fun c => mk_cpu (clear_flag (eflags c) FL_IF) (ncli c) (intena c)).
Definition sti : M cpu unit :=
  modify (fun c => mk_cpu (set_flag (eflags c) FL_IF) (ncli c) (intena c)).

Definition pushcli : M cpu unit :=
  let* ef := readeflags in
  cli ;;
  let* c := get in
  modify (fun c => mk_cpu (eflags c) (ncli c + 1) (intena c)) ;;
  when (ncli c =? 0) (modify (fun c => mk_cpu (eflags c) (ncli c) (Z.land ef FL_IF))).

Definition popcli : M cpu unit :=
  let* ef := readeflags in
  if has ef FL_IF then panic "popcli - interruptible"
  else
    modify (fun c => mk_cpu (eflags c) (ncli c - 1) (intena c)) ;;
    let* c := get in
    if ncli c <? 0 then panic "popcli"
    else when ((ncli c =? 0) && negb (intena c =? 0)) sti.

(** [cpu] of a lock is the number of the CPU that holds it. *)
Record spinlock := mk_lk { locked : Z; lk_cpu : option nat; pcs : list Z }.

Definition initlock (lk : spinlock) : spinlock := mk_lk 0 None (pcs lk).

(** [getcallerpcs]: follow the %ebp chain from the frame at [v], ten calls at
    most. *)
Fixpoint pcs_from (m : mem) (ebp : Z) (n : nat) : list Z :=
  match n with
  | O => []
  | S n' =>
      if (ebp =? 0) || (ebp <? KERNBASE) || (ebp =? 0xffffffff) then replicate n 0
      else load32 m (u32 (ebp + 4)) :: pcs_from m (load32 m ebp) n'
  end.
Definition getcallerpcs (m : mem) (v : Z) : list Z := pcs_from m (u32 (v - 8)) 10.

(** ** CPUs in [acquire] and [release] *)

(** Where a CPU is: the next thing it does. *)
Inductive pc :=
  | Outside                (* not using the lock *)
  | AcqHolding1            (* acquire: holding reads lk->locked *)
  | AcqHolding2            (* acquire: holding reads lk->cpu *)
  | AcqXchg                (* acquire: xchg(&lk->locked, 1) *)
  | AcqCpu                 (* acquire: lk->cpu = cpu *)
  | AcqPcs                 (* acquire: getcallerpcs(&lk, lk->pcs) *)
  | Critical               (* between acquire and release *)
  | RelHolding1            (* release: holding reads lk->locked *)
  | RelHolding2            (* release: holding reads lk->cpu *)
  | RelPcs                 (* release: lk->pcs[0] = 0 *)
  | RelCpu                 (* release: lk->cpu = 0 *)
  | RelXchg                (* release: xchg(&lk->locked, 0) *)
  | RelPop                 (* release: popcli() *)
  | Panicked (msg : string).

Record machine := mk_machine {
  lk : spinlock;
  cpus : nat -> cpu;
  at_pc : nat -> pc
}.

Definition fset {A} (f : nat -> A) (i : nat) (v : A) : nat -> A :=
  fun k => if decide (k = i) then v else f k.

Definition goto (c : nat) (q : pc) (m : machine) : machine :=
  mk_machine (lk m) (cpus m) (fset (at_pc m) c q).
Definition on_lk (f : spinlock -> spinlock) (m : machine) : machine :=
  mk_machine (f (lk m)) (cpus m) (at_pc m).

(** Run CPU-local code, then go on at [q]. *)
Definition local (c : nat) (p : M cpu unit) (q : pc) (m : machine) : machine :=
  match (p (cpus m c)).2 with
  | Ret _ c' => goto c q (mk_machine (lk m) (fset (cpus m) c c') (at_pc m))
  | Panic msg => goto c (Panicked msg) m
  | _ => m
  end.

(** One step of CPU [c]; [stack] is what the %ebp chain of its caller gives. *)
Definition cpu_step (c : nat) (stack : list Z) (m : machine) : machine :=
  match at_pc m c with
  | Outside => local c pushcli AcqHolding1 m
  | AcqHolding1 => goto c (if locked (lk m) =? 0 then AcqXchg else AcqHolding2) m
  | AcqHolding2 =>
      goto c (if decide (lk_cpu (lk m) = Some c) then Panicked "acquire" else AcqXchg) m
  | AcqXchg =>
      goto c (if locked (lk m) =? 0 then AcqCpu else AcqXchg)
        (on_lk (fun l => mk_lk 1 (lk_cpu l) (pcs l)) m)
  | AcqCpu => goto c AcqPcs (on_lk (fun l => mk_lk (locked l) (Some c) (pcs l)) m)
  | AcqPcs => goto c Critical (on_lk (fun l => mk_lk (locked l) (lk_cpu l) stack) m)
  | Critical => goto c RelHolding1 m
  | RelHolding1 => goto c (if locked (lk m) =? 0 then Panicked "release" else RelHolding2) m
  | RelHolding2 =>
      goto c (if decide (lk_cpu (lk m) = Some c) then RelPcs else Panicked "release") m
  | RelPcs => goto c RelCpu (on_lk (fun l => mk_lk (locked l) (lk_cpu l) (<[0%nat := 0]> (pcs l))) m)
  | RelCpu => goto c RelXchg (on_lk (fun l => mk_lk (locked l) None (pcs l)) m)
  | RelXchg => goto c RelPop (on_lk (fun l => mk_lk 0 (lk_cpu l) (pcs l)) m)
  | RelPop => local c popcli Outside m
  | Panicked _ => m
  end.

Inductive machine_step : machine -> machine -> Prop :=
  | ms_step m c stack : machine_step m (cpu_step c stack m).

(** ** Invariant *)

(** The CPU owns the lock word; it has also written its name. *)
Definition owns (q : pc) : bool :=
  match q with
  | AcqCpu | AcqPcs | Critical | RelHolding1 | RelHolding2 | RelPcs | RelCpu | RelXchg => true
  | _ => false
  end.
Definition named (q : pc) : bool :=
  match q with
  | AcqPcs | Critical | RelHolding1 | RelHolding2 | RelPcs | RelCpu => true
  | _ => false
  end.
(** Between [pushcli] and [popcli]. *)
Definition pushed (q : pc) : bool := match q with Outside | Panicked _ => false | _ => true end.
Definition panicked (q : pc) : bool := match q with Panicked _ => true | _ => false end.

(** A CPU outside any lock may run with or without interrupts. *)
Definition idle_cpu (c : cpu) : Prop := ncli c = 0.
Definition busy_cpu (c : cpu) : Prop := ncli c = 1 /\ has (eflags c) FL_IF = false.

Record lock_inv (m : machine) : Prop := {
  kv_one : forall c d, owns (at_pc m c) = true -> owns (at_pc m d) = true -> c = d;
  kv_locked : locked (lk m) <> 0 <-> exists c, owns (at_pc m c) = true;
  kv_named : forall c, lk_cpu (lk m) = Some c <-> named (at_pc m c) = true;
  kv_cpu : forall c, if pushed (at_pc m c) then busy_cpu (cpus m c) else idle_cpu (cpus m c);
  kv_nopanic : forall c, panicked (at_pc m c) = false
}.

Lemma fset_eq {A} (f : nat -> A) i v : fset f i v i = v.
Proof. unfold fset. by rewrite decide_True. Qed.
Lemma fset_ne {A} (f : nat -> A) i v k : k <> i -> fset f i v k = f k.
Proof. intros. unfold fset. by rewrite decide_False. Qed.

Lemma has_clear f : has (clear_flag f FL_IF) FL_IF = false.
Proof.
  change FL_IF with (2 ^ 9). rewrite has_pow2, testbit_clear_flag by lia. done.
Qed.

Lemma pushcli_run c :
  pushcli c = ([], Ret tt (mk_cpu (clear_flag (eflags c) FL_IF) (ncli c + 1)
                             (if ncli c =? 0 then Z.land (eflags c) FL_IF else intena c))).
Proof.
  unfold pushcli, readeflags, cli, gets, get, modify, bind. cbn. by destruct (ncli c =? 0).
Qed.

Lemma popcli_run c :
  has (eflags c) FL_IF = false -> 0 < ncli c ->
  popcli c = ([], Ret tt (mk_cpu
     (if (ncli c =? 1) && negb (intena c =? 0) then set_flag (eflags c) FL_IF else eflags c)
     (ncli c - 1) (intena c))).
Proof.
  intros Hf Hn. unfold popcli, readeflags, gets, get, modify, bind. cbn -[has]. rewrite Hf. cbn.
  destruct (Z.ltb_spec (ncli c - 1) 0); [lia|].
  replace (ncli c - 1 =? 0) with (ncli c =? 1) by (zcase; done).
  by destruct ((ncli c =? 1) && negb (intena c =? 0)).
Qed.

(** CPU [c] moves to [q] and changes the lock to [lk']. *)
Lemma inv_move m lk' cpus' c q :
  lock_inv m ->
  (owns q = true -> owns (at_pc m c) = true \/ locked (lk m) = 0) ->
  (locked lk' <> 0 <-> owns q = true \/ exists d, d <> c /\ owns (at_pc m d) = true) ->
  (forall d, lk_cpu lk' = Some d <-> (if decide (d = c) then named q else named (at_pc m d)) = true) ->
  (forall d, d <> c -> cpus' d = cpus m d) ->
  (if pushed q then busy_cpu (cpus' c) else idle_cpu (cpus' c)) -> panicked q = false ->
  lock_inv (mk_machine lk' cpus' (fset (at_pc m) c q)).
Proof.
  intros [I1 I2 I3 I4 I5] Hown Hlk Hnm Hcpu Hc Hp.
  assert (Hex : forall d, d <> c -> owns (at_pc m d) = true -> owns q = true -> False).
  { intros d Hd Ho Hq. destruct (Hown Hq) as [Hoc|H0].
    - by apply Hd, I1.
    - apply I2 in H0; [done|]. by exists d. }
  constructor; cbn.
  - intros d1 d2. destruct (decide (d1 = c)) as [->|H1], (decide (d2 = c)) as [->|H2];
      rewrite ?fset_eq, ?fset_ne by done; intros Ho1 Ho2; try done.
    + exfalso. by apply (Hex d2).
    + exfalso. by apply (Hex d1).
    + by apply I1.
  - rewrite Hlk. split.
    + intros [Hq|(d & Hd & Ho)]; [exists c; by rewrite fset_eq|exists d; by rewrite fset_ne].
    + intros [d Ho]. destruct (decide (d = c)) as [->|Hd]; [left; by rewrite fset_eq in Ho|].
      right. exists d. by rewrite fset_ne in Ho.
  - intros d. rewrite Hnm. unfold fset. by case_decide.
  - intros d. destruct (decide (d = c)) as [->|Hd].
    + rewrite fset_eq. exact Hc.
    + rewrite fset_ne, Hcpu by done. apply I4.
  - intros d. unfold fset. by case_decide.
Qed.

Section Step.
Variables (m : machine) (c : nat).
Hypothesis I : lock_inv m.

Lemma locked_iff_other :
  owns (at_pc m c) = false ->
  (locked (lk m) <> 0 <-> exists d, d <> c /\ owns (at_pc m d) = true).
Proof.
  intros Hc. rewrite (kv_locked _ I). split; intros [d Hd].
  - exists d. split; [|done]. intros ->. congruence.
  - exists d. tauto.
Qed.

Lemma own_locked : owns (at_pc m c) = true -> locked (lk m) <> 0.
Proof. intros Ho. apply (kv_locked _ I). by exists c. Qed.

Lemma own_alone d : owns (at_pc m c) = true -> d <> c -> owns (at_pc m d) = true -> False.
Proof. intros Hc Hd Ho. by apply Hd, (kv_one _ I). Qed.

Lemma named_owns q : named q = true -> owns q = true.
Proof. by destruct q. Qed.

(** A step that keeps the lock and what the CPU is. *)
Lemma goto_same q :
  owns q = owns (at_pc m c) -> named q = named (at_pc m c) -> pushed q = pushed (at_pc m c) ->
  panicked q = false -> lock_inv (goto c q m).
Proof.
  intros Ho Hn Hp Hk. apply inv_move; auto.
  - rewrite Ho. by left.
  - rewrite (kv_locked _ I), Ho. split.
    + intros [d Hd]. destruct (decide (d = c)) as [->|]; [by left|right; eauto].
    + intros [Hd|(d & _ & Hd)]; eauto.
  - intros d. rewrite (kv_named _ I). case_decide; [subst; by rewrite Hn|done].
  - rewrite Hp. apply (kv_cpu _ I).
Qed.

End Step.

Lemma lock_inv_step m m' : machine_step m m' -> lock_inv m -> lock_inv m'.
Proof.
  intros [m0 c stack] I. clear m m'. rename m0 into m.
  pose proof (kv_cpu _ I c) as Hcpu. pose proof (kv_named _ I c) as Hnm.
  pose proof (locked_iff_other m c I) as Hoth. pose proof (own_locked m c I) as Hlk.
  assert (Hkeep : forall q, named q = named (at_pc m c) -> forall d,
    lk_cpu (lk m) = Some d <-> (if decide (d = c) then named q else named (at_pc m d)) = true).
  { intros q Hq d. rewrite (kv_named _ I). case_decide; [subst; by rewrite Hq|done]. }
  assert (Hstay : forall q, owns (at_pc m c) = true -> owns q = true ->
    locked (lk m) <> 0 <-> owns q = true \/ exists d, d <> c /\ owns (at_pc m d) = true).
  { intros q Ho Hq. split; [by left|]. intros _. by apply Hlk. }
  assert (Halone : forall d, owns (at_pc m c) = true -> d <> c -> named (at_pc m d) <> true).
  { intros d Ho Hd Hn. apply named_owns in Hn. by apply (own_alone m c I d). }
  unfold cpu_step, local. destruct (at_pc m c) eqn:Hat; cbn [owns named pushed] in *.
  - (* Outside *) rewrite pushcli_run. cbn [snd]. unfold goto. cbn [lk cpus at_pc].
    apply (inv_move m); [done|done| |by apply Hkeep| | |done].
    + rewrite Hoth by done. naive_solver.
    + intros d Hd. by apply fset_ne.
    + cbn. rewrite fset_eq. split; cbn; [unfold idle_cpu in Hcpu; lia|apply has_clear].
  - apply goto_same; rewrite ?Hat; try done; by destruct (locked (lk m) =? 0).
  - rewrite decide_False by (rewrite Hnm; done). by apply goto_same; rewrite ?Hat.
  - (* xchg(&lk->locked, 1) *) unfold goto. cbn [on_lk lk cpus at_pc].
    destruct (Z.eqb_spec (locked (lk m)) 0) as [H0|H0].
    + apply (inv_move m); [done|by right| |by apply Hkeep|done|done|done].
      cbn. split; [by left|done].
    + apply (inv_move m); [done|done| |by apply Hkeep|done|done|done].
      cbn. split; [|done]. intros _. right. by apply Hoth.
  - (* lk->cpu = cpu *) unfold goto. cbn [on_lk lk cpus at_pc].
    apply (inv_move m); [done|by rewrite Hat; left|by apply Hstay| |done|done|done].
    intros d. cbn. case_decide as Hd; [by subst|]. split; [congruence|].
    intros Hn. by destruct (Halone d).
  - unfold goto. cbn [on_lk lk cpus at_pc].
    by apply (inv_move m); [done|rewrite Hat; left|apply Hstay|apply Hkeep| | |].
  - by apply goto_same; rewrite ?Hat.
  - destruct (Z.eqb_spec (locked (lk m)) 0); [by destruct Hlk|]. by apply goto_same; rewrite ?Hat.
  - rewrite decide_True by (rewrite Hnm; done). by apply goto_same; rewrite ?Hat.
  - unfold goto. cbn [on_lk lk cpus at_pc].
    by apply (inv_move m); [done|rewrite Hat; left|apply Hstay|apply Hkeep| | |].
  - (* lk->cpu = 0 *) unfold goto. cbn [on_lk lk cpus at_pc].
    apply (inv_move m); [done|by rewrite Hat; left|by apply Hstay| |done|done|done].
    intros d. cbn. split; [done|]. case_decide as Hd; [done|]. intros Hn. by destruct (Halone d).
  - (* xchg(&lk->locked, 0) *) unfold goto. cbn [on_lk lk cpus at_pc].
    apply (inv_move m); [done|done| |by apply Hkeep|done|done|done].
    cbn. split; [done|]. intros [?|(d & Hd & Ho)]; [done|]. exfalso.
    by apply (own_alone m c I d); rewrite ?Hat.
  - (* popcli *) destruct Hcpu as [Hn Hf]. rewrite popcli_run by (done || lia). cbn [snd].
    unfold goto. cbn [lk cpus at_pc].
    apply (inv_move m); [done|done| |by apply Hkeep| | |done].
    + rewrite Hoth by done. naive_solver.
    + intros d Hd. by apply fset_ne.
    + cbn. rewrite fset_eq. unfold idle_cpu. cbn. lia.
  - pose proof (kv_nopanic _ I c) as Hp. by rewrite Hat in Hp.
Qed.

(** ** Nested [pushcli] *)

Fixpoint times {S} (n : nat) (m : M S unit) : M S unit :=
  match n with O => ret tt | Datatypes.S n' => m ;; times n' m end.

Lemma clear_set_flag f : has f FL_IF = true -> set_flag (clear_flag f FL_IF) FL_IF = f.
Proof.
  change FL_IF with (2 ^ 9). rewrite has_pow2 by lia. intros Hb. apply Z.bits_inj'. intros k Hk.
  rewrite testbit_set_flag, testbit_clear_flag by lia.
  destruct (Z.eqb_spec 9 k) as [<-|]; [by rewrite Hb|done].
Qed.

Lemma clear_clear_flag f : has f FL_IF = false -> clear_flag f FL_IF = f.
Proof.
  change FL_IF with (2 ^ 9). rewrite has_pow2 by lia. intros Hb. apply Z.bits_inj'. intros k Hk.
  rewrite testbit_clear_flag by lia. destruct (Z.eqb_spec 9 k) as [<-|]; [by rewrite Hb|done].
Qed.

Lemma has_land f : negb (Z.land f FL_IF =? 0) = has f FL_IF.
Proof. done. Qed.

(** With [k] pushes pending, [n] more. *)
Lemma pushcli_more n c :
  0 < ncli c -> has (eflags c) FL_IF = false ->
  times n pushcli c = ([], Ret tt (mk_cpu (eflags c) (ncli c + Z.of_nat n) (intena c))).
Proof.
  revert c. induction n as [|n IH]; intros c Hn Hf.
  { cbn. destruct c. cbn. by rewrite Z.add_0_r. }
  cbn [times]. rewrite (bind_nil _ _ _ _ _ (pushcli_run c)). rewrite clear_clear_flag by done.
  replace (ncli c =? 0) with false by (symmetry; apply Z.eqb_neq; lia).
  rewrite IH; cbn; [|lia|done]. do 3 f_equal. lia.
Qed.

Lemma popcli_more n c :
  has (eflags c) FL_IF = false -> Z.of_nat n < ncli c ->
  times n popcli c = ([], Ret tt (mk_cpu (eflags c) (ncli c - Z.of_nat n) (intena c))).
Proof.
  revert c. induction n as [|n IH]; intros c Hf Hn.
  { cbn. destruct c. cbn. by rewrite Z.sub_0_r. }
  cbn [times]. rewrite (bind_nil _ _ _ _ _ (popcli_run c Hf ltac:(lia))).
  replace (ncli c =? 1) with false by (symmetry; apply Z.eqb_neq; lia). cbn [andb].
  rewrite IH; cbn -[Z.of_nat]; [|done|lia]. do 3 f_equal. lia.
Qed.

Lemma times_snoc {S} n (m : M S unit) s s1 :
  times n m s = ([], Ret tt s1) -> times (Datatypes.S n) m s = m s1.
Proof.
  revert s. induction n as [|n IH]; intros s E; cbn [times] in *.
  - injection E as <-. unfold bind. destruct (m s) as [e [[] s2| | | |]]; cbn; rewrite ?app_nil_r; done.
  - apply bind_inv in E as (e1 & [] & s2 & e2 & E1 & E2 & Hnil).
    symmetry in Hnil. apply app_eq_nil in Hnil as [-> ->].
    rewrite (bind_nil _ _ _ _ _ E1). by apply IH.
Qed.

(** [pushcli] and [popcli] nest.  From a CPU with no push pending, [n]
    pushes turn interrupts off, [n] pops put the flags register back to what it
    was, no pop panics, and interrupts stay off until the last pop. *)
Theorem pushcli_popcli n c :
  ncli c = 0 -> (0 < n)%nat ->
  exists c1, times n pushcli c = ([], Ret tt c1) /\ has (eflags c1) FL_IF = false
    /\ (forall k, (k < n)%nat -> exists c2, times k popcli c1 = ([], Ret tt c2) /\ has (eflags c2) FL_IF = false)
    /\ exists c3, times n popcli c1 = ([], Ret tt c3) /\ eflags c3 = eflags c /\ ncli c3 = 0.
Proof.
  intros Hc Hn. destruct n as [|n]; [lia|].
  set (c0 := mk_cpu (clear_flag (eflags c) FL_IF) 1 (Z.land (eflags c) FL_IF)).
  set (c1 := mk_cpu (eflags c0) (1 + Z.of_nat n) (intena c0)).
  assert (has (eflags c1) FL_IF = false) as Hf by apply has_clear.
  exists c1. split; [|split; [done|split]].
  - cbn [times]. rewrite (bind_nil _ _ _ _ _ (pushcli_run c)), Hc. cbn [Z.eqb].
    apply (pushcli_more n c0); [done|apply has_clear].
  - intros k Hk. eexists. split; [apply popcli_more; [done|cbn; lia]|done].
  - eexists. split; [|split].
    + rewrite (times_snoc n popcli c1 (mk_cpu (eflags c1) 1 (intena c1))).
      * apply popcli_run; [done|cbn; lia].
      * rewrite popcli_more by (done || (cbn; lia)). do 3 f_equal. cbn. lia.
    + cbn. rewrite has_land. destruct (has (eflags c) FL_IF) eqn:E;
        [by apply clear_set_flag|by apply clear_clear_flag].
    + done.
Qed.
Lemma pushcli_popcli_witness :
  exists c1, times 2 pushcli (mk_cpu 0x202 0 0) = ([], Ret tt c1) /\ has (eflags c1) FL_IF = false.
Proof.
  destruct (pushcli_popcli 2 (mk_cpu 0x202 0 0)) as (c1 & H1 & H2 & _); [reflexivity|lia|].
  exists c1. split; [exact H1|exact H2].
Defined.

(** ** Mutual exclusion *)

(** All CPUs outside the lock, no push pending, the lock initialised. *)
Definition started (l : spinlock) (cs : nat -> cpu) : machine :=
  mk_machine (initlock l) cs (fun _ => Outside).

(** C31: a spinlock is mutually exclusive between any number of CPUs, with
    [holding] reading the lock unsynchronised.  In every reachable state at most
    one CPU is between [acquire] and [release], interrupts are off on it, and no
    CPU that acquires and releases in turn ever gets the [acquire], [release]
    or [popcli] panics. *)
Theorem spinlock_mutual_exclusion l cs m :
  (forall c, ncli (cs c) = 0) -> rtc machine_step (started l cs) m ->
  (forall c d, at_pc m c = Critical -> at_pc m d = Critical -> c = d)
  /\ (forall c, at_pc m c = Critical -> has (eflags (cpus m c)) FL_IF = false)
  /\ (forall c msg, at_pc m c <> Panicked msg).
Proof.
  intros Hcs Hrtc. assert (lock_inv m) as I.
  { assert (lock_inv (started l cs)) as H0.
    { constructor; cbn; try done. split; [done|]. by intros [c ?]. }
    revert H0. clear Hcs. induction Hrtc as [|m1 m2 m3 H1 _ IH]; [done|]. intros H0.
    by apply IH, (lock_inv_step m1). }
  split; [|split].
  - intros c d Hc Hd. apply (kv_one _ I); by rewrite ?Hc, ?Hd.
  - intros c Hc. pose proof (kv_cpu _ I c) as Hb. rewrite Hc in Hb. apply Hb.
  - intros c msg Hc. pose proof (kv_nopanic _ I c) as Hp. by rewrite Hc in Hp.
Qed.

(** CPU 0 has acquired the lock. *)
Definition acquired : machine :=
  Nat.iter 5 (cpu_step 0 []) (started (mk_lk 0 None []) (fun _ => mk_cpu 0x202 0 0)).

Lemma spinlock_mutual_exclusion_witness :
  at_pc acquired 0 = Critical /\ has (eflags (cpus acquired 0)) FL_IF = false.
Proof.
  split; [reflexivity|].
  apply (proj1 (proj2 (spinlock_mutual_exclusion (mk_lk 0 None []) (fun _ => mk_cpu 0x202 0 0) acquired
    (fun _ => eq_refl) ltac:(do 5 (eapply rtc_r; [|apply ms_step]); apply rtc_refl)))).
  reflexivity.
Defined.
