(* ===== verification/Fs.v ===== *)
(** * The file system: fs.c

    Blocks, inodes, file contents, directories and paths, over a disk with
    transactions ([TxDisk], which log.c over bio.c provides).  In-memory inodes
    are named by their index in [icache.inode].  A C string is the list of its
    bytes without the terminating 0. *)

From stdpp Require Import base numbers list gmap strings.
From S2P Require Import Prelude Bytes Mem Str Buf Log.

Open Scope Z_scope.

(** ** What fs.c asks of the layers below *)

Class TxDisk (S : Type) := {
  t_bread : Z -> Z -> M S nat;
  t_data : nat -> M S (list Z);
  t_set : nat -> list Z -> M S unit;
  t_log_write : nat -> M S unit;
  t_brelse : nat -> M S unit;
  t_begin : M S unit;
  t_end : M S unit
}.

#[export] Instance log_txdisk {S} `{BCache S} : TxDisk (logst S) := {
  t_bread := fun dev n => zoom lb (bread dev n);
  t_data := fun i => zoom lb (bdata i);
  t_set := fun i d => zoom lb (set_bdata i d);
  t_log_write := log_write;
  t_brelse := fun i => zoom lb (brelse i);
  t_begin := begin_op;
  t_end := end_op
}.

(** ** Data *)

Definition NINODE : nat := 50.
Definition NDEV : Z := 10.
Definition I_BUSY : Z := 1.
Definition I_VALID : Z := 2.
Definition T_DIR : Z := 1.
Definition T_FILE : Z := 2.
Definition T_DEV : Z := 3.

Record inode := mk_inode {
  i_dev : Z; i_inum : Z;
  i_ref : Z;
  i_flags : Z;
  i_type : Z; i_major : Z; i_minor : Z; i_nlink : Z;     (* copy of disk inode *)
  i_size : Z;
  i_addrs : list Z                                       (* NDIRECT+1 entries *)
}.

Definition set_iref (r : Z) (i : inode) : inode :=
  mk_inode (i_dev i) (i_inum i) r (i_flags i) (i_type i) (i_major i) (i_minor i) (i_nlink i)
    (i_size i) (i_addrs i).
Definition set_iflags (f : Z) (i : inode) : inode :=
  mk_inode (i_dev i) (i_inum i) (i_ref i) f (i_type i) (i_major i) (i_minor i) (i_nlink i)
    (i_size i) (i_addrs i).
Definition set_itype (t : Z) (i : inode) : inode :=
  mk_inode (i_dev i) (i_inum i) (i_ref i) (i_flags i) t (i_major i) (i_minor i) (i_nlink i)
    (i_size i) (i_addrs i).
Definition set_idevice (mj mn : Z) (i : inode) : inode :=
  mk_inode (i_dev i) (i_inum i) (i_ref i) (i_flags i) (i_type i) mj mn (i_nlink i)
    (i_size i) (i_addrs i).
Definition set_inlink (n : Z) (i : inode) : inode :=
  mk_inode (i_dev i) (i_inum i) (i_ref i) (i_flags i) (i_type i) (i_major i) (i_minor i) n
    (i_size i) (i_addrs i).
Definition set_isize (n : Z) (i : inode) : inode :=
  mk_inode (i_dev i) (i_inum i) (i_ref i) (i_flags i) (i_type i) (i_major i) (i_minor i) (i_nlink i)
    n (i_addrs i).
Definition set_iaddrs (a : list Z) (i : inode) : inode :=
  mk_inode (i_dev i) (i_inum i) (i_ref i) (i_flags i) (i_type i) (i_major i) (i_minor i) (i_nlink i)
    (i_size i) a.

(** [struct stat] *)
Record stat := mk_stat { st_type : Z; st_dev : Z; st_ino : Z; st_nlink : Z; st_size : Z }.

(** [struct dirent], and its 16 bytes. *)
Record dirent := mk_dirent { de_inum : Z; de_name : list Z }.
Definition DIRENT_SIZE : Z := 16.
Definition dirent_of (d : list Z) : dirent := mk_dirent (get16 d 0) (slice d 2 DIRSIZ).
Definition dirent_bytes (de : dirent) : list Z := put16 [0; 0] 0 (de_inum de) ++ de_name de.

Record fsst (S : Type) := mk_fsst {
  fdev : S;                (* log and disk *)
  sb : superblock;
  ic_lock : bool;          (* icache.lock *)
  inodes : list inode      (* icache.inode *)
}.
Arguments mk_fsst {S}.
Arguments fdev {S}.
Arguments sb {S}.
Arguments ic_lock {S}.
Arguments inodes {S}.

Section Fs.
Context {S : Type} `{TxDisk S}.

Definition fd : lens (fsst S) S :=
  Lens fdev (fun d s => mk_fsst d (sb s) (ic_lock s) (inodes s)).
Definition iclock : lens (fsst S) bool :=
  Lens ic_lock (fun b s => mk_fsst (fdev s) (sb s) b (inodes s)).
Definition set_sb (x : superblock) : M (fsst S) unit :=
  modify (fun s => mk_fsst (fdev s) x (ic_lock s) (inodes s)).

(** [*ip], and an assignment to fields of [*ip]. *)
Definition ino (i : nat) : M (fsst S) inode := fun s => deref (inodes s !! i) s.
Definition upd_ino (i : nat) (f : inode -> inode) : M (fsst S) unit :=
  let* x := ino i in
  modify (fun s => mk_fsst (fdev s) (sb s) (ic_lock s) (<[i := f x]> (inodes s))).

(** ** Blocks *)

Definition fs_readsb (dev : Z) : M (fsst S) superblock :=
  zoom fd (let* bp := t_bread dev 1 in
           let* d := t_data bp in
           let x := sb_of d in
           t_brelse bp ;;
           ret x).

Definition bzero (dev bno : Z) : M (fsst S) unit :=
  zoom fd (let* bp := t_bread dev bno in
           t_set bp (replicate BSIZE 0) ;;
           t_log_write bp ;;
           t_brelse bp).

(** [bp->data[bi/8] & (1 << (bi % 8))] *)
Definition bit_mask (bi : Z) : Z := Z.shiftl 1 (bi `mod` 8).
Definition bit_used (d : list Z) (bi : Z) : bool :=
  has (byte_at d (Z.to_nat (bi / 8))) (bit_mask bi).
Definition bit_set (d : list Z) (bi : Z) : list Z :=
  let k := Z.to_nat (bi / 8) in <[k := u8 (set_flag (byte_at d k) (bit_mask bi))]> d.
Definition bit_clear (d : list Z) (bi : Z) : list Z :=
  let k := Z.to_nat (bi / 8) in <[k := u8 (clear_flag (byte_at d k) (bit_mask bi))]> d.

(** The inner loop of [balloc]: the first free bit from [bi] on. *)
Fixpoint find_free (fuel : nat) (d : list Z) (b bi size : Z) : option Z :=
  match fuel with
  | O => None
  | Datatypes.S k =>
      if (bi <? BPB) && (b + bi <? size) then
        if negb (bit_used d bi) then Some bi else find_free k d b (bi + 1) size
      else None
  end.

(** The outer loop, one bitmap block per turn. *)
Fixpoint balloc_loop (fuel : nat) (dev b : Z) : M (fsst S) Z :=
  let* s := get in
  if b <? sb_size (sb s) then
    match fuel with
    | O => fun _ => ([], NoFuel)
    | Datatypes.S k =>
        let* bp := zoom fd (t_bread dev (BBLOCK b (sb s))) in
        let* d := zoom fd (t_data bp) in
        match find_free (Z.to_nat BPB) d b 0 (sb_size (sb s)) with
        | Some bi =>
            zoom fd (t_set bp (bit_set d bi)) ;;
            zoom fd (t_log_write bp) ;;
            zoom fd (t_brelse bp) ;;
            bzero dev (b + bi) ;;
            ret (b + bi)
        | None =>
            zoom fd (t_brelse bp) ;;
            balloc_loop k dev (b + BPB)
        end
    end
  else panic "balloc: out of blocks".

Definition balloc (dev : Z) : M (fsst S) Z :=
  let* s := get in
  balloc_loop (Z.to_nat (sb_size (sb s) / BPB + 1)) dev 0.

Definition bfree (dev b : Z) : M (fsst S) unit :=
  let* x := fs_readsb dev in
  set_sb x ;;
  let* bp := zoom fd (t_bread dev (BBLOCK b x)) in
  let bi := b `mod` BPB in
  let* d := zoom fd (t_data bp) in
  if negb (bit_used d bi) then panic "freeing free block"
  else
    zoom fd (t_set bp (bit_clear d bi)) ;;
    zoom fd (t_log_write bp) ;;
    zoom fd (t_brelse bp).

(** ** Inodes *)

(** [iinit]; its message on the console is not modelled. *)
Definition iinit (dev : Z) : M (fsst S) unit :=
  modify (lset iclock false) ;;
  let* x := fs_readsb dev in
  set_sb x.

(** Byte offset of inode [inum] in its block, and the fields there. *)
Definition ioff (inum : Z) : nat := Z.to_nat (inum `mod` IPB * DINODE_SIZE).
Definition dtype (d : list Z) (o : nat) : Z := s16 (get16 d o).
Definition daddrs (d : list Z) (o : nat) : list Z :=
  (fun k => get32 d (o + 12 + 4 * k)) <$> seq 0 (Z.to_nat (NDIRECT + 1)).

(** Fill the in-memory inode from the disk inode at [o]. *)
Definition load_dinode (d : list Z) (o : nat) (x : inode) : inode :=
  mk_inode (i_dev x) (i_inum x) (i_ref x) (i_flags x) (dtype d o) (s16 (get16 d (o + 2)))
    (s16 (get16 d (o + 4))) (s16 (get16 d (o + 6))) (get32 d (o + 8)) (daddrs d o).

Definition put_addrs (d : list Z) (o : nat) (a : list Z) : list Z :=
  foldl (fun d k => put32 d (o + 12 + 4 * k) (nth k a 0)) d (seq 0 (Z.to_nat (NDIRECT + 1))).
Definition store_dinode (d : list Z) (o : nat) (x : inode) : list Z :=
  put_addrs
    (put32 (put16 (put16 (put16 (put16 d o (i_type x)) (o + 2) (i_major x)) (o + 4) (i_minor x))
              (o + 6) (i_nlink x)) (o + 8) (i_size x)) o (i_addrs x).

(** The scan of [iget] for the inode and for the first free entry. *)
Fixpoint iget_scan (l : list inode) (i : nat) (dev inum : Z) (empty : option nat)
  : nat + option nat :=
  match l with
  | [] => inr empty
  | ip :: l' =>
      if (i_ref ip >? 0) && (i_dev ip =? dev) && (i_inum ip =? inum) then inl i
      else iget_scan l' (Datatypes.S i) dev inum
             (match empty with Some e => Some e | None => if i_ref ip =? 0 then Some i else None end)
  end.

Definition iget (dev inum : Z) : M (fsst S) nat :=
  acquire iclock ;;
  let* s := get in
  match iget_scan (inodes s) 0 dev inum None with
  | inl i =>
      upd_ino i (fun ip => set_iref (i_ref ip + 1) ip) ;;
      release iclock ;;
      ret i
  | inr None => panic "iget: no inodes"
  | inr (Some i) =>
      upd_ino i (fun ip => mk_inode dev inum 1 0 (i_type ip) (i_major ip) (i_minor ip)
                             (i_nlink ip) (i_size ip) (i_addrs ip)) ;;
      release iclock ;;
      ret i
  end.

Fixpoint ialloc_loop (fuel : nat) (dev type inum : Z) : M (fsst S) nat :=
  let* s := get in
  if inum <? sb_ninodes (sb s) then
    match fuel with
    | O => fun _ => ([], NoFuel)
    | Datatypes.S k =>
        let* bp := zoom fd (t_bread dev (IBLOCK inum (sb s))) in
        let* d := zoom fd (t_data bp) in
        let o := ioff inum in
        if dtype d o =? 0 then
          let d := splice d o (replicate (Z.to_nat DINODE_SIZE) 0) in
          zoom fd (t_set bp (put16 d o type)) ;;
          zoom fd (t_log_write bp) ;;
          zoom fd (t_brelse bp) ;;
          iget dev inum
        else
          zoom fd (t_brelse bp) ;;
          ialloc_loop k dev type (inum + 1)
    end
  else panic "ialloc: no inodes".

Definition ialloc (dev type : Z) : M (fsst S) nat :=
  let* s := get in
  ialloc_loop (Z.to_nat (sb_ninodes (sb s))) dev type 1.

Definition iupdate (i : nat) : M (fsst S) unit :=
  let* ip := ino i in
  let* s := get in
  let* bp := zoom fd (t_bread (i_dev ip) (IBLOCK (i_inum ip) (sb s))) in
  let* d := zoom fd (t_data bp) in
  zoom fd (t_set bp (store_dinode d (ioff (i_inum ip)) ip)) ;;
  zoom fd (t_log_write bp) ;;
  zoom fd (t_brelse bp).

Definition idup (i : nat) : M (fsst S) nat :=
  acquire iclock ;;
  upd_ino i (fun ip => set_iref (i_ref ip + 1) ip) ;;
  release iclock ;;
  ret i.

(** [ip] is not null. *)
Definition ilock (i : nat) : M (fsst S) unit :=
  let* ip := ino i in
  if i_ref ip <? 1 then panic "ilock"
  else
    acquire iclock ;;
    let* ip := ino i in
    if has (i_flags ip) I_BUSY then sleep (ChInode i) iclock
    else
      upd_ino i (fun ip => set_iflags (set_flag (i_flags ip) I_BUSY) ip) ;;
      release iclock ;;
      let* ip := ino i in
      when (negb (has (i_flags ip) I_VALID))
        (let* s := get in
         let* bp := zoom fd (t_bread (i_dev ip) (IBLOCK (i_inum ip) (sb s))) in
         let* d := zoom fd (t_data bp) in
         upd_ino i (load_dinode d (ioff (i_inum ip))) ;;
         zoom fd (t_brelse bp) ;;
         upd_ino i (fun ip => set_iflags (set_flag (i_flags ip) I_VALID) ip) ;;
         let* ip := ino i in
         when (i_type ip =? 0) (panic "ilock: no type")).

Definition iunlock (i : nat) : M (fsst S) unit :=
  let* ip := ino i in
  if negb (has (i_flags ip) I_BUSY) || (i_ref ip <? 1) then panic "iunlock"
  else
    acquire iclock ;;
    upd_ino i (fun ip => set_iflags (clear_flag (i_flags ip) I_BUSY) ip) ;;
    wakeup (ChInode i) ;;
    release iclock.

(** ** Inode content *)

(** [ip->addrs[k]] *)
Definition addr_at (ip : inode) (k : Z) : M (fsst S) Z := deref (i_addrs ip !! Z.to_nat k).
Definition set_addr (i : nat) (k v : Z) : M (fsst S) unit :=
  upd_ino i (fun ip => set_iaddrs (<[Z.to_nat k := v]> (i_addrs ip)) ip).

(** [ip->addrs[k]], allocated if it is 0. *)
Definition addr_or_alloc (i : nat) (k : Z) : M (fsst S) Z :=
  let* ip := ino i in
  let* addr := addr_at ip k in
  if addr =? 0 then
    let* addr := balloc (i_dev ip) in
    set_addr i k addr ;;
    ret addr
  else ret addr.

Definition bmap (i : nat) (bn : Z) : M (fsst S) Z :=
  if bn <? NDIRECT then addr_or_alloc i bn
  else
    let bn := bn - NDIRECT in
    if bn <? NINDIRECT then
      let* addr := addr_or_alloc i NDIRECT in
      let* ip := ino i in
      let* bp := zoom fd (t_bread (i_dev ip) addr) in
      let* d := zoom fd (t_data bp) in
      let off := Z.to_nat (4 * bn) in
      let* addr :=
        if get32 d off =? 0 then
          let* addr := balloc (i_dev ip) in
          let* d := zoom fd (t_data bp) in
          zoom fd (t_set bp (put32 d off addr)) ;;
          zoom fd (t_log_write bp) ;;
          ret addr
        else ret (get32 d off)
      in
      zoom fd (t_brelse bp) ;;
      ret addr
    else panic "bmap: out of range".

Definition itrunc (i : nat) : M (fsst S) unit :=
  for_all (zrange 0 (Z.to_nat NDIRECT)) (fun k =>
    let* ip := ino i in
    let* addr := addr_at ip k in
    when (negb (addr =? 0)) (bfree (i_dev ip) addr ;; set_addr i k 0)) ;;
  let* ip := ino i in
  let* ind := addr_at ip NDIRECT in
  when (negb (ind =? 0))
    (let* bp := zoom fd (t_bread (i_dev ip) ind) in
     let* d := zoom fd (t_data bp) in
     for_all (zrange 0 (Z.to_nat NINDIRECT)) (fun j =>
       let a := get32 d (Z.to_nat (4 * j)) in
       when (negb (a =? 0)) (bfree (i_dev ip) a)) ;;
     zoom fd (t_brelse bp) ;;
     bfree (i_dev ip) ind ;;
     set_addr i NDIRECT 0) ;;
  upd_ino i (set_isize 0) ;;
  iupdate i.

Definition iput (i : nat) : M (fsst S) unit :=
  acquire iclock ;;
  let* ip := ino i in
  when ((i_ref ip =? 1) && has (i_flags ip) I_VALID && (i_nlink ip =? 0))
    (if has (i_flags ip) I_BUSY then panic "iput busy"
     else
       upd_ino i (fun ip => set_iflags (set_flag (i_flags ip) I_BUSY) ip) ;;
       release iclock ;;
       itrunc i ;;
       upd_ino i (set_itype 0) ;;
       iupdate i ;;
       acquire iclock ;;
       upd_ino i (set_iflags 0) ;;
       wakeup (ChInode i)) ;;
  upd_ino i (fun ip => set_iref (i_ref ip - 1) ip) ;;
  release iclock.

Definition iunlockput (i : nat) : M (fsst S) unit :=
  iunlock i ;;
  iput i.

Definition stati (i : nat) : M (fsst S) stat :=
  let* ip := ino i in
  ret (mk_stat (i_type ip) (i_dev ip) (i_inum ip) (i_nlink ip) (i_size ip)).

(** ** Reading and writing *)

(** [devsw[major].read] and [.write], [None] when null: [dev_read major i n]
    and [dev_write major i src n]. *)
Variable dev_read : Z -> option (nat -> Z -> M (fsst S) (Z * list Z)).
Variable dev_write : Z -> option (nat -> list Z -> Z -> M (fsst S) Z).

Definition BS : Z := Z.of_nat BSIZE.

(** Returns what it copied to [dst]. *)
Fixpoint readi_loop (fuel : nat) (i : nat) (off tot n : Z) : M (fsst S) (list Z) :=
  if tot <? n then
    match fuel with
    | O => fun _ => ([], NoFuel)
    | Datatypes.S k =>
        let* addr := bmap i (off / BS) in
        let* ip := ino i in
        let* bp := zoom fd (t_bread (i_dev ip) addr) in
        let m := Z.min (n - tot) (BS - off `mod` BS) in
        let* d := zoom fd (t_data bp) in
        let part := slice d (Z.to_nat (off `mod` BS)) (Z.to_nat m) in
        zoom fd (t_brelse bp) ;;
        let* rest := readi_loop k i (off + m) (tot + m) n in
        ret (part ++ rest)
    end
  else ret [].

(** A bound on the number of blocks [n] bytes can touch. *)
Definition blocks_of (n : Z) : nat := Z.to_nat (n / BS + 2).

(** The return value, and the bytes copied to [dst]. *)
Definition readi (i : nat) (off n : Z) : M (fsst S) (Z * list Z) :=
  let* ip := ino i in
  if i_type ip =? T_DEV then
    if (i_major ip <? 0) || (i_major ip >=? NDEV) then ret (-1, [])
    else match dev_read (i_major ip) with None => ret (-1, []) | Some f => f i n end
  else if (off >? i_size ip) || (u32 (off + n) <? off) then ret (-1, [])
  else
    let n := if u32 (off + n) >? i_size ip then i_size ip - off else n in
    let* l := readi_loop (blocks_of n) i off 0 n in
    ret (n, l).

Fixpoint writei_loop (fuel : nat) (i : nat) (src : list Z) (off tot n : Z) : M (fsst S) unit :=
  if tot <? n then
    match fuel with
    | O => fun _ => ([], NoFuel)
    | Datatypes.S k =>
        let* addr := bmap i (off / BS) in
        let* ip := ino i in
        let* bp := zoom fd (t_bread (i_dev ip) addr) in
        let m := Z.min (n - tot) (BS - off `mod` BS) in
        let* d := zoom fd (t_data bp) in
        zoom fd (t_set bp (splice d (Z.to_nat (off `mod` BS)) (take (Z.to_nat m) src))) ;;
        zoom fd (t_log_write bp) ;;
        zoom fd (t_brelse bp) ;;
        writei_loop k i (drop (Z.to_nat m) src) (off + m) (tot + m) n
    end
  else ret tt.

(** [src] holds at least [n] bytes. *)
Definition writei (i : nat) (src : list Z) (off n : Z) : M (fsst S) Z :=
  let* ip := ino i in
  if i_type ip =? T_DEV then
    if (i_major ip <? 0) || (i_major ip >=? NDEV) then ret (-1)
    else match dev_write (i_major ip) with None => ret (-1) | Some f => f i src n end
  else if (off >? i_size ip) || (u32 (off + n) <? off) then ret (-1)
  else if u32 (off + n) >? MAXFILE * BS then ret (-1)
  else
    writei_loop (blocks_of n) i src off 0 n ;;
    let off := off + n in
    let* ip := ino i in
    when ((n >? 0) && (off >? i_size ip)) (upd_ino i (set_isize off) ;; iupdate i) ;;
    ret n.

(** ** Directories *)

Definition namecmp (s t : list Z) : Z := strncmp DIRSIZ (bytes s) (bytes t).

(** The inode found and the offset of its entry. *)
Fixpoint dirlookup_loop (fuel : nat) (dp : nat) (name : list Z) (off : Z)
  : M (fsst S) (option (nat * Z)) :=
  let* ip := ino dp in
  if off <? i_size ip then
    match fuel with
    | O => fun _ => ([], NoFuel)
    | Datatypes.S k =>
        let* '(r, d) := readi dp off DIRENT_SIZE in
        if negb (r =? DIRENT_SIZE) then panic "dirlink read"
        else
          let de := dirent_of d in
          if de_inum de =? 0 then dirlookup_loop k dp name (off + DIRENT_SIZE)
          else if namecmp name (de_name de) =? 0 then
            let* ip := ino dp in
            let* i := iget (i_dev ip) (de_inum de) in
            ret (Some (i, off))
          else dirlookup_loop k dp name (off + DIRENT_SIZE)
    end
  else ret None.

Definition entries (ip : inode) : nat := Z.to_nat (i_size ip / DIRENT_SIZE + 1).

Definition dirlookup (dp : nat) (name : list Z) : M (fsst S) (option (nat * Z)) :=
  let* ip := ino dp in
  if negb (i_type ip =? T_DIR) then panic "dirlookup not DIR"
  else dirlookup_loop (entries ip) dp name 0.

(** The offset of the first empty entry, or the size. *)
Fixpoint dirlink_scan (fuel : nat) (dp : nat) (off : Z) : M (fsst S) Z :=
  let* ip := ino dp in
  if off <? i_size ip then
    match fuel with
    | O => fun _ => ([], NoFuel)
    | Datatypes.S k =>
        let* '(r, d) := readi dp off DIRENT_SIZE in
        if negb (r =? DIRENT_SIZE) then panic "dirlink read"
        else if de_inum (dirent_of d) =? 0 then ret off
        else dirlink_scan k dp (off + DIRENT_SIZE)
    end
  else ret off.

Definition dirlink (dp : nat) (name : list Z) (inum : Z) : M (fsst S) Z :=
  let* found := dirlookup dp name in
  match found with
  | Some (ip, _) =>
      iput ip ;;
      ret (-1)
  | None =>
      let* ip := ino dp in
      let* off := dirlink_scan (entries ip) dp 0 in
      let de := mk_dirent inum (strncpy_bytes DIRSIZ (bytes name)) in
      let* r := writei dp (dirent_bytes de) off DIRENT_SIZE in
      if negb (r =? DIRENT_SIZE) then panic "dirlink" else ret 0
  end.

(** ** Paths *)

Definition SLASH : Z := 47.

Fixpoint skip_slashes (path : list Z) : list Z :=
  match path with
  | c :: rest => if c =? SLASH then skip_slashes rest else path
  | [] => []
  end.

(** The path element at the start and what follows it. *)
Fixpoint take_elem (path : list Z) : list Z * list Z :=
  match path with
  | c :: rest => if c =? SLASH then ([], path) else let '(e, r) := take_elem rest in (c :: e, r)
  | [] => ([], [])
  end.

(** The rest of the path and the bytes of [name], at most [DIRSIZ]. *)
Definition skipelem (path : list Z) : option (list Z * list Z) :=
  let path := skip_slashes path in
  match path with
  | [] => None
  | _ => let '(s, rest) := take_elem path in Some (skip_slashes rest, take DIRSIZ s)
  end.

(** The loop of [namex] from inode [i]; [name] is the last element taken.
    Returns the inode, and for [nameiparent] the final element. *)
Fixpoint namex_loop (fuel : nat) (i : nat) (path : list Z) (parent : bool) (name : list Z)
  : M (fsst S) (option (nat * list Z)) :=
  match skipelem path with
  | None => if parent then iput i ;; ret None else ret (Some (i, name))
  | Some (path, name) =>
      match fuel with
      | O => fun _ => ([], NoFuel)
      | Datatypes.S k =>
          ilock i ;;
          let* ip := ino i in
          if negb (i_type ip =? T_DIR) then iunlockput i ;; ret None
          else if parent && (match path with [] => true | _ => false end) then
            iunlock i ;;
            ret (Some (i, name))
          else
            let* next := dirlookup i name in
            match next with
            | None => iunlockput i ;; ret None
            | Some (n, _) => iunlockput i ;; namex_loop k n path parent name
            end
      end
  end.

(** [cwd] is [proc->cwd]. *)
Definition namex (cwd : nat) (path : list Z) (parent : bool) : M (fsst S) (option (nat * list Z)) :=
  let* i := (match path with
             | c :: _ => if c =? SLASH then iget ROOTDEV ROOTINO else idup cwd
             | [] => idup cwd
             end) in
  namex_loop (length path) i path parent [].

Definition namei (cwd : nat) (path : list Z) : M (fsst S) (option nat) :=
  let* r := namex cwd path false in
  ret (fst <$> r).

Definition nameiparent (cwd : nat) (path : list Z) : M (fsst S) (option (nat * list Z)) :=
  namex cwd path true.

End Fs.
