(* ===== verification/File.v ===== *)
(** * Open files: file.c, and pipealloc of pipe.c

    A [struct file *] is an index into [ftable].  A read returns the bytes it
    copies to the caller's buffer, a write takes the bytes it copies from there;
    on a pipe either may go to sleep and is then called again (see [Pipe]). *)

From stdpp Require Import base numbers list gmap strings.
From S2P Require Import Prelude Bytes Mem Str Kalloc Buf Log Pipe Fs.

Open Scope Z_scope.

Definition NFILE : nat := 100.

Inductive ftype := FD_NONE | FD_PIPE | FD_INODE.

#[global] Instance ftype_eq_dec : EqDecision ftype.
Proof. solve_decision. Defined.

Record file := mk_file {
  f_type : ftype;
  f_ref : Z;
  readable : bool;
  writable : bool;
  f_pipe : Z;
  f_ip : nat;
  f_off : Z
}.

Definition file0 : file := mk_file FD_NONE 0 false false 0 0 0.

Definition set_fref (x : Z) (f : file) : file :=
  mk_file (f_type f) x (readable f) (writable f) (f_pipe f) (f_ip f) (f_off f).
Definition set_ftype (x : ftype) (f : file) : file :=
  mk_file x (f_ref f) (readable f) (writable f) (f_pipe f) (f_ip f) (f_off f).
Definition set_foff (x : Z) (f : file) : file :=
  mk_file (f_type f) (f_ref f) (readable f) (writable f) (f_pipe f) (f_ip f) x.
Definition set_end (r w : bool) (p : Z) (f : file) : file :=
  mk_file FD_PIPE (f_ref f) r w p (f_ip f) (f_off f).
Definition set_inode (ip : nat) (off : Z) (r w : bool) (f : file) : file :=
  mk_file FD_INODE (f_ref f) r w (f_pipe f) ip off.

(** ** The table *)

Record ftable := mk_ftable { ft_lock : bool; files : list file }.

Definition ftlock : lens ftable bool := Lens ft_lock (fun b t => mk_ftable b (files t)).

Definition file_at (f : nat) : M ftable file := fun t => deref (files t !! f) t.
Definition upd_file (f : nat) (g : file -> file) : M ftable unit :=
  let* x := file_at f in
  modify (fun t => mk_ftable (ft_lock t) (<[f := g x]> (files t))).

Definition fileinit : M ftable unit := modify (fun t => mk_ftable false (files t)).

(** The search of [filealloc]. *)
Definition find_free_file (l : list file) : option nat := fst <$> list_find (fun f => f_ref f = 0) l.

(** The index of a file, [None] for null. *)
Definition filealloc : M ftable (option nat) :=
  acquire ftlock ;;
  let* t := get in
  match find_free_file (files t) with
  | Some f =>
      upd_file f (set_fref 1) ;;
      release ftlock ;;
      ret (Some f)
  | None =>
      release ftlock ;;
      ret None
  end.

Definition filedup (f : nat) : M ftable nat :=
  acquire ftlock ;;
  let* x := file_at f in
  if f_ref x <? 1 then panic "filedup"
  else
    upd_file f (set_fref (f_ref x + 1)) ;;
    release ftlock ;;
    ret f.

(** The part of [fileclose] under the lock: the file when this was the last
    reference. *)
Definition file_drop (f : nat) : M ftable (option file) :=
  acquire ftlock ;;
  let* x := file_at f in
  if f_ref x <? 1 then panic "fileclose"
  else
    let r := f_ref x - 1 in
    upd_file f (set_fref r) ;;
    if r >? 0 then
      release ftlock ;;
      ret None
    else
      let* ff := file_at f in
      upd_file f (set_fref 0) ;;
      upd_file f (set_ftype FD_NONE) ;;
      release ftlock ;;
      ret (Some ff).

(** ** Files over pipes and inodes *)

Record kfile (S : Type) := mk_kfile { k_fs : fsst S; k_pw : pworld; k_ft : ftable }.
Arguments mk_kfile {S}.
Arguments k_fs {S}.
Arguments k_pw {S}.
Arguments k_ft {S}.

Section File.
Context {S : Type} `{TxDisk S}.

Definition kfs : lens (kfile S) (fsst S) := Lens k_fs (fun x k => mk_kfile x (k_pw k) (k_ft k)).
Definition kpw : lens (kfile S) pworld := Lens k_pw (fun x k => mk_kfile (k_fs k) x (k_ft k)).
Definition kft : lens (kfile S) ftable := Lens k_ft (fun x k => mk_kfile (k_fs k) (k_pw k) x).

(** [end], and the device switch. *)
Variable kend : Z.
Variable dev_read : Z -> option (nat -> Z -> M (fsst S) (Z * list Z)).
Variable dev_write : Z -> option (nat -> list Z -> Z -> M (fsst S) Z).

Definition begin_op : M (kfile S) unit := zoom kfs (zoom fd t_begin).
Definition end_op : M (kfile S) unit := zoom kfs (zoom fd t_end).

Definition fileclose (f : nat) : M (kfile S) unit :=
  let* o := zoom kft (file_drop f) in
  match o with
  | None => ret tt
  | Some ff =>
      match f_type ff with
      | FD_PIPE => zoom kpw (pipeclose kend (f_pipe ff) (writable ff))
      | FD_INODE =>
          begin_op ;;
          zoom kfs (iput (f_ip ff)) ;;
          end_op
      | FD_NONE => ret tt
      end
  end.

Definition filestat (f : nat) : M (kfile S) (option stat) :=
  let* x := zoom kft (file_at f) in
  if decide (f_type x = FD_INODE) then
    zoom kfs (ilock (f_ip x)) ;;
    let* st := zoom kfs (stati (f_ip x)) in
    zoom kfs (iunlock (f_ip x)) ;;
    ret (Some st)
  else ret None.

Definition fileread (killed : bool) (f : nat) (n : Z) : M (kfile S) rres :=
  let* x := zoom kft (file_at f) in
  if negb (readable x) then ret (RRet (-1) [])
  else
    match f_type x with
    | FD_PIPE => zoom kpw (on_pipe (f_pipe x) (piperead (f_pipe x) killed n))
    | FD_INODE =>
        zoom kfs (ilock (f_ip x)) ;;
        let* '(r, l) := zoom kfs (readi dev_read (f_ip x) (f_off x) (u32 n)) in
        let r := s32 r in
        when (r >? 0) (zoom kft (upd_file f (fun x => set_foff (u32 (f_off x + r)) x))) ;;
        zoom kfs (iunlock (f_ip x)) ;;
        ret (RRet r l)
    | FD_NONE => panic "fileread"
    end.

(** [max] of [filewrite]: bytes per transaction. *)
Definition write_max : Z := (LOGSIZE - 1 - 1 - 2) / 2 * 512.

(** The loop of [filewrite]: how far it got. *)
Fixpoint filewrite_loop (fuel : nat) (f ip : nat) (addr : list Z) (i n : Z) : M (kfile S) Z :=
  if i <? n then
    match fuel with
    | O => fun _ => ([], NoFuel)
    | Datatypes.S k =>
        let n1 := Z.min (n - i) write_max in
        begin_op ;;
        zoom kfs (ilock ip) ;;
        let* x := zoom kft (file_at f) in
        let* r := zoom kfs (writei dev_write ip (drop (Z.to_nat i) addr) (f_off x) n1) in
        when (r >? 0) (zoom kft (upd_file f (fun x => set_foff (u32 (f_off x + r)) x))) ;;
        zoom kfs (iunlock ip) ;;
        end_op ;;
        if r <? 0 then ret i
        else if negb (r =? n1) then panic "short filewrite"
        else filewrite_loop k f ip addr (i + r) n
    end
  else ret i.

(** [i0] is where a write to a pipe goes on after it slept. *)
Definition filewrite (killed : bool) (f : nat) (addr : list Z) (n : Z) (i0 : nat) : M (kfile S) wres :=
  let* x := zoom kft (file_at f) in
  if negb (writable x) then ret (WRet (-1) 0)
  else
    match f_type x with
    | FD_PIPE => zoom kpw (on_pipe (f_pipe x) (pipewrite (f_pipe x) killed addr n i0))
    | FD_INODE =>
        let* i := filewrite_loop (Z.to_nat (n / write_max + 1)) f (f_ip x) addr 0 n in
        ret (WRet (if i =? n then n else -1) 0)
    | FD_NONE => panic "filewrite"
    end.

(** ** pipealloc *)

(** The offset of [data] in [struct pipe], after the lock. *)
Definition PIPE_DATA : Z := 52.

(** [data] is what the page held. *)
Definition new_pipe (m : mem) (p : Z) : pipe :=
  mk_pipe false (m <$> zrange (p + PIPE_DATA) (Z.to_nat PIPESIZE)) 0 0 true true.

Definition make_pipe (p : Z) : M pworld unit :=
  modify (fun w => mk_pworld (<[p := new_pipe (ram (pages_of w)) p]> (pipes w)) (pages_of w)).

(** The two ends, [None] for failure. *)
Definition pipealloc : M (kfile S) (option (nat * nat)) :=
  let bad (p : Z) (f0 f1 : option nat) : M (kfile S) (option (nat * nat)) :=
    when (negb (p =? 0)) (zoom kpw (zoom pagel (kfree kend p))) ;;
    match f0 with Some f => fileclose f | None => ret tt end ;;
    match f1 with Some f => fileclose f | None => ret tt end ;;
    ret None in
  let* f0 := zoom kft filealloc in
  match f0 with
  | None => bad 0 None None
  | Some f0 =>
      let* f1 := zoom kft filealloc in
      match f1 with
      | None => bad 0 (Some f0) None
      | Some f1 =>
          let* p := zoom kpw (zoom pagel kalloc) in
          if p =? 0 then bad 0 (Some f0) (Some f1)
          else
            zoom kpw (make_pipe p) ;;
            zoom kft (upd_file f0 (set_end true false p)) ;;
            zoom kft (upd_file f1 (set_end false true p)) ;;
            ret (Some (f0, f1))
      end
  end.

End File.
