(* ===== verification/Itoa.v ===== *)
(** * Swap-file names: [itoa] of fs.c and the names built from it

    The number is written into memory at [b]; reading it back with the user
    library's [atoi] gives it again. *)

From stdpp Require Import base numbers list strings.
From S2P Require Import Prelude Bytes Mem Str.

Open Scope Z_scope.

(** The first loop: move [p] to where the representation ends. *)
Fixpoint itoa_end (fuel : nat) (p shifter : Z) : option Z :=
  match fuel with
  | O => None
  | S k =>
      let p := u32 (p + 1) in
      let shifter := Z.quot shifter 10 in
      if shifter =? 0 then Some p else itoa_end k p shifter
  end.

(** The second loop: move back, inserting digits.  [None] also when [digit] is
    indexed with a negative remainder. *)
Fixpoint itoa_fill (fuel : nat) (p i : Z) (m : mem) : option mem :=
  match fuel with
  | O => None
  | S k =>
      let p := u32 (p - 1) in
      if Z.rem i 10 <? 0 then None
      else
        let m := upd m p (48 + Z.rem i 10) in
        let i := Z.quot i 10 in
        if i =? 0 then Some m else itoa_fill k p i m
  end.

(** Ten digits are enough for an [int]. *)
Definition DIGITS10 : nat := 10.

Definition itoa (i b : Z) (m : mem) : option mem :=
  let '(p, i, m) := if i <? 0 then (u32 (b + 1), s32 (i * -1), upd m b 45) else (b, i, m) in
  match itoa_end DIGITS10 p i with
  | None => None
  | Some p =>
      let m := upd m p 0 in
      itoa_fill DIGITS10 p i m
  end.

(** ** Decimal digits *)

Fixpoint dec (fuel : nat) (i : Z) : list Z :=
  match fuel with
  | O => []
  | S k => (if i / 10 =? 0 then [] else dec k (i / 10)) ++ [48 + i `mod` 10]
  end.

Lemma dec_bounds fuel i : 0 <= i -> (fuel > 0)%nat ->
  (0 < length (dec fuel i) <= fuel)%nat /\ Forall (fun c => 48 <= c <= 57) (dec fuel i).
Proof.
  revert i. induction fuel as [|k IH]; intros i Hi Hf; [lia|]. cbn [dec].
  rewrite length_app, Forall_app. cbn [length].
  assert (48 <= 48 + i `mod` 10 <= 57) as Hd by (pose proof (Z.mod_pos_bound i 10); lia).
  destruct (i / 10 =? 0).
  - cbn. split; [lia|]. split; [done|]. by constructor.
  - destruct k as [|k]; [cbn; split; [lia|]; split; [done|by constructor]|].
    destruct (IH (i / 10)) as [Hl Hf']; [by apply Z.div_pos|lia|].
    split; [lia|]. split; [done|]. by constructor.
Qed.

Lemma div10_lt i k : 0 <= i < 10 ^ Z.of_nat (S k) -> 0 <= i / 10 < 10 ^ Z.of_nat k.
Proof.
  intros [H0 H1]. split; [by apply Z.div_pos|]. apply Z.div_lt_upper_bound; [lia|].
  rewrite Nat2Z.inj_succ, Z.pow_succ_r in H1 by lia. lia.
Qed.

Lemma itoa_end_spec fuel p i :
  0 <= i < 10 ^ Z.of_nat fuel -> 0 <= p -> p + Z.of_nat fuel < 2 ^ 32 ->
  itoa_end fuel p i = Some (p + Z.of_nat (length (dec fuel i))) \/ fuel = O.
Proof.
  revert p i. induction fuel as [|k IH]; intros p i Hi Hp Hb; [by right|left].
  cbn [itoa_end dec]. rewrite u32_small, Z.quot_div_nonneg by lia. rewrite length_app. cbn [length].
  apply div10_lt in Hi. destruct (Z.eqb_spec (i / 10) 0) as [E|E].
  - cbn. f_equal.
  - destruct (IH (p + 1) (i / 10)) as [->| ->]; [done|lia|lia| |].
    + f_equal. lia.
    + cbn in Hi. lia.
Qed.

Lemma itoa_fill_spec fuel p i m :
  0 <= i < 10 ^ Z.of_nat fuel -> (0 < fuel)%nat ->
  let l := dec fuel i in
  Z.of_nat (length l) <= p < 2 ^ 32 ->
  exists m', itoa_fill fuel p i m = Some m'
    /\ forall x, m' x = filled m (p - Z.of_nat (length l)) (Z.of_nat (length l)) (fun k => nth (Z.to_nat k) l 0) x.
Proof.
  revert p i m. induction fuel as [|k IH]; intros p i m Hi Hf l Hp; [lia|].
  pose proof (dec_bounds (S k) i ltac:(lia) ltac:(lia)) as [[Hl1 Hl2] _]. fold l in Hl1, Hl2.
  cbn [itoa_fill]. rewrite u32_small, Z.rem_mod_nonneg, Z.quot_div_nonneg by lia.
  rewrite (proj2 (Z.ltb_ge (i `mod` 10) 0)) by (apply Z.mod_pos_bound; lia). apply div10_lt in Hi.
  unfold l in *. cbn [dec] in *. destruct (Z.eqb_spec (i / 10) 0) as [E|E].
  - cbn [app length] in *. eexists. split; [done|]. intros x. filled_case H; [|by rewrite upd_ne by lia].
    assert (x = p - 1) as -> by lia. rewrite upd_eq. replace (p - 1 - (p - Z.of_nat 1)) with 0 by lia. done.
  - destruct k as [|k]; [cbn in Hi; lia|].
    rewrite length_app in *. cbn [length] in *. set (l' := dec (S k) (i / 10)) in *.
    destruct (IH (p - 1) (i / 10) (upd m (p - 1) (48 + i `mod` 10)) Hi ltac:(lia)) as (m' & Hm & Hx);
      [fold l'; lia|].
    exists m'. split; [done|]. intros x. rewrite Hx. fold l'.
    repeat filled_case H; try lia.
    + rewrite app_nth1 by lia. f_equal. lia.
    + assert (x = p - 1) as -> by lia. rewrite upd_eq, app_nth2 by lia.
      replace (Z.to_nat _ - length l')%nat with 0%nat by lia. done.
    + by rewrite upd_ne by lia.
Qed.

(** The value a list of digits stands for. *)
Definition value (l : list Z) : Z := foldl (fun n c => n * 10 + (c - 48)) 0 l.

Lemma value_dec fuel i : 0 <= i < 10 ^ Z.of_nat fuel -> value (dec fuel i) = i.
Proof.
  revert i. induction fuel as [|k IH]; intros i Hi; [cbn in *; lia|].
  cbn [dec]. unfold value. rewrite foldl_app. fold (value (if i / 10 =? 0 then [] else dec k (i / 10))).
  cbn [foldl]. pose proof (Z.div_mod i 10 ltac:(lia)). apply div10_lt in Hi.
  destruct (Z.eqb_spec (i / 10) 0) as [E|E]; [cbn; lia|]. rewrite IH by done. lia.
Qed.

(** [atoi] of digits that end with a non-digit. *)
Lemma atoi_digits l : forall fuel (s : view) n,
  (length l < fuel)%nat -> (forall k, (k < length l)%nat -> s k = nth k l 0) ->
  Forall (fun c => 48 <= c <= 57) l -> s (length l) = 0 ->
  0 <= n -> foldl (fun n c => n * 10 + (c - 48)) n l < 2 ^ 31 ->
  Ulib.atoi_loop fuel s n = Some (foldl (fun n c => n * 10 + (c - 48)) n l).
Proof.
  induction l as [|c l IH]; intros fuel s n Hf Hs Hd Hz Hn Hv;
    (destruct fuel as [|fuel]; [cbn in Hf; lia|]); cbn [Ulib.atoi_loop].
  - cbn in Hz. by rewrite Hz.
  - inversion Hd as [|? ? Hc Hd']; subst.
    assert (s 0%nat = c) as -> by (apply (Hs 0%nat); cbn; lia).
    assert ((48 <=? c) && (c <=? 57) = true) as -> by (by zcase).
    assert (forall l n, 0 <= n -> Forall (fun c => 48 <= c <= 57) l ->
              n <= foldl (fun n c => n * 10 + (c - 48)) n l) as Hmono.
    { clear. induction l as [|c l IH]; intros n Hn Hl; cbn; [lia|].
      inversion Hl; subst. specialize (IH (n * 10 + (c - 48))). lia || (transitivity (n * 10 + (c - 48)); [lia|apply IH; [lia|done]]). }
    cbn [foldl] in Hv |- *. pose proof (Hmono l (n * 10 + (c - 48)) ltac:(lia) Hd').
    rewrite s32_small by lia.
    replace (n * 10 + c - 48) with (n * 10 + (c - 48)) by lia.
    apply IH; auto; [cbn in Hf; lia| |lia].
    intros k Hk. unfold next_char. apply (Hs (S k)). cbn. lia.
Qed.

(** What [itoa] of a non-negative number leaves in memory. *)
Lemma itoa_run i b m :
  0 <= i < 2 ^ 31 -> 0 <= b -> b + 10 < 2 ^ 32 ->
  let l := dec DIGITS10 i in
  exists m', itoa i b m = Some m'
    /\ forall x, m' x = filled m b (Z.of_nat (length l) + 1) (fun k => nth (Z.to_nat k) (l ++ [0]) 0) x.
Proof.
  intros Hi Hb Hb' l. unfold itoa. destruct (Z.ltb_spec i 0); [lia|].
  assert (0 <= i < 10 ^ Z.of_nat DIGITS10) as Hi' by (unfold DIGITS10; lia).
  destruct (itoa_end_spec DIGITS10 b i Hi' Hb) as [->|?]; [unfold DIGITS10; lia| |done]. fold l.
  pose proof (dec_bounds DIGITS10 i ltac:(lia) ltac:(unfold DIGITS10; lia)) as [[Hl1 Hl2] _].
  fold l in Hl1, Hl2. unfold DIGITS10 in Hl2.
  destruct (itoa_fill_spec DIGITS10 (b + Z.of_nat (length l)) i (upd m (b + Z.of_nat (length l)) 0) Hi')
    as (m' & Hm & Hx); [unfold DIGITS10; lia|fold l; lia|].
  fold l in Hx. exists m'. split; [done|]. intros x. rewrite Hx.
  repeat filled_case H; try lia.
  - rewrite app_nth1 by lia. f_equal. lia.
  - assert (x = b + Z.of_nat (length l)) as -> by lia. rewrite upd_eq, app_nth2 by lia.
    replace (Z.to_nat _ - length l)%nat with 0%nat by lia. done.
  - by rewrite upd_ne by lia.
Qed.

(** The decimal string the kernel's [itoa] writes reads back, with the user
    library's [atoi], as the same number; nothing but the string and its
    terminator is written. *)
Theorem itoa_atoi i b m :
  0 <= i < 2 ^ 31 -> 0 <= b -> b + 10 < 2 ^ 32 ->
  exists m', itoa i b m = Some m' /\ Ulib.atoi 11 (at_ m' b) = Some i
    /\ (forall x, ~ (b <= x <= b + 10) -> m' x = m x).
Proof.
  intros Hi Hb Hb'. destruct (itoa_run i b m Hi Hb Hb') as (m' & Hm & Hx).
  set (l := dec DIGITS10 i) in *.
  pose proof (dec_bounds DIGITS10 i ltac:(lia) ltac:(unfold DIGITS10; lia)) as [[Hl1 Hl2] Hd].
  fold l in Hl1, Hl2, Hd. unfold DIGITS10 in Hl2.
  assert (value l = i) as Hv by (apply value_dec; unfold DIGITS10; lia).
  assert (Hat : forall k, (k <= length l)%nat -> at_ m' b k = nth k (l ++ [0]) 0).
  { intros k Hk. unfold at_. rewrite u32_small by lia. rewrite Hx, filled_in by lia. f_equal. lia. }
  exists m'. split; [done|]. split.
  - unfold Ulib.atoi. rewrite <- Hv. unfold value. apply atoi_digits; auto; try lia.
    + intros k Hk. rewrite Hat by lia. by apply app_nth1.
    + rewrite Hat by lia. rewrite app_nth2 by lia. by rewrite Nat.sub_diag.
    + fold (value l). lia.
  - intros x Hout. rewrite Hx, filled_out by lia. done.
Qed.
Lemma itoa_atoi_witness :
  exists m', itoa 4711 1000 (fun _ => 0) = Some m' /\ Ulib.atoi 11 (at_ m' 1000) = Some 4711.
Proof.
  destruct (itoa_atoi 4711 1000 (fun _ => 0)) as (m' & H1 & H2 & _); [lia|lia|lia|].
  exists m'. split; [exact H1|exact H2].
Defined.

(** ** The name of a swap file *)

(** [char path[DIGITS]] *)
Definition DIGITS : Z := 14.

(** "/.swap" *)
Definition swap_prefix : list Z := [47; 46; 115; 119; 97; 112].

(** [memmove(path, "/.swap", 6); itoa(pid, path + 6);] *)
Definition swap_path (pid path : Z) (m : mem) : option mem :=
  itoa pid (u32 (path + 6)) (filled m path 6 (fun k => nth (Z.to_nat k) swap_prefix 0)).

Lemma dec_length_bound fuel i n :
  0 <= i < 10 ^ Z.of_nat fuel -> (0 < n <= fuel)%nat -> i < 10 ^ Z.of_nat n <-> (length (dec fuel i) <= n)%nat.
Proof.
  revert i n. induction fuel as [|k IH]; intros i n Hi Hn; [lia|]. cbn [dec].
  rewrite length_app. cbn [length]. destruct n as [|n]; [lia|].
  pose proof (div10_lt _ _ Hi) as Hdiv.
  rewrite Nat2Z.inj_succ, Z.pow_succ_r by lia.
  pose proof (Z.div_mod i 10 ltac:(lia)). pose proof (Z.mod_pos_bound i 10 ltac:(lia)).
  destruct (Z.eqb_spec (i / 10) 0) as [E|E].
  - cbn. pose proof (Z.pow_pos_nonneg 10 (Z.of_nat n) ltac:(lia) ltac:(lia)). split; lia.
  - destruct n as [|n].
    + assert (k = O \/ (0 < k)%nat) as [->|Hk] by lia; [cbn in Hdiv; lia|].
      pose proof (dec_bounds k (i / 10) ltac:(lia) Hk) as [[? _] _]. cbn. lia.
    + specialize (IH (i / 10) (S n) Hdiv ltac:(lia)).
      split; intros; [assert (i / 10 < 10 ^ Z.of_nat (S n)) as Hq by lia; apply IH in Hq; lia|].
      assert (length (dec k (i / 10)) <= S n)%nat as Hq by lia. apply IH in Hq. lia.
Qed.

(** C32: the swap-file name fits its [DIGITS]-byte array exactly for process ids
    below 10^7: then only the array is written.  From 10^7 on, the terminator is
    written past its end. *)
Theorem swap_path_bounds pid path m :
  0 <= pid < 2 ^ 31 -> 0 <= path -> path + 20 < 2 ^ 32 ->
  exists m', swap_path pid path m = Some m'
    /\ (pid < 10 ^ 7 -> forall x, ~ (path <= x < path + DIGITS) -> m' x = m x)
    /\ (10 ^ 7 <= pid -> exists x, path + DIGITS <= x /\ m' x = 0
         /\ forall m0, m0 x <> 0 -> exists m1, swap_path pid path m0 = Some m1 /\ m1 x <> m0 x).
Proof.
  intros Hpid Hp Hp'. unfold swap_path, DIGITS. rewrite (u32_small (path + 6)) by lia.
  set (l := dec DIGITS10 pid).
  assert (Hrun : forall m0, exists m', itoa pid (path + 6) (filled m0 path 6 (fun k => nth (Z.to_nat k) swap_prefix 0)) = Some m'
    /\ forall x, m' x = filled (filled m0 path 6 (fun k => nth (Z.to_nat k) swap_prefix 0)) (path + 6)
         (Z.of_nat (length l) + 1) (fun k => nth (Z.to_nat k) (l ++ [0]) 0) x)
    by (intros m0; apply itoa_run; lia).
  pose proof (dec_length_bound DIGITS10 pid 7 ltac:(unfold DIGITS10; lia) ltac:(unfold DIGITS10; lia)) as Hlen. fold l in Hlen.
  destruct (Hrun m) as (m' & Hm & Hx). exists m'. split; [done|]. split.
  - intros Hs x Hout. apply Hlen in Hs. rewrite Hx, filled_out by lia. rewrite filled_out by lia. done.
  - intros Hb. assert (7 < length l)%nat as Hl by lia.
    assert (Hend : forall m0 m1, (forall x, m1 x = filled (filled m0 path 6 (fun k => nth (Z.to_nat k) swap_prefix 0)) (path + 6)
         (Z.of_nat (length l) + 1) (fun k => nth (Z.to_nat k) (l ++ [0]) 0) x) ->
         m1 (path + 6 + Z.of_nat (length l)) = 0).
    { intros m0 m1 H1. rewrite H1, filled_in by lia. rewrite app_nth2 by lia.
      replace (Z.to_nat _ - length l)%nat with 0%nat by lia. done. }
    exists (path + 6 + Z.of_nat (length l)). split; [lia|]. split; [by apply (Hend m)|].
    intros m0 Hm0. destruct (Hrun m0) as (m1 & Hm1 & Hx1). exists m1. split; [done|].
    rewrite (Hend m0 m1 Hx1). done.
Qed.
Lemma swap_path_bounds_witness :
  exists m', swap_path 42 1000 (fun _ => 9) = Some m'
    /\ (42 < 10 ^ 7 -> forall x, ~ (1000 <= x < 1000 + DIGITS) -> m' x = 9).
Proof.
  destruct (swap_path_bounds 42 1000 (fun _ => 9)) as (m' & H1 & H2 & _); [lia|lia|lia|].
  exists m'. split; [exact H1|exact H2].
Defined.
