(* ===== verification/TxSpec.v ===== *)
(** * The disk as fs.c sees it inside a transaction

    [TxDiskSpec] is the contract between log.c and fs.c: block contents, the
    buffers held, the blocks of the running transaction, and the blocks changed
    but not yet logged.  Nothing is written to the disk before [end_op].  log.c
    over any buffer cache implements it. *)

From stdpp Require Import base numbers list gmap strings.
From S2P Require Import Prelude Bytes Buf Log LogCrash Tx Fs.

Open Scope Z_scope.

(** The size of the disk and the place of the log. *)
Record geom := mk_geom { g_N : Z; g_start : Z; g_size : Z }.

Definition ghome (g : geom) (x : Z) : Prop :=
  0 <= x < g_N g /\ x <> 1 /\ ~ (g_start g <= x < g_start g + g_size g).
(** Blocks fs.c may read: not the log. *)
Definition gread (g : geom) (x : Z) : Prop :=
  0 <= x < g_N g /\ ~ (g_start g <= x < g_start g + g_size g).
(** How many blocks a transaction may have. *)
Definition gcap (g : geom) : Z := Z.min LOGSIZE (g_size g - 1).

Record tdisk := mk_td {
  td_view : Z -> list Z;
  td_held : gmap nat Z;
  td_logged : gset Z;
  td_dirty : gset Z
}.

Definition t_holds (a : tdisk) (n : Z) : Prop := exists i, td_held a !! i = Some n.
Definition t_room (a : tdisk) : Prop := (size (td_held a) + size (td_logged a) < NBUF)%nat.

Definition td_hold (a : tdisk) (i : nat) (n : Z) : tdisk :=
  mk_td (td_view a) (<[i := n]> (td_held a)) (td_logged a) (td_dirty a).
Definition td_drop (a : tdisk) (i : nat) : tdisk :=
  mk_td (td_view a) (delete i (td_held a)) (td_logged a) (td_dirty a).
Definition td_write (a : tdisk) (n : Z) (d : list Z) : tdisk :=
  mk_td (zupd (td_view a) n d) (td_held a) (td_logged a) ({[n]} ∪ td_dirty a).
Definition td_log (a : tdisk) (n : Z) : tdisk :=
  mk_td (td_view a) (td_held a) ({[n]} ∪ td_logged a) (td_dirty a ∖ {[n]}).

Class TxDiskSpec (S : Type) `{TxDisk S} := {
  trep : S -> tdisk -> Prop;
  tgeo : S -> geom;

  t_bread_ok : forall s a n,
    trep s a -> gread (tgeo s) n -> ~ t_holds a n -> n ∈ td_logged a \/ t_room a ->
    exists i s', runs (t_bread ROOTDEV n) s [] i s' /\ td_held a !! i = None
      /\ trep s' (td_hold a i n) /\ tgeo s' = tgeo s;

  t_data_ok : forall s a i n,
    trep s a -> td_held a !! i = Some n -> runs (t_data i) s [] (td_view a n) s;

  t_set_ok : forall s a i n d,
    trep s a -> td_held a !! i = Some n -> length d = BSIZE ->
    exists s', runs (t_set i d) s [] tt s' /\ trep s' (td_write a n d) /\ tgeo s' = tgeo s;

  t_log_write_ok : forall s a i n,
    trep s a -> td_held a !! i = Some n -> ghome (tgeo s) n ->
    Z.of_nat (size (td_logged a)) < gcap (tgeo s) ->
    exists s', runs (t_log_write i) s [] tt s' /\ trep s' (td_log a n) /\ tgeo s' = tgeo s;

  t_brelse_ok : forall s a i n,
    trep s a -> td_held a !! i = Some n -> n ∈ td_logged a \/ n ∉ td_dirty a ->
    exists s', runs (t_brelse i) s [] tt s' /\ trep s' (td_drop a i) /\ tgeo s' = tgeo s;

  t_length : forall s a n,
    trep s a -> 0 <= n < g_N (tgeo s) -> length (td_view a n) = BSIZE;

  trep_ext : forall s a a',
    (forall n, td_view a n = td_view a' n) -> td_held a = td_held a' ->
    td_logged a = td_logged a' -> td_dirty a = td_dirty a' -> trep s a -> trep s a'
}.

(** ** log.c implements it *)

Section Impl.
Context {S : Type} `{BCacheSpec S}.

Definition log_geo (s : logst S) : geom := mk_geom (nblk (lbio s)) (l_start (lg s)) (l_size (lg s)).

Record log_rep (s : logst S) (a : tdisk) : Prop := {
  lr_cache : exists c, brep (lbio s) c /\ log_inv (lg s) c (nblk (lbio s))
    /\ (forall n, c_view c n = td_view a n) /\ c_held c = td_held a
    /\ c_pinned c = td_logged a
    /\ (forall n, 0 <= n < nblk (lbio s) -> n ∉ td_logged a -> n ∉ td_dirty a ->
          c_view c n = c_disk c n);
  lr_lock : l_lock (lg s) = false;
  lr_active : 1 <= outstanding (lg s)
}.

(** Only the holders and contents of the cache changed. *)
Lemma log_inv_cache L c c' N :
  log_inv L c N -> c_disk c' = c_disk c -> c_pinned c' = c_pinned c ->
  (forall x, held_block c' x -> held_block c x \/ ~ in_log L x) -> log_inv L c' N.
Proof.
  intros [H1 H2 H3 H4 H5] Hd Hp Hh. constructor; rewrite ?Hd, ?Hp; auto.
  intros x Hx. destruct (H2 x Hx) as [H6 H7]. rewrite Hp. split; [|done].
  intros Hb. destruct (Hh x Hb); tauto.
Qed.

Lemma runs_lb {A} (m : M S A) s w a b :
  runs m (lbio s) w a b -> runs (zoom lb m) s w a (mk_logst b (lg s)).
Proof. intros Hm. exact (runs_zoom lb m s w a b Hm). Qed.

#[export, program] Instance log_txspec : TxDiskSpec (logst S) := {
  trep := log_rep;
  tgeo := log_geo
}.
Next Obligation.
  intros s a n [(c & Hr & Hi & Hv & Hh & Hp & Hcl) Hlk Hac] [Hn Hnl] Hnh Hroom.
  destruct (bread_ok (lbio s) c n Hr Hn) as (i & b & E & Hi0 & Hr' & Hn').
  - intros [j Hj]. rewrite Hh in Hj. apply Hnh. by exists j.
  - unfold t_room, room in *. by rewrite Hp, Hh.
  - exists i, (mk_logst b (lg s)). split; [by apply runs_lb, runs_silent|].
    split; [by rewrite <- Hh|]. split; [|unfold log_geo; cbn; by rewrite Hn'].
    constructor; cbn; auto. eexists. split; [exact Hr'|]. cbn. rewrite Hn', Hh.
    split; [|auto]. apply (log_inv_cache _ c); auto. intros x [j Hj]. cbn in Hj.
    rewrite <- Hh in Hj. destruct (decide (i = j)) as [<-|Hij].
    + rewrite lookup_insert_eq in Hj. injection Hj as <-. right. exact Hnl.
    + rewrite lookup_insert_ne in Hj by done. left. by exists j.
Qed.
Next Obligation.
  intros s a i n [(c & Hr & Hi & Hv & Hh & Hp & Hcl) Hlk Hac] Hin.
  rewrite <- Hh in Hin. rewrite <- Hv. cbn. destruct s as [b L]. cbn in *.
  apply (runs_lb (bdata i) (mk_logst b L)), runs_silent. by apply bdata_ok.
Qed.
Next Obligation.
  intros s a i n d [(c & Hr & Hi & Hv & Hh & Hp & Hcl) Hlk Hac] Hin Hd.
  rewrite <- Hh in Hin. destruct (set_bdata_ok (lbio s) c i n d Hr Hin Hd) as (b & E & Hr' & Hn').
  exists (mk_logst b (lg s)). split; [by apply runs_lb, runs_silent|].
  split; [|unfold log_geo; cbn; by rewrite Hn'].
  constructor; cbn; auto. eexists. split; [exact Hr'|]. cbn. rewrite Hn'.
  split; [by apply (log_inv_cache _ c); auto|]. split; [intros x; unfold zupd; by rewrite Hv|].
  split; [done|]. split; [done|]. intros x Hx Hl Hdy. rewrite zupd_ne by set_solver.
  apply Hcl; auto. set_solver.
Qed.
Next Obligation.
  intros s a i n [(c & Hr & Hi & Hv & Hh & Hp & Hcl) Hlk Hac] Hin Hhome Hcap.
  rewrite <- Hh in Hin. pose proof (li_ok _ _ _ Hi) as Hok.
  assert (lh_n (lg s) = Z.of_nat (size (td_logged a))) as Hsz.
  { rewrite <- Hp, (li_pinned _ _ _ Hi), size_list_to_set by apply Hok.
    rewrite (blocks_length _ _ Hok). pose proof (lo_n _ _ Hok). lia. }
  unfold gcap in Hcap. cbn in Hcap.
  assert (Hh' : home (lg s) (nblk (lbio s)) n) by exact Hhome.
  destruct (log_write_run (lbio s) c (lg s) i n Hr (proj1 (proj1 (lo_n _ _ Hok))) (lo_len _ _ Hok) Hin Hlk Hac) as (b & E & Hr' & Hn'); [lia|lia|].
  exists (mk_logst b (logged (lg s) n)). destruct s as [b0 L]. cbn in *.
  split; [exact E|]. split; [|unfold log_geo; cbn; by rewrite Hn'].
  constructor; cbn; auto. eexists. split; [exact Hr'|]. cbn. rewrite Hn'.
  split; [|split; [done|split; [done|split; [by rewrite Hp|]]]].
  - constructor; cbn.
    + apply log_ok_logged; auto; lia.
    + intros x Hx. destruct (li_free _ _ _ Hi x Hx) as [H1 H2]. split; [done|].
      cbn. rewrite not_elem_of_union, elem_of_singleton. split; [|done].
      intros ->. by destruct Hh' as (_ & _ & ?).
    + rewrite (proj1 (logged_blocks L _ n Hok ltac:(lia))), (li_pinned _ _ _ Hi). unfold add_block.
      case_decide; [|rewrite list_to_set_app_L; cbn; set_solver]. set_solver.
    + apply (li_header _ _ _ Hi).
    + apply (li_sb _ _ _ Hi).
  - intros x Hx Hl Hdy. apply Hcl; auto; set_solver.
Qed.
Next Obligation.
  intros s a i n [(c & Hr & Hi & Hv & Hh & Hp & Hcl) Hlk Hac] Hin Hd.
  rewrite <- Hh in Hin. destruct (brelse_ok (lbio s) c i n Hr Hin) as (b & E & Hr' & Hn').
  { rewrite Hp. destruct Hd as [Hd|Hd]; [by left|].
    destruct (decide (n ∈ td_logged a)); [by left|right]. apply Hcl; auto. by eapply bheld_range. }
  exists (mk_logst b (lg s)).
  split; [apply runs_lb; eexists; split; [exact E|reflexivity]|].
  split; [|unfold log_geo; cbn; by rewrite Hn'].
  constructor; cbn; auto. eexists. split; [exact Hr'|]. cbn. rewrite Hn', Hh.
  split; [|auto]. apply (log_inv_cache _ c); auto. intros x [j Hj]. cbn in Hj.
  rewrite <- Hh in Hj. apply lookup_delete_Some in Hj as [_ Hj]. left. by exists j.
Qed.
Next Obligation.
  intros s a n [(c & Hr & Hi & Hv & _) _ _] Hn. rewrite <- Hv. by apply (bview_length (lbio s) c).
Qed.
Next Obligation.
  intros s a a' Hv Hh Hl Hd [(c & Hr & Hi & Hcv & Hch & Hp & Hcl) Hlk Hac]. constructor; auto.
  exists c. repeat (split; [congruence || (by intros n; rewrite <- Hv)|]).
  by rewrite <- Hl, <- Hd.
Qed.

End Impl.
