(* ===== verification/FsBlock.v ===== *)
(** * Block allocation: what [balloc], [bfree] and [bzero] of fs.c do

    Stated on the contents of the blocks inside a transaction ([TxSpec]). *)

From stdpp Require Import base numbers list gmap strings.
From S2P Require Import Prelude Bytes Mem Str Buf Log LogCrash Tx Fs TxSpec.

Open Scope Z_scope.

(** ** Bits of a bitmap block *)

Lemma testbit_u8 x k : 0 <= k < 8 -> Z.testbit (u8 x) k = Z.testbit x k.
Proof. intros Hk. unfold u8. change 256 with (2 ^ 8). apply Z.mod_pow2_bits_low. lia. Qed.

Lemma bit_used_testbit d bi : bit_used d bi = Z.testbit (byte_at d (Z.to_nat (bi / 8))) (bi `mod` 8).
Proof.
  unfold bit_used, bit_mask. pose proof (Z.mod_pos_bound bi 8).
  rewrite Z.shiftl_1_l. apply has_pow2. lia.
Qed.

Lemma bit_pair bi bj : 0 <= bi -> 0 <= bj ->
  Z.to_nat (bj / 8) = Z.to_nat (bi / 8) -> bi `mod` 8 = bj `mod` 8 -> bi = bj.
Proof.
  intros H1 H2 H3 H4. pose proof (Z.div_mod bi 8). pose proof (Z.div_mod bj 8).
  pose proof (Z.div_pos bi 8). pose proof (Z.div_pos bj 8). lia.
Qed.

Lemma bit_index (d : list Z) bi : length d = BSIZE -> 0 <= bi < BPB -> (Z.to_nat (bi / 8) < length d)%nat.
Proof.
  intros -> Hb. unfold BPB, BSIZE in *.
  assert (bi / 8 < 512) by (apply Z.div_lt_upper_bound; lia). lia.
Qed.

(** Changing one bit through its byte. *)
Lemma bit_change d bi bj v (b : bool) :
  length d = BSIZE -> 0 <= bi < BPB -> 0 <= bj < BPB ->
  (forall k, 0 <= k < 8 -> Z.testbit v k = if bi `mod` 8 =? k then b
                                         else Z.testbit (byte_at d (Z.to_nat (bi / 8))) k) ->
  bit_used (<[Z.to_nat (bi / 8) := u8 v]> d) bj = if bi =? bj then b else bit_used d bj.
Proof.
  intros Hd Hi Hj Hv. rewrite !bit_used_testbit, byte_at_insert.
  pose proof (bit_index d bi Hd Hi) as Hlt. pose proof (Z.mod_pos_bound bj 8).
  pose proof (Z.mod_pos_bound bi 8). case_decide as Hc.
  - destruct Hc as [Hc _]. rewrite testbit_u8, Hv by lia.
    destruct (Z.eqb_spec (bi `mod` 8) (bj `mod` 8)) as [E|E].
    + assert (bi = bj) as -> by (apply bit_pair; lia). by rewrite Z.eqb_refl.
    + destruct (Z.eqb_spec bi bj) as [->|]; [done|]. by rewrite Hc.
  - destruct (Z.eqb_spec bi bj) as [->|]; [|done]. destruct Hc. done.
Qed.

Lemma bit_used_set d bi bj :
  length d = BSIZE -> 0 <= bi < BPB -> 0 <= bj < BPB ->
  bit_used (bit_set d bi) bj = (bi =? bj) || bit_used d bj.
Proof.
  intros Hd Hi Hj. unfold bit_set. pose proof (Z.mod_pos_bound bi 8).
  rewrite (bit_change d bi bj _ true Hd Hi Hj); [by destruct (bi =? bj)|].
  intros k Hk. unfold bit_mask. rewrite Z.shiftl_1_l, testbit_set_flag by lia.
  by destruct (bi `mod` 8 =? k).
Qed.

Lemma bit_used_clear d bi bj :
  length d = BSIZE -> 0 <= bi < BPB -> 0 <= bj < BPB ->
  bit_used (bit_clear d bi) bj = negb (bi =? bj) && bit_used d bj.
Proof.
  intros Hd Hi Hj. unfold bit_clear. pose proof (Z.mod_pos_bound bi 8).
  rewrite (bit_change d bi bj _ false Hd Hi Hj); [by destruct (bi =? bj)|].
  intros k Hk. unfold bit_mask. rewrite Z.shiftl_1_l, testbit_clear_flag by lia.
  by destruct (bi `mod` 8 =? k).
Qed.

Lemma length_bit_set d bi : length (bit_set d bi) = length d.
Proof. apply length_insert. Qed.
Lemma length_bit_clear d bi : length (bit_clear d bi) = length d.
Proof. apply length_insert. Qed.

Lemma find_free_some fuel d b bi size r :
  find_free fuel d b bi size = Some r ->
  bi <= r < BPB /\ b + r < size /\ bit_used d r = false
  /\ (forall k, bi <= k < r -> bit_used d k = true).
Proof.
  revert bi. induction fuel as [|fuel IH]; intros bi Hf; cbn in Hf; [done|].
  destruct ((bi <? BPB) && (b + bi <? size)) eqn:Hg; [|done].
  apply andb_true_iff in Hg as [H1%Z.ltb_lt H2%Z.ltb_lt].
  destruct (bit_used d bi) eqn:Hu; cbn in Hf.
  - destruct (IH _ Hf) as (H3 & H4 & H5 & H6). split; [lia|]. split; [done|]. split; [done|].
    intros k Hk. destruct (decide (k = bi)) as [->|]; [done|]. apply H6. lia.
  - injection Hf as <-. split; [lia|]. split; [done|]. split; [done|]. lia.
Qed.

Lemma find_free_none fuel d b bi size :
  find_free fuel d b bi size = None -> BPB <= bi + Z.of_nat fuel ->
  forall k, bi <= k < BPB -> b + k < size -> bit_used d k = true.
Proof.
  revert bi. induction fuel as [|fuel IH]; intros bi Hf Hfuel k Hk Hs; cbn in Hf; [lia|].
  destruct ((bi <? BPB) && (b + bi <? size)) eqn:Hg.
  - destruct (bit_used d bi) eqn:Hu; [|done]. cbn in Hf.
    destruct (decide (k = bi)) as [->|]; [done|]. apply (IH (bi + 1)); [done|lia|lia|done].
  - apply andb_false_iff in Hg as [H1%Z.ltb_ge|H2%Z.ltb_ge]; lia.
Qed.

(** ** The block layout *)

Record wf_sb (g : geom) (x : superblock) : Prop := {
  ws_log : 1 < g_start g /\ 0 <= g_size g /\ g_start g + g_size g <= sb_inodestart x;
  ws_inodes : 0 <= sb_ninodes x /\ sb_inodestart x + sb_ninodes x / IPB < sb_bmapstart x;
  ws_bmap : sb_bmapstart x + sb_size x / BPB < sb_size x;
  ws_size : 0 <= sb_size x <= g_N g /\ g_N g <= 2 ^ 31
}.

(** Blocks that hold file contents. *)
Definition data_block (x : superblock) (b : Z) : Prop :=
  sb_bmapstart x + sb_size x / BPB < b < sb_size x.
Definition bitmap_block (x : superblock) (b : Z) : Prop :=
  sb_bmapstart x <= b <= sb_bmapstart x + sb_size x / BPB.

(** Block [b] is allocated. *)
Definition used (v : Z -> list Z) (x : superblock) (b : Z) : bool :=
  bit_used (v (BBLOCK b x)) (b `mod` BPB).

(** Everything that is not a data block is marked as used. *)
Definition meta_used (v : Z -> list Z) (x : superblock) : Prop :=
  forall b, 0 <= b < sb_size x -> used v x b = false -> data_block x b.

Section Layout.
Variables (g : geom) (x : superblock).
Hypothesis W : wf_sb g x.

Lemma data_home b : data_block x b -> ghome g b.
Proof.
  destruct W as [H1 H2 H3 H4]. unfold data_block, ghome. intros Hb.
  pose proof (Z.div_pos (sb_ninodes x) IPB ltac:(lia) ltac:(done)).
  assert (0 <= sb_size x / BPB) by (apply Z.div_pos; [lia|done]). lia.
Qed.

Lemma bitmap_home b : bitmap_block x b -> ghome g b.
Proof.
  destruct W as [H1 H2 H3 H4]. unfold bitmap_block, ghome. intros Hb.
  pose proof (Z.div_pos (sb_ninodes x) IPB ltac:(lia) ltac:(done)).
  assert (0 <= sb_size x / BPB) by (apply Z.div_pos; [lia|done]). lia.
Qed.

Lemma bblock_bitmap b : 0 <= b < sb_size x -> bitmap_block x (BBLOCK b x).
Proof.
  destruct W as [H1 H2 H3 H4]. intros Hb. unfold bitmap_block, BBLOCK.
  pose proof (Z.div_pos (sb_ninodes x) IPB ltac:(lia) ltac:(done)).
  assert (0 <= b / BPB) by (apply Z.div_pos; [lia|done]).
  assert (b / BPB <= sb_size x / BPB) by (apply Z.div_le_mono; [done|lia]).
  rewrite u32_small by lia. lia.
Qed.

Lemma bblock_eq b : 0 <= b < sb_size x -> BBLOCK b x = b / BPB + sb_bmapstart x.
Proof.
  intros Hb. pose proof (bblock_bitmap b Hb) as Hm. unfold bitmap_block, BBLOCK in *.
  destruct W as [H1 H2 H3 H4].
  assert (0 <= b / BPB) by (apply Z.div_pos; [lia|done]).
  assert (b / BPB <= sb_size x / BPB) by (apply Z.div_le_mono; [done|lia]).
  pose proof (Z.div_pos (sb_ninodes x) IPB ltac:(lia) ltac:(done)).
  apply u32_small. lia.
Qed.

Lemma data_not_bitmap b c : data_block x b -> bitmap_block x c -> b <> c.
Proof. unfold data_block, bitmap_block. lia. Qed.

(** Two blocks with the same bit in the same bitmap block are the same. *)
Lemma bit_unique b c : 0 <= b < sb_size x -> 0 <= c < sb_size x ->
  BBLOCK b x = BBLOCK c x -> b `mod` BPB = c `mod` BPB -> b = c.
Proof.
  intros Hb Hc. rewrite !bblock_eq by done. intros E1 E2.
  pose proof (Z.div_mod b BPB ltac:(done)). pose proof (Z.div_mod c BPB ltac:(done)). lia.
Qed.

(** The bitmap after the bit of [b] is written. *)
Lemma used_update v b c d (p : bool) :
  length (v (BBLOCK b x)) = BSIZE -> 0 <= b < sb_size x -> 0 <= c < sb_size x ->
  (forall bj, 0 <= bj < BPB -> bit_used d bj = if b `mod` BPB =? bj then p else bit_used (v (BBLOCK b x)) bj) ->
  used (zupd v (BBLOCK b x) d) x c = if c =? b then p else used v x c.
Proof.
  intros Hl Hb Hc Hd. unfold used, zupd.
  pose proof (Z.mod_pos_bound c BPB ltac:(done)). pose proof (Z.mod_pos_bound b BPB ltac:(done)).
  destruct (Z.eqb_spec (BBLOCK c x) (BBLOCK b x)) as [E|E].
  - rewrite Hd by done. destruct (Z.eqb_spec (b `mod` BPB) (c `mod` BPB)) as [E'|E'].
    + assert (c = b) as -> by (by apply bit_unique). by rewrite Z.eqb_refl.
    + destruct (Z.eqb_spec c b) as [->|]; [done|]. by rewrite E.
  - destruct (Z.eqb_spec c b) as [->|]; done.
Qed.

End Layout.

(** ** Buffer sessions *)

(** Room for [k] more blocks in the transaction. *)
Definition fits (g : geom) (h : gmap nat Z) (l : gset Z) (k : nat) : Prop :=
  (size h + size l + k <= NBUF)%nat /\ Z.of_nat (size l + k) <= gcap g.

Lemma size_add_le (l : gset Z) n : (size ({[n]} ∪ l) <= size l + 1)%nat.
Proof.
  destruct (decide (n ∈ l)) as [Hin|Hin].
  - replace ({[n]} ∪ l) with l by set_solver. lia.
  - rewrite size_union by set_solver. rewrite size_singleton. lia.
Qed.

Lemma fits_le g h l k k' : (k' <= k)%nat -> fits g h l k -> fits g h l k'.
Proof. unfold fits. intros. split; lia. Qed.

Lemma fits_log g h l k n : fits g h l (S k) -> fits g h ({[n]} ∪ l) k.
Proof. unfold fits. pose proof (size_add_le l n). lia. Qed.

(** While one more buffer is held. *)
Lemma fits_hold g (h : gmap nat Z) l k i n :
  h !! i = None -> fits g h l (S k) -> fits g (<[i := n]> h) l k.
Proof. unfold fits. intros Hi. rewrite map_size_insert_None by done. lia. Qed.

Section Session.
Context {S : Type} `{TxDiskSpec S}.

Definition crep (d : S) (v : Z -> list Z) (h : gmap nat Z) (l : gset Z) : Prop :=
  trep d (mk_td v h l ∅).

Definition unheld (h : gmap nat Z) (n : Z) : Prop := forall i, h !! i <> Some n.

Lemma open_block d v h l n :
  crep d v h l -> gread (tgeo d) n -> unheld h n -> fits (tgeo d) h l 1 ->
  exists i d1, runs (t_bread ROOTDEV n) d [] i d1 /\ h !! i = None
    /\ crep d1 v (<[i := n]> h) l /\ tgeo d1 = tgeo d.
Proof.
  intros Hr Hn Hu Hf. destruct (t_bread_ok d _ n Hr Hn) as (i & d1 & E & Hi & Hr1 & Hg).
  - intros [i Hi]. by apply (Hu i).
  - right. unfold t_room. cbn. unfold fits in Hf. lia.
  - by exists i, d1.
Qed.

Lemma read_block_data d v h l i n :
  crep d v h l -> h !! i = Some n -> runs (t_data i) d [] (v n) d.
Proof. intros Hr Hi. exact (t_data_ok d _ i n Hr Hi). Qed.

Lemma close_block d v h l i n :
  crep d v (<[i := n]> h) l -> h !! i = None ->
  exists d1, runs (t_brelse i) d [] tt d1 /\ crep d1 v h l /\ tgeo d1 = tgeo d.
Proof.
  intros Hr Hi. destruct (t_brelse_ok d _ i n Hr) as (d1 & E & Hr1 & Hg).
  - apply lookup_insert_eq.
  - right. set_solver.
  - exists d1. split; [done|]. split; [|done]. unfold td_drop in Hr1. cbn in Hr1.
    by rewrite delete_insert_id in Hr1 by done.
Qed.

(** Write a held block and log it. *)
Lemma log_block d v h l i n w :
  crep d v h l -> h !! i = Some n -> ghome (tgeo d) n -> Z.of_nat (size l) < gcap (tgeo d) ->
  length w = BSIZE ->
  exists d1 d2, runs (t_set i w) d [] tt d1 /\ runs (t_log_write i) d1 [] tt d2
    /\ crep d2 (zupd v n w) h ({[n]} ∪ l) /\ tgeo d2 = tgeo d.
Proof.
  intros Hr Hi Hn Hc Hw. destruct (t_set_ok d _ i n w Hr Hi Hw) as (d1 & E1 & Hr1 & Hg1).
  destruct (t_log_write_ok d1 _ i n Hr1 Hi) as (d2 & E2 & Hr2 & Hg2); [by rewrite Hg1|by rewrite Hg1|].
  exists d1, d2. split; [done|]. split; [done|]. split; [|congruence].
  revert Hr2. apply trep_ext; try done. cbn. set_solver.
Qed.

(** Write, log and release. *)
Lemma finish_block d v h l i n w :
  crep d v (<[i := n]> h) l -> h !! i = None -> ghome (tgeo d) n ->
  Z.of_nat (size l) < gcap (tgeo d) -> length w = BSIZE ->
  exists d1 d2 d3, runs (t_set i w) d [] tt d1 /\ runs (t_log_write i) d1 [] tt d2
    /\ runs (t_brelse i) d2 [] tt d3 /\ crep d3 (zupd v n w) h ({[n]} ∪ l) /\ tgeo d3 = tgeo d.
Proof.
  intros Hr Hi Hn Hc Hw.
  destruct (log_block d v _ l i n w Hr) as (d1 & d2 & E1 & E2 & Hr2 & Hg2); auto;
    [apply lookup_insert_eq|].
  destruct (close_block d2 _ h _ i n Hr2 Hi) as (d3 & E3 & Hr3 & Hg3).
  exists d1, d2, d3. repeat (split; [done|]). congruence.
Qed.

Definition with_dev (d : S) (s : fsst S) : fsst S := mk_fsst d (sb s) (ic_lock s) (inodes s).

Lemma runs_fd {A} (m : M S A) s w a d :
  runs m (fdev s) w a d -> runs (zoom fd m) s w a (with_dev d s).
Proof. intros Hm. exact (runs_zoom fd m s w a d Hm). Qed.

(** ** [bzero], [balloc], [bfree] *)

Lemma bzero_ok s v h l n :
  crep (fdev s) v h l -> ghome (tgeo (fdev s)) n -> unheld h n -> fits (tgeo (fdev s)) h l 1 ->
  exists d, runs (bzero ROOTDEV n) s [] tt (with_dev d s)
    /\ crep d (zupd v n (replicate BSIZE 0)) h ({[n]} ∪ l) /\ tgeo d = tgeo (fdev s).
Proof.
  intros Hr Hn Hu Hf.
  destruct (open_block _ _ _ _ n Hr) as (i & d1 & E1 & Hi & Hr1 & Hg1); auto; [split; apply Hn|].
  destruct (finish_block d1 v h l i n (replicate BSIZE 0) Hr1 Hi)
    as (d2 & d3 & d4 & E2 & E3 & E4 & Hr4 & Hg4).
  { by rewrite Hg1. } { rewrite Hg1. unfold fits in Hf. lia. } { apply length_replicate. }
  exists d4. split; [|split; [done|congruence]]. unfold bzero. apply runs_fd.
  eapply runs_bind_nil; [exact E1|]. eapply runs_bind_nil; [exact E2|].
  eapply runs_bind_nil; [exact E3|exact E4].
Qed.

(** The buffers held are of allocated data blocks. *)
Definition held_used (v : Z -> list Z) (x : superblock) (h : gmap nat Z) : Prop :=
  forall i n, h !! i = Some n -> data_block x n /\ used v x n = true.

(** The view after [balloc] took block [b]. *)
Definition alloc_view (v : Z -> list Z) (x : superblock) (b : Z) : Z -> list Z :=
  zupd (zupd v (BBLOCK b x) (bit_set (v (BBLOCK b x)) (b `mod` BPB))) b (replicate BSIZE 0).

(** The view after [bfree] gave it back. *)
Definition free_view (v : Z -> list Z) (x : superblock) (b : Z) : Z -> list Z :=
  zupd v (BBLOCK b x) (bit_clear (v (BBLOCK b x)) (b `mod` BPB)).

(** What [balloc] looks for: the first free block from [b0] on. *)
Definition first_free (v : Z -> list Z) (x : superblock) (b0 b : Z) : Prop :=
  b0 <= b < sb_size x /\ used v x b = false /\ (forall k, b0 <= k < b -> used v x k = true).

Lemma held_used_bitmap v x h n : held_used v x h -> bitmap_block x n -> unheld h n.
Proof. intros Hh Hn i Hi. destruct (Hh i n Hi) as [Hd _]. by apply (data_not_bitmap x n n). Qed.

Lemma held_used_free v x h n : held_used v x h -> used v x n = false -> unheld h n.
Proof. intros Hh Hn i Hi. destruct (Hh i n Hi) as [_ Hu]. congruence. Qed.

Lemma bit_in_block g x b bi :
  wf_sb g x -> 0 <= b -> b `mod` BPB = 0 -> 0 <= bi < BPB -> b + bi < sb_size x ->
  BBLOCK (b + bi) x = BBLOCK b x /\ (b + bi) `mod` BPB = bi.
Proof.
  intros W Hb Hm Hbi Hs. rewrite !(bblock_eq g x W) by lia.
  pose proof (Z.div_mod b BPB ltac:(done)) as E. rewrite Hm, Z.add_0_r, Z.mul_comm in E.
  remember (b / BPB) as q. rewrite E. split.
  - rewrite Z.div_add_l, Z.div_small by done. lia.
  - rewrite Z.add_comm, Z.mod_add, Z.mod_small by done. done.
Qed.

(** Taking the free bit [bi] of the bitmap block that covers [b]. *)
Lemma balloc_take s v h l b bi i d1 :
  crep d1 v (<[i := BBLOCK b (sb s)]> h) l -> h !! i = None -> tgeo d1 = tgeo (fdev s) ->
  wf_sb (tgeo (fdev s)) (sb s) -> meta_used v (sb s) -> held_used v (sb s) h ->
  fits (tgeo (fdev s)) h l 2 -> 0 <= b < sb_size (sb s) ->
  BBLOCK (b + bi) (sb s) = BBLOCK b (sb s) -> (b + bi) `mod` BPB = bi ->
  0 <= b + bi < sb_size (sb s) -> used v (sb s) (b + bi) = false ->
  exists d, runs (zoom fd (t_set i (bit_set (v (BBLOCK b (sb s))) bi)) ;;
                  zoom fd (t_log_write i) ;; zoom fd (t_brelse i) ;;
                  bzero ROOTDEV (b + bi) ;; ret (b + bi)) (with_dev d1 s) [] (b + bi) (with_dev d s)
    /\ crep d (alloc_view v (sb s) (b + bi)) h ({[b + bi]} ∪ ({[BBLOCK b (sb s)]} ∪ l))
    /\ tgeo d = tgeo (fdev s).
Proof.
  intros Hr Hi Hg W Hm Hh Hf Hb HB Hmod Hs Hu.
  pose proof (bblock_bitmap _ _ W b Hb) as Hbb. pose proof (Hm _ Hs Hu) as Hdb.
  destruct (finish_block d1 v h l i _ (bit_set (v (BBLOCK b (sb s))) bi) Hr Hi)
    as (d2 & d3 & d4 & E2 & E3 & E4 & Hr4 & Hg4).
  { rewrite Hg. by apply (bitmap_home _ _ W). } { rewrite Hg. unfold fits in Hf. lia. }
  { rewrite length_bit_set. apply (t_length d1 _ (BBLOCK b (sb s)) Hr). rewrite Hg.
    by apply (bitmap_home _ _ W). }
  destruct (bzero_ok (with_dev d4 s) _ h _ (b + bi) Hr4) as (d5 & E5 & Hr5 & Hg5).
  { cbn. rewrite Hg4, Hg. by apply (data_home _ _ W). } { by apply (held_used_free v (sb s)). }
  { cbn. rewrite Hg4, Hg. by apply fits_log. }
  exists d5. split; [|split; [|cbn in Hg5; congruence]].
  - eapply runs_bind_nil; [apply runs_fd; exact E2|]. eapply runs_bind_nil; [apply runs_fd; exact E3|].
    eapply runs_bind_nil; [apply runs_fd; exact E4|]. eapply runs_bind_nil; [exact E5|]. apply runs_ret.
  - unfold alloc_view. by rewrite HB, Hmod.
Qed.

(** What the inner loop tells about the blocks of one bitmap block. *)
Lemma scan_some g v x b bi :
  wf_sb g x -> 0 <= b < sb_size x -> b `mod` BPB = 0 ->
  find_free (Z.to_nat BPB) (v (BBLOCK b x)) b 0 (sb_size x) = Some bi ->
  BBLOCK (b + bi) x = BBLOCK b x /\ (b + bi) `mod` BPB = bi /\ first_free v x b (b + bi).
Proof.
  intros W Hb Hmod Hff. destruct (find_free_some _ _ _ _ _ _ Hff) as (Hbi & Hs & Hbu & Hbef).
  assert (forall k, 0 <= k <= bi -> BBLOCK (b + k) x = BBLOCK b x /\ (b + k) `mod` BPB = k)
    as Hk by (intros; apply (bit_in_block g _ _ _ W); lia).
  destruct (Hk bi ltac:(lia)) as [HB Hmd]. split; [done|]. split; [done|]. split; [lia|].
  split; [unfold used; by rewrite HB, Hmd|]. intros k Hkb.
  destruct (Hk (k - b) ltac:(lia)) as [HB' Hmd'].
  replace (b + (k - b)) with k in * by lia. unfold used. rewrite HB', Hmd'. apply Hbef. lia.
Qed.

Lemma scan_none g v x b :
  wf_sb g x -> 0 <= b < sb_size x -> b `mod` BPB = 0 ->
  find_free (Z.to_nat BPB) (v (BBLOCK b x)) b 0 (sb_size x) = None ->
  forall k, b <= k < b + BPB -> k < sb_size x -> used v x k = true.
Proof.
  intros W Hb Hmod Hff k Hk Hs.
  destruct (bit_in_block g x b (k - b) W) as [HB Hmd]; try lia.
  replace (b + (k - b)) with k in * by lia. unfold used. rewrite HB, Hmd.
  apply (find_free_none _ _ _ _ _ Hff); [vm_compute; congruence|lia|lia].
Qed.

Lemma first_free_from v x b0 b1 b :
  b0 <= b1 -> (forall k, b0 <= k < b1 -> k < sb_size x -> used v x k = true) ->
  first_free v x b1 b -> first_free v x b0 b.
Proof.
  intros Hle Hall (Hr & Hu & Hb). split; [lia|]. split; [done|]. intros k Hk.
  destruct (Z.lt_ge_cases k b1); [apply Hall; lia|apply Hb; lia].
Qed.

Definition balloc_result (m : M (fsst S) Z) (s : fsst S) v h l b : Prop :=
  (exists r d, first_free v (sb s) b r /\ runs m s [] r (with_dev d s)
     /\ crep d (alloc_view v (sb s) r) h ({[r]} ∪ ({[BBLOCK r (sb s)]} ∪ l))
     /\ tgeo d = tgeo (fdev s))
  \/ ((forall k, b <= k < sb_size (sb s) -> used v (sb s) k = true)
     /\ panics m s "balloc: out of blocks").

Lemma balloc_loop_ok fuel : forall s v h l b,
  crep (fdev s) v h l -> wf_sb (tgeo (fdev s)) (sb s) -> meta_used v (sb s) ->
  held_used v (sb s) h -> fits (tgeo (fdev s)) h l 2 -> 0 <= b -> b `mod` BPB = 0 ->
  sb_size (sb s) <= b + BPB * Z.of_nat fuel ->
  balloc_result (balloc_loop fuel ROOTDEV b) s v h l b.
Proof.
  induction fuel as [|fuel IH]; intros s v h l b Hr W Hm Hh Hf Hb Hmod Hfuel;
    cbn [balloc_loop]; (destruct (Z.ltb_spec b (sb_size (sb s))) as [Hlt|Hge]; [|right; split; [lia|]]);
    try lia; try (eapply panics_bind_nil; [apply runs_get|]; cbn beta; zcase; apply panics_panic).
  pose proof (bblock_bitmap _ _ W b ltac:(lia)) as Hbb.
  destruct (open_block _ _ _ _ (BBLOCK b (sb s)) Hr) as (i & d1 & E1 & Hi & Hr1 & Hg1).
  { split; apply (bitmap_home _ _ W _ Hbb). } { by apply (held_used_bitmap v (sb s)). }
  { by apply (fits_le _ _ _ 2); [lia|]. }
  pose proof (read_block_data d1 v _ l i _ Hr1 (lookup_insert_eq _ _ _)) as E2.
  destruct (find_free (Z.to_nat BPB) (v (BBLOCK b (sb s))) b 0 (sb_size (sb s))) as [bi|] eqn:Hff.
  - destruct (scan_some _ v _ b bi W ltac:(lia) Hmod Hff) as (HB & Hmd & Hff1). left.
    pose proof Hff1 as (Hrng & Hu & _).
    destruct (balloc_take s v h l b bi i d1) as (d & E & Hr' & Hg'); auto; [lia..|].
    exists (b + bi), d. rewrite HB. split; [done|]. split; [|done].
    eapply runs_bind_nil; [apply runs_get|]. cbn beta. zcase.
    eapply runs_bind_nil; [apply runs_fd; exact E1|]. eapply runs_bind_nil; [apply runs_fd; exact E2|].
    rewrite Hff. exact E.
  - assert (0 < BPB) by done.
    destruct (close_block d1 v h l i _ Hr1 Hi) as (d2 & E3 & Hr2 & Hg2).
    pose proof (scan_none _ v _ b W ltac:(lia) Hmod Hff) as Hall.
    destruct (IH (with_dev d2 s) v h l (b + BPB)) as [(r & d & Hff1 & E & Hr' & Hg')|[Hno E]];
      cbn [with_dev sb fdev] in *; rewrite ?Hg2, ?Hg1; try done.
    { lia. } { rewrite <- (Z.mul_1_l BPB) at 1. by rewrite Z.mod_add. } { lia. }
    + left. exists r, d. split; [by apply (first_free_from _ _ b (b + BPB)); [lia|..]|].
      split; [|split; [done|congruence]].
      eapply runs_bind_nil; [apply runs_get|]. cbn beta. zcase.
      eapply runs_bind_nil; [apply runs_fd; exact E1|]. eapply runs_bind_nil; [apply runs_fd; exact E2|].
      rewrite Hff. eapply runs_bind_nil; [apply runs_fd; exact E3|exact E].
    + right. split. { intros k Hk. destruct (Z.lt_ge_cases k (b + BPB)); [apply Hall|apply Hno]; lia. }
      eapply panics_bind_nil; [apply runs_get|]. cbn beta. zcase.
      eapply panics_bind_nil; [apply runs_fd; exact E1|]. eapply panics_bind_nil; [apply runs_fd; exact E2|].
      rewrite Hff. eapply panics_bind_nil; [apply runs_fd; exact E3|exact E].
Qed.

Lemma balloc_ok s v h l :
  crep (fdev s) v h l -> wf_sb (tgeo (fdev s)) (sb s) -> meta_used v (sb s) ->
  held_used v (sb s) h -> fits (tgeo (fdev s)) h l 2 ->
  balloc_result (balloc ROOTDEV) s v h l 0.
Proof.
  intros Hr W Hm Hh Hf.
  destruct (balloc_loop_ok (Z.to_nat (sb_size (sb s) / BPB + 1)) s v h l 0 Hr W Hm Hh Hf)
    as [(r & d & H1 & E & H2)|[H1 E]]; try done.
  - pose proof (ws_size _ _ W). assert (0 <= sb_size (sb s) / BPB) by (apply Z.div_pos; [lia|done]).
    rewrite Z2Nat.id by lia. pose proof (Z.mul_succ_div_gt (sb_size (sb s)) BPB ltac:(done)). lia.
  - left. exists r, d. split; [done|]. split; [|done].
    eapply runs_bind_nil; [apply runs_get|exact E].
  - right. split; [done|]. eapply panics_bind_nil; [apply runs_get|exact E].
Qed.

(** ** The allocator's invariant *)

(** The state of the file system between operations on blocks: the buffers in
    [h] are held and the blocks in [l] belong to the transaction. *)
Record blocks_ok (s : fsst S) (v : Z -> list Z) (h : gmap nat Z) (l : gset Z) : Prop := {
  bo_rep : crep (fdev s) v h l;
  bo_sb : wf_sb (tgeo (fdev s)) (sb s);
  bo_super : sb_of (v 1) = sb s;
  bo_meta : meta_used v (sb s);
  bo_held : held_used v (sb s) h
}.

Lemma view_length s v h l n :
  blocks_ok s v h l -> 0 <= n < g_N (tgeo (fdev s)) -> length (v n) = BSIZE.
Proof. intros Hb Hn. exact (t_length _ _ n (bo_rep _ _ _ _ Hb) Hn). Qed.

Lemma bitmap_length s v h l b :
  blocks_ok s v h l -> 0 <= b < sb_size (sb s) -> length (v (BBLOCK b (sb s))) = BSIZE.
Proof.
  intros Hb Hr. apply (view_length s v h l _ Hb).
  apply (bitmap_home _ _ (bo_sb _ _ _ _ Hb)), (bblock_bitmap _ _ (bo_sb _ _ _ _ Hb)), Hr.
Qed.

Lemma data_range g x b : wf_sb g x -> data_block x b -> 1 < b < sb_size x.
Proof.
  intros [H1 H2 H3 H4]. unfold data_block. intros Hb.
  pose proof (Z.div_pos (sb_ninodes x) IPB ltac:(lia) ltac:(done)).
  assert (0 <= sb_size x / BPB) by (apply Z.div_pos; [lia|done]). lia.
Qed.

Lemma bitmap_range g x b : wf_sb g x -> bitmap_block x b -> 1 < b.
Proof.
  intros [H1 H2 H3 H4]. unfold bitmap_block. intros Hb.
  pose proof (Z.div_pos (sb_ninodes x) IPB ltac:(lia) ltac:(done)). lia.
Qed.

Section Views.
Variables (s : fsst S) (v : Z -> list Z) (h : gmap nat Z) (l : gset Z).
Hypothesis B : blocks_ok s v h l.
Let W := bo_sb _ _ _ _ B.

(** Bits of the bitmap are not changed by writes to other blocks. *)
Lemma used_other b c d : ~ bitmap_block (sb s) b -> 0 <= c < sb_size (sb s) ->
  used (zupd v b d) (sb s) c = used v (sb s) c.
Proof.
  intros Hb Hc. unfold used, zupd. destruct (Z.eqb_spec (BBLOCK c (sb s)) b) as [<-|]; [|done].
  destruct Hb. by apply (bblock_bitmap _ _ W).
Qed.

Lemma used_alloc b c : data_block (sb s) b -> 0 <= c < sb_size (sb s) ->
  used (alloc_view v (sb s) b) (sb s) c = (c =? b) || used v (sb s) c.
Proof.
  intros Hb Hc. pose proof (data_range _ _ _ W Hb). unfold alloc_view.
  transitivity (used (zupd v (BBLOCK b (sb s)) (bit_set (v (BBLOCK b (sb s))) (b `mod` BPB))) (sb s) c).
  - unfold used, zupd at 1. destruct (Z.eqb_spec (BBLOCK c (sb s)) b) as [E|]; [|done].
    destruct (data_not_bitmap (sb s) b (BBLOCK c (sb s))); try done. by apply (bblock_bitmap _ _ W).
  - rewrite (used_update _ _ W v b c _ true); [by destruct (c =? b)|..]; try lia.
    + apply (bitmap_length s v h l b B). lia.
    + intros bj Hbj. rewrite bit_used_set; [by destruct (b `mod` BPB =? bj)|..]; try done.
      * apply (bitmap_length s v h l b B). lia.
      * by apply Z.mod_pos_bound.
Qed.

Lemma used_free b c : data_block (sb s) b -> 0 <= c < sb_size (sb s) ->
  used (free_view v (sb s) b) (sb s) c = negb (c =? b) && used v (sb s) c.
Proof.
  intros Hb Hc. pose proof (data_range _ _ _ W Hb). unfold free_view.
  rewrite (used_update _ _ W v b c _ false); [by destruct (c =? b)|..]; try lia.
  - apply (bitmap_length s v h l b B). lia.
  - intros bj Hbj. rewrite bit_used_clear; [by destruct (b `mod` BPB =? bj)|..]; try done.
    + apply (bitmap_length s v h l b B). lia.
    + by apply Z.mod_pos_bound.
Qed.

Lemma alloc_view_same b : alloc_view v (sb s) b b = replicate BSIZE 0.
Proof. unfold alloc_view, zupd. by rewrite Z.eqb_refl. Qed.

Lemma alloc_view_other b n : data_block (sb s) b -> n <> b -> ~ bitmap_block (sb s) n ->
  alloc_view v (sb s) b n = v n.
Proof.
  intros Hb Hn Hm. pose proof (data_range _ _ _ W Hb). unfold alloc_view, zupd.
  destruct (Z.eqb_spec n b); [done|].
  destruct (Z.eqb_spec n (BBLOCK b (sb s))) as [->|]; [|done].
  destruct Hm. apply (bblock_bitmap _ _ W). lia.
Qed.

Lemma free_view_other b n : data_block (sb s) b -> ~ bitmap_block (sb s) n ->
  free_view v (sb s) b n = v n.
Proof.
  intros Hb Hm. pose proof (data_range _ _ _ W Hb). unfold free_view, zupd.
  destruct (Z.eqb_spec n (BBLOCK b (sb s))) as [->|]; [|done].
  destruct Hm. apply (bblock_bitmap _ _ W). lia.
Qed.

(** The invariant after a change of the view that keeps every used block used. *)
Lemma blocks_ok_view d v' h' l' :
  crep d v' h' l' -> tgeo d = tgeo (fdev s) -> sb_of (v' 1) = sb s ->
  meta_used v' (sb s) -> held_used v' (sb s) h' -> blocks_ok (with_dev d s) v' h' l'.
Proof. intros Hr Hg Hs Hm Hh. constructor; cbn; auto. rewrite Hg. exact W. Qed.

End Views.

(** A free block is taken: the invariant afterwards. *)
Lemma blocks_ok_alloc s v h l b d l' :
  blocks_ok s v h l -> data_block (sb s) b -> crep d (alloc_view v (sb s) b) h l' ->
  tgeo d = tgeo (fdev s) -> blocks_ok (with_dev d s) (alloc_view v (sb s) b) h l'.
Proof.
  intros B Hb Hr Hg. pose proof (bo_sb _ _ _ _ B) as W. pose proof (data_range _ _ _ W Hb).
  apply (blocks_ok_view s v h l B); auto.
  - rewrite (alloc_view_other s v h l B) by (auto; try lia; intros Hm; by apply (bitmap_range _ _ _ W) in Hm).
    apply B.
  - intros c Hc Hu. rewrite (used_alloc s v h l B) in Hu by done.
    apply orb_false_iff in Hu as [_ Hu]. by apply (bo_meta _ _ _ _ B).
  - intros i n Hi. destruct (bo_held _ _ _ _ B i n Hi) as [Hn Hu]. split; [done|].
    pose proof (data_range _ _ _ W Hn).
    rewrite (used_alloc s v h l B), Hu by (auto; lia). apply orb_true_r.
Qed.

Lemma blocks_ok_free s v h l b d l' :
  blocks_ok s v h l -> data_block (sb s) b -> unheld h b -> crep d (free_view v (sb s) b) h l' ->
  tgeo d = tgeo (fdev s) -> blocks_ok (with_dev d s) (free_view v (sb s) b) h l'.
Proof.
  intros B Hb Hun Hr Hg. pose proof (bo_sb _ _ _ _ B) as W. pose proof (data_range _ _ _ W Hb).
  apply (blocks_ok_view s v h l B); auto.
  - rewrite (free_view_other s v h l B) by (auto; intros Hm; apply (bitmap_range _ _ _ W) in Hm; lia).
    apply B.
  - intros c Hc Hu. rewrite (used_free s v h l B) in Hu by done.
    destruct (Z.eqb_spec c b) as [->|]; [done|]. by apply (bo_meta _ _ _ _ B).
  - intros i n Hi. destruct (bo_held _ _ _ _ B i n Hi) as [Hn Hu]. split; [done|].
    pose proof (data_range _ _ _ W Hn).
    rewrite (used_free s v h l B), Hu by (auto; lia).
    destruct (Z.eqb_spec n b) as [->|]; [|done]. destruct (Hun i Hi).
Qed.

(** Allocation, with the invariant and the effect on the bitmap. *)
Lemma balloc_run s v h l :
  blocks_ok s v h l -> fits (tgeo (fdev s)) h l 2 ->
  (exists b d, first_free v (sb s) 0 b /\ data_block (sb s) b
     /\ runs (balloc ROOTDEV) s [] b (with_dev d s) /\ tgeo d = tgeo (fdev s)
     /\ blocks_ok (with_dev d s) (alloc_view v (sb s) b) h ({[b]} ∪ ({[BBLOCK b (sb s)]} ∪ l)))
  \/ ((forall k, 0 <= k < sb_size (sb s) -> used v (sb s) k = true)
     /\ panics (balloc ROOTDEV) s "balloc: out of blocks").
Proof.
  intros B Hf. pose proof B as [Hr W Hs Hm Hh].
  destruct (balloc_ok s v h l Hr W Hm Hh Hf) as [(b & d & Hff & E & Hr' & Hg)|Hno]; [left|by right].
  pose proof Hff as (Hrng & Hu & _). pose proof (Hm b Hrng Hu) as Hb.
  exists b, d. repeat (split; [done|]). by apply (blocks_ok_alloc s v h l).
Qed.

Lemma readsb_ok s v h l :
  blocks_ok s v h l -> fits (tgeo (fdev s)) h l 1 ->
  exists d, runs (fs_readsb ROOTDEV) s [] (sb s) (with_dev d s) /\ tgeo d = tgeo (fdev s)
    /\ crep d v h l.
Proof.
  intros B Hf. pose proof B as [Hr W Hs Hm Hh].
  destruct (open_block _ _ _ _ 1 Hr) as (i & d1 & E1 & Hi & Hr1 & Hg1); auto.
  { destruct W as [H1 H2 H3 H4]. unfold gread. 
    pose proof (Z.div_pos (sb_ninodes (sb s)) IPB ltac:(lia) ltac:(done)).
    assert (0 <= sb_size (sb s) / BPB) by (apply Z.div_pos; [lia|done]). lia. }
  { intros i Hi. destruct (Hh i 1 Hi) as [Hd _]. apply (data_range _ _ _ W) in Hd. lia. }
  pose proof (read_block_data d1 v _ l i _ Hr1 (lookup_insert_eq _ _ _)) as E2.
  destruct (close_block d1 v h l i _ Hr1 Hi) as (d2 & E3 & Hr2 & Hg2).
  exists d2. split; [|split; [congruence|done]]. apply runs_fd.
  eapply runs_bind_nil; [exact E1|]. eapply runs_bind_nil; [exact E2|]. cbv zeta. rewrite Hs.
  eapply runs_bind_nil; [exact E3|apply runs_ret].
Qed.

(** Where [bfree] has read the bitmap block of [b]. *)
Lemma bfree_open s v h l b :
  blocks_ok s v h l -> fits (tgeo (fdev s)) h l 1 -> data_block (sb s) b ->
  exists i d1 d2, runs (fs_readsb ROOTDEV) s [] (sb s) (with_dev d1 s)
    /\ runs (t_bread ROOTDEV (BBLOCK b (sb s))) d1 [] i d2 /\ h !! i = None
    /\ crep d2 v (<[i := BBLOCK b (sb s)]> h) l /\ tgeo d2 = tgeo (fdev s).
Proof.
  intros B Hf Hb. pose proof B as [Hr W Hs Hm Hh]. pose proof (data_range _ _ _ W Hb).
  pose proof (bblock_bitmap _ _ W b ltac:(lia)) as Hbb.
  destruct (readsb_ok s v h l B Hf) as (d1 & E1 & Hg1 & Hr1).
  destruct (open_block d1 _ _ _ (BBLOCK b (sb s)) Hr1) as (i & d2 & E2 & Hi & Hr2 & Hg2); rewrite ?Hg1; auto.
  { split; apply (bitmap_home _ _ W _ Hbb). } { by apply (held_used_bitmap v (sb s)). }
  exists i, d1, d2. repeat (split; [done|]). congruence.
Qed.

Lemma bfree_run s v h l b :
  blocks_ok s v h l -> fits (tgeo (fdev s)) h l 1 -> data_block (sb s) b ->
  used v (sb s) b = true -> unheld h b ->
  exists d, runs (bfree ROOTDEV b) s [] tt (with_dev d s) /\ tgeo d = tgeo (fdev s)
    /\ blocks_ok (with_dev d s) (free_view v (sb s) b) h ({[BBLOCK b (sb s)]} ∪ l).
Proof.
  intros B Hf Hb Hu Hun. pose proof (bo_sb _ _ _ _ B) as W. pose proof (data_range _ _ _ W Hb).
  pose proof (bblock_bitmap _ _ W b ltac:(lia)) as Hbb.
  destruct (bfree_open s v h l b B Hf Hb) as (i & d1 & d2 & E1 & E2 & Hi & Hr2 & Hg2).
  pose proof (read_block_data d2 v _ l i _ Hr2 (lookup_insert_eq _ _ _)) as E3.
  destruct (finish_block d2 v h l i _ (bit_clear (v (BBLOCK b (sb s))) (b `mod` BPB)) Hr2 Hi)
    as (d3 & d4 & d5 & E4 & E5 & E6 & Hr5 & Hg5).
  { rewrite Hg2. by apply (bitmap_home _ _ W). } { rewrite Hg2. unfold fits in Hf. lia. }
  { rewrite length_bit_clear. apply (bitmap_length s v h l b B). lia. }
  exists d5. split; [|split; [congruence|]].
  - eapply runs_bind_nil; [exact E1|]. eapply runs_bind_nil; [apply runs_modify|].
    eapply runs_bind_nil; [apply runs_fd; exact E2|]. eapply runs_bind_nil; [apply runs_fd; exact E3|].
    unfold used in Hu. rewrite Hu. cbn [negb].
    eapply runs_bind_nil; [apply runs_fd; exact E4|]. eapply runs_bind_nil; [apply runs_fd; exact E5|].
    exact (runs_fd (t_brelse i) (with_dev d4 s) _ _ _ E6).
  - apply (blocks_ok_free s v h l); auto. congruence.
Qed.

Lemma bfree_panics_run s v h l b :
  blocks_ok s v h l -> fits (tgeo (fdev s)) h l 1 -> data_block (sb s) b ->
  used v (sb s) b = false -> panics (bfree ROOTDEV b) s "freeing free block".
Proof.
  intros B Hf Hb Hu. destruct (bfree_open s v h l b B Hf Hb) as (i & d1 & d2 & E1 & E2 & Hi & Hr2 & Hg2).
  pose proof (read_block_data d2 v _ l i _ Hr2 (lookup_insert_eq _ _ _)) as E3.
  eapply panics_bind_nil; [exact E1|]. eapply panics_bind_nil; [apply runs_modify|].
  eapply panics_bind_nil; [apply runs_fd; exact E2|]. eapply panics_bind_nil; [apply runs_fd; exact E3|].
  unfold used in Hu. rewrite Hu. apply panics_panic.
Qed.

End Session.
