(* ===== verification/Mkfs.v ===== *)
(** * mkfs.c: the program that makes the file system image

    The image file is the list of its blocks.  A failing [assert] and [exit(1)]
    are [Panic]; I/O errors of the host and messages are not modelled. *)

From stdpp Require Import base numbers list gmap strings.
From S2P Require Import Prelude Bytes Mem Str Buf Fs.

Open Scope Z_scope.

Definition NINODES : Z := 200.
Definition nbitmap : Z := FSSIZE / (Z.of_nat BSIZE * 8) + 1.
Definition ninodeblocks : Z := NINODES / IPB + 1.
Definition nlog : Z := LOGSIZE.
Definition nmeta : Z := 2 + nlog + ninodeblocks + nbitmap.
Definition nblocks : Z := FSSIZE - nmeta.
Definition mk_super : superblock :=
  mk_sb FSSIZE nblocks NINODES nlog 2 (2 + nlog) (2 + nlog + ninodeblocks).

(** [xshort(x)] and [xint(x)], as the bytes they put in memory. *)
Definition xshort (x : Z) : list Z := [u8 x; u8 (Z.shiftr x 8)].
Definition xint (x : Z) : list Z :=
  [u8 x; u8 (Z.shiftr x 8); u8 (Z.shiftr x 16); u8 (Z.shiftr x 24)].

Record mkfs := mk_mkfs {
  image : list (list Z);    (* the file behind fsfd *)
  freeinode : Z;
  freeblock : Z
}.

(** [struct dinode], fields in the byte order of the host. *)
Record dinode := mk_dinode {
  d_type : Z; d_major : Z; d_minor : Z; d_nlink : Z;
  d_size : Z;
  d_addrs : list Z
}.
Definition dinode_of (d : list Z) (o : nat) : dinode :=
  mk_dinode (get16 d o) (get16 d (o + 2)) (get16 d (o + 4)) (get16 d (o + 6)) (get32 d (o + 8))
    (daddrs d o).
Definition dinode_bytes (x : dinode) : list Z :=
  xshort (d_type x) ++ xshort (d_major x) ++ xshort (d_minor x) ++ xshort (d_nlink x)
    ++ xint (d_size x) ++ mjoin (xint <$> d_addrs x).
Definition set_dsize (n : Z) (x : dinode) : dinode :=
  mk_dinode (d_type x) (d_major x) (d_minor x) (d_nlink x) n (d_addrs x).
Definition set_daddr (k : nat) (a : Z) (x : dinode) : dinode :=
  mk_dinode (d_type x) (d_major x) (d_minor x) (d_nlink x) (d_size x) (<[k := a]> (d_addrs x)).

(** A write beyond the end of the file leaves a hole of zeroes. *)
Definition wsect (sec : Z) (b : list Z) : M mkfs unit :=
  modify (fun m =>
    let k := Z.to_nat sec in
    let l := image m ++ replicate (S k - length (image m)) (replicate BSIZE 0) in
    mk_mkfs (<[k := b]> l) (freeinode m) (freeblock m)).

Definition rsect (sec : Z) : M mkfs (list Z) :=
  let* m := get in
  match image m !! Z.to_nat sec with
  | Some b => ret b
  | None => panic "read"
  end.

Definition winode (inum : Z) (ip : dinode) : M mkfs unit :=
  let bn := IBLOCK inum mk_super in
  let* b := rsect bn in
  wsect bn (splice b (ioff inum) (dinode_bytes ip)).

Definition rinode (inum : Z) : M mkfs dinode :=
  let* b := rsect (IBLOCK inum mk_super) in
  ret (dinode_of b (ioff inum)).

Definition mkfs_ialloc (type : Z) : M mkfs Z :=
  let* m := get in
  let inum := freeinode m in
  modify (fun m => mk_mkfs (image m) (u32 (inum + 1)) (freeblock m)) ;;
  winode inum (mk_dinode type 0 0 1 0 (replicate (Z.to_nat (NDIRECT + 1)) 0)) ;;
  ret inum.

(** The bitmap with the first [n] bits set. *)
Definition first_bits (n : Z) : list Z :=
  foldl bit_set (replicate BSIZE 0) (zrange 0 (Z.to_nat n)).

Definition mkfs_balloc (n : Z) : M mkfs unit :=
  if negb (n <? Z.of_nat BSIZE * 8) then panic "assert"
  else wsect (sb_bmapstart mk_super) (first_bits n).

(** [freeblock++] *)
Definition next_block : M mkfs Z :=
  let* m := get in
  modify (fun m => mk_mkfs (image m) (freeinode m) (u32 (freeblock m + 1))) ;;
  ret (freeblock m).

(** [din.addrs[k]], given a block if it has none. *)
Definition din_block (k : Z) (din : dinode) : M mkfs (Z * dinode) :=
  let a := nth (Z.to_nat k) (d_addrs din) 0 in
  if a =? 0 then
    let* b := next_block in
    ret (b, set_daddr (Z.to_nat k) b din)
  else ret (a, din).

(** The block that holds block [fbn] of the file. *)
Definition iappend_block (fbn : Z) (din : dinode) : M mkfs (Z * dinode) :=
  if fbn <? NDIRECT then din_block fbn din
  else
    let* '(ind, din) := din_block NDIRECT din in
    let* indirect := rsect ind in
    let o := Z.to_nat (4 * (fbn - NDIRECT)) in
    let* x :=
      if get32 indirect o =? 0 then
        let* b := next_block in
        wsect ind (put32 indirect o b) ;;
        ret b
      else ret (get32 indirect o)
    in
    ret (x, din).

(** The loop of [iappend]: the bytes [p] go to offset [off]. *)
Fixpoint iappend_loop (fuel : nat) (p : list Z) (off : Z) (din : dinode) : M mkfs (Z * dinode) :=
  if Z.of_nat (length p) >? 0 then
    match fuel with
    | O => fun _ => ([], NoFuel)
    | S k =>
        let fbn := off / BS in
        if negb (fbn <? MAXFILE) then panic "assert"
        else
          let* '(x, din) := iappend_block fbn din in
          let n1 := Z.min (Z.of_nat (length p)) ((fbn + 1) * BS - off) in
          let* b := rsect x in
          wsect x (splice b (Z.to_nat (off - fbn * BS)) (take (Z.to_nat n1) p)) ;;
          iappend_loop k (drop (Z.to_nat n1) p) (off + n1) din
    end
  else ret (off, din).

Definition iappend (inum : Z) (p : list Z) : M mkfs unit :=
  let* din := rinode inum in
  let* '(off, din) := iappend_loop (S (length p)) p (d_size din) din in
  winode inum (set_dsize off din).

(** Append one directory entry to the root. *)
Definition add_entry (rootino inum : Z) (name : list Z) : M mkfs unit :=
  iappend rootino (dirent_bytes (mk_dirent inum (strncpy_bytes DIRSIZ (bytes name)))).

(** [read(fd, buf, sizeof(buf))] until the end of a regular file. *)
Fixpoint copy_file (fuel : nat) (inum : Z) (contents : list Z) : M mkfs unit :=
  match contents with
  | [] => ret tt
  | _ =>
      match fuel with
      | O => fun _ => ([], NoFuel)
      | S k =>
          iappend inum (take BSIZE contents) ;;
          copy_file k inum (drop BSIZE contents)
      end
  end.

(** The loop over the files: each name and its contents. *)
Definition add_file (rootino : Z) (f : list Z * list Z) : M mkfs unit :=
  let '(name, contents) := f in
  if bool_decide (SLASH ∈ name) then panic "assert"
  else
    let name := match name with 95 :: rest => rest | _ => name end in
    let* inum := mkfs_ialloc T_FILE in
    add_entry rootino inum name ;;
    copy_file (length contents) inum contents.

Definition super_bytes : list Z :=
  xint (sb_size mk_super) ++ xint (sb_nblocks mk_super) ++ xint (sb_ninodes mk_super)
    ++ xint (sb_nlog mk_super) ++ xint (sb_logstart mk_super) ++ xint (sb_inodestart mk_super)
    ++ xint (sb_bmapstart mk_super).

Definition DOT : Z := 46.

(** [main]: makes the image from the files on the command line. *)
Definition mkfs_main (files : list (list Z * list Z)) : M mkfs unit :=
  modify (fun m => mk_mkfs (image m) (freeinode m) nmeta) ;;
  for_all (zrange 0 (Z.to_nat FSSIZE)) (fun i => wsect i (replicate BSIZE 0)) ;;
  wsect 1 (splice (replicate BSIZE 0) 0 super_bytes) ;;
  let* rootino := mkfs_ialloc T_DIR in
  if negb (rootino =? ROOTINO) then panic "assert"
  else
    add_entry rootino rootino [DOT] ;;
    add_entry rootino rootino [DOT; DOT] ;;
    for_all files (add_file rootino) ;;
    let* din := rinode rootino in
    let off := (d_size din / BS + 1) * BS in
    winode rootino (set_dsize off din) ;;
    let* m := get in
    mkfs_balloc (freeblock m).

(** The program starts with an empty (truncated) file. *)
Definition mkfs_start : mkfs := mk_mkfs [] 1 0.
Definition mkfs_image (files : list (list Z * list Z)) : option (list (list Z)) :=
  match mkfs_main files mkfs_start with
  | (_, Ret _ m) => Some (image m)
  | _ => None
  end.
