(* ===== verification/FsImage.v ===== *)
(** * A booted file system

    The image mkfs makes with no files, in the in-memory disk, behind a fresh
    buffer cache and an empty log, with one file system operation begun. *)

From stdpp Require Import base numbers list gmap strings.
From S2P Require Import Prelude Bytes Mem Str Buf Memide Bio Bcache Log LogCrash Tx Recovery Fs TxSpec FsBlock Mkfs.

Open Scope Z_scope.

Definition new_image : list (list Z) := default [] (mkfs_image []).

(** The image as the bytes the linker places in the kernel. *)
Definition image_mem (img : list (list Z)) : mem := fun x =>
  byte_at (nth (Z.to_nat (x / BS)) img []) (Z.to_nat (x `mod` BS)).
Definition new_disk : memide := ideinit (image_mem new_image) (FSSIZE * BS).
Definition new_log : log := set_where 2 LOGSIZE ROOTDEV boot_log.

Definition zero_inode : inode :=
  mk_inode 0 0 0 0 0 0 0 0 0 (replicate (Z.to_nat (NDIRECT + 1)) 0).
Definition new_fs {S} (d : S) : fsst S := mk_fsst d mk_super false (replicate NINODE zero_inode).

Lemma new_ready : drv_ready new_disk.
Proof. vm_compute. reflexivity. Qed.

Lemma new_quiet : quiet new_log (fresh_cache (drv_sector new_disk)) FSSIZE.
Proof.
  constructor; try reflexivity. constructor.
  - constructor; cbn; try lia; try done; constructor.
  - apply fresh_free.
  - reflexivity.
  - vm_compute. reflexivity.
  - vm_compute. split; reflexivity.
Qed.

(** Inside a transaction that has logged nothing yet. *)
Lemma quiet_rep {S} `{BCacheSpec S} (s : S) L d :
  brep s (fresh_cache d) -> quiet L (fresh_cache d) (nblk s) ->
  crep (mk_logst s (set_outstanding 1 L)) d ∅ ∅.
Proof.
  intros Hr [Hi Hn Ho Hc Hlk Hh]. constructor; cbn; auto; [|lia].
  exists (fresh_cache d). split; [exact Hr|]. split; [by apply (log_inv_same L)|]. done.
Qed.

Definition new_geom : geom := mk_geom FSSIZE 2 LOGSIZE.

Lemma new_wf_sb : wf_sb new_geom mk_super.
Proof. constructor; vm_compute; repeat split; congruence. Qed.

Lemma new_super : sb_of (drv_sector new_disk 1) = mk_super.
Proof. vm_compute. reflexivity. Qed.

Lemma new_bitmap b : 0 <= b < FSSIZE -> used (drv_sector new_disk) mk_super b = (b <? nmeta + 1).
Proof.
  intros Hb. apply Bool.eqb_prop.
  apply (zrange_check (fun b => Bool.eqb (used (drv_sector new_disk) mk_super b) (b <? nmeta + 1)) 0 (Z.to_nat FSSIZE));
    [vm_compute; reflexivity|done].
Qed.

Lemma new_data b : data_block mk_super b <-> nmeta <= b < FSSIZE.
Proof.
  unfold data_block. change (sb_bmapstart mk_super + sb_size mk_super / BPB) with 58.
  change (sb_size mk_super) with 1000. change nmeta with 59. unfold FSSIZE. lia.
Qed.

Lemma new_meta : meta_used (drv_sector new_disk) mk_super.
Proof.
  intros b Hb. rewrite new_bitmap by done. intros Hlt%Z.ltb_ge.
  apply new_data. cbn in Hb. unfold FSSIZE in *. lia.
Qed.

(** The file system at the start of its first operation. *)
Lemma new_blocks_ok :
  exists s : logst (bio memide),
    blocks_ok (new_fs s) (drv_sector new_disk) ∅ ∅ /\ tgeo s = new_geom.
Proof.
  destruct (binit_boot new_disk new_ready) as (s & _ & Hd & _ & Hr & _).
  assert (nblk s = FSSIZE) as HN by (cbn; rewrite Hd; reflexivity).
  assert (tgeo (mk_logst s (set_outstanding 1 new_log)) = new_geom) as Hg
    by (cbn; unfold log_geo; cbn [lbio]; by rewrite HN).
  exists (mk_logst s (set_outstanding 1 new_log)). split; [|done].
  constructor; cbn [new_fs fdev sb].
  - apply quiet_rep; [exact Hr|]. rewrite HN. exact new_quiet.
  - rewrite Hg. exact new_wf_sb.
  - exact new_super.
  - exact new_meta.
  - intros i n Hi. by rewrite lookup_empty in Hi.
Qed.

Lemma new_fits k : (k <= 29)%nat -> fits new_geom ∅ ∅ k.
Proof.
  intros Hk. unfold fits, gcap, new_geom, NBUF, LOGSIZE, MAXOPBLOCKS.
  rewrite map_size_empty, size_empty. cbn [g_size]. lia.
Qed.

(** ** The theorems on [balloc] and [bfree] *)

(** [balloc] takes the first free block: it returns a block of the data area
    that was free while every smaller one was in use, zeroes it, sets its bit and
    no other, and changes no other block; with the disk full it panics.  Nothing
    reaches the disk, and the allocator's invariant holds afterwards. *)
Theorem balloc_spec {S} `{TxDiskSpec S} (s : fsst S) v h l :
  blocks_ok s v h l -> fits (tgeo (fdev s)) h l 2 ->
  (exists b s' v' l', runs (balloc ROOTDEV) s [] b s' /\ blocks_ok s' v' h l'
     /\ data_block (sb s) b /\ used v (sb s) b = false
     /\ (forall k, 0 <= k < b -> used v (sb s) k = true)
     /\ (forall c, 0 <= c < sb_size (sb s) -> used v' (sb s) c = (c =? b) || used v (sb s) c)
     /\ v' b = replicate BSIZE 0
     /\ (forall n, n <> b -> ~ bitmap_block (sb s) n -> v' n = v n))
  \/ ((forall k, 0 <= k < sb_size (sb s) -> used v (sb s) k = true)
     /\ panics (balloc ROOTDEV) s "balloc: out of blocks").
Proof.
  intros B Hf. destruct (balloc_run s v h l B Hf) as [(b & d & Hff & Hd & E & Hg & B')|Hno]; [left|by right].
  destruct Hff as (Hr & Hu & Hmin).
  exists b, (with_dev d s), (alloc_view v (sb s) b), ({[b]} ∪ ({[BBLOCK b (sb s)]} ∪ l)).
  repeat (split; [done|]). split; [|split].
  - intros c Hc. by apply (used_alloc s v h l B).
  - apply alloc_view_same.
  - intros n Hn Hm. by apply (alloc_view_other s v h l B).
Qed.

Lemma balloc_spec_witness :
  exists (s s' : fsst (logst (bio memide))) b,
    runs (balloc ROOTDEV) s [] b s' /\ b = nmeta + 1.
Proof.
  destruct new_blocks_ok as (s & B & Hg).
  destruct (balloc_spec (new_fs s) (drv_sector new_disk) ∅ ∅ B) as
    [(b & s' & v' & l' & E & _ & Hd & Hu & Hmin & _)|[Hfull _]].
  - cbn [new_fs fdev]. rewrite Hg. apply new_fits. lia.
  - exists (new_fs s), s', b. split; [exact E|].
    cbn [new_fs sb] in Hd, Hu, Hmin. apply new_data in Hd.
    assert (0 <= b < FSSIZE) as Hb by (change nmeta with 59 in Hd; lia). rewrite new_bitmap in Hu by done. apply Z.ltb_ge in Hu.
    destruct (Z.lt_ge_cases (nmeta + 1) b) as [Hlt|]; [|lia].
    specialize (Hmin (nmeta + 1)). rewrite new_bitmap, Z.ltb_irrefl in Hmin by (unfold FSSIZE in *; split; [done|lia]).
    assert (0 <= nmeta + 1) as H0 by (vm_compute; discriminate).
    discriminate (Hmin (conj H0 Hlt)).
  - specialize (Hfull 999). cbn [new_fs sb] in Hfull. rewrite new_bitmap in Hfull by (split; [discriminate|reflexivity]).
    assert (0 <= 999 < sb_size mk_super) as H0 by (change (sb_size mk_super) with 1000; lia).
    discriminate (Hfull H0).
Defined.

(** [bfree] gives a data block in use back: it clears its bit and no other,
    changes no block outside the bitmap, and keeps the allocator's invariant, so
    that a later [balloc] may return it; freeing a block that is free panics. *)
Theorem bfree_spec {S} `{TxDiskSpec S} (s : fsst S) v h l b :
  blocks_ok s v h l -> fits (tgeo (fdev s)) h l 1 -> data_block (sb s) b -> unheld h b ->
  if used v (sb s) b then
    exists s' v' l', runs (bfree ROOTDEV b) s [] tt s' /\ blocks_ok s' v' h l'
      /\ (forall c, 0 <= c < sb_size (sb s) -> used v' (sb s) c = negb (c =? b) && used v (sb s) c)
      /\ (forall n, ~ bitmap_block (sb s) n -> v' n = v n)
  else panics (bfree ROOTDEV b) s "freeing free block".
Proof.
  intros B Hf Hd Hun. destruct (used v (sb s) b) eqn:Hu.
  - destruct (bfree_run s v h l b B Hf Hd Hu Hun) as (d & E & Hg & B').
    exists (with_dev d s), (free_view v (sb s) b), ({[BBLOCK b (sb s)]} ∪ l).
    repeat (split; [done|]). split.
    + intros c Hc. by apply (used_free s v h l B).
    + intros n Hm. by apply (free_view_other s v h l B).
  - by apply (bfree_panics_run s v h l b B).
Qed.

Lemma bfree_spec_witness :
  exists (s s' : fsst (logst (bio memide))),
    runs (bfree ROOTDEV nmeta) s [] tt s' /\ panics (bfree ROOTDEV (nmeta + 1)) s "freeing free block".
Proof.
  destruct new_blocks_ok as (s & B & Hg).
  assert (data_block (sb (new_fs s)) nmeta) as Hd1 by (apply new_data; split; reflexivity || discriminate).
  assert (data_block (sb (new_fs s)) (nmeta + 1)) as Hd2 by (apply new_data; split; reflexivity || discriminate).
  assert (forall b, unheld ∅ b) as Hun by (intros b i; by rewrite lookup_empty).
  assert (fits (tgeo (fdev (new_fs s))) ∅ ∅ 1) as Hf by (cbn [new_fs fdev]; rewrite Hg; apply new_fits; lia).
  pose proof (bfree_spec (new_fs s) (drv_sector new_disk) ∅ ∅ nmeta B Hf Hd1 (Hun _)) as H1.
  pose proof (bfree_spec (new_fs s) (drv_sector new_disk) ∅ ∅ (nmeta + 1) B Hf Hd2 (Hun _)) as H2.
  cbn [new_fs sb] in H1, H2. rewrite new_bitmap in H1, H2 by (split; [discriminate|reflexivity]).
  destruct H1 as (s' & _ & _ & E & _). exists (new_fs s), s'. split; [exact E|exact H2].
Defined.
