(* ===== verification/FsFile.v ===== *)
(** * Files: what [bmap], [readi] and [writei] of fs.c do

    An inode describes a sequence of bytes; a block that is not allocated reads
    as zeroes.  [bmap] allocates blocks without changing the sequence. *)

From stdpp Require Import base numbers list gmap strings.
From S2P Require Import Prelude Bytes Mem Str Buf Log LogCrash Tx Fs TxSpec FsBlock.

Open Scope Z_scope.

(** ** The blocks of a file *)

Definition ind (ip : inode) : Z := nth (Z.to_nat NDIRECT) (i_addrs ip) 0.

(** The address of block [bn] of the file, 0 if it has none. *)
Definition faddr (v : Z -> list Z) (ip : inode) (bn : Z) : Z :=
  if bn <? NDIRECT then nth (Z.to_nat bn) (i_addrs ip) 0
  else if ind ip =? 0 then 0 else get32 (v (ind ip)) (Z.to_nat (4 * (bn - NDIRECT))).

(** Byte [o] of the file. *)
Definition content (v : Z -> list Z) (ip : inode) (o : Z) : Z :=
  let a := faddr v ip (o / BS) in
  if a =? 0 then 0 else byte_at (v a) (Z.to_nat (o `mod` BS)).

(** A block in use for file contents. *)
Definition good (v : Z -> list Z) (x : superblock) (b : Z) : Prop :=
  data_block x b /\ used v x b = true.

Record file_ok (v : Z -> list Z) (x : superblock) (ip : inode) : Prop := {
  fo_len : length (i_addrs ip) = Z.to_nat (NDIRECT + 1);
  fo_dev : i_dev ip = ROOTDEV;
  fo_ind : ind ip = 0 \/ good v x (ind ip);
  fo_addr : forall bn, 0 <= bn < MAXFILE -> faddr v ip bn = 0 \/ good v x (faddr v ip bn);
  fo_inj : forall j k, 0 <= j < MAXFILE -> 0 <= k < MAXFILE ->
    faddr v ip j = faddr v ip k -> faddr v ip j <> 0 -> j = k;
  fo_ne : forall j, 0 <= j < MAXFILE -> faddr v ip j = ind ip -> ind ip = 0
}.

(** [ip'] describes the same bytes as [ip], on possibly more blocks, which were
    free; blocks of other files and metadata other than the bitmap are kept. *)
Record grown (x : superblock) (v : Z -> list Z) (ip : inode) (v' : Z -> list Z) (ip' : inode) : Prop := {
  gr_ok : file_ok v' x ip';
  gr_same : ip' = set_iaddrs (i_addrs ip') ip;
  gr_content : forall o, 0 <= o < MAXFILE * BS -> content v' ip' o = content v ip o;
  gr_keep : forall n, good v x n -> n <> ind ip -> v' n = v n;
  gr_used : forall n, good v x n -> good v' x n;
  gr_meta : forall n, ~ bitmap_block x n -> ~ data_block x n -> v' n = v n;
  gr_ind : ind ip' = ind ip \/ ind ip = 0 /\ used v x (ind ip') = false;
  gr_addr : forall bn, 0 <= bn < MAXFILE ->
    faddr v' ip' bn = faddr v ip bn \/ faddr v ip bn = 0 /\ used v x (faddr v' ip' bn) = false
}.

Lemma grown_refl x v ip : file_ok v x ip -> grown x v ip v ip.
Proof. intros Hf. constructor; auto. by destruct ip. Qed.

Lemma grown_trans x v ip v1 ip1 v2 ip2 :
  grown x v ip v1 ip1 -> grown x v1 ip1 v2 ip2 -> grown x v ip v2 ip2.
Proof.
  intros G1 G2.
  assert (Hun : forall n, data_block x n -> used v1 x n = false -> used v x n = false).
  { intros n Hd Hn. destruct (used v x n) eqn:Hu; [|done].
    destruct (gr_used _ _ _ _ _ G1 n (conj Hd Hu)). congruence. }
  constructor.
  - apply G2.
  - rewrite (gr_same _ _ _ _ _ G2), (gr_same _ _ _ _ _ G1). by destruct ip.
  - intros o Ho. rewrite (gr_content _ _ _ _ _ G2), (gr_content _ _ _ _ _ G1); auto.
  - intros n Hn Hi. rewrite (gr_keep _ _ _ _ _ G2), (gr_keep _ _ _ _ _ G1); auto.
    + by apply (gr_used _ _ _ _ _ G1).
    + destruct (gr_ind _ _ _ _ _ G1) as [->|[_ Hu]]; [done|]. intros ->. destruct Hn. congruence.
  - intros n Hn. by apply (gr_used _ _ _ _ _ G2), (gr_used _ _ _ _ _ G1).
  - intros n Hb Hd. rewrite (gr_meta _ _ _ _ _ G2), (gr_meta _ _ _ _ _ G1); auto.
  - destruct (gr_ind _ _ _ _ _ G2) as [E2|[E2 Hu2]].
    + rewrite E2. apply (gr_ind _ _ _ _ _ G1).
    + destruct (gr_ind _ _ _ _ _ G1) as [E1|[E1 Hu1]].
      * destruct (fo_ind _ _ _ (gr_ok _ _ _ _ _ G2)) as [E|[Hd _]]; [left; congruence|].
        right. split; [congruence|]. by apply Hun.
      * destruct (fo_ind _ _ _ (gr_ok _ _ _ _ _ G2)) as [E|[Hd _]]; [left; congruence|].
        right. split; [done|]. by apply Hun.
  - intros bn Hbn. destruct (gr_addr _ _ _ _ _ G2 bn Hbn) as [E2|[E2 Hu2]].
    + rewrite E2. by apply (gr_addr _ _ _ _ _ G1).
    + assert (faddr v ip bn = 0) as E0
        by (destruct (gr_addr _ _ _ _ _ G1 bn Hbn) as [E|[E _]]; congruence).
      destruct (fo_addr _ _ _ (gr_ok _ _ _ _ _ G2) bn Hbn) as [E|[Hd _]]; [left; congruence|].
      right. split; [done|]. by apply Hun.
Qed.

(** ** One block more *)

Lemma byte_zeros k : byte_at (replicate BSIZE 0) k = 0.
Proof. rewrite byte_at_lookup. destruct (replicate BSIZE 0 !! k) eqn:E; [|done].
  apply lookup_replicate in E as [-> _]. done. Qed.

Lemma get32_zeros k : get32 (replicate BSIZE 0) k = 0.
Proof. unfold get32. by rewrite !byte_zeros. Qed.

Lemma good_or_zero v x b n : used v x b = false -> n = 0 \/ good v x n -> n = b -> b = 0.
Proof. intros Hu [->|[_ Hg]] E; [done|]. rewrite E in Hg. congruence. Qed.

Section One.
Context {S : Type} `{TxDiskSpec S}.
Variables (s : fsst S) (v : Z -> list Z) (h : gmap nat Z) (l : gset Z) (ip : inode) (b : Z).
Hypothesis B : blocks_ok s v h l.
Hypothesis F : file_ok v (sb s) ip.
Hypothesis Hb : data_block (sb s) b.
Hypothesis Hfree : used v (sb s) b = false.

Lemma free_pos : b <> 0.
Proof. pose proof (data_range _ _ _ (bo_sb _ _ _ _ B) Hb). lia. Qed.

Lemma ind_not_b : ind ip <> b.
Proof. intros E. by apply free_pos, (good_or_zero v (sb s) b (ind ip) Hfree (fo_ind _ _ _ F)). Qed.

Lemma faddr_not_b bn : 0 <= bn < MAXFILE -> faddr v ip bn <> b.
Proof.
  intros Hbn E. by apply free_pos, (good_or_zero v (sb s) b _ Hfree (fo_addr _ _ _ F bn Hbn)).
Qed.

(** The new block becomes block [pt] of the file (or, with [pt] not a block
    number, its indirect block). *)
Lemma grown_one v' ip' pt :
  ip' = set_iaddrs (i_addrs ip') ip -> length (i_addrs ip') = Z.to_nat (NDIRECT + 1) ->
  (forall c, 0 <= c < sb_size (sb s) -> used v' (sb s) c = (c =? b) || used v (sb s) c) ->
  (forall bn, 0 <= bn < MAXFILE -> faddr v' ip' bn = if bn =? pt then b else faddr v ip bn) ->
  (0 <= pt < MAXFILE -> faddr v ip pt = 0 /\ ind ip' = ind ip) ->
  ind ip' = ind ip \/ ind ip = 0 /\ ind ip' = b ->
  v' b = replicate BSIZE 0 ->
  (forall n, good v (sb s) n -> n <> ind ip -> v' n = v n) ->
  (forall n, ~ bitmap_block (sb s) n -> ~ data_block (sb s) n -> v' n = v n) ->
  grown (sb s) v ip v' ip'.
Proof.
  intros Hip Hlen Hused Haddr Hpt Hind Hzero Hkeep Hmeta.
  pose proof (bo_sb _ _ _ _ B) as W. pose proof free_pos as Hb0.
  assert (Hg : forall n, good v (sb s) n -> good v' (sb s) n).
  { intros n [Hd Hn]. split; [done|]. pose proof (data_range _ _ _ W Hd).
    rewrite Hused, Hn by lia. apply orb_true_r. }
  assert (Hgb : good v' (sb s) b).
  { split; [done|]. pose proof (data_range _ _ _ W Hb). by rewrite Hused, Z.eqb_refl by lia. }
  constructor; auto.
  - constructor; auto.
    + rewrite Hip. apply F.
    + destruct Hind as [->|[_ ->]]; [|by right]. destruct (fo_ind _ _ _ F); auto.
    + intros bn Hbn. rewrite Haddr by done. destruct (bn =? pt); [by right|].
      destruct (fo_addr _ _ _ F bn Hbn); auto.
    + intros j k Hj Hk. rewrite !Haddr by done.
      destruct (Z.eqb_spec j pt) as [->|], (Z.eqb_spec k pt) as [->|]; intros E Hn.
      * done.
      * by destruct (faddr_not_b k Hk).
      * by destruct (faddr_not_b j Hj).
      * by apply (fo_inj _ _ _ F).
    + intros j Hj. rewrite Haddr by done. destruct (Z.eqb_spec j pt) as [->|].
      * destruct (Hpt Hj) as [_ ->]. intros E. by destruct ind_not_b.
      * destruct Hind as [->|[_ ->]]; [by apply (fo_ne _ _ _ F)|].
        intros E. by destruct (faddr_not_b j Hj).
  - intros o Ho. assert (0 <= o / BS < MAXFILE) as Hr.
    { split; [apply Z.div_pos; [lia|done]|]. apply Z.div_lt_upper_bound; [done|]. rewrite Z.mul_comm. lia. }
    unfold content. rewrite Haddr by done. destruct (Z.eqb_spec (o / BS) pt) as [E|_].
    + rewrite E in *. destruct (Hpt Hr) as [-> _]. rewrite Hzero, byte_zeros. cbn. by destruct (b =? 0).
    + destruct (Z.eqb_spec (faddr v ip (o / BS)) 0) as [|Hn]; [done|]. rewrite Hkeep; [done| |].
      * by destruct (fo_addr _ _ _ F _ Hr).
      * intros E. pose proof (fo_ne _ _ _ F _ Hr E). congruence.
  - destruct Hind as [|[H1 ->]]; auto.
  - intros bn Hbn. rewrite Haddr by done. destruct (Z.eqb_spec bn pt) as [->|]; [|by left].
    destruct (Hpt Hbn) as [H1 _]. by right.
Qed.

Lemma alloc_keep n : good v (sb s) n -> alloc_view v (sb s) b n = v n.
Proof.
  intros [Hd Hu]. apply (alloc_view_other s v h l B); auto; [congruence|].
  intros Hm. by apply (data_not_bitmap (sb s) n n).
Qed.

(** A direct block, or the indirect block. *)
Lemma grown_addr k :
  0 <= k <= NDIRECT -> nth (Z.to_nat k) (i_addrs ip) 0 = 0 ->
  grown (sb s) v ip (alloc_view v (sb s) b) (set_iaddrs (<[Z.to_nat k := b]> (i_addrs ip)) ip).
Proof.
  intros Hk Hz. pose proof (bo_sb _ _ _ _ B) as W. pose proof (fo_len _ _ _ F) as Hlen.
  assert (Hnth : forall j, 0 <= j <= NDIRECT ->
    nth (Z.to_nat j) (<[Z.to_nat k := b]> (i_addrs ip)) 0 = if j =? k then b else nth (Z.to_nat j) (i_addrs ip) 0).
  { intros j Hj. fold (byte_at (<[Z.to_nat k := b]> (i_addrs ip)) (Z.to_nat j)). rewrite byte_at_insert.
    destruct (Z.eqb_spec j k) as [->|]; case_decide as Hc; try done; [|lia].
    destruct Hc. split; [done|]. rewrite Hlen. lia. }
  apply (grown_one _ _ (if k =? NDIRECT then -1 else k)); try done.
  - cbn. by rewrite length_insert.
  - intros c Hc. by apply (used_alloc s v h l B).
  - intros bn Hbn. unfold faddr, ind. cbn [i_addrs set_iaddrs]. rewrite (Hnth NDIRECT) by (unfold NDIRECT; lia).
    destruct (Z.ltb_spec bn NDIRECT) as [Hlt|Hge].
    + rewrite Hnth by lia. destruct (Z.eqb_spec k NDIRECT) as [->|]; [|done].
      destruct (Z.eqb_spec bn NDIRECT), (Z.eqb_spec bn (-1)); try done; lia.
    + destruct (Z.eqb_spec NDIRECT k) as [<-|].
      * rewrite Z.eqb_refl, Hz, alloc_view_same, get32_zeros. cbn.
        destruct (Z.eqb_spec bn (-1)); [lia|]. by destruct (b =? 0).
      * destruct (Z.eqb_spec k NDIRECT); [done|]. destruct (Z.eqb_spec bn k); [lia|].
        destruct (Z.eqb_spec (nth (Z.to_nat NDIRECT) (i_addrs ip) 0) 0) as [|Hi]; [done|].
        rewrite alloc_keep; [done|]. by destruct (fo_ind _ _ _ F).
  - destruct (Z.eqb_spec k NDIRECT) as [->|Hne]; [lia|]. intros _. unfold faddr.
    destruct (Z.ltb_spec k NDIRECT); [|lia]. split; [done|]. unfold ind. cbn [i_addrs set_iaddrs].
    rewrite Hnth by (unfold NDIRECT; lia). by destruct (Z.eqb_spec NDIRECT k).
  - unfold ind. cbn [i_addrs set_iaddrs]. rewrite Hnth by (unfold NDIRECT; lia).
    destruct (Z.eqb_spec NDIRECT k) as [<-|]; [by right|by left].
  - apply alloc_view_same.
  - intros n Hn _. by apply alloc_keep.
  - intros n Hm Hd. apply (alloc_view_other s v h l B); auto. congruence.
Qed.

(** An entry of the indirect block. *)
Lemma grown_ind bn :
  NDIRECT <= bn < MAXFILE -> ind ip <> 0 -> faddr v ip bn = 0 ->
  grown (sb s) v ip
    (zupd (alloc_view v (sb s) b) (ind ip) (put32 (v (ind ip)) (Z.to_nat (4 * (bn - NDIRECT))) b)) ip.
Proof.
  intros Hbn Hi Hz. pose proof (bo_sb _ _ _ _ B) as W. pose proof ind_not_b as Hnb.
  destruct (fo_ind _ _ _ F) as [|Hg]; [done|].
  assert (Hm : ~ bitmap_block (sb s) (ind ip)).
  { intros Hm. destruct Hg. by apply (data_not_bitmap (sb s) (ind ip) (ind ip)). }
  pose proof (data_range _ _ _ W Hb) as Hbr. pose proof (ws_size _ _ W).
  apply (grown_one _ _ bn).
  - by destruct ip.
  - apply F.
  - intros c Hc. rewrite <- (used_alloc s v h l B b c Hb Hc). unfold used, zupd at 1.
    destruct (Z.eqb_spec (BBLOCK c (sb s)) (ind ip)) as [E|]; [|done].
    destruct Hm. rewrite <- E. by apply (bblock_bitmap _ _ W).
  - intros k Hk. unfold faddr. destruct (Z.ltb_spec k NDIRECT).
    + destruct (Z.eqb_spec k bn); [lia|done].
    + destruct (Z.eqb_spec (ind ip) 0); [done|]. rewrite zupd_eq. destruct (Z.eqb_spec k bn) as [->|].
      * apply get32_put32_eq; [|lia].
        rewrite (view_length s v h l _ B) by (apply (data_home _ _ W), Hg).
        change MAXFILE with 140 in *. change NDIRECT with 12 in *. unfold BSIZE. lia.
      * apply get32_put32_ne. lia.
  - done.
  - by left.
  - rewrite zupd_ne by done. apply alloc_view_same.
  - intros n Hn Hni. rewrite zupd_ne by done. by apply alloc_keep.
  - intros n Hm' Hd'. destruct Hg as [Hg _]. rewrite zupd_ne by congruence.
    apply (alloc_view_other s v h l B); auto. congruence.
Qed.

End One.

(** ** Free blocks *)

Definition free_set (v : Z -> list Z) (x : superblock) : gset Z :=
  filter (fun b => used v x b = false) (list_to_set (zrange 0 (Z.to_nat (sb_size x)))).

Lemma elem_of_free_set v x b : b ∈ free_set v x <-> 0 <= b < sb_size x /\ used v x b = false.
Proof.
  unfold free_set. rewrite elem_of_filter, elem_of_list_to_set, elem_of_zrange.
  split; intros [? ?]; (split; [|]); auto; lia.
Qed.

Lemma free_set_alloc v v' x b :
  0 <= b < sb_size x -> used v x b = false ->
  (forall c, 0 <= c < sb_size x -> used v' x c = (c =? b) || used v x c) ->
  (size (free_set v x) = size (free_set v' x) + 1)%nat.
Proof.
  intros Hb Hu Hv. assert (free_set v x = {[b]} ∪ free_set v' x) as ->.
  { apply set_eq. intros c. rewrite elem_of_union, elem_of_singleton, !elem_of_free_set. split.
    - intros [Hc Hn]. destruct (decide (c = b)) as [->|Hne]; [by left|right].
      rewrite Hv by done. split; [done|]. by destruct (Z.eqb_spec c b).
    - intros [->|[Hc Hn]]; [done|]. split; [done|]. rewrite Hv in Hn by done.
      by apply orb_false_iff in Hn as [_ Hn]. }
  rewrite size_union, size_singleton; [lia|]. apply disjoint_singleton_l. rewrite elem_of_free_set.
  intros [_ Hn]. rewrite Hv, Z.eqb_refl in Hn by done. done.
Qed.

Lemma free_set_ext v v' x :
  (forall c, 0 <= c < sb_size x -> used v x c = used v' x c) -> free_set v x = free_set v' x.
Proof.
  intros E. apply set_eq. intros c. rewrite !elem_of_free_set.
  split; intros [Hc Hu]; (split; [done|]); [rewrite <- E by done|rewrite E by done]; done.
Qed.

(** ** What a step of a file operation may do *)

Definition bitmap_set (x : superblock) : gset Z :=
  list_to_set (zrange (sb_bmapstart x) (Z.to_nat (sb_size x / BPB + 1))).

(** The blocks the transaction will have when every bitmap block and the
    indirect block of the file are in it. *)
Definition cost (x : superblock) (ip : inode) (l : gset Z) : nat :=
  size (l ∪ bitmap_set x ∪ {[ind ip]}).

(** Room for [k] more. *)
Definition budget (g : geom) (x : superblock) (ip : inode) (l : gset Z) (k : nat) : Prop :=
  (cost x ip l + k + 3 <= NBUF)%nat /\ Z.of_nat (cost x ip l + k + 2) <= gcap g /\ 0 ∉ l.

Lemma cost_size x ip l : (size l <= cost x ip l)%nat.
Proof. apply subseteq_size. set_solver. Qed.

Lemma budget_fits g x ip l k : budget g x ip l k -> fits g ∅ l (k + 2).
Proof.
  intros (H1 & H2 & _). unfold fits. rewrite map_size_empty.
  pose proof (cost_size x ip l). lia.
Qed.

Lemma budget_fits_held g x ip l k i n : budget g x ip l k -> fits g {[i := n]} l (k + 2).
Proof.
  intros (H1 & H2 & _). unfold fits. rewrite map_size_singleton.
  pose proof (cost_size x ip l). lia.
Qed.

Section File.
Context {S : Type} `{TxDiskSpec S}.

Definition with_inode (d : S) (i : nat) (ip : inode) (s : fsst S) : fsst S :=
  mk_fsst d (sb s) (ic_lock s) (<[i := ip]> (inodes s)).

Lemma runs_ino (s : fsst S) i ip : inodes s !! i = Some ip -> runs (ino i) s [] ip s.
Proof. intros Hi. exists []. unfold ino. by rewrite Hi. Qed.

Lemma runs_upd_ino (s : fsst S) i ip f :
  inodes s !! i = Some ip -> runs (upd_ino i f) s [] tt (with_inode (fdev s) i (f ip) s).
Proof.
  intros Hi. eapply runs_bind_nil; [by apply runs_ino|].
  exact (runs_modify (fun s => with_inode (fdev s) i (f ip) s) s).
Qed.

Lemma runs_addr_at (s : fsst S) ip k :
  length (i_addrs ip) = Z.to_nat (NDIRECT + 1) -> 0 <= k <= NDIRECT ->
  runs (addr_at ip k) s [] (nth (Z.to_nat k) (i_addrs ip) 0) s.
Proof.
  intros Hl Hk. exists []. unfold addr_at. assert (Z.to_nat k < length (i_addrs ip))%nat as Hlt by lia.
  apply lookup_lt_is_Some in Hlt as [a Ha]. by rewrite (nth_lookup_Some _ _ _ _ Ha), Ha.
Qed.

Lemma with_inode_same (s : fsst S) i ip :
  inodes s !! i = Some ip -> with_inode (fdev s) i ip s = s.
Proof. intros Hi. unfold with_inode. rewrite list_insert_id by done. by destruct s. Qed.

Lemma with_inode_lookup d i ip ip0 (s : fsst S) :
  inodes s !! i = Some ip0 -> inodes (with_inode d i ip s) !! i = Some ip.
Proof. intros Hi. cbn. apply list_lookup_insert_eq. by apply lookup_lt_Some in Hi. Qed.

(** From [s] to [s'], file [i] may have grown; at most [c] more blocks are in the
    transaction and [f] more in use. *)
Record file_step (i : nat) (s : fsst S) v l ip (s' : fsst S) v' l' ip' (c f : nat) : Prop := {
  st_blocks : blocks_ok s' v' ∅ l';
  st_state : s' = with_inode (fdev s') i ip' s;
  st_geo : tgeo (fdev s') = tgeo (fdev s);
  st_grown : grown (sb s) v ip v' ip';
  st_cost : (cost (sb s) ip' l' <= cost (sb s) ip l + c)%nat;
  st_zero : 0 ∉ l';
  st_free : (size (free_set v (sb s)) <= size (free_set v' (sb s)) + f)%nat
}.

Lemma file_step_refl i s v l ip :
  blocks_ok s v ∅ l -> inodes s !! i = Some ip -> file_ok v (sb s) ip -> 0 ∉ l ->
  file_step i s v l ip s v l ip 0 0.
Proof.
  intros B Hi F Hl. constructor; auto; try lia.
  - by rewrite with_inode_same.
  - by apply grown_refl.
Qed.

Lemma file_step_le i s v l ip s' v' l' ip' c f c' f' :
  (c <= c')%nat -> (f <= f')%nat ->
  file_step i s v l ip s' v' l' ip' c f -> file_step i s v l ip s' v' l' ip' c' f'.
Proof. intros Hc Hf []. constructor; auto; lia. Qed.

Lemma file_step_sb i s v l ip s' v' l' ip' c f :
  file_step i s v l ip s' v' l' ip' c f -> sb s' = sb s.
Proof. intros St. by rewrite (st_state _ _ _ _ _ _ _ _ _ _ _ St). Qed.

Lemma file_step_trans i s v l ip s1 v1 l1 ip1 s2 v2 l2 ip2 c1 f1 c2 f2 :
  file_step i s v l ip s1 v1 l1 ip1 c1 f1 -> file_step i s1 v1 l1 ip1 s2 v2 l2 ip2 c2 f2 ->
  file_step i s v l ip s2 v2 l2 ip2 (c1 + c2) (f1 + f2).
Proof.
  intros St1 St2. pose proof (file_step_sb _ _ _ _ _ _ _ _ _ _ _ St1) as Hsb.
  destruct St1 as [B1 E1 G1 Gr1 C1 Z1 F1], St2 as [B2 E2 G2 Gr2 C2 Z2 F2].
  rewrite Hsb in *. constructor; auto; try lia.
  - rewrite E2, E1. unfold with_inode. cbn. by rewrite list_insert_insert_eq.
  - congruence.
  - by apply (grown_trans _ _ _ v1 ip1).
Qed.

Lemma file_step_lookup i s v l ip s' v' l' ip' c f :
  file_step i s v l ip s' v' l' ip' c f -> inodes s !! i = Some ip -> inodes s' !! i = Some ip'.
Proof.
  intros St Hi. rewrite (st_state _ _ _ _ _ _ _ _ _ _ _ St). by eapply with_inode_lookup.
Qed.

Lemma budget_step i s v l ip s' v' l' ip' c f k :
  file_step i s v l ip s' v' l' ip' c f -> budget (tgeo (fdev s)) (sb s) ip l (c + k) ->
  budget (tgeo (fdev s')) (sb s') ip' l' k.
Proof.
  intros St (H1 & H2 & _). rewrite (st_geo _ _ _ _ _ _ _ _ _ _ _ St), (file_step_sb _ _ _ _ _ _ _ _ _ _ _ St).
  pose proof (st_cost _ _ _ _ _ _ _ _ _ _ _ St). split; [lia|]. split; [lia|].
  by apply (st_zero _ _ _ _ _ _ _ _ _ _ _ St).
Qed.

(** *** Cost of the blocks an allocation logs *)

Lemma bblock_in_set g x b : wf_sb g x -> 0 <= b < sb_size x -> BBLOCK b x ∈ bitmap_set x.
Proof.
  intros W Hb. pose proof (bblock_bitmap g x W b Hb) as [H1 H2]. unfold bitmap_set.
  rewrite elem_of_list_to_set, elem_of_zrange. lia.
Qed.

Lemma cost_add g x ip l b : wf_sb g x -> 0 <= b < sb_size x ->
  (cost x ip ({[b]} ∪ ({[BBLOCK b x]} ∪ l)) <= cost x ip l + 1)%nat.
Proof.
  intros W Hb. pose proof (bblock_in_set g x b W Hb). unfold cost.
  etransitivity; [|apply (size_add_le _ b)]. apply subseteq_size. set_solver.
Qed.

Lemma zero_not_bitmap g x : wf_sb g x -> 0 ∉ bitmap_set x.
Proof.
  intros [H1 H2 H3 H4]. pose proof (Z.div_pos (sb_ninodes x) IPB ltac:(lia) ltac:(done)).
  unfold bitmap_set. rewrite elem_of_list_to_set, elem_of_zrange. lia.
Qed.

(** The new block is the file's indirect block, which was counted already. *)
Lemma cost_new_ind g x ip ip' l b : wf_sb g x -> 0 <= b < sb_size x -> 0 ∉ l -> ind ip = 0 -> ind ip' = b ->
  (cost x ip' ({[b]} ∪ ({[BBLOCK b x]} ∪ l)) <= cost x ip l)%nat.
Proof.
  intros W Hb Hl Hz Hi. pose proof (bblock_in_set g x b W Hb). pose proof (zero_not_bitmap g x W).
  unfold cost. rewrite Hz, Hi.
  assert ({[b]} ∪ ({[BBLOCK b x]} ∪ l) ∪ bitmap_set x ∪ {[b]} = {[b]} ∪ (l ∪ bitmap_set x)) as ->
    by set_solver.
  pose proof (size_add_le (l ∪ bitmap_set x) b).
  rewrite (size_union (l ∪ bitmap_set x)) by set_solver. rewrite size_singleton. lia.
Qed.

(** ** [bmap] *)

Lemma blocks_ok_same (s s' : fsst S) v h l :
  fdev s' = fdev s -> sb s' = sb s -> blocks_ok s v h l -> blocks_ok s' v h l.
Proof. intros E1 E2 []. constructor; rewrite ?E1, ?E2; auto. Qed.

(** [balloc] when some block is free. *)
Lemma balloc_free (s : fsst S) v h l :
  blocks_ok s v h l -> fits (tgeo (fdev s)) h l 2 -> (1 <= size (free_set v (sb s)))%nat ->
  exists b d, used v (sb s) b = false /\ data_block (sb s) b
    /\ runs (balloc ROOTDEV) s [] b (with_dev d s) /\ tgeo d = tgeo (fdev s)
    /\ blocks_ok (with_dev d s) (alloc_view v (sb s) b) h ({[b]} ∪ ({[BBLOCK b (sb s)]} ∪ l))
    /\ (size (free_set v (sb s)) = size (free_set (alloc_view v (sb s) b) (sb s)) + 1)%nat.
Proof.
  intros B Hf Hn. destruct (balloc_run s v h l B Hf) as [(b & d & (Hr & Hu & _) & Hd & E & Hg & B')|[Hno _]].
  - exists b, d. repeat (split; [done|]). apply (free_set_alloc _ _ _ b); [lia|done|].
    intros c Hc. by apply (used_alloc s v h l B).
  - destruct (decide (free_set v (sb s) = ∅)) as [E|[c Hc]%set_choose_L]; [rewrite E, size_empty in Hn; lia|].
    apply elem_of_free_set in Hc as [Hr Hu]. rewrite Hno in Hu by done. done.
Qed.

Lemma not_zero_add (l : gset Z) g x b :
  wf_sb g x -> data_block x b -> 0 ∉ l -> 0 ∉ {[b]} ∪ ({[BBLOCK b x]} ∪ l).
Proof.
  intros W Hd Hl. pose proof (data_range g x b W Hd) as Hr.
  pose proof (bitmap_range g x _ W (bblock_bitmap g x W b ltac:(lia))).
  rewrite !elem_of_union, !elem_of_singleton. intros [E|[E|E]]; lia || done.
Qed.

Lemma addr_or_alloc_ok (s : fsst S) v l i ip k n :
  blocks_ok s v ∅ l -> inodes s !! i = Some ip -> file_ok v (sb s) ip -> 0 <= k <= NDIRECT ->
  budget (tgeo (fdev s)) (sb s) ip l n -> (1 <= size (free_set v (sb s)))%nat ->
  exists a s' v' l' ip', runs (addr_or_alloc i k) s [] a s' /\ a <> 0
    /\ a = nth (Z.to_nat k) (i_addrs ip') 0
    /\ exists c, file_step i s v l ip s' v' l' ip' c 1 /\ (c = 0%nat \/ c = 1%nat /\ a ∈ l')
       /\ (k = NDIRECT -> c = 0%nat).
Proof.
  intros B Hi F Hk Hbud Hfree. pose proof (bo_sb _ _ _ _ B) as W.
  pose proof (fo_len _ _ _ F) as Hlen. pose proof (runs_addr_at s ip k Hlen Hk) as Ea.
  destruct (Z.eqb_spec (nth (Z.to_nat k) (i_addrs ip) 0) 0) as [E0|E0].
  - destruct (balloc_free s v ∅ l B) as (b & d & Hu & Hd & E & Hg & B' & Hsz); auto.
    { apply (fits_le _ _ _ (n + 2)); [lia|]. by apply (budget_fits _ (sb s) ip). }
    set (ip' := set_iaddrs (<[Z.to_nat k := b]> (i_addrs ip)) ip).
    exists b, (with_inode d i ip' s), (alloc_view v (sb s) b), ({[b]} ∪ ({[BBLOCK b (sb s)]} ∪ l)), ip'.
    assert (nth (Z.to_nat k) (i_addrs ip') 0 = b) as Hnth.
    { unfold ip'. cbn [i_addrs set_iaddrs]. apply nth_lookup_Some, list_lookup_insert_eq. lia. }
    pose proof (data_range _ _ _ W Hd) as Hbr.
    split; [|split; [lia|split; [done|]]].
    + eapply runs_bind_nil; [by apply runs_ino|]. eapply runs_bind_nil; [exact Ea|].
      rewrite E0. cbn [Z.eqb]. rewrite (fo_dev _ _ _ F).
      eapply runs_bind_nil; [exact E|]. eapply runs_bind_nil; [|apply runs_ret].
      by apply (runs_upd_ino (with_dev d s) i ip).
    + exists (if k <? NDIRECT then 1%nat else 0%nat).
      split; [|split; [destruct (k <? NDIRECT); [right; set_solver|by left]|by intros ->]].
      constructor; auto; cbn [with_inode fdev].
      * by apply (blocks_ok_same (with_dev d s)).
      * by apply (grown_addr s v ∅ l).
      * destruct (Z.ltb_spec k NDIRECT).
        -- assert (ind ip' = ind ip) as Hind.
           { unfold ind, ip'. cbn [i_addrs set_iaddrs]. rewrite !nth_lookup, list_lookup_insert_ne by lia. done. }
           unfold cost. rewrite Hind. by apply (cost_add (tgeo (fdev s)) (sb s) ip l b); [|lia].
        -- rewrite Nat.add_0_r. assert (k = NDIRECT) as -> by lia.
           apply (cost_new_ind (tgeo (fdev s))); auto; [lia|apply Hbud].
      * apply (not_zero_add l (tgeo (fdev s))); auto. apply Hbud.
      * lia.
  - exists (nth (Z.to_nat k) (i_addrs ip) 0), s, v, l, ip.
    split; [|split; [done|split; [done|]]].
    + eapply runs_bind_nil; [by apply runs_ino|]. eapply runs_bind_nil; [exact Ea|].
      destruct (Z.eqb_spec (nth (Z.to_nat k) (i_addrs ip) 0) 0); [done|apply runs_ret].
    + exists 0%nat. split; [|auto]. apply (file_step_le _ _ _ _ _ _ _ _ _ 0 0); [lia..|].
      apply file_step_refl; auto. apply Hbud.
Qed.

(** A data block is written. *)
Lemma blocks_ok_write (s : fsst S) v h l n w d h' l' :
  blocks_ok s v h l -> data_block (sb s) n -> crep d (zupd v n w) h' l' ->
  tgeo d = tgeo (fdev s) -> held_used v (sb s) h' -> blocks_ok (with_dev d s) (zupd v n w) h' l'.
Proof.
  intros B Hn Hr Hg Hh. pose proof (bo_sb _ _ _ _ B) as W. pose proof (data_range _ _ _ W Hn).
  assert (Hm : ~ bitmap_block (sb s) n) by (intros Hm; by apply (data_not_bitmap (sb s) n n)).
  apply (blocks_ok_view s v h l B); auto.
  - rewrite zupd_ne by lia. apply B.
  - intros c Hc. rewrite (used_other s v h l B) by done. by apply (bo_meta _ _ _ _ B).
  - intros i m Hi. destruct (Hh i m Hi) as [Hd Hu]. split; [done|].
    pose proof (data_range _ _ _ W Hd). by rewrite (used_other s v h l B) by (auto; lia).
Qed.

(** Hold the buffer of a block in use. *)
Lemma open_good (s : fsst S) v l n k :
  blocks_ok s v ∅ l -> good v (sb s) n -> fits (tgeo (fdev s)) ∅ l (k + 1) ->
  exists j d, runs (t_bread ROOTDEV n) (fdev s) [] j d /\ blocks_ok (with_dev d s) v {[j := n]} l
    /\ tgeo d = tgeo (fdev s).
Proof.
  intros B Hn Hf. pose proof (bo_sb _ _ _ _ B) as W.
  destruct (open_block _ _ _ _ n (bo_rep _ _ _ _ B)) as (j & d & E & _ & Hr & Hg).
  { pose proof (data_home _ _ W n (proj1 Hn)) as Hh. split; apply Hh. }
  { intros i. by rewrite lookup_empty. } { apply (fits_le _ _ _ (k + 1)); [lia|done]. }
  exists j, d. split; [done|]. split; [|done].
  apply (blocks_ok_view s v ∅ l B); auto; try apply B.
  intros i m Hm. apply lookup_singleton_Some in Hm as [_ <-]. exact Hn.
Qed.

(** Release it unchanged. *)
Lemma close_good (s : fsst S) v l j n :
  blocks_ok s v {[j := n]} l ->
  exists d, runs (t_brelse j) (fdev s) [] tt d /\ blocks_ok (with_dev d s) v ∅ l
    /\ tgeo d = tgeo (fdev s).
Proof.
  intros B. destruct (close_block (fdev s) v ∅ l j n (bo_rep _ _ _ _ B)) as (d & E & Hr & Hg).
  { by rewrite lookup_empty. }
  exists d. split; [done|]. split; [|done]. apply (blocks_ok_view s v _ l B); auto; try apply B.
  intros i m. by rewrite lookup_empty.
Qed.

(** Write it, log it and release it. *)
Lemma finish_good (s : fsst S) v l j n w :
  blocks_ok s v {[j := n]} l -> Z.of_nat (size l) < gcap (tgeo (fdev s)) -> length w = BSIZE ->
  exists d1 d2 d3, runs (t_set j w) (fdev s) [] tt d1 /\ runs (t_log_write j) d1 [] tt d2
    /\ runs (t_brelse j) d2 [] tt d3 /\ blocks_ok (with_dev d3 s) (zupd v n w) ∅ ({[n]} ∪ l)
    /\ tgeo d3 = tgeo (fdev s).
Proof.
  intros B Hc Hw. pose proof (bo_sb _ _ _ _ B) as W.
  destruct (bo_held _ _ _ _ B j n (lookup_singleton_eq _ _)) as [Hd Hu].
  destruct (finish_block (fdev s) v ∅ l j n w (bo_rep _ _ _ _ B)) as (d1 & d2 & d3 & E1 & E2 & E3 & Hr & Hg); auto.
  { by apply (data_home _ _ W). }
  exists d1, d2, d3. repeat (split; [done|]). split; [|done].
  apply (blocks_ok_write s v {[j := n]} l); auto. intros i m. by rewrite lookup_empty.
Qed.

(** The part of [bmap] that adds an entry to the indirect block. *)
Definition bmap_alloc (ip : inode) (bp : nat) (off : nat) : M (fsst S) Z :=
  let* addr := balloc (i_dev ip) in
  let* d := zoom fd (t_data bp) in
  zoom fd (t_set bp (put32 d off addr)) ;;
  zoom fd (t_log_write bp) ;;
  ret addr.

(** A new entry in the indirect block, whose buffer is held. *)
Lemma bmap_new_entry (s : fsst S) v l i ip j bn n :
  blocks_ok s v {[j := ind ip]} l -> inodes s !! i = Some ip -> file_ok v (sb s) ip ->
  NDIRECT <= bn < MAXFILE -> ind ip <> 0 -> faddr v ip bn = 0 ->
  budget (tgeo (fdev s)) (sb s) ip l n -> (1 <= n)%nat -> (1 <= size (free_set v (sb s)))%nat ->
  let off := Z.to_nat (4 * (bn - NDIRECT)) in
  exists a s' v' l', runs (bmap_alloc ip j off) s [] a s'
    /\ a <> 0 /\ a = faddr v' ip bn /\ a ∈ l' /\ blocks_ok s' v' {[j := ind ip]} l'
    /\ s' = with_dev (fdev s') s /\ tgeo (fdev s') = tgeo (fdev s) /\ grown (sb s) v ip v' ip
    /\ (cost (sb s) ip l' <= cost (sb s) ip l + 1)%nat /\ (0 ∉ l')
    /\ (size (free_set v (sb s)) <= size (free_set v' (sb s)) + 1)%nat.
Proof.
  intros B Hi F Hbn Hind H0a Hbud Hn Hfree off. pose proof (bo_sb _ _ _ _ B) as W.
  destruct (balloc_free s v _ l B) as (b & d & Hu & Hd & E & Hg & B1 & Hsz); auto.
  { apply (fits_le _ _ _ (n + 2)); [lia|]. by apply (budget_fits_held _ (sb s) ip). }
  pose proof (data_range _ _ _ W Hd) as Hbr.
  destruct (fo_ind _ _ _ F) as [|Hgi]; [done|].
  pose proof (alloc_keep s v _ l b B Hd Hu (ind ip) Hgi) as Hkeep.
  pose proof (cost_add _ _ ip l b W ltac:(lia)) as Hcost.
  destruct (log_block d (alloc_view v (sb s) b) {[j := ind ip]} ({[b]} ∪ ({[BBLOCK b (sb s)]} ∪ l)) j (ind ip)
              (put32 (v (ind ip)) off b)) as (d1 & d2 & E1 & E2 & Hr2 & Hg2).
  { apply B1. } { apply lookup_singleton_eq. } { rewrite Hg. apply (data_home _ _ W), Hgi. }
  { rewrite Hg. destruct Hbud as (_ & Hb & _). pose proof (cost_size (sb s) ip ({[b]} ∪ ({[BBLOCK b (sb s)]} ∪ l))). lia. }
  { rewrite length_put32. apply (view_length s v _ l _ B). by apply (data_home _ _ W), Hgi. }
  exists b, (with_dev d2 s), (zupd (alloc_view v (sb s) b) (ind ip) (put32 (v (ind ip)) off b)),
    ({[ind ip]} ∪ ({[b]} ∪ ({[BBLOCK b (sb s)]} ∪ l))).
  pose proof (grown_ind s v _ l ip b B F Hd Hu bn Hbn Hind H0a) as Gr. fold off in Gr.
  split; [|split; [lia|split; [|split; [set_solver|split; [|split; [done|split; [exact (eq_trans Hg2 Hg)|split; [done|]]]]]]]].
  - unfold bmap_alloc. rewrite (fo_dev _ _ _ F). eapply runs_bind_nil; [exact E|].
    pose proof (read_block_data d _ _ _ j _ (bo_rep _ _ _ _ B1) (lookup_singleton_eq _ _)) as Ed. rewrite Hkeep in Ed.
    eapply runs_bind_nil; [apply runs_fd; exact Ed|]. eapply runs_bind_nil; [apply runs_fd; exact E1|].
    eapply runs_bind_nil; [apply runs_fd; exact E2|]. apply runs_ret.
  - unfold faddr. destruct (Z.ltb_spec bn NDIRECT); [lia|]. destruct (Z.eqb_spec (ind ip) 0); [done|].
    rewrite zupd_eq. symmetry. pose proof (ws_size _ _ W). apply get32_put32_eq; [|lia].
    rewrite (view_length s v _ l _ B) by (apply (data_home _ _ W), Hgi).
    change MAXFILE with 140 in *. change NDIRECT with 12 in *. unfold BSIZE. lia.
  - apply (blocks_ok_write (with_dev d s) _ _ _ _ _ _ _ _ B1); auto; [apply Hgi|].
    apply (bo_held _ _ _ _ B1).
  - split; [|split].
    + etransitivity; [|exact Hcost]. unfold cost. apply subseteq_size. set_solver.
    + pose proof (not_zero_add l _ _ b W Hd). destruct Hbud as (_ & _ & Hz). set_solver.
    + rewrite (free_set_ext (zupd _ _ _) (alloc_view v (sb s) b)); [lia|]. intros c Hc.
      apply (used_other (with_dev d s) _ _ _ B1); auto.
      intros Hm. destruct Hgi as [Hgd _]. by apply (data_not_bitmap (sb s) (ind ip) (ind ip)).
Qed.

Lemma with_dev_inode (s : fsst S) i ip d :
  inodes s !! i = Some ip -> with_dev d s = with_inode d i ip s.
Proof. intros Hi. unfold with_dev, with_inode. by rewrite list_insert_id. Qed.

(** [bmap] once the indirect block is there. *)
Definition bmap_ind (i : nat) (addr : Z) (off : nat) : M (fsst S) Z :=
  let* ip := ino i in
  let* bp := zoom fd (t_bread (i_dev ip) addr) in
  let* d := zoom fd (t_data bp) in
  let* addr := (if get32 d off =? 0 then bmap_alloc ip bp off else ret (get32 d off)) in
  zoom fd (t_brelse bp) ;;
  ret addr.

Lemma bmap_ind_ok (s : fsst S) v l i ip bn n :
  blocks_ok s v ∅ l -> inodes s !! i = Some ip -> file_ok v (sb s) ip ->
  NDIRECT <= bn < MAXFILE -> ind ip <> 0 -> budget (tgeo (fdev s)) (sb s) ip l n -> (1 <= n)%nat ->
  (1 <= size (free_set v (sb s)))%nat ->
  exists a s' v' l' c, runs (bmap_ind i (ind ip) (Z.to_nat (4 * (bn - NDIRECT)))) s [] a s'
    /\ a <> 0 /\ a = faddr v' ip bn
    /\ file_step i s v l ip s' v' l' ip c 1 /\ (c = 0%nat \/ c = 1%nat /\ a ∈ l').
Proof.
  intros B Hi F Hbn Hind Hbud Hn Hfree. set (off := Z.to_nat (4 * (bn - NDIRECT))).
  destruct (fo_ind _ _ _ F) as [|Hgi]; [done|].
  destruct (open_good s v l (ind ip) 1 B Hgi) as (j & d2 & E2 & B2 & Hg2).
  { apply (fits_le _ _ _ (n + 2)); [lia|]. by apply (budget_fits _ (sb s) ip). }
  pose proof (read_block_data d2 _ _ _ j _ (bo_rep _ _ _ _ B2) (lookup_singleton_eq _ _)) as E3.
  assert (Hfa : faddr v ip bn = get32 (v (ind ip)) off).
  { unfold faddr. destruct (Z.ltb_spec bn NDIRECT); [lia|]. by destruct (Z.eqb_spec (ind ip) 0). }
  assert (Hpre : forall a s3 d4,
    runs (if get32 (v (ind ip)) off =? 0 then bmap_alloc ip j off else ret (get32 (v (ind ip)) off))
      (with_dev d2 s) [] a s3 -> runs (t_brelse j) (fdev s3) [] tt d4 ->
    runs (bmap_ind i (ind ip) off) s [] a (with_dev d4 s3)).
  { intros a s3 d4 Ea Er. unfold bmap_ind. eapply runs_bind_nil; [by apply runs_ino|].
    rewrite (fo_dev _ _ _ F). eapply runs_bind_nil; [apply runs_fd; exact E2|].
    eapply runs_bind_nil; [apply runs_fd; exact E3|]. eapply runs_bind_nil; [exact Ea|].
    eapply runs_bind_nil; [apply runs_fd; exact Er|]. apply runs_ret. }
  destruct (Z.eqb_spec (get32 (v (ind ip)) off) 0) as [Ez|Ez].
  - destruct (bmap_new_entry (with_dev d2 s) v l i ip j bn n)
      as (a & s3 & v3 & l3 & Ea & Ha & Hfa3 & Hin & B3 & Es3 & Hg3 & Gr & Hc & Hz & Hfr); auto.
    { congruence. } { cbn [with_dev fdev sb]. by rewrite Hg2. }
    destruct (close_good s3 v3 l3 j _ B3) as (d4 & E4 & B4 & Hg4).
    exists a, (with_dev d4 s3), v3, l3, 1%nat.
    split; [by apply Hpre|]. split; [done|]. split; [done|]. split; [|by right].
    constructor; auto.
    + rewrite Es3. exact (with_dev_inode s i ip d4 Hi).
    + cbn [with_dev fdev] in *. congruence.
  - destruct (close_good (with_dev d2 s) v l j _ B2) as (d4 & E4 & B4 & Hg4).
    exists (get32 (v (ind ip)) off), (with_dev d4 s), v, l, 0%nat.
    split; [exact (Hpre _ _ _ (runs_ret _ _) E4)|]. split; [done|]. split; [by rewrite Hfa|].
    split; [|by left]. constructor; auto; try lia.
    + by apply with_dev_inode.
    + cbn [with_dev fdev] in *. congruence.
    + by apply grown_refl.
    + apply Hbud.
Qed.

Lemma bmap_ok (s : fsst S) v l i ip bn n :
  blocks_ok s v ∅ l -> inodes s !! i = Some ip -> file_ok v (sb s) ip -> 0 <= bn < MAXFILE ->
  budget (tgeo (fdev s)) (sb s) ip l n -> (1 <= n)%nat -> (2 <= size (free_set v (sb s)))%nat ->
  exists a s' v' l' ip' c, runs (bmap i bn) s [] a s' /\ a <> 0 /\ a = faddr v' ip' bn
    /\ file_step i s v l ip s' v' l' ip' c 2 /\ (c = 0%nat \/ c = 1%nat /\ a ∈ l').
Proof.
  intros B Hi F Hbn Hbud Hn Hfree. unfold bmap. destruct (Z.ltb_spec bn NDIRECT) as [Hd|Hd].
  { destruct (addr_or_alloc_ok s v l i ip bn n) as (a & s' & v' & l' & ip' & E & Ha & Hnth & c & St & Hc & _);
      auto; [lia..|].
    exists a, s', v', l', ip', c. split; [exact E|]. split; [done|]. split.
    - unfold faddr. by destruct (Z.ltb_spec bn NDIRECT); [|lia].
    - split; [|done]. by apply (file_step_le _ _ _ _ _ _ _ _ _ c 1); [lia..|]. }
  assert ((bn - NDIRECT <? NINDIRECT) = true) as -> by (unfold MAXFILE in Hbn; zcase; done).
  destruct (addr_or_alloc_ok s v l i ip NDIRECT n) as (a & s1 & v1 & l1 & ip1 & E1 & Ha & Hnth & c & St1 & _ & Hc0);
    auto; [unfold NDIRECT; lia|lia|]. rewrite (Hc0 eq_refl) in St1. clear c Hc0. fold (ind ip1) in Hnth. subst a.
  pose proof (file_step_sb _ _ _ _ _ _ _ _ _ _ _ St1) as Hsb1.
  destruct (bmap_ind_ok s1 v1 l1 i ip1 bn n) as (a & s' & v' & l' & c & E & Ha' & Hfa & St & Hc); auto.
  - apply St1.
  - by eapply file_step_lookup.
  - rewrite Hsb1. apply (gr_ok _ _ _ _ _ (st_grown _ _ _ _ _ _ _ _ _ _ _ St1)).
  - lia.
  - exact (budget_step _ _ _ _ _ _ _ _ _ _ _ n St1 Hbud).
  - pose proof (st_free _ _ _ _ _ _ _ _ _ _ _ St1). rewrite Hsb1. lia.
  - exists a, s', v', l', ip1, c. split; [eapply runs_bind_nil; [exact E1|exact E]|].
    split; [done|]. split; [done|]. split; [|done].
    exact (file_step_trans _ _ _ _ _ _ _ _ _ _ _ _ _ 0 1 c 1 St1 St).
Qed.

End File.
