(* ===== verification/FsRw.v ===== *)
(** * File contents: [readi] and [writei] *)

From stdpp Require Import base numbers list gmap strings.
From S2P Require Import Prelude Bytes Mem Str Buf Log LogCrash Tx Fs TxSpec FsBlock FsFile.

Open Scope Z_scope.

(** ** What a write may change *)

(** Block [n] belongs to the file. *)
Definition owned (v : Z -> list Z) (ip : inode) (n : Z) : Prop :=
  n <> 0 /\ (n = ind ip \/ exists bn, 0 <= bn < MAXFILE /\ n = faddr v ip bn).

(** The [len] bytes of the file from [off]. *)
Definition fbytes (v : Z -> list Z) (ip : inode) (off : Z) (len : nat) : list Z :=
  content v ip <$> zrange off len.

(** The bytes [src] were written at [off]; nothing else of the file, no block of
    another file and no metadata but the bitmap changed. *)
Record wrote (x : superblock) (v : Z -> list Z) (ip : inode) (v' : Z -> list Z) (ip' : inode)
    (off : Z) (src : list Z) : Prop := {
  wr_ok : file_ok v' x ip';
  wr_same : ip' = set_iaddrs (i_addrs ip') ip;
  wr_content : forall o, 0 <= o < MAXFILE * BS ->
    content v' ip' o = if (off <=? o) && (o <? off + Z.of_nat (length src))
                       then nth (Z.to_nat (o - off)) src 0 else content v ip o;
  wr_keep : forall n, good v x n -> ~ owned v ip n -> v' n = v n;
  wr_used : forall n, good v x n -> good v' x n;
  wr_meta : forall n, ~ bitmap_block x n -> ~ data_block x n -> v' n = v n;
  wr_new : forall n, owned v' ip' n -> owned v ip n \/ used v x n = false;
  wr_dense : forall bn, 0 <= bn < MAXFILE -> faddr v ip bn <> 0 -> faddr v' ip' bn <> 0;
  wr_alloc : forall o, 0 <= o < MAXFILE * BS -> off <= o < off + Z.of_nat (length src) ->
    faddr v' ip' (o / BS) <> 0
}.

Lemma owned_good v x ip n : file_ok v x ip -> owned v ip n -> good v x n.
Proof.
  intros F [Hn [->|(bn & Hbn & ->)]].
  - by destruct (fo_ind _ _ _ F).
  - by destruct (fo_addr _ _ _ F bn Hbn).
Qed.

Lemma good_pos g x v n : wf_sb g x -> good v x n -> 1 < n < sb_size x.
Proof. intros W [Hd _]. exact (data_range g x n W Hd). Qed.

Lemma wrote_grown g x v ip v' ip' off : wf_sb g x -> grown x v ip v' ip' -> wrote x v ip v' ip' off [].
Proof.
  intros W G. constructor; try apply G.
  - intros o Ho. rewrite (gr_content _ _ _ _ _ G) by done. cbn [length].
    destruct (Z.leb_spec off o), (Z.ltb_spec o (off + Z.of_nat 0)); cbn; done || lia.
  - intros n Hn Ho. apply (gr_keep _ _ _ _ _ G); [done|]. intros ->. apply Ho. split; [|by left].
    pose proof (good_pos g x v _ W Hn). lia.
  - intros n [Hn [->|(bn & Hbn & ->)]].
    + destruct (gr_ind _ _ _ _ _ G) as [E|[_ E]]; [left|by right]. rewrite E in *. split; [done|by left].
    + destruct (gr_addr _ _ _ _ _ G bn Hbn) as [E|[_ E]]; [left|by right]. rewrite E in *.
      split; [done|]. right. by exists bn.
  - intros bn Hbn Hn. destruct (gr_addr _ _ _ _ _ G bn Hbn) as [->|[E _]]; done.
  - cbn [length]. lia.
Qed.

Lemma off_block o : 0 <= o < MAXFILE * BS -> 0 <= o / BS < MAXFILE.
Proof.
  intros Ho. split; [apply Z.div_pos; [lia|done]|]. apply Z.div_lt_upper_bound; [done|].
  rewrite Z.mul_comm. lia.
Qed.

(** Two writes in a row. *)
Lemma wrote_trans x v ip v1 ip1 v2 ip2 off src1 src2 :
  wrote x v ip v1 ip1 off src1 -> wrote x v1 ip1 v2 ip2 (off + Z.of_nat (length src1)) src2 ->
  wrote x v ip v2 ip2 off (src1 ++ src2).
Proof.
  intros W1 W2.
  assert (Hnew : forall n, good v x n -> ~ owned v ip n -> ~ owned v1 ip1 n).
  { intros n [_ Hu] Hn Ho. destruct (wr_new _ _ _ _ _ _ _ W1 n Ho); [done|congruence]. }
  constructor.
  - apply W2.
  - rewrite (wr_same _ _ _ _ _ _ _ W2), (wr_same _ _ _ _ _ _ _ W1). by destruct ip.
  - intros o Ho. rewrite (wr_content _ _ _ _ _ _ _ W2), (wr_content _ _ _ _ _ _ _ W1) by done.
    rewrite length_app. zcase; cbn [andb]; try done;
      first [rewrite app_nth1 by lia; done|rewrite app_nth2 by lia; f_equal; lia].
  - intros n Hn Ho. rewrite (wr_keep _ _ _ _ _ _ _ W2), (wr_keep _ _ _ _ _ _ _ W1); auto.
    by apply (wr_used _ _ _ _ _ _ _ W1).
  - intros n Hn. by apply (wr_used _ _ _ _ _ _ _ W2), (wr_used _ _ _ _ _ _ _ W1).
  - intros n Hb Hd. rewrite (wr_meta _ _ _ _ _ _ _ W2), (wr_meta _ _ _ _ _ _ _ W1); auto.
  - intros n Ho. destruct (wr_new _ _ _ _ _ _ _ W2 n Ho) as [Ho1|Hu]; [by apply (wr_new _ _ _ _ _ _ _ W1)|].
    destruct (used v x n) eqn:Hn; [|by right]. exfalso.
    destruct (owned_good _ _ _ _ (wr_ok _ _ _ _ _ _ _ W2) Ho) as [Hd _].
    destruct (wr_used _ _ _ _ _ _ _ W1 n (conj Hd Hn)). congruence.
  - intros bn Hbn Hn. apply (wr_dense _ _ _ _ _ _ _ W2); [done|]. by apply (wr_dense _ _ _ _ _ _ _ W1).
  - intros o Ho. rewrite length_app. intros Hr.
    destruct (Z.lt_ge_cases o (off + Z.of_nat (length src1))).
    + apply (wr_dense _ _ _ _ _ _ _ W2); [by apply off_block|]. apply (wr_alloc _ _ _ _ _ _ _ W1); lia.
    + apply (wr_alloc _ _ _ _ _ _ _ W2); lia.
Qed.

(** Other files keep their blocks and contents. *)
Lemma wrote_other x v ip v' ip' off src ip2 :
  wrote x v ip v' ip' off src -> file_ok v x ip2 -> (forall n, owned v ip2 n -> ~ owned v ip n) ->
  file_ok v' x ip2 /\ (forall bn, 0 <= bn < MAXFILE -> faddr v' ip2 bn = faddr v ip2 bn)
  /\ (forall o, 0 <= o < MAXFILE * BS -> content v' ip2 o = content v ip2 o).
Proof.
  intros W F Hdis.
  assert (Hk : forall n, owned v ip2 n -> v' n = v n).
  { intros n Hn. apply (wr_keep _ _ _ _ _ _ _ W); [by apply (owned_good v x ip2)|auto]. }
  assert (Hfa : forall bn, 0 <= bn < MAXFILE -> faddr v' ip2 bn = faddr v ip2 bn).
  { intros bn Hbn. unfold faddr. destruct (bn <? NDIRECT); [done|].
    destruct (Z.eqb_spec (ind ip2) 0); [done|]. rewrite Hk; [done|]. split; [done|by left]. }
  split; [|split; [done|]].
  - destruct F as [F1 F2 F3 F4 F5 F6]. constructor; auto.
    + destruct F3; [by left|right; by apply (wr_used _ _ _ _ _ _ _ W)].
    + intros bn Hbn. rewrite Hfa by done. destruct (F4 bn Hbn); [by left|right; by apply (wr_used _ _ _ _ _ _ _ W)].
    + intros j k Hj Hk'. rewrite !Hfa by done. auto.
    + intros j Hj. rewrite Hfa by done. by apply F6.
  - intros o Ho. assert (0 <= o / BS < MAXFILE) as Hr.
    { split; [apply Z.div_pos; [lia|done]|]. apply Z.div_lt_upper_bound; [done|]. rewrite Z.mul_comm. lia. }
    unfold content. rewrite Hfa by done. destruct (Z.eqb_spec (faddr v ip2 (o / BS)) 0); [done|].
    rewrite Hk; [done|]. split; [done|]. right. by exists (o / BS).
Qed.

(** ** One block *)

Lemma byte_at_splice l o src k :
  (o + length src <= length l)%nat ->
  byte_at (splice l o src) k =
    if decide (o <= k < o + length src)%nat then nth (k - o) src 0 else byte_at l k.
Proof.
  intros Hl. unfold splice, byte_at. assert (length (take o l) = o) as Ht by (rewrite length_take; lia).
  case_decide as Hc.
  - rewrite app_nth2, app_nth1 by lia. by rewrite Ht.
  - destruct (decide (k < o)%nat).
    + rewrite app_nth1 by lia. rewrite !nth_lookup, lookup_take_lt by lia. done.
    + rewrite !app_nth2 by lia. rewrite Ht, !nth_lookup, lookup_drop. do 2 f_equal. lia.
Qed.

Lemma block_of_offset off o m : 0 <= off -> 0 <= o -> off `mod` BS + m <= BS -> off <= o < off + m ->
  o / BS = off / BS /\ o `mod` BS - off `mod` BS = o - off.
Proof.
  intros H1 H2 H3 H4. change BS with 512 in *.
  pose proof (Z.div_mod off 512 ltac:(done)). pose proof (Z.mod_pos_bound off 512 ltac:(done)).
  pose proof (Z.div_mod o 512 ltac:(done)). pose proof (Z.mod_pos_bound o 512 ltac:(done)). lia.
Qed.

Section Write.
Context {S : Type} `{TxDiskSpec S}.

Lemma wrote_block (s : fsst S) v h l ip off src :
  blocks_ok s v h l -> file_ok v (sb s) ip -> 0 <= off < MAXFILE * BS ->
  off `mod` BS + Z.of_nat (length src) <= BS ->
  let a := faddr v ip (off / BS) in a <> 0 ->
  wrote (sb s) v ip (zupd v a (splice (v a) (Z.to_nat (off `mod` BS)) src)) ip off src.
Proof.
  intros B F Hoff Hm a Ha. pose proof (bo_sb _ _ _ _ B) as W. pose proof (off_block off Hoff) as Hbn.
  set (w := splice _ _ _). pose proof (Z.mod_pos_bound off BS ltac:(done)) as Hmod.
  destruct (fo_addr _ _ _ F _ Hbn) as [|Hga]; [done|]. fold a in Hga.
  assert (Hlen : length (v a) = BSIZE) by (apply (view_length s v h l _ B), (data_home _ _ W), Hga).
  assert (Hnm : ~ bitmap_block (sb s) a) by (intros Hb; destruct Hga; by apply (data_not_bitmap (sb s) a a)).
  assert (Hne : a <> ind ip).
  { intros E. pose proof (fo_ne _ _ _ F _ Hbn E). congruence. }
  assert (Hfa : forall bn, faddr (zupd v a w) ip bn = faddr v ip bn).
  { intros bn. unfold faddr. destruct (bn <? NDIRECT); [done|]. destruct (ind ip =? 0); [done|].
    by rewrite zupd_ne by done. }
  assert (Hg : forall n, good v (sb s) n -> good (zupd v a w) (sb s) n).
  { intros n [Hd Hu]. split; [done|]. pose proof (data_range _ _ _ W Hd).
    by rewrite (used_other s v h l B) by (auto; lia). }
  constructor.
  - destruct F as [F1 F2 F3 F4 F5 F6]. constructor; auto.
    + destruct F3; auto.
    + intros bn Hb. rewrite Hfa. destruct (F4 bn Hb); auto.
    + intros j k Hj Hk. rewrite !Hfa. auto.
    + intros j Hj. rewrite Hfa. by apply F6.
  - by destruct ip.
  - intros o Ho. unfold content. rewrite Hfa. pose proof (off_block o Ho) as Hbo.
    destruct ((off <=? o) && (o <? off + Z.of_nat (length src))) eqn:Hc.
    + apply andb_true_iff in Hc as [H1%Z.leb_le H2%Z.ltb_lt].
      destruct (block_of_offset off o (Z.of_nat (length src))) as [-> Hdiff]; try lia. fold a.
      destruct (Z.eqb_spec a 0); [done|]. rewrite zupd_eq. unfold w.
      rewrite byte_at_splice by (rewrite Hlen; change BS with 512 in *; unfold BSIZE; lia).
      rewrite decide_True by lia. f_equal. lia.
    + destruct (Z.eqb_spec (faddr v ip (o / BS)) 0); [done|].
      destruct (decide (o / BS = off / BS)) as [Eb|Eb].
      * rewrite Eb. fold a. rewrite zupd_eq. unfold w.
        rewrite byte_at_splice by (rewrite Hlen; change BS with 512 in *; unfold BSIZE; lia).
        rewrite decide_False; [done|]. apply andb_false_iff in Hc. change BS with 512 in *.
        pose proof (Z.div_mod off 512 ltac:(done)). pose proof (Z.mod_pos_bound o 512 ltac:(done)).
        pose proof (Z.div_mod o 512 ltac:(done)).
        rewrite Z.leb_gt, Z.ltb_ge in Hc. lia.
      * rewrite zupd_ne; [done|]. intros E. apply Eb, (fo_inj _ _ _ F); auto.
  - intros n Hn Ho. apply zupd_ne. intros ->. apply Ho. split; [done|]. right. by exists (off / BS).
  - done.
  - intros n Hb Hd. apply zupd_ne. intros ->. by destruct Hga.
  - intros n [Hn [->|(bn & Hb & ->)]]; left; (split; [done|]); [by left|right]. exists bn. by rewrite Hfa.
  - intros bn Hb. by rewrite Hfa.
  - intros o Ho Hr. rewrite Hfa. by destruct (block_of_offset off o (Z.of_nat (length src))) as [-> _]; try lia.
Qed.

(** From [s] to [s'] the bytes [src] were written to file [i] at [off]. *)
Record write_step (i : nat) (s : fsst S) v l ip (s' : fsst S) v' l' ip' off src (c f : nat) : Prop := {
  wst_blocks : blocks_ok s' v' ∅ l';
  wst_state : s' = with_inode (fdev s') i ip' s;
  wst_geo : tgeo (fdev s') = tgeo (fdev s);
  wst_wrote : wrote (sb s) v ip v' ip' off src;
  wst_cost : (cost (sb s) ip' l' <= cost (sb s) ip l + c)%nat;
  wst_zero : 0 ∉ l';
  wst_free : (size (free_set v (sb s)) <= size (free_set v' (sb s)) + f)%nat
}.

Lemma write_step_sb i s v l ip s' v' l' ip' off src c f :
  write_step i s v l ip s' v' l' ip' off src c f -> sb s' = sb s.
Proof. intros St. by rewrite (wst_state _ _ _ _ _ _ _ _ _ _ _ _ _ St). Qed.

Lemma write_step_lookup i s v l ip s' v' l' ip' off src c f :
  write_step i s v l ip s' v' l' ip' off src c f -> inodes s !! i = Some ip -> inodes s' !! i = Some ip'.
Proof. intros St Hi. rewrite (wst_state _ _ _ _ _ _ _ _ _ _ _ _ _ St). by eapply with_inode_lookup. Qed.

Lemma write_step_budget i s v l ip s' v' l' ip' off src c f k :
  write_step i s v l ip s' v' l' ip' off src c f -> budget (tgeo (fdev s)) (sb s) ip l (c + k) ->
  budget (tgeo (fdev s')) (sb s') ip' l' k.
Proof.
  intros St (H1 & H2 & _).
  rewrite (wst_geo _ _ _ _ _ _ _ _ _ _ _ _ _ St), (write_step_sb _ _ _ _ _ _ _ _ _ _ _ _ _ St).
  pose proof (wst_cost _ _ _ _ _ _ _ _ _ _ _ _ _ St). split; [lia|]. split; [lia|].
  by apply (wst_zero _ _ _ _ _ _ _ _ _ _ _ _ _ St).
Qed.

Lemma write_step_trans i s v l ip s1 v1 l1 ip1 s2 v2 l2 ip2 off src1 src2 c1 f1 c2 f2 :
  write_step i s v l ip s1 v1 l1 ip1 off src1 c1 f1 ->
  write_step i s1 v1 l1 ip1 s2 v2 l2 ip2 (off + Z.of_nat (length src1)) src2 c2 f2 ->
  write_step i s v l ip s2 v2 l2 ip2 off (src1 ++ src2) (c1 + c2) (f1 + f2).
Proof.
  intros St1 St2. pose proof (write_step_sb _ _ _ _ _ _ _ _ _ _ _ _ _ St1) as Hsb.
  destruct St1 as [B1 E1 G1 W1 C1 Z1 F1], St2 as [B2 E2 G2 W2 C2 Z2 F2]. rewrite Hsb in *.
  constructor; auto; try lia.
  - rewrite E2, E1. unfold with_inode. cbn. by rewrite list_insert_insert_eq.
  - congruence.
  - by apply (wrote_trans _ _ _ v1 ip1).
Qed.

Lemma write_step_le i s v l ip s' v' l' ip' off src c f c' f' :
  (c <= c')%nat -> (f <= f')%nat ->
  write_step i s v l ip s' v' l' ip' off src c f -> write_step i s v l ip s' v' l' ip' off src c' f'.
Proof. intros Hc Hf []. constructor; auto; lia. Qed.

Lemma write_step_nil i s v l ip off :
  blocks_ok s v ∅ l -> inodes s !! i = Some ip -> file_ok v (sb s) ip -> 0 ∉ l ->
  write_step i s v l ip s v l ip off [] 0 0.
Proof.
  intros B Hi F Hl. constructor; auto; try lia.
  - by rewrite with_inode_same.
  - apply (wrote_grown (tgeo (fdev s))); [apply B|by apply grown_refl].
Qed.

Lemma cost_add1 x ip l a : (cost x ip ({[a]} ∪ l) <= cost x ip l + 1)%nat.
Proof.
  unfold cost. etransitivity; [|apply (size_add_le _ a)]. apply subseteq_size. set_solver.
Qed.

(** A step of [bmap], then a write of the block. *)
Lemma write_step_block i s v l ip s1 v1 l1 ip1 c a w d off src :
  file_step i s v l ip s1 v1 l1 ip1 c 2 -> (c = 0%nat \/ c = 1%nat /\ a ∈ l1) -> a <> 0 ->
  good v1 (sb s1) a -> wrote (sb s1) v1 ip1 (zupd v1 a w) ip1 off src ->
  blocks_ok (with_dev d s1) (zupd v1 a w) ∅ ({[a]} ∪ l1) -> tgeo d = tgeo (fdev s1) ->
  write_step i s v l ip (with_dev d s1) (zupd v1 a w) ({[a]} ∪ l1) ip1 off src 1 2.
Proof.
  intros St Hc Ha Hga Wr B Hg. pose proof (file_step_sb _ _ _ _ _ _ _ _ _ _ _ St) as Hsb.
  pose proof (st_blocks _ _ _ _ _ _ _ _ _ _ _ St) as B1. pose proof (bo_sb _ _ _ _ B1) as W.
  destruct St as [_ E G Gr C Z0 Fr]. rewrite Hsb in *. constructor; auto.
  - rewrite E. cbn [with_dev fdev]. unfold with_inode, with_dev. cbn. done.
  - cbn [with_dev fdev]. congruence.
  - apply (wrote_trans _ _ _ v1 ip1 _ _ off [] src).
    + by apply (wrote_grown (tgeo (fdev s1))).
    + cbn [length]. by rewrite Z.add_0_r.
  - destruct Hc as [->|[-> Hin]].
    + pose proof (cost_add1 (sb s) ip1 l1 a). lia.
    + by replace ({[a]} ∪ l1) with l1 by set_solver.
  - set_solver.
  - rewrite (free_set_ext (zupd v1 a w) v1); [done|]. intros k Hk. rewrite <- Hsb in *.
    apply (used_other s1 v1 ∅ l1 B1); [|done].
    destruct Hga as [Hd _]. intros Hm. by apply (data_not_bitmap (sb s1) a a).
Qed.

(** One turn of the loop of [writei]: at most one more block in the transaction. *)
Definition write_turn (i : nat) (off : Z) (src : list Z) : M (fsst S) unit :=
  let* addr := bmap i (off / BS) in
  let* ip := ino i in
  let* bp := zoom fd (t_bread (i_dev ip) addr) in
  let* d := zoom fd (t_data bp) in
  zoom fd (t_set bp (splice d (Z.to_nat (off `mod` BS)) src)) ;;
  zoom fd (t_log_write bp) ;;
  zoom fd (t_brelse bp).

Lemma write_turn_ok (s : fsst S) v l i ip off src n :
  blocks_ok s v ∅ l -> inodes s !! i = Some ip -> file_ok v (sb s) ip -> 0 <= off < MAXFILE * BS ->
  off `mod` BS + Z.of_nat (length src) <= BS ->
  budget (tgeo (fdev s)) (sb s) ip l n -> (1 <= n)%nat -> (2 <= size (free_set v (sb s)))%nat ->
  exists s' v' l' ip', runs (write_turn i off src) s [] tt s'
    /\ write_step i s v l ip s' v' l' ip' off src 1 2.
Proof.
  intros B Hi F Hoff Hm Hbud Hn Hfree. pose proof (off_block off Hoff) as Hbn.
  destruct (bmap_ok s v l i ip (off / BS) n) as (a & s1 & v1 & l1 & ip1 & c & E1 & Ha & Hfa & St & Hc); auto.
  pose proof (file_step_sb _ _ _ _ _ _ _ _ _ _ _ St) as Hsb. pose proof (st_grown _ _ _ _ _ _ _ _ _ _ _ St) as Gr.
  pose proof (gr_ok _ _ _ _ _ Gr) as F1. rewrite <- Hsb in F1.
  pose proof (st_blocks _ _ _ _ _ _ _ _ _ _ _ St) as B1. pose proof (bo_sb _ _ _ _ B1) as W.
  destruct (fo_addr _ _ _ F1 _ Hbn) as [|Hga]; [congruence|]. rewrite <- Hfa in Hga.
  assert (budget (tgeo (fdev s1)) (sb s1) ip1 l1 0) as Hbud1.
  { apply (budget_step _ _ _ _ _ _ _ _ _ _ _ 0 St). destruct Hbud as (H1 & H2 & H3), Hc; repeat split; auto; lia. }
  destruct (open_good s1 v1 l1 a 1 B1 Hga) as (j & d2 & E2 & B2 & Hg2); [by apply (budget_fits _ (sb s1) ip1 _ 0)|].
  pose proof (read_block_data d2 _ _ _ j _ (bo_rep _ _ _ _ B2) (lookup_singleton_eq _ _)) as E3.
  pose proof (wrote_block s1 v1 _ l1 ip1 off src B1 F1 Hoff Hm) as Wr. cbv zeta in Wr. rewrite <- Hfa in Wr.
  specialize (Wr Ha). set (w := splice (v1 a) (Z.to_nat (off `mod` BS)) src) in *.
  destruct (finish_good (with_dev d2 s1) v1 l1 j a w B2) as (d4 & d5 & d6 & E4 & E5 & E6 & B6 & Hg6).
  { cbn [with_dev fdev]. rewrite Hg2. pose proof (cost_size (sb s1) ip1 l1). destruct Hbud1 as (_ & Hb & _). lia. }
  { unfold w. pose proof (Z.mod_pos_bound off BS ltac:(done)).
    assert (length (v1 a) = BSIZE) as Hl by (apply (view_length s1 v1 _ l1 _ B1), (data_home _ _ W), Hga).
    rewrite length_splice; [done|]. rewrite Hl. change BS with 512 in *. unfold BSIZE. lia. }
  pose proof (file_step_lookup _ _ _ _ _ _ _ _ _ _ _ St Hi) as Hi1.
  exists (with_dev d6 s1), (zupd v1 a w), ({[a]} ∪ l1), ip1. split.
  - eapply runs_bind_nil; [exact E1|]. eapply runs_bind_nil; [by apply runs_ino|]. rewrite (fo_dev _ _ _ F1).
    eapply runs_bind_nil; [apply runs_fd; exact E2|]. eapply runs_bind_nil; [apply runs_fd; exact E3|].
    eapply runs_bind_nil; [apply runs_fd; exact E4|]. eapply runs_bind_nil; [apply runs_fd; exact E5|].
    exact (runs_fd (t_brelse j) (with_dev d5 s1) _ _ _ E6).
  - apply (write_step_block i s v l ip s1 v1 l1 ip1 c); auto. exact (eq_trans Hg6 Hg2).
Qed.

Lemma runs_write_turn fuel i src off tot n s s1 s2 :
  tot < n -> runs (write_turn i off (take (Z.to_nat (Z.min (n - tot) (BS - off `mod` BS))) src)) s [] tt s1 ->
  runs (let m := Z.min (n - tot) (BS - off `mod` BS) in
        writei_loop fuel i (drop (Z.to_nat m) src) (off + m) (tot + m) n) s1 [] tt s2 ->
  runs (writei_loop (Datatypes.S fuel) i src off tot n) s [] tt s2.
Proof.
  intros Hlt E1 E2. cbn [writei_loop]. destruct (Z.ltb_spec tot n); [|lia]. unfold write_turn in E1.
  repeat (apply runs_bind_nil_inv in E1; destruct E1 as (? & ? & ? & E1);
          eapply runs_bind_nil; [eassumption|]; cbv beta zeta).
  eapply runs_bind_nil; [exact E1|exact E2].
Qed.

Lemma writei_loop_ok fuel : forall T s v l i ip src off tot n,
  blocks_ok s v ∅ l -> inodes s !! i = Some ip -> file_ok v (sb s) ip ->
  0 <= off -> 0 <= tot <= n -> off + (n - tot) <= MAXFILE * BS -> n - tot <= Z.of_nat (length src) ->
  (tot < n -> off `mod` BS + (n - tot) <= BS * Z.of_nat T) -> (T <= fuel)%nat ->
  budget (tgeo (fdev s)) (sb s) ip l T -> (2 * T <= size (free_set v (sb s)))%nat ->
  exists s' v' l' ip', runs (writei_loop fuel i src off tot n) s [] tt s'
    /\ write_step i s v l ip s' v' l' ip' off (take (Z.to_nat (n - tot)) src) T (2 * T).
Proof.
  induction fuel as [|fuel IH]; intros T s v l i ip src off tot n B Hi F Hoff Htot Hmax Hsrc HT Hfuel Hbud Hfree;
    cbn [writei_loop]; (destruct (Z.ltb_spec tot n) as [Hlt|Hge];
      [|exists s, v, l, ip; split; [apply runs_ret|]; apply (write_step_le _ _ _ _ _ _ _ _ _ _ _ 0 0); [lia..|];
        replace (n - tot) with 0 by lia; apply write_step_nil; auto; apply Hbud]);
    pose proof (Z.mod_pos_bound off BS ltac:(done)) as Hmod; specialize (HT Hlt);
    (destruct T as [|T]; [lia|]); [lia|].
  set (m := Z.min (n - tot) (BS - off `mod` BS)) in *. assert (0 < m <= n - tot) as Hm by lia.
  assert (length (take (Z.to_nat m) src) = Z.to_nat m) as Hl by (rewrite length_take; lia).
  destruct (write_turn_ok s v l i ip off (take (Z.to_nat m) src) (Datatypes.S T))
    as (s1 & v1 & l1 & ip1 & E1 & St1); auto; try lia.
  pose proof (write_step_sb _ _ _ _ _ _ _ _ _ _ _ _ _ St1) as Hsb.
  assert (tot + m < n -> (off + m) `mod` BS + (n - (tot + m)) <= BS * Z.of_nat T) as HT'.
  { intros Hrest. destruct (Z.le_gt_cases (n - tot) (BS - off `mod` BS)) as [Hc|Hc].
    - lia.
    - assert (m = BS - off `mod` BS) as Em by lia. rewrite Em.
      replace (off + (BS - off `mod` BS)) with ((off / BS + 1) * BS)
        by (pose proof (Z.div_mod off BS ltac:(done)); lia).
      rewrite Z.mod_mul by done. lia. }
  destruct (IH T s1 v1 l1 i ip1 (drop (Z.to_nat m) src) (off + m) (tot + m) n) as (s2 & v2 & l2 & ip2 & E2 & St2);
    auto; rewrite ?Hsb; try lia.
  - apply St1.
  - by eapply write_step_lookup.
  - apply (wst_wrote _ _ _ _ _ _ _ _ _ _ _ _ _ St1).
  - rewrite length_drop. lia.
  - rewrite <- Hsb. by apply (write_step_budget _ _ _ _ _ _ _ _ _ _ _ _ _ T St1).
  - pose proof (wst_free _ _ _ _ _ _ _ _ _ _ _ _ _ St1). lia.
  - exists s2, v2, l2, ip2. split.
    { pose proof (runs_write_turn fuel i src off tot n s s1 s2 Hlt E1 E2) as Et. cbn [writei_loop] in Et.
      by destruct (Z.ltb_spec tot n); [|lia]. }
    assert (take (Z.to_nat (n - tot)) src
      = take (Z.to_nat m) src ++ take (Z.to_nat (n - (tot + m))) (drop (Z.to_nat m) src)) as ->.
    { rewrite <- (take_drop (Z.to_nat m) (take (Z.to_nat (n - tot)) src)), take_take, skipn_firstn_comm.
      f_equal; f_equal; lia. }
    replace (Datatypes.S T) with (1 + T)%nat by lia. replace (2 * (1 + T))%nat with (2 + 2 * T)%nat by lia.
    eapply write_step_trans; [exact St1|]. rewrite Hl, Z2Nat.id by lia. exact St2.
Qed.

(** ** Reading *)

Lemma bmap_dense (s : fsst S) v l i ip bn :
  blocks_ok s v ∅ l -> inodes s !! i = Some ip -> file_ok v (sb s) ip -> 0 <= bn < MAXFILE ->
  faddr v ip bn <> 0 -> fits (tgeo (fdev s)) ∅ l 1 ->
  exists d, runs (bmap i bn) s [] (faddr v ip bn) (with_dev d s)
    /\ blocks_ok (with_dev d s) v ∅ l /\ tgeo d = tgeo (fdev s).
Proof.
  intros B Hi F Hbn Ha Hf. pose proof (fo_len _ _ _ F) as Hlen.
  assert (forall k, 0 <= k <= NDIRECT -> nth (Z.to_nat k) (i_addrs ip) 0 <> 0 ->
    runs (addr_or_alloc i k) s [] (nth (Z.to_nat k) (i_addrs ip) 0) s) as Hao.
  { intros k Hk Hn. eapply runs_bind_nil; [by apply runs_ino|].
    eapply runs_bind_nil; [by apply runs_addr_at|]. zcase. apply runs_ret. }
  unfold bmap, faddr in *. destruct (Z.ltb_spec bn NDIRECT) as [Hd|Hd].
  { exists (fdev s). split; [|split; [|done]].
    - pose proof (Hao bn ltac:(lia) Ha) as E. by destruct s.
    - by apply (blocks_ok_same s). }
  assert ((bn - NDIRECT <? NINDIRECT) = true) as -> by (unfold MAXFILE in Hbn; zcase; done).
  destruct (Z.eqb_spec (ind ip) 0) as [|Hind]; [done|].
  destruct (fo_ind _ _ _ F) as [|Hgi]; [done|].
  destruct (open_good s v l (ind ip) 0 B Hgi Hf) as (j & d1 & E1 & B1 & Hg1).
  pose proof (read_block_data d1 _ _ _ j _ (bo_rep _ _ _ _ B1) (lookup_singleton_eq _ _)) as E2.
  destruct (close_good _ _ _ _ _ B1) as (d2 & E3 & B2 & Hg2).
  exists d2. split; [|split; [exact B2|exact (eq_trans Hg2 Hg1)]].
  eapply runs_bind_nil; [apply Hao; [unfold NDIRECT; lia|exact Hind]|].
  eapply runs_bind_nil; [by apply runs_ino|]. rewrite (fo_dev _ _ _ F).
  eapply runs_bind_nil; [apply runs_fd; exact E1|]. eapply runs_bind_nil; [apply runs_fd; exact E2|].
  cbv zeta. zcase. eapply runs_bind_nil; [apply runs_ret|].
  eapply runs_bind_nil; [apply runs_fd; exact E3|apply runs_ret].
Qed.

(** Every block of the first [n] bytes is allocated. *)
Definition dense (v : Z -> list Z) (ip : inode) (n : Z) : Prop :=
  forall bn, 0 <= bn -> bn * BS < n -> faddr v ip bn <> 0.

Lemma dense_off v ip n o : dense v ip n -> 0 <= o < n -> faddr v ip (o / BS) <> 0.
Proof.
  intros D Ho. apply D; [apply Z.div_pos; [lia|done]|].
  pose proof (Z.mul_div_le o BS ltac:(done)). lia.
Qed.

Lemma slice_bytes d o m :
  (o + m <= length d)%nat -> slice d o m = (fun k => byte_at d (o + k)) <$> seq 0 m.
Proof.
  intros Hl. apply list_eq_same_length with (n := m).
  - by rewrite length_fmap, length_seq.
  - by apply length_slice.
  - intros k x y Hk. unfold slice. rewrite lookup_take_lt, lookup_drop by done. intros Hx.
    rewrite list_lookup_fmap, lookup_seq_lt by done. intros [= <-].
    by rewrite byte_at_lookup, Hx.
Qed.

Lemma fbytes_app v ip off a b :
  fbytes v ip off (a + b) = fbytes v ip off a ++ fbytes v ip (off + Z.of_nat a) b.
Proof.
  unfold fbytes, zrange. rewrite seq_app, !fmap_app. f_equal. cbn.
  replace (seq a b) with (Nat.add a <$> seq 0 b) by (by rewrite fmap_add_seq, Nat.add_0_r).
  rewrite <- !list_fmap_compose. apply list_fmap_ext.
  intros i x _. unfold compose. f_equal. lia.
Qed.

(** The bytes of one block. *)
Lemma slice_content v ip off m :
  0 <= off -> 0 <= m -> off `mod` BS + m <= BS -> let a := faddr v ip (off / BS) in a <> 0 ->
  length (v a) = BSIZE ->
  slice (v a) (Z.to_nat (off `mod` BS)) (Z.to_nat m) = fbytes v ip off (Z.to_nat m).
Proof.
  intros Ho Hm Hb a Ha Hl. pose proof (Z.mod_pos_bound off BS ltac:(done)) as Hmod.
  rewrite slice_bytes by (rewrite Hl; change BS with 512 in *; unfold BSIZE; lia).
  unfold fbytes, zrange. rewrite <- list_fmap_compose. apply list_fmap_ext.
  intros i k Hk%list_elem_of_lookup_2%elem_of_seq. unfold compose, content.
  destruct (block_of_offset off (off + Z.of_nat k) m) as [-> Hd]; try lia. fold a.
  destruct (Z.eqb_spec a 0); [done|]. f_equal. lia.
Qed.

(** One turn of the loop of [readi]. *)
Lemma read_turn_ok (s : fsst S) v l i ip off m :
  blocks_ok s v ∅ l -> inodes s !! i = Some ip -> file_ok v (sb s) ip -> 0 <= off < MAXFILE * BS ->
  0 <= m -> off `mod` BS + m <= BS -> faddr v ip (off / BS) <> 0 -> fits (tgeo (fdev s)) ∅ l 1 ->
  exists j d1 d2 d3 w, let a := faddr v ip (off / BS) in
    runs (bmap i (off / BS)) s [] a (with_dev d1 s)
    /\ runs (t_bread ROOTDEV a) d1 [] j d2 /\ runs (t_data j) d2 [] w d2
    /\ runs (t_brelse j) d2 [] tt d3 /\ blocks_ok (with_dev d3 s) v ∅ l /\ tgeo d3 = tgeo (fdev s)
    /\ slice w (Z.to_nat (off `mod` BS)) (Z.to_nat m) = fbytes v ip off (Z.to_nat m).
Proof.
  intros B Hi F Hoff Hm Hb Ha Hf. pose proof (off_block off Hoff) as Hbn.
  destruct (bmap_dense s v l i ip (off / BS) B Hi F Hbn Ha Hf) as (d1 & E1 & B1 & Hg1).
  destruct (fo_addr _ _ _ F _ Hbn) as [|Hga]; [done|].
  destruct (open_good _ v l _ 0 B1 Hga) as (j & d2 & E2 & B2 & Hg2); [cbn [with_dev fdev]; by rewrite Hg1|].
  pose proof (read_block_data d2 _ _ _ j _ (bo_rep _ _ _ _ B2) (lookup_singleton_eq _ _)) as E3.
  destruct (close_good _ _ _ _ _ B2) as (d3 & E4 & B3 & Hg3).
  exists j, d1, d2, d3, (v (faddr v ip (off / BS))). cbv zeta.
  split; [exact E1|]. split; [exact E2|]. split; [exact E3|]. split; [exact E4|]. split; [exact B3|].
  split; [exact (eq_trans Hg3 (eq_trans Hg2 Hg1))|].
  apply slice_content; auto; [lia|].
  apply (view_length s v _ l _ B), (data_home _ _ (bo_sb _ _ _ _ B)), Hga.
Qed.

Lemma readi_loop_ok fuel : forall T s v l i ip off tot n,
  blocks_ok s v ∅ l -> inodes s !! i = Some ip -> file_ok v (sb s) ip ->
  0 <= off -> 0 <= tot <= n -> off + (n - tot) <= MAXFILE * BS -> dense v ip (off + (n - tot)) ->
  (tot < n -> off `mod` BS + (n - tot) <= BS * Z.of_nat T) -> (T <= fuel)%nat ->
  fits (tgeo (fdev s)) ∅ l 1 ->
  exists d, runs (readi_loop fuel i off tot n) s [] (fbytes v ip off (Z.to_nat (n - tot))) (with_dev d s)
    /\ blocks_ok (with_dev d s) v ∅ l /\ tgeo d = tgeo (fdev s).
Proof.
  induction fuel as [|fuel IH]; intros T s v l i ip off tot n B Hi F Hoff Htot Hmax D HT Hfuel Hf;
    cbn [readi_loop]; (destruct (Z.ltb_spec tot n) as [Hlt|Hge];
      [|exists (fdev s); replace (n - tot) with 0 by lia;
        split; [destruct s; apply runs_ret|split; [by apply (blocks_ok_same s)|done]]]);
    pose proof (Z.mod_pos_bound off BS ltac:(done)) as Hmod; specialize (HT Hlt);
    (destruct T as [|T]; [lia|]); [lia|].
  set (m := Z.min (n - tot) (BS - off `mod` BS)) in *. assert (0 < m <= n - tot) as Hm by lia.
  destruct (read_turn_ok s v l i ip off m) as (j & d1 & d2 & d3 & w & E1 & E2 & E3 & E4 & B3 & Hg3 & Hw); auto; try lia.
  { apply (dense_off _ _ _ off D). lia. }
  assert (tot + m < n -> (off + m) `mod` BS + (n - (tot + m)) <= BS * Z.of_nat T) as HT'.
  { intros Hrest. assert (m = BS - off `mod` BS) as Em by lia. rewrite Em.
    replace (off + (BS - off `mod` BS)) with ((off / BS + 1) * BS)
      by (pose proof (Z.div_mod off BS ltac:(done)); lia).
    rewrite Z.mod_mul by done. lia. }
  destruct (IH T (with_dev d3 s) v l i ip (off + m) (tot + m) n) as (d4 & E5 & B5 & Hg5); auto; try lia.
  { by replace (off + m + (n - (tot + m))) with (off + (n - tot)) by lia. }
  { cbn [with_dev fdev]. by rewrite Hg3. }
  exists d4. split; [|split; [exact B5|exact (eq_trans Hg5 Hg3)]].
  eapply runs_bind_nil; [exact E1|]. eapply runs_bind_nil; [by apply runs_ino|]. rewrite (fo_dev _ _ _ F).
  eapply runs_bind_nil; [apply runs_fd; exact E2|]. eapply runs_bind_nil; [apply runs_fd; exact E3|].
  cbv zeta. eapply runs_bind_nil; [apply runs_fd; exact E4|]. eapply runs_bind_nil; [exact E5|].
  fold m. rewrite Hw. replace (Z.to_nat (n - tot)) with (Z.to_nat m + Z.to_nat (n - (tot + m)))%nat by lia.
  rewrite fbytes_app, Z2Nat.id by lia. apply runs_ret.
Qed.

Lemma blocks_of_enough off n : 0 <= n -> off `mod` BS + n <= BS * Z.of_nat (blocks_of n).
Proof.
  intros Hn. unfold blocks_of. change BS with 512. pose proof (Z.mod_pos_bound off 512 ltac:(done)).
  pose proof (Z.div_mod n 512 ltac:(done)). pose proof (Z.mod_pos_bound n 512 ltac:(done)).
  pose proof (Z.div_pos n 512 Hn ltac:(done)). lia.
Qed.

(** [readi] of a file (not a device), as the code computes the count. *)
Definition read_count (size off n : Z) : Z := if off + n >? size then size - off else n.

Lemma readi_ok dev_read (s : fsst S) v l i ip off n :
  blocks_ok s v ∅ l -> inodes s !! i = Some ip -> file_ok v (sb s) ip ->
  i_type ip <> T_DEV -> 0 <= i_size ip <= MAXFILE * BS -> dense v ip (i_size ip) ->
  0 <= off <= i_size ip -> 0 <= n -> off + n < 2 ^ 32 -> fits (tgeo (fdev s)) ∅ l 1 ->
  let c := read_count (i_size ip) off n in
  exists d, runs (readi dev_read i off n) s [] (c, fbytes v ip off (Z.to_nat c)) (with_dev d s)
    /\ blocks_ok (with_dev d s) v ∅ l /\ tgeo d = tgeo (fdev s).
Proof.
  intros B Hi F Hty Hsz D Hoff Hn Hov Hf c.
  assert (0 <= c /\ off + c <= i_size ip) as [Hc0 Hc] by (unfold c, read_count; zcase; lia).
  destruct (readi_loop_ok (blocks_of c) (blocks_of c) s v l i ip off 0 c) as (d & E & B' & Hg'); auto; try lia.
  { intros bn H1 H2. apply D; lia. }
  { intros _. rewrite Z.sub_0_r. by apply blocks_of_enough. }
  rewrite Z.sub_0_r in E.
  exists d. split; [|done]. unfold readi. eapply runs_bind_nil; [by apply runs_ino|].
  destruct (Z.eqb_spec (i_type ip) T_DEV); [done|].
  rewrite u32_small by lia. destruct (Z.gtb_spec off (i_size ip)); [lia|]. destruct (Z.ltb_spec (off + n) off); [lia|].
  cbn [orb]. fold (read_count (i_size ip) off n). fold c. eapply runs_bind_nil; [exact E|apply runs_ret].
Qed.

End Write.
