(* ===== verification/FsInode.v ===== *)
(** * Inodes on disk: [iupdate], loading in [ilock], and [writei] *)

From stdpp Require Import base numbers list gmap strings.
From S2P Require Import Prelude Bytes Mem Str Buf Log LogCrash Tx Fs TxSpec FsBlock FsFile FsRw.

Open Scope Z_scope.

(** ** Encoding *)

Lemma s16_put16 l off v :
  (off + 2 <= length l)%nat -> - 2 ^ 15 <= v < 2 ^ 15 -> s16 (get16 (put16 l off v) off) = v.
Proof.
  intros Hl Hv. unfold get16, put16, s16. byte_cases. unfold u8. rewrite Z.shiftr_div_pow2 by lia.
  change (2 ^ 8) with 256. pose proof (Z.div_mod v 256 ltac:(done)). pose proof (Z.mod_pos_bound v 256 ltac:(done)).
  assert (v / 256 = (v / 256) `mod` 256 \/ v / 256 = (v / 256) `mod` 256 - 256) as Hm.
  { destruct (Z.le_gt_cases 0 v).
    - left. symmetry. apply Z.mod_small. split; [apply Z.div_pos; lia|apply Z.div_lt_upper_bound; lia].
    - right. assert (-128 <= v / 256) by (apply Z.div_le_lower_bound; lia).
      assert (v / 256 < 0) by (apply Z.div_lt_upper_bound; lia).
      rewrite <- (Z.mod_add (v / 256) 1 256) by done. rewrite Z.mod_small; lia. }
  pose proof (Z.mod_pos_bound (v / 256) 256 ltac:(done)). zcase; lia.
Qed.

Lemma length_put_addrs_list d o a ks :
  length (foldl (fun d k => put32 d (o + 12 + 4 * k) (nth k a 0)) d ks) = length d.
Proof. revert d. induction ks as [|k ks IH]; intros d; cbn [foldl]; [done|]. by rewrite IH, length_put32. Qed.

Lemma length_store d o x : length (store_dinode d o x) = length d.
Proof. unfold store_dinode, put_addrs. by rewrite length_put_addrs_list, length_put32, !length_put16. Qed.

(** Fields outside the addresses. *)
Lemma put_addrs_get16 d o a ks off :
  (off + 2 <= o + 12)%nat \/ (o + 64 <= off)%nat -> (forall k, k ∈ ks -> k < 13)%nat ->
  get16 (foldl (fun d k => put32 d (o + 12 + 4 * k) (nth k a 0)) d ks) off = get16 d off.
Proof.
  intros Ho. revert d. induction ks as [|k ks IH]; intros d Hks; cbn [foldl]; [done|].
  pose proof (Hks k ltac:(left)). rewrite IH by (intros; apply Hks; by right).
  apply get16_put32_ne. lia.
Qed.

Lemma put_addrs_get32 d o a ks off :
  (off + 4 <= o + 12)%nat \/ (o + 64 <= off)%nat -> (forall k, k ∈ ks -> k < 13)%nat ->
  get32 (foldl (fun d k => put32 d (o + 12 + 4 * k) (nth k a 0)) d ks) off = get32 d off.
Proof.
  intros Ho. revert d. induction ks as [|k ks IH]; intros d Hks; cbn [foldl]; [done|].
  pose proof (Hks k ltac:(left)). rewrite IH by (intros; apply Hks; by right).
  apply get32_put32_ne. lia.
Qed.

Lemma put_addrs_addr d o a ks k :
  (o + 64 <= length d)%nat -> (k < 13)%nat -> (forall k, k ∈ ks -> k < 13)%nat -> k ∈ ks ->
  0 <= nth k a 0 < 2 ^ 32 ->
  get32 (foldl (fun d k => put32 d (o + 12 + 4 * k) (nth k a 0)) d ks) (o + 12 + 4 * k) = nth k a 0.
Proof.
  intros Hl Hk. revert d Hl. induction ks as [|j ks IH] using rev_ind; intros d Hl Hks Hin Ha.
  { by apply not_elem_of_nil in Hin. }
  rewrite foldl_snoc. pose proof (Hks j ltac:(set_solver)).
  destruct (decide (j = k)) as [->|Hne].
  - apply get32_put32_eq; [|done]. rewrite length_put_addrs_list. lia.
  - rewrite get32_put32_ne by lia. apply IH; auto.
    + intros i Hi. apply Hks. set_solver.
    + set_solver.
Qed.

(** What fits the fields of [struct dinode]. *)
Record inode_fits (x : inode) : Prop := {
  if_type : - 2 ^ 15 <= i_type x < 2 ^ 15;
  if_major : - 2 ^ 15 <= i_major x < 2 ^ 15;
  if_minor : - 2 ^ 15 <= i_minor x < 2 ^ 15;
  if_nlink : - 2 ^ 15 <= i_nlink x < 2 ^ 15;
  if_size : 0 <= i_size x < 2 ^ 32;
  if_len : length (i_addrs x) = Z.to_nat (NDIRECT + 1);
  if_addrs : Forall (fun a => 0 <= a < 2 ^ 32) (i_addrs x)
}.

(** The part of an in-memory inode that is a copy of the disk inode. *)
Definition with_copy (x y : inode) : inode :=
  mk_inode (i_dev y) (i_inum y) (i_ref y) (i_flags y) (i_type x) (i_major x) (i_minor x) (i_nlink x)
    (i_size x) (i_addrs x).

Lemma seq13 k : (k ∈ seq 0 13 <-> k < 13)%nat.
Proof. rewrite elem_of_seq. lia. Qed.

Lemma load_store d o x y :
  (o + 64 <= length d)%nat -> inode_fits x -> load_dinode (store_dinode d o x) o y = with_copy x y.
Proof.
  intros Hl [Ht Hj Hm Hn Hs Hlen Ha]. unfold load_dinode, with_copy, store_dinode, dtype, put_addrs.
  change (Z.to_nat (NDIRECT + 1)) with 13%nat in *.
  assert (Hks : forall k, k ∈ seq 0 13 -> (k < 13)%nat) by (intros k; apply seq13).
  f_equal.
  - rewrite put_addrs_get16, get16_put32_ne, !get16_put16_ne by (done || lia).
    apply s16_put16; [lia|done].
  - rewrite put_addrs_get16, get16_put32_ne, !get16_put16_ne by (done || lia).
    apply s16_put16; [rewrite !length_put16; lia|done].
  - rewrite put_addrs_get16, get16_put32_ne, !get16_put16_ne by (done || lia).
    apply s16_put16; [rewrite !length_put16; lia|done].
  - rewrite put_addrs_get16, get16_put32_ne by (done || lia).
    apply s16_put16; [rewrite !length_put16; lia|done].
  - rewrite put_addrs_get32 by (done || lia). apply get32_put32_eq; [rewrite !length_put16; lia|done].
  - unfold daddrs. change (Z.to_nat (NDIRECT + 1)) with 13%nat.
    apply list_eq_same_length with (n := 13%nat); [done|by rewrite length_fmap, length_seq|].
    intros k a b Hk. rewrite list_lookup_fmap, lookup_seq_lt by done. intros E Hb. apply (inj Some) in E.
    rewrite <- E, Nat.add_0_l, put_addrs_addr; auto.
    + by apply nth_lookup_Some.
    + rewrite length_put32, !length_put16. lia.
    + by apply seq13.
    + rewrite (nth_lookup_Some _ _ _ _ Hb). rewrite Forall_forall in Ha. apply Ha.
      by eapply list_elem_of_lookup_2.
Qed.

(** Other inodes of the block are not touched. *)
Lemma load_store_other d o o' x y :
  (o + 64 <= o' \/ o' + 64 <= o)%nat -> load_dinode (store_dinode d o x) o' y = load_dinode d o' y.
Proof.
  intros Ho. unfold load_dinode, store_dinode, dtype, put_addrs, daddrs.
  change (Z.to_nat (NDIRECT + 1)) with 13%nat.
  assert (Hks : forall k, k ∈ seq 0 13 -> (k < 13)%nat) by (intros k; apply seq13).
  f_equal.
  1-4: rewrite put_addrs_get16, get16_put32_ne, !get16_put16_ne by (done || lia); done.
  - rewrite put_addrs_get32, get32_put32_ne, !get32_put16_ne by (done || lia). done.
  - apply list_fmap_ext. intros i k Hk%list_elem_of_lookup_2%seq13.
    rewrite put_addrs_get32, get32_put32_ne, !get32_put16_ne by (done || lia). done.
Qed.

(** ** Inode blocks *)

Lemma iblock_range g x inum : wf_sb g x -> 0 <= inum < sb_ninodes x ->
  IBLOCK inum x = inum / IPB + sb_inodestart x
  /\ sb_inodestart x <= IBLOCK inum x < sb_bmapstart x.
Proof.
  intros [H1 H2 H3 H4] Hi. unfold IBLOCK.
  pose proof (Z.div_pos inum IPB ltac:(lia) ltac:(done)).
  assert (inum / IPB <= sb_ninodes x / IPB) by (apply Z.div_le_mono; [done|lia]).
  assert (0 <= sb_size x / BPB) by (apply Z.div_pos; [lia|done]).
  rewrite u32_small by lia. lia.
Qed.

Lemma iblock_home g x inum : wf_sb g x -> 0 <= inum < sb_ninodes x ->
  ghome g (IBLOCK inum x) /\ ~ bitmap_block x (IBLOCK inum x) /\ ~ data_block x (IBLOCK inum x)
  /\ 1 < IBLOCK inum x.
Proof.
  intros W Hi. pose proof (iblock_range g x inum W Hi) as [_ Hr]. destruct W as [H1 H2 H3 H4].
  assert (0 <= sb_size x / BPB) by (apply Z.div_pos; [lia|done]).
  unfold ghome, bitmap_block, data_block. lia.
Qed.

Lemma ioff_bound inum : (ioff inum + 64 <= BSIZE)%nat.
Proof.
  unfold ioff. change IPB with 8. change DINODE_SIZE with 64. unfold BSIZE.
  pose proof (Z.mod_pos_bound inum 8 ltac:(done)). lia.
Qed.

(** The view after [iupdate]. *)
Definition iupd_view (v : Z -> list Z) (x : superblock) (ip : inode) : Z -> list Z :=
  let b := IBLOCK (i_inum ip) x in zupd v b (store_dinode (v b) (ioff (i_inum ip)) ip).

(** The inode on disk, completed with the in-memory fields of [y]. *)
Definition disk_inode (v : Z -> list Z) (x : superblock) (inum : Z) (y : inode) : inode :=
  load_dinode (v (IBLOCK inum x)) (ioff inum) y.

Section Iupdate.
Context {S : Type} `{TxDiskSpec S}.

Lemma iupd_view_eq (s : fsst S) v h l ip y :
  blocks_ok s v h l -> 0 <= i_inum ip < sb_ninodes (sb s) -> inode_fits ip ->
  disk_inode (iupd_view v (sb s) ip) (sb s) (i_inum ip) y = with_copy ip y.
Proof.
  intros B Hi Hf. unfold disk_inode, iupd_view. rewrite zupd_eq. apply load_store; [|done].
  rewrite (view_length s v h l _ B) by (apply (iblock_home _ _ _ (bo_sb _ _ _ _ B) Hi)). apply ioff_bound.
Qed.

Lemma iupd_view_other (s : fsst S) v h l ip inum y :
  blocks_ok s v h l -> 0 <= i_inum ip < sb_ninodes (sb s) -> 0 <= inum < sb_ninodes (sb s) ->
  inum <> i_inum ip -> disk_inode (iupd_view v (sb s) ip) (sb s) inum y = disk_inode v (sb s) inum y.
Proof.
  intros B Hi Hn Hne. pose proof (bo_sb _ _ _ _ B) as W. unfold disk_inode, iupd_view, zupd.
  destruct (Z.eqb_spec (IBLOCK inum (sb s)) (IBLOCK (i_inum ip) (sb s))) as [E|]; [|done].
  rewrite <- E. apply load_store_other.
  destruct (iblock_range _ _ _ W Hi) as [E1 _], (iblock_range _ _ _ W Hn) as [E2 _].
  rewrite E1, E2 in E. unfold ioff. change IPB with 8 in *. change DINODE_SIZE with 64.
  pose proof (Z.div_mod inum 8 ltac:(done)). pose proof (Z.mod_pos_bound inum 8 ltac:(done)).
  pose proof (Z.div_mod (i_inum ip) 8 ltac:(done)). pose proof (Z.mod_pos_bound (i_inum ip) 8 ltac:(done)). lia.
Qed.

(** Blocks other than inode blocks. *)
Lemma iupd_view_block (s : fsst S) v h l ip n :
  blocks_ok s v h l -> 0 <= i_inum ip < sb_ninodes (sb s) -> n <> IBLOCK (i_inum ip) (sb s) ->
  iupd_view v (sb s) ip n = v n.
Proof. intros _ _ Hn. by apply zupd_ne. Qed.

Lemma blocks_ok_iupd (s : fsst S) v h l ip d h' l' :
  blocks_ok s v h l -> 0 <= i_inum ip < sb_ninodes (sb s) ->
  crep d (iupd_view v (sb s) ip) h' l' -> tgeo d = tgeo (fdev s) -> held_used v (sb s) h' ->
  blocks_ok (with_dev d s) (iupd_view v (sb s) ip) h' l'.
Proof.
  intros B Hi Hr Hg Hh. pose proof (bo_sb _ _ _ _ B) as W.
  destruct (iblock_home _ _ _ W Hi) as (_ & Hnb & _ & H1).
  apply (blocks_ok_view s v h l B); auto; unfold iupd_view.
  - rewrite zupd_ne by lia. apply B.
  - intros c Hc. rewrite (used_other s v h l B) by done. by apply (bo_meta _ _ _ _ B).
  - intros i m Hm. destruct (Hh i m Hm) as [Hd Hu]. split; [done|].
    pose proof (data_range _ _ _ W Hd). by rewrite (used_other s v h l B) by (auto; lia).
Qed.

Lemma iupdate_ok (s : fsst S) v l i ip :
  blocks_ok s v ∅ l -> inodes s !! i = Some ip -> i_dev ip = ROOTDEV ->
  0 <= i_inum ip < sb_ninodes (sb s) -> fits (tgeo (fdev s)) ∅ l 1 ->
  exists d, runs (iupdate i) s [] tt (with_dev d s) /\ tgeo d = tgeo (fdev s)
    /\ blocks_ok (with_dev d s) (iupd_view v (sb s) ip) ∅ ({[IBLOCK (i_inum ip) (sb s)]} ∪ l).
Proof.
  intros B Hi Hd Hn Hf. pose proof (bo_sb _ _ _ _ B) as W.
  destruct (iblock_home _ _ _ W Hn) as (Hh & _). set (b := IBLOCK (i_inum ip) (sb s)) in *.
  destruct (open_block _ _ _ _ b (bo_rep _ _ _ _ B)) as (j & d1 & E1 & Hj & Hr1 & Hg1); auto.
  { split; apply Hh. } { intros k. by rewrite lookup_empty. }
  pose proof (read_block_data d1 v _ l j _ Hr1 (lookup_insert_eq _ _ _)) as E2.
  destruct (finish_block d1 v ∅ l j b (store_dinode (v b) (ioff (i_inum ip)) ip) Hr1 Hj)
    as (d2 & d3 & d4 & E3 & E4 & E5 & Hr4 & Hg4).
  { by rewrite Hg1. } { rewrite Hg1. unfold fits in Hf. lia. }
  { rewrite length_store. by apply (view_length s v ∅ l _ B), Hh. }
  exists d4. split; [|split; [congruence|]].
  - eapply runs_bind_nil; [by apply runs_ino|]. eapply runs_bind_nil; [apply runs_get|]. rewrite Hd.
    eapply runs_bind_nil; [apply runs_fd; exact E1|]. eapply runs_bind_nil; [apply runs_fd; exact E2|].
    eapply runs_bind_nil; [apply runs_fd; exact E3|]. eapply runs_bind_nil; [apply runs_fd; exact E4|].
    exact (runs_fd (t_brelse j) (with_dev d3 s) _ _ _ E5).
  - apply (blocks_ok_iupd s v ∅ l); auto; [congruence|]. intros k m. by rewrite lookup_empty.
Qed.

(** ** [writei] *)

Lemma file_ok_addrs g v x ip : wf_sb g x -> file_ok v x ip ->
  Forall (fun a => 0 <= a < 2 ^ 32) (i_addrs ip).
Proof.
  intros W F. apply Forall_forall. intros a (k & Hk)%list_elem_of_lookup_1.
  pose proof (lookup_lt_Some _ _ _ Hk) as Hlt. rewrite (fo_len _ _ _ F) in Hlt.
  pose proof (ws_size _ _ W). apply (nth_lookup_Some _ _ 0) in Hk.
  assert (a = 0 \/ good v x a) as [->|Hg]; [|lia|pose proof (good_pos g x v a W Hg); lia].
  destruct (decide (k < Z.to_nat NDIRECT)%nat) as [Hd|Hd].
  - destruct (fo_addr _ _ _ F (Z.of_nat k)) as [E|E];
      [split; [lia|change MAXFILE with 140; change NDIRECT with 12 in *; lia]|..];
      unfold faddr in E; destruct (Z.ltb_spec (Z.of_nat k) NDIRECT); try lia; rewrite Nat2Z.id, Hk in E; auto.
  - assert (k = Z.to_nat NDIRECT) as -> by (change NDIRECT with 12 in *; lia).
    destruct (fo_ind _ _ _ F) as [E|E]; unfold ind in E; rewrite Hk in E; auto.
Qed.

(** The file and its blocks do not depend on its size, nor on inode blocks. *)
Lemma faddr_iupd (s : fsst S) v h l ip ip2 n bn :
  blocks_ok s v h l -> 0 <= i_inum ip2 < sb_ninodes (sb s) -> file_ok v (sb s) ip ->
  faddr (iupd_view v (sb s) ip2) (set_isize n ip) bn = faddr v ip bn.
Proof.
  intros B Hi F. pose proof (bo_sb _ _ _ _ B) as W. unfold faddr. change (ind (set_isize n ip)) with (ind ip).
  destruct (bn <? NDIRECT); [done|]. destruct (Z.eqb_spec (ind ip) 0); [done|].
  unfold iupd_view. rewrite zupd_ne; [done|]. destruct (iblock_home _ _ _ W Hi) as (_ & _ & Hnd & _).
  intros E. destruct (fo_ind _ _ _ F) as [|[Hd _]]; [done|]. by rewrite E in Hd.
Qed.

Lemma file_ok_iupd (s : fsst S) v h l ip ip2 n :
  blocks_ok s v h l -> 0 <= i_inum ip2 < sb_ninodes (sb s) -> file_ok v (sb s) ip ->
  file_ok (iupd_view v (sb s) ip2) (sb s) (set_isize n ip).
Proof.
  intros B Hi F. pose proof (bo_sb _ _ _ _ B) as W.
  assert (Hg : forall b, good v (sb s) b -> good (iupd_view v (sb s) ip2) (sb s) b).
  { intros b [Hd Hu]. split; [done|]. pose proof (data_range _ _ _ W Hd).
    unfold iupd_view. rewrite (used_other s v h l B); auto; [|lia]. apply (iblock_home _ _ _ W Hi). }
  constructor; try apply F.
  - destruct (fo_ind _ _ _ F); [by left|right; by apply Hg].
  - intros bn Hb. rewrite (faddr_iupd s v h l) by done. destruct (fo_addr _ _ _ F bn Hb); auto.
  - intros j k Hj Hk. rewrite !(faddr_iupd s v h l) by done. by apply (fo_inj _ _ _ F).
  - intros j Hj. rewrite (faddr_iupd s v h l) by done. by apply (fo_ne _ _ _ F).
Qed.

Lemma content_iupd (s : fsst S) v h l ip ip2 n o :
  blocks_ok s v h l -> 0 <= i_inum ip2 < sb_ninodes (sb s) -> file_ok v (sb s) ip ->
  0 <= o < MAXFILE * BS ->
  content (iupd_view v (sb s) ip2) (set_isize n ip) o = content v ip o.
Proof.
  intros B Hi F Ho. unfold content. rewrite (faddr_iupd s v h l) by done.
  destruct (Z.eqb_spec (faddr v ip (o / BS)) 0); [done|]. unfold iupd_view. rewrite zupd_ne; [done|].
  destruct (iblock_home _ _ _ (bo_sb _ _ _ _ B) Hi) as (_ & _ & Hnd & _).
  intros E. destruct (fo_addr _ _ _ F (o / BS) (off_block o Ho)) as [|[Hd _]]; [done|]. by rewrite E in Hd.
Qed.

(** The result of writing [src] at [off]: [(v1, ip1)] after the blocks are
    written, and the inode with its new size on disk when it grew. *)
Definition grew (ip : inode) (off n : Z) : bool := (n >? 0) && (off + n >? i_size ip).
Definition resize (ip ip1 : inode) (off n : Z) : inode :=
  if grew ip off n then set_isize (off + n) ip1 else ip1.
Definition rewrite_inode (x : superblock) (v1 : Z -> list Z) (ip ip1 : inode) (off n : Z) : Z -> list Z :=
  if grew ip off n then iupd_view v1 x (resize ip ip1 off n) else v1.

Lemma writei_run dev_write (s : fsst S) v l i ip src off n T :
  blocks_ok s v ∅ l -> inodes s !! i = Some ip -> file_ok v (sb s) ip ->
  i_type ip <> T_DEV -> 0 <= i_inum ip < sb_ninodes (sb s) ->
  0 <= off <= i_size ip -> 0 <= n <= Z.of_nat (length src) -> off + n <= MAXFILE * BS ->
  off `mod` BS + n <= BS * Z.of_nat T -> (T <= blocks_of n)%nat ->
  budget (tgeo (fdev s)) (sb s) ip l (T + 1) -> (2 * T <= size (free_set v (sb s)))%nat ->
  exists s' v1 ip1 l', runs (writei dev_write i src off n) s [] n s'
    /\ wrote (sb s) v ip v1 ip1 off (take (Z.to_nat n) src)
    /\ (exists s1 l1, blocks_ok s1 v1 ∅ l1 /\ sb s1 = sb s)
    /\ blocks_ok s' (rewrite_inode (sb s) v1 ip ip1 off n) ∅ l'
    /\ s' = with_inode (fdev s') i (resize ip ip1 off n) s /\ tgeo (fdev s') = tgeo (fdev s)
    /\ fits (tgeo (fdev s)) ∅ l' 1.
Proof.
  intros B Hi F Hty Hin Hoff Hn Hmax HT HTb Hbud Hfree. change (MAXFILE * BS) with 71680 in Hmax.
  destruct (writei_loop_ok (blocks_of n) T s v l i ip src off 0 n) as (s1 & v1 & l1 & ip1 & E1 & St);
    auto; try lia.
  { by rewrite Z.sub_0_r. } { destruct Hbud as (H1 & H2 & H3). split; [lia|]. split; [lia|done]. }
  rewrite Z.sub_0_r in St. pose proof (write_step_sb _ _ _ _ _ _ _ _ _ _ _ _ _ St) as Hsb.
  pose proof (wst_wrote _ _ _ _ _ _ _ _ _ _ _ _ _ St) as Wr. pose proof (wst_blocks _ _ _ _ _ _ _ _ _ _ _ _ _ St) as B1.
  pose proof (write_step_lookup _ _ _ _ _ _ _ _ _ _ _ _ _ St Hi) as Hi1.
  assert (i_size ip1 = i_size ip /\ i_inum ip1 = i_inum ip) as [Hsz Hinum]
    by (rewrite (wr_same _ _ _ _ _ _ _ Wr); done).
  assert (Hpre : forall s2, runs (when (grew ip off n) (upd_ino i (set_isize (off + n)) ;; iupdate i)) s1 [] tt s2 ->
    runs (writei dev_write i src off n) s [] n s2).
  { intros s2 E2. unfold writei. eapply runs_bind_nil; [by apply runs_ino|].
    rewrite u32_small by lia. change (MAXFILE * BS) with 71680.
    destruct (Z.eqb_spec (i_type ip) T_DEV); [done|]. destruct (Z.gtb_spec off (i_size ip)); [lia|].
    destruct (Z.ltb_spec (off + n) off); [lia|]. destruct (Z.gtb_spec (off + n) 71680); [lia|]. cbn [orb].
    eapply runs_bind_nil; [exact E1|]. cbv zeta. eapply runs_bind_nil; [by apply runs_ino|]. rewrite Hsz.
    eapply runs_bind_nil; [exact E2|]. apply runs_ret. }
  assert (Hfit : forall l2, (size l2 <= size l1 + 1)%nat -> fits (tgeo (fdev s)) ∅ l2 1).
  { intros l2 Hl2. pose proof (wst_cost _ _ _ _ _ _ _ _ _ _ _ _ _ St) as Hc. pose proof (cost_size (sb s) ip1 l1).
    destruct Hbud as (Hb1 & Hb2 & _). unfold fits. rewrite map_size_empty. lia. }
  unfold resize, rewrite_inode. destruct (grew ip off n) eqn:Hgr.
  - set (ip2 := set_isize (off + n) ip1). set (s2 := with_inode (fdev s1) i ip2 s1).
    destruct (iupdate_ok s2 v1 l1 i ip2) as (d & E2 & Hg & B2).
    { by apply (blocks_ok_same s1). } { by eapply with_inode_lookup. } { apply (fo_dev _ _ _ (wr_ok _ _ _ _ _ _ _ Wr)). }
    { unfold s2. cbn. by rewrite Hinum, Hsb. }
    { cbn [s2 with_inode fdev]. apply (fits_le _ _ _ (1 + 2)); [lia|].
      apply (budget_fits _ (sb s1) ip1). by apply (write_step_budget _ _ _ _ _ _ _ _ _ _ _ _ _ 1 St). }
    exists (with_dev d s2), v1, ip1, ({[IBLOCK (i_inum ip2) (sb s2)]} ∪ l1). split; [|split; [done|split; [by exists s1, l1|split; [|split; [|split]]]]].
    + apply Hpre. eapply runs_bind_nil; [by apply (runs_upd_ino s1 i ip1)|exact E2].
    + unfold resize. rewrite Hgr. fold ip2. rewrite <- Hsb. exact B2.
    + pose proof (wst_state _ _ _ _ _ _ _ _ _ _ _ _ _ St) as Es. unfold s2, with_inode, with_dev in *.
      cbn [fdev sb ic_lock inodes]. rewrite Es. cbn [sb ic_lock inodes]. by rewrite list_insert_insert_eq.
    + cbn [with_dev fdev]. rewrite Hg. apply St.
    + apply Hfit, size_add_le.
  - exists s1, v1, ip1, l1. split; [apply Hpre, runs_ret|]. split; [done|]. split; [by exists s1, l1|].
    split; [exact B1|]. split; [apply St|]. split; [apply St|]. apply Hfit. lia.
Qed.

End Iupdate.
