(* ===== verification/Icache.v ===== *)
(** * The inode cache: [iget], [idup], [ilock], [iunlock], [iput] of fs.c

    The entries of [icache] that are in use stand for a finite map from inode
    numbers to reference counts; a valid entry is a copy of the inode on disk. *)

From stdpp Require Import base numbers list gmap strings.
From S2P Require Import Prelude Bytes Mem Str Buf Log LogCrash Tx Fs TxSpec FsBlock FsFile FsRw FsInode.

Open Scope Z_scope.

(** ** References *)

Definition grab (n : Z) (R : gmap Z Z) : gmap Z Z := <[n := default 0 (R !! n) + 1]> R.
Definition put (n : Z) (R : gmap Z Z) : gmap Z Z :=
  match R !! n with
  | Some r => if r =? 1 then delete n R else <[n := r - 1]> R
  | None => R
  end.

Definition positive (R : gmap Z Z) : Prop := forall n r, R !! n = Some r -> 0 < r.

Lemma grab_positive n R : positive R -> positive (grab n R).
Proof.
  intros P m r. unfold grab. destruct (decide (n = m)) as [<-|]; [|rewrite lookup_insert_ne by done; apply P].
  rewrite lookup_insert_eq. intros [= <-]. destruct (R !! n) as [r|] eqn:E; [specialize (P n r E)|]; cbn; lia.
Qed.

(** Giving back what was taken, also when another inode was taken in between. *)
Lemma put_grab n R : positive R -> put n (grab n R) = R.
Proof.
  intros P. unfold put, grab. rewrite lookup_insert_eq. destruct (R !! n) as [r|] eqn:E; cbn.
  - specialize (P n r E). destruct (Z.eqb_spec (r + 1) 1); [lia|]. rewrite insert_insert_eq, Z.add_simpl_r.
    by apply insert_id.
  - by rewrite delete_insert_id.
Qed.

Lemma grab_comm m n R : grab m (grab n R) = grab n (grab m R).
Proof.
  unfold grab. destruct (decide (m = n)) as [->|Hne]; [done|].
  rewrite !lookup_insert_ne by done. by apply insert_insert_ne.
Qed.

Lemma put_grab_under m n R : positive R -> put m (grab n (grab m R)) = grab n R.
Proof. intros P. rewrite grab_comm. apply put_grab. by apply grab_positive. Qed.

Lemma size_grab n R : (size (grab n R) <= size R + 1)%nat.
Proof.
  unfold grab. destruct (R !! n) eqn:E; [rewrite map_size_insert_Some by done|rewrite map_size_insert_None by done]; lia.
Qed.

(** ** The entries *)

(** [es] is the cache of the references [R]: at most one entry in use per inode. *)
Record icache (es : list inode) (R : gmap Z Z) : Prop := {
  ic_used : forall j ip, es !! j = Some ip -> i_ref ip <> 0 ->
    0 < i_ref ip /\ i_dev ip = ROOTDEV /\ R !! i_inum ip = Some (i_ref ip);
  ic_has : forall n r, R !! n = Some r -> exists j ip, es !! j = Some ip /\ i_ref ip <> 0 /\ i_inum ip = n;
  ic_inj : forall j k x y, es !! j = Some x -> es !! k = Some y -> i_ref x <> 0 -> i_ref y <> 0 ->
    i_inum x = i_inum y -> j = k
}.

Lemma icache_positive es R : icache es R -> positive R.
Proof.
  intros [U H1 _] n r E. destruct (H1 n r E) as (j & ip & Hj & Hr & Hn). destruct (U j ip Hj Hr) as (Hp & _ & E').
  rewrite Hn, E in E'. by injection E' as ->.
Qed.

(** Entry [j] gets the reference count [r] for inode [n]. *)
Lemma icache_insert es R j ip n r :
  icache es R -> 0 < r -> i_ref ip = r -> i_dev ip = ROOTDEV -> i_inum ip = n ->
  (exists old, es !! j = Some old /\ (i_ref old = 0 /\ R !! n = None \/ i_ref old <> 0 /\ i_inum old = n)) ->
  icache (<[j := ip]> es) (<[n := r]> R).
Proof.
  intros [U H1 I] Hr Er Ed En (old & Hj & Hold).
  assert (Hlt : (j < length es)%nat) by (by apply lookup_lt_Some in Hj).
  assert (Hother : forall k x, k <> j -> es !! k = Some x -> i_ref x <> 0 -> i_inum x <> n).
  { intros k x Hk Ex Hx E. destruct Hold as [[_ Hnone]|[Ho Hn]].
    - destruct (U k x Ex Hx) as (_ & _ & E'). by rewrite E, Hnone in E'.
    - apply Hk. apply (I k j x old); auto. by rewrite Hn. }
  constructor.
  - intros k x. destruct (decide (j = k)) as [<-|Hne].
    + rewrite list_lookup_insert_eq by done. intros [= <-] _. rewrite En, lookup_insert_eq, Er. auto.
    + rewrite list_lookup_insert_ne by done. intros Ex Hx. destruct (U k x Ex Hx) as (? & ? & ?).
      rewrite lookup_insert_ne by (symmetry; by apply (Hother k)). auto.
  - intros m q. destruct (decide (n = m)) as [<-|Hne].
    + intros _. exists j, ip. rewrite list_lookup_insert_eq by done. split; [done|]. lia.
    + rewrite lookup_insert_ne by done. intros E. destruct (H1 m q E) as (k & x & Ex & Hx & Hm).
      exists k, x. split; [|done]. rewrite list_lookup_insert_ne; [done|]. intros <-. rewrite Hj in Ex. injection Ex as <-.
      destruct Hold as [[? _]|[_ ?]]; congruence.
  - intros k k' x y. destruct (decide (j = k)) as [<-|Hk], (decide (j = k')) as [<-|Hk']; [done|..];
      rewrite ?list_lookup_insert_eq, ?list_lookup_insert_ne by done.
    + intros [= <-] Ey _ Hy E. destruct (Hother k' y ltac:(done) Ey Hy). congruence.
    + intros Ex [= <-] Hx _ E. destruct (Hother k x ltac:(done) Ex Hx). congruence.
    + apply I.
Qed.

(** Entry [j] is no longer in use. *)
Lemma icache_delete es R j ip old :
  icache es R -> es !! j = Some old -> i_ref old <> 0 -> i_ref ip = 0 ->
  icache (<[j := ip]> es) (delete (i_inum old) R).
Proof.
  intros [U H1 I] Hj Ho Hip.
  assert (Hlt : (j < length es)%nat) by (by apply lookup_lt_Some in Hj). constructor.
  - intros k x. destruct (decide (j = k)) as [<-|Hne].
    + rewrite list_lookup_insert_eq by done. intros [= <-]. by rewrite Hip.
    + rewrite list_lookup_insert_ne by done. intros Ex Hx. destruct (U k x Ex Hx) as (? & ? & ?).
      rewrite lookup_delete_ne; [auto|]. intros E. by apply Hne, (I j k old x).
  - intros n r [Hne E]%lookup_delete_Some. destruct (H1 n r E) as (k & x & Ex & Hx & Hn).
    exists k, x. split; [|done]. rewrite list_lookup_insert_ne; [done|]. intros <-. congruence.
  - intros k k' x y. destruct (decide (j = k)) as [<-|Hk], (decide (j = k')) as [<-|Hk']; [done|..];
      rewrite ?list_lookup_insert_eq, ?list_lookup_insert_ne by done.
    + intros [= <-]. by rewrite Hip.
    + intros _ [= <-]. by rewrite Hip.
    + apply I.
Qed.

(** Only other fields of an entry change. *)
Lemma icache_same es R j ip old :
  icache es R -> es !! j = Some old -> i_ref ip = i_ref old -> i_inum ip = i_inum old -> i_dev ip = i_dev old ->
  icache (<[j := ip]> es) R.
Proof.
  intros C Hj Er En Ed. destruct (decide (i_ref old = 0)) as [Ho|Ho].
  - destruct C as [U H1 I]. assert (Hlt : (j < length es)%nat) by (by apply lookup_lt_Some in Hj).
    assert (K : forall k x, <[j := ip]> es !! k = Some x -> i_ref x <> 0 -> es !! k = Some x).
    { intros k x. destruct (decide (j = k)) as [<-|Hne]; [|by rewrite list_lookup_insert_ne].
      rewrite list_lookup_insert_eq by done. intros [= <-]. congruence. }
    constructor.
    + intros k x Ex Hx. apply (U k x); auto.
    + intros n r E. destruct (H1 n r E) as (k & x & Ex & Hx & Hn). exists k, x. split; [|done].
      rewrite list_lookup_insert_ne; [done|]. intros <-. congruence.
    + intros k k' x y Ex Ey Hx Hy. apply (I k k' x y); auto.
  - destruct (ic_used _ _ C j old Hj Ho) as (Hp & Hd & E). rewrite <- (insert_id R _ _ E).
    apply (icache_insert es R j ip); auto; try congruence. exists old. auto.
Qed.

(** ** The scan of [iget] *)

Lemma iget_scan_inl l i n e j : iget_scan l i ROOTDEV n e = inl j ->
  exists ip, (i <= j)%nat /\ l !! (j - i)%nat = Some ip /\ 0 < i_ref ip /\ i_inum ip = n.
Proof.
  revert i e. induction l as [|x l IH]; intros i e E; cbn [iget_scan] in E; [done|].
  destruct ((i_ref x >? 0) && (i_dev x =? ROOTDEV) && (i_inum x =? n)) eqn:B.
  - injection E as <-. rewrite Nat.sub_diag. exists x. apply andb_prop in B as [[Hr _]%andb_prop Hn].
    apply Z.gtb_lt in Hr. apply Z.eqb_eq in Hn. cbn. auto.
  - destruct (IH _ _ E) as (ip & Hle & Hl & Hip). exists ip. split; [lia|]. split; [|done].
    by replace (j - i)%nat with (Datatypes.S (j - Datatypes.S i)) by lia.
Qed.

Lemma iget_scan_none l i n e r : iget_scan l i ROOTDEV n e = inr r ->
  forall ip, ip ∈ l -> 0 < i_ref ip -> i_dev ip = ROOTDEV -> i_inum ip <> n.
Proof.
  revert i e. induction l as [|x l IH]; intros i e E ip; cbn [iget_scan] in E; [by intros ?%elem_of_nil|].
  destruct ((i_ref x >? 0) && (i_dev x =? ROOTDEV) && (i_inum x =? n)) eqn:B; [done|].
  intros [->|Hin]%elem_of_cons; [|by apply (IH _ _ E)]. intros Hr Hd Hn.
  rewrite Hd, Hn, !Z.eqb_refl in B. destruct (Z.gtb_spec (i_ref x) 0); [done|lia].
Qed.

Lemma iget_scan_empty l i n e j : iget_scan l i ROOTDEV n e = inr (Some j) ->
  e = Some j \/ e = None /\ (i <= j)%nat /\ exists ip, l !! (j - i)%nat = Some ip /\ i_ref ip = 0.
Proof.
  revert i e. induction l as [|x l IH]; intros i e E; cbn [iget_scan] in E; [injection E as ->; by left|].
  destruct (_ && _ && _); [done|]. destruct (IH _ _ E) as [E1|(E1 & Hle & ip & Hl & Hip)].
  - destruct e as [e|]; [by left|]. destruct (Z.eqb_spec (i_ref x) 0) as [Hx|]; [|done]. injection E1 as <-.
    right. split; [done|]. split; [lia|]. exists x. by rewrite Nat.sub_diag.
  - destruct e as [e|]; [done|]. destruct (Z.eqb_spec (i_ref x) 0); [done|]. right. split; [done|]. split; [lia|].
    exists ip. by replace (j - i)%nat with (Datatypes.S (j - Datatypes.S i)) by lia.
Qed.

Lemma iget_scan_full l i n e : iget_scan l i ROOTDEV n e = inr None -> e = None /\ Forall (fun ip => i_ref ip <> 0) l.
Proof.
  revert i e. induction l as [|x l IH]; intros i e E; cbn [iget_scan] in E; [injection E as ->; by split|].
  destruct (_ && _ && _); [done|]. destruct (IH _ _ E) as [E1 Hl]. destruct e as [e|]; [done|].
  destruct (Z.eqb_spec (i_ref x) 0); [done|]. split; [done|]. by constructor.
Qed.

(** A full cache holds as many inodes as it has entries. *)
Lemma icache_full es R : icache es R -> Forall (fun ip => i_ref ip <> 0) es -> (length es <= size R)%nat.
Proof.
  intros C Hf. rewrite Forall_forall in Hf.
  assert (NoDup (i_inum <$> es)) as Hnd.
  { apply NoDup_alt. intros j k n. rewrite !list_lookup_fmap, !fmap_Some. intros (x & Ex & ->) (y & Ey & E).
    apply (ic_inj _ _ C j k x y); auto; apply Hf; by eapply list_elem_of_lookup_2. }
  rewrite <- (length_fmap i_inum), <- (size_list_to_set (C := gset Z)) by done.
  rewrite <- (size_dom (D := gset Z)). apply subseteq_size. intros n (ip & -> & [j Hj]%list_elem_of_lookup)%elem_of_list_to_set%list_elem_of_fmap.
  apply elem_of_dom. destruct (ic_used _ _ C j ip Hj) as (_ & _ & ->); [|done].
  apply Hf. by eapply list_elem_of_lookup_2.
Qed.

(** ** Copies of disk inodes *)

Definition dnode (v : Z -> list Z) (x : superblock) (n : Z) : inode :=
  disk_inode v x n (mk_inode ROOTDEV n 0 0 0 0 0 0 0 []).

(** The inode is allocated and has a link. *)
Definition linked (v : Z -> list Z) (x : superblock) (n : Z) : Prop :=
  0 <= n < sb_ninodes x /\ i_type (dnode v x n) <> 0 /\ i_nlink (dnode v x n) <> 0.

Definition is_copy (v : Z -> list Z) (x : superblock) (ip : inode) : Prop :=
  with_copy (dnode v x (i_inum ip)) ip = ip.

Lemma load_is_copy v x ip : is_copy v x (load_dinode (v (IBLOCK (i_inum ip) x)) (ioff (i_inum ip)) ip).
Proof. done. Qed.

Lemma is_copy_ref v x ip r : is_copy v x ip -> is_copy v x (set_iref r ip).
Proof. exact (fun E => f_equal (set_iref r) E). Qed.

Lemma is_copy_flags v x ip f : is_copy v x ip -> is_copy v x (set_iflags f ip).
Proof. exact (fun E => f_equal (set_iflags f) E). Qed.

Lemma is_copy_fields v x ip : is_copy v x ip ->
  i_type ip = i_type (dnode v x (i_inum ip)) /\ i_nlink ip = i_nlink (dnode v x (i_inum ip)) /\
  i_size ip = i_size (dnode v x (i_inum ip)) /\ i_addrs ip = i_addrs (dnode v x (i_inum ip)).
Proof. unfold is_copy. intros E. rewrite <- E. done. Qed.

Lemma has_busy f : has f I_BUSY = Z.testbit f 0.
Proof. by apply (has_pow2 f 0). Qed.
Lemma has_valid f : has f I_VALID = Z.testbit f 1.
Proof. by apply (has_pow2 f 1). Qed.

Lemma set_busy f : has (set_flag f I_BUSY) I_BUSY = true /\ has (set_flag f I_BUSY) I_VALID = has f I_VALID.
Proof. rewrite !has_busy, !has_valid. change I_BUSY with (2 ^ 0). by rewrite !testbit_set_flag by lia. Qed.

Lemma set_valid f : has (set_flag f I_VALID) I_VALID = true /\ has (set_flag f I_VALID) I_BUSY = has f I_BUSY.
Proof. rewrite !has_busy, !has_valid. change I_VALID with (2 ^ 1). by rewrite !testbit_set_flag by lia. Qed.

Lemma clear_busy f : has (clear_flag f I_BUSY) I_BUSY = false /\ has (clear_flag f I_BUSY) I_VALID = has f I_VALID.
Proof. rewrite !has_busy, !has_valid. change I_BUSY with (2 ^ 0). by rewrite !testbit_clear_flag by lia. Qed.

Section Ops.
Context {S : Type} `{TxDiskSpec S}.

(** The cache between operations; [lk] is the entry that is locked.  Of inodes
    without links nothing is known. *)
Record cached (s : fsst S) (v : Z -> list Z) (l : gset Z) (R : gmap Z Z) (lk : option nat) : Prop := {
  ca_blocks : blocks_ok s v ∅ l;
  ca_lock : ic_lock s = false;
  ca_cache : icache (inodes s) R;
  ca_copy : forall j ip, inodes s !! j = Some ip -> i_ref ip <> 0 -> linked v (sb s) (i_inum ip) ->
    has (i_flags ip) I_BUSY = bool_decide (lk = Some j) /\ (has (i_flags ip) I_VALID = true -> is_copy v (sb s) ip);
  ca_locked : forall j, lk = Some j -> exists ip, inodes s !! j = Some ip /\ i_ref ip <> 0
}.

(** Entry [j] is in use for inode [n]. *)
Definition entry (s : fsst S) (j : nat) (n : Z) (ip : inode) : Prop :=
  inodes s !! j = Some ip /\ i_ref ip <> 0 /\ i_inum ip = n.

(** The entry [j] of the cache is replaced. *)
Definition put_entry (j : nat) (ip : inode) (s : fsst S) : fsst S :=
  mk_fsst (fdev s) (sb s) false (<[j := ip]> (inodes s)).

(** Replacing an entry keeps the relation, if the new entry fits. *)
Lemma cached_put s v l R lk j old ip R' lk' :
  cached s v l R lk -> inodes s !! j = Some old -> icache (<[j := ip]> (inodes s)) R' ->
  (i_ref ip <> 0 -> linked v (sb s) (i_inum ip) ->
    has (i_flags ip) I_BUSY = bool_decide (lk' = Some j) /\ (has (i_flags ip) I_VALID = true -> is_copy v (sb s) ip)) ->
  (forall k, k <> j -> lk' = Some k <-> lk = Some k) -> (lk' = Some j -> i_ref ip <> 0) ->
  cached (put_entry j ip s) v l R' lk'.
Proof.
  intros [B Hl C Hc Hk] Hj C' Hip Hlk Hu. pose proof (lookup_lt_Some _ _ _ Hj) as Hlt. constructor; cbn; auto.
  - by apply (blocks_ok_same s).
  - intros k x. destruct (decide (j = k)) as [<-|Hne].
    + rewrite list_lookup_insert_eq by done. intros [= <-]. auto.
    + rewrite list_lookup_insert_ne by done. intros Ex Hx Hn. destruct (Hc k x Ex Hx Hn) as [-> Hv]. split; [|done].
      apply bool_decide_ext. symmetry. apply Hlk. congruence.
  - intros k Ek. destruct (decide (j = k)) as [<-|Hne].
    + exists ip. rewrite list_lookup_insert_eq by done. auto.
    + rewrite list_lookup_insert_ne by done. apply Hk. by apply Hlk.
Qed.

Lemma entry_put s j old ip n : inodes s !! j = Some old -> i_ref ip <> 0 -> i_inum ip = n -> entry (put_entry j ip s) j n ip.
Proof. intros Hj. split; [|done]. cbn. apply list_lookup_insert_eq. by eapply lookup_lt_Some. Qed.

(** One more reference to an entry in use. *)
Lemma cached_grab s v l R lk j n ip :
  cached s v l R lk -> entry s j n ip ->
  cached (put_entry j (set_iref (i_ref ip + 1) ip) s) v l (grab n R) lk.
Proof.
  intros C (Hj & Hr & Hn). destruct (ic_used _ _ (ca_cache _ _ _ _ _ C) j ip Hj Hr) as (Hp & Hd & E).
  rewrite Hn in E. apply (cached_put s v l R lk j ip); auto; try done; [| |cbn; lia].
  - unfold grab. rewrite E. cbn [default]. apply icache_insert; cbn; auto; [apply C|lia|]. exists ip. auto.
  - intros _ Hl. cbn [i_flags set_iref]. destruct (ca_copy _ _ _ _ _ C j ip Hj Hr Hl) as [-> Hv]. split; [done|].
    intros Hf. by apply is_copy_ref, Hv.
Qed.

Lemma idup_ok s v l R lk j n ip :
  cached s v l R lk -> entry s j n ip ->
  exists s' ip', runs (idup j) s [] j s' /\ cached s' v l (grab n R) lk /\ entry s' j n ip' /\
    sb s' = sb s /\ fdev s' = fdev s /\ length (inodes s') = length (inodes s).
Proof.
  intros C E. pose proof E as (Hj & Hr & Hn). destruct (ic_used _ _ (ca_cache _ _ _ _ _ C) j ip Hj Hr) as (Hp & _).
  exists (put_entry j (set_iref (i_ref ip + 1) ip) s), (set_iref (i_ref ip + 1) ip).
  split; [|split; [by apply cached_grab|split; [eapply entry_put; [done|cbn; lia|done]|]]].
  - unfold idup. eapply runs_bind_nil; [apply runs_acquire, C|]. eapply runs_bind_nil; [by apply runs_upd_ino|].
    eapply runs_bind_nil; [by apply runs_release|]. apply runs_ret.
  - cbn. rewrite length_insert. auto.
Qed.

(** [iget] of a linked inode, found or not, if an entry is free. *)
Lemma iget_ok s v l R lk n :
  cached s v l R lk -> linked v (sb s) n -> (size R < length (inodes s))%nat ->
  exists j s' ip, runs (iget ROOTDEV n) s [] j s' /\ cached s' v l (grab n R) lk /\ entry s' j n ip /\
    (lk = Some j -> 1 < i_ref ip) /\ sb s' = sb s /\ fdev s' = fdev s /\ length (inodes s') = length (inodes s) /\
    forall k x, inodes s !! k = Some x -> i_ref x <> 0 -> exists r, inodes s' !! k = Some (set_iref r x).
Proof.
  intros C Hlk Hroom. pose proof (ca_cache _ _ _ _ _ C) as K.
  assert (Hkeep : forall k j x y, inodes s !! k = Some x -> k <> j -> exists r, <[j := y]> (inodes s) !! k = Some (set_iref r x)).
  { intros k j x y Ex Hne. exists (i_ref x). rewrite list_lookup_insert_ne by done. rewrite Ex. by destruct x. }
  destruct (iget_scan (inodes s) 0 ROOTDEV n None) as [j|[j|]] eqn:E.
  - destruct (iget_scan_inl _ _ _ _ _ E) as (ip & _ & Hj & Hr & Hn). rewrite Nat.sub_0_r in Hj.
    assert (entry s j n ip) as He by (split; [done|lia]).
    exists j, (put_entry j (set_iref (i_ref ip + 1) ip) s), (set_iref (i_ref ip + 1) ip).
    split; [|split; [by apply cached_grab|split; [eapply entry_put; [done|cbn; lia|done]|]]].
    + unfold iget. eapply runs_bind_nil; [apply runs_acquire, C|]. eapply runs_bind_nil; [apply runs_get|].
      cbn [inodes lset iclock]. rewrite E. eapply runs_bind_nil; [by apply runs_upd_ino|].
      eapply runs_bind_nil; [by apply runs_release|]. apply runs_ret.
    + split; [cbn; lia|]. cbn. rewrite length_insert. do 3 (split; [done|]). intros k x Ex Hx.
      destruct (decide (k = j)) as [->|]; [|by apply Hkeep]. exists (i_ref ip + 1).
      rewrite list_lookup_insert_eq by (by eapply lookup_lt_Some). congruence.
  - destruct (iget_scan_empty _ _ _ _ _ E) as [|(_ & _ & old & Hj & Ho)]; [done|]. rewrite Nat.sub_0_r in Hj.
    assert (R !! n = None) as Hnone.
    { destruct (R !! n) as [r|] eqn:Er; [|done]. destruct (ic_has _ _ K n r Er) as (k & x & Ex & Hx & Hn).
      destruct (ic_used _ _ K k x Ex Hx) as (? & ? & _).
      destruct (iget_scan_none _ _ _ _ _ E x); auto. by eapply list_elem_of_lookup_2. }
    assert (lk <> Some j) as Hfree.
    { intros ->. destruct (ca_locked _ _ _ _ _ C j eq_refl) as (x & Ex & Hx). congruence. }
    set (ip := mk_inode ROOTDEV n 1 0 (i_type old) (i_major old) (i_minor old) (i_nlink old) (i_size old) (i_addrs old)).
    exists j, (put_entry j ip s), ip. split; [|split; [|split; [by eapply entry_put|]]].
    + unfold iget. eapply runs_bind_nil; [apply runs_acquire, C|]. eapply runs_bind_nil; [apply runs_get|].
      cbn [inodes lset iclock]. rewrite E. eapply runs_bind_nil; [by apply runs_upd_ino|].
      eapply runs_bind_nil; [by apply runs_release|]. apply runs_ret.
    + apply (cached_put s v l R lk j old); auto; try done.
      * unfold grab. rewrite Hnone. apply icache_insert; try done. exists old. auto.
      * intros _ _. split; [|done]. symmetry. by apply bool_decide_eq_false.
    + split; [done|]. cbn. rewrite length_insert. do 3 (split; [done|]). intros k x Ex Hx. apply Hkeep; [done|]. congruence.
  - destruct (iget_scan_full _ _ _ _ E) as [_ Hf]. pose proof (icache_full _ _ K Hf). lia.
Qed.

(** Dropping a reference to a linked inode. *)
Lemma iput_ok s v l R lk j n ip :
  cached s v l R lk -> entry s j n ip -> linked v (sb s) n -> (lk = Some j -> 1 < i_ref ip) ->
  exists s', runs (iput j) s [] tt s' /\ cached s' v l (put n R) lk /\
    sb s' = sb s /\ fdev s' = fdev s /\ length (inodes s') = length (inodes s) /\
    (forall k, k <> j -> inodes s' !! k = inodes s !! k) /\ exists x, inodes s' !! j = Some x /\ i_inum x = n.
Proof.
  intros C (Hj & Hr & Hn) Hl Hlk. pose proof (ca_cache _ _ _ _ _ C) as K.
  destruct (ic_used _ _ K j ip Hj Hr) as (Hp & Hd & E). rewrite Hn in E. rewrite <- Hn in Hl.
  destruct (ca_copy _ _ _ _ _ C j ip Hj Hr Hl) as [Hb Hv].
  exists (put_entry j (set_iref (i_ref ip - 1) ip) s). split; [|split].
  - unfold iput. eapply runs_bind_nil; [apply runs_acquire, C|]. eapply runs_bind_nil; [by apply runs_ino|].
    assert ((i_ref ip =? 1) && has (i_flags ip) I_VALID && (i_nlink ip =? 0) = false) as ->.
    { destruct (has (i_flags ip) I_VALID); [|by rewrite andb_false_r]. specialize (Hv eq_refl).
      apply is_copy_fields in Hv as (_ & -> & _). apply andb_false_iff. right. apply Z.eqb_neq, Hl. }
    eapply runs_bind_nil; [apply runs_ret|]. eapply runs_bind_nil; [by apply runs_upd_ino|]. by apply runs_release.
  - apply (cached_put s v l R lk j ip); auto; try done.
    + unfold put. rewrite E. destruct (Z.eqb_spec (i_ref ip) 1) as [E1|].
      * rewrite <- Hn. apply icache_delete; auto. cbn. lia.
      * apply icache_insert; cbn; auto; [lia|]. exists ip. auto.
    + intros _ _. split; [done|]. intros Hf. by apply is_copy_ref, Hv.
    + intros E1. specialize (Hlk E1). cbn. lia.
  - cbn. rewrite length_insert. do 3 (split; [done|]). split; [intros k Hk; by rewrite list_lookup_insert_ne|].
    exists (set_iref (i_ref ip - 1) ip). split; [|done]. apply list_lookup_insert_eq. by eapply lookup_lt_Some.
Qed.

Lemma cached_dev s v l R lk d :
  cached s v l R lk -> crep d v ∅ l -> tgeo d = tgeo (fdev s) -> cached (with_dev d s) v l R lk.
Proof. intros [[] Hl C Hc Hk] Hd Hg. constructor; auto. constructor; cbn; rewrite ?Hg; auto. Qed.

(** The part of [ilock] that reads the inode. *)
Definition iload (j : nat) : M (fsst S) unit :=
  let* ip := ino j in
  when (negb (has (i_flags ip) I_VALID))
    (let* s := get in
     let* bp := zoom fd (t_bread (i_dev ip) (IBLOCK (i_inum ip) (sb s))) in
     let* d := zoom fd (t_data bp) in
     upd_ino j (load_dinode d (ioff (i_inum ip))) ;;
     zoom fd (t_brelse bp) ;;
     upd_ino j (fun ip => set_iflags (set_flag (i_flags ip) I_VALID) ip) ;;
     let* ip := ino j in
     when (i_type ip =? 0) (panic "ilock: no type")).

Lemma iload_ok s v l j n ip :
  blocks_ok s v ∅ l -> ic_lock s = false -> entry s j n ip -> i_dev ip = ROOTDEV -> linked v (sb s) n ->
  fits (tgeo (fdev s)) ∅ l 1 -> (has (i_flags ip) I_VALID = true -> is_copy v (sb s) ip) ->
  exists d ip', runs (iload j) s [] tt (with_dev d (put_entry j ip' s)) /\ crep d v ∅ l /\ tgeo d = tgeo (fdev s) /\
    is_copy v (sb s) ip' /\ i_ref ip' = i_ref ip /\ i_inum ip' = n /\ i_dev ip' = ROOTDEV /\
    has (i_flags ip') I_BUSY = has (i_flags ip) I_BUSY.
Proof.
  intros B Hlk (Hj & Hr & Hn) Hd (Hrange & Htype & _) Hf Hv. pose proof (lookup_lt_Some _ _ _ Hj) as Hlt.
  destruct (has (i_flags ip) I_VALID) eqn:Ev.
  - exists (fdev s), ip. split; [|repeat split; auto; apply B]. unfold iload.
    eapply runs_bind_nil; [by apply runs_ino|]. rewrite Ev.
    replace (with_dev (fdev s) (put_entry j ip s)) with s; [apply runs_ret|].
    unfold put_entry, with_dev. cbn. rewrite list_insert_id by done. destruct s. cbn in *. by rewrite Hlk.
  - destruct (iblock_home _ _ n (bo_sb _ _ _ _ B) Hrange) as (Hh & _). set (b := IBLOCK n (sb s)) in *.
    destruct (open_block (fdev s) v ∅ l b (bo_rep _ _ _ _ B)) as (i & d1 & E1 & Hi & Hr1 & Hg1); auto.
    { split; apply Hh. } { intros k. by rewrite lookup_empty. }
    pose proof (read_block_data d1 v _ l i _ Hr1 (lookup_insert_eq _ _ _)) as E2.
    destruct (close_block d1 v ∅ l i b Hr1 Hi) as (d2 & E3 & Hr2 & Hg2).
    set (ip1 := load_dinode (v b) (ioff n) ip).
    assert (is_copy v (sb s) ip1) as Hcp by (unfold ip1, b; rewrite <- Hn; apply load_is_copy).
    exists d2, (set_iflags (set_flag (i_flags ip1) I_VALID) ip1).
    split; [|split; [done|split; [congruence|split; [by apply is_copy_flags|]]]].
    + unfold iload. eapply runs_bind_nil; [by apply runs_ino|]. rewrite Ev, Hd, Hn. cbn [negb when].
      eapply runs_bind_nil; [apply runs_get|]. eapply runs_bind_nil; [apply runs_fd; exact E1|].
      eapply runs_bind_nil; [apply runs_fd; exact E2|]. eapply runs_bind_nil; [by apply runs_upd_ino|].
      eapply runs_bind_nil; [apply runs_fd; exact E3|].
      eapply runs_bind_nil; [apply runs_upd_ino; by apply list_lookup_insert_eq|].
      eapply runs_bind_nil; [apply runs_ino; apply list_lookup_insert_eq; cbn; by rewrite !length_insert|].
      cbn [i_type set_iflags]. apply is_copy_fields in Hcp as (Ht & _). change (i_inum ip1) with (i_inum ip) in Ht.
      rewrite Hn in Ht. fold ip1. rewrite Ht. destruct (Z.eqb_spec (i_type (dnode v (sb s) n)) 0); [done|].
      exists []. split; [|done]. unfold with_dev, with_inode, put_entry. cbn. rewrite Hlk, list_insert_insert_eq. done.
    + cbn. split; [done|]. split; [done|]. split; [done|]. apply set_valid.
Qed.

(** Locking a linked inode makes its entry a copy of the inode on disk. *)
Lemma ilock_ok s v l R j n ip :
  cached s v l R None -> entry s j n ip -> linked v (sb s) n -> fits (tgeo (fdev s)) ∅ l 1 ->
  exists s' ip', runs (ilock j) s [] tt s' /\ cached s' v l R (Some j) /\ entry s' j n ip' /\ is_copy v (sb s) ip' /\
    i_dev ip' = ROOTDEV /\ sb s' = sb s /\ tgeo (fdev s') = tgeo (fdev s) /\ length (inodes s') = length (inodes s).
Proof.
  intros C (Hj & Hr & Hn) Hl Hf. pose proof (ca_cache _ _ _ _ _ C) as K.
  destruct (ic_used _ _ K j ip Hj Hr) as (Hp & Hd & _). pose proof Hl as Hl'. rewrite <- Hn in Hl'.
  destruct (ca_copy _ _ _ _ _ C j ip Hj Hr Hl') as [Hb Hv]. cbn in Hb.
  set (ip1 := set_iflags (set_flag (i_flags ip) I_BUSY) ip). destruct (set_busy (i_flags ip)) as [Hbz Hbv].
  destruct (iload_ok (put_entry j ip1 s) v l j n ip1) as (d & ip2 & E2 & Hr2 & Hg2 & Hcp & Er & En & Ed & Eb); auto.
  { apply (blocks_ok_same s); [done|done|apply C]. } { by eapply entry_put. }
  { cbn. intros Hf1. rewrite Hbv in Hf1. by apply is_copy_flags, Hv. }
  assert (put_entry j ip2 (put_entry j ip1 s) = put_entry j ip2 s) as Ep by (unfold put_entry; cbn; by rewrite list_insert_insert_eq).
  rewrite Ep in E2. exists (with_dev d (put_entry j ip2 s)), ip2.
  assert (i_ref ip2 <> 0) as Hr2' by (by rewrite Er).
  split; [|split; [|split; [by eapply entry_put|split; [done|split; [done|split; [done|split; [exact Hg2|]]]]]]].
  - unfold ilock. eapply runs_bind_nil; [by apply runs_ino|]. destruct (Z.ltb_spec (i_ref ip) 1); [lia|].
    eapply runs_bind_nil; [apply runs_acquire, C|]. eapply runs_bind_nil; [by apply runs_ino|]. rewrite Hb.
    eapply runs_bind_nil; [by apply runs_upd_ino|]. eapply runs_bind_nil; [by apply runs_release|]. exact E2.
  - apply cached_dev; auto. apply (cached_put s v l R None j ip); auto.
    + apply icache_same with (old := ip); auto; congruence.
    + intros _ _. rewrite bool_decide_true by done. rewrite Eb. auto.
    + split; congruence.
  - cbn. by rewrite length_insert.
Qed.

Lemma iunlock_ok s v l R j n ip :
  cached s v l R (Some j) -> entry s j n ip -> linked v (sb s) n ->
  exists s' ip', runs (iunlock j) s [] tt s' /\ cached s' v l R None /\ entry s' j n ip' /\
    sb s' = sb s /\ fdev s' = fdev s /\ length (inodes s') = length (inodes s) /\
    forall k, k <> j -> inodes s' !! k = inodes s !! k.
Proof.
  intros C (Hj & Hr & Hn) Hl. destruct (ic_used _ _ (ca_cache _ _ _ _ _ C) j ip Hj Hr) as (Hp & _).
  rewrite <- Hn in Hl. destruct (ca_copy _ _ _ _ _ C j ip Hj Hr Hl) as [Hb Hv]. rewrite bool_decide_true in Hb by done.
  destruct (clear_busy (i_flags ip)) as [Hbz Hbv].
  set (ip1 := set_iflags (clear_flag (i_flags ip) I_BUSY) ip). exists (put_entry j ip1 s), ip1.
  split; [|split; [|split; [by eapply entry_put|]]].
  - unfold iunlock. eapply runs_bind_nil; [by apply runs_ino|]. rewrite Hb. destruct (Z.ltb_spec (i_ref ip) 1); [lia|].
    eapply runs_bind_nil; [apply runs_acquire, C|]. eapply runs_bind_nil; [by apply runs_upd_ino|].
    eapply runs_bind_nil; [apply runs_wakeup|]. by apply runs_release.
  - apply (cached_put s v l R (Some j) j ip); auto; try done.
    + apply icache_same with (old := ip); auto. apply C.
    + intros _ _. split; [done|]. cbn. rewrite Hbv. intros Hf. by apply is_copy_flags, Hv.
    + intros k Hk. split; congruence.
  - cbn. rewrite length_insert. do 3 (split; [done|]). intros k Hk. by rewrite list_lookup_insert_ne.
Qed.

Lemma iunlockput_ok s v l R j n ip :
  cached s v l R (Some j) -> entry s j n ip -> linked v (sb s) n ->
  exists s', runs (iunlockput j) s [] tt s' /\ cached s' v l (put n R) None /\
    sb s' = sb s /\ fdev s' = fdev s /\ length (inodes s') = length (inodes s) /\
    (forall k, k <> j -> inodes s' !! k = inodes s !! k) /\ exists x, inodes s' !! j = Some x /\ i_inum x = n.
Proof.
  intros C E Hl. destruct (iunlock_ok s v l R j n ip C E Hl) as (s1 & ip1 & R1 & C1 & E1 & Hs1 & Hd1 & Hl1 & Hk1).
  destruct (iput_ok s1 v l R None j n ip1 C1 E1) as (s2 & R2 & C2 & Hs2 & Hd2 & Hl2 & Hk2 & Hx2); [by rewrite Hs1|done|].
  exists s2. split; [by eapply runs_bind_nil|]. split; [done|]. split; [congruence|]. split; [congruence|].
  split; [congruence|]. split; [|done]. intros k Hk. by rewrite Hk2, Hk1.
Qed.
(** An entry stays in use while references to its inode remain. *)
Lemma entry_kept s s' R R' j n ip j' m ip' :
  icache (inodes s) R -> icache (inodes s') R' -> (forall k, k <> j -> inodes s' !! k = inodes s !! k) ->
  (exists x, inodes s' !! j = Some x /\ i_inum x = n) -> entry s j n ip -> entry s j' m ip' -> is_Some (R' !! m) ->
  exists x, entry s' j' m x.
Proof.
  intros C C' Hk (x & Ex & Hx) (Hj & Hr & Hn) (Hj' & Hr' & Hm) [r Er].
  destruct (decide (j' = j)) as [->|Hne]; [|exists ip'; by rewrite <- Hk in Hj' by done].
  assert (m = n) as -> by congruence. destruct (ic_has _ _ C' n r Er) as (k & y & Ey & Hy & Hyn).
  destruct (decide (k = j)) as [->|Hkj]; [by exists y|]. rewrite Hk in Ey by done.
  destruct Hkj. apply (ic_inj _ _ C k j y ip); auto. congruence.
Qed.
End Ops.
