(* ===== verification/Files.v ===== *)
(** * Files: the theorems on [readi], [writei] and the inodes on disk *)

From stdpp Require Import base numbers list gmap strings.
From S2P Require Import Prelude Bytes Mem Str Buf Memide Bio Bcache Log LogCrash Tx Recovery Fs TxSpec FsBlock FsFile FsRw FsInode Mkfs FsImage.

Open Scope Z_scope.

(** The number of blocks that [n] bytes at [off] touch. *)
Definition touched (off n : Z) : nat := Z.to_nat ((off `mod` BS + n + BS - 1) / BS).

Lemma touched_bounds off n : 0 <= n ->
  off `mod` BS + n <= BS * Z.of_nat (touched off n) /\ (touched off n <= blocks_of n)%nat.
Proof.
  intros Hn. unfold touched, blocks_of. change BS with 512. pose proof (Z.mod_pos_bound off 512 ltac:(done)).
  pose proof (Z.div_mod (off `mod` 512 + n + 512 - 1) 512 ltac:(done)).
  pose proof (Z.mod_pos_bound (off `mod` 512 + n + 512 - 1) 512 ltac:(done)).
  pose proof (Z.div_mod n 512 ltac:(done)). pose proof (Z.mod_pos_bound n 512 ltac:(done)).
  pose proof (Z.div_pos n 512 Hn ltac:(done)). lia.
Qed.

Section Files.
Context {S : Type} `{TxDiskSpec S}.

(** An open file: inode [i] of the cache holds the inode [ip], which describes a
    file (not a device) whose blocks are all there. *)
Record open_file (s : fsst S) (v : Z -> list Z) (l : gset Z) (i : nat) (ip : inode) : Prop := {
  of_blocks : blocks_ok s v ∅ l;
  of_inode : inodes s !! i = Some ip;
  of_file : file_ok v (sb s) ip;
  of_type : i_type ip <> T_DEV;
  of_inum : 0 <= i_inum ip < sb_ninodes (sb s);
  of_fits : inode_fits ip;
  of_size : i_size ip <= MAXFILE * BS;
  of_dense : dense v ip (i_size ip)
}.

(** What a write leaves behind. *)
Record after_write (s : fsst S) v i ip (s' : fsst S) v' ip' off src : Prop := {
  aw_others : forall j, j <> i -> inodes s' !! j = inodes s !! j;
  aw_sb : sb s' = sb s;
  aw_geo : tgeo (fdev s') = tgeo (fdev s);
  aw_inode : ip' = set_isize (Z.max (i_size ip) (off + Z.of_nat (length src))) (set_iaddrs (i_addrs ip') ip);
  aw_content : forall o, 0 <= o < MAXFILE * BS ->
    content v' ip' o = if (off <=? o) && (o <? off + Z.of_nat (length src))
                       then nth (Z.to_nat (o - off)) src 0 else content v ip o;
  aw_disk : i_size ip < off + Z.of_nat (length src) ->
    forall y, disk_inode v' (sb s) (i_inum ip) y = with_copy ip' y;
  aw_files : forall ip2, file_ok v (sb s) ip2 -> (forall n, owned v ip2 n -> ~ owned v ip n) ->
    file_ok v' (sb s) ip2 /\ forall o, 0 <= o < MAXFILE * BS -> content v' ip2 o = content v ip2 o
}.

Lemma set_isize_same ip : set_isize (i_size ip) ip = ip.
Proof. by destruct ip. Qed.

Lemma grew_size ip off n : 0 <= off <= i_size ip -> 0 <= n ->
  Z.max (i_size ip) (off + n) = if grew ip off n then off + n else i_size ip.
Proof. intros H1 H2. unfold grew. zcase; cbn; lia. Qed.

Lemma dense_wrote x v ip v' ip' off src :
  wrote x v ip v' ip' off src -> dense v ip (i_size ip) -> 0 <= off <= i_size ip ->
  i_size ip <= MAXFILE * BS -> off + Z.of_nat (length src) <= MAXFILE * BS ->
  dense v' ip' (Z.max (i_size ip) (off + Z.of_nat (length src))).
Proof.
  intros Wr D Hoff Hs1 Hs2 bn H1 H2.
  assert (bn < MAXFILE) as Hlt by (assert (bn * BS < MAXFILE * BS) as Hb by lia; apply Z.mul_lt_mono_pos_r in Hb; done).
  destruct (Z.lt_ge_cases (bn * BS) (i_size ip)) as [Hc|Hc].
  - apply (wr_dense _ _ _ _ _ _ _ Wr); [lia|]. by apply D.
  - rewrite <- (Z.div_mul bn BS) by done.
    apply (wr_alloc _ _ _ _ _ _ _ Wr); [split; [|lia]|lia]. change BS with 512. lia.
Qed.

(** The view with the inode rewritten shows the same files. *)
Lemma rewrite_file (s : fsst S) v l ip ip1 off n ip2 m :
  blocks_ok s v ∅ l -> 0 <= i_inum (resize ip ip1 off n) < sb_ninodes (sb s) -> file_ok v (sb s) ip2 ->
  (m = i_size ip2 \/ grew ip off n = true) ->
  let v' := rewrite_inode (sb s) v ip ip1 off n in
  file_ok v' (sb s) (set_isize m ip2)
  /\ (forall bn, faddr v' (set_isize m ip2) bn = faddr v ip2 bn)
  /\ (forall o, 0 <= o < MAXFILE * BS -> content v' (set_isize m ip2) o = content v ip2 o).
Proof.
  intros B Hi F Hm. cbv zeta. unfold rewrite_inode. destruct (grew ip off n) eqn:Hg.
  - split; [by apply (file_ok_iupd s v ∅ l)|]. split.
    + intros bn. by apply (faddr_iupd s v ∅ l).
    + intros o Ho. by apply (content_iupd s v ∅ l).
  - destruct Hm as [->|]; [|done]. by rewrite set_isize_same.
Qed.

Lemma inode_fits_write ip ip1 m : inode_fits ip -> ip1 = set_iaddrs (i_addrs ip1) ip ->
  length (i_addrs ip1) = Z.to_nat (NDIRECT + 1) -> Forall (fun a => 0 <= a < 2 ^ 32) (i_addrs ip1) ->
  0 <= m < 2 ^ 32 -> inode_fits (set_isize m ip1).
Proof. intros [] E Hl Ha Hm. rewrite E in *. by constructor. Qed.

Lemma writei_after dev_write (s : fsst S) v l i ip src off :
  open_file s v l i ip -> 0 <= off <= i_size ip -> off + Z.of_nat (length src) <= MAXFILE * BS ->
  let n := Z.of_nat (length src) in
  budget (tgeo (fdev s)) (sb s) ip l (touched off n + 1) -> (2 * touched off n <= size (free_set v (sb s)))%nat ->
  exists s' v' ip' l', runs (writei dev_write i src off n) s [] n s'
    /\ open_file s' v' l' i ip' /\ after_write s v i ip s' v' ip' off src
    /\ fits (tgeo (fdev s)) ∅ l' 1.
Proof.
  intros [B Hi F Hty Hin Hfit Hsz D] Hoff Hmax n Hbud Hfree.
  destruct (touched_bounds off n) as [HT HTb]; [lia|].
  destruct (writei_run dev_write s v l i ip src off n (touched off n))
    as (s' & v1 & ip1 & l' & E & Wr & (s1 & l1 & B1 & Hsb1) & B' & Es & Hg & Hfl); auto; try lia.
  unfold n in Wr. rewrite Nat2Z.id, firstn_all in Wr.
  pose proof (wr_same _ _ _ _ _ _ _ Wr) as Hip. pose proof (wr_ok _ _ _ _ _ _ _ Wr) as F1.
  assert (Hsz1 : i_size ip1 = i_size ip) by (by rewrite Hip).
  assert (Hres : resize ip ip1 off n = set_isize (Z.max (i_size ip) (off + n)) ip1).
  { rewrite grew_size by lia. unfold resize. destruct (grew ip off n); [done|].
    by rewrite <- Hsz1, set_isize_same. }
  assert (Hin' : 0 <= i_inum (resize ip ip1 off n) < sb_ninodes (sb s1)) by (by rewrite Hres, Hsb1, Hip).
  assert (Hfit' : inode_fits (resize ip ip1 off n)).
  { rewrite Hres. apply (inode_fits_write ip); auto; [apply F1| |].
    - by apply (file_ok_addrs (tgeo (fdev s)) v1 (sb s)); [apply B|].
    - change (MAXFILE * BS) with 71680 in *. pose proof (if_size _ Hfit). lia. }
  pose proof (rewrite_file s1 v1 l1 ip ip1 off n) as Hrw. rewrite Hsb1 in Hrw.
  specialize (fun ip2 m => Hrw ip2 m B1 (eq_ind _ (fun z => 0 <= _ < sb_ninodes z) Hin' _ Hsb1)).
  destruct (Hrw ip1 (Z.max (i_size ip) (off + n)) F1) as (F' & Hfa & Hco).
  { rewrite grew_size, Hsz1 by lia. destruct (grew ip off n); auto. }
  set (v' := rewrite_inode (sb s) v1 ip ip1 off n) in *. rewrite <- Hres in F', Hfa, Hco.
  assert (sb s' = sb s) as Hsb' by (by rewrite Es).
  exists s', v', (resize ip ip1 off n), l'. split; [exact E|]. split; [|split; [|exact Hfl]].
  - constructor; rewrite ?Hsb'; auto.
    + rewrite Es. by eapply with_inode_lookup.
    + by rewrite Hres, Hip.
    + by rewrite <- Hsb1.
    + rewrite Hres. cbn [i_size set_isize]. lia.
    + intros bn H1 H2. rewrite Hfa. rewrite Hres in H2. cbn [i_size set_isize] in H2.
      by apply (dense_wrote (sb s) v ip v1 ip1 off src).
  - constructor; auto.
    + intros j Hj. rewrite Es. cbn. by rewrite list_lookup_insert_ne.
    + rewrite Hres. cbn [i_addrs set_isize]. fold n. by rewrite <- Hip.
    + intros o Ho. rewrite Hco by done. by apply (wr_content _ _ _ _ _ _ _ Wr).
    + intros Hgr y. fold n in Hgr. unfold v', rewrite_inode.
      assert (grew ip off n = true) as -> by (unfold grew; zcase; done).
      rewrite <- Hsb1. replace (i_inum ip) with (i_inum (resize ip ip1 off n)) by (by rewrite Hres, Hip).
      by apply (iupd_view_eq s1 v1 ∅ l1).
    + intros ip2 F2 Hdis. destruct (wrote_other _ _ _ _ _ _ _ ip2 Wr F2 Hdis) as (F3 & _ & Hc2).
      destruct (Hrw ip2 (i_size ip2) F3 ltac:(by left)) as (F4 & _ & Hc4). rewrite set_isize_same in F4, Hc4.
      split; [done|]. intros o Ho. rewrite Hc4 by done. by apply Hc2.
Qed.

End Files.

(** The bytes of a range that was written. *)
Lemma fbytes_written v ip v' ip' off src :
  0 <= off ->
  (forall o, off <= o < off + Z.of_nat (length src) ->
    content v' ip' o = if (off <=? o) && (o <? off + Z.of_nat (length src))
                       then nth (Z.to_nat (o - off)) src 0 else content v ip o) ->
  fbytes v' ip' off (Z.to_nat (Z.of_nat (length src))) = src.
Proof.
  intros Hoff Hc. rewrite Nat2Z.id. unfold fbytes, zrange. rewrite <- list_fmap_compose.
  apply list_eq_same_length with (n := length src); [done|by rewrite length_fmap, length_seq|].
  intros k x y Hk. rewrite list_lookup_fmap, lookup_seq_lt by done. intros E Hy. apply (inj Some) in E.
  rewrite <- E. unfold compose. rewrite Hc by lia. zcase. cbn [andb].
  apply nth_lookup_Some. rewrite <- Hy. f_equal. lia.
Qed.

(** ** The root directory of a new file system, as an open file *)

Definition root_inode : inode :=
  Eval vm_compute in
    disk_inode (drv_sector new_disk) mk_super ROOTINO (mk_inode ROOTDEV ROOTINO 1 3 0 0 0 0 0 []).

Definition root_fs {S} (d : S) : fsst S :=
  mk_fsst d mk_super false (<[0%nat := root_inode]> (replicate NINODE zero_inode)).

Lemma root_faddr bn : 0 <= bn < MAXFILE ->
  faddr (drv_sector new_disk) root_inode bn = if bn =? 0 then nmeta else 0.
Proof.
  intros Hb. apply Z.eqb_eq.
  apply (zrange_check (fun bn => faddr (drv_sector new_disk) root_inode bn =? (if bn =? 0 then nmeta else 0))
           0 (Z.to_nat MAXFILE)); [vm_compute; reflexivity|done].
Qed.

Lemma root_file_ok : file_ok (drv_sector new_disk) mk_super root_inode.
Proof.
  assert (good (drv_sector new_disk) mk_super nmeta) as Hg.
  { split; [apply new_data; split; [discriminate|reflexivity]|]. rewrite new_bitmap by (split; [discriminate|reflexivity]).
    reflexivity. }
  constructor; try reflexivity.
  - by left.
  - intros bn Hb. rewrite root_faddr by exact Hb. destruct (bn =? 0); [right; exact Hg|by left].
  - intros j k Hj Hk. rewrite !root_faddr by assumption.
    destruct (Z.eqb_spec j 0) as [->|], (Z.eqb_spec k 0) as [->|]; congruence.
Qed.

Lemma root_open : exists s : logst (bio memide),
  open_file (root_fs s) (drv_sector new_disk) ∅ 0 root_inode /\ tgeo s = new_geom.
Proof.
  destruct new_blocks_ok as (s & B & Hg). exists s. split; [|exact Hg]. constructor.
  - exact (blocks_ok_same (new_fs s) (root_fs s) _ _ _ eq_refl eq_refl B).
  - reflexivity.
  - exact root_file_ok.
  - discriminate.
  - split; [discriminate|reflexivity].
  - constructor; try (split; [discriminate|reflexivity]); [reflexivity|].
    repeat constructor; discriminate.
  - discriminate.
  - intros bn H1 H2. assert (bn = 0) as -> by (change BS with 512 in H2; change (i_size root_inode) with 512 in H2; lia).
    rewrite root_faddr by (split; [discriminate|reflexivity]). discriminate.
Qed.

Lemma root_budget k : (k <= 20)%nat -> budget new_geom mk_super root_inode ∅ k.
Proof.
  intros Hk. assert (cost mk_super root_inode ∅ = 2%nat) as Hc by (vm_compute; reflexivity).
  unfold budget. rewrite Hc. unfold NBUF, gcap, new_geom, LOGSIZE, MAXOPBLOCKS. cbn [g_size].
  split; [lia|]. split; [lia|]. apply not_elem_of_empty.
Qed.

Lemma root_free : (20 <= size (free_set (drv_sector new_disk) mk_super))%nat.
Proof.
  transitivity (size (list_to_set (zrange 100 20) : gset Z)); [vm_compute; reflexivity|].
  apply subseteq_size. intros b Hb%elem_of_list_to_set%elem_of_zrange. apply elem_of_free_set.
  change (sb_size mk_super) with 1000. split; [lia|]. rewrite new_bitmap by (unfold FSSIZE; lia).
  change (nmeta + 1) with 60. apply Z.ltb_ge. lia.
Qed.

(** ** Theorems *)

(** C23: writing a file.  For an open file and an offset within it, [writei]
    returns the number of bytes written; afterwards the file has exactly those
    bytes at that offset and its old bytes elsewhere, its size is the larger of
    the old size and the end of the write (and is then on disk), and every other
    file keeps its blocks and contents; the file-system invariant is kept. *)
Theorem writei_spec {S} `{TxDiskSpec S} dev_write (s : fsst S) v l i ip src off :
  open_file s v l i ip -> 0 <= off <= i_size ip -> off + Z.of_nat (length src) <= MAXFILE * BS ->
  let n := Z.of_nat (length src) in
  budget (tgeo (fdev s)) (sb s) ip l (touched off n + 1) -> (2 * touched off n <= size (free_set v (sb s)))%nat ->
  exists s' v' ip' l', runs (writei dev_write i src off n) s [] n s'
    /\ open_file s' v' l' i ip' /\ after_write s v i ip s' v' ip' off src.
Proof.
  intros O Hoff Hmax n Hbud Hfree.
  destruct (writei_after dev_write s v l i ip src off O Hoff Hmax Hbud Hfree) as (s' & v' & ip' & l' & E & O' & A & _).
  by exists s', v', ip', l'.
Qed.

Lemma writei_spec_witness :
  exists (s s' : fsst (logst (bio memide))),
    runs (writei (fun _ => None) 0 (replicate 600 7) 512 600) s [] 600 s'.
Proof.
  destruct root_open as (s & O & Hg).
  destruct (writei_spec (fun _ => None) (root_fs s) _ _ 0 root_inode (replicate 600 7) 512 O)
    as (s' & _ & _ & _ & E & _).
  - split; discriminate.
  - rewrite length_replicate. discriminate.
  - change (tgeo (fdev (root_fs s))) with (tgeo s). rewrite Hg. apply root_budget. rewrite length_replicate.
    apply Nat.leb_le. vm_compute. reflexivity.
  - transitivity 20%nat; [rewrite length_replicate; apply Nat.leb_le; vm_compute; reflexivity|exact root_free].
  - exists (root_fs s), s'. exact E.
Defined.

(** C24: reading a file.  [readi] at an offset within the file returns the bytes
    of the file from there, as many as asked for or as there are before the end,
    and changes neither the file system nor the disk; past the end or when the
    range wraps around it returns -1. *)
Theorem readi_spec {S} `{TxDiskSpec S} dev_read (s : fsst S) v l i ip off n :
  open_file s v l i ip -> fits (tgeo (fdev s)) ∅ l 1 -> 0 <= off < 2 ^ 32 -> 0 <= n < 2 ^ 32 ->
  if (off >? i_size ip) || (off + n >=? 2 ^ 32) then runs (readi dev_read i off n) s [] (-1, []) s
  else
    let c := Z.min n (i_size ip - off) in
    exists d, runs (readi dev_read i off n) s [] (c, fbytes v ip off (Z.to_nat c)) (with_dev d s)
      /\ open_file (with_dev d s) v l i ip.
Proof.
  intros [B Hi F Hty Hin Hfit Hsz D] Hf Hoff Hn.
  destruct (Z.gtb_spec off (i_size ip)) as [Hgt|Hle]; cbn [orb].
  - unfold readi. eapply runs_bind_nil; [by apply runs_ino|].
    destruct (Z.eqb_spec (i_type ip) T_DEV); [done|]. destruct (Z.gtb_spec off (i_size ip)); [|lia].
    apply runs_ret.
  - destruct (Z.geb_spec (off + n) (2 ^ 32)) as [Hge|Hlt].
    + unfold readi. eapply runs_bind_nil; [by apply runs_ino|].
      destruct (Z.eqb_spec (i_type ip) T_DEV); [done|]. unfold u32.
      rewrite <- (Z.mod_add _ (-1)), Z.mod_small by lia. rewrite orb_comm.
      destruct (Z.ltb_spec (off + n + -1 * 2 ^ 32) off); [|lia]. apply runs_ret.
    + destruct (readi_ok dev_read s v l i ip off n) as (d & E & B' & Hg); auto; try lia.
      exists d. assert (Z.min n (i_size ip - off) = read_count (i_size ip) off n) as ->
        by (unfold read_count; zcase; lia).
      split; [exact E|]. by constructor.
Qed.

Lemma readi_spec_witness :
  exists (s s' : fsst (logst (bio memide))),
    runs (readi (fun _ => None) 0 16 1000) s [] (496, fbytes (drv_sector new_disk) root_inode 16 496) s'.
Proof.
  destruct root_open as (s & O & Hg).
  pose proof (readi_spec (fun _ => None) (root_fs s) _ _ 0 root_inode 16 1000 O) as R.
  change ((16 >? i_size root_inode) || (16 + 1000 >=? 2 ^ 32)) with false in R. cbv iota zeta in R.
  destruct R as (d & E & _).
  - change (tgeo (fdev (root_fs s))) with (tgeo s). rewrite Hg. apply new_fits. lia.
  - split; [discriminate|reflexivity].
  - split; [discriminate|reflexivity].
  - exists (root_fs s), (with_dev d (root_fs s)). exact E.
Defined.

(** What is written is what is read: [writei] followed by [readi] of the
    same range returns the bytes written, unchanged, for every offset and length
    within the size limit, across block boundaries and the indirect block. *)
Theorem write_read {S} `{TxDiskSpec S} dev_write dev_read (s : fsst S) v l i ip src off :
  open_file s v l i ip -> 0 <= off <= i_size ip -> off + Z.of_nat (length src) <= MAXFILE * BS ->
  let n := Z.of_nat (length src) in
  budget (tgeo (fdev s)) (sb s) ip l (touched off n + 1) -> (2 * touched off n <= size (free_set v (sb s)))%nat ->
  exists s', runs (writei dev_write i src off n ;; readi dev_read i off n) s [] (n, src) s'.
Proof.
  intros O Hoff Hmax n Hbud Hfree.
  destruct (writei_after dev_write s v l i ip src off O Hoff Hmax Hbud Hfree)
    as (s' & v' & ip' & l' & E & [B Hi F Hty Hin Hfit Hsz D] & A & Hfl).
  assert (i_size ip' = Z.max (i_size ip) (off + n)) as Hs by (by rewrite (aw_inode _ _ _ _ _ _ _ _ _ A)).
  change (MAXFILE * BS) with 71680 in *.
  destruct (readi_ok dev_read s' v' l' i ip' off n) as (d & E' & _); auto; try lia.
  { pose proof (if_size _ Hfit). change (MAXFILE * BS) with 71680. lia. }
  { by rewrite (aw_geo _ _ _ _ _ _ _ _ _ A). }
  exists (with_dev d s'). eapply runs_bind_nil; [exact E|].
  assert (read_count (i_size ip') off n = n) as Hc by (unfold read_count; zcase; lia).
  rewrite Hc in E'. replace src with (fbytes v' ip' off (Z.to_nat n)) at 1; [exact E'|].
  apply (fbytes_written v ip _ _ off src); [lia|].
  intros o Ho. apply (aw_content _ _ _ _ _ _ _ _ _ A). change (MAXFILE * BS) with 71680. lia.
Qed.

Lemma write_read_witness :
  exists (s s' : fsst (logst (bio memide))),
    runs (writei (fun _ => None) 0 (replicate 600 7) 100 600 ;; readi (fun _ => None) 0 100 600) s []
      (600, replicate 600 7) s'.
Proof.
  destruct root_open as (s & O & Hg).
  destruct (write_read (fun _ => None) (fun _ => None) (root_fs s) _ _ 0 root_inode (replicate 600 7) 100 O) as (s' & E).
  - split; discriminate.
  - rewrite length_replicate. discriminate.
  - change (tgeo (fdev (root_fs s))) with (tgeo s). rewrite Hg. apply root_budget. rewrite length_replicate.
    apply Nat.leb_le. vm_compute. reflexivity.
  - transitivity 20%nat; [rewrite length_replicate; apply Nat.leb_le; vm_compute; reflexivity|exact root_free].
  - exists (root_fs s), s'. exact E.
Defined.
