(* ===== verification/Trunc.v ===== *)
(** * Throwing files away: [itrunc], and [iput] of the last reference

    [itrunc] gives the blocks of a file back, each once, and [iput] frees the inode
    when no name and no other reference is left. *)

From stdpp Require Import base numbers list gmap strings.
From S2P Require Import Prelude Bytes Mem Str Buf Memide Bio Bcache Log LogCrash Tx Recovery Fs TxSpec FsBlock Mkfs FsImage FsFile FsRw FsInode Icache Files.

Open Scope Z_scope.

(** From [v] to [v'] the blocks in [P] are given back, and only the bitmap changes. *)
Record freed (x : superblock) (v v' : Z -> list Z) (P : Z -> Prop) : Prop := mk_freed {
  fr_used c : 0 <= c < sb_size x -> used v' x c = true <-> used v x c = true /\ ~ P c;
  fr_keep n : ~ bitmap_block x n -> v' n = v n
}.

Lemma freed_none x v (P : Z -> Prop) : (forall c, ~ P c) -> freed x v v P.
Proof. intros HP. constructor; [|done]. intros c _. specialize (HP c). tauto. Qed.

Lemma freed_trans x v1 v2 v3 P Q R :
  freed x v1 v2 P -> freed x v2 v3 Q -> (forall c, R c <-> P c \/ Q c) -> freed x v1 v3 R.
Proof.
  intros [U1 K1] [U2 K2] HR. constructor.
  - intros c Hc. rewrite U2, U1, HR by done. tauto.
  - intros n Hn. by rewrite K2, K1.
Qed.

Lemma freed_good g x v v' P b : wf_sb g x -> freed x v v' P -> good v x b -> ~ P b -> good v' x b.
Proof.
  intros W F [Hd Hu] HP. split; [done|]. pose proof (data_range _ _ _ W Hd). apply (fr_used _ _ _ _ F); [lia|done].
Qed.

Section Free.
Context {S : Type} `{TxDiskSpec S}.

(** The transaction may grow to [L], which has the bitmap, and a buffer is to spare. *)
Record room (g : geom) (x : superblock) (h : gmap nat Z) (L : gset Z) : Prop := mk_room {
  rm_map : bitmap_set x ⊆ L;
  rm_bufs : (size h + size L + 1 <= NBUF)%nat;
  rm_log : Z.of_nat (size L + 1) <= gcap g
}.

Lemma room_fits g x h l L : room g x h L -> l ⊆ L -> fits g h l 1.
Proof. intros [_ H1 H2] Hl%subseteq_size. unfold fits. lia. Qed.

(** [if(a) bfree(dev, a)] *)
Lemma bfree_if (s : fsst S) v h l L a :
  blocks_ok s v h l -> l ⊆ L -> room (tgeo (fdev s)) (sb s) h L -> a = 0 \/ good v (sb s) a /\ unheld h a ->
  exists d v' l', runs (when (negb (a =? 0)) (bfree ROOTDEV a)) s [] tt (with_dev d s) /\ tgeo d = tgeo (fdev s)
    /\ blocks_ok (with_dev d s) v' h l' /\ l' ⊆ L /\ freed (sb s) v v' (fun c => c = a /\ c <> 0).
Proof.
  intros B Hl R Ha. destruct (Z.eqb_spec a 0) as [->|Hne]; cbn [negb when].
  - exists (fdev s), v, l. replace (with_dev (fdev s) s) with s by (by destruct s).
    split; [apply runs_ret|]. split; [done|]. split; [done|]. split; [done|]. apply freed_none. intros c []. done.
  - destruct Ha as [|[[Hd Hu] Hun]]; [done|]. pose proof (bo_sb _ _ _ _ B) as W. pose proof (data_range _ _ _ W Hd).
    destruct (bfree_run s v h l a B (room_fits _ _ _ _ _ R Hl) Hd Hu Hun) as (d & E & Hg & B').
    exists d, (free_view v (sb s) a), ({[BBLOCK a (sb s)]} ∪ l). split; [done|]. split; [done|]. split; [done|]. split.
    + apply union_least; [|done]. intros n ->%elem_of_singleton. apply (rm_map _ _ _ _ R), (bblock_in_set _ _ _ W). lia.
    + constructor.
      * intros c Hc. rewrite (used_free s v h l B) by done. destruct (Z.eqb_spec c a) as [->|]; cbn [negb andb]; [|naive_solver].
        split; [done|]. intros [_ Hn]. by destruct Hn.
      * intros n Hn. by apply (free_view_other s v h l B).
Qed.

(** A loop of such calls, over blocks that differ. *)
Lemma bfree_loop (f : Z -> Z) h L : forall js (s : fsst S) v l,
  blocks_ok s v h l -> l ⊆ L -> room (tgeo (fdev s)) (sb s) h L -> NoDup js ->
  (forall j, j ∈ js -> f j = 0 \/ good v (sb s) (f j) /\ unheld h (f j)) ->
  (forall j k, j ∈ js -> k ∈ js -> f j = f k -> f j <> 0 -> j = k) ->
  exists d v' l', runs (for_all js (fun j => when (negb (f j =? 0)) (bfree ROOTDEV (f j)))) s [] tt (with_dev d s)
    /\ tgeo d = tgeo (fdev s) /\ blocks_ok (with_dev d s) v' h l' /\ l' ⊆ L
    /\ freed (sb s) v v' (fun c => c <> 0 /\ exists j, j ∈ js /\ c = f j).
Proof.
  induction js as [|j js IH]; intros s v l B Hl R HN Hf Hinj.
  { exists (fdev s), v, l. replace (with_dev (fdev s) s) with s by (by destruct s).
    split; [apply runs_for_all_nil|]. split; [done|]. split; [done|]. split; [done|].
    apply freed_none. intros c (_ & j & Hj & _). by apply not_elem_of_nil in Hj. }
  apply NoDup_cons in HN as [Hj HN].
  destruct (bfree_if s v h l L (f j) B Hl R) as (d1 & v1 & l1 & E1 & Hg1 & B1 & Hl1 & F1); [apply Hf; by left|].
  destruct (IH (with_dev d1 s) v1 l1 B1 Hl1) as (d2 & v2 & l2 & E2 & Hg2 & B2 & Hl2 & F2); cbn [with_dev fdev sb]; auto.
  - by rewrite Hg1.
  - intros k Hk. destruct (Hf k) as [|[Hgd Hun]]; [by right|by left|]. right. split; [|done].
    apply (freed_good _ _ _ _ _ _ (bo_sb _ _ _ _ B) F1 Hgd). intros [E Hn]. apply Hj.
    rewrite <- (Hinj k j); [done|by right|by left|done|done].
  - intros a b Ha Hb. apply Hinj; by right.
  - exists d2, v2, l2. split; [exact (runs_for_all_cons (fun j => when (negb (f j =? 0)) (bfree ROOTDEV (f j))) j js s [] _ [] _ E1 E2)|]. split; [cbn in Hg2; congruence|].
    split; [exact B2|]. split; [done|]. apply (freed_trans _ _ _ _ _ _ _ F1 F2).
    intros c. split.
    + intros (Hc & k & [->|Hk]%elem_of_cons & ->); [by left|right; eauto].
    + intros [[-> Hc]|(Hc & k & Hk & ->)]; (split; [done|]); eexists; (split; [|done]); [by left|by right].
Qed.

(** *** The direct blocks *)

(** The addresses [ks] are cleared. *)
Fixpoint clear_addrs (ks : list Z) (a : list Z) : list Z :=
  match ks with
  | [] => a
  | k :: ks' => clear_addrs ks' (<[Z.to_nat k := 0]> a)
  end.

Lemma length_clear ks : forall a, length (clear_addrs ks a) = length a.
Proof using Type. induction ks as [|k ks IH]; intros a; [done|]. cbn [clear_addrs]. rewrite IH. apply length_insert. Qed.

Lemma nth_clear ks : forall a m, Forall (fun k => 0 <= k) ks ->
  nth m (clear_addrs ks a) 0 = if decide (Z.of_nat m ∈ ks) then 0 else nth m a 0.
Proof using Type.
  induction ks as [|k ks IH]; intros a m Hks; [by rewrite decide_False by apply not_elem_of_nil|].
  apply Forall_cons in Hks as [Hk Hks]. cbn [clear_addrs]. rewrite IH by done.
  assert (nth m (<[Z.to_nat k := 0]> a) 0 = if decide (Z.of_nat m = k) then 0 else nth m a 0) as ->.
  { rewrite !nth_lookup. case_decide as Hm.
    - replace (Z.to_nat k) with m by lia. destruct (decide (m < length a)%nat) as [Hl|Hl].
      + by rewrite list_lookup_insert_eq.
      + by rewrite list_insert_ge, lookup_ge_None_2 by lia.
    - by rewrite list_lookup_insert_ne by lia. }
  repeat case_decide; try done; set_solver.
Qed.

Definition direct_free (i : nat) (k : Z) : M (fsst S) unit :=
  let* ip := ino i in
  let* addr := addr_at ip k in
  when (negb (addr =? 0)) (bfree (i_dev ip) addr ;; set_addr i k 0).

Lemma direct_one (s : fsst S) v l L i ip k :
  blocks_ok s v ∅ l -> l ⊆ L -> room (tgeo (fdev s)) (sb s) ∅ L -> inodes s !! i = Some ip -> i_dev ip = ROOTDEV ->
  length (i_addrs ip) = Z.to_nat (NDIRECT + 1) -> 0 <= k < NDIRECT ->
  (let a := nth (Z.to_nat k) (i_addrs ip) 0 in a = 0 \/ good v (sb s) a) ->
  exists d v' l', runs (direct_free i k) s [] tt (with_inode d i (set_iaddrs (<[Z.to_nat k := 0]> (i_addrs ip)) ip) s)
    /\ tgeo d = tgeo (fdev s) /\ blocks_ok (with_dev d s) v' ∅ l' /\ l' ⊆ L
    /\ freed (sb s) v v' (fun c => c = nth (Z.to_nat k) (i_addrs ip) 0 /\ c <> 0).
Proof.
  intros B Hl R Hi Hd Hlen Hk Ha. cbv zeta in Ha. set (a := nth (Z.to_nat k) (i_addrs ip) 0) in *.
  destruct (bfree_if s v ∅ l L a B Hl R) as (d & v' & l' & E & Hg & B' & Hl' & F).
  { destruct Ha as [|Ha]; [by left|]. right. split; [done|]. intros j. by rewrite lookup_empty. }
  exists d, v', l'. split; [|done]. unfold direct_free. eapply runs_bind_nil; [by apply runs_ino|].
  eapply runs_bind_nil; [apply runs_addr_at; [done|lia]|]. fold a. rewrite Hd.
  destruct (Z.eqb_spec a 0) as [Ea|Hne]; cbn [negb when] in *.
  - assert (set_iaddrs (<[Z.to_nat k := 0]> (i_addrs ip)) ip = ip) as ->.
    { destruct (lookup_lt_is_Some_2 (i_addrs ip) (Z.to_nat k)) as [y Hy]; [lia|].
      unfold a in Ea. rewrite (nth_lookup_Some _ _ _ _ Hy) in Ea. subst y. rewrite list_insert_id by done. by destruct ip. }
    unfold with_inode. rewrite list_insert_id by done. exact E.
  - eapply runs_bind_nil; [exact E|]. unfold set_addr.
    exact (runs_upd_ino (with_dev d s) i ip _ Hi).
Qed.

Lemma direct_loop L i : forall ks (s : fsst S) v l ip,
  blocks_ok s v ∅ l -> l ⊆ L -> room (tgeo (fdev s)) (sb s) ∅ L -> inodes s !! i = Some ip -> i_dev ip = ROOTDEV ->
  length (i_addrs ip) = Z.to_nat (NDIRECT + 1) -> NoDup ks -> Forall (fun k => 0 <= k < NDIRECT) ks ->
  (forall k, k ∈ ks -> let a := nth (Z.to_nat k) (i_addrs ip) 0 in a = 0 \/ good v (sb s) a) ->
  (forall j k, j ∈ ks -> k ∈ ks -> nth (Z.to_nat j) (i_addrs ip) 0 = nth (Z.to_nat k) (i_addrs ip) 0 ->
     nth (Z.to_nat j) (i_addrs ip) 0 <> 0 -> j = k) ->
  exists d v' l', runs (for_all ks (direct_free i)) s [] tt (with_inode d i (set_iaddrs (clear_addrs ks (i_addrs ip)) ip) s)
    /\ tgeo d = tgeo (fdev s) /\ blocks_ok (with_dev d s) v' ∅ l' /\ l' ⊆ L
    /\ freed (sb s) v v' (fun c => c <> 0 /\ exists k, k ∈ ks /\ c = nth (Z.to_nat k) (i_addrs ip) 0).
Proof.
  induction ks as [|k ks IH]; intros s v l ip B Hl R Hi Hd Hlen HN Hr Hg Hinj.
  { exists (fdev s), v, l. replace (with_dev (fdev s) s) with s by (by destruct s).
    assert (set_iaddrs (clear_addrs [] (i_addrs ip)) ip = ip) as -> by (by destruct ip).
    rewrite with_inode_same by done. split; [apply runs_for_all_nil|]. split; [done|]. split; [done|]. split; [done|].
    apply freed_none. intros c (_ & j & Hj & _). by apply not_elem_of_nil in Hj. }
  apply NoDup_cons in HN as [Hk HN]. apply Forall_cons in Hr as [Hrk Hr].
  destruct (direct_one s v l L i ip k B Hl R Hi Hd Hlen Hrk) as (d1 & v1 & l1 & E1 & Hg1 & B1 & Hl1 & F1); [apply Hg; by left|].
  set (ip1 := set_iaddrs (<[Z.to_nat k := 0]> (i_addrs ip)) ip) in *.
  assert (forall j, j ∈ ks -> nth (Z.to_nat j) (i_addrs ip1) 0 = nth (Z.to_nat j) (i_addrs ip) 0) as Hsame.
  { intros j Hj. cbn [ip1 i_addrs set_iaddrs]. rewrite !nth_lookup, list_lookup_insert_ne; [done|].
    rewrite Forall_forall in Hr. specialize (Hr j Hj). intros E. apply Hk. by replace k with j by lia. }
  destruct (IH (with_inode d1 i ip1 s) v1 l1 ip1) as (d2 & v2 & l2 & E2 & Hg2 & B2 & Hl2 & F2); auto.
  - by apply (blocks_ok_same (with_dev d1 s)).
  - cbn. by rewrite Hg1.
  - by eapply with_inode_lookup.
  - cbn. by rewrite length_insert.
  - intros j Hj. cbv zeta. rewrite Hsame by done. destruct (Hg j) as [|Hgd]; [by right|by left|]. right.
    apply (freed_good _ _ _ _ _ _ (bo_sb _ _ _ _ B) F1 Hgd). intros [E Hn]. apply Hk.
    rewrite <- (Hinj j k); [done|by right|by left|done|done].
  - intros a b Ha Hb. rewrite !Hsame by done. apply Hinj; by right.
  - exists d2, v2, l2. split; [|split; [cbn in Hg2; congruence|split; [|split; [done|]]]].
    + replace (with_inode d2 i (set_iaddrs (clear_addrs (k :: ks) (i_addrs ip)) ip) s)
        with (with_inode d2 i (set_iaddrs (clear_addrs ks (i_addrs ip1)) ip1) (with_inode d1 i ip1 s)).
      * exact (runs_for_all_cons (direct_free i) k ks s [] _ [] _ E1 E2).
      * unfold with_inode. cbn. by rewrite list_insert_insert_eq.
    + by apply (blocks_ok_same (with_dev d2 (with_inode d1 i ip1 s))).
    + apply (freed_trans _ _ _ _ _ _ _ F1 F2). intros c. split.
      * intros (Hc & j & [->|Hj]%elem_of_cons & ->); [by left|right]. split; [done|]. exists j. by rewrite Hsame.
      * intros [[-> Hc]|(Hc & j & Hj & ->)]; (split; [done|]); eexists; (split; [|done || by apply Hsame]); [by left|by right].
Qed.

(** *** The indirect block *)

(** Entry [j] of the indirect block. *)
Definition entry32 (v : Z -> list Z) (a j : Z) : Z := get32 (v a) (Z.to_nat (4 * j)).

Definition indirect_free (i : nat) : M (fsst S) unit :=
  let* ip := ino i in
  let* ind := addr_at ip NDIRECT in
  when (negb (ind =? 0))
    (let* bp := zoom fd (t_bread (i_dev ip) ind) in
     let* d := zoom fd (t_data bp) in
     for_all (zrange 0 (Z.to_nat NINDIRECT)) (fun j =>
       let a := get32 d (Z.to_nat (4 * j)) in
       when (negb (a =? 0)) (bfree (i_dev ip) a)) ;;
     zoom fd (t_brelse bp) ;;
     bfree (i_dev ip) ind ;;
     set_addr i NDIRECT 0).

Lemma indirect_entries (s : fsst S) v l L a :
  blocks_ok s v ∅ l -> l ⊆ L -> room (tgeo (fdev s)) (sb s) {[0%nat := a]} L -> good v (sb s) a ->
  (forall j, 0 <= j < NINDIRECT -> entry32 v a j = 0 \/ good v (sb s) (entry32 v a j) /\ entry32 v a j <> a) ->
  (forall j k, 0 <= j < NINDIRECT -> 0 <= k < NINDIRECT -> entry32 v a j = entry32 v a k -> entry32 v a j <> 0 -> j = k) ->
  exists bp d1 d2 d3 v' l', runs (t_bread ROOTDEV a) (fdev s) [] bp d1 /\ runs (t_data bp) d1 [] (v a) d1
    /\ runs (for_all (zrange 0 (Z.to_nat NINDIRECT)) (fun j => when (negb (entry32 v a j =? 0)) (bfree ROOTDEV (entry32 v a j))))
         (with_dev d1 s) [] tt (with_dev d2 s)
    /\ runs (t_brelse bp) d2 [] tt d3 /\ tgeo d3 = tgeo (fdev s) /\ blocks_ok (with_dev d3 s) v' ∅ l' /\ l' ⊆ L
    /\ freed (sb s) v v' (fun c => c <> 0 /\ exists j, 0 <= j < NINDIRECT /\ c = entry32 v a j).
Proof.
  intros B Hl R Hgood Hent Hinj. pose proof (bo_sb _ _ _ _ B) as W.
  assert (room (tgeo (fdev s)) (sb s) ∅ L) as R0.
  { destruct R as [R1 R2 R3]. constructor; [done| |done]. rewrite map_size_empty. rewrite map_size_singleton in R2. lia. }
  destruct (open_good s v l a 0 B Hgood) as (bp & d1 & E1 & B1 & Hg1).
  { apply (room_fits _ _ _ _ _ R0 Hl). }
  pose proof (read_block_data d1 v _ l bp a (bo_rep _ _ _ _ B1) (lookup_singleton_eq _ _)) as E2.
  assert (room (tgeo d1) (sb s) {[bp := a]} L) as R1.
  { destruct R as [R1 R2 R3]. constructor; [done| |by rewrite Hg1]. rewrite map_size_singleton in *. done. }
  destruct (bfree_loop (entry32 v a) {[bp := a]} L (zrange 0 (Z.to_nat NINDIRECT)) (with_dev d1 s) v l B1 Hl R1)
    as (d2 & v2 & l2 & E3 & Hg2 & B2 & Hl2 & F2).
  - unfold zrange. apply NoDup_fmap; [|apply NoDup_seq]. intros x y. lia.
  - intros j Hj%elem_of_zrange. destruct (Hent j) as [|[Hg Hne]]; [change NINDIRECT with 128 in *; lia|by left|right].
    split; [done|]. intros k [_ Hk]%lookup_singleton_Some. congruence.
  - intros j k Hj%elem_of_zrange Hk%elem_of_zrange. apply Hinj; change NINDIRECT with 128 in *; lia.
  - destruct (close_good _ v2 l2 bp a B2) as (d3 & E4 & B3 & Hg3). cbn [with_dev fdev sb] in Hg2, Hg3, F2, E4.
    exists bp, d1, d2, d3, v2, l2. split; [done|]. split; [done|]. split; [exact E3|]. split; [done|].
    split; [congruence|]. split; [exact B3|]. split; [done|].
    destruct F2 as [U2 K2]. constructor; [|done]. intros c Hc. rewrite U2 by done.
    assert (forall j, j ∈ zrange 0 (Z.to_nat NINDIRECT) <-> 0 <= j < NINDIRECT) as Hz
      by (intros j; rewrite elem_of_zrange; change NINDIRECT with 128; lia).
    by setoid_rewrite Hz.
Qed.

Lemma indirect_ok (s : fsst S) v l L i ip :
  blocks_ok s v ∅ l -> l ⊆ L -> room (tgeo (fdev s)) (sb s) {[0%nat := ind ip]} L ->
  inodes s !! i = Some ip -> i_dev ip = ROOTDEV -> length (i_addrs ip) = Z.to_nat (NDIRECT + 1) ->
  ind ip = 0 \/ good v (sb s) (ind ip) ->
  (ind ip <> 0 -> forall j, 0 <= j < NINDIRECT ->
     entry32 v (ind ip) j = 0 \/ good v (sb s) (entry32 v (ind ip) j) /\ entry32 v (ind ip) j <> ind ip) ->
  (ind ip <> 0 -> forall j k, 0 <= j < NINDIRECT -> 0 <= k < NINDIRECT ->
     entry32 v (ind ip) j = entry32 v (ind ip) k -> entry32 v (ind ip) j <> 0 -> j = k) ->
  exists d v' l', runs (indirect_free i) s [] tt (with_inode d i (set_iaddrs (<[Z.to_nat NDIRECT := 0]> (i_addrs ip)) ip) s)
    /\ tgeo d = tgeo (fdev s) /\ blocks_ok (with_dev d s) v' ∅ l' /\ l' ⊆ L
    /\ freed (sb s) v v' (fun c => c <> 0 /\ ind ip <> 0 /\
         (c = ind ip \/ exists j, 0 <= j < NINDIRECT /\ c = entry32 v (ind ip) j)).
Proof.
  intros B Hl R Hi Hd Hlen Hind Hent Hinj. unfold indirect_free.
  destruct (Z.eqb_spec (ind ip) 0) as [E0|Hne].
  - exists (fdev s), v, l. split; [|split; [done|split; [by apply (blocks_ok_same s)|split; [done|apply freed_none; tauto]]]].
    assert (set_iaddrs (<[Z.to_nat NDIRECT := 0]> (i_addrs ip)) ip = ip) as ->.
    { destruct (lookup_lt_is_Some_2 (i_addrs ip) (Z.to_nat NDIRECT)) as [y Hy]; [change NDIRECT with 12 in *; lia|].
      unfold ind in E0. rewrite (nth_lookup_Some _ _ _ _ Hy) in E0. subst y. rewrite list_insert_id by done. by destruct ip. }
    rewrite with_inode_same by done. eapply runs_bind_nil; [by apply runs_ino|].
    eapply runs_bind_nil; [apply runs_addr_at; [done|done]|]. fold (ind ip). rewrite E0. apply runs_ret.
  - destruct Hind as [|Hgood]; [done|].
    destruct (indirect_entries s v l L (ind ip) B Hl R Hgood (Hent Hne) (Hinj Hne))
      as (bp & d1 & d2 & d3 & v1 & l1 & E1 & E2 & E3 & E4 & Hg3 & B3 & Hl1 & F1).
    assert (room (tgeo d3) (sb s) ∅ L) as R3.
    { destruct R as [R1 R2 R3]. constructor; [done| |by rewrite Hg3]. rewrite map_size_empty. lia. }
    destruct (bfree_if (with_dev d3 s) v1 ∅ l1 L (ind ip) B3 Hl1 R3) as (d4 & v4 & l4 & E5 & Hg4 & B4 & Hl4 & F4).
    { right. split; [|intros j; by rewrite lookup_empty]. apply (freed_good _ _ _ _ _ _ (bo_sb _ _ _ _ B) F1 Hgood).
      intros (_ & j & Hj & E). by destruct (Hent Hne j Hj) as [|[_ ?]]; congruence. }
    cbn [with_dev fdev sb] in Hg4, F4. exists d4, v4, l4. split; [|split; [congruence|split; [exact B4|split; [done|]]]].
    + eapply runs_bind_nil; [by apply runs_ino|]. eapply runs_bind_nil; [apply runs_addr_at; [done|done]|].
      fold (ind ip). rewrite Hd. destruct (Z.eqb_spec (ind ip) 0) as [|_]; [done|]. cbn [negb when] in E5 |- *.
      eapply runs_bind_nil; [apply runs_fd; exact E1|]. eapply runs_bind_nil; [apply runs_fd; exact E2|].
      eapply runs_bind_nil; [exact E3|]. eapply runs_bind_nil; [apply runs_fd; exact E4|].
      eapply runs_bind_nil; [exact E5|]. exact (runs_upd_ino (with_dev d4 s) i ip _ Hi).
    + apply (freed_trans _ _ _ _ _ _ _ F1 F4). intros c. split; [|naive_solver].
      intros (Hc & _ & [->|Hj]); [by right|by left].
Qed.

(** *** [itrunc] *)

(** The inode of an empty file. *)
Definition emptied (ip : inode) : inode := set_isize 0 (set_iaddrs (replicate (Z.to_nat (NDIRECT + 1)) 0) ip).

Lemma clear_all a : length a = Z.to_nat (NDIRECT + 1) ->
  <[Z.to_nat NDIRECT := 0]> (clear_addrs (zrange 0 (Z.to_nat NDIRECT)) a) = replicate (Z.to_nat (NDIRECT + 1)) 0.
Proof using Type.
  intros Hl. apply (nth_ext _ _ 0 0); [by rewrite length_insert, length_clear, length_replicate|].
  intros m Hm. rewrite length_insert, length_clear, Hl in Hm. rewrite (nth_lookup (replicate _ _)), lookup_replicate_2 by done. cbn [default].
  destruct (decide (m = Z.to_nat NDIRECT)) as [->|Hne].
  - rewrite nth_lookup, list_lookup_insert_eq; [done|]. by rewrite length_clear, Hl.
  - rewrite nth_lookup, list_lookup_insert_ne by done. rewrite <- nth_lookup, nth_clear.
    + rewrite decide_True; [done|]. apply elem_of_zrange. change NDIRECT with 12 in *. lia.
    + apply Forall_forall. intros k Hk%elem_of_zrange. lia.
Qed.

(** The blocks of a file are its direct blocks, the indirect block and its entries. *)
Lemma owned_split v ip c :
  owned v ip c <-> (c <> 0 /\ exists k, k ∈ zrange 0 (Z.to_nat NDIRECT) /\ c = nth (Z.to_nat k) (i_addrs ip) 0)
    \/ (c <> 0 /\ ind ip <> 0 /\ (c = ind ip \/ exists j, 0 <= j < NINDIRECT /\ c = entry32 v (ind ip) j)).
Proof using Type.
  unfold owned, entry32, faddr. split.
  - intros (Hc & [->|(bn & Hb & E)]); [right; auto|]. destruct (Z.ltb_spec bn NDIRECT) as [Hlt|Hge].
    + left. split; [done|]. exists bn. split; [apply elem_of_zrange; change NDIRECT with 12 in *; lia|done].
    + destruct (Z.eqb_spec (ind ip) 0); [congruence|]. right. split; [done|]. split; [done|]. right.
      exists (bn - NDIRECT). split; [|done]. change NDIRECT with 12 in *. change NINDIRECT with 128. change MAXFILE with 140 in *. lia.
  - intros [(Hc & k & Hk%elem_of_zrange & ->)|(Hc & Hn & [->|(j & Hj & ->)])]; (split; [done|]); [right|by left|right].
    + exists k. change NDIRECT with 12 in *. change MAXFILE with 140. split; [lia|]. by destruct (Z.ltb_spec k 12); [|lia].
    + exists (j + NDIRECT). change NDIRECT with 12 in *. change NINDIRECT with 128 in *. change MAXFILE with 140. split; [lia|].
      destruct (Z.ltb_spec (j + 12) 12); [lia|]. destruct (Z.eqb_spec (ind ip) 0); [done|]. by rewrite Z.add_simpl_r.
Qed.

Lemma faddr_direct v ip k : 0 <= k < NDIRECT -> faddr v ip k = nth (Z.to_nat k) (i_addrs ip) 0.
Proof using Type. intros Hk. unfold faddr. by destruct (Z.ltb_spec k NDIRECT); [|lia]. Qed.

Lemma faddr_indirect v ip j : ind ip <> 0 -> 0 <= j -> faddr v ip (j + NDIRECT) = entry32 v (ind ip) j.
Proof using Type.
  intros Hi Hj. unfold faddr, entry32. destruct (Z.ltb_spec (j + NDIRECT) NDIRECT); [lia|].
  destruct (Z.eqb_spec (ind ip) 0); [done|]. by rewrite Z.add_simpl_r.
Qed.

Lemma indirect_after (s : fsst S) v v1 l1 L i ip ip1 d1 P :
  wf_sb (tgeo (fdev s)) (sb s) -> file_ok v (sb s) ip -> freed (sb s) v v1 P -> blocks_ok (with_dev d1 s) v1 ∅ l1 -> l1 ⊆ L ->
  room (tgeo (fdev s)) (sb s) {[0%nat := ind ip]} L -> tgeo d1 = tgeo (fdev s) -> inodes s !! i = Some ip ->
  ind ip1 = ind ip ->
  (forall c, good v (sb s) c -> (forall k, 0 <= k < NDIRECT -> c <> faddr v ip k) -> good v1 (sb s) c) ->
  length (i_addrs ip1) = Z.to_nat (NDIRECT + 1) -> i_dev ip1 = ROOTDEV ->
  let s1 := with_inode d1 i ip1 s in
  exists d v' l', runs (indirect_free i) s1 [] tt (with_inode d i (set_iaddrs (<[Z.to_nat NDIRECT := 0]> (i_addrs ip1)) ip1) s1)
    /\ tgeo d = tgeo (fdev s) /\ blocks_ok (with_dev d s1) v' ∅ l' /\ l' ⊆ L
    /\ freed (sb s) v1 v' (fun c => c <> 0 /\ ind ip <> 0 /\
         (c = ind ip \/ exists j, 0 <= j < NINDIRECT /\ c = entry32 v (ind ip) j)).
Proof.
  intros W F F1 B1 Hl1 R Hg1 Hi Hind Hkeep Hlen Hd s1.
  assert (ind ip <> 0 -> v1 (ind ip) = v (ind ip)) as Hsame.
  { intros Hn. apply (fr_keep _ _ _ _ F1). destruct (fo_ind _ _ _ F) as [|[Hdb _]]; [done|].
    intros Hb. by apply (data_not_bitmap (sb s) (ind ip) (ind ip)). }
  assert (ind ip <> 0 -> forall j, entry32 v1 (ind ip) j = entry32 v (ind ip) j) as Hent.
  { intros Hn j. unfold entry32. by rewrite Hsame. }
  assert (forall j, 0 <= j < NINDIRECT -> 0 <= j + NDIRECT < MAXFILE) as Hm.
  { intros j. change NINDIRECT with 128. change NDIRECT with 12. change MAXFILE with 140. lia. }
  assert (forall k, 0 <= k < NDIRECT -> 0 <= k < MAXFILE) as Hk by (intros k; change NDIRECT with 12; change MAXFILE with 140; lia).
  destruct (indirect_ok s1 v1 l1 L i ip1) as (d & v' & l' & E & Hg & B' & Hl' & F'); auto.
  - by apply (blocks_ok_same (with_dev d1 s)).
  - cbn. by rewrite Hg1, Hind.
  - by eapply with_inode_lookup.
  - rewrite Hind. destruct (fo_ind _ _ _ F) as [|Hgd]; [by left|right]. apply Hkeep; [done|].
    intros k Hk1 E. pose proof (fo_ne _ _ _ F k (Hk k Hk1) (eq_sym E)) as E0. destruct Hgd as [Hdb _].
    pose proof (data_range _ _ _ W Hdb). lia.
  - rewrite Hind. intros Hn j Hj. rewrite (Hent Hn), <- (faddr_indirect v ip j Hn) by lia.
    destruct (fo_addr _ _ _ F _ (Hm j Hj)) as [|Hgd]; [by left|right]. split.
    + apply Hkeep; [done|]. intros k Hk1 E.
      assert (faddr v ip (j + NDIRECT) <> 0) as Hnz by (destruct Hgd as [Hdb _]; pose proof (data_range _ _ _ W Hdb); lia).
      pose proof (fo_inj _ _ _ F _ _ (Hm j Hj) (Hk k Hk1) E Hnz). lia.
    + intros E. by apply Hn, (fo_ne _ _ _ F _ (Hm j Hj)).
  - rewrite Hind. intros Hn j k Hj Hk1. rewrite !(Hent Hn), <- !(faddr_indirect v ip _ Hn) by lia. intros E Hnz.
    pose proof (fo_inj _ _ _ F _ _ (Hm j Hj) (Hm k Hk1) E Hnz). lia.
  - exists d, v', l'. split; [exact E|]. split; [cbn in Hg; congruence|]. split; [done|]. split; [done|].
    rewrite Hind in F'. change (sb s1) with (sb s) in F'. destruct F' as [U' K']. constructor; [|done]. intros c Hc. rewrite U' by done.
    split; (intros [Hu Hno]; split; [done|]; intros (Hc0 & Hn & Hor); apply Hno; split; [done|]; split; [done|]);
      (destruct Hor as [->|(j & Hj & ->)]; [by left|right; exists j; split; [done|by rewrite Hent]]).
Qed.

Lemma itrunc_ok (s : fsst S) v l L i ip :
  blocks_ok s v ∅ l -> l ⊆ L -> IBLOCK (i_inum ip) (sb s) ∈ L -> room (tgeo (fdev s)) (sb s) {[0%nat := ind ip]} L ->
  inodes s !! i = Some ip -> file_ok v (sb s) ip -> 0 <= i_inum ip < sb_ninodes (sb s) ->
  exists d d1 v1 l1 l', runs (itrunc i) s [] tt (with_inode d i (emptied ip) s) /\ tgeo d = tgeo (fdev s)
    /\ freed (sb s) v v1 (owned v ip) /\ blocks_ok (with_dev d1 s) v1 ∅ l1
    /\ blocks_ok (with_dev d s) (iupd_view v1 (sb s) (emptied ip)) ∅ l' /\ l' ⊆ L.
Proof.
  intros B Hl Hib R Hi F Hn. pose proof (bo_sb _ _ _ _ B) as W. pose proof (fo_len _ _ _ F) as Hlen. pose proof (fo_dev _ _ _ F) as Hd.
  assert (forall d, tgeo d = tgeo (fdev s) -> room (tgeo d) (sb s) ∅ L) as R0.
  { intros d ->. destruct R as [R1 R2 R3]. constructor; [done| |done]. rewrite map_size_empty. lia. }
  assert (forall k, k ∈ zrange 0 (Z.to_nat NDIRECT) -> 0 <= k < NDIRECT /\ 0 <= k < MAXFILE) as Hz.
  { intros k Hk%elem_of_zrange. change NDIRECT with 12 in *. change MAXFILE with 140. lia. }
  destruct (direct_loop L i (zrange 0 (Z.to_nat NDIRECT)) s v l ip B Hl (R0 _ eq_refl) Hi Hd Hlen)
    as (d1 & v1 & l1 & E1 & Hg1 & B1 & Hl1 & F1).
  { unfold zrange. apply NoDup_fmap; [|apply NoDup_seq]. intros x y. lia. }
  { apply Forall_forall. intros k Hk. by apply Hz. }
  { intros k Hk. cbv zeta. rewrite <- (faddr_direct v) by by apply Hz. apply (fo_addr _ _ _ F). by apply Hz. }
  { intros j k Hj Hk. rewrite <- !(faddr_direct v) by by apply Hz. apply (fo_inj _ _ _ F); by apply Hz. }
  set (ip1 := set_iaddrs (clear_addrs (zrange 0 (Z.to_nat NDIRECT)) (i_addrs ip)) ip) in *.
  assert (ind ip1 = ind ip) as Hind.
  { unfold ind. cbn [ip1 i_addrs set_iaddrs]. rewrite nth_clear; [rewrite decide_False; [done|]|].
    - rewrite elem_of_zrange. change NDIRECT with 12. lia.
    - apply Forall_forall. intros k Hk. destruct (Hz k Hk). lia. }
  assert (forall c, good v (sb s) c -> (forall k, 0 <= k < NDIRECT -> c <> faddr v ip k) -> good v1 (sb s) c) as Hkeep.
  { intros c Hc Hne. apply (freed_good _ _ _ _ _ _ W F1 Hc). intros (_ & k & Hk & E). destruct (Hz k Hk) as [Hk1 _].
    apply (Hne k Hk1). by rewrite faddr_direct. }
  destruct (indirect_after s v v1 l1 L i ip ip1 d1 _ W F F1 B1 Hl1 R Hg1 Hi Hind Hkeep) as (d2 & v2 & l2 & E2 & Hg2 & B2 & Hl2 & F2).
  { cbn. by rewrite length_clear. } { done. }
  set (s2 := with_inode d2 i (set_iaddrs (<[Z.to_nat NDIRECT := 0]> (i_addrs ip1)) ip1) (with_inode d1 i ip1 s)) in *.
  assert (set_iaddrs (<[Z.to_nat NDIRECT := 0]> (i_addrs ip1)) ip1 = set_iaddrs (replicate (Z.to_nat (NDIRECT + 1)) 0) ip) as Eip
    by (cbn [ip1 i_addrs set_iaddrs]; by rewrite clear_all).
  assert (inodes s2 !! i = Some (set_iaddrs (replicate (Z.to_nat (NDIRECT + 1)) 0) ip)) as Hi2
    by (rewrite <- Eip; eapply with_inode_lookup; by eapply with_inode_lookup).
  set (ip2 := set_iaddrs _ ip) in Hi2. set (s3 := with_inode d2 i (emptied ip) s2).
  assert (blocks_ok s3 v2 ∅ l2) as B3 by (by apply (blocks_ok_same (with_dev d2 (with_inode d1 i ip1 s)))).
  destruct (iupdate_ok s3 v2 l2 i (emptied ip)) as (d4 & E4 & Hg4 & B4); auto.
  { by eapply with_inode_lookup. } { cbn. rewrite Hg2. exact (room_fits _ _ _ _ _ (R0 _ eq_refl) Hl2). }
  exists d4, d2, v2, l2, ({[IBLOCK (i_inum (emptied ip)) (sb s3)]} ∪ l2). split; [|split; [cbn in Hg4; congruence|split; [|split; [|split]]]].
  - unfold itrunc. eapply runs_bind_nil; [exact E1|]. unfold indirect_free in E2.
    apply runs_bind_nil_inv in E2 as (x1 & t1 & G1 & E2). apply runs_bind_nil_inv in E2 as (x2 & t2 & G2 & E2).
    eapply runs_bind_nil; [exact G1|]. eapply runs_bind_nil; [exact G2|]. eapply runs_bind_nil; [exact E2|].
    eapply runs_bind_nil; [exact (runs_upd_ino s2 i ip2 (set_isize 0) Hi2)|].
    replace (with_inode d4 i (emptied ip) s) with (with_dev d4 s3); [exact E4|].
    unfold s3, s2, with_dev, with_inode. cbn. by rewrite !list_insert_insert_eq.
  - apply (freed_trans _ _ _ _ _ _ _ F1 F2). apply owned_split.
  - by apply (blocks_ok_same s3).
  - by apply (blocks_ok_same (with_dev d4 s3)).
  - apply union_least; [|done]. intros n ->%elem_of_singleton. exact Hib.
Qed.

(** *** Other files *)

Lemma freed_file g x v v1 ip ip2 :
  wf_sb g x -> freed x v v1 (owned v ip) -> file_ok v x ip2 -> (forall n, owned v ip2 n -> ~ owned v ip n) ->
  file_ok v1 x ip2 /\ forall o, 0 <= o < MAXFILE * BS -> content v1 ip2 o = content v ip2 o.
Proof using Type.
  intros W F F2 Hdis. assert (forall n, data_block x n -> v1 n = v n) as Hdata.
  { intros n Hd. apply (fr_keep _ _ _ _ F). intros Hb. by apply (data_not_bitmap x n n). }
  assert (forall n, owned v ip2 n -> good v x n -> good v1 x n) as Hgood.
  { intros n Ho Hg. apply (freed_good _ _ _ _ _ _ W F Hg). by apply Hdis. }
  assert (forall bn, faddr v1 ip2 bn = faddr v ip2 bn) as Hfa.
  { intros bn. unfold faddr. destruct (bn <? NDIRECT); [done|]. destruct (Z.eqb_spec (ind ip2) 0); [done|].
    rewrite Hdata; [done|]. by destruct (fo_ind _ _ _ F2) as [|[]]. }
  assert (forall n, good v x n -> n <> 0) as Hnz by (intros n [Hd _]; pose proof (data_range _ _ _ W Hd); lia).
  split.
  - constructor; try apply F2.
    + destruct (fo_ind _ _ _ F2) as [|Hg]; [by left|right]. apply Hgood; [|done]. split; [by apply Hnz|by left].
    + intros bn Hb. rewrite Hfa. destruct (fo_addr _ _ _ F2 bn Hb) as [|Hg]; [by left|right]. apply Hgood; [|done].
      split; [by apply Hnz|right; eauto].
    + intros j k. rewrite !Hfa. apply (fo_inj _ _ _ F2).
    + intros j. rewrite Hfa. apply (fo_ne _ _ _ F2).
  - intros o Ho. unfold content. rewrite Hfa. destruct (Z.eqb_spec (faddr v ip2 (o / BS)) 0); [done|].
    rewrite Hdata; [done|]. by destruct (fo_addr _ _ _ F2 (o / BS) (off_block o Ho)) as [|[]].
Qed.

Lemma iupd_file (s : fsst S) v l ip2 ip :
  blocks_ok s v ∅ l -> 0 <= i_inum ip < sb_ninodes (sb s) -> file_ok v (sb s) ip2 ->
  file_ok (iupd_view v (sb s) ip) (sb s) ip2
  /\ forall o, 0 <= o < MAXFILE * BS -> content (iupd_view v (sb s) ip) ip2 o = content v ip2 o.
Proof.
  intros B Hn F. rewrite <- (set_isize_same ip2) at 1. split; [by apply (file_ok_iupd s v ∅ l)|].
  intros o Ho. rewrite <- (set_isize_same ip2) at 1. by apply (content_iupd s v ∅ l).
Qed.

(** *** [iput] *)

(** The inode that is written at last: free, and of no size. *)
Definition gone (ip : inode) : inode := set_itype 0 (emptied ip).

(** What is left of the file [ip] from [v] to [v']. *)
Record erased (x : superblock) (v v' : Z -> list Z) (ip : inode) : Prop := mk_erased {
  er_used c : 0 <= c < sb_size x -> used v' x c = true <-> used v x c = true /\ ~ owned v ip c;
  er_inode y : disk_inode v' x (i_inum ip) y = with_copy (gone ip) y;
  er_inodes n y : 0 <= n < sb_ninodes x -> n <> i_inum ip -> disk_inode v' x n y = disk_inode v x n y;
  er_files ip2 : file_ok v x ip2 -> (forall n, owned v ip2 n -> ~ owned v ip n) ->
    file_ok v' x ip2 /\ forall o, 0 <= o < MAXFILE * BS -> content v' ip2 o = content v ip2 o
}.

Lemma gone_fits ip : inode_fits ip -> inode_fits (gone ip).
Proof using Type. intros []. constructor; cbn; try done; try lia. by repeat constructor. Qed.

Lemma erase_view (s : fsst S) d v v1 l1 l2 ip :
  blocks_ok s v1 ∅ l1 -> freed (sb s) v v1 (owned v ip) ->
  blocks_ok (with_dev d s) (iupd_view v1 (sb s) (emptied ip)) ∅ l2 ->
  0 <= i_inum ip < sb_ninodes (sb s) -> inode_fits ip ->
  erased (sb s) v (iupd_view (iupd_view v1 (sb s) (emptied ip)) (sb s) (gone ip)) ip.
Proof.
  intros B1 F B2 Hn Hf. pose proof (bo_sb _ _ _ _ B1) as W. destruct (iblock_home _ _ _ W Hn) as (_ & Hnb & _).
  constructor.
  - intros c Hc. rewrite <- (fr_used _ _ _ _ F c Hc). set (v2 := iupd_view v1 (sb s) (emptied ip)) in *.
    unfold iupd_view at 1. pose proof (used_other (with_dev d s) v2 ∅ l2 B2) as Hu. cbn [with_dev sb] in Hu. rewrite Hu by done.
    unfold v2, iupd_view. by rewrite (used_other s v1 ∅ l1 B1).
  - intros y. exact (iupd_view_eq (with_dev d s) _ ∅ l2 (gone ip) y B2 Hn (gone_fits _ Hf)).
  - intros n y Hr Hne. etransitivity; [exact (iupd_view_other (with_dev d s) _ ∅ l2 (gone ip) n y B2 Hn Hr Hne)|].
    cbn [with_dev sb]. rewrite (iupd_view_other s v1 ∅ l1 (emptied ip) n y B1) by done.
    unfold disk_inode. rewrite (fr_keep _ _ _ _ F); [done|]. by apply (iblock_home _ _ _ W Hr).
  - intros ip2 F2 Hdis. destruct (freed_file _ _ _ _ _ _ W F F2 Hdis) as [G1 C1].
    destruct (iupd_file s v1 l1 ip2 (emptied ip) B1 Hn G1) as [G2 C2].
    destruct (iupd_file (with_dev d s) _ l2 ip2 (gone ip) B2 Hn G2) as [G3 C3]. split; [exact G3|].
    intros o Ho. etransitivity; [exact (C3 o Ho)|]. cbn [with_dev sb]. by rewrite C2, C1.
Qed.

(** The cache after the entry of the erased inode was given up. *)
Lemma cached_erased (s : fsst S) v l R i n ip d v' l' ip' :
  cached s v l R None -> entry s i n ip -> 0 <= n < sb_ninodes (sb s) -> erased (sb s) v v' ip ->
  blocks_ok (with_dev d s) v' ∅ l' -> i_ref ip' = 0 ->
  cached (with_dev d (put_entry i ip' s)) v' l' (delete n R) None.
Proof.
  intros C (Hi & Hr & Hn) Hrange E B Hz. destruct C as [B0 Hlk K Hc Hk].
  assert (forall m, linked v' (sb s) m -> m <> n /\ linked v (sb s) m /\ dnode v' (sb s) m = dnode v (sb s) m) as Hl.
  { intros m (Hm & Ht & Hlink). destruct (decide (m = n)) as [->|Hne].
    - destruct Ht. unfold dnode. rewrite <- Hn. by rewrite (er_inode _ _ _ _ E).
    - assert (dnode v' (sb s) m = dnode v (sb s) m) as Ed by (apply (er_inodes _ _ _ _ E); congruence).
      rewrite Ed in Ht, Hlink. done. }
  constructor; cbn.
  - by apply (blocks_ok_same (with_dev d s)).
  - done.
  - rewrite <- Hn. by apply icache_delete.
  - intros j x Hx Hxr Hx1. destruct (Hl _ Hx1) as (Hne & Hx2 & Ed). destruct (decide (i = j)) as [<-|Hij].
    { rewrite list_lookup_insert_eq in Hx by (by eapply lookup_lt_Some). injection Hx as <-. done. }
    rewrite list_lookup_insert_ne in Hx by done. destruct (Hc j x Hx Hxr Hx2) as [Hb Hv]. split; [done|].
    intros Hf. unfold is_copy. rewrite Ed. by apply Hv.
  - done.
Qed.

Lemma iput_last_run (s : fsst S) i ip d d4 :
  ic_lock s = false -> inodes s !! i = Some ip -> i_ref ip = 1 ->
  has (i_flags ip) I_VALID = true -> has (i_flags ip) I_BUSY = false -> i_nlink ip = 0 ->
  let ip0 := set_iflags (set_flag (i_flags ip) I_BUSY) ip in
  let s2 := with_inode d i (emptied ip0) (put_entry i ip0 s) in
  let s3 := with_inode (fdev s2) i (gone ip0) s2 in
  runs (itrunc i) (put_entry i ip0 s) [] tt s2 -> runs (iupdate i) s3 [] tt (with_dev d4 s3) ->
  runs (iput i) s [] tt (with_dev d4 (put_entry i (set_iref (i_ref ip - 1) (set_iflags 0 (gone ip0))) s)).
Proof.
  intros Hlk Hi Href Hval Hbusy Hlink ip0 s2 s3 E1 E4.
  assert (inodes s2 !! i = Some (emptied ip0)) as Hi2 by (eapply with_inode_lookup; apply list_lookup_insert_eq; by eapply lookup_lt_Some).
  assert (inodes s3 !! i = Some (gone ip0)) as Hi3 by by eapply with_inode_lookup.
  unfold iput. eapply runs_bind_nil; [by apply runs_acquire|]. eapply runs_bind_nil; [by apply runs_ino|].
  assert ((i_ref ip =? 1) && has (i_flags ip) I_VALID && (i_nlink ip =? 0) = true) as -> by (by rewrite Href, Hval, Hlink).
  cbn [when]. rewrite Hbusy. eapply runs_bind_nil.
  { eapply runs_bind_nil; [by apply runs_upd_ino|]. eapply runs_bind_nil; [by apply runs_release|].
    eapply runs_bind_nil; [exact E1|]. eapply runs_bind_nil; [by apply runs_upd_ino|]. eapply runs_bind_nil; [exact E4|].
    eapply runs_bind_nil; [by apply runs_acquire|]. eapply runs_bind_nil; [apply runs_upd_ino; exact Hi3|].
    apply runs_wakeup. }
  eapply runs_bind_nil; [apply runs_upd_ino; eapply with_inode_lookup; exact Hi3|].
  replace (with_dev d4 (put_entry i (set_iref (i_ref ip - 1) (set_iflags 0 (gone ip0))) s)) with
    (lset iclock false (with_inode d4 i (set_iref (i_ref ip - 1) (set_iflags 0 (gone ip0))) (with_inode d4 i (set_iflags 0 (gone ip0)) (lset iclock true (with_dev d4 s3))))); [by apply runs_release|].
  unfold s3, s2, with_dev, with_inode, put_entry. cbn. by rewrite !list_insert_insert_eq.
Qed.

End Free.

(** C25: the last [iput] of a file that has no name any more throws it away.  Every
    block the file had, the indirect block included, is free afterwards and no other
    block is; the inode on disk is free; all other inodes on disk, the contents of all
    other files and the other entries of the cache stay as they are; and the entry of
    the cache is free.  Everything stays within one transaction: the blocks it changes
    are those of the bitmap and the block of the inode. *)
Theorem iput_frees {S} `{TxDiskSpec S} (s : fsst S) v l L R i n ip :
  cached s v l R None -> entry s i n ip -> R !! n = Some 1 -> 0 <= n < sb_ninodes (sb s) ->
  has (i_flags ip) I_VALID = true -> has (i_flags ip) I_BUSY = false -> i_nlink ip = 0 ->
  file_ok v (sb s) ip -> inode_fits ip ->
  l ⊆ L -> IBLOCK n (sb s) ∈ L -> room (tgeo (fdev s)) (sb s) {[0%nat := ind ip]} L ->
  exists s' v' l', runs (iput i) s [] tt s' /\ cached s' v' l' (delete n R) None /\ l' ⊆ L
    /\ erased (sb s) v v' ip /\ sb s' = sb s /\ tgeo (fdev s') = tgeo (fdev s)
    /\ (forall j, j <> i -> inodes s' !! j = inodes s !! j).
Proof.
  intros C E HR Hn Hval Hbusy Hlink F Hfit Hl Hib Rm. pose proof E as (Hi & Hr & Hin).
  destruct (ic_used _ _ (ca_cache _ _ _ _ _ C) i ip Hi Hr) as (_ & Hdev & HR'). rewrite Hin, HR in HR'. injection HR' as Href.
  set (ip0 := set_iflags (set_flag (i_flags ip) I_BUSY) ip).
  assert (inodes (put_entry i ip0 s) !! i = Some ip0) as Hi0 by (apply list_lookup_insert_eq; by eapply lookup_lt_Some).
  destruct (itrunc_ok (put_entry i ip0 s) v l L i ip0) as (d & d1 & v1 & l1 & l2 & E1 & Hg1 & F1 & B1 & B2 & Hl2); auto.
  { apply (blocks_ok_same s); [done|done|apply C]. } { cbn. by rewrite Hin. } { destruct F. by constructor. } { cbn. by rewrite Hin. }
  set (s2 := with_inode d i (emptied ip0) (put_entry i ip0 s)) in *.
  assert (inodes s2 !! i = Some (emptied ip0)) as Hi2 by by eapply with_inode_lookup.
  set (s3 := with_inode (fdev s2) i (gone ip0) s2). set (v2 := iupd_view v1 (sb s) (emptied ip0)) in *.
  assert (inodes s3 !! i = Some (gone ip0)) as Hi3 by by eapply with_inode_lookup.
  destruct (iupdate_ok s3 v2 l2 i (gone ip0)) as (d4 & E4 & Hg4 & B4); auto.
  { by apply (blocks_ok_same (with_dev d (put_entry i ip0 s))). } { cbn. by rewrite Hin. }
  { cbn. rewrite Hg1. cbn. apply (room_fits _ (sb s) _ _ L); [|done]. destruct Rm as [R1 R2 R3]. constructor; [done| |done].
    rewrite map_size_empty. lia. }
  assert (erased (sb s) v (iupd_view v2 (sb s) (gone ip0)) ip) as Er.
  { pose proof (erase_view (with_dev d1 (put_entry i ip0 s)) d v v1 l1 l2 ip0 B1 F1 B2) as Er.
    cbn [with_dev put_entry sb ip0 i_inum set_iflags] in Er. rewrite Hin in Er. destruct (Er Hn) as [e1 e2 e3 e4]; [by destruct Hfit; constructor|].
    constructor; [exact e1|exact e2|exact e3|exact e4]. }
  set (ip5 := set_iref (i_ref ip - 1) (set_iflags 0 (gone ip0))).
  exists (with_dev d4 (put_entry i ip5 s)), (iupd_view v2 (sb s) (gone ip0)), ({[IBLOCK (i_inum (gone ip0)) (sb s3)]} ∪ l2).
  split; [|split; [|split; [|split; [exact Er|split; [done|split]]]]].
  - apply (iput_last_run s i ip d d4); auto. apply C.
  - apply (cached_erased s v l R i n ip); auto; [|cbn; lia]. by apply (blocks_ok_same (with_dev d4 s3)).
  - apply union_least; [|done]. intros m ->%elem_of_singleton. cbn. by rewrite Hin.
  - cbn in Hg4 |- *. rewrite Hg4. exact Hg1.
  - intros j Hj. cbn. by rewrite list_lookup_insert_ne by done.
Qed.

(** ** A run: a file of one block, opened and unlinked *)

Lemma file_ok_addrs_eq v x ip ip' :
  i_addrs ip' = i_addrs ip -> i_dev ip' = i_dev ip -> file_ok v x ip -> file_ok v x ip'.
Proof. destruct ip, ip'. cbn. intros -> -> []. by constructor. Qed.

(** Inode 2, which has no entry in a directory, with the block that follows the
    metadata. *)
Definition lost : inode := mk_inode ROOTDEV 2 1 I_VALID 2 0 0 0 512 (i_addrs root_inode).

Definition lost_fs {S} (d : S) : fsst S := mk_fsst d mk_super false (<[0%nat := lost]> (replicate NINODE zero_inode)).

(** A cache with one entry, for an inode without links. *)
Lemma cached_one {S} `{TxDiskSpec S} (s : fsst S) v l ip :
  blocks_ok s v ∅ l -> ic_lock s = false -> inodes s = <[0%nat := ip]> (replicate NINODE zero_inode) ->
  i_ref ip = 1 -> i_dev ip = ROOTDEV -> ~ linked v (sb s) (i_inum ip) -> cached s v l {[i_inum ip := 1]} None.
Proof.
  intros B Hlk Hin Hr Hd Hno.
  assert (inodes s !! 0%nat = Some ip) as H0' by (rewrite Hin; reflexivity).
  assert (Hns : forall j x, inodes s !! j = Some x -> i_ref x <> 0 -> j = 0%nat /\ x = ip).
  { intros [|j] x; [rewrite H0'; by intros [= <-]|]. rewrite Hin, list_lookup_insert_ne by done.
    intros [-> _]%lookup_replicate_1. done. }
  constructor; [done|done| | |done].
  - constructor.
    + intros j x Hj Hx. destruct (Hns j x Hj Hx) as [_ ->]. rewrite lookup_singleton_eq, Hr. done.
    + intros n r [<- <-]%lookup_singleton_Some. exists 0%nat, ip. split; [done|]. split; [by rewrite Hr|done].
    + intros j k x y Hj Hk Hx Hy _. destruct (Hns j x Hj Hx) as [-> _], (Hns k y Hk Hy) as [-> _]. done.
  - intros j x Hj Hx Hl. destruct (Hns j x Hj Hx) as [_ ->]. done.
Qed.

Lemma iput_frees_witness :
  exists (s s' : fsst (logst (bio memide))) v', runs (iput 0) s [] tt s' /\ used v' mk_super nmeta = false
    /\ i_type (dnode v' mk_super 2) = 0.
Proof.
  destruct root_open as (s & O & Hg). set (L := bitmap_set mk_super ∪ {[IBLOCK 2 mk_super]}).
  assert (size L = 2%nat) as HL by (vm_compute; reflexivity).
  assert (blocks_ok (lost_fs s) (drv_sector new_disk) ∅ ∅) as B
    by exact (blocks_ok_same (root_fs s) (lost_fs s) _ _ _ eq_refl eq_refl (of_blocks _ _ _ _ _ O)).
  assert (~ linked (drv_sector new_disk) mk_super 2) as Hno by (intros (_ & Ht & _); apply Ht; vm_compute; reflexivity).
  destruct (iput_frees (lost_fs s) (drv_sector new_disk) ∅ L {[2 := 1]} 0 2 lost) as (s' & v' & l' & E & _ & _ & Er & _).
  - exact (cached_one (lost_fs s) (drv_sector new_disk) ∅ lost B eq_refl eq_refl eq_refl eq_refl Hno).
  - split; [reflexivity|]. split; [discriminate|reflexivity].
  - apply (lookup_singleton_eq 2 1).
  - split; [discriminate|reflexivity].
  - reflexivity.
  - reflexivity.
  - reflexivity.
  - exact (file_ok_addrs_eq _ _ root_inode lost eq_refl eq_refl (of_file _ _ _ _ _ O)).
  - constructor; try (split; [discriminate|reflexivity]); [reflexivity|]. repeat constructor; discriminate.
  - apply empty_subseteq.
  - unfold L. apply elem_of_union_r, elem_of_singleton. reflexivity.
  - constructor; [unfold L; apply union_subseteq_l| |]; rewrite ?map_size_singleton, HL; [unfold NBUF; lia|].
    change (tgeo (fdev (lost_fs s))) with (tgeo s). rewrite Hg. vm_compute. discriminate.
  - exists (lost_fs s), s', v'. split; [exact E|]. split.
    + apply not_true_iff_false. intros Hu. apply (er_used _ _ _ _ Er) in Hu as [_ Hno']; [|split; [discriminate|reflexivity]].
      apply Hno'. split; [discriminate|]. right. exists 0. split; [split; [discriminate|reflexivity]|reflexivity].
    + unfold dnode. rewrite (er_inode _ _ _ _ Er). reflexivity.
Defined.
