(* ===== verification/Dirs.v ===== *)
(** * Directories: [dirlookup] and [dirlink] of fs.c

    A directory is a file of 16-byte entries; an entry with inode number 0 is free.
    It stands for a map from names, cut to [DIRSIZ] bytes, to inode numbers. *)

From stdpp Require Import base numbers list gmap strings.
From S2P Require Import Prelude Bytes Mem Str Buf Memide Bio Bcache Log LogCrash Tx Recovery Fs TxSpec FsBlock FsFile FsRw FsInode Mkfs FsImage Files Icache.

Open Scope Z_scope.

(** ** Names and entries *)

Definition cname (l : list Z) : list Z := cstr DIRSIZ (bytes l).

Definition dir_entry (v : Z -> list Z) (ip : inode) (k : nat) : dirent :=
  dirent_of (fbytes v ip (16 * Z.of_nat k) 16).
Definition dir_entries (v : Z -> list Z) (ip : inode) : list dirent :=
  dir_entry v ip <$> seq 0 (Z.to_nat (i_size ip / 16)).

Definition names (name : list Z) (e : dirent) : Prop := de_inum e <> 0 /\ cname name = cname (de_name e).

#[export] Instance names_dec name e : Decision (names name e).
Proof. unfold names. apply _. Defined.

(** The entry with the name, and its inode. *)
Definition find_entry (name : list Z) (es : list dirent) : option (nat * dirent) := list_find (names name) es.
Definition lookup_name (name : list Z) (es : list dirent) : option Z :=
  (fun p => de_inum p.2) <$> find_entry name es.

Lemma namecmp_cname s t : (namecmp s t =? 0) = bool_decide (cname s = cname t).
Proof.
  symmetry. unfold namecmp, cname. destruct (Z.eqb_spec (strncmp DIRSIZ (bytes s) (bytes t)) 0) as [E|E].
  - apply bool_decide_eq_true. by apply strncmp_zero.
  - apply bool_decide_eq_false. intros E'. by apply E, strncmp_zero.
Qed.

(** The first free entry, or the end. *)
Fixpoint first_free (es : list dirent) : nat :=
  match es with
  | [] => 0
  | e :: es' => if de_inum e =? 0 then 0 else Datatypes.S (first_free es')
  end.

(** Putting [e] there. *)
Fixpoint link (e : dirent) (es : list dirent) : list dirent :=
  match es with
  | [] => [e]
  | x :: es' => if de_inum x =? 0 then e :: es' else x :: link e es'
  end.

Lemma first_free_le es : (first_free es <= length es)%nat.
Proof. induction es as [|e es IH]; cbn; [done|]. destruct (de_inum e =? 0); lia. Qed.

Lemma link_lookup e es k :
  link e es !! k = if decide (k = first_free es) then Some e else es !! k.
Proof.
  revert k. induction es as [|x es IH]; intros [|k]; cbn [link first_free]; try destruct (de_inum x =? 0); cbn; try done.
  rewrite IH. repeat case_decide; done || lia.
Qed.

Lemma length_link e es : length (link e es) = Nat.max (length es) (Datatypes.S (first_free es)).
Proof.
  induction es as [|x es IH]; cbn [link first_free]; [done|]. destruct (de_inum x =? 0); cbn [length]; [|rewrite IH]; lia.
Qed.

(** Linking is insertion into the map. *)
Lemma lookup_link name name' e es :
  lookup_name name es = None -> de_inum e <> 0 -> cname (de_name e) = cname name ->
  lookup_name name' (link e es) = if decide (cname name' = cname name) then Some (de_inum e) else lookup_name name' es.
Proof.
  intros Hn He Hc. unfold lookup_name, find_entry in *.
  assert (Hin : names name' e <-> cname name' = cname name) by (unfold names; rewrite Hc; tauto).
  induction es as [|x es IH]; cbn [link list_find] in *.
  - repeat case_decide; tauto || done.
  - destruct (Z.eqb_spec (de_inum x) 0) as [Hx|Hx]; cbn [list_find].
    + assert (~ names name' x) as Hx' by (by intros [? _]). rewrite (decide_False (P := names name' x)) by done.
      repeat case_decide; tauto || done || by destruct (list_find _ es).
    + destruct (decide (names name x)) as [|Hnx]; [done|].
      destruct (list_find (names name) es); [discriminate Hn|]. specialize (IH eq_refl).
      destruct (decide (names name' x)) as [Hx'|].
      * case_decide as E; [|reflexivity]. destruct Hnx. unfold names in *. by rewrite <- E.
      * destruct (list_find (names name') (link e es)) as [[]|], (list_find (names name') es) as [[]|]; exact IH.
Qed.

(** ** The entry that [dirlink] writes *)

Definition new_entry (name : list Z) (inum : Z) : dirent := mk_dirent inum (strncpy_bytes DIRSIZ (bytes name)).

Lemma cstr_strncpy n p : cstr n (bytes (strncpy_bytes n p)) = cstr n p.
Proof.
  revert p. induction n as [|n IH]; intros p; [done|]. unfold strncpy_bytes. cbn [cstr].
  destruct (Z.eqb_spec (p 0%nat) 0) as [E|E]; cbn; [done|].
  destruct (Z.eqb_spec (p 0%nat) 0); [done|]. f_equal. exact (IH (next_char p)).
Qed.

Lemma length_strncpy n p : length (strncpy_bytes n p) = n.
Proof. unfold strncpy_bytes. rewrite length_app, length_replicate. pose proof (cstr_length n p). lia. Qed.

Lemma cname_new name inum : cname (de_name (new_entry name inum)) = cname name.
Proof. apply cstr_strncpy. Qed.

Lemma length_dirent_bytes name inum : length (dirent_bytes (new_entry name inum)) = 16%nat.
Proof. unfold dirent_bytes. rewrite length_app, length_put16. cbn [de_name new_entry]. by rewrite length_strncpy. Qed.

Lemma dirent_of_bytes name inum :
  0 <= inum < 2 ^ 16 -> dirent_of (dirent_bytes (new_entry name inum)) = new_entry name inum.
Proof.
  intros Hi. unfold dirent_of, dirent_bytes, new_entry. cbn [de_inum de_name]. set (t := strncpy_bytes DIRSIZ (bytes name)).
  assert (length t = DIRSIZ) as Ht by apply length_strncpy. f_equal.
  - transitivity (get16 (put16 [0; 0] 0 inum) 0); [reflexivity|]. apply get16_put16_eq; [cbn; lia|done].
  - unfold slice. change (drop 2 (put16 [0; 0] 0 inum ++ t)) with t. by rewrite <- Ht, firstn_all.
Qed.

(** ** Reading a directory *)

Record dir_ok (v : Z -> list Z) (x : superblock) (ip : inode) : Prop := {
  do_file : file_ok v x ip;
  do_type : i_type ip = T_DIR;
  do_size : 0 <= i_size ip <= MAXFILE * BS;
  do_dense : dense v ip (i_size ip);
  do_entries : i_size ip `mod` 16 = 0
}.

Lemma dir_length v x ip : dir_ok v x ip -> i_size ip = 16 * Z.of_nat (length (dir_entries v ip)).
Proof.
  intros [_ _ Hs _ Hm]. unfold dir_entries. rewrite length_fmap, length_seq.
  pose proof (Z.div_mod (i_size ip) 16). pose proof (Z.div_pos (i_size ip) 16). lia.
Qed.

Lemma dir_lookup v ip k : (k < length (dir_entries v ip))%nat -> dir_entries v ip !! k = Some (dir_entry v ip k).
Proof.
  unfold dir_entries. rewrite length_fmap, length_seq. intros Hk. rewrite list_lookup_fmap, lookup_seq_lt by done. done.
Qed.

Section Dirs.
Context {S : Type} `{TxDiskSpec S}.
Variable dev_read : Z -> option (nat -> Z -> M (fsst S) (Z * list Z)).

Lemma with_dev_twice d d' (s : fsst S) : with_dev d (with_dev d' s) = with_dev d s.
Proof. done. Qed.

Lemma read_entry_ok (s : fsst S) v l i ip k :
  blocks_ok s v ∅ l -> fits (tgeo (fdev s)) ∅ l 1 -> inodes s !! i = Some ip -> dir_ok v (sb s) ip ->
  (k < length (dir_entries v ip))%nat ->
  exists d, runs (readi dev_read i (16 * Z.of_nat k) DIRENT_SIZE) s [] (16, fbytes v ip (16 * Z.of_nat k) 16) (with_dev d s)
    /\ blocks_ok (with_dev d s) v ∅ l /\ tgeo d = tgeo (fdev s).
Proof.
  intros B Hf Hi D Hk. pose proof (dir_length _ _ _ D) as Hl. destruct D as [F Ht Hs Hd Hm].
  change (MAXFILE * BS) with 71680 in *. unfold DIRENT_SIZE.
  destruct (readi_ok dev_read s v l i ip (16 * Z.of_nat k) 16) as (d & E & B' & Hg); auto; try lia; [by rewrite Ht|].
  assert (read_count (i_size ip) (16 * Z.of_nat k) 16 = 16) as Hc by (unfold read_count; zcase; lia).
  rewrite Hc in E. by exists d.
Qed.

Lemma dirlookup_end fuel (s : fsst S) i ip name off :
  inodes s !! i = Some ip -> i_size ip <= off -> runs (dirlookup_loop dev_read fuel i name off) s [] None s.
Proof.
  intros Hi Hs. destruct fuel; (eapply runs_bind_nil; [by apply runs_ino|]);
    (destruct (Z.ltb_spec off (i_size ip)); [lia|apply runs_ret]).
Qed.

(** One turn of the scan, at an entry with another name or at the one looked for. *)
Lemma dirlookup_turn fuel (s : fsst S) v l i ip name k :
  blocks_ok s v ∅ l -> fits (tgeo (fdev s)) ∅ l 1 -> inodes s !! i = Some ip -> dir_ok v (sb s) ip ->
  (k < length (dir_entries v ip))%nat ->
  exists d, blocks_ok (with_dev d s) v ∅ l /\ tgeo d = tgeo (fdev s) /\
    if decide (names name (dir_entry v ip k)) then
      forall j s', runs (iget ROOTDEV (de_inum (dir_entry v ip k))) (with_dev d s) [] j s' ->
        runs (dirlookup_loop dev_read (Datatypes.S fuel) i name (16 * Z.of_nat k)) s [] (Some (j, 16 * Z.of_nat k)) s'
    else
      forall r s', runs (dirlookup_loop dev_read fuel i name (16 * Z.of_nat (Datatypes.S k))) (with_dev d s) [] r s' ->
        runs (dirlookup_loop dev_read (Datatypes.S fuel) i name (16 * Z.of_nat k)) s [] r s'.
Proof.
  intros B Hf Hi D Hk. pose proof (dir_length _ _ _ D) as Hl.
  destruct (read_entry_ok s v l i ip k B Hf Hi D Hk) as (d & E & B1 & Hg). exists d. split; [done|]. split; [done|].
  replace (16 * Z.of_nat (Datatypes.S k)) with (16 * Z.of_nat k + DIRENT_SIZE) by (unfold DIRENT_SIZE; lia).
  case_decide as Hn; intros j s' Hr; cbn [dirlookup_loop]; (eapply runs_bind_nil; [by apply runs_ino|]);
    (destruct (Z.ltb_spec (16 * Z.of_nat k) (i_size ip)); [|lia]); (eapply runs_bind_nil; [exact E|]); cbn beta iota;
    fold (dir_entry v ip k); change (negb (16 =? DIRENT_SIZE)) with false; cbv zeta iota;
    (destruct (Z.eqb_spec (de_inum (dir_entry v ip k)) 0) as [E0|E0]; [first [exact Hr|by destruct Hn]|]); rewrite namecmp_cname.
  - rewrite bool_decide_true by apply Hn. eapply runs_bind_nil; [by apply (runs_ino (with_dev d s))|].
    rewrite (fo_dev _ _ _ (do_file _ _ _ D)). eapply runs_bind_nil; [exact Hr|]. apply runs_ret.
  - rewrite bool_decide_false; [exact Hr|]. intros ?. by apply Hn.
Qed.

(** The scan from entry [k]. *)
Lemma dirlookup_loop_ok fuel (s : fsst S) v l i ip name k :
  blocks_ok s v ∅ l -> fits (tgeo (fdev s)) ∅ l 1 -> inodes s !! i = Some ip -> dir_ok v (sb s) ip ->
  (length (dir_entries v ip) <= k + fuel)%nat ->
  exists d, blocks_ok (with_dev d s) v ∅ l /\ tgeo d = tgeo (fdev s) /\
    match find_entry name (drop k (dir_entries v ip)) with
    | None => runs (dirlookup_loop dev_read fuel i name (16 * Z.of_nat k)) s [] None (with_dev d s)
    | Some (m, e) => forall j s', runs (iget ROOTDEV (de_inum e)) (with_dev d s) [] j s' ->
        runs (dirlookup_loop dev_read fuel i name (16 * Z.of_nat k)) s [] (Some (j, 16 * Z.of_nat (k + m))) s'
    end.
Proof.
  revert s k. induction fuel as [|fuel IH]; intros s k B Hf Hi D Hk; pose proof (dir_length _ _ _ D) as Hl;
    (destruct (decide (length (dir_entries v ip) <= k)%nat) as [Hge|Hlt];
     [rewrite drop_ge by lia; exists (fdev s); destruct s; split; [done|]; split; [done|];
      apply (dirlookup_end _ _ i ip); [done|lia]|]); [lia|].
  destruct (dirlookup_turn fuel s v l i ip name k B Hf Hi D) as (d & B1 & Hg & Hturn); [lia|].
  rewrite (drop_S _ _ _ (dir_lookup v ip k ltac:(lia))). unfold find_entry. cbn [list_find]. case_decide as Hn.
  - exists d. split; [done|]. split; [done|]. by rewrite Nat.add_0_r.
  - destruct (IH (with_dev d s) (Datatypes.S k)) as (d' & B' & Hg' & Hrest); auto; [cbn; by rewrite Hg|lia|].
    exists d'. split; [exact B'|]. split; [cbn in Hg'; congruence|]. unfold find_entry in Hrest.
    destruct (list_find (names name) _) as [[m e]|]; cbn.
    + intros j s' Hj. apply Hturn. rewrite Nat.add_succ_r. exact (Hrest j s' Hj).
    + by apply Hturn.
Qed.

Lemma entries_enough v x ip : dir_ok v x ip -> (length (dir_entries v ip) <= 0 + entries ip)%nat.
Proof.
  intros D. pose proof (dir_length _ _ _ D) as Hl. unfold entries, DIRENT_SIZE. rewrite Hl.
  rewrite Z.mul_comm, Z.div_mul by lia. lia.
Qed.

(** [dirlookup] finds the first entry with the name; what remains is [iget]. *)
Lemma dirlookup_ok (s : fsst S) v l i ip name :
  blocks_ok s v ∅ l -> fits (tgeo (fdev s)) ∅ l 1 -> inodes s !! i = Some ip -> dir_ok v (sb s) ip ->
  exists d, blocks_ok (with_dev d s) v ∅ l /\ tgeo d = tgeo (fdev s) /\
    match find_entry name (dir_entries v ip) with
    | None => runs (dirlookup dev_read i name) s [] None (with_dev d s)
    | Some (k, e) => forall j s', runs (iget ROOTDEV (de_inum e)) (with_dev d s) [] j s' ->
        runs (dirlookup dev_read i name) s [] (Some (j, 16 * Z.of_nat k)) s'
    end.
Proof.
  intros B Hf Hi D.
  destruct (dirlookup_loop_ok (entries ip) s v l i ip name 0 B Hf Hi D (entries_enough _ _ _ D)) as (d & B1 & Hg & Hr).
  exists d. split; [done|]. split; [done|]. rewrite drop_0 in Hr.
  assert (Hpre : forall r s', runs (dirlookup_loop dev_read (entries ip) i name 0) s [] r s' -> runs (dirlookup dev_read i name) s [] r s').
  { intros r s' E. unfold dirlookup. eapply runs_bind_nil; [by apply runs_ino|]. by rewrite (do_type _ _ _ D). }
  destruct (find_entry name (dir_entries v ip)) as [[m e]|]; [|by apply Hpre]. intros j s' Hj. apply Hpre. by apply Hr.
Qed.

(** ** The free entry *)

Lemma dirlink_scan_ok fuel (s : fsst S) v l i ip k :
  blocks_ok s v ∅ l -> fits (tgeo (fdev s)) ∅ l 1 -> inodes s !! i = Some ip -> dir_ok v (sb s) ip ->
  (k <= length (dir_entries v ip) <= k + fuel)%nat ->
  exists d, blocks_ok (with_dev d s) v ∅ l /\ tgeo d = tgeo (fdev s) /\
    runs (dirlink_scan dev_read fuel i (16 * Z.of_nat k)) s [] (16 * Z.of_nat (k + first_free (drop k (dir_entries v ip)))) (with_dev d s).
Proof.
  revert s k. induction fuel as [|fuel IH]; intros s k B Hf Hi D Hk; pose proof (dir_length _ _ _ D) as Hl;
    (destruct (decide (length (dir_entries v ip) <= k)%nat) as [Hge|Hlt];
     [rewrite drop_ge by lia; cbn [first_free]; rewrite Nat.add_0_r; exists (fdev s); destruct s; split; [done|]; split; [done|];
      (eapply runs_bind_nil; [by apply runs_ino|]);
      (destruct (Z.ltb_spec (16 * Z.of_nat k) (i_size ip)); [lia|apply runs_ret])|]); [lia|].
  destruct (read_entry_ok s v l i ip k B Hf Hi D) as (d & E & B1 & Hg); [lia|].
  rewrite (drop_S _ _ _ (dir_lookup v ip k ltac:(lia))). cbn [first_free dirlink_scan].
  destruct (Z.eqb_spec (de_inum (dir_entry v ip k)) 0) as [E0|E0].
  - exists d. split; [done|]. split; [done|]. rewrite Nat.add_0_r. eapply runs_bind_nil; [by apply runs_ino|].
    destruct (Z.ltb_spec (16 * Z.of_nat k) (i_size ip)); [|lia]. eapply runs_bind_nil; [exact E|]. cbn beta iota.
    fold (dir_entry v ip k). rewrite E0. apply runs_ret.
  - destruct (IH (with_dev d s) (Datatypes.S k)) as (d' & B' & Hg' & Hrest); auto; [cbn; by rewrite Hg|lia|].
    exists d'. split; [exact B'|]. split; [cbn in Hg'; congruence|]. eapply runs_bind_nil; [by apply runs_ino|].
    destruct (Z.ltb_spec (16 * Z.of_nat k) (i_size ip)); [|lia]. eapply runs_bind_nil; [exact E|]. cbn beta iota.
    fold (dir_entry v ip k). change (negb (16 =? DIRENT_SIZE)) with false. cbv iota.
    destruct (Z.eqb_spec (de_inum (dir_entry v ip k)) 0); [done|].
    replace (16 * Z.of_nat k + DIRENT_SIZE) with (16 * Z.of_nat (Datatypes.S k)) by (unfold DIRENT_SIZE; lia).
    rewrite Nat.add_succ_r. exact Hrest.
Qed.
End Dirs.

(** ** Adding an entry *)

Lemma byte_range_eq v ip v' ip' off n :
  (forall o, off <= o < off + Z.of_nat n -> content v' ip' o = content v ip o) -> fbytes v' ip' off n = fbytes v ip off n.
Proof. intros Hc. unfold fbytes. apply list_fmap_ext. intros k o Ho%list_elem_of_lookup_2%elem_of_zrange. apply Hc. lia. Qed.

(** What a write of one entry at the free place does to the entries. *)
Lemma entries_written v x ip v' ip' src :
  dir_ok v x ip -> let es := dir_entries v ip in let off := 16 * Z.of_nat (first_free es) in
  length src = 16%nat -> off + 16 <= MAXFILE * BS -> i_size ip' = Z.max (i_size ip) (off + 16) ->
  (forall o, 0 <= o < MAXFILE * BS ->
    content v' ip' o = if (off <=? o) && (o <? off + Z.of_nat (length src)) then nth (Z.to_nat (o - off)) src 0 else content v ip o) ->
  dir_entries v' ip' = link (dirent_of src) es.
Proof.
  intros D es off Hsrc Hmax Hsz Hc. pose proof (dir_length _ _ _ D) as Hl. fold es in Hl. pose proof (first_free_le es) as Hff.
  pose proof (do_size _ _ _ D) as Hs. change (MAXFILE * BS) with 71680 in *.
  assert (length (dir_entries v' ip') = length (link (dirent_of src) es)) as Hlen.
  { rewrite length_link. unfold dir_entries. rewrite length_fmap, length_seq, Hsz, Hl. unfold off.
    replace (Z.max (16 * Z.of_nat (length es)) (16 * Z.of_nat (first_free es) + 16))
      with (Z.of_nat (Nat.max (length es) (Datatypes.S (first_free es))) * 16) by lia.
    rewrite Z.div_mul by lia. lia. }
  apply list_eq_same_length with (n := length (link (dirent_of src) es)); [done|done|].
  intros k a b Hk Ea Eb. rewrite dir_lookup in Ea by lia. injection Ea as <-. rewrite link_lookup in Eb.
  rewrite length_link in Hk. unfold dir_entry. case_decide as Ek.
  - injection Eb as <-. subst k. fold off. assert (16%nat = Z.to_nat (Z.of_nat (length src))) as -> by (by rewrite Hsrc).
    f_equal. apply (fbytes_written v ip); [lia|].
    intros o Ho. apply Hc. rewrite Hsrc in Ho. lia.
  - unfold es in Eb. rewrite dir_lookup in Eb by (fold es; lia). injection Eb as <-. unfold dir_entry. f_equal.
    apply byte_range_eq. intros o Ho. rewrite Hc by lia. rewrite Hsrc. unfold off. zcase; done.
Qed.

Section Link.
Context {S : Type} `{TxDiskSpec S}.
Variable dev_read : Z -> option (nat -> Z -> M (fsst S) (Z * list Z)).
Variable dev_write : Z -> option (nat -> list Z -> Z -> M (fsst S) Z).

(** A directory that is open and locked. *)
Record open_dir (s : fsst S) (v : Z -> list Z) (l : gset Z) (R : gmap Z Z) (i : nat) (ip : inode) : Prop := {
  od_cached : cached s v l R (Some i);
  od_file : open_file s v l i ip;
  od_dir : dir_ok v (sb s) ip;
  od_linked : forall e, e ∈ dir_entries v ip -> de_inum e <> 0 -> linked v (sb s) (de_inum e)
}.

Lemma find_entry_elem name es k e : find_entry name es = Some (k, e) -> e ∈ es /\ names name e.
Proof. intros (Hk & Hn & _)%list_find_Some. split; [by eapply list_elem_of_lookup_2|done]. Qed.

(** The name is there: the inode found is put back. *)
Lemma dirlink_found (s : fsst S) v l R i ip name inum :
  open_dir s v l R i ip -> fits (tgeo (fdev s)) ∅ l 1 -> (size R < length (inodes s))%nat ->
  lookup_name name (dir_entries v ip) <> None ->
  exists s', runs (dirlink dev_read dev_write i name inum) s [] (-1) s' /\ cached s' v l R (Some i).
Proof.
  intros [C O D Hlk] Hf Hroom Hn. destruct (dirlookup_ok dev_read s v l i ip name (ca_blocks _ _ _ _ _ C) Hf (of_inode _ _ _ _ _ O) D)
    as (d & B1 & Hg & Hr).
  unfold lookup_name in Hn. destruct (find_entry name (dir_entries v ip)) as [[k e]|] eqn:E; [|done].
  destruct (find_entry_elem _ _ _ _ E) as [Hin [He _]]. specialize (Hlk e Hin He).
  destruct (iget_ok (with_dev d s) v l R (Some i) (de_inum e)) as (j & s1 & ip1 & E1 & C1 & En1 & Hl1 & Hs1 & _); auto.
  { apply (cached_dev s); auto. apply B1. }
  destruct (iput_ok s1 v l (grab (de_inum e) R) (Some i) j (de_inum e) ip1 C1 En1) as (s2 & E2 & C2 & _); auto.
  { by rewrite Hs1. }
  rewrite put_grab in C2 by apply (icache_positive (inodes s)), C. exists s2. split; [|done].
  unfold dirlink. eapply runs_bind_nil; [exact (Hr j s1 E1)|]. eapply runs_bind_nil; [exact E2|]. apply runs_ret.
Qed.

Lemma touched_entry k : touched (16 * Z.of_nat k) 16 = 1%nat.
Proof.
  unfold touched. change BS with 512. replace (16 * Z.of_nat k) with (Z.of_nat k * 16) by lia.
  change 512 with (32 * 16) at 1. rewrite Z.mul_mod_distr_r by lia.
  pose proof (Z.mod_pos_bound (Z.of_nat k) 32 ltac:(lia)).
  replace (Z.of_nat k `mod` 32 * 16 + 16 + 512 - 1) with (Z.of_nat k `mod` 32 * 16 + 15 + 1 * 512) by lia.
  rewrite Z.div_add, Z.div_small by lia. done.
Qed.

(** The name is not there: the entry is written to the first free place. *)
Lemma dirlink_new (s : fsst S) v l R i ip name inum :
  open_dir s v l R i ip -> let es := dir_entries v ip in
  lookup_name name es = None -> 0 < inum < 2 ^ 16 -> 16 * Z.of_nat (first_free es) + 16 <= MAXFILE * BS ->
  budget (tgeo (fdev s)) (sb s) ip l 2 -> (2 <= size (free_set v (sb s)))%nat ->
  exists s' v' ip' l', runs (dirlink dev_read dev_write i name inum) s [] 0 s' /\
    open_file s' v' l' i ip' /\ dir_ok v' (sb s') ip' /\ dir_entries v' ip' = link (new_entry name inum) es /\
    after_write s v i ip s' v' ip' (16 * Z.of_nat (first_free es)) (dirent_bytes (new_entry name inum)).
Proof.
  intros [C O D Hlk] es Hn Hin Hmax Hbud Hfree. set (off := 16 * Z.of_nat (first_free es)).
  assert (fits (tgeo (fdev s)) ∅ l 1) as Hf by (apply budget_fits in Hbud; unfold fits in *; lia).
  destruct (dirlookup_ok dev_read s v l i ip name (ca_blocks _ _ _ _ _ C) Hf (of_inode _ _ _ _ _ O) D) as (d & B1 & Hg & Hr).
  unfold lookup_name in Hn. fold es in Hr. destruct (find_entry name es) as [[k e]|]; [done|].
  destruct (dirlink_scan_ok dev_read (entries ip) (with_dev d s) v l i ip 0 B1) as (d2 & B2 & Hg2 & Hr2); auto.
  { cbn. by rewrite Hg. } { apply O. } { split; [lia|]. by apply (entries_enough v (sb s)). }
  rewrite drop_0, Nat.add_0_l, with_dev_twice in *. fold es off in Hr2. cbn in Hg2.
  pose proof (dir_length _ _ _ D) as Hl. fold es in Hl. pose proof (first_free_le es) as Hff.
  assert (open_file (with_dev d2 s) v l i ip) as O2 by (destruct O; by constructor).
  set (src := dirent_bytes (new_entry name inum)). assert (length src = 16%nat) as Hsrc by apply length_dirent_bytes.
  destruct (writei_after dev_write (with_dev d2 s) v l i ip src off O2) as (s' & v' & ip' & l' & E & O' & A & _); rewrite ?Hsrc; auto.
  { unfold off. lia. }
  { change (Z.of_nat 16) with 16. unfold off. rewrite touched_entry. cbn. by rewrite Hg2, Hg. }
  { change (Z.of_nat 16) with 16. unfold off. rewrite touched_entry. done. }
  rewrite Hsrc in E. pose proof (aw_inode _ _ _ _ _ _ _ _ _ A) as Hip. rewrite Hsrc in Hip.
  exists s', v', ip', l'. split; [|split; [done|]].
  - unfold dirlink. eapply runs_bind_nil; [exact Hr|]. eapply runs_bind_nil; [apply (runs_ino (with_dev d s)); apply O|].
    eapply runs_bind_nil; [exact Hr2|]. eapply runs_bind_nil; [exact E|]. apply runs_ret.
  - assert (dir_entries v' ip' = link (new_entry name inum) es) as Hes.
    { rewrite <- dirent_of_bytes by lia. apply (entries_written v (sb s) ip); auto.
      - by rewrite Hip.
      - apply A. }
    split; [|split; [done|]].
    + constructor; [exact (of_file _ _ _ _ _ O')| | |exact (of_dense _ _ _ _ _ O')|].
      * rewrite Hip. exact (do_type _ _ _ D).
      * split; [apply (if_size _ (of_fits _ _ _ _ _ O'))|apply O'].
      * rewrite Hip. cbn [i_size set_isize]. rewrite Hl. unfold off.
        replace (Z.max _ _) with (Z.of_nat (Nat.max (length es) (Datatypes.S (first_free es))) * 16) by lia.
        by rewrite Z.mod_mul.
    + destruct A as [A1 A2 A3 A4 A5 A6 A7]. constructor; auto. cbn in A3. by rewrite A3, Hg2, Hg.
Qed.
End Link.

(** ** The theorem *)

(** C26: a directory is a map from names to inodes.  For an open directory
    [dirlink] refuses a name that is there, leaving the cache of inodes as it was;
    otherwise it writes the entry to the first free place, and afterwards the lookup
    of that name, as [dirlookup] compares names, gives the new inode and the lookup of
    every other name what it gave before; other files keep their contents. *)
Theorem dirlink_spec {S} `{TxDiskSpec S} dev_read dev_write (s : fsst S) v l R i ip name inum :
  open_dir s v l R i ip -> 0 < inum < 2 ^ 16 -> (size R < length (inodes s))%nat ->
  16 * Z.of_nat (first_free (dir_entries v ip)) + 16 <= MAXFILE * BS ->
  budget (tgeo (fdev s)) (sb s) ip l 2 -> (2 <= size (free_set v (sb s)))%nat ->
  match lookup_name name (dir_entries v ip) with
  | Some _ => exists s', runs (dirlink dev_read dev_write i name inum) s [] (-1) s' /\ cached s' v l R (Some i)
  | None => exists s' v' ip' l', runs (dirlink dev_read dev_write i name inum) s [] 0 s' /\
      open_file s' v' l' i ip' /\ dir_ok v' (sb s') ip' /\
      (forall name', lookup_name name' (dir_entries v' ip') =
         if decide (cname name' = cname name) then Some inum else lookup_name name' (dir_entries v ip)) /\
      (forall ip2, file_ok v (sb s) ip2 -> (forall n, owned v ip2 n -> ~ owned v ip n) ->
         forall o, 0 <= o < MAXFILE * BS -> content v' ip2 o = content v ip2 o)
  end.
Proof.
  intros O Hin Hroom Hmax Hbud Hfree. destruct (lookup_name name (dir_entries v ip)) as [n|] eqn:E.
  - apply (dirlink_found dev_read dev_write s v l R i ip); auto; [|by rewrite E].
    apply budget_fits in Hbud. unfold fits in *. lia.
  - destruct (dirlink_new dev_read dev_write s v l R i ip name inum O E Hin Hmax Hbud Hfree)
      as (s' & v' & ip' & l' & E1 & O' & D' & Hes & A).
    exists s', v', ip', l'. do 3 (split; [done|]). split.
    + intros name'. rewrite Hes. apply lookup_link; [done|cbn; lia|apply cname_new].
    + intros ip2 F Hd. exact (proj2 (aw_files _ _ _ _ _ _ _ _ _ A ip2 F Hd)).
Qed.

(** ** The root directory of a new file system *)

Definition root_block : list Z := Eval vm_compute in drv_sector new_disk nmeta.

Lemma root_block_eq : drv_sector new_disk nmeta = root_block.
Proof. vm_compute. reflexivity. Qed.

Definition root_entries : list dirent :=
  Eval vm_compute in (fun k => dirent_of (slice root_block (16 * k) 16)) <$> seq 0 32.

Lemma root_dir_entries : dir_entries (drv_sector new_disk) root_inode = root_entries.
Proof.
  transitivity ((fun k => dirent_of (slice root_block (16 * k) 16)) <$> seq 0 32); [|vm_compute; reflexivity].
  unfold dir_entries. change (Z.to_nat (i_size root_inode / 16)) with 32%nat. apply list_fmap_ext.
  intros i k Hk%list_elem_of_lookup_2%elem_of_seq. unfold dir_entry. f_equal.
  assert (0 <= 16 * Z.of_nat k < BS) as Ho by (change BS with 512; lia).
  pose proof (slice_content (drv_sector new_disk) root_inode (16 * Z.of_nat k) 16) as K.
  cbv zeta in K. rewrite Z.div_small, Z.mod_small, root_faddr in K by (done || lia).
  change (if 0 =? 0 then nmeta else 0) with nmeta in K. rewrite root_block_eq in K.
  replace (Z.to_nat (16 * Z.of_nat k)) with (16 * k)%nat in K by lia. symmetry. apply K; [lia|lia| |done|done].
  change BS with 512. lia.
Qed.

Lemma root_cached : exists s : logst (bio memide),
  open_dir (root_fs s) (drv_sector new_disk) ∅ {[ROOTINO := 1]} 0 root_inode /\ tgeo s = new_geom.
Proof.
  destruct root_open as (s & O & Hg). exists s. split; [|done].
  assert (linked (drv_sector new_disk) mk_super ROOTINO) as Hl.
  { split; [split; [discriminate|reflexivity]|]. split; vm_compute; discriminate. }
  assert (Hns : forall j ip, inodes (root_fs s) !! j = Some ip -> i_ref ip <> 0 -> j = 0%nat /\ ip = root_inode).
  { intros [|j] ip E; [by injection E as <-|]. cbn [inodes root_fs] in E. rewrite list_lookup_insert_ne in E by done.
    apply lookup_replicate_1 in E as [-> _]. done. }
  constructor; [|exact O| |].
  - constructor; [exact (of_blocks _ _ _ _ _ O)|reflexivity| | |].
    + constructor.
      * intros j ip Hj Hr. destruct (Hns j ip Hj Hr) as [-> ->]. split; [reflexivity|]. split; [reflexivity|].
        apply (lookup_singleton_eq ROOTINO 1).
      * intros n r [<- <-]%lookup_singleton_Some. exists 0%nat, root_inode. split; [reflexivity|]. split; [discriminate|reflexivity].
      * intros j k x y Hj Hk Hx Hy _. destruct (Hns j x Hj Hx) as [-> _], (Hns k y Hk Hy) as [-> _]. done.
    + intros j ip Hj Hr _. destruct (Hns j ip Hj Hr) as [-> ->]. split; [reflexivity|]. intros _. vm_compute. reflexivity.
    + intros j [= <-]. exists root_inode. split; [reflexivity|discriminate].
  - constructor; [exact (of_file _ _ _ _ _ O)|reflexivity|split; discriminate|exact (of_dense _ _ _ _ _ O)|reflexivity].
  - intros e He Hne. rewrite root_dir_entries in He.
    assert (forallb (fun e => (de_inum e =? 0) || (de_inum e =? ROOTINO)) root_entries = true) as Ha by reflexivity.
    rewrite forallb_forall in Ha. specialize (Ha e ltac:(by apply list_elem_of_In)).
    destruct (Z.eqb_spec (de_inum e) 0); [done|]. apply Z.eqb_eq in Ha. rewrite Ha. exact Hl.
Qed.

Lemma dirlink_spec_witness :
  exists (s s' : fsst (logst (bio memide))) v' ip', runs (dirlink (fun _ => None) (fun _ => None) 0 [102] 7) s [] 0 s' /\
    lookup_name [102] (dir_entries v' ip') = Some 7 /\ lookup_name [46] (dir_entries v' ip') = Some ROOTINO.
Proof.
  destruct root_cached as (s & O & Hg).
  pose proof (dirlink_spec (fun _ => None) (fun _ => None) (root_fs s) _ _ _ 0 root_inode [102] 7 O) as D.
  assert (lookup_name [102] (dir_entries (drv_sector new_disk) root_inode) = None) as E
    by (rewrite root_dir_entries; vm_compute; reflexivity).
  rewrite E in D. destruct D as (s' & v' & ip' & l' & E1 & _ & _ & Hn & _).
  - lia.
  - rewrite map_size_singleton. cbn [inodes root_fs]. rewrite length_insert, length_replicate. unfold NINODE. lia.
  - rewrite root_dir_entries. vm_compute. discriminate.
  - change (tgeo (fdev (root_fs s))) with (tgeo s). rewrite Hg. apply root_budget. lia.
  - transitivity 20%nat; [lia|exact root_free].
  - exists (root_fs s), s', v', ip'. split; [exact E1|]. rewrite !Hn, root_dir_entries.
    split; vm_compute; reflexivity.
Defined.
