(* ===== verification/Paths.v ===== *)
(** * Paths: [skipelem], [namex], [namei] and [nameiparent] of fs.c

    A path is a list of names; resolving it is a walk through the directories on
    disk.  The code does it with the inode cache, locking one inode at a time. *)

From stdpp Require Import base numbers list gmap strings.
From S2P Require Import Prelude Bytes Mem Str Buf Memide Bio Bcache Log LogCrash Tx Recovery Fs TxSpec FsBlock FsFile FsRw FsInode Mkfs FsImage Files Icache Dirs.

Open Scope Z_scope.

(** ** The elements of a path *)

(** The pieces between slashes. *)
Fixpoint pieces (path : list Z) : list (list Z) :=
  match path with
  | [] => [[]]
  | c :: rest =>
      if c =? SLASH then [] :: pieces rest
      else match pieces rest with p :: ps => (c :: p) :: ps | [] => [[c]] end
  end.

Definition elems (path : list Z) : list (list Z) := filter (fun p => p <> []) (pieces path).

Lemma elems_slash rest : elems (SLASH :: rest) = elems rest.
Proof. done. Qed.

Lemma elems_skip path : elems (skip_slashes path) = elems path.
Proof.
  induction path as [|c rest IH]; [done|]. cbn [skip_slashes]. destruct (Z.eqb_spec c SLASH) as [->|]; [|done].
  by rewrite elems_slash.
Qed.

Lemma pieces_nonempty path : exists p ps, pieces path = p :: ps.
Proof. induction path as [|c rest (p & ps & IH)]; cbn; [eauto|]. rewrite IH. case_match; eauto. Qed.

(** Cutting off the first piece. *)
Lemma pieces_take path : pieces path =
  (take_elem path).1 :: match (take_elem path).2 with [] => [] | _ :: r => pieces r end.
Proof.
  induction path as [|c rest IH]; [done|]. cbn [pieces take_elem]. destruct (Z.eqb_spec c SLASH); [done|].
  rewrite IH. by destruct (take_elem rest).
Qed.

Lemma take_elem_rest path : match (take_elem path).2 with [] => True | c :: _ => c = SLASH end.
Proof.
  induction path as [|c rest IH]; [done|]. cbn [take_elem]. destruct (Z.eqb_spec c SLASH); [done|].
  by destruct (take_elem rest).
Qed.

Lemma elems_take path :
  elems path = (if decide ((take_elem path).1 = []) then [] else [(take_elem path).1]) ++ elems (take_elem path).2.
Proof.
  unfold elems at 1. rewrite pieces_take. pose proof (take_elem_rest path) as Hr.
  assert (filter (fun p => p <> []) (match (take_elem path).2 with [] => [] | _ :: r => pieces r end) = elems (take_elem path).2) as E.
  { destruct (take_elem path).2 as [|c r]; [done|]. by rewrite Hr, elems_slash. }
  rewrite filter_cons, E. repeat case_decide; done || tauto.
Qed.

(** What [skip_slashes] leaves does not start with a slash. *)
Lemma skip_slashes_head path c r : skip_slashes path = c :: r -> c <> SLASH.
Proof.
  induction path as [|d p IH]; [done|]. cbn [skip_slashes]. destruct (Z.eqb_spec d SLASH); [done|]. congruence.
Qed.

Lemma elems_head c r : c <> SLASH -> exists e es, elems (c :: r) = e :: es /\ e <> [].
Proof.
  intros Hc. rewrite elems_take. cbn [take_elem]. destruct (Z.eqb_spec c SLASH); [done|].
  destruct (take_elem r) as [e q]. cbn. rewrite decide_False by done. by exists (c :: e), (elems q).
Qed.

Lemma skip_slashes_elems path : skip_slashes path = [] <-> elems path = [].
Proof.
  rewrite <- elems_skip. destruct (skip_slashes path) as [|c r] eqn:E; [done|].
  destruct (elems_head c r (skip_slashes_head path c r E)) as (e & es & -> & _). done.
Qed.

(** [skipelem] takes the first element of the path, cut to [DIRSIZ] bytes. *)
Lemma skipelem_elems path :
  match elems path with
  | [] => skipelem path = None
  | e :: es => exists rest, skipelem path = Some (rest, take DIRSIZ e) /\ elems rest = es /\ (rest = [] <-> es = [])
  end.
Proof.
  unfold skipelem. rewrite <- elems_skip. destruct (skip_slashes path) as [|c r] eqn:E; [done|].
  pose proof (skip_slashes_head path c r E) as Hc. rewrite elems_take.
  assert ((take_elem (c :: r)).1 <> []) as Hne.
  { cbn [take_elem]. destruct (Z.eqb_spec c SLASH); [done|]. by destruct (take_elem r). }
  rewrite decide_False by done. cbn [app]. destruct (take_elem (c :: r)) as [e q]. cbn [fst snd].
  exists (skip_slashes q). split; [done|]. rewrite elems_skip. split; [done|]. apply skip_slashes_elems.
Qed.

Lemma length_elems path : (length (elems path) <= length path)%nat.
Proof.
  unfold elems. induction path as [|c rest IH]; [done|]. cbn [pieces length]. destruct (Z.eqb_spec c SLASH).
  - rewrite filter_cons_False by tauto. lia.
  - destruct (pieces_nonempty rest) as (p & ps & E). rewrite E in *. rewrite filter_cons in IH.
    rewrite filter_cons_True by done. cbn [length]. case_decide; cbn [length] in IH; lia.
Qed.

(** ** Walking through the directories on disk *)

(** The inode that the names [es] lead to from [n], with the last name; for [parent],
    the directory of the last name. *)
Fixpoint walk (v : Z -> list Z) (x : superblock) (parent : bool) (n : Z) (es : list (list Z)) (name : list Z) : option (Z * list Z) :=
  match es with
  | [] => if parent then None else Some (n, name)
  | e :: es' =>
      if i_type (dnode v x n) =? T_DIR then
        if parent && bool_decide (es' = []) then Some (n, take DIRSIZ e)
        else
          match lookup_name (take DIRSIZ e) (dir_entries v (dnode v x n)) with
          | Some m => walk v x parent m es' (take DIRSIZ e)
          | None => None
          end
      else None
  end.

(** Linked directories are well formed, and their entries lead to linked inodes. *)
Definition tree_ok (v : Z -> list Z) (x : superblock) : Prop :=
  forall n, linked v x n -> i_type (dnode v x n) = T_DIR ->
    dir_ok v x (dnode v x n) /\ forall e, e ∈ dir_entries v (dnode v x n) -> de_inum e <> 0 -> linked v x (de_inum e).

(** Only the copied fields matter. *)
Lemma dir_ok_same v x ip ip' :
  i_type ip' = i_type ip -> i_size ip' = i_size ip -> i_addrs ip' = i_addrs ip -> i_dev ip' = ROOTDEV ->
  dir_ok v x ip -> dir_ok v x ip' /\ dir_entries v ip' = dir_entries v ip.
Proof.
  destruct ip, ip'. cbn. intros -> -> -> -> [[F1 F2 F3 F4 F5 F6] Ht Hs Hn Hm]. split; [|done].
  constructor; [|exact Ht|exact Hs|exact Hn|exact Hm].
  constructor; [exact F1|reflexivity|exact F3|exact F4|exact F5|exact F6].
Qed.

Lemma dir_of_copy v x ip :
  is_copy v x ip -> i_dev ip = ROOTDEV -> dir_ok v x (dnode v x (i_inum ip)) ->
  dir_ok v x ip /\ dir_entries v ip = dir_entries v (dnode v x (i_inum ip)).
Proof. intros (Ht & _ & Hs & Ha)%is_copy_fields Hd. by apply dir_ok_same. Qed.

Lemma lookup_name_linked v x n name m :
  tree_ok v x -> linked v x n -> i_type (dnode v x n) = T_DIR ->
  lookup_name name (dir_entries v (dnode v x n)) = Some m -> linked v x m.
Proof.
  intros T Hl Ht. unfold lookup_name. destruct (find_entry name _) as [[k e]|] eqn:E; [|done]. intros [= <-].
  destruct (find_entry_elem _ _ _ _ E) as [Hin [Hne _]]. by apply (proj2 (T n Hl Ht)).
Qed.

Section Namex.
Context {S : Type} `{TxDiskSpec S}.
Variable dev_read : Z -> option (nat -> Z -> M (fsst S) (Z * list Z)).

(** How [m] ends, if it is to find what [target] says: the references to the inode
    found, and no others, are one more than [R]. *)
Definition finds (m : M (fsst S) (option (nat * list Z))) (s : fsst S) v l R (target : option (Z * list Z)) : Prop :=
  exists s', match target with
  | None => runs m s [] None s' /\ cached s' v l R None
  | Some (n, name) => exists j ip, runs m s [] (Some (j, name)) s' /\ cached s' v l (grab n R) None /\ entry s' j n ip
  end.

Lemma finds_pre m m' s s1 v l R target :
  (forall r s', runs m' s1 [] r s' -> runs m s [] r s') -> finds m' s1 v l R target -> finds m s v l R target.
Proof.
  intros Hp (s' & Hs). exists s'. destruct target as [[n name]|].
  - destruct Hs as (j & ip & Hr & Hs). exists j, ip. split; [by apply Hp|done].
  - split; [by apply Hp, Hs|apply Hs].
Qed.
(** The same disk and the same size of the cache. *)
Definition like (s s' : fsst S) : Prop :=
  sb s' = sb s /\ tgeo (fdev s') = tgeo (fdev s) /\ length (inodes s') = length (inodes s).

(** One step down: look the name up in the locked directory, then give that one back. *)
Lemma descend_ok s v l R j n ip name :
  cached s v l (grab n R) (Some j) -> entry s j n ip -> is_copy v (sb s) ip -> i_dev ip = ROOTDEV ->
  linked v (sb s) n -> tree_ok v (sb s) -> i_type (dnode v (sb s) n) = T_DIR -> fits (tgeo (fdev s)) ∅ l 1 ->
  positive R -> (size R + 2 <= length (inodes s))%nat ->
  exists s1 s2, like s s2 /\
    match lookup_name name (dir_entries v (dnode v (sb s) n)) with
    | None => runs (dirlookup dev_read j name) s [] None s1 /\ runs (iunlockput j) s1 [] tt s2 /\ cached s2 v l R None
    | Some m => exists j' off ip', runs (dirlookup dev_read j name) s [] (Some (j', off)) s1 /\ runs (iunlockput j) s1 [] tt s2 /\
        cached s2 v l (grab m R) None /\ entry s2 j' m ip'
    end.
Proof.
  intros C E Hcp Hdev Hl T Ht Hf P Hroom. pose proof E as (Hj & Hr & Hn). destruct (T n Hl Ht) as [D0 _].
  rewrite <- Hn in D0. destruct (dir_of_copy v (sb s) ip Hcp Hdev D0) as [D Hes]. rewrite Hn in Hes.
  pose proof (lookup_name_linked v (sb s) n name) as Hlk. rewrite <- Hes in *.
  destruct (dirlookup_ok dev_read s v l j ip name (ca_blocks _ _ _ _ _ C) Hf Hj D) as (d & B1 & Hg & Hrun).
  assert (cached (with_dev d s) v l (grab n R) (Some j)) as C1 by (apply cached_dev; [done|apply B1|done]).
  unfold lookup_name in *. destruct (find_entry name (dir_entries v ip)) as [[k e]|].
  - specialize (Hlk (de_inum e) T Hl Ht eq_refl). cbn [fmap option_fmap option_map snd]. pose proof (size_grab n R) as Hsz.
    destruct (iget_ok (with_dev d s) v l (grab n R) (Some j) (de_inum e) C1 Hlk) as (j' & s1 & ip1 & E1 & C2 & En1 & _ & Hs1 & Hd1 & Hl1 & Hk1); [cbn; lia|].
    destruct (Hk1 j ip Hj Hr) as [r Hjr]. destruct (ca_locked _ _ _ _ _ C2 j eq_refl) as (y & Ey & Hy).
    rewrite Hjr in Ey. injection Ey as <-. assert (entry s1 j n (set_iref r ip)) as Ej by (split; [done|split; done]).
    destruct (iunlockput_ok s1 v l _ j n _ C2 Ej) as (s2 & E2 & C3 & Hs2 & Hd2 & Hl2 & Hk2 & Hx2); [by rewrite Hs1|].
    rewrite put_grab_under in C3 by done.
    destruct (entry_kept s1 s2 _ _ j n _ j' (de_inum e) ip1 (ca_cache _ _ _ _ _ C2) (ca_cache _ _ _ _ _ C3) Hk2 Hx2 Ej En1) as [ip2 E3].
    { unfold grab. rewrite lookup_insert_eq. by eexists. }
    exists s1, s2. split; [|exists j', (16 * Z.of_nat k), ip2; split; [by apply Hrun|done]].
    split; [by rewrite Hs2, Hs1|]. split; [by rewrite Hd2, Hd1|by rewrite Hl2, Hl1].
  - destruct (iunlockput_ok (with_dev d s) v l _ j n ip C1 E Hl) as (s2 & E2 & C3 & Hs2 & Hd2 & Hl2 & _).
    rewrite put_grab in C3 by done. exists (with_dev d s), s2. split; [|done].
    split; [by rewrite Hs2|]. split; [by rewrite Hd2|by rewrite Hl2].
Qed.

Lemma namex_loop_ok es fuel s v l R j n ip parent path name :
  cached s v l (grab n R) None -> entry s j n ip -> linked v (sb s) n -> tree_ok v (sb s) ->
  fits (tgeo (fdev s)) ∅ l 1 -> positive R -> (size R + 2 <= length (inodes s))%nat ->
  elems path = es -> (length es <= fuel)%nat ->
  finds (namex_loop dev_read fuel j path parent name) s v l R (walk v (sb s) parent n es name).
Proof.
  revert fuel s j n ip path name. induction es as [|e es IH]; intros fuel s j n ip path name C E Hl T Hf P Hroom He Hfu;
    pose proof (skipelem_elems path) as Hsk; rewrite He in Hsk.
  - cbn [walk]. destruct parent.
    + destruct (iput_ok s v l _ None j n ip C E Hl) as (s1 & E1 & C1 & _); [done|]. rewrite put_grab in C1 by done.
      exists s1. split; [|done]. destruct fuel; cbn [namex_loop]; rewrite Hsk; (eapply runs_bind_nil; [exact E1|apply runs_ret]).
    + exists s, j, ip. split; [|done]. destruct fuel; cbn [namex_loop]; rewrite Hsk; apply runs_ret.
  - destruct Hsk as (rest & Hsk & Hrest & Hend). destruct fuel as [|fuel]; [cbn in Hfu; lia|].
    destruct (ilock_ok s v l _ j n ip C E Hl Hf) as (s1 & ip1 & E1 & C1 & En1 & Hcp & Hdev & Hs1 & Hg1 & Hl1).
    pose proof En1 as (Hj1 & Hr1 & Hn1). cbn [walk]. rewrite <- Hs1 in *.
    eapply (finds_pre _ _ _ s1).
    { intros r s' Hr. cbn [namex_loop]. rewrite Hsk. eapply runs_bind_nil; [exact E1|].
      eapply runs_bind_nil; [by apply runs_ino|]. exact Hr. }
    destruct (is_copy_fields _ _ _ Hcp) as (Ht & _). rewrite Hn1 in Ht. rewrite Ht.
    destruct (Z.eqb_spec (i_type (dnode v (sb s1) n)) T_DIR) as [Hd|Hd]; cbn [negb].
    2: { destruct (iunlockput_ok s1 v l _ j n ip1 C1 En1 Hl) as (s2 & E2 & C2 & _). rewrite put_grab in C2 by done.
         exists s2. split; [|done]. eapply runs_bind_nil; [exact E2|apply runs_ret]. }
    assert (match rest with [] => true | _ => false end = bool_decide (es = [])) as ->.
    { destruct rest; [by rewrite bool_decide_true by tauto|]. rewrite bool_decide_false; [done|]. intros Hes. by apply Hend in Hes. }
    destruct (parent && bool_decide (es = [])) eqn:Ep.
    + destruct (iunlock_ok s1 v l _ j n ip1 C1 En1 Hl) as (s2 & ip2 & E2 & C2 & En2 & _).
      exists s2, j, ip2. split; [|done]. eapply runs_bind_nil; [exact E2|apply runs_ret].
    + destruct (descend_ok s1 v l R j n ip1 (take DIRSIZ e)) as (s2 & s3 & (Hs3 & Hg3 & Hl3) & Hrun); auto; [by rewrite Hg1|by rewrite Hl1|].
      destruct (lookup_name (take DIRSIZ e) (dir_entries v (dnode v (sb s1) n))) as [m|] eqn:Em.
      * destruct Hrun as (j' & off & ip3 & E2 & E3 & C3 & En3).
        eapply (finds_pre _ _ _ s3).
        { intros r s' Hr. eapply runs_bind_nil; [exact E2|]. eapply runs_bind_nil; [exact E3|]. exact Hr. }
        rewrite <- Hs3. apply (IH fuel s3 j' m ip3); auto; try (rewrite ?Hs3, ?Hg3, ?Hg1, ?Hl3, ?Hl1; auto; fail); [|cbn in Hfu; lia].
        rewrite Hs3. by eapply lookup_name_linked.
      * destruct Hrun as (E2 & E3 & C3). exists s3. split; [|done].
        eapply runs_bind_nil; [exact E2|]. eapply runs_bind_nil; [exact E3|apply runs_ret].
Qed.
End Namex.

(** The inode a path starts from. *)
Definition start (cwd : Z) (path : list Z) : Z :=
  match path with c :: _ => if c =? SLASH then ROOTINO else cwd | [] => cwd end.

(** C27: path names are resolved in the directories on disk.  With a well-formed
    tree of linked directories, [namex] returns the inode that its elements, cut to
    [DIRSIZ] bytes, lead to from the root or the current directory (for
    [nameiparent] the directory of the last element, with that element), and 0 if an
    element is missing or not in a directory; it keeps exactly one reference to the
    inode it returns and leaves every other reference count as it was, with nothing
    locked. *)
Theorem namex_resolves {S} `{TxDiskSpec S} dev_read (s : fsst S) v l R cwd c ip path parent :
  cached s v l R None -> tree_ok v (sb s) -> linked v (sb s) ROOTINO -> entry s cwd c ip -> linked v (sb s) c ->
  fits (tgeo (fdev s)) ∅ l 1 -> (size R + 2 <= length (inodes s))%nat ->
  finds (namex dev_read cwd path parent) s v l R (walk v (sb s) parent (start c path) (elems path) []).
Proof.
  intros C T Hroot Ec Hc Hf Hroom. pose proof (icache_positive _ _ (ca_cache _ _ _ _ _ C)) as P.
  pose proof (length_elems path) as Hlen.
  assert (exists j s1 ip1, runs (match path with c :: _ => if c =? SLASH then iget ROOTDEV ROOTINO else idup cwd | [] => idup cwd end) s [] j s1 /\
    cached s1 v l (grab (start c path) R) None /\ entry s1 j (start c path) ip1 /\ sb s1 = sb s /\ fdev s1 = fdev s /\
    length (inodes s1) = length (inodes s)) as (j & s1 & ip1 & E1 & C1 & En1 & Hs1 & Hd1 & Hl1).
  { assert (exists j s1 ip1, runs (idup cwd) s [] j s1 /\ cached s1 v l (grab c R) None /\ entry s1 j c ip1 /\ sb s1 = sb s /\
      fdev s1 = fdev s /\ length (inodes s1) = length (inodes s)) as Hd.
    { destruct (idup_ok s v l R None cwd c ip C Ec) as (s1 & ip1 & ?). by exists cwd, s1, ip1. }
    destruct path as [|a path]; [exact Hd|]. cbn [start]. destruct (a =? SLASH); [|exact Hd].
    destruct (iget_ok s v l R None ROOTINO C Hroot) as (j & s1 & ip1 & ? & ? & ? & _ & ? & ? & ? & _); [lia|].
    by exists j, s1, ip1. }
  apply (finds_pre _ (namex_loop dev_read (length path) j path parent []) _ s1).
  { intros r s' Hr. unfold namex. by eapply runs_bind_nil. }
  rewrite <- Hs1. apply (namex_loop_ok dev_read (elems path) _ s1 v l R j _ ip1); rewrite ?Hs1, ?Hd1, ?Hl1; auto.
  destruct path as [|a path]; [exact Hc|]. cbn [start]. by destruct (a =? SLASH).
Qed.

(** ** The tree of a new file system *)

Lemma root_dnode : dnode (drv_sector new_disk) mk_super ROOTINO = set_iref 0 (set_iflags 0 root_inode).
Proof. vm_compute. reflexivity. Qed.

Lemma only_root n : linked (drv_sector new_disk) mk_super n -> n = ROOTINO.
Proof.
  intros (Hn & Ht & _). pose proof (zrange_check (fun n => (i_type (dnode (drv_sector new_disk) mk_super n) =? 0) || (n =? ROOTINO)) 0
    (Z.to_nat (sb_ninodes mk_super))) as K. specialize (K ltac:(vm_compute; reflexivity) n ltac:(exact Hn)). cbv beta in K.
  destruct (Z.eqb_spec (i_type (dnode (drv_sector new_disk) mk_super n)) 0); [done|]. by apply Z.eqb_eq in K.
Qed.

Lemma root_linked : linked (drv_sector new_disk) mk_super ROOTINO.
Proof. split; [split; [discriminate|reflexivity]|]. rewrite root_dnode. split; discriminate. Qed.

Lemma new_root_dir :
  dir_ok (drv_sector new_disk) mk_super (dnode (drv_sector new_disk) mk_super ROOTINO) /\
  dir_entries (drv_sector new_disk) (dnode (drv_sector new_disk) mk_super ROOTINO) = root_entries.
Proof.
  rewrite root_dnode, <- root_dir_entries. destruct root_cached as (s & [_ _ D _] & _). by apply dir_ok_same.
Qed.

Lemma new_tree_ok : tree_ok (drv_sector new_disk) mk_super.
Proof.
  intros n Hl _. rewrite (only_root n Hl). destruct new_root_dir as [D ->]. split; [done|].
  destruct root_cached as (s & [_ _ _ Hlk] & _). rewrite root_dir_entries in Hlk. exact Hlk.
Qed.

Lemma root_ready : exists (s : fsst (logst (bio memide))) ip,
  cached s (drv_sector new_disk) ∅ {[ROOTINO := 1]} None /\ entry s 0 ROOTINO ip /\ sb s = mk_super /\
  tgeo (fdev s) = new_geom /\ length (inodes s) = NINODE.
Proof.
  destruct root_cached as (d & [C O _ _] & Hg).
  destruct (iunlock_ok (root_fs d) _ _ _ 0 ROOTINO root_inode C) as (s & ip & _ & C1 & E & Hs & Hd & Hl & _);
    [split; [reflexivity|split; [discriminate|reflexivity]]|exact root_linked|].
  exists s, ip. split; [done|]. split; [done|]. split; [done|]. rewrite Hd, Hl. split; [done|].
  cbn [inodes root_fs]. by rewrite length_insert, length_replicate.
Qed.

(** The path "/./.." of a new file system. *)
Lemma namex_resolves_witness :
  exists (s s' : fsst (logst (bio memide))) j ip,
    runs (namex (fun _ => None) 0 [47; 46; 47; 46; 46] false) s [] (Some (j, [46; 46])) s' /\ entry s' j ROOTINO ip.
Proof.
  destruct root_ready as (s & ip & C & E & Hs & Hg & Hl).
  pose proof (namex_resolves (fun _ => None) s _ _ _ 0 ROOTINO ip [47; 46; 47; 46; 46] false C) as N.
  assert (walk (drv_sector new_disk) mk_super false ROOTINO (elems [47; 46; 47; 46; 46]) [] = Some (ROOTINO, [46; 46])) as W.
  { change (elems [47; 46; 47; 46; 46]) with [[46]; [46; 46]]. cbn [walk andb].
    rewrite (proj2 new_root_dir).
    assert (lookup_name (take DIRSIZ [46]) root_entries = Some ROOTINO) as -> by reflexivity.
    rewrite (proj2 new_root_dir).
    assert (lookup_name (take DIRSIZ [46; 46]) root_entries = Some ROOTINO) as -> by reflexivity. by rewrite root_dnode. }
  rewrite Hs in N. cbn [start] in N. change (47 =? SLASH) with true in N. cbv iota in N. rewrite W in N.
  destruct (N new_tree_ok root_linked E root_linked) as (s' & j & ip' & E1 & _ & E2).
  - rewrite Hg. apply new_fits. lia.
  - rewrite Hl, map_size_singleton. unfold NINODE. lia.
  - exists s, s', j, ip'. split; [exact E1|exact E2].
Defined.
