(* ===== verification/Vm.v ===== *)
(** * Page tables: vm.c

    Page tables live in [ram], at the kernel virtual addresses [kalloc] returns;
    a [pde_t *] or [pte_t *] is such an address, 0 when null.  Segment
    descriptors, the task state and the control registers are not modelled. *)

From stdpp Require Import base numbers list gmap strings.
From S2P Require Import Prelude Mem Str Kalloc.

Open Scope Z_scope.

(** ** mmu.h and memlayout.h *)

Definition EXTMEM : Z := 0x100000.
Definition DEVSPACE : Z := 0xFE000000.
Definition KERNLINK : Z := KERNBASE + EXTMEM.

Definition PTXSHIFT : Z := 12.
Definition PDXSHIFT : Z := 22.
Definition NPDENTRIES : Z := 1024.
Definition NPTENTRIES : Z := 1024.

Definition PDX (va : Z) : Z := Z.land (Z.shiftr va PDXSHIFT) 0x3FF.
Definition PTX (va : Z) : Z := Z.land (Z.shiftr va PTXSHIFT) 0x3FF.

Definition PTE_P : Z := 0x001.
Definition PTE_W : Z := 0x002.
Definition PTE_U : Z := 0x004.
Definition PTE_ADDR (pte : Z) : Z := Z.land pte (u32 (Z.lnot 0xFFF)).
Definition PTE_FLAGS (pte : Z) : Z := Z.land pte 0xFFF.

(** [*p] and [*p = x] for a pointer to a table entry. *)
Definition read_pte (p : Z) : M pmem Z :=
  if p =? 0 then fault else gets (fun s => load32 (ram s) p).
Definition write_pte (p x : Z) : M pmem unit := modify (on_ram (fun m => store32 m p x)).

(** Where the entry for [va] is in the directory or table at [t]. *)
Definition pde_at (pgdir va : Z) : Z := u32 (pgdir + 4 * PDX va).
Definition pte_at (pgtab va : Z) : Z := u32 (pgtab + 4 * PTX va).

Section Vm.

(** [end] and [data], the addresses kernel.ld defines. *)
Variables (kend kdata : Z).

Definition walkpgdir (pgdir va : Z) (alloc : bool) : M pmem Z :=
  let pde := pde_at pgdir va in
  let* x := read_pte pde in
  if has x PTE_P then
    ret (pte_at (p2v (PTE_ADDR x)) va)
  else if negb alloc then ret 0
  else
    let* pgtab := kalloc in
    if pgtab =? 0 then ret 0
    else
      modify (on_ram (memset pgtab 0 PGSIZE)) ;;
      write_pte pde (Z.lor (Z.lor (Z.lor (v2p pgtab) PTE_P) PTE_W) PTE_U) ;;
      ret (pte_at pgtab va).

(** The loop of [mappages], from address [a]. *)
Fixpoint mappages_loop (fuel : nat) (pgdir a last pa perm : Z) : M pmem Z :=
  match fuel with
  | O => fun _ => ([], NoFuel)
  | S k =>
      let* pte := walkpgdir pgdir a true in
      if pte =? 0 then ret (-1)
      else
        let* x := read_pte pte in
        if has x PTE_P then panic "remap"
        else
          write_pte pte (Z.lor (Z.lor pa perm) PTE_P) ;;
          if a =? last then ret 0
          else mappages_loop k pgdir (u32 (a + PGSIZE)) last (u32 (pa + PGSIZE)) perm
  end.

(** There are [2^20] pages of virtual memory. *)
Definition mappages (pgdir va size pa perm : Z) : M pmem Z :=
  let a := PGROUNDDOWN va in
  let last := PGROUNDDOWN (u32 (va + size - 1)) in
  mappages_loop (Z.to_nat (u32 (last - a) / PGSIZE + 1)) pgdir a last pa perm.

(** [kmap]: virtual address, physical start and end, permissions. *)
Definition kmap : list (Z * Z * Z * Z) :=
  [ (KERNBASE, 0, EXTMEM, PTE_W);
    (KERNLINK, v2p KERNLINK, v2p kdata, 0);
    (kdata, v2p kdata, PHYSTOP, PTE_W);
    (DEVSPACE, DEVSPACE, 0, PTE_W) ].

Definition setupkvm : M pmem Z :=
  let* pgdir := kalloc in
  if pgdir =? 0 then ret 0
  else
    modify (on_ram (memset pgdir 0 PGSIZE)) ;;
    if p2v PHYSTOP >? DEVSPACE then panic "PHYSTOP too high"
    else
      let* r := for_each kmap (fun k =>
        let '(virt, phys_start, phys_end, perm) := k in
        let* r := mappages pgdir virt (u32 (phys_end - phys_start)) phys_start perm in
        ret (if r <? 0 then Some tt else None)) in
      ret (match r with Some _ => 0 | None => pgdir end).

(** [init] is the address of the initcode, [sz] its size. *)
Definition inituvm (pgdir init sz : Z) : M pmem unit :=
  if sz >=? PGSIZE then panic "inituvm: more than a page"
  else
    let* mem := kalloc in
    modify (on_ram (memset mem 0 PGSIZE)) ;;
    mappages pgdir 0 PGSIZE (v2p mem) (Z.lor PTE_W PTE_U) ;;
    modify (on_ram (memmove mem init sz)).

(** The loop of [deallocuvm]. *)
Fixpoint deallocuvm_loop (fuel : nat) (pgdir a oldsz : Z) : M pmem unit :=
  if a <? oldsz then
    match fuel with
    | O => fun _ => ([], NoFuel)
    | S k =>
        let* pte := walkpgdir pgdir a false in
        if pte =? 0 then
          deallocuvm_loop k pgdir (u32 (u32 (a + (NPTENTRIES - 1) * PGSIZE) + PGSIZE)) oldsz
        else
          let* x := read_pte pte in
          when (has x PTE_P)
            (let pa := PTE_ADDR x in
             if pa =? 0 then panic "kfree"
             else
               kfree kend (p2v pa) ;;
               write_pte pte 0) ;;
          deallocuvm_loop k pgdir (u32 (a + PGSIZE)) oldsz
    end
  else ret tt.

Definition deallocuvm (pgdir oldsz newsz : Z) : M pmem Z :=
  if newsz >=? oldsz then ret oldsz
  else
    deallocuvm_loop (Z.to_nat (2 ^ 20)) pgdir (PGROUNDUP newsz) oldsz ;;
    ret newsz.

(** The loop of [allocuvm]; its message on the console is not modelled. *)
Fixpoint allocuvm_loop (fuel : nat) (pgdir a oldsz newsz : Z) : M pmem Z :=
  if a <? newsz then
    match fuel with
    | O => fun _ => ([], NoFuel)
    | S k =>
        let* mem := kalloc in
        if mem =? 0 then
          deallocuvm pgdir newsz oldsz ;;
          ret 0
        else
          modify (on_ram (memset mem 0 PGSIZE)) ;;
          mappages pgdir a PGSIZE (v2p mem) (Z.lor PTE_W PTE_U) ;;
          allocuvm_loop k pgdir (u32 (a + PGSIZE)) oldsz newsz
    end
  else ret newsz.

Definition allocuvm (pgdir oldsz newsz : Z) : M pmem Z :=
  if newsz >=? KERNBASE then ret 0
  else if newsz <? oldsz then ret oldsz
  else allocuvm_loop (Z.to_nat (2 ^ 20)) pgdir (PGROUNDUP oldsz) oldsz newsz.

Definition freevm (pgdir : Z) : M pmem unit :=
  if pgdir =? 0 then panic "freevm: no pgdir"
  else
    deallocuvm pgdir KERNBASE 0 ;;
    for_all (zrange 0 (Z.to_nat NPDENTRIES)) (fun i =>
      let* x := read_pte (u32 (pgdir + 4 * i)) in
      when (has x PTE_P) (kfree kend (p2v (PTE_ADDR x)))) ;;
    kfree kend pgdir.

Definition clearpteu (pgdir uva : Z) : M pmem unit :=
  let* pte := walkpgdir pgdir uva false in
  if pte =? 0 then panic "clearpteu"
  else
    let* x := read_pte pte in
    write_pte pte (Z.land x (u32 (Z.lnot PTE_U))).

(** The loop of [copyuvm]: false when memory runs out. *)
Fixpoint copyuvm_loop (fuel : nat) (pgdir d i sz : Z) : M pmem bool :=
  if i <? sz then
    match fuel with
    | O => fun _ => ([], NoFuel)
    | S k =>
        let* pte := walkpgdir pgdir i false in
        if pte =? 0 then panic "copyuvm: pte should exist"
        else
          let* x := read_pte pte in
          if negb (has x PTE_P) then panic "copyuvm: page not present"
          else
            let* mem := kalloc in
            if mem =? 0 then ret false
            else
              modify (on_ram (memmove mem (p2v (PTE_ADDR x)) PGSIZE)) ;;
              let* r := mappages d i PGSIZE (v2p mem) (PTE_FLAGS x) in
              if r <? 0 then ret false
              else copyuvm_loop k pgdir d (u32 (i + PGSIZE)) sz
    end
  else ret true.

Definition copyuvm (pgdir sz : Z) : M pmem Z :=
  let* d := setupkvm in
  if d =? 0 then ret 0
  else
    let* ok := copyuvm_loop (Z.to_nat (2 ^ 20)) pgdir d 0 sz in
    if ok then ret d
    else
      freevm d ;;
      ret 0.

(** The entry is read without a test for null. *)
Definition uva2ka (pgdir uva : Z) : M pmem Z :=
  let* pte := walkpgdir pgdir uva false in
  let* x := read_pte pte in
  if negb (has x PTE_P) then ret 0
  else if negb (has x PTE_U) then ret 0
  else ret (p2v (PTE_ADDR x)).

(** The source bytes are [buf]. *)
Fixpoint copyout_loop (fuel : nat) (pgdir va : Z) (buf : list Z) (len : Z) : M pmem Z :=
  if len >? 0 then
    match fuel with
    | O => fun _ => ([], NoFuel)
    | S k =>
        let va0 := PGROUNDDOWN va in
        let* pa0 := uva2ka pgdir va0 in
        if pa0 =? 0 then ret (-1)
        else
          let n := PGSIZE - (va - va0) in
          let n := if n >? len then len else n in
          modify (on_ram (fun m => filled m (u32 (pa0 + (va - va0))) n (fun i => nth (Z.to_nat i) buf 0))) ;;
          copyout_loop k pgdir (u32 (va0 + PGSIZE)) (drop (Z.to_nat n) buf) (len - n)
    end
  else ret 0.

Definition copyout (pgdir va : Z) (p : list Z) (len : Z) : M pmem Z :=
  copyout_loop (Z.to_nat (len / PGSIZE + 2)) pgdir va p len.

End Vm.
