(* ===== verification/VmTable.v ===== *)
(** * The page table as a map

    A page directory at [pgdir] with the table pages [T] stands for a map from
    virtual page numbers to entries.  This file shows what [walkpgdir] and
    [mappages] do to that map, to the free list and to the rest of memory. *)

From stdpp Require Import base numbers list gmap strings.
From S2P Require Import Prelude Bytes Mem Str Kalloc Vm.

Open Scope Z_scope.

(** The virtual page number of an address. *)
Definition vpn (va : Z) : Z := va / PGSIZE.

(** Directory and table index of a page number. *)
Definition dirx (n : Z) : Z := n / NPTENTRIES.
Definition tabx (n : Z) : Z := n `mod` NPTENTRIES.

Definition present (x : Z) : bool := has x PTE_P.

(** ** Words of pages *)

Ltac vm_consts := unfold in_page, PGSIZE, KERNBASE, PHYSTOP, NPTENTRIES, NPDENTRIES in *.

Lemma PDX_vpn va : 0 <= va < 2 ^ 32 -> PDX va = dirx (vpn va).
Proof.
  intros Hv. unfold PDX, dirx, vpn, PDXSHIFT, PGSIZE, NPTENTRIES.
  change 0x3FF with (Z.ones 10). rewrite Z.land_ones, Z.shiftr_div_pow2 by lia.
  rewrite Z.div_div by lia. change (2 ^ 22) with (4096 * 1024).
  apply Z.mod_small. split; [apply Z.div_pos; lia|apply Z.div_lt_upper_bound; lia].
Qed.

Lemma PTX_vpn va : 0 <= va -> PTX va = tabx (vpn va).
Proof.
  intros Hv. unfold PTX, tabx, vpn, PTXSHIFT, PGSIZE, NPTENTRIES.
  change 0x3FF with (Z.ones 10). rewrite Z.land_ones, Z.shiftr_div_pow2 by lia. done.
Qed.

Lemma tabx_range n : 0 <= tabx n < 1024.
Proof. unfold tabx, NPTENTRIES. apply Z.mod_pos_bound. lia. Qed.

Lemma dirx_range n : 0 <= n < 2 ^ 20 -> 0 <= dirx n < 1024.
Proof.
  intros Hn. unfold dirx, NPTENTRIES. split; [apply Z.div_pos; lia|].
  apply Z.div_lt_upper_bound; lia.
Qed.

Lemma vpn_range va : 0 <= va < 2 ^ 32 -> 0 <= vpn va < 2 ^ 20.
Proof.
  intros Hn. unfold vpn, PGSIZE. split; [apply Z.div_pos; lia|].
  apply Z.div_lt_upper_bound; lia.
Qed.

Lemma dirx_tabx n n' : dirx n = dirx n' -> tabx n = tabx n' -> n = n'.
Proof.
  unfold dirx, tabx, NPTENTRIES. intros Hd Ht.
  rewrite (Z.div_mod n 1024), (Z.div_mod n' 1024) by lia. congruence.
Qed.

(** ** Entries *)

Lemma PTE_ADDR_eq x : 0 <= x < 2 ^ 32 -> PTE_ADDR x = x - x `mod` PGSIZE.
Proof. intros Hx. exact (land_pgmask x Hx). Qed.

Lemma land_low a f : a `mod` PGSIZE = 0 -> 0 <= f < PGSIZE -> Z.land a f = 0.
Proof.
  intros Ha Hf. unfold PGSIZE in *. apply Z.bits_inj'; intros k Hk. rewrite Z.land_spec, Z.bits_0.
  destruct (Z.ltb_spec k 12) as [Hlt|Hge].
  - rewrite <- (Z.mod_pow2_bits_low a 12 k) by lia. change (2 ^ 12) with 4096.
    by rewrite Ha, Z.bits_0.
  - rewrite <- (Z.mod_small f (2 ^ 12)), Z.mod_pow2_bits_high by lia. apply andb_false_r.
Qed.

Lemma lor_low a f : a `mod` PGSIZE = 0 -> 0 <= f < PGSIZE -> Z.lor a f = a + f.
Proof.
  intros Ha Hf. pose proof (land_low a f Ha Hf) as E.
  by rewrite <- Z.lxor_lor, <- Z.add_nocarry_lxor.
Qed.

Lemma mod_low a f : a `mod` PGSIZE = 0 -> 0 <= f < PGSIZE -> (a + f) `mod` PGSIZE = f.
Proof.
  intros Ha Hf. rewrite <- Zplus_mod_idemp_l, Ha. by apply Z.mod_small.
Qed.

(** What [mappages] stores: the address of a page and its permissions. *)
Definition entry (pa perm : Z) : Z := Z.lor (Z.lor pa perm) PTE_P.

Lemma entry_eq pa perm : entry pa perm = Z.lor pa (Z.lor perm PTE_P).
Proof. unfold entry. by rewrite Z.lor_assoc. Qed.

Lemma lor_flags_range f g : 0 <= f < PGSIZE -> 0 <= g < PGSIZE -> 0 <= Z.lor f g < PGSIZE.
Proof.
  intros Hf Hg. unfold PGSIZE in *. split; [apply Z.lor_nonneg; lia|].
  rewrite <- (Z.mod_small f (2 ^ 12)), <- (Z.mod_small g (2 ^ 12)) by lia.
  rewrite <- !Z.land_ones, <- Z.land_lor_distr_l, Z.land_ones by lia.
  apply (Z.mod_pos_bound _ (2 ^ 12)). lia.
Qed.

Lemma entry_range pa perm :
  0 <= pa < 2 ^ 32 -> pa `mod` PGSIZE = 0 -> 0 <= perm < PGSIZE -> 0 <= entry pa perm < 2 ^ 32.
Proof.
  intros Hpa Ha Hp. rewrite entry_eq.
  assert (0 <= Z.lor perm PTE_P < PGSIZE) as Hr by by apply lor_flags_range.
  rewrite lor_low by done. unfold PGSIZE in *. pose proof (Z.div_mod pa 4096). lia.
Qed.

Lemma entry_addr pa perm :
  0 <= pa < 2 ^ 32 -> pa `mod` PGSIZE = 0 -> 0 <= perm < PGSIZE -> PTE_ADDR (entry pa perm) = pa.
Proof.
  intros Hpa Ha Hp. rewrite PTE_ADDR_eq by by apply entry_range.
  rewrite entry_eq. assert (0 <= Z.lor perm PTE_P < PGSIZE) as Hr by by apply lor_flags_range.
  rewrite lor_low, mod_low by done. lia.
Qed.

Lemma has_lor x y f : has (Z.lor x y) f = has x f || has y f.
Proof.
  unfold has. rewrite Z.land_lor_distr_l.
  destruct (Z.eqb_spec (Z.land x f) 0) as [->|Hx]; [by rewrite Z.lor_0_l|].
  destruct (Z.eqb_spec (Z.lor (Z.land x f) (Z.land y f)) 0) as [E|]; [|done].
  by apply Z.lor_eq_0_iff in E as [? _].
Qed.

Lemma has_aligned pa f : pa `mod` PGSIZE = 0 -> 0 <= f < PGSIZE -> has pa f = false.
Proof.
  intros Ha Hf. unfold has. by rewrite land_low.
Qed.

Lemma entry_present pa perm : present (entry pa perm) = true.
Proof. unfold present, entry. rewrite has_lor. apply orb_true_r. Qed.

Lemma entry_user pa perm : pa `mod` PGSIZE = 0 -> has (entry pa perm) PTE_U = has perm PTE_U.
Proof.
  intros Ha. unfold entry. rewrite !has_lor, has_aligned by done. apply orb_false_r.
Qed.

Lemma entry_flags pa perm :
  pa `mod` PGSIZE = 0 -> 0 <= perm < PGSIZE -> has perm PTE_P = true -> PTE_FLAGS (entry pa perm) = perm.
Proof.
  intros Ha Hp Hpr. unfold PTE_FLAGS. rewrite entry_eq.
  assert (Z.lor perm PTE_P = perm) as ->.
  { change PTE_P with (2 ^ 0). apply Z.bits_inj'. intros k Hk. rewrite Z.lor_spec, Z.pow2_bits_eqb by lia.
    destruct (Z.eqb_spec 0 k) as [<-|]; [|apply orb_false_r].
    change PTE_P with (2 ^ 0) in Hpr. rewrite has_pow2 in Hpr by lia. by rewrite Hpr. }
  rewrite lor_low by done. change 0xFFF with (Z.ones 12). rewrite Z.land_ones by lia.
  by apply mod_low.
Qed.

(** ** The invariant *)

Section VmTable.

Context (kend : Z) (Hend : KERNBASE <= kend).

(** [T] gives the table page of each directory index that has one. *)
Record vm_inv (s : pmem) (l : list Z) (pgdir : Z) (T : gmap Z Z) : Prop := {
  vi_alloc : alloc_inv kend s l;
  vi_dir : good_page kend pgdir;
  vi_dir_used : pgdir ∉ l;
  vi_tab : forall i t, T !! i = Some t -> good_page kend t /\ (t ∉ l) /\ t <> pgdir /\ 0 <= i < 1024;
  vi_inj : forall i j t, T !! i = Some t -> T !! j = Some t -> i = j;
  vi_pde : forall i, 0 <= i < 1024 ->
    match T !! i with
    | Some t => present (load32 (ram s) (pgdir + 4 * i)) = true
                /\ PTE_ADDR (load32 (ram s) (pgdir + 4 * i)) = v2p t
    | None => present (load32 (ram s) (pgdir + 4 * i)) = false
    end
}.

(** The entry of page number [n], 0 when its table is absent. *)
Definition slot (m : mem) (T : gmap Z Z) (n : Z) : Z :=
  match T !! dirx n with Some t => load32 m (t + 4 * tabx n) | None => 0 end.

(** A change of the address space [pgdir] that leaves other pages alone. *)
Record vm_step (pgdir : Z) (s : pmem) (l : list Z) (T : gmap Z Z)
    (s' : pmem) (l' : list Z) (T' : gmap Z Z) : Prop := {
  vs_inv : vm_inv s' l' pgdir T';
  vs_free : l' `suffix_of` l;
  vs_grow : T ⊆ T';
  vs_new : forall i t, T' !! i = Some t -> T !! i = Some t \/ t ∈ l;
  vs_frame : forall q x, good_page kend q -> in_page q x -> q <> pgdir ->
    (forall i, T' !! i <> Some q) -> ram s' x = ram s x
}.

Lemma suffix_elem {A} (l l' : list A) x : l' `suffix_of` l -> x ∈ l' -> x ∈ l.
Proof. intros [k ->] Hx. apply elem_of_app. by right. Qed.

Lemma vm_step_refl pgdir s l T : vm_inv s l pgdir T -> vm_step pgdir s l T s l T.
Proof. intros Hi. constructor; auto. Qed.

Lemma vm_step_trans pgdir s l T s1 l1 T1 s2 l2 T2 :
  vm_step pgdir s l T s1 l1 T1 -> vm_step pgdir s1 l1 T1 s2 l2 T2 -> vm_step pgdir s l T s2 l2 T2.
Proof.
  intros [I1 F1 G1 N1 R1] [I2 F2 G2 N2 R2]. constructor; [done|by etrans|by etrans| |].
  - intros i t Ht. destruct (N2 i t Ht) as [Ht1|Hl]; [by apply N1|right; by eapply suffix_elem].
  - intros q x Hq Hx Hd Ht. rewrite (R2 q) by done. apply (R1 q); auto.
    intros i Hi. apply (Ht i). by eapply lookup_weaken.
Qed.

Lemma page_word p k : good_page kend p -> 0 <= k < 1024 ->
  u32 (p + 4 * k) = p + 4 * k /\ p + 4 * k <> 0
  /\ (forall i, 0 <= i < 4 -> in_page p (p + 4 * k + i)).
Proof.
  intros Hg%(good_page_range kend Hend) Hk. vm_consts. rewrite u32_small by lia.
  split; [done|]. split; [lia|]. intros i Hi. lia.
Qed.

(** A word access inside a page reads only that page. *)
Lemma load32_page m m' p k :
  0 <= k < 1024 -> (forall x, in_page p x -> m' x = m x) -> load32 m' (p + 4 * k) = load32 m (p + 4 * k).
Proof.
  intros Hk Hx. apply load32_ext. intros i Hi. apply Hx. vm_consts. lia.
Qed.

Lemma store32_page m p k v x : 0 <= k < 1024 -> ~ in_page p x -> store32 m (p + 4 * k) v x = m x.
Proof. intros Hk Hx. apply store32_other. vm_consts. lia. Qed.

Lemma alloc_inv_frame s l m' :
  alloc_inv kend s l -> mem_ok m' -> (forall p x, p ∈ l -> in_page p x -> m' x = ram s x) ->
  alloc_inv kend (mk_pmem m' (km s)) l.
Proof.
  intros [Hm Hc Hg Hn Hl] Hm' Hx. constructor; cbn; auto. by apply (chain_frame (ram s)).
Qed.

Lemma vm_inv_frame s l pgdir T m' :
  vm_inv s l pgdir T -> mem_ok m' ->
  (forall p x, p ∈ pgdir :: l -> in_page p x -> m' x = ram s x) ->
  vm_inv (mk_pmem m' (km s)) l pgdir T.
Proof.
  intros [Ha Hd Hu Ht Hj Hp] Hm Hx. constructor; auto.
  - apply alloc_inv_frame; auto. intros p x Hl. apply Hx. by right.
  - intros i Hi. cbn [ram].
    rewrite (load32_page (ram s) m' pgdir i Hi); [by apply Hp|].
    intros x Hin. apply (Hx pgdir); [by left|done].
Qed.

Lemma vi_ok s l pgdir T : vm_inv s l pgdir T -> mem_ok (ram s).
Proof. intros H. apply H. Qed.

(** ** One entry *)

Lemma set_slot s l pgdir T n t x :
  vm_inv s l pgdir T -> 0 <= n < 2 ^ 20 -> T !! dirx n = Some t -> 0 <= x < 2 ^ 32 ->
  vm_step pgdir s l T (on_ram (fun m => store32 m (t + 4 * tabx n) x) s) l T
  /\ forall n', 0 <= n' < 2 ^ 20 ->
       slot (store32 (ram s) (t + 4 * tabx n) x) T n' = if n' =? n then x else slot (ram s) T n'.
Proof.
  intros Hi Hn Ht Hx. destruct (vi_tab _ _ _ _ Hi _ _ Ht) as (Hg & Hl & Hne & _).
  pose proof (tabx_range n) as Htx.
  assert (forall p y, good_page kend p -> p <> t -> in_page p y ->
    store32 (ram s) (t + 4 * tabx n) x y = ram s y) as Hfr.
  { intros p y Hp Hpt Hy. apply store32_page; [done|]. by apply (good_page_disjoint kend p). }
  split.
  - constructor; auto.
    + apply vm_inv_frame; [done|apply store32_ok, (vi_ok _ _ _ _ Hi)|].
      intros p y [->|Hp]%elem_of_cons Hy.
      { apply (Hfr pgdir); [exact (vi_dir _ _ _ _ Hi)|congruence|done]. }
      apply (Hfr p); auto; [|by intros ->].
      pose proof (ai_good _ _ _ (vi_alloc _ _ _ _ Hi)) as HF. rewrite Forall_forall in HF. auto.
    + intros q y Hq Hy _ Hnt. apply (Hfr q); auto. intros ->. by apply (Hnt (dirx n)).
  - intros n' Hn'. unfold slot. destruct (Z.eqb_spec n' n) as [->|Hnn].
    { rewrite Ht. by apply load32_store32_eq. }
    destruct (T !! dirx n') as [t'|] eqn:Et; [|done].
    pose proof (tabx_range n') as Htx'.
    destruct (decide (t' = t)) as [->|Htt].
    + apply load32_store32_ne. assert (tabx n' <> tabx n); [|lia].
      intros E. apply Hnn, dirx_tabx; [|done]. by apply (vi_inj _ _ _ _ Hi _ _ t).
    + apply load32_page; [done|]. intros y Hy. apply (Hfr t'); auto.
      by apply (vi_tab _ _ _ _ Hi _ _ Et).
Qed.

(** ** A new table *)

Definition dir_entry (p : Z) : Z := Z.lor (Z.lor (Z.lor (v2p p) PTE_P) PTE_W) PTE_U.

Lemma v2p_page p : good_page kend p -> v2p p = p - KERNBASE /\ 0 <= v2p p < 2 ^ 32 /\ v2p p `mod` PGSIZE = 0.
Proof.
  intros Hg. pose proof (good_page_range kend Hend p Hg) as Hr. destruct Hg as (Ha & _ & _).
  unfold v2p. rewrite u32_small by (vm_consts; lia). split; [done|]. split; [vm_consts; lia|].
  rewrite Zminus_mod, Ha. done.
Qed.

Lemma p2v_v2p p : good_page kend p -> p2v (v2p p) = p.
Proof.
  intros Hg. pose proof (good_page_range kend Hend p Hg) as Hr.
  destruct (v2p_page p Hg) as (-> & _). unfold p2v. rewrite u32_small; vm_consts; lia.
Qed.

Lemma dir_entry_ok p : good_page kend p ->
  0 <= dir_entry p < 2 ^ 32 /\ present (dir_entry p) = true /\ PTE_ADDR (dir_entry p) = v2p p.
Proof.
  intros Hg. destruct (v2p_page p Hg) as (_ & Hr & Ha).
  assert (dir_entry p = entry (v2p p) (Z.lor PTE_W PTE_U)) as ->.
  { unfold dir_entry, entry. rewrite <- !Z.lor_assoc. f_equal. }
  split; [by apply entry_range|]. split; [apply entry_present|by apply entry_addr].
Qed.

Lemma memset_page m p c x :
  good_page kend p -> memset p c PGSIZE m x = if bool_decide (in_page p x) then u8 c else m x.
Proof.
  intros Hg%(good_page_range kend Hend). vm_consts. rewrite memset_filled by lia.
  case_bool_decide; [by rewrite filled_in by lia|by rewrite filled_out by lia].
Qed.

Lemma load32_zero m a : (forall i, 0 <= i < 4 -> m (a + i) = 0) -> load32 m a = 0.
Proof. intros Hz. unfold load32. rewrite <- (Z.add_0_r a) at 1. rewrite !Hz by lia. done. Qed.

(** Memory after [walkpgdir] has installed the table [p]. *)
Definition with_table (m : mem) (pgdir n p : Z) : mem :=
  store32 (memset p 0 PGSIZE m) (pgdir + 4 * dirx n) (dir_entry p).

Lemma with_table_frame m pgdir n p q x :
  0 <= n < 2 ^ 20 -> good_page kend p -> good_page kend pgdir -> good_page kend q ->
  q <> p -> q <> pgdir -> in_page q x -> with_table m pgdir n p x = m x.
Proof.
  intros Hn Hp Hd Hq Hqp Hqd Hx. unfold with_table.
  rewrite store32_page; [|by apply dirx_range|by apply (good_page_disjoint kend q)].
  rewrite memset_page by done. rewrite bool_decide_eq_false_2; [done|].
  by apply (good_page_disjoint kend q).
Qed.

Lemma with_table_new m pgdir n p x :
  0 <= n < 2 ^ 20 -> good_page kend p -> good_page kend pgdir -> p <> pgdir ->
  in_page p x -> with_table m pgdir n p x = 0.
Proof.
  intros Hn Hp Hd Hne Hx. unfold with_table.
  rewrite store32_page; [|by apply dirx_range|by apply (good_page_disjoint kend p)].
  rewrite memset_page by done. by rewrite bool_decide_eq_true_2.
Qed.

Lemma with_table_pde m pgdir n p i :
  0 <= n < 2 ^ 20 -> good_page kend p -> good_page kend pgdir -> p <> pgdir -> 0 <= i < 1024 ->
  load32 (with_table m pgdir n p) (pgdir + 4 * i)
  = if i =? dirx n then dir_entry p else load32 m (pgdir + 4 * i).
Proof.
  intros Hn Hp Hd Hne Hi. unfold with_table. destruct (Z.eqb_spec i (dirx n)) as [->|Hin].
  { apply load32_store32_eq. by apply dir_entry_ok. }
  rewrite load32_store32_ne by lia. apply load32_page; [done|]. intros x Hx.
  rewrite memset_page by done. rewrite bool_decide_eq_false_2; [done|].
  by apply (good_page_disjoint kend pgdir).
Qed.

Lemma with_table_inv s s1 l pgdir T n p :
  vm_inv s (p :: l) pgdir T -> 0 <= n < 2 ^ 20 -> T !! dirx n = None ->
  alloc_inv kend s1 l -> ram s1 = ram s ->
  vm_inv (mk_pmem (with_table (ram s) pgdir n p) (km s1)) l pgdir (<[dirx n := p]> T).
Proof.
  intros Hi Hn HT Ha Hs1. pose proof (dirx_range n Hn) as Hdx.
  pose proof (vi_dir _ _ _ _ Hi) as Hd. pose proof (vi_dir_used _ _ _ _ Hi) as Hdu.
  apply not_elem_of_cons in Hdu as [Hdp Hdl].
  pose proof (ai_good _ _ _ (vi_alloc _ _ _ _ Hi)) as HF. apply Forall_cons in HF as [Hp HF].
  pose proof (ai_nodup _ _ _ (vi_alloc _ _ _ _ Hi)) as HN. apply NoDup_cons in HN as [Hpl _].
  constructor; auto.
  - apply alloc_inv_frame; [done| |].
    { unfold with_table. apply store32_ok, (memset_page_ok kend Hend); [done|]. by apply (vi_ok _ _ _ _ Hi). }
    intros q x Hq Hx. rewrite Hs1. rewrite Forall_forall in HF.
    apply (with_table_frame _ _ _ _ q); auto; intros ->; auto.
  - intros i t [[<- <-]|[Hne Ht]]%lookup_insert_Some; [done|].
    destruct (vi_tab _ _ _ _ Hi i t Ht) as (Hg & Hl & ?). apply not_elem_of_cons in Hl as [_ Hl]. done.
  - assert (forall i, T !! i = Some p -> False) as Hfresh.
    { intros i Ht. destruct (vi_tab _ _ _ _ Hi i p Ht) as (_ & Hl & _). by apply Hl; left. }
    intros i j t [[<- <-]|[Hne Ht]]%lookup_insert_Some [[<- E]|[Hne' Ht']]%lookup_insert_Some; try done;
      [by edestruct Hfresh|subst; by edestruct Hfresh|by apply (vi_inj _ _ _ _ Hi i j t)].
  - intros i Hir. cbn [ram]. rewrite with_table_pde by done.
    destruct (Z.eqb_spec i (dirx n)) as [->|Hin].
    + rewrite lookup_insert_eq. by apply dir_entry_ok.
    + rewrite lookup_insert_ne by done. by apply Hi.
Qed.

Lemma with_table_step s s1 l pgdir T n p :
  vm_inv s (p :: l) pgdir T -> 0 <= n < 2 ^ 20 -> T !! dirx n = None ->
  alloc_inv kend s1 l -> ram s1 = ram s ->
  vm_step pgdir s (p :: l) T (mk_pmem (with_table (ram s) pgdir n p) (km s1)) l (<[dirx n := p]> T)
  /\ forall n', 0 <= n' < 2 ^ 20 ->
       slot (with_table (ram s) pgdir n p) (<[dirx n := p]> T) n' = slot (ram s) T n'.
Proof.
  intros Hi Hn HT Ha Hs1. pose proof (with_table_inv _ _ _ _ _ _ _ Hi Hn HT Ha Hs1) as Hi2.
  pose proof (vi_dir _ _ _ _ Hi) as Hd.
  destruct (vi_tab _ _ _ _ Hi2 (dirx n) p) as (Hp & _ & Hdp & _); [apply lookup_insert_eq|].
  split.
  - constructor; [done|by exists [p]|by apply insert_subseteq| |].
    + intros i t [[<- <-]|[Hne Ht]]%lookup_insert_Some; [right; by left|by left].
    + intros q x Hq Hx Hqd Ht. apply (with_table_frame _ _ _ _ q); auto.
      intros ->. apply (Ht (dirx n)). apply lookup_insert_eq.
  - intros n' Hn'. unfold slot. destruct (decide (dirx n' = dirx n)) as [E|E].
    + rewrite E, lookup_insert_eq, HT. apply load32_zero. intros i Hir.
      apply with_table_new; auto. by apply page_word; [|apply tabx_range|].
    + rewrite lookup_insert_ne by done. destruct (T !! dirx n') as [t|] eqn:Et; [|done].
      destruct (vi_tab _ _ _ _ Hi _ _ Et) as (Hg & Hl & Htd & _).
      apply load32_page; [apply tabx_range|]. intros x Hx.
      apply (with_table_frame _ _ _ _ t); auto. intros ->. apply Hl. by left.
Qed.

(** ** walkpgdir *)

Lemma read_pte_run p s : (p =? 0) = false -> read_pte p s = ([], Ret (load32 (ram s) p) s).
Proof. intros E. unfold read_pte. by rewrite E. Qed.

Lemma pde_at_vpn s l pgdir T va :
  vm_inv s l pgdir T -> 0 <= va < 2 ^ 32 ->
  pde_at pgdir va = pgdir + 4 * dirx (vpn va) /\ (pde_at pgdir va =? 0) = false.
Proof.
  intros Hi Hva. unfold pde_at. rewrite PDX_vpn by done.
  destruct (page_word pgdir (dirx (vpn va)) (vi_dir _ _ _ _ Hi)) as (-> & Hne & _);
    [by apply dirx_range, vpn_range|]. split; [done|]. by apply Z.eqb_neq.
Qed.

Lemma pte_at_vpn t va : good_page kend t -> 0 <= va < 2 ^ 32 -> pte_at t va = t + 4 * tabx (vpn va).
Proof.
  intros Hg Hva. unfold pte_at. rewrite PTX_vpn by lia.
  apply page_word; [done|apply tabx_range].
Qed.

Lemma walk_hit s l pgdir T va b t :
  vm_inv s l pgdir T -> 0 <= va < 2 ^ 32 -> T !! dirx (vpn va) = Some t ->
  walkpgdir pgdir va b s = ([], Ret (t + 4 * tabx (vpn va)) s).
Proof.
  intros Hi Hva Ht. unfold walkpgdir, read_pte.
  destruct (pde_at_vpn _ _ _ _ va Hi Hva) as [E E0]. rewrite E0, E. unfold bind, gets. cbn.
  pose proof (vi_pde _ _ _ _ Hi (dirx (vpn va)) (dirx_range _ (vpn_range _ Hva))) as Hp.
  rewrite Ht in Hp. destruct Hp as [Hp Haddr]. unfold present in Hp. rewrite Hp, Haddr.
  destruct (vi_tab _ _ _ _ Hi _ _ Ht) as (Hg & _). by rewrite p2v_v2p, pte_at_vpn.
Qed.

Lemma walk_miss s l pgdir T va :
  vm_inv s l pgdir T -> 0 <= va < 2 ^ 32 -> T !! dirx (vpn va) = None ->
  walkpgdir pgdir va false s = ([], Ret 0 s).
Proof.
  intros Hi Hva Ht. unfold walkpgdir, read_pte.
  destruct (pde_at_vpn _ _ _ _ va Hi Hva) as [E E0]. rewrite E0, E. unfold bind, gets. cbn.
  pose proof (vi_pde _ _ _ _ Hi (dirx (vpn va)) (dirx_range _ (vpn_range _ Hva))) as Hp.
  rewrite Ht in Hp. unfold present in Hp. by rewrite Hp.
Qed.

(** The free pages suffice for the tables of the directory entries [D] that are
    still missing, with [spare] left over. *)
Definition covers (D : gset Z) (spare : nat) (T : gmap Z Z) (l : list Z) : Prop :=
  dom T ⊆ D /\ (size D + spare <= size T + length l)%nat.

Lemma covers_missing (D : gset Z) (T : gmap Z Z) d : dom T ⊆ D -> d ∈ D -> T !! d = None -> (size T < size D)%nat.
Proof using Type.
  intros HT Hd Hn. rewrite <- (size_dom (D := gset Z) T). apply subset_size. split; [done|].
  intros Hsub. apply Hsub, elem_of_dom in Hd as [t Ht]. congruence.
Qed.

Lemma covers_nil D spare T d : covers D spare T [] -> d ∈ D -> T !! d <> None.
Proof using Type. clear. intros [HT Hsz] Hd Hn. pose proof (covers_missing D T d HT Hd Hn). cbn in Hsz. lia. Qed.

Lemma covers_left D spare T l : covers D spare T l -> (spare <= length l)%nat.
Proof using Type.
  clear. intros [HT Hsz]. apply subseteq_size in HT. rewrite (size_dom (D := gset Z) T) in HT. lia.
Qed.

Lemma covers_insert D spare T d p l : covers D spare T (p :: l) -> d ∈ D -> T !! d = None -> covers D spare (<[d := p]> T) l.
Proof using Type.
  clear. intros [HT Hsz] Hd Hn. split; [set_solver|]. rewrite map_size_insert_None by done. cbn in Hsz. lia.
Qed.

(** With [alloc] set: the entry is found or its table made, unless memory is out. *)
Lemma walk_alloc s l pgdir T va :
  vm_inv s l pgdir T -> 0 <= va < 2 ^ 32 ->
  (l = [] /\ T !! dirx (vpn va) = None /\ walkpgdir pgdir va true s = ([], Ret 0 s))
  \/ exists s' l' T' t,
      walkpgdir pgdir va true s = ([], Ret (t + 4 * tabx (vpn va)) s')
      /\ T' !! dirx (vpn va) = Some t
      /\ vm_step pgdir s l T s' l' T'
      /\ (length l <= length l' + 1)%nat
      /\ (forall n, 0 <= n < 2 ^ 20 -> slot (ram s') T' n = slot (ram s) T n)
      /\ (forall D spare, dirx (vpn va) ∈ D -> covers D spare T l -> covers D spare T' l').
Proof.
  intros Hi Hva. destruct (T !! dirx (vpn va)) as [t|] eqn:Ht.
  { right. exists s, l, T, t. split; [by apply (walk_hit s l pgdir T)|].
    split; [done|]. split; [by apply vm_step_refl|]. split; [lia|]. split; done. }
  pose proof (vi_pde _ _ _ _ Hi (dirx (vpn va)) (dirx_range _ (vpn_range _ Hva))) as Hp.
  rewrite Ht in Hp. unfold present in Hp.
  pose proof (kalloc_inv kend Hend s l (vi_alloc _ _ _ _ Hi)) as Hk.
  destruct (pde_at_vpn _ _ _ _ va Hi Hva) as [E E0].
  unfold walkpgdir. run_with (read_pte_run _ s E0). rewrite E, Hp. cbn [negb]. destruct l as [|p l].
  { left. split; [done|]. split; [done|]. by run_with Hk. }
  right. destruct Hk as (s1 & Hk & Ha & Hr & _).
  destruct (with_table_step s s1 l pgdir T (vpn va) p Hi (vpn_range _ Hva) Ht Ha Hr) as [Hst Hsl].
  destruct (vi_tab _ _ _ _ (vs_inv _ _ _ _ _ _ _ Hst) (dirx (vpn va)) p) as (Hg & _); [apply lookup_insert_eq|].
  pose proof (good_page_range kend Hend p Hg) as Hrg.
  eexists _, l, (<[dirx (vpn va) := p]> T), p. split; [|split; [apply lookup_insert_eq|split; [exact Hst|split; [cbn; lia|split; [exact Hsl|]]]]].
  2: { intros D spare Hd Hc. by apply covers_insert. }
  run_with Hk. destruct (Z.eqb_spec p 0); [vm_consts; lia|].
  unfold bind, modify, write_pte, modify, ret, on_ram. cbn [fst snd app ram km]. rewrite pte_at_vpn by done. unfold with_table, dir_entry. by rewrite Hr.
Qed.

(** ** mappages *)

Lemma page_next x : x `mod` PGSIZE = 0 -> (x + PGSIZE) `mod` PGSIZE = 0.
Proof. intros Hx. rewrite <- Zplus_mod_idemp_l, Hx. done. Qed.

Lemma vpn_next a i : a `mod` PGSIZE = 0 -> vpn (a + PGSIZE * i) = vpn a + i.
Proof. intros Ha. unfold vpn. rewrite Z.mul_comm, Z.div_add by done. done. Qed.

Lemma vpn_next1 a : a `mod` PGSIZE = 0 -> vpn (a + PGSIZE) = vpn a + 1.
Proof. intros Ha. rewrite <- (vpn_next a 1) by done. done. Qed.

(** The entries after the first [j] pages from [n0] were mapped to [pa]. *)
Definition mapped (pa perm n0 j : Z) (f : Z -> Z) (n : Z) : Z :=
  if (n0 <=? n) && (n <? n0 + j) then entry (pa + PGSIZE * (n - n0)) perm else f n.

Lemma mapped_0 pa perm n0 f n : mapped pa perm n0 0 f n = f n.
Proof.
  unfold mapped. destruct (Z.leb_spec n0 n), (Z.ltb_spec n (n0 + 0)); try done; lia.
Qed.

Lemma mapped_cons pa perm n0 j f n :
  0 <= j ->
  mapped (pa + PGSIZE) perm (n0 + 1) j (fun n => if n =? n0 then entry pa perm else f n) n
  = mapped pa perm n0 (j + 1) f n.
Proof.
  intros Hj. unfold mapped.
  destruct (Z.leb_spec (n0 + 1) n), (Z.leb_spec n0 n), (Z.ltb_spec n (n0 + 1 + j)),
    (Z.ltb_spec n (n0 + (j + 1))), (Z.eqb_spec n n0); cbn; try lia; try done.
  - f_equal. lia.
  - subst. f_equal. lia.
Qed.

(** One turn of the loop of [mappages]. *)
Lemma map_page s l T pgdir a last pa perm k :
  vm_inv s l pgdir T -> 0 <= a < 2 ^ 32 ->
  pa `mod` PGSIZE = 0 -> 0 <= pa < 2 ^ 32 -> 0 <= perm < PGSIZE ->
  present (slot (ram s) T (vpn a)) = false ->
  (l = [] /\ T !! dirx (vpn a) = None /\ mappages_loop (S k) pgdir a last pa perm s = ([], Ret (-1) s))
  \/ exists s' l' T',
      vm_step pgdir s l T s' l' T' /\ (length l <= length l' + 1)%nat
      /\ (forall n, 0 <= n < 2 ^ 20 ->
            slot (ram s') T' n = if n =? vpn a then entry pa perm else slot (ram s) T n)
      /\ (forall D spare, dirx (vpn a) ∈ D -> covers D spare T l -> covers D spare T' l')
      /\ mappages_loop (S k) pgdir a last pa perm s
         = (if a =? last then ret 0
            else mappages_loop k pgdir (u32 (a + PGSIZE)) last (u32 (pa + PGSIZE)) perm) s'.
Proof.
  intros Hi Ha Hpa Hpr Hperm Hfree. cbn [mappages_loop].
  destruct (walk_alloc s l pgdir T a Hi Ha) as [(-> & HT & Hw)|(s1 & l1 & T1 & t & Hw & Ht & Hst & Hlen & Hsl & Hcov)].
  { left. split; [done|]. split; [done|]. unfold bind. by rewrite Hw. }
  right. pose proof (vpn_range a Ha) as Hv. pose proof (vs_inv _ _ _ _ _ _ _ Hst) as Hi1.
  destruct (vi_tab _ _ _ _ Hi1 _ _ Ht) as (Hg & _).
  destruct (page_word t (tabx (vpn a)) Hg (tabx_range _)) as (_ & Hnz & _).
  destruct (set_slot s1 l1 pgdir T1 (vpn a) t (entry pa perm) Hi1 Hv Ht) as [Hst2 Hsl2];
    [by apply entry_range|].
  eexists _, l1, T1. split; [eapply vm_step_trans; [exact Hst|exact Hst2]|]. split; [done|]. split; [|split; [exact Hcov|]].
  { intros n Hn. cbn [on_ram ram]. rewrite Hsl2, Hsl; done. }
  run_with Hw. apply Z.eqb_neq in Hnz. rewrite Hnz. run_with (read_pte_run _ s1 Hnz).
  assert (load32 (ram s1) (t + 4 * tabx (vpn a)) = slot (ram s1) T1 (vpn a)) as ->
    by (unfold slot; by rewrite Ht).
  rewrite Hsl by done. unfold present in Hfree. rewrite Hfree.
  erewrite bind_nil; reflexivity.
Qed.

Lemma map_present s l T pgdir a last pa perm k :
  vm_inv s l pgdir T -> 0 <= a < 2 ^ 32 -> present (slot (ram s) T (vpn a)) = true ->
  mappages_loop (S k) pgdir a last pa perm s = ([], Panic "remap").
Proof.
  intros Hi Ha Hpr. unfold slot in Hpr. destruct (T !! dirx (vpn a)) as [t|] eqn:Ht; [|done].
  cbn [mappages_loop]. run_with (walk_hit s l pgdir T a true t Hi Ha Ht).
  destruct (vi_tab _ _ _ _ Hi _ _ Ht) as (Hg & _).
  destruct (page_word t (tabx (vpn a)) Hg (tabx_range _)) as (_ & Hnz & _).
  apply Z.eqb_neq in Hnz. rewrite Hnz. run_with (read_pte_run _ s Hnz).
  unfold present in Hpr. by rewrite Hpr.
Qed.

Lemma mappages_loop_ok perm k pgdir : 0 <= perm < PGSIZE ->
  forall a pa s l T,
  vm_inv s l pgdir T ->
  a `mod` PGSIZE = 0 -> 0 <= a -> a + PGSIZE * (Z.of_nat k + 1) <= 2 ^ 32 ->
  pa `mod` PGSIZE = 0 -> 0 <= pa -> pa + PGSIZE * (Z.of_nat k + 1) <= 2 ^ 32 ->
  (forall i, 0 <= i <= Z.of_nat k -> present (slot (ram s) T (vpn a + i)) = false) ->
  exists r j s' l' T',
    mappages_loop (S k) pgdir a (a + PGSIZE * Z.of_nat k) pa perm s = ([], Ret r s')
    /\ vm_step pgdir s l T s' l' T'
    /\ (r = 0 /\ j = Z.of_nat k + 1 \/ r = -1 /\ 0 <= j <= Z.of_nat k /\ l' = [])
    /\ (forall n, 0 <= n < 2 ^ 20 -> slot (ram s') T' n = mapped pa perm (vpn a) j (slot (ram s) T) n)
    /\ (forall D spare, (forall i, 0 <= i <= Z.of_nat k -> dirx (vpn a + i) ∈ D) -> covers D spare T l -> r = 0 /\ covers D spare T' l').
Proof.
  intros Hperm. induction k as [|k IH]; intros a pa s l T Hi Ha Ha0 Haw Hpa Hpa0 Hpaw Hfree.
  all: match goal with |- context [mappages_loop (S ?k) _ _ ?e] =>
      destruct (map_page s l T pgdir a e pa perm k Hi) as [(-> & HT & E)|(s1 & l1 & T1 & Hst & _ & Hsl & Hcov & E)]
    end; try (done || unfold PGSIZE in *; lia);
    try (rewrite <- (Z.add_0_r (vpn a)); apply Hfree; lia);
    try (exists (-1), 0, s, [], T; split; [exact E|]; split; [by apply vm_step_refl|];
         split; [right; split_and?; done || lia|]; split; [intros n _; by rewrite mapped_0|];
         intros D spare HD Hc; exfalso; specialize (HD 0 ltac:(lia)); rewrite Z.add_0_r in HD; by apply (covers_nil _ _ _ _ Hc HD)).
  - exists 0, (0 + 1), s1, l1, T1. rewrite E.
    assert ((a =? a + PGSIZE * Z.of_nat 0) = true) as -> by (apply Z.eqb_eq; lia).
    split; [done|]. split; [done|]. split; [by left|]. split.
    { intros n Hn. by rewrite <- mapped_cons, mapped_0, Hsl. }
    intros D spare HD Hc. split; [done|]. apply Hcov; [|done]. rewrite <- (Z.add_0_r (vpn a)). apply HD. lia.
  - assert (vpn (a + PGSIZE) = vpn a + 1) as Hvn by by apply vpn_next1.
    assert (0 <= vpn a < 2 ^ 20) by (apply vpn_range; unfold PGSIZE in *; lia).
    assert (vpn a + Z.of_nat (S k) < 2 ^ 20).
    { rewrite <- vpn_next by done. apply vpn_range. unfold PGSIZE in *; lia. }
    destruct (IH (a + PGSIZE) (pa + PGSIZE) s1 l1 T1) as (r & j & s2 & l2 & T2 & E2 & Hst2 & Hr & Hsl2 & Hcov2);
      try (unfold PGSIZE in *; lia); [apply Hst|by apply page_next..| |].
    { intros i Hir. rewrite Hvn, Hsl by lia. destruct (Z.eqb_spec (vpn a + 1 + i) (vpn a)); [lia|].
      rewrite <- Z.add_assoc. apply Hfree. lia. }
    exists r, (j + 1), s2, l2, T2. rewrite E. split; [|split; [by eapply vm_step_trans|split; [|split]]].
    { destruct (Z.eqb_spec a (a + PGSIZE * Z.of_nat (S k))); [unfold PGSIZE in *; lia|].
      rewrite !u32_small by (unfold PGSIZE in *; lia).
      replace (a + PGSIZE * Z.of_nat (S k)) with (a + PGSIZE + PGSIZE * Z.of_nat k) by lia. exact E2. }
    { destruct Hr as [?|(? & ? & ?)]; [left|right]; split_and?; auto; lia. }
    { intros n Hn. rewrite Hsl2, Hvn by done. rewrite <- mapped_cons by (destruct Hr as [?|?]; lia).
      unfold mapped. destruct (_ && _) eqn:Eb; [done|]. by apply Hsl. }
    intros D spare HD Hc. apply Hcov2.
    { intros i Hir. rewrite Hvn, <- Z.add_assoc. apply HD. lia. }
    apply Hcov; [|done]. rewrite <- (Z.add_0_r (vpn a)). apply HD. lia.
Qed.

(** [mappages] of a range of [j] pages. *)
Lemma mappages_fuel va size :
  0 <= va -> 0 < size -> va + size <= 2 ^ 32 ->
  exists k, vpn (va + size - 1) = vpn va + Z.of_nat k
    /\ PGROUNDDOWN va `mod` PGSIZE = 0 /\ 0 <= PGROUNDDOWN va <= va /\ vpn (PGROUNDDOWN va) = vpn va
    /\ PGROUNDDOWN va + PGSIZE * (Z.of_nat k + 1) <= 2 ^ 32
    /\ forall pgdir pa perm, mappages pgdir va size pa perm
        = mappages_loop (S k) pgdir (PGROUNDDOWN va) (PGROUNDDOWN va + PGSIZE * Z.of_nat k) pa perm.
Proof.
  intros Hva Hsz Hw. set (e := va + size - 1).
  assert (0 <= vpn va <= vpn e /\ vpn e < 2 ^ 20) as [Hv1 Hv2].
  { unfold vpn, e, PGSIZE. split; [|apply Z.div_lt_upper_bound; lia]. split; [apply Z.div_pos; lia|].
    apply Z.div_le_mono; lia. }
  assert (forall x, 0 <= x < 2 ^ 32 -> PGROUNDDOWN x = PGSIZE * vpn x) as Hr.
  { intros x Hx. rewrite land_pgmask by done. unfold vpn. pose proof (Z.div_mod x PGSIZE ltac:(done)). lia. }
  exists (Z.to_nat (vpn e - vpn va)). rewrite Z2Nat.id by lia. split; [lia|].
  unfold mappages. fold e. rewrite (u32_small e) by (unfold e; lia). rewrite !Hr by (unfold e; lia).
  split; [by rewrite Z.mul_comm, Z.mod_mul|].
  split; [pose proof (Z.div_mod va PGSIZE ltac:(done)); pose proof (Z.mod_pos_bound va PGSIZE ltac:(done));
          unfold vpn, PGSIZE in *; lia|].
  split; [unfold vpn; by rewrite Z.mul_comm, Z.div_mul|].
  split; [unfold PGSIZE; lia|]. intros pgdir pa perm.
  rewrite u32_small by (unfold PGSIZE in *; lia).
  rewrite <- Z.mul_sub_distr_l, Z.mul_comm, Z.div_mul by done.
  rewrite Z2Nat.inj_add, Nat.add_1_r by lia. f_equal. lia.
Qed.

(** An entry that is present is never replaced. *)
Lemma mappages_loop_remap perm k pgdir : 0 <= perm < PGSIZE ->
  forall a pa s l T i,
  vm_inv s l pgdir T ->
  a `mod` PGSIZE = 0 -> 0 <= a -> a + PGSIZE * (Z.of_nat k + 1) <= 2 ^ 32 ->
  pa `mod` PGSIZE = 0 -> 0 <= pa -> pa + PGSIZE * (Z.of_nat k + 1) <= 2 ^ 32 ->
  0 <= i <= Z.of_nat k -> present (slot (ram s) T (vpn a + i)) = true ->
  let r := mappages_loop (S k) pgdir a (a + PGSIZE * Z.of_nat k) pa perm s in
  r = ([], Panic "remap") \/ exists s', r = ([], Ret (-1) s').
Proof.
  intros Hperm. induction k as [|k IH]; intros a pa s l T i Hi Ha Ha0 Haw Hpa Hpa0 Hpaw Hir Hpr r.
  all: destruct (present (slot (ram s) T (vpn a))) eqn:Hfree;
    [left; apply (map_present _ _ _ _ _ _ _ _ _ Hi); [unfold PGSIZE in *; lia|done]|].
  - assert (i = 0) as -> by lia. rewrite Z.add_0_r in Hpr. congruence.
  - destruct (map_page s l T pgdir a (a + PGSIZE * Z.of_nat (S k)) pa perm (S k) Hi)
      as [(-> & _ & E)|(s1 & l1 & T1 & Hst & _ & Hsl & _ & E)]; try (done || unfold PGSIZE in *; lia); [right; by exists s|].
    destruct (decide (i = 0)) as [->|Hi0]; [rewrite Z.add_0_r in Hpr; congruence|].
    assert (vpn (a + PGSIZE) = vpn a + 1) as Hvn by by apply vpn_next1.
    assert (vpn a + i < 2 ^ 20).
    { rewrite <- vpn_next by done. apply vpn_range. unfold PGSIZE in *; lia. }
    assert (0 <= vpn a) by (apply vpn_range; unfold PGSIZE in *; lia).
    subst r. rewrite E. destruct (Z.eqb_spec a (a + PGSIZE * Z.of_nat (S k))); [unfold PGSIZE in *; lia|].
    rewrite !u32_small by (unfold PGSIZE in *; lia).
    replace (a + PGSIZE * Z.of_nat (S k)) with (a + PGSIZE + PGSIZE * Z.of_nat k) by lia.
    apply (IH _ _ s1 l1 T1 (i - 1)); try (by apply page_next); try (unfold PGSIZE in *; lia); [apply Hst|].
    rewrite Hvn, Hsl by lia. destruct (Z.eqb_spec (vpn a + 1 + (i - 1)) (vpn a)); [lia|].
    by replace (vpn a + 1 + (i - 1)) with (vpn a + i) by lia.
Qed.

End VmTable.
