(* ===== verification/VmSpace.v ===== *)
(** * User address spaces

    A user address space is a map from virtual page numbers to pages with their
    permissions.  This file shows how [allocuvm], [deallocuvm], [freevm] and
    [copyuvm] change that map, which pages they take
    from and give back to the allocator, and that they leave the pages of other
    address spaces alone. *)

From stdpp Require Import base numbers list gmap strings.
From S2P Require Import Prelude Bytes Mem Str Kalloc Vm VmTable.

Open Scope Z_scope.

(** User pages are those below [KERNBASE]. *)
Definition UPAGES : Z := KERNBASE / PGSIZE.

(** The pages a size takes. *)
Definition npages (sz : Z) : nat := Z.to_nat ((sz + PGSIZE - 1) / PGSIZE).

Section VmSpace.

Context (kend : Z) (Hend : KERNBASE <= kend).

#[local] Abbreviation vm_inv := (vm_inv kend).
#[local] Abbreviation vm_step := (vm_step kend).
#[local] Abbreviation good_page := (good_page kend).

Definition tables (pgdir : Z) (T : gmap Z Z) (q : Z) : Prop := q = pgdir \/ exists i, T !! i = Some q.

Record space (s : pmem) (l : list Z) (pgdir : Z) (T : gmap Z Z) (U : gmap Z (Z * Z)) : Prop := {
  sp_vm : vm_inv s l pgdir T;
  sp_slot : forall n, 0 <= n < UPAGES ->
    match U !! n with
    | Some (p, f) => slot (ram s) T n = entry (v2p p) f
    | None => present (slot (ram s) T n) = false
    end;
  sp_page : forall n p f, U !! n = Some (p, f) ->
    0 <= n < UPAGES /\ good_page p /\ (p ∉ l) /\ ~ tables pgdir T p /\ 0 <= f < PGSIZE;
  sp_inj : forall n m p f g, U !! n = Some (p, f) -> U !! m = Some (p, g) -> n = m
}.

(** All the pages of an address space. *)
Definition owns (pgdir : Z) (T : gmap Z Z) (U : gmap Z (Z * Z)) (q : Z) : Prop :=
  tables pgdir T q \/ exists n f, U !! n = Some (q, f).

(** The pages where [P] holds keep their contents. *)
Definition kept (P : Z -> Prop) (s s' : pmem) : Prop :=
  forall q x, P q -> good_page q -> in_page q x -> ram s' x = ram s x.

(** A byte of user memory. *)
Definition ubyte (s : pmem) (U : gmap Z (Z * Z)) (va : Z) : Z :=
  match U !! vpn va with
  | Some (p, _) => ram s (p + va `mod` PGSIZE)
  | None => 0
  end.

Lemma kept_trans P Q s s1 s2 : kept P s s1 -> kept Q s1 s2 -> (forall q, P q -> Q q) -> kept P s s2.
Proof. intros H1 H2 HPQ q x Hq Hg Hx. rewrite (H2 q x), (H1 q x); auto. Qed.

Lemma kept_weaken (P Q : Z -> Prop) s s' : kept P s s' -> (forall q, Q q -> P q) -> kept Q s s'.
Proof. intros H1 HPQ q x Hq. apply H1. auto. Qed.

Lemma step_kept pgdir s l T s' l' T' :
  vm_step pgdir s l T s' l' T' -> kept (fun q => (q ∉ l) /\ ~ tables pgdir T q) s s'.
Proof.
  intros Hst q x [Hl Ht] Hg Hx. apply (vs_frame _ _ _ _ _ _ _ _ Hst q); auto.
  - intros ->. apply Ht. by left.
  - intros i Hi. destruct (vs_new _ _ _ _ _ _ _ _ Hst _ _ Hi); [apply Ht; right; by eexists|done].
Qed.

(** Tables are not user pages, also after the tables grew. *)
Lemma step_tables pgdir s l T s' l' T' q :
  vm_step pgdir s l T s' l' T' -> q ∉ l -> ~ tables pgdir T q -> (q ∉ l') /\ ~ tables pgdir T' q.
Proof.
  intros Hst Hl Ht. split.
  - intros Hq. apply Hl. eapply suffix_elem; [apply Hst|done].
  - intros [->|[i Hi]]; [apply Ht; by left|].
    destruct (vs_new _ _ _ _ _ _ _ _ Hst _ _ Hi); [apply Ht; right; by eexists|done].
Qed.

(** ** Taking a page *)

Lemma vm_inv_pop s s1 l pgdir T p :
  vm_inv s (p :: l) pgdir T -> alloc_inv kend s1 l -> ram s1 = ram s -> vm_inv s1 l pgdir T.
Proof.
  intros [Ha Hd Hu Ht Hj Hp] Ha1 Hr. constructor; auto.
  - by apply not_elem_of_cons in Hu as [_ ?].
  - intros i t Hi. destruct (Ht i t Hi) as (? & Hl & ?). by apply not_elem_of_cons in Hl as [_ ?].
  - intros i Hi. rewrite Hr. by apply Hp.
Qed.

(** [p] is in no page list of the address space. *)
Definition fresh (l : list Z) (pgdir : Z) (T : gmap Z Z) (U : gmap Z (Z * Z)) (p : Z) : Prop :=
  good_page p /\ (p ∉ l) /\ ~ tables pgdir T p /\ forall n f, U !! n <> Some (p, f).

Lemma slot_frame s l pgdir T m' n :
  vm_inv s l pgdir T -> (forall t x, (exists i, T !! i = Some t) -> in_page t x -> m' x = ram s x) ->
  slot m' T n = slot (ram s) T n.
Proof.
  intros Hi Hx. unfold slot. destruct (T !! dirx n) as [t|] eqn:Et; [|done].
  apply load32_page; [apply tabx_range|]. intros x. apply Hx. by eexists.
Qed.

Lemma free_page s l pgdir T U p : space s (p :: l) pgdir T U -> fresh l pgdir T U p.
Proof.
  intros Hs. pose proof (sp_vm _ _ _ _ _ Hs) as Hi.
  pose proof (ai_good _ _ _ (vi_alloc _ _ _ _ _ Hi)) as HF. apply Forall_cons in HF as [Hp _].
  pose proof (ai_nodup _ _ _ (vi_alloc _ _ _ _ _ Hi)) as HN. apply NoDup_cons in HN as [Hpl _].
  split; [done|]. split; [done|]. split.
  - intros [->|[i Hti]]; [by apply (vi_dir_used _ _ _ _ _ Hi); left|].
    destruct (vi_tab _ _ _ _ _ Hi _ _ Hti) as (_ & Hl & _). by apply Hl; left.
  - intros n f Hk. destruct (sp_page _ _ _ _ _ Hs n p f Hk) as (_ & _ & Hl & _). by apply Hl; left.
Qed.

(** Memory may be changed in pages that are neither free nor tables. *)
Lemma space_frame s l pgdir T U m' :
  space s l pgdir T U -> mem_ok m' ->
  (forall q x, q ∈ l \/ tables pgdir T q -> in_page q x -> m' x = ram s x) ->
  space (mk_pmem m' (km s)) l pgdir T U.
Proof.
  intros [Hi Hsl Hpg Hinj] Hm Hx. constructor; auto.
  - apply vm_inv_frame; auto. intros q x Hq. apply Hx. apply elem_of_cons in Hq as [->|]; [right; by left|by left].
  - intros n Hn. cbn [ram]. rewrite (slot_frame s l pgdir T); [by apply Hsl|done|].
    intros t x Ht. apply Hx. right. by right.
Qed.

Lemma space_pop s s1 l pgdir T U p :
  space s (p :: l) pgdir T U -> alloc_inv kend s1 l -> ram s1 = ram s -> space s1 l pgdir T U.
Proof.
  intros [Hi Hsl Hpg Hinj] Ha Hr. constructor; auto.
  - by apply (vm_inv_pop s _ _ _ _ p).
  - by rewrite Hr.
  - intros k q f Hk. destruct (Hpg k q f Hk) as (? & ? & Hl & ?). by apply not_elem_of_cons in Hl as [_ ?].
Qed.

(** The space seen after its tables changed, apart from the entries. *)
Lemma space_step s l pgdir T U s' l' T' :
  space s l pgdir T U -> vm_step pgdir s l T s' l' T' ->
  (forall n, 0 <= n < UPAGES -> slot (ram s') T' n = slot (ram s) T n) -> space s' l' pgdir T' U.
Proof.
  intros [Hi Hsl Hpg Hinj] Hst Heq. constructor; auto.
  - apply Hst.
  - intros n Hr. rewrite Heq by done. by apply Hsl.
  - intros k q f Hk. destruct (Hpg k q f Hk) as (? & ? & Hl & Ht & ?).
    by destruct (step_tables _ _ _ _ _ _ _ _ Hst Hl Ht).
Qed.

(** ** Mapping a page at the end *)

Lemma mapped_one pa perm n0 f n : mapped pa perm n0 1 f n = if n =? n0 then entry pa perm else f n.
Proof.
  unfold mapped. destruct (Z.leb_spec n0 n), (Z.ltb_spec n (n0 + 1)), (Z.eqb_spec n n0); try lia; try done.
  subst. cbn. f_equal. lia.
Qed.

Lemma map_one_page s l pgdir T a pa perm :
  vm_inv s l pgdir T -> a `mod` PGSIZE = 0 -> 0 <= a -> a + PGSIZE <= 2 ^ 32 ->
  pa `mod` PGSIZE = 0 -> 0 <= pa -> pa + PGSIZE <= 2 ^ 32 -> 0 <= perm < PGSIZE ->
  present (slot (ram s) T (vpn a)) = false ->
  (l = [] /\ mappages pgdir a PGSIZE pa perm s = ([], Ret (-1) s))
  \/ exists s' l' T', mappages pgdir a PGSIZE pa perm s = ([], Ret 0 s')
      /\ vm_step pgdir s l T s' l' T' /\ (length l <= length l' + 1)%nat
      /\ (forall n, 0 <= n < 2 ^ 20 ->
            slot (ram s') T' n = if n =? vpn a then entry pa perm else slot (ram s) T n).
Proof.
  intros Hi Ha Ha0 Haw Hpa Hpa0 Hpaw Hperm Hfree.
  destruct (mappages_fuel a PGSIZE) as (k & Hk & _ & _ & _ & _ & E); [done..|].
  assert (vpn (a + PGSIZE - 1) = vpn a) as Hv.
  { unfold vpn. replace (a + PGSIZE - 1) with ((PGSIZE - 1) + (a / PGSIZE) * PGSIZE).
    - rewrite Z.div_add by done. done.
    - pose proof (Z.div_mod a PGSIZE ltac:(done)). lia. }
  assert (k = 0%nat) as -> by lia. rewrite E.
  assert (PGROUNDDOWN a = a) as -> by (rewrite land_pgmask, Ha by (unfold PGSIZE in *; lia); lia).
  destruct (map_page kend Hend s l T pgdir a (a + PGSIZE * Z.of_nat 0) pa perm 0 Hi)
    as [(-> & _ & E1)|(s' & l' & T' & Hst & Hlen & Hsl & _ & E1)]; try (done || unfold PGSIZE in *; lia).
  - by left.
  - right. exists s', l', T'. split; [|done]. rewrite E1.
    assert ((a =? a + PGSIZE * Z.of_nat 0) = true) as -> by (apply Z.eqb_eq; lia). done.
Qed.

Lemma v2p_fits p : good_page p -> v2p p `mod` PGSIZE = 0 /\ 0 <= v2p p /\ v2p p + PGSIZE <= 2 ^ 32.
Proof.
  intros Hg. destruct (v2p_page kend Hend p Hg) as (E & Hr & Ha).
  pose proof (good_page_range kend Hend p Hg) as Hgr. split; [done|]. vm_consts. lia.
Qed.

Lemma UPAGES_eq : UPAGES = 524288.
Proof. reflexivity. Qed.

(** The address of a page number. *)
Lemma vpn_page n : vpn (PGSIZE * n) = n.
Proof. unfold vpn. by rewrite Z.mul_comm, Z.div_mul. Qed.

(** A present entry, added or replaced. *)
Lemma space_insert s l pgdir T U n p f s' l' T' :
  space s l pgdir T U -> fresh l pgdir T U p -> 0 <= f < PGSIZE -> 0 <= n < UPAGES ->
  vm_step pgdir s l T s' l' T' ->
  (forall n', 0 <= n' < 2 ^ 20 ->
     slot (ram s') T' n' = if n' =? n then entry (v2p p) f else slot (ram s) T n') ->
  space s' l' pgdir T' (<[n := (p, f)]> U).
Proof.
  intros Hs (Hg & Hl & Ht & HU) Hf Hn Hst Hsl. destruct Hs as [Hi Hslot Hpg Hinj]. constructor.
  - apply Hst.
  - intros n' Hn'. pose proof (Hslot n' Hn') as H1. rewrite UPAGES_eq in *. rewrite Hsl by lia.
    destruct (Z.eqb_spec n' n) as [->|Hne]; [by rewrite lookup_insert_eq|by rewrite lookup_insert_ne].
  - intros k q g [[<- [= <- <-]]|[_ Hk]]%lookup_insert_Some.
    + by destruct (step_tables _ _ _ _ _ _ _ _ Hst Hl Ht).
    + destruct (Hpg k q g Hk) as (? & ? & Hql & Hqt & ?). by destruct (step_tables _ _ _ _ _ _ _ _ Hst Hql Hqt).
  - intros k k' q g g' [[<- E]|[? Hk]]%lookup_insert_Some [[<- E']|[? Hk']]%lookup_insert_Some; simplify_eq;
      [done|by destruct (HU k' g')|by destruct (HU k g)|by eapply Hinj].
Qed.

(** [mappages] of a fresh page where there is none. *)
Lemma map_user s l pgdir T U n p f :
  space s l pgdir T U -> fresh l pgdir T U p -> 0 <= f < PGSIZE -> 0 <= n < UPAGES -> U !! n = None ->
  exists s' l' T' r, mappages pgdir (PGSIZE * n) PGSIZE (v2p p) f s = ([], Ret r s')
    /\ vm_step pgdir s l T s' l' T'
    /\ (r = 0 /\ space s' l' pgdir T' (<[n := (p, f)]> U) /\ (length l <= length l' + 1)%nat
        \/ r = -1 /\ l = [] /\ s' = s /\ l' = [] /\ T' = T).
Proof.
  intros Hs Hfr Hf Hn HU. pose proof Hfr as (Hg & _).
  destruct (v2p_fits p Hg) as (Hv1 & Hv2 & Hv3). pose proof (vpn_page n) as Hva.
  pose proof (sp_slot _ _ _ _ _ Hs n Hn) as Hfree. rewrite HU in Hfree.
  pose proof Hn as Hn'. rewrite UPAGES_eq in Hn'.
  destruct (map_one_page s l pgdir T (PGSIZE * n) (v2p p) f (sp_vm _ _ _ _ _ Hs))
    as [[-> E]|(s' & l' & T' & E & Hst & Hll & Hsl)];
    rewrite ?Hva; auto; try (unfold PGSIZE in *; lia); [by rewrite Z.mul_comm, Z.mod_mul| |].
  - exists s, [], T, (-1). split; [exact E|]. split; [apply vm_step_refl, Hs|]. right. done.
  - exists s', l', T', 0. split; [exact E|]. split; [done|]. left. split; [done|]. split; [|done].
    rewrite Hva in Hsl. by apply (space_insert s l pgdir T U n p f).
Qed.

(** ** allocuvm *)

(** [kalloc] and the fill of the new page with zeroes. *)
Lemma take_zeroed s l pgdir T U p c :
  space s (p :: l) pgdir T U ->
  exists s1, kalloc s = ([], Ret p s1) /\ fresh l pgdir T U p /\ p <> 0
    /\ space (on_ram (memset p c PGSIZE) s1) l pgdir T U
    /\ kept (fun q => q <> p) s (on_ram (memset p c PGSIZE) s1)
    /\ (forall x, in_page p x -> ram (on_ram (memset p c PGSIZE) s1) x = u8 c).
Proof.
  intros Hs. pose proof (free_page _ _ _ _ _ _ Hs) as Hf. pose proof Hf as (Hg & Hl & Ht & HU).
  destruct (kalloc_inv kend Hend s (p :: l) (vi_alloc _ _ _ _ _ (sp_vm _ _ _ _ _ Hs))) as (s1 & Hk & Ha & Hr & _).
  exists s1. split; [done|]. split; [done|].
  pose proof (good_page_range kend Hend p Hg) as Hrg. split; [vm_consts; lia|].
  assert (forall q x, good_page q -> q <> p -> in_page q x -> memset p c PGSIZE (ram s1) x = ram s1 x) as Hfr.
  { intros q x Hq Hne Hx. rewrite (memset_page kend Hend) by done.
    rewrite bool_decide_eq_false_2; [done|]. by apply (good_page_disjoint kend q). }
  pose proof (space_pop s s1 l pgdir T U p Hs Ha Hr) as Hs1. split; [|split].
  - apply space_frame; [done|apply (memset_page_ok kend Hend); [done|apply Ha]|].
    intros q x Hq Hx. apply (Hfr q); [|by intros ->; destruct Hq|done].
    destruct Hq as [Hq|[->|[i Hi]]]; [|apply Hs1|].
    + pose proof (ai_good _ _ _ Ha) as HF. rewrite Forall_forall in HF. auto.
    + by apply (vi_tab _ _ _ _ _ (sp_vm _ _ _ _ _ Hs1) _ _ Hi).
  - intros q x Hne Hq Hx. cbn. rewrite (Hfr q) by done. by rewrite Hr.
  - intros x Hx. cbn. rewrite (memset_page kend Hend) by done. by rewrite bool_decide_eq_true_2.
Qed.

Lemma npages_lt sz k : 0 <= sz -> (PGSIZE * k <? sz) = (k <? Z.of_nat (npages sz)).
Proof.
  intros Hsz. unfold npages. rewrite Z2Nat.id by (apply Z.div_pos; unfold PGSIZE; lia).
  pose proof (Z.div_mod (sz + PGSIZE - 1) PGSIZE ltac:(done)).
  pose proof (Z.mod_pos_bound (sz + PGSIZE - 1) PGSIZE ltac:(done)).
  destruct (Z.ltb_spec (PGSIZE * k) sz), (Z.ltb_spec k ((sz + PGSIZE - 1) / PGSIZE)); try done; unfold PGSIZE in *; lia.
Qed.

Lemma npages_user sz : 0 <= sz <= KERNBASE -> Z.of_nat (npages sz) <= UPAGES.
Proof.
  intros Hsz. unfold npages. rewrite Z2Nat.id by (apply Z.div_pos; unfold PGSIZE; lia).
  rewrite UPAGES_eq. vm_consts.
  assert ((sz + 4096 - 1) / 4096 < 524289); [apply Z.div_lt_upper_bound|]; lia.
Qed.

Lemma npages_mono sz sz' : 0 <= sz <= sz' -> (npages sz <= npages sz')%nat.
Proof.
  intros H. unfold npages. apply Z2Nat.inj_le; try (apply Z.div_pos; unfold PGSIZE; lia).
  apply Z.div_le_mono; unfold PGSIZE; lia.
Qed.

Lemma PGROUNDUP_pages sz : 0 <= sz -> sz + PGSIZE <= 2 ^ 32 -> PGROUNDUP sz = PGSIZE * Z.of_nat (npages sz).
Proof.
  intros Hsz Hw. destruct (PGROUNDUP_spec sz Hsz Hw) as [Hm Hr].
  pose proof (npages_lt sz (PGROUNDUP sz / PGSIZE) Hsz) as H1.
  pose proof (npages_lt sz (PGROUNDUP sz / PGSIZE - 1) Hsz) as H2.
  pose proof (Z.div_mod (PGROUNDUP sz) PGSIZE ltac:(done)) as Hd. rewrite Hm in Hd.
  destruct (Z.ltb_spec (PGSIZE * (PGROUNDUP sz / PGSIZE)) sz); [lia|].
  symmetry in H1. apply Z.ltb_ge in H1.
  destruct (Z.ltb_spec (PGSIZE * (PGROUNDUP sz / PGSIZE - 1)) sz) as [|Hge]; [|unfold PGSIZE in *; lia].
  symmetry in H2. apply Z.ltb_lt in H2. etransitivity; [exact Hd|]. rewrite Z.add_0_r. f_equal. lia.
Qed.

Definition USER : Z := Z.lor PTE_W PTE_U.

(** Pages [k] to [k + n] of an address space are the new, zeroed ones. *)
Definition grew (s' : pmem) (l : list Z) (U U' : gmap Z (Z * Z)) (k : Z) (n : nat) : Prop :=
  (forall i, ~ k <= i < k + Z.of_nat n -> U' !! i = U !! i)
  /\ (forall i, k <= i < k + Z.of_nat n -> exists p, U' !! i = Some (p, USER) /\ p ∈ l
        /\ forall x, in_page p x -> ram s' x = 0).

Lemma allocuvm_loop_ok pgdir oldsz newsz n : 0 <= newsz < KERNBASE ->
  forall s l T U k fuel,
  space s l pgdir T U -> 0 <= k -> k + Z.of_nat n = Z.of_nat (npages newsz) ->
  (forall i, k <= i -> U !! i = None) -> (n <= fuel)%nat -> (2 * n <= length l)%nat ->
  exists s' l' T' U',
    allocuvm_loop kend fuel pgdir (PGSIZE * k) oldsz newsz s = ([], Ret newsz s')
    /\ space s' l' pgdir T' U' /\ l' `suffix_of` l /\ (length l <= length l' + 2 * n)%nat
    /\ kept (fun q => (q ∉ l) /\ ~ tables pgdir T q) s s'
    /\ (forall q, tables pgdir T' q -> tables pgdir T q \/ q ∈ l)
    /\ grew s' l U U' k n.
Proof.
  intros Hsz. pose proof (npages_user newsz ltac:(lia)) as Hup.
  induction n as [|n IH]; intros s l T U k fuel Hs Hk Hkn HU Hfuel Hl.
  - exists s, l, T, U. split; [|split; [done|split; [done|split; [lia|split; [done|split; [by left|split; [done|lia]]]]]]].
    destruct fuel; cbn [allocuvm_loop]; rewrite npages_lt by lia;
      (destruct (Z.ltb_spec k (Z.of_nat (npages newsz))); [lia|done]).
  - destruct fuel as [|fuel]; [lia|]. cbn [allocuvm_loop]. rewrite npages_lt by lia.
    destruct (Z.ltb_spec k (Z.of_nat (npages newsz))) as [Hlt|]; [|lia].
    destruct l as [|p l]; [cbn in Hl; lia|].
    destruct (take_zeroed s l pgdir T U p 0 Hs) as (s1 & Hka & Hfr & Hp0 & Hs1 & Hk1 & Hz1).
    run_with Hka. apply Z.eqb_neq in Hp0. rewrite Hp0. erewrite bind_nil by reflexivity.
    destruct (map_user _ l pgdir T U k p USER Hs1 Hfr) as (s2 & l2 & T2 & r & E & Hst & Hres);
      [done|lia|apply HU; lia|].
    destruct Hres as [(-> & Hs2 & Hlen)|(-> & -> & _)]; [|cbn in Hl; lia].
    unfold USER in E. run_with E.
    assert (u32 (PGSIZE * k + PGSIZE) = PGSIZE * (k + 1)) as ->.
    { rewrite UPAGES_eq in Hup. rewrite u32_small; unfold PGSIZE in *; lia. }
    destruct (IH s2 l2 T2 (<[k := (p, USER)]> U) (k + 1) fuel Hs2) as (s3 & l3 & T3 & U3 & E3 & Hs3 & Hsuf & Hlen3 & Hk3 & Ht3 & Hg1 & Hg2);
      [lia|lia|intros i Hi; rewrite lookup_insert_ne by lia; apply HU; lia|lia|cbn in Hl; lia|].
    exists s3, l3, T3, U3. split; [exact E3|]. split; [done|].
    pose proof (vs_free _ _ _ _ _ _ _ _ Hst) as Hfree.
    split; [etrans; [done|]; etrans; [done|]; by exists [p]|]. split; [cbn; lia|].
    pose proof Hfr as (Hg & Hpl & Hpt & _).
    assert (kept (fun q => (q ∉ l) /\ ~ tables pgdir T q) (on_ram (memset p 0 PGSIZE) s1) s3) as Hk13.
    { apply (kept_trans _ _ _ _ _ (step_kept _ _ _ _ _ _ _ Hst) Hk3).
      intros q [Hq1 Hq2]. by apply (step_tables _ _ _ _ _ _ _ _ Hst). }
    split; [apply (kept_trans _ _ _ _ _ (kept_weaken _ (fun q => (q ∉ p :: l) /\ ~ tables pgdir T q) _ _ Hk1 ltac:(intros q [Hq _] ->; apply Hq; by left)) Hk13); intros q [Hq ?]; by apply not_elem_of_cons in Hq as [_ ?]|].
    split.
    { intros q [[->|[i Hi]]|Hq]%Ht3; [left; by left| |right; right; by eapply suffix_elem].
      destruct (vs_new _ _ _ _ _ _ _ _ Hst _ _ Hi); [left; right; by exists i|right; by right]. }
    split.
    + intros i Hi. rewrite Hg1 by lia. apply lookup_insert_ne. lia.
    + intros i Hi. destruct (decide (i = k)) as [->|Hne].
      * exists p. rewrite Hg1 by lia. split; [apply lookup_insert_eq|]. split; [by left|].
        intros x Hx. rewrite (Hk13 p) by done. by apply Hz1.
      * destruct (Hg2 i) as (q & Hq & Hql & Hqz); [lia|]. exists q. split; [done|]. split; [|done].
        right. by eapply suffix_elem.
Qed.

(** ** deallocuvm *)

(** A page that leaves the space goes to the free list. *)
Lemma space_free s l pgdir T U n p f s1 :
  space s l pgdir T U -> U !! n = Some (p, f) -> alloc_inv kend s1 (p :: l) ->
  (forall x, ~ in_page p x -> ram s1 x = ram s x) ->
  vm_inv s1 (p :: l) pgdir T /\ forall n', slot (ram s1) T n' = slot (ram s) T n'.
Proof.
  intros Hs HU Ha Hfr. destruct (sp_page _ _ _ _ _ Hs n p f HU) as (_ & Hg & Hl & Ht & _).
  destruct (sp_vm _ _ _ _ _ Hs) as [Ha0 Hd Hu Htb Hj Hp].
  assert (forall q x, good_page q -> q <> p -> in_page q x -> ram s1 x = ram s x) as Hfr'.
  { intros q x Hq Hne Hx. apply Hfr. by apply (good_page_disjoint kend q). }
  assert (pgdir <> p) as Hdp by (intros ->; apply Ht; by left).
  assert (forall i, T !! i <> Some p) as Htp by (intros i Hi; apply Ht; right; by exists i). split.
  - constructor; auto.
    + intros [->|]%elem_of_cons; done.
    + intros i t Hi. destruct (Htb i t Hi) as (? & ? & ?). split; [done|]. split; [|done].
      intros [->|]%elem_of_cons; [by apply (Htp i)|done].
    + intros i Hi. rewrite (load32_page (ram s) (ram s1) pgdir i Hi) by eauto. by apply Hp.
  - intros n'. unfold slot. destruct (T !! dirx n') as [t|] eqn:Et; [|done].
    apply load32_page; [apply tabx_range|]. intros x. apply Hfr'; [by eapply Htb|].
    intros ->. by apply (Htp (dirx n')).
Qed.

(** The body of the loop at a mapped page. *)
Lemma unmap_user s l pgdir T U n p f t :
  space s l pgdir T U -> U !! n = Some (p, f) -> T !! dirx n = Some t ->
  exists s', (kfree kend p ;; write_pte (t + 4 * tabx n) 0) s = ([], Ret tt s')
    /\ space s' (p :: l) pgdir T (delete n U)
    /\ kept (fun q => q <> p /\ ~ tables pgdir T q) s s'.
Proof.
  intros Hs HU HT. pose proof (sp_page _ _ _ _ _ Hs n p f HU) as (Hn & Hg & Hl & Ht & _).
  destruct (kfree_inv kend Hend s l p (vi_alloc _ _ _ _ _ (sp_vm _ _ _ _ _ Hs)) Hg Hl)
    as (s1 & Hk & Ha1 & _ & Hfr & _).
  destruct (space_free s l pgdir T U n p f s1 Hs HU Ha1 Hfr) as [Hi1 Hsl1].
  assert (0 <= n < 2 ^ 20) as Hn20 by (rewrite UPAGES_eq in Hn; lia).
  destruct (set_slot kend s1 (p :: l) pgdir T n t 0 Hi1 Hn20 HT ltac:(done)) as [Hst Hsl].
  eexists. split; [run_with Hk; reflexivity|]. split.
  - destruct Hs as [Hi Hslot Hpg Hinj]. constructor.
    + apply Hst.
    + intros n' Hn'. cbn [on_ram ram]. specialize (Hslot n' Hn'). rewrite UPAGES_eq in Hn'.
      rewrite Hsl, Hsl1 by lia. destruct (Z.eqb_spec n' n) as [->|Hne].
      * by rewrite lookup_delete_eq.
      * by rewrite lookup_delete_ne.
    + intros k q g [Hne Hk']%lookup_delete_Some. destruct (Hpg k q g Hk') as (? & ? & ? & ? & ?).
      split_and!; try done; try lia. intros [->|]%elem_of_cons; [|done]. by apply Hne, (Hinj n k p f g).
    + intros k k' q g g' [_ ?]%lookup_delete_Some [_ ?]%lookup_delete_Some. by eapply Hinj.
  - intros q x [Hne Hqt] Hq Hx. rewrite (vs_frame _ _ _ _ _ _ _ _ Hst q) by
      (done || (intros ->; apply Hqt; by left) || (intros i Hi; apply Hqt; right; by exists i)).
    apply Hfr. by apply (good_page_disjoint kend q).
Qed.

Lemma slot_table s l pgdir T U n p f :
  space s l pgdir T U -> U !! n = Some (p, f) -> exists t, T !! dirx n = Some t
    /\ load32 (ram s) (t + 4 * tabx n) = entry (v2p p) f.
Proof.
  intros Hs HU. destruct (sp_page _ _ _ _ _ Hs n p f HU) as (Hn & _).
  pose proof (sp_slot _ _ _ _ _ Hs n Hn) as H1. rewrite HU in H1. unfold slot in H1.
  destruct (T !! dirx n) as [t|]; [by exists t|]. pose proof (entry_present (v2p p) f) as E.
  by rewrite <- H1 in E.
Qed.

(** From page [k] on, the first [K] pages are mapped. *)
Definition upto (U : gmap Z (Z * Z)) (k K : Z) : Prop := forall i, k <= i -> is_Some (U !! i) <-> i < K.

(** The pages from [k] on are given back. *)
Definition shrunk (l l' : list Z) (U U' : gmap Z (Z * Z)) (k : Z) : Prop :=
  (forall i, U' !! i = if i <? k then U !! i else None)
  /\ exists fl, l' = fl ++ l /\ forall p, p ∈ fl <-> exists i f, k <= i /\ U !! i = Some (p, f).

Lemma shrunk_skip l l' U U' k k' :
  k <= k' -> (forall i, k <= i -> U !! i = None) -> shrunk l l' U U' k' -> shrunk l l' U U' k.
Proof.
  intros Hk HU [H1 (fl & -> & H2)]. split.
  - intros i. rewrite H1. destruct (Z.ltb_spec i k), (Z.ltb_spec i k'); try lia; auto.
  - exists fl. split; [done|]. intros p. rewrite H2. split; intros (i & f & Hi & E); exists i, f;
      (rewrite HU in E by lia; done).
Qed.

Lemma shrunk_cons l l' U U' k p f :
  U !! k = Some (p, f) -> shrunk (p :: l) l' (delete k U) U' (k + 1) -> shrunk l l' U U' k.
Proof.
  intros HU [H1 (fl & -> & H2)]. split.
  - intros i. rewrite H1. destruct (Z.ltb_spec i k), (Z.ltb_spec i (k + 1)); try lia; try done.
    + by rewrite lookup_delete_ne by lia.
    + assert (i = k) as -> by lia. by rewrite lookup_delete_eq.
  - exists (fl ++ [p]). split; [by rewrite <- app_assoc|]. intros q.
    rewrite elem_of_app, H2, list_elem_of_singleton. split.
    + intros [(i & g & Hi & [_ E]%lookup_delete_Some)| ->]; [exists i, g; split; [lia|done]|exists k, f; split; [lia|done]].
    + intros (i & g & Hi & E). destruct (decide (i = k)) as [->|Hne]; [right; congruence|].
      left. exists i, g. split; [lia|]. by rewrite lookup_delete_ne.
Qed.

(** The kernel's first page is in use: no user page is at physical address 0. *)
Context (Hpos : KERNBASE < kend).

Lemma dealloc_page s l pgdir T U k p f t :
  space s l pgdir T U -> U !! k = Some (p, f) -> T !! dirx k = Some t ->
  (let* x := read_pte (t + 4 * tabx k) in
   when (has x PTE_P)
     (let pa := PTE_ADDR x in
      if pa =? 0 then panic "kfree"
      else kfree kend (p2v pa) ;; write_pte (t + 4 * tabx k) 0)) s
  = (kfree kend p ;; write_pte (t + 4 * tabx k) 0) s.
Proof.
  intros Hs HU HT. destruct (slot_table _ _ _ _ _ _ _ _ Hs HU) as (t' & E & Hx).
  rewrite HT in E. injection E as <-.
  destruct (vi_tab _ _ _ _ _ (sp_vm _ _ _ _ _ Hs) _ _ HT) as (Hgt & _).
  destruct (page_word kend Hend t (tabx k) Hgt (tabx_range _)) as (_ & Hnz & _). apply Z.eqb_neq in Hnz.
  run_with (read_pte_run _ s Hnz). rewrite Hx.
  pose proof (entry_present (v2p p) f) as Hpr. unfold present in Hpr. rewrite Hpr.
  destruct (sp_page _ _ _ _ _ Hs k p f HU) as (_ & Hg & _ & _ & Hf).
  destruct (v2p_page kend Hend p Hg) as (Ev & Hr & Ha). cbn [when]. cbv zeta.
  rewrite entry_addr by done. rewrite (p2v_v2p kend Hend) by done.
  destruct (Z.eqb_spec (v2p p) 0) as [E0|]; [|done].
  destruct Hg as (_ & Hkr & _). rewrite Ev in E0. lia.
Qed.

Lemma dealloc_hole s l pgdir T U k t :
  space s l pgdir T U -> 0 <= k < UPAGES -> U !! k = None -> T !! dirx k = Some t ->
  forall y, (let* x := read_pte (t + 4 * tabx k) in when (has x PTE_P) (y x)) s = ([], Ret tt s).
Proof.
  intros Hs Hk HU HT y. pose proof (sp_slot _ _ _ _ _ Hs k Hk) as Hx. rewrite HU in Hx.
  unfold slot in Hx. rewrite HT in Hx.
  destruct (vi_tab _ _ _ _ _ (sp_vm _ _ _ _ _ Hs) _ _ HT) as (Hgt & _).
  destruct (page_word kend Hend t (tabx k) Hgt (tabx_range _)) as (_ & Hnz & _). apply Z.eqb_neq in Hnz.
  run_with (read_pte_run _ s Hnz). unfold present in Hx. by rewrite Hx.
Qed.

Lemma bind_assoc_when {S A B} (m : M S A) (c : A -> bool) (x : A -> M S unit) (k : M S B) s e s' :
  (let* a := m in when (c a) (x a)) s = ([], Ret e s') ->
  (let* a := m in when (c a) (x a) ;; k) s = k s'.
Proof.
  unfold bind. destruct (m s) as [w [a s1| | | |]]; try done.
  destruct (when (c a) (x a) s1) as [w1 [a1 s2| | | |]]; try done.
  intros [= [-> ->]%app_nil -> ->]. by destruct (k s') as [? ?].
Qed.

(** The effect of freeing the pages from [k] on. *)
Definition released (pgdir : Z) (T : gmap Z Z) (s : pmem) (l : list Z) (U : gmap Z (Z * Z)) (k : Z)
    (s' : pmem) (l' : list Z) (U' : gmap Z (Z * Z)) : Prop :=
  space s' l' pgdir T U' /\ shrunk l l' U U' k
  /\ kept (fun q => (forall i f, k <= i -> U !! i <> Some (q, f)) /\ ~ tables pgdir T q) s s'.

Lemma upto_none U k K i : upto U k K -> U !! k = None -> k <= i -> U !! i = None.
Proof.
  intros Hto HU Hi. apply eq_None_not_Some. intros H1%Hto; [|done].
  assert (is_Some (U !! k)) as [? E] by (apply Hto; lia). congruence.
Qed.

Lemma released_none pgdir T s l U k :
  space s l pgdir T U -> (forall i, k <= i -> U !! i = None) -> released pgdir T s l U k s l U.
Proof.
  intros Hs HU. split; [done|]. split; [|done]. split.
  - intros i. destruct (Z.ltb_spec i k); [done|by apply HU].
  - exists []. split; [done|]. intros p. split; [by intros ?%not_elem_of_nil|].
    intros (i & f & Hi & E). rewrite HU in E; done.
Qed.

Lemma released_skip pgdir T s l U k k' s' l' U' :
  k <= k' -> (forall i, k <= i -> U !! i = None) ->
  released pgdir T s l U k' s' l' U' -> released pgdir T s l U k s' l' U'.
Proof.
  intros Hk HU (Hs & Hsh & Hkp). split; [done|]. split; [by apply (shrunk_skip _ _ _ _ k k')|].
  apply (kept_weaken _ _ _ _ Hkp). intros q [Hq ?]. split; [|done]. intros i f Hi. apply Hq. lia.
Qed.

Lemma released_cons pgdir T s l U k p f s1 s' l' U' :
  U !! k = Some (p, f) -> kept (fun q => q <> p /\ ~ tables pgdir T q) s s1 ->
  released pgdir T s1 (p :: l) (delete k U) (k + 1) s' l' U' -> released pgdir T s l U k s' l' U'.
Proof.
  intros HU Hk1 (Hs & Hsh & Hk2). split; [done|]. split; [by apply (shrunk_cons _ _ _ _ _ p f)|].
  eapply kept_trans; [apply (kept_weaken _ _ _ _ Hk1)|apply Hk2|]; intros q [Hq ?]; (split; [|done]).
  - intros ->. by apply (Hq k f).
  - intros i g Hi [_ E]%lookup_delete_Some. apply (Hq i g); [lia|done].
Qed.

Lemma deallocuvm_loop_ok pgdir T oldsz K : 0 <= oldsz <= KERNBASE -> K <= Z.of_nat (npages oldsz) ->
  forall fuel s l U k,
  space s l pgdir T U -> 0 <= k -> upto U k K -> (npages oldsz <= fuel + Z.to_nat k)%nat ->
  exists s' l' U',
    deallocuvm_loop kend fuel pgdir (PGSIZE * k) oldsz s = ([], Ret tt s')
    /\ released pgdir T s l U k s' l' U'.
Proof.
  intros Hsz HK. pose proof (npages_user oldsz Hsz) as Hup.
  induction fuel as [|fuel IH]; intros s l U k Hs Hk Hto Hfuel; cbn [deallocuvm_loop];
    rewrite npages_lt by lia; destruct (Z.ltb_spec k (Z.of_nat (npages oldsz))) as [Hlt|Hge]; try lia.
  1,3: exists s, l, U; split; [done|]; apply released_none; [done|]; intros i Hi;
    apply eq_None_not_Some; intros ?%Hto; lia.
  pose proof (sp_vm _ _ _ _ _ Hs) as Hi. rewrite UPAGES_eq in Hup.
  assert (0 <= PGSIZE * k < 2 ^ 32) as Hva by (unfold PGSIZE; lia). pose proof (vpn_page k) as Hvp.
  destruct (T !! dirx k) as [t|] eqn:HT.
  - rewrite <- Hvp in HT. run_with (walk_hit kend Hend s l pgdir T (PGSIZE * k) false t Hi Hva HT). rewrite Hvp in *.
    destruct (vi_tab _ _ _ _ _ Hi _ _ HT) as (Hgt & _).
    destruct (page_word kend Hend t (tabx k) Hgt (tabx_range _)) as (_ & Hnz & _).
    apply Z.eqb_neq in Hnz. rewrite Hnz.
    assert (u32 (PGSIZE * k + PGSIZE) = PGSIZE * (k + 1)) as -> by (rewrite u32_small; unfold PGSIZE in *; lia).
    destruct (U !! k) as [[p f]|] eqn:HU.
    + destruct (unmap_user s l pgdir T U k p f t Hs HU HT) as (s1 & E & Hs1 & Hk1).
      rewrite <- (dealloc_page s l pgdir T U k p f t Hs HU HT) in E. erewrite bind_assoc_when by exact E.
      destruct (IH s1 (p :: l) (delete k U) (k + 1) Hs1) as (s2 & l2 & U2 & E2 & Hrel);
        [lia|intros i Hik; rewrite lookup_delete_ne by lia; apply Hto; lia|lia|].
      exists s2, l2, U2. split; [done|]. by apply (released_cons _ _ _ _ _ _ p f s1).
    + erewrite bind_assoc_when by (apply (dealloc_hole s l pgdir T U k t Hs); [rewrite UPAGES_eq; lia|done..]).
      destruct (IH s l U (k + 1) Hs) as (s2 & l2 & U2 & E2 & Hrel); [lia|intros i Hik; apply Hto; lia|lia|].
      exists s2, l2, U2. split; [done|]. apply (released_skip _ _ _ _ _ k (k + 1)); [lia| |done].
      intros i. by apply (upto_none U k K).
  - assert (U !! k = None) as HU.
    { destruct (U !! k) as [[p f]|] eqn:HU; [|done]. destruct (slot_table _ _ _ _ _ _ _ _ Hs HU) as (t & E & _). congruence. }
    rewrite <- Hvp in HT. run_with (walk_miss kend Hend s l pgdir T (PGSIZE * k) Hi Hva HT).
    assert (u32 (u32 (PGSIZE * k + (NPTENTRIES - 1) * PGSIZE) + PGSIZE) = PGSIZE * (k + 1024)) as ->.
    { rewrite u32_add_u32, u32_small; unfold PGSIZE, NPTENTRIES in *; lia. }
    destruct (IH s l U (k + 1024) Hs) as (s2 & l2 & U2 & E2 & Hrel); [lia|intros i Hik; apply Hto; lia|lia|].
    exists s2, l2, U2. split; [done|]. apply (released_skip _ _ _ _ _ k (k + 1024)); [lia| |done].
    intros i. by apply (upto_none U k K).
Qed.

Lemma deallocuvm_ok s l pgdir T U oldsz newsz K :
  space s l pgdir T U -> 0 <= newsz < oldsz -> oldsz <= KERNBASE ->
  K <= Z.of_nat (npages oldsz) -> upto U (Z.of_nat (npages newsz)) K ->
  exists s' l' U', deallocuvm kend pgdir oldsz newsz s = ([], Ret newsz s')
    /\ released pgdir T s l U (Z.of_nat (npages newsz)) s' l' U'.
Proof.
  intros Hs Hn Ho HK Hto. unfold deallocuvm. destruct (Z.geb_spec newsz oldsz); [lia|].
  rewrite PGROUNDUP_pages by (vm_consts; lia). pose proof (npages_user oldsz ltac:(lia)) as Hup. rewrite UPAGES_eq in Hup.
  destruct (deallocuvm_loop_ok pgdir T oldsz K ltac:(lia) HK (Z.to_nat (2 ^ 20)) s l U (Z.of_nat (npages newsz)) Hs)
    as (s' & l' & U' & E & Hrel); [lia|done|lia|].
  exists s', l', U'. split; [|done]. by run_with E.
Qed.

(** ** freevm *)

(** One table goes back to the allocator. *)
Definition free_table (pgdir i : Z) : M pmem unit :=
  let* x := read_pte (u32 (pgdir + 4 * i)) in
  when (has x PTE_P) (kfree kend (p2v (PTE_ADDR x))).

Lemma free_tables_ok (pgdir : Z) (T : gmap Z Z) : forall ix s l,
  NoDup ix -> alloc_inv kend s l -> good_page pgdir -> pgdir ∉ l ->
  (forall i j t, T !! i = Some t -> T !! j = Some t -> i = j) ->
  (forall i, i ∈ ix -> 0 <= i < 1024 /\
     match T !! i with
     | Some t => good_page t /\ (t ∉ l) /\ t <> pgdir
                 /\ present (load32 (ram s) (pgdir + 4 * i)) = true
                 /\ PTE_ADDR (load32 (ram s) (pgdir + 4 * i)) = v2p t
     | None => present (load32 (ram s) (pgdir + 4 * i)) = false
     end) ->
  exists s' fl, for_all ix (free_table pgdir) s = ([], Ret tt s')
    /\ alloc_inv kend s' (fl ++ l)
    /\ (forall q, q ∈ fl <-> exists i, i ∈ ix /\ T !! i = Some q)
    /\ kept (fun q => q ∉ fl) s s'.
Proof.
  induction ix as [|i ix IH]; intros s l Hnd Ha Hd Hdl Hj Hp.
  - exists s, []. split; [done|]. split; [done|]. split; [|done]. intros q.
    split; [by intros ?%not_elem_of_nil|by intros (i & ?%not_elem_of_nil & _)].
  - apply NoDup_cons in Hnd as [Hni Hnd].
    destruct (Hp i ltac:(by left)) as [Hir Hpi]. destruct (page_word kend Hend pgdir i Hd Hir) as (Eu & Hnz & _).
    cbn [for_all]. unfold free_table at 1. rewrite Eu.
    destruct (T !! i) as [t|] eqn:Ht.
    + destruct Hpi as (Hg & Htl & Htd & Hpr & Haddr).
      destruct (kfree_inv kend Hend s l t Ha Hg Htl) as (s1 & Hk & Ha1 & _ & Hfr & _).
      assert (forall j, 0 <= j < 1024 -> load32 (ram s1) (pgdir + 4 * j) = load32 (ram s) (pgdir + 4 * j)) as Hld.
      { intros j Hjr. apply load32_page; [done|]. intros x Hx. apply Hfr. by apply (good_page_disjoint kend pgdir). }
      destruct (IH s1 (t :: l) Hnd Ha1 Hd) as (s2 & fl & E & Ha2 & Hfl & Hk2); [|done| |].
      { intros [->|]%elem_of_cons; done. }
      { intros j Hjis. destruct (Hp j ltac:(by right)) as [Hjr Hpj]. split; [done|]. rewrite Hld by done.
        destruct (T !! j) as [t'|] eqn:Et; [|done]. destruct Hpj as (? & ? & ? & ? & ?).
        split; [done|]. split; [|done]. intros [->|]%elem_of_cons; [|done].
        by rewrite (Hj i j t) in Hni. }
      exists s2, (fl ++ [t]). split; [|split; [by rewrite <- app_assoc|split]].
      { erewrite bind_nil; [exact E|]. erewrite bind_nil by (apply read_pte_run, Z.eqb_neq; exact Hnz).
        unfold present in Hpr. rewrite Hpr, Haddr, (p2v_v2p kend Hend) by done. exact Hk. }
      { intros q. rewrite elem_of_app, Hfl, list_elem_of_singleton. split.
        - intros [(j & Hjis & E')| ->]; [exists j; split; [by right|done]|exists i; split; [by left|done]].
        - intros (j & [->|Hjis]%elem_of_cons & E'); [right; congruence|left; by exists j]. }
      intros q x Hq Hgq Hx. apply not_elem_of_app in Hq as [Hq1 Hq2%not_elem_of_cons].
      rewrite (Hk2 q) by done. apply Hfr. apply (good_page_disjoint kend q); auto. by destruct Hq2.
    + destruct (IH s l Hnd Ha Hd Hdl Hj) as (s2 & fl & E & Ha2 & Hfl & Hk2); [intros j Hjis; apply Hp; by right|].
      exists s2, fl. split; [|split; [done|split; [|done]]].
      { erewrite bind_nil; [exact E|]. erewrite bind_nil by (apply read_pte_run, Z.eqb_neq; exact Hnz).
        unfold present in Hpi. by rewrite Hpi. }
      intros q. rewrite Hfl. split; intros (j & Hjis & E'); exists j; (split; [|done]); [by right|].
      apply elem_of_cons in Hjis as [->|]; [congruence|done].
Qed.

Lemma npages_all : Z.of_nat (npages KERNBASE) = UPAGES.
Proof. unfold npages. rewrite Z2Nat.id; [reflexivity|discriminate]. Qed.

Lemma freevm_ok s l pgdir T U K :
  space s l pgdir T U -> K <= UPAGES -> upto U 0 K ->
  exists s' fl, freevm kend pgdir s = ([], Ret tt s')
    /\ alloc_inv kend s' (fl ++ l)
    /\ (forall q, q ∈ fl <-> owns pgdir T U q)
    /\ kept (fun q => ~ owns pgdir T U q) s s'.
Proof.
  intros Hs HK Hto. pose proof (vi_dir _ _ _ _ _ (sp_vm _ _ _ _ _ Hs)) as Hd. unfold freevm.
  destruct (Z.eqb_spec pgdir 0) as [->|_]; [destruct (good_page_range kend Hend 0 Hd); vm_consts; lia|].
  destruct (deallocuvm_ok s l pgdir T U KERNBASE 0 K Hs) as (s1 & l1 & U1 & E1 & Hs1 & [_ (f1 & -> & Hf1)] & Hk1);
    [done|done|rewrite npages_all; done|exact Hto|].
  change (Z.of_nat (npages 0)) with 0 in *. run_with E1. pose proof (sp_vm _ _ _ _ _ Hs1) as Hi1.
  destruct (free_tables_ok pgdir T (zrange 0 (Z.to_nat NPDENTRIES)) s1 (f1 ++ l)) as (s2 & f2 & E2 & Ha2 & Hf2 & Hk2);
    [|apply Hi1|done|apply Hi1|apply Hi1| |].
  { apply NoDup_fmap_2; [intros x y ?; lia|apply NoDup_seq]. }
  { intros i Hir%elem_of_zrange. change (0 <= i < 1024) in Hir. split; [done|].
    pose proof (vi_pde _ _ _ _ _ Hi1 i Hir) as Hp. destruct (T !! i) as [t|] eqn:Et; [|done].
    destruct (vi_tab _ _ _ _ _ Hi1 i t Et) as (? & ? & ? & _). destruct Hp as [??]. done. }
  unfold free_table in E2. run_with E2.
  assert (forall q, q ∈ f2 <-> exists i, T !! i = Some q) as Hf2'.
  { intros q. rewrite Hf2. split; [intros (i & _ & E); by exists i|intros (i & E); exists i; split; [|done]].
    apply elem_of_zrange. by apply (vi_tab _ _ _ _ _ Hi1 i q). }
  assert (pgdir ∉ f2) as Hd2.
  { intros [i Hti]%Hf2'. by destruct (vi_tab _ _ _ _ _ Hi1 i _ Hti) as (_ & _ & ? & _). }
  destruct (kfree_inv kend Hend s2 (f2 ++ f1 ++ l) pgdir Ha2 Hd) as (s3 & E3 & Ha3 & _ & Hfr & _).
  { apply not_elem_of_app. split; [done|apply Hi1]. }
  assert (forall q, q ∈ pgdir :: f2 ++ f1 <-> owns pgdir T U q) as Hown.
  { intros q. rewrite elem_of_cons, elem_of_app, Hf2', Hf1. unfold owns, tables. split.
    - intros [->|[?|(i & f & _ & E)]]; eauto.
    - intros [[?|?]|(n & f & E)]; eauto. destruct (sp_page _ _ _ _ _ Hs n q f E) as (? & _).
      right; right. exists n, f. split; [cbn; lia|done]. }
  exists s3, (pgdir :: f2 ++ f1). split; [done|]. split; [by rewrite <- app_comm_cons, <- app_assoc|]. split; [done|].
  intros q x Hq Hg Hx. rewrite <- Hown in Hq. apply not_elem_of_cons in Hq as [Hqd Hq].
  apply not_elem_of_app in Hq as [Hq2 Hq1].
  rewrite Hfr by by apply (good_page_disjoint kend q). rewrite (Hk2 q) by done. apply (Hk1 q); auto. split.
  - intros i f Hi E. apply Hq1, Hf1. eauto.
  - intros [?|Ht]; [done|]. by apply Hq2, Hf2'.
Qed.

End VmSpace.
