(* ===== verification/VmKernel.v ===== *)
(** * The kernel half of a page table: setupkvm

    Every page table maps the kernel the same way, by the table [kmap].  Here
    [setupkvm] is shown to build exactly that map, or to fail when memory runs
    out. *)

From stdpp Require Import base numbers list gmap strings.
From S2P Require Import Prelude Bytes Mem Str Kalloc Vm VmTable VmSpace.

Open Scope Z_scope.

(** A region of [kmap]: its size in bytes and what it adds to a page map. *)
Definition region : Type := Z * Z * Z * Z.
Definition rsize (k : region) : Z := let '(_, ps, pe, _) := k in u32 (pe - ps).
Definition map_region (k : region) (f : Z -> Z) : Z -> Z :=
  let '(virt, ps, pe, perm) := k in mapped ps perm (vpn virt) (rsize k / PGSIZE) f.

Definition region_ok (k : region) : Prop :=
  let '(virt, ps, pe, perm) := k in
  virt `mod` PGSIZE = 0 /\ ps `mod` PGSIZE = 0 /\ rsize k `mod` PGSIZE = 0 /\ 0 < rsize k
  /\ 0 <= virt /\ virt + rsize k <= 2 ^ 32 /\ 0 <= ps /\ ps + rsize k <= 2 ^ 32 /\ 0 <= perm < PGSIZE.

(** No region maps a page an earlier one has mapped. *)
Fixpoint regions_free (f : Z -> Z) (ks : list region) : Prop :=
  match ks with
  | [] => True
  | k :: ks' =>
      (forall i, 0 <= i < rsize k / PGSIZE -> present (f (vpn k.1.1.1 + i)) = false)
      /\ regions_free (map_region k f) ks'
  end.

Lemma pages_of_range va size k :
  va `mod` PGSIZE = 0 -> size `mod` PGSIZE = 0 -> vpn (va + size - 1) = vpn va + Z.of_nat k ->
  size / PGSIZE = Z.of_nat k + 1 /\ size = PGSIZE * (Z.of_nat k + 1).
Proof.
  intros Hal Hsal Hk. assert (size / PGSIZE = Z.of_nat k + 1) as E.
  { replace (va + size - 1) with ((PGSIZE - 1) + (va / PGSIZE + size / PGSIZE - 1) * PGSIZE) in Hk.
    - unfold vpn in Hk. rewrite Z.div_add in Hk by done. change ((PGSIZE - 1) / PGSIZE) with 0 in Hk. lia.
    - pose proof (Z.div_mod va PGSIZE ltac:(done)). pose proof (Z.div_mod size PGSIZE ltac:(done)).
      unfold PGSIZE in *; lia. }
  split; [done|]. rewrite <- E. pose proof (Z.div_mod size PGSIZE ltac:(done)). lia.
Qed.

Section VmKernel.

Context (kend : Z) (Hend : KERNBASE <= kend).

#[local] Abbreviation vm_inv := (vm_inv kend).
#[local] Abbreviation vm_step := (vm_step kend).

Lemma mappages_full s l pgdir T va size pa perm :
  vm_inv s l pgdir T -> 0 <= va -> va `mod` PGSIZE = 0 -> 0 < size -> size `mod` PGSIZE = 0 ->
  va + size <= 2 ^ 32 -> pa `mod` PGSIZE = 0 -> 0 <= pa -> pa + size <= 2 ^ 32 -> 0 <= perm < PGSIZE ->
  (forall i, 0 <= i < size / PGSIZE -> present (slot (ram s) T (vpn va + i)) = false) ->
  exists r j s' l' T', mappages pgdir va size pa perm s = ([], Ret r s')
    /\ vm_step pgdir s l T s' l' T'
    /\ (r = 0 /\ j = size / PGSIZE \/ r = -1 /\ 0 <= j < size / PGSIZE /\ l' = [])
    /\ (forall n, 0 <= n < 2 ^ 20 -> slot (ram s') T' n = mapped pa perm (vpn va) j (slot (ram s) T) n)
    /\ (forall D spare, (forall i, 0 <= i < size / PGSIZE -> dirx (vpn va + i) ∈ D) -> covers D spare T l -> r = 0 /\ covers D spare T' l').
Proof.
  intros Hi Hva Hal Hsz Hsal Hw Hpa Hpa0 Hpaw Hperm Hfree.
  destruct (mappages_fuel va size Hva Hsz Hw) as (k & Hk & _ & _ & _ & _ & E).
  assert (PGROUNDDOWN va = va) as Ed by (rewrite land_pgmask, Hal by lia; lia).
  destruct (pages_of_range va size k Hal Hsal Hk) as [Ek Es].
  rewrite Ek in *. rewrite E, Ed.
  destruct (mappages_loop_ok kend Hend perm k pgdir Hperm va pa s l T Hi) as (r & j & s' & l' & T' & E1 & Hst & Hr & Hsl & Hcov);
    try (done || unfold PGSIZE in *; lia).
  { intros i Hir. apply Hfree. lia. }
  exists r, j, s', l', T'. split; [done|]. split; [done|]. split; [|split; [done|]].
  - destruct Hr as [?|(? & ? & ?)]; [by left|right; split_and?; done || lia].
  - intros D spare HD. apply Hcov. intros i Hir. apply HD. lia.
Qed.

Lemma mappages_ok s l pgdir T va size pa perm :
  vm_inv s l pgdir T -> 0 <= va -> va `mod` PGSIZE = 0 -> 0 < size -> size `mod` PGSIZE = 0 ->
  va + size <= 2 ^ 32 -> pa `mod` PGSIZE = 0 -> 0 <= pa -> pa + size <= 2 ^ 32 -> 0 <= perm < PGSIZE ->
  (forall i, 0 <= i < size / PGSIZE -> present (slot (ram s) T (vpn va + i)) = false) ->
  exists r j s' l' T', mappages pgdir va size pa perm s = ([], Ret r s')
    /\ vm_step pgdir s l T s' l' T'
    /\ (r = 0 /\ j = size / PGSIZE \/ r = -1 /\ 0 <= j < size / PGSIZE /\ l' = [])
    /\ (forall n, 0 <= n < 2 ^ 20 -> slot (ram s') T' n = mapped pa perm (vpn va) j (slot (ram s) T) n).
Proof.
  intros Hi Hva Hal Hsz Hsal Hw Hpa Hpa0 Hpaw Hperm Hfree.
  destruct (mappages_full s l pgdir T va size pa perm) as (r & j & s' & l' & T' & E & Hst & Hr & Hsl & _); try done.
  by exists r, j, s', l', T'.
Qed.

Lemma mapped_ext pa perm n0 j f g n : f n = g n -> mapped pa perm n0 j f n = mapped pa perm n0 j g n.
Proof. intros E. unfold mapped. by destruct (_ && _). Qed.

(** The directory entries of a region. *)
Definition in_dirs (D : gset Z) (k : Z * Z * Z * Z) : Prop :=
  forall i, 0 <= i < rsize k / PGSIZE -> dirx (vpn k.1.1.1 + i) ∈ D.

(** The loop of [setupkvm] over a list of regions. *)
Lemma map_regions_ok pgdir : forall ks s l T f,
  vm_inv s l pgdir T -> Forall region_ok ks -> regions_free f ks ->
  (forall n, 0 <= n < 2 ^ 20 -> slot (ram s) T n = f n) ->
  exists r s' l' T',
    for_each ks (fun k =>
        let '(virt, phys_start, phys_end, perm) := k in
        let* r := mappages pgdir virt (u32 (phys_end - phys_start)) phys_start perm in
        ret (if r <? 0 then Some tt else None)) s = ([], Ret r s')
    /\ vm_step pgdir s l T s' l' T'
    /\ match r with
       | None => forall n, 0 <= n < 2 ^ 20 -> slot (ram s') T' n = foldl (fun f k => map_region k f) f ks n
       | Some _ => l' = []
       end
    /\ (forall D spare, Forall (in_dirs D) ks -> covers D spare T l -> r = None /\ covers D spare T' l').
Proof.
  induction ks as [|k ks IH]; intros s l T f Hi Hok Hfree Hsl; cbn [for_each foldl].
  { exists None, s, l, T. split; [done|]. split; [by apply vm_step_refl|]. split; done. }
  apply Forall_cons in Hok as [Hk Hok]. destruct k as [[[virt ps] pe] perm]. cbn [regions_free] in Hfree.
  destruct Hfree as [Hf1 Hf2]. destruct Hk as (H1 & H2 & H3 & H4 & H5 & H6 & H7 & H8 & H9).
  assert (0 <= vpn virt /\ vpn virt + rsize (virt, ps, pe, perm) / PGSIZE <= 2 ^ 20) as Hv.
  { unfold vpn. split; [apply Z.div_pos; [done|unfold PGSIZE; lia]|].
    pose proof (Z.div_mod virt PGSIZE ltac:(done)). pose proof (Z.div_mod (rsize (virt, ps, pe, perm)) PGSIZE ltac:(done)).
    unfold PGSIZE in *; lia. }
  destruct (mappages_full s l pgdir T virt (rsize (virt, ps, pe, perm)) ps perm)
    as (r & j & s1 & l1 & T1 & E & Hst & Hr & Hsl1 & Hcov); try done.
  { intros i Hir. rewrite Hsl by lia. by apply Hf1. }
  erewrite bind_nil by (erewrite bind_nil by exact E; reflexivity).
  destruct Hr as [[-> ->]|(-> & _ & ->)]; cbn [Z.ltb Z.compare].
  - destruct (IH s1 l1 T1 (map_region (virt, ps, pe, perm) f)) as (r & s2 & l2 & T2 & E2 & Hst2 & Hr2 & Hcov2);
      [apply Hst|done|done| |].
    { intros n Hn. rewrite Hsl1 by done. cbn [map_region]. by apply mapped_ext, Hsl. }
    exists r, s2, l2, T2. split; [exact E2|]. split; [by eapply vm_step_trans|]. split; [done|].
    intros D spare [HD HDs]%Forall_cons Hc. apply (Hcov2 D spare HDs). by apply Hcov.
  - exists (Some tt), s1, [], T1. split; [done|]. split; [done|]. split; [done|].
    intros D spare [HD _]%Forall_cons Hc. by destruct (Hcov D spare HD Hc).
Qed.

(** ** The regions of [kmap] *)

(** [data] is page aligned (kernel.ld) and lies inside the kernel image. *)
Context (kdata : Z) (Hkd : kdata `mod` PGSIZE = 0) (Hkd1 : KERNLINK < kdata) (Hkd2 : kdata < KERNBASE + PHYSTOP).

(** The entry of page [n] in every page table, for the kernel's addresses. *)
Definition kernel_slot (n : Z) : Z :=
  let va := PGSIZE * n in
  if va <? KERNBASE then 0
  else if va <? KERNLINK then entry (va - KERNBASE) PTE_W
  else if va <? kdata then entry (va - KERNBASE) 0
  else if va <? KERNBASE + PHYSTOP then entry (va - KERNBASE) PTE_W
  else if va <? DEVSPACE then 0
  else entry va PTE_W.

Ltac kconsts := unfold KERNLINK, EXTMEM, DEVSPACE, KERNBASE, PHYSTOP, PGSIZE in *.

Lemma kdata_page : exists d, kdata = PGSIZE * d.
Proof. exists (kdata / PGSIZE). pose proof (Z.div_mod kdata PGSIZE ltac:(done)). lia. Qed.

Lemma v2p_kernel a : KERNBASE <= a < 2 ^ 32 -> v2p a = a - KERNBASE.
Proof. intros Ha. unfold v2p. apply u32_small. kconsts. lia. Qed.

Lemma kmap_eq :
  v2p KERNLINK = EXTMEM /\ v2p kdata = kdata - KERNBASE
  /\ u32 (v2p kdata - v2p KERNLINK) = kdata - KERNLINK
  /\ u32 (PHYSTOP - v2p kdata) = PHYSTOP + KERNBASE - kdata.
Proof.
  rewrite !v2p_kernel by (kconsts; lia). split; [done|]. split; [done|].
  split; rewrite u32_small; kconsts; lia.
Qed.

Lemma kmap_ok : Forall region_ok (kmap kdata).
Proof.
  destruct kmap_eq as (E1 & E2 & E3 & E4). unfold kmap. rewrite !Forall_cons. split; [|split; [|split; [|split; [|by apply Forall_nil]]]];
    unfold region_ok, rsize; rewrite ?E3, ?E4, ?E1, ?E2;
    split_and!; try done; try (kconsts; lia).
  all: rewrite Zminus_mod, Hkd; reflexivity.
Qed.

(** Page numbers and page counts of the regions. *)
Lemma kmap_pages d : kdata = PGSIZE * d ->
  kmap kdata = [(KERNBASE, 0, EXTMEM, PTE_W); (KERNLINK, EXTMEM, kdata - KERNBASE, 0);
                (kdata, kdata - KERNBASE, PHYSTOP, PTE_W); (DEVSPACE, DEVSPACE, 0, PTE_W)]
  /\ u32 (kdata - KERNBASE - EXTMEM) / PGSIZE = d - 524544
  /\ u32 (PHYSTOP - (kdata - KERNBASE)) / PGSIZE = 581632 - d
  /\ vpn kdata = d.
Proof.
  intros Hd. destruct kmap_eq as (E1 & E2 & E3 & E4). unfold kmap. rewrite E2, E1 in *.
  split; [done|]. rewrite E3, E4. split; [|split].
  - replace (kdata - KERNLINK) with ((d - 524544) * PGSIZE) by (kconsts; lia). by rewrite Z.div_mul.
  - replace (PHYSTOP + KERNBASE - kdata) with ((581632 - d) * PGSIZE) by (kconsts; lia). by rewrite Z.div_mul.
  - rewrite Hd. apply vpn_page.
Qed.

Ltac page_cases :=
  change (u32 (EXTMEM - 0) / PGSIZE) with 256 in *; change (u32 (0 - DEVSPACE) / PGSIZE) with 8192 in *;
  change (vpn KERNBASE) with 524288; change (vpn KERNLINK) with 524544; change (vpn DEVSPACE) with 1040384;
  unfold mapped; kconsts;
  repeat match goal with
  | |- context [?x <=? ?y] => destruct (Z.leb_spec x y)
  | |- context [?x <? ?y] => destruct (Z.ltb_spec x y)
  end; cbn [andb]; try lia; try reflexivity.

(** No page is in two regions. *)
Lemma kmap_free : regions_free (fun _ => 0) (kmap kdata).
Proof.
  destruct kdata_page as [d Hd]. destruct (kmap_pages d Hd) as (-> & E1 & E2 & E3).
  cbn [regions_free map_region rsize fst]. rewrite E1, E2, E3. split_and!; [..|done].
  all: intros i Hi; page_cases.
Qed.

(** The page map the four regions make. *)
Lemma kernel_regions n :
  0 <= n < 2 ^ 20 -> foldl (fun f k => map_region k f) (fun _ => 0) (kmap kdata) n = kernel_slot n.
Proof.
  intros Hn. destruct kdata_page as [d Hd]. destruct (kmap_pages d Hd) as (-> & E1 & E2 & E3).
  cbn [foldl map_region rsize]. rewrite E1, E2, E3. unfold kernel_slot. page_cases.
  all: f_equal; lia.
Qed.

(** ** setupkvm *)

Lemma new_dir s s1 l pgdir :
  alloc_inv kend s (pgdir :: l) -> alloc_inv kend s1 l -> ram s1 = ram s ->
  vm_inv (on_ram (memset pgdir 0 PGSIZE) s1) l pgdir ∅
  /\ kept kend (fun q => q <> pgdir) s (on_ram (memset pgdir 0 PGSIZE) s1).
Proof.
  intros Ha Ha1 Hr. pose proof (ai_good _ _ _ Ha) as HF. apply Forall_cons in HF as [Hp HF].
  pose proof (ai_nodup _ _ _ Ha) as HN. apply NoDup_cons in HN as [Hpl _].
  assert (kept kend (fun q => q <> pgdir) s (on_ram (memset pgdir 0 PGSIZE) s1)) as Hk.
  { intros q x Hne Hq Hx. cbn. rewrite (memset_page kend Hend), Hr by done.
    rewrite bool_decide_eq_false_2; [done|]. by apply (good_page_disjoint kend q). }
  split; [|done]. constructor; [|done|done|by intros ??[]%lookup_empty_Some|by intros ???[]%lookup_empty_Some|].
  - apply (alloc_inv_frame kend s1); [done|apply (memset_page_ok kend Hend); [done|apply Ha1]|].
    intros p x Hpin Hx. rewrite Forall_forall in HF.
    etransitivity; [apply (Hk p x); auto; by intros ->|by rewrite Hr].
  - intros i Hi. rewrite lookup_empty. cbn [on_ram ram]. rewrite load32_zero; [done|].
    intros j Hj. rewrite (memset_page kend Hend) by done.
    rewrite bool_decide_eq_true_2; [done|]. vm_consts. lia.
Qed.

(** The directory entries of the kernel's part: memory and devices. *)
Definition kernel_dirs : gset Z := list_to_set (seqZ 512 56) ∪ list_to_set (seqZ 1016 8).

Lemma kernel_dirs_size : size kernel_dirs = 64%nat.
Proof. vm_compute. reflexivity. Qed.

Lemma kmap_dirs : Forall (in_dirs kernel_dirs) (kmap kdata).
Proof.
  destruct kdata_page as [d Hd]. destruct (kmap_pages d Hd) as (-> & E1 & E2 & E3). unfold in_dirs, kernel_dirs.
  assert (524544 < d < 581632) as Hr by (kconsts; lia).
  repeat (apply Forall_cons; split); [..|by apply Forall_nil]; cbn [fst snd rsize]; intros i Hi;
    rewrite elem_of_union, !elem_of_list_to_set, !elem_of_seqZ; unfold dirx, NPTENTRIES.
  - change (u32 (EXTMEM - 0) / PGSIZE) with 256 in Hi. change (vpn KERNBASE) with 524288.
    left. split; [apply Z.div_le_lower_bound|apply Z.div_lt_upper_bound]; lia.
  - rewrite E1 in Hi. change (vpn KERNLINK) with 524544. left. split; [apply Z.div_le_lower_bound|apply Z.div_lt_upper_bound]; lia.
  - rewrite E2 in Hi. rewrite E3. left. split; [apply Z.div_le_lower_bound|apply Z.div_lt_upper_bound]; lia.
  - change (u32 (0 - DEVSPACE) / PGSIZE) with 8192 in Hi. change (vpn DEVSPACE) with 1040384.
    right. split; [apply Z.div_le_lower_bound|apply Z.div_lt_upper_bound]; lia.
Qed.

(** One page for the directory and at most 64 for the tables: with so many it does
    not fail. *)
Lemma setupkvm_full s l :
  alloc_inv kend s l ->
  exists r s' l', setupkvm kdata s = ([], Ret r s') /\ l' `suffix_of` l
    /\ kept kend (fun q => q ∉ l) s s'
    /\ (if r =? 0 then alloc_inv kend s' l'
       else r ∈ l /\ exists T, vm_inv s' l' r T /\ (forall i t, T !! i = Some t -> t ∈ l)
            /\ forall n, 0 <= n < 2 ^ 20 -> slot (ram s') T n = kernel_slot n)
    /\ (forall spare, (65 + spare <= length l)%nat -> r <> 0 /\ (spare <= length l')%nat).
Proof.
  intros Ha. pose proof (kalloc_inv kend Hend s l Ha) as Hk. unfold setupkvm.
  destruct l as [|pgdir l]; [exists 0, s, []; run_with Hk; split_and!; [done..|intros spare Hl; cbn in Hl; lia]|].
  destruct Hk as (s1 & Hk & Ha1 & Hr & _). destruct (new_dir s s1 l pgdir Ha Ha1 Hr) as [Hi Hkp].
  run_with Hk. pose proof (good_page_range kend Hend pgdir (vi_dir _ _ _ _ _ Hi)) as Hrg.
  destruct (Z.eqb_spec pgdir 0) as [|Hnz]; [vm_consts; lia|]. erewrite bind_nil by reflexivity.
  assert ((p2v PHYSTOP >? DEVSPACE) = false) as -> by reflexivity.
  destruct (map_regions_ok pgdir (kmap kdata) _ l ∅ (fun _ => 0) Hi kmap_ok kmap_free) as (r & s2 & l2 & T2 & E & Hst & Hres & Hcov).
  { intros n _. unfold slot. by rewrite lookup_empty. }
  assert (kept kend (fun q => q ∉ pgdir :: l) s s2) as Hkept.
  { eapply kept_trans; [apply (kept_weaken _ _ _ _ _ Hkp)|apply (step_kept _ _ _ _ _ _ _ _ Hst)|];
      intros q [Hq1 Hq2]%not_elem_of_cons; [done|]. split; [done|].
    intros [?|[i Hi']]; [done|by apply lookup_empty_Some in Hi']. }
  assert (forall spare, (65 + spare <= length (pgdir :: l))%nat -> covers kernel_dirs spare ∅ l) as Hen.
  { intros spare Hlen. split; [set_solver|]. rewrite kernel_dirs_size, map_size_empty. cbn in Hlen. lia. }
  assert (l2 `suffix_of` pgdir :: l) as Hsuf by (apply suffix_cons_r, Hst).
  erewrite bind_nil by exact E. destruct r as [[]|].
  - exists 0, s2, l2. split; [done|]. split; [done|]. split; [done|]. split; [apply Hst|].
    intros spare Hlen. by destruct (Hcov kernel_dirs spare kmap_dirs (Hen spare Hlen)).
  - exists pgdir, s2, l2. split; [done|]. split; [done|]. split; [done|].
    destruct (Z.eqb_spec pgdir 0); [done|]. split.
    2: { intros spare Hlen. split; [done|]. destruct (Hcov kernel_dirs spare kmap_dirs (Hen spare Hlen)) as [_ Hc]. by apply covers_left in Hc. }
    split; [by left|]. exists T2. split; [apply Hst|]. split.
    + intros i t Ht. destruct (vs_new _ _ _ _ _ _ _ _ Hst i t Ht) as [?%lookup_empty_Some|?]; [done|by right].
    + intros n' Hn'. rewrite Hres by done. by apply kernel_regions.
Qed.

Lemma setupkvm_ok s l :
  alloc_inv kend s l ->
  exists r s' l', setupkvm kdata s = ([], Ret r s') /\ l' `suffix_of` l
    /\ kept kend (fun q => q ∉ l) s s'
    /\ if r =? 0 then alloc_inv kend s' l'
       else r ∈ l /\ exists T, vm_inv s' l' r T /\ (forall i t, T !! i = Some t -> t ∈ l)
            /\ forall n, 0 <= n < 2 ^ 20 -> slot (ram s') T n = kernel_slot n.
Proof. intros Ha. destruct (setupkvm_full s l Ha) as (r & s' & l' & E & Hsuf & Hk & Hres & _). by exists r, s', l'. Qed.

Lemma kernel_slot_user n : 0 <= n < UPAGES -> kernel_slot n = 0.
Proof.
  rewrite UPAGES_eq. intros Hn. unfold kernel_slot. cbv zeta.
  destruct (Z.ltb_spec (PGSIZE * n) KERNBASE); [done|]. kconsts. lia.
Qed.

Lemma kernel_slot_not_user n : 0 <= n < 2 ^ 20 -> has (kernel_slot n) PTE_U = false.
Proof.
  intros Hn. assert (forall a, (PGSIZE * a) `mod` PGSIZE = 0) as Hm by (intros a; by rewrite Z.mul_comm, Z.mod_mul).
  assert ((PGSIZE * n - KERNBASE) `mod` PGSIZE = 0) as Hk by (by rewrite Zminus_mod, Hm).
  unfold kernel_slot. cbv zeta. repeat case_match; try done; rewrite entry_user by auto; done.
Qed.

End VmKernel.
