(* ===== verification/VmCopy.v ===== *)
(** * Copying an address space: copyuvm

    [fork] gives the child a copy of the parent's memory.  The child's pages are
    new ones, with the parent's bytes and permissions, and the parent keeps its
    own, also when memory runs out on the way. *)

From stdpp Require Import base numbers list gmap strings.
From S2P Require Import Prelude Bytes Mem Str Kalloc Vm VmTable VmSpace VmKernel.

Open Scope Z_scope.

Section VmCopy.

Context (kend : Z) (Hend : KERNBASE <= kend) (Hpos : KERNBASE < kend).

#[local] Abbreviation vm_inv := (vm_inv kend).
#[local] Abbreviation vm_step := (vm_step kend).
#[local] Abbreviation space := (space kend).
#[local] Abbreviation kept := (kept kend).
#[local] Abbreviation good_page := (good_page kend).

(** ** Two address spaces *)

Definition apart (pgdir : Z) (T : gmap Z Z) (U : gmap Z (Z * Z)) (d : Z) (Td : gmap Z Z) (Ud : gmap Z (Z * Z)) : Prop :=
  forall q, owns pgdir T U q -> ~ owns d Td Ud q.

Lemma owned_page s l pgdir T U q : space s l pgdir T U -> owns pgdir T U q -> good_page q /\ q ∉ l.
Proof.
  intros Hs [[->|[i Hi]]|(n & f & HU)].
  - split; apply Hs.
  - destruct (vi_tab _ _ _ _ _ (sp_vm _ _ _ _ _ _ Hs) _ _ Hi) as (? & ? & _). done.
  - destruct (sp_page _ _ _ _ _ _ Hs _ _ _ HU) as (_ & ? & ? & _). done.
Qed.

(** Another space is untouched when its pages are. *)
Lemma space_other s l pgdir T U s' l' :
  space s l pgdir T U -> alloc_inv kend s' l' -> (forall q, owns pgdir T U q -> q ∉ l') ->
  kept (owns pgdir T U) s s' -> space s' l' pgdir T U.
Proof.
  intros Hs Ha Hl Hk. pose proof Hs as [Hi Hslot Hpg Hinj].
  assert (forall q, owns pgdir T U q -> good_page q) as Hg by (intros q Hq; by apply (owned_page _ _ _ _ _ _ Hs)).
  assert (forall i t, T !! i = Some t -> owns pgdir T U t) as Hot by (intros i t Ht; left; right; by exists i).
  constructor; auto.
  - destruct Hi as [_ Hd Hu Ht Hj Hp]. constructor; auto.
    + apply Hl. left; by left.
    + intros i t Hti. destruct (Ht i t Hti) as (? & _ & ?). split; [done|]. split; [|done]. by eapply Hl, Hot.
    + intros i Hir. rewrite (load32_page (ram s) (ram s') pgdir i Hir); [by apply Hp|].
      intros x. apply Hk; [left; by left|done].
  - intros n Hn. rewrite (slot_frame kend s l pgdir T (ram s')); [by apply Hslot|done|].
    intros t x [i Hti]. apply Hk; eauto.
  - intros n p f HU. destruct (Hpg n p f HU) as (? & ? & _ & ?). split; [done|]. split; [done|]. split; [|done].
    apply Hl. right. by exists n, f.
Qed.

Lemma space_other_step s l pgdir T U d Td s' l' Td' :
  space s l pgdir T U -> vm_step d s l Td s' l' Td' -> (forall q, owns pgdir T U q -> ~ tables d Td q) ->
  space s' l' pgdir T U.
Proof.
  intros Hs Hst Hd. apply (space_other s l); [done|apply Hst| |].
  - intros q Hq Hin. apply (owned_page _ _ _ _ _ _ Hs Hq). eapply suffix_elem; [apply Hst|done].
  - apply (kept_weaken _ _ _ _ _ (step_kept _ _ _ _ _ _ _ _ Hst)). intros q Hq. split; [|by apply Hd].
    by apply (owned_page _ _ _ _ _ _ Hs).
Qed.

(** A page taken from the free list may be written. *)
Lemma space_take s s1 l pgdir T U p m' :
  space s (p :: l) pgdir T U -> alloc_inv kend s1 l -> ram s1 = ram s -> mem_ok m' ->
  (forall x, ~ in_page p x -> m' x = ram s x) -> space (mk_pmem m' (km s1)) l pgdir T U.
Proof.
  intros Hs Ha Hr Hm Hx. destruct (free_page _ _ _ _ _ _ _ Hs) as (Hg & Hl & Ht & _).
  pose proof (space_pop kend s s1 l pgdir T U p Hs Ha Hr) as Hs1. apply space_frame; [done|done|].
  intros q x Hq Hin. rewrite Hr. apply Hx. apply (good_page_disjoint kend q); [|done|by intros ->; destruct Hq|done].
  destruct Hq as [Hq|Hq]; [|by apply (owned_page _ _ _ _ _ _ Hs1); left].
  pose proof (ai_good _ _ _ Ha) as HF. rewrite Forall_forall in HF. auto.
Qed.

Lemma memmove_page m p q x :
  good_page p -> good_page q ->
  memmove p q PGSIZE m x = if bool_decide (in_page p x) then m (q + (x - p)) else m x.
Proof.
  intros Hp%(good_page_range kend Hend) Hq%(good_page_range kend Hend). vm_consts.
  rewrite memmove_filled by lia. case_bool_decide; [by rewrite filled_in by lia|by rewrite filled_out by lia].
Qed.

(** ** The loop *)

(** The child has the parent's first [n] pages. *)
Definition copied (s : pmem) (U Ud : gmap Z (Z * Z)) (n : Z) : Prop :=
  (forall j, ~ 0 <= j < n -> Ud !! j = None)
  /\ forall j p f, 0 <= j < n -> U !! j = Some (p, f) ->
       exists p', Ud !! j = Some (p', Z.lor f PTE_P)
         /\ forall x, in_page p' x -> ram s x = ram s (p + (x - p')).

(** What stays true of parent and child while pages are copied. *)
Record copying (pgdir : Z) (T : gmap Z Z) (U : gmap Z (Z * Z)) (d : Z)
    (s : pmem) (l : list Z) (Td : gmap Z Z) (Ud : gmap Z (Z * Z)) (n : Z) : Prop := {
  cp_parent : space s l pgdir T U;
  cp_child : space s l d Td Ud;
  cp_apart : apart pgdir T U d Td Ud;
  cp_copied : copied s U Ud n
}.

Lemma entry_again pa f : entry pa (Z.lor f PTE_P) = entry pa f.
Proof. unfold entry. by rewrite <- !Z.lor_assoc, Z.lor_diag. Qed.

Lemma flags_entry pa f :
  pa `mod` PGSIZE = 0 -> 0 <= f < PGSIZE -> PTE_FLAGS (entry pa f) = Z.lor f PTE_P.
Proof.
  intros Ha Hf. rewrite <- entry_again. apply entry_flags; [done|by apply lor_flags_range|].
  rewrite has_lor. apply orb_true_r.
Qed.

(** The pages of the child come from the free list [l0]. *)
Lemma owns_step d s l Td s' l' Td' (Ud Ud' : gmap Z (Z * Z)) (l0 : list Z) q :
  vm_step d s l Td s' l' Td' -> (forall x, x ∈ l -> x ∈ l0) ->
  (forall n f, Ud' !! n = Some (q, f) -> (exists n f, Ud !! n = Some (q, f)) \/ q ∈ l0) ->
  owns d Td' Ud' q -> owns d Td Ud q \/ q ∈ l0.
Proof.
  intros Hst Hl HU [[->|[i Hi]]|(n & f & Hn)].
  - left; left; by left.
  - destruct (vs_new _ _ _ _ _ _ _ _ Hst _ _ Hi); [left; left; right; by exists i|right; auto].
  - destruct (HU n f Hn); [left; by right|by right].
Qed.

Lemma copied_kept s s' l pgdir T d Td (U Ud : gmap Z (Z * Z)) n :
  copied s U Ud n -> space s l pgdir T U -> space s l d Td Ud ->
  kept (fun q => (exists i f, U !! i = Some (q, f)) \/ exists i f, Ud !! i = Some (q, f)) s s' ->
  copied s' U Ud n.
Proof.
  intros [H1 H2] Hp Hc Hk. split; [done|]. intros j p f Hj HU. destruct (H2 j p f Hj HU) as (p' & HU' & Hx).
  destruct (sp_page _ _ _ _ _ _ Hp _ _ _ HU) as (_ & Hg & _). destruct (sp_page _ _ _ _ _ _ Hc _ _ _ HU') as (_ & Hg' & _).
  exists p'. split; [done|]. intros x Hin.
  rewrite (Hk p' x), (Hk p (p + (x - p'))), Hx; eauto. vm_consts. lia.
Qed.

Lemma copied_snoc s (U Ud : gmap Z (Z * Z)) n q f p :
  copied s U Ud n -> 0 <= n -> U !! n = Some (q, f) ->
  (forall x, in_page p x -> ram s x = ram s (q + (x - p))) ->
  copied s U (<[n := (p, Z.lor f PTE_P)]> Ud) (n + 1).
Proof.
  intros [H1 H2] Hn HU Hx. split.
  - intros j Hj. rewrite lookup_insert_ne by lia. apply H1. lia.
  - intros j p0 g Hj Hj'. destruct (decide (j = n)) as [->|Hne].
    + rewrite lookup_insert_eq. rewrite HU in Hj'. injection Hj' as <- <-. by exists p.
    + rewrite lookup_insert_ne by done. apply H2; [lia|done].
Qed.

(** One page: read the parent's entry, take a page, copy, map. *)
Lemma copy_page pgdir T U d s p l Td Ud i q f :
  copying pgdir T U d s (p :: l) Td Ud i -> 0 <= i < UPAGES -> U !! i = Some (q, f) ->
  exists s1 s2 l2 Td2 Ud2 n2 r,
    kalloc s = ([], Ret p s1) /\ p <> 0
    /\ mappages d (PGSIZE * i) PGSIZE (v2p p) (Z.lor f PTE_P) (on_ram (memmove p q PGSIZE) s1) = ([], Ret r s2)
    /\ l2 `suffix_of` l
    /\ kept (fun x => (x ∉ p :: l) /\ ~ owns d Td Ud x) s s2
    /\ copying pgdir T U d s2 l2 Td2 Ud2 n2
    /\ (r = 0 /\ n2 = i + 1 /\ (length l <= length l2 + 1)%nat \/ r = -1 /\ n2 = i /\ l = [])
    /\ (forall x, owns d Td2 Ud2 x -> owns d Td Ud x \/ x ∈ p :: l).
Proof.
  intros [Hp Hc Hap Hcp] Hi HU.
  destruct (free_page _ _ _ _ _ _ _ Hp) as (Hg & Hpl & _). pose proof (free_page _ _ _ _ _ _ _ Hc) as Hfr.
  pose proof Hfr as (_ & _ & Hpt & Hpu).
  destruct (kalloc_inv kend Hend s (p :: l)) as (s1 & Hk & Ha & Hr & _); [apply Hp|].
  destruct (sp_page _ _ _ _ _ _ Hp _ _ _ HU) as (_ & Hgq & Hql & _ & Hf).
  set (s1' := on_ram (memmove p q PGSIZE) s1).
  assert (forall x, ~ in_page p x -> ram s1' x = ram s x) as Hout.
  { intros x Hx. cbn. rewrite memmove_page, Hr by done. by rewrite bool_decide_eq_false_2. }
  assert (mem_ok (ram s1')) as Hm.
  { intros x. cbn. rewrite memmove_page by done. pose proof (ai_ram _ _ _ Ha). case_bool_decide; auto. }
  pose proof (space_take s s1 l pgdir T U p (ram s1') Hp Ha Hr Hm Hout) as Hp1.
  pose proof (space_take s s1 l d Td Ud p (ram s1') Hc Ha Hr Hm Hout) as Hc1.
  destruct (map_user kend Hend s1' l d Td Ud i p (Z.lor f PTE_P) Hc1 Hfr) as (s2 & l2 & Td2 & r & E & Hst & Hres);
    [by apply lor_flags_range|done|apply Hcp; lia|].
  assert (kept (fun x => (x ∉ p :: l) /\ ~ tables d Td x) s s2) as Hkp.
  { eapply kept_trans; [|apply (step_kept _ _ _ _ _ _ _ _ Hst)|].
    - intros x y [Hx _] Hgx Hy. apply Hout. apply (good_page_disjoint kend x); auto. intros ->. apply Hx. by left.
    - intros x [[_ ?]%not_elem_of_cons ?]. done. }
  assert (forall x, owns pgdir T U x -> ~ tables d Td x) as Hpd by (intros x Hx Ht; apply (Hap x Hx); by left).
  pose proof (good_page_range kend Hend p Hg) as Hrg.
  assert (kept (fun x => (x ∉ p :: l) /\ ~ owns d Td Ud x) s s2) as Hkp'.
  { apply (kept_weaken _ _ _ _ _ Hkp). intros x [? Hx]. split; [done|]. intros ?; apply Hx; by left. }
  pose proof (space_other_step _ _ _ _ _ _ _ _ _ _ Hp1 Hst Hpd) as Hp2.
  assert (copied s2 U Ud i) as Hcp2.
  { apply (copied_kept s s2 (p :: l) pgdir T d Td); auto. apply (kept_weaken _ _ _ _ _ Hkp). intros x [(j & g & Hx)|(j & g & Hx)].
    - destruct (owned_page _ _ _ _ _ x Hp) as [_ ?]; [right; by exists j, g|]. split; [done|]. apply Hpd. right. by exists j, g.
    - destruct (sp_page _ _ _ _ _ _ Hc _ _ _ Hx) as (_ & _ & ? & ? & _). done. }
  assert (forall x, owns d Td2 (<[i := (p, Z.lor f PTE_P)]> Ud) x -> owns d Td Ud x \/ x ∈ p :: l) as Hown.
  { intros x. apply (owns_step d s1' l Td s2 l2 Td2 Ud _ (p :: l) x Hst); [intros; by right|].
    intros n g [[_ [= <- _]]|[_ Hn]]%lookup_insert_Some; [right; by left|left; eauto]. }
  exists s1, s2, l2, Td2. destruct Hres as [(-> & Hc2 & Hlen)|(-> & -> & -> & -> & ->)].
  - exists (<[i := (p, Z.lor f PTE_P)]> Ud), (i + 1), 0. split_and!; try done; try (vm_consts; lia); [apply Hst|].
    constructor; auto.
    + intros x Hx [Ho|Ho]%Hown; [by apply (Hap x)|by destruct (owned_page _ _ _ _ _ x Hp Hx)].
    + apply (copied_snoc _ _ _ _ q f); auto; [lia|]. intros x Hx. rewrite (step_kept _ _ _ _ _ _ _ _ Hst p x) by done.
      cbn. rewrite memmove_page by done. rewrite bool_decide_eq_true_2 by done. rewrite Hr. symmetry.
      apply (Hkp q); [split; [done|]|done|vm_consts; lia]. apply Hpd. right. by exists i, f.
  - exists Ud, i, (-1). split_and!; try done; try (vm_consts; lia); try (by constructor); by left.
Qed.

Lemma copyuvm_loop_ok pgdir T U d sz K : 0 <= sz <= KERNBASE -> Z.of_nat (npages sz) <= K -> upto U 0 K ->
  forall m s l Td Ud i fuel,
  copying pgdir T U d s l Td Ud i -> 0 <= i -> i + Z.of_nat m = Z.of_nat (npages sz) -> (m <= fuel)%nat ->
  exists r s' l' Td' Ud' n,
    copyuvm_loop fuel pgdir d (PGSIZE * i) sz s = ([], Ret r s')
    /\ copying pgdir T U d s' l' Td' Ud' n /\ i <= n <= Z.of_nat (npages sz)
    /\ (r = true -> n = Z.of_nat (npages sz)) /\ ((2 * m <= length l)%nat -> r = true)
    /\ l' `suffix_of` l /\ kept (fun q => (q ∉ l) /\ ~ owns d Td Ud q) s s'
    /\ (forall q, owns d Td' Ud' q -> owns d Td Ud q \/ q ∈ l).
Proof.
  intros Hsz HK Hto. pose proof (npages_user sz Hsz) as Hup.
  induction m as [|m IH]; intros s l Td Ud i fuel Hcp Hi Him Hfuel.
  - exists true, s, l, Td, Ud, i. split; [|split_and!; try done; try lia; by left].
    destruct fuel; cbn [copyuvm_loop]; rewrite npages_lt by lia;
      (destruct (Z.ltb_spec i (Z.of_nat (npages sz))); [lia|done]).
  - destruct fuel as [|fuel]; [lia|]. cbn [copyuvm_loop]. rewrite npages_lt by lia.
    destruct (Z.ltb_spec i (Z.of_nat (npages sz))) as [Hlt|]; [|lia].
    destruct (Hto i Hi) as [_ [[q f] HU]]; [lia|]. pose proof (cp_parent _ _ _ _ _ _ _ _ _ Hcp) as Hp.
    destruct (slot_table _ _ _ _ _ _ _ _ _ Hp HU) as (t & Ht & Hx). pose proof (vpn_page i) as Hvp.
    destruct (sp_page _ _ _ _ _ _ Hp _ _ _ HU) as (Hiu & Hgq & _ & _ & Hf). rewrite UPAGES_eq in Hiu.
    destruct (vi_tab _ _ _ _ _ (sp_vm _ _ _ _ _ _ Hp) _ _ Ht) as (Hgt & _).
    destruct (page_word kend Hend t (tabx i) Hgt (tabx_range _)) as (_ & Hnz & _). apply Z.eqb_neq in Hnz.
    rewrite <- Hvp in Ht. erewrite bind_nil by (apply (walk_hit kend Hend s l pgdir T _ _ t); [apply Hp|unfold PGSIZE; lia|done]).
    rewrite Hvp, Hnz. run_with (read_pte_run _ s Hnz). rewrite Hx.
    pose proof (entry_present (v2p q) f) as Hpr. unfold present in Hpr. rewrite Hpr. cbn [negb].
    destruct (v2p_page kend Hend q Hgq) as (_ & Hvr & Hva).
    rewrite entry_addr, flags_entry, (p2v_v2p kend Hend) by done.
    destruct l as [|p l].
    { pose proof (kalloc_inv kend Hend s [] ltac:(apply Hp)) as Hk. run_with Hk.
      exists false, s, [], Td, Ud, i. split_and!; try done; try (cbn; lia). by left. }
    destruct (copy_page pgdir T U d s p l Td Ud i q f Hcp) as (s1 & s2 & l2 & Td2 & Ud2 & n2 & r & Hk & Hp0 & E & Hsuf & Hkp & Hcp2 & Hr & Hown);
      [rewrite UPAGES_eq; lia|done|].
    run_with Hk. apply Z.eqb_neq in Hp0. rewrite Hp0. erewrite bind_nil by reflexivity. run_with E.
    assert (l2 `suffix_of` p :: l) as Hsuf' by by apply suffix_cons_r.
    destruct Hr as [(-> & -> & Hlen)|(-> & -> & ->)]; cbn [Z.ltb Z.compare].
    + assert (u32 (PGSIZE * i + PGSIZE) = PGSIZE * (i + 1)) as -> by (rewrite u32_small; unfold PGSIZE in *; lia).
      destruct (IH s2 l2 Td2 Ud2 (i + 1) fuel Hcp2) as (r & s3 & l3 & Td3 & Ud3 & n3 & E3 & Hcp3 & Hn3 & Hr3 & Hen3 & Hsuf3 & Hk3 & Hown3); [lia..|].
      exists r, s3, l3, Td3, Ud3, n3. split_and!; try done; try lia; [cbn; intros; apply Hen3; lia|by etrans| |].
      * eapply kept_trans; [exact Hkp|exact Hk3|]. intros x [Hxl Ho]. split; [intros ?; apply Hxl; by eapply suffix_elem|].
        intros [?|?]%Hown; done.
      * intros x [Ho|Ho]%Hown3; [by apply Hown|right; by eapply suffix_elem].
    + exists false, s2, l2, Td2, Ud2, i. split_and!; try done; cbn; lia.
Qed.

(** ** copyuvm *)

Context (kdata : Z) (Hkd : kdata `mod` PGSIZE = 0) (Hkd1 : KERNLINK < kdata) (Hkd2 : kdata < KERNBASE + PHYSTOP).

Lemma copied_upto s (U Ud : gmap Z (Z * Z)) n K : copied s U Ud n -> 0 <= n <= K -> upto U 0 K -> upto Ud 0 n.
Proof.
  intros [H1 H2] Hn Hto i Hi. split.
  - intros [x Hx]. destruct (decide (i < n)); [done|]. rewrite H1 in Hx by lia. done.
  - intros Hin. destruct (Hto i Hi) as [_ [[p f] HU]]; [lia|]. destruct (H2 i p f) as (p' & E & _); [lia|done|by eexists].
Qed.

Lemma new_space s l d T :
  vm_inv s l d T -> (forall n, 0 <= n < 2 ^ 20 -> slot (ram s) T n = kernel_slot kdata n) -> space s l d T ∅.
Proof.
  intros Hi Hsl. constructor; [done| |by intros ???[]%lookup_empty_Some|by intros ?????[]%lookup_empty_Some].
  intros n Hn. rewrite lookup_empty. pose proof Hn as Hn'. rewrite UPAGES_eq in Hn'.
  rewrite Hsl by lia. by rewrite kernel_slot_user.
Qed.

Lemma copyuvm_ok s l pgdir T U sz K :
  space s l pgdir T U -> upto U 0 K -> 0 <= sz <= KERNBASE -> Z.of_nat (npages sz) <= K ->
  exists r s' l', copyuvm kend kdata pgdir sz s = ([], Ret r s')
    /\ space s' l' pgdir T U /\ kept (fun q => q ∉ l) s s'
    /\ (r <> 0 -> exists Td Ud, space s' l' r Td Ud /\ apart pgdir T U r Td Ud
          /\ copied s' U Ud (Z.of_nat (npages sz)))
    /\ ((65 + 2 * npages sz <= length l)%nat -> r <> 0).
Proof.
  intros Hs Hto Hsz HK.
  destruct (setupkvm_full kend Hend kdata Hkd Hkd1 Hkd2 s l) as (d & s1 & l1 & E & Hsuf & Hkp & Hres & Hen); [apply Hs|].
  unfold copyuvm. run_with E.
  assert (forall q, owns pgdir T U q -> q ∉ l) as Hol by (intros q Hq; by apply (owned_page _ _ _ _ _ _ Hs)).
  assert (alloc_inv kend s1 l1) as Ha1 by (destruct (Z.eqb_spec d 0); [done|destruct Hres as (_ & Td & Hi & _); apply Hi]).
  assert (space s1 l1 pgdir T U) as Hp1.
  { apply (space_other s l); [done|done| |by apply (kept_weaken _ _ _ _ _ Hkp)].
    intros q Hq Hin. apply (Hol q Hq). by eapply suffix_elem. }
  destruct (Z.eqb_spec d 0) as [->|Hd0].
  { exists 0, s1, l1. split_and!; try done. intros Hl. by destruct (Hen _ Hl). }
  destruct Hres as (Hdl & Td & Hi & HTd & Hsl).
  assert (forall q, owns d Td ∅ q -> q ∈ l) as Hdown.
  { intros q [[->|[i Ht]]|(n & f & Hn)]; [done|by eapply HTd|by apply lookup_empty_Some in Hn]. }
  assert (copying pgdir T U d s1 l1 Td ∅ 0) as Hcp.
  { constructor; [done|by apply new_space|intros q Hq Ho; by apply (Hol q Hq), Hdown|].
    split; [intros; apply lookup_empty|intros; lia]. }
  pose proof (npages_user sz Hsz) as Hup. rewrite UPAGES_eq in Hup.
  destruct (copyuvm_loop_ok pgdir T U d sz K Hsz HK Hto (npages sz) s1 l1 Td ∅ 0 (Z.to_nat (2 ^ 20)) Hcp)
    as (r & s2 & l2 & Td2 & Ud2 & n & E2 & [Hp2 Hc2 Hap2 Hcp2] & Hn & Hr & Hen2 & Hsuf2 & Hk2 & Hown2); [lia..|].
  change (PGSIZE * 0) with 0 in E2. run_with E2.
  assert (kept (fun q => q ∉ l) s s2) as Hkept.
  { eapply kept_trans; [exact Hkp|exact Hk2|]. intros q Hq. split; [intros ?; apply Hq; by eapply suffix_elem|].
    intros Ho. by apply Hq, Hdown. }
  destruct r.
  - exists d, s2, l2. split; [done|]. split; [done|]. split; [done|]. split; [|done]. intros _. exists Td2, Ud2.
    rewrite Hr in Hcp2; done.
  - destruct (freevm_ok kend Hend Hpos s2 l2 d Td2 Ud2 n Hc2) as (s3 & fl & E3 & Ha3 & Hfl & Hk3).
    { rewrite UPAGES_eq. lia. }
    { apply (copied_upto s2 U _ _ K); done || lia. }
    run_with E3. exists 0, s3, (fl ++ l2). split; [done|]. split; [|split; [|split; [done|]]].
    + apply (space_other s2 l2); [done|done| |].
      * intros q Hq [Hf%Hfl|Hf]%elem_of_app; [by apply (Hap2 q)|by apply (owned_page _ _ _ _ _ _ Hp2 Hq)].
      * apply (kept_weaken _ _ _ _ _ Hk3). intros q. apply Hap2.
    + eapply kept_trans; [exact Hkept|exact Hk3|]. intros q Hq [Ho|Ho]%Hown2; [by apply Hq, Hdown|].
      apply Hq. by eapply suffix_elem.
    + intros Hl. destruct (Hen _ Hl) as [_ Hl1]. by specialize (Hen2 Hl1).
Qed.

Lemma copied_bytes s (U Ud : gmap Z (Z * Z)) n K va :
  copied s U Ud n -> upto U 0 K -> n <= K -> 0 <= va < PGSIZE * n -> ubyte s Ud va = ubyte s U va.
Proof.
  intros [_ H2] Hto HnK Hva. unfold ubyte.
  assert (0 <= vpn va < n) as Hv.
  { unfold vpn. split; [apply Z.div_pos; unfold PGSIZE in *; lia|apply Z.div_lt_upper_bound; unfold PGSIZE in *; lia]. }
  destruct (Hto (vpn va)) as [_ [[p f] HU]]; [lia|lia|]. destruct (H2 _ p f Hv HU) as (p' & E & Hx).
  rewrite E, HU. pose proof (Z.mod_pos_bound va PGSIZE ltac:(done)). rewrite Hx by (vm_consts; lia). f_equal. lia.
Qed.

End VmCopy.
