(* ===== verification/Uvm.v ===== *)
(** * Virtual memory: what vm.c promises

    The theorems on page tables and user memory: what [mappages] and [setupkvm]
    map, how [allocuvm], [deallocuvm], [freevm] and [copyuvm] change an address
    space, and where the code departs from what it means to do. *)

From stdpp Require Import base numbers list gmap strings.
From S2P Require Import Prelude Bytes Mem Str Kalloc Vm VmTable VmSpace VmKernel VmCopy.

Open Scope Z_scope.

(** ** A machine to run the code on *)

(** Kernel image up to [0x80120000], data from [0x80108000]. *)
Definition some_end : Z := 0x80120000.
Definition some_data : Z := 0x80108000.

(** After boot: memory with free pages and one empty page directory. *)
Lemma booted (n : nat) : Z.of_nat n <= 1000 ->
  exists s l pgdir, space some_end s l pgdir ∅ ∅ /\ length l = n.
Proof.
  intros Hn. set (vend := 0x80200000 + PGSIZE * (Z.of_nat n + 1)).
  assert (KERNBASE <= some_end) as He by done.
  assert (PGROUNDUP 0x80200000 = 0x80200000) as Eup by done.
  assert (0x80200000 < vend < KERNBASE + PHYSTOP) as Hv by (unfold vend, PGSIZE, KERNBASE, PHYSTOP; lia).
  destruct (freerange_spec some_end He 0x80200000 vend (mk_pmem (fun _ => 0) (mk_kmem false false 0)) [])
    as (s & _ & Ha & _); [by apply alloc_inv_nil|unfold some_end; lia|lia|lia|by intros q ?%not_elem_of_nil|].
  rewrite Eup, app_nil_r in Ha.
  replace (Z.to_nat ((vend - 0x80200000) / PGSIZE)) with (S n) in Ha.
  2: { unfold vend. rewrite Z.add_simpl_l, Z.mul_comm, Z.div_mul by done. lia. }
  assert (length (rev (pages 0x80200000 (S n))) = S n) as Hlen.
  { unfold pages. by rewrite length_rev, length_fmap, length_seq. }
  destruct (rev (pages 0x80200000 (S n))) as [|pgdir l]; [done|].
  destruct (kalloc_inv some_end He s (pgdir :: l) Ha) as (s1 & _ & Ha1 & Hr & _).
  destruct (new_dir some_end He s s1 l pgdir Ha Ha1 Hr) as [Hi _].
  exists (on_ram (memset pgdir 0 PGSIZE) s1), l, pgdir. split; [|by injection Hlen].
  constructor; [done| |by intros ???[]%lookup_empty_Some|by intros ?????[]%lookup_empty_Some].
  intros k Hk. rewrite lookup_empty. unfold slot. by rewrite lookup_empty.
Qed.

(** ** Mapping *)

(** [mappages] either maps the whole range, page [i] of it to the [i]-th
    physical page with the given permissions, or runs out of memory for tables
    and returns -1 with a prefix of the range mapped.  It changes no other
    translation and no page outside the page table.  When a page of the range
    is already mapped it never succeeds: it panics with remap or returns -1. *)
Theorem mappages_spec kend s l pgdir T va size pa perm :
  KERNBASE <= kend -> vm_inv kend s l pgdir T ->
  0 <= va -> va `mod` PGSIZE = 0 -> 0 < size -> size `mod` PGSIZE = 0 -> va + size <= 2 ^ 32 ->
  pa `mod` PGSIZE = 0 -> 0 <= pa -> pa + size <= 2 ^ 32 -> 0 <= perm < PGSIZE ->
  ((forall i, 0 <= i < size / PGSIZE -> present (slot (ram s) T (vpn va + i)) = false) ->
   exists r j s' l' T', mappages pgdir va size pa perm s = ([], Ret r s')
     /\ vm_step kend pgdir s l T s' l' T'
     /\ (r = 0 /\ j = size / PGSIZE \/ r = -1 /\ 0 <= j < size / PGSIZE /\ l' = [])
     /\ (forall n, 0 <= n < 2 ^ 20 -> slot (ram s') T' n = mapped pa perm (vpn va) j (slot (ram s) T) n))
  /\ ((exists i, 0 <= i < size / PGSIZE /\ present (slot (ram s) T (vpn va + i)) = true) ->
      mappages pgdir va size pa perm s = ([], Panic "remap")
      \/ exists s', mappages pgdir va size pa perm s = ([], Ret (-1) s')).
Proof.
  intros Hend Hi Hva Hal Hsz Hsal Hw Hpa Hpa0 Hpaw Hperm. split; [by apply mappages_ok|].
  intros (i & Hir & Hpr).
  destruct (mappages_fuel va size Hva Hsz Hw) as (k & Hk & Hrd & Hr0 & Hrv & Hrw & E). rewrite E.
  destruct (pages_of_range va size k Hal Hsal Hk) as [Ek Es].
  apply (mappages_loop_remap kend Hend perm k pgdir Hperm _ _ s l T i); try done; try lia. by rewrite Hrv.
Qed.
Lemma mappages_spec_witness :
  exists s l pgdir r j s' T', space some_end s l pgdir ∅ ∅
    /\ mappages pgdir 0x1000 0x2000 0x300000 PTE_U s = ([], Ret r s')
    /\ (r = 0 /\ j = 2 \/ r = -1)
    /\ slot (ram s') T' 2 = mapped 0x300000 PTE_U 1 j (fun _ => 0) 2.
Proof.
  destruct (booted 10 ltac:(done)) as (s & l & pgdir & Hs & _). exists s, l, pgdir.
  destruct (proj1 (mappages_spec some_end s l pgdir ∅ 0x1000 0x2000 0x300000 PTE_U
    ltac:(done) (sp_vm _ _ _ _ _ _ Hs) ltac:(done) ltac:(done) ltac:(done) ltac:(done) ltac:(done)
    ltac:(done) ltac:(done) ltac:(done) ltac:(done))) as (r & j & s' & l' & T' & E & _ & Hr & Hsl).
  { intros i _. unfold slot. by rewrite lookup_empty. }
  exists r, j, s', T'. split; [exact Hs|]. split; [exact E|]. split.
  { destruct Hr as [[-> ->]|[-> _]]; [by left|by right]. }
  rewrite Hsl by done. apply mapped_ext. unfold slot. by rewrite lookup_empty.
Defined.

(** C7: [setupkvm] returns 0 or a new page directory, taken like its tables from
    the free pages, that maps exactly what [kmap] lists: no user page, physical
    memory at [KERNBASE] writable apart from the kernel's text, and the devices
    one to one; none of it accessible to user code.  It takes at
    most 65 pages, one for the directory and 64 for the tables, and succeeds when there
    are so many.  No page that was in
    use changes. *)
Theorem setupkvm_spec kend kdata s l :
  KERNBASE <= kend -> kdata `mod` PGSIZE = 0 -> KERNLINK < kdata < KERNBASE + PHYSTOP ->
  alloc_inv kend s l ->
  exists r s' l', setupkvm kdata s = ([], Ret r s') /\ l' `suffix_of` l
    /\ kept kend (fun q => q ∉ l) s s' /\ (forall spare, (65 + spare <= length l)%nat -> r <> 0 /\ (spare <= length l')%nat)
    /\ if r =? 0 then alloc_inv kend s' l'
       else r ∈ l /\ exists T, vm_inv kend s' l' r T /\ (forall i t, T !! i = Some t -> t ∈ l)
            /\ forall n, 0 <= n < 2 ^ 20 ->
                 slot (ram s') T n = kernel_slot kdata n /\ has (slot (ram s') T n) PTE_U = false.
Proof.
  intros Hend Hkd [H1 H2] Ha.
  destruct (setupkvm_full kend Hend kdata Hkd H1 H2 s l Ha) as (r & s' & l' & E & Hsuf & Hk & Hres & Hen).
  exists r, s', l'. split; [done|]. split; [done|]. split; [done|]. split; [done|]. destruct (Z.eqb_spec r 0); [done|].
  destruct Hres as (Hr & T & Hi & HT & Hsl). split; [done|]. exists T. split; [done|]. split; [done|].
  intros k Hk'. rewrite Hsl by done. split; [done|by apply kernel_slot_not_user].
Qed.
Lemma setupkvm_spec_witness :
  exists s (l : list Z) r s' l', length l = 100%nat /\ setupkvm some_data s = ([], Ret r s') /\ l' `suffix_of` l.
Proof.
  destruct (booted 100 ltac:(done)) as (s & l & pgdir & Hs & Hl). exists s, l.
  destruct (setupkvm_spec some_end some_data s l) as (r & s' & l' & E & Hsuf & _);
    [done|done|done|apply Hs|by exists r, s', l'].
Defined.

(** ** Growing and shrinking *)

(** [allocuvm] with memory for the pages and their tables. *)
Lemma allocuvm_ok kend s l pgdir T U oldsz newsz :
  KERNBASE <= kend -> space kend s l pgdir T U ->
  (forall i, Z.of_nat (npages oldsz) <= i -> U !! i = None) -> 0 <= oldsz <= newsz -> newsz < KERNBASE ->
  (2 * (npages newsz - npages oldsz) <= length l)%nat ->
  exists s1 l1 T1 U1,
    allocuvm kend pgdir oldsz newsz s = ([], Ret newsz s1)
    /\ space kend s1 l1 pgdir T1 U1 /\ l1 `suffix_of` l /\ (length l <= length l1 + 2 * (npages newsz - npages oldsz))%nat
    /\ kept kend (fun q => (q ∉ l) /\ ~ tables pgdir T q) s s1
    /\ (forall q, tables pgdir T1 q -> tables pgdir T q \/ q ∈ l)
    /\ grew s1 l U U1 (Z.of_nat (npages oldsz)) (npages newsz - npages oldsz).
Proof.
  intros Hend Hs Hnone Ho Hn Hmem. pose proof (npages_mono oldsz newsz ltac:(lia)) as Hmono.
  unfold allocuvm. destruct (Z.geb_spec newsz KERNBASE), (Z.ltb_spec newsz oldsz); try lia.
  rewrite PGROUNDUP_pages by (vm_consts; lia).
  pose proof (npages_user newsz ltac:(lia)) as Hup. rewrite UPAGES_eq in Hup.
  apply allocuvm_loop_ok; done || lia.
Qed.

(** C8: with memory for the pages and their tables, [allocuvm] adds exactly the
    pages from the old size to the new one, user-writable, zeroed and taken from
    the free list, and changes no page in use.  [deallocuvm] back to the old size
    then restores the old address space and gives exactly those pages back. *)
Theorem allocuvm_deallocuvm kend s l pgdir T U oldsz newsz :
  KERNBASE < kend -> space kend s l pgdir T U ->
  upto U 0 (Z.of_nat (npages oldsz)) -> 0 <= oldsz < newsz -> newsz < KERNBASE ->
  (2 * (npages newsz - npages oldsz) <= length l)%nat ->
  exists s1 l1 T1 U1,
    allocuvm kend pgdir oldsz newsz s = ([], Ret newsz s1)
    /\ space kend s1 l1 pgdir T1 U1 /\ l1 `suffix_of` l
    /\ kept kend (fun q => (q ∉ l) /\ ~ tables pgdir T q) s s1
    /\ grew s1 l U U1 (Z.of_nat (npages oldsz)) (npages newsz - npages oldsz)
    /\ exists s2 fl, deallocuvm kend pgdir newsz oldsz s1 = ([], Ret oldsz s2)
       /\ space kend s2 (fl ++ l1) pgdir T1 U
       /\ forall p, p ∈ fl <-> exists i f, U1 !! i = Some (p, f) /\ U !! i = None.
Proof.
  intros Hpos Hs Hto Ho Hn Hmem. assert (KERNBASE <= kend) as Hend by lia.
  pose proof (npages_mono oldsz newsz ltac:(lia)) as Hmono.
  assert (forall i, Z.of_nat (npages oldsz) <= i -> U !! i = None) as Hnone.
  { intros i Hi. apply eq_None_not_Some. intros ?%Hto; lia. }
  assert (forall i, is_Some (U !! i) -> 0 <= i < Z.of_nat (npages oldsz)) as Hsome.
  { intros i [[p f] Hi]. destruct (sp_page _ _ _ _ _ _ Hs _ _ _ Hi) as (? & _). split; [lia|].
    apply Hto; [lia|by eexists]. }
  destruct (allocuvm_ok kend s l pgdir T U oldsz newsz Hend Hs Hnone) as (s1 & l1 & T1 & U1 & E & Hs1 & Hsuf & _ & Hk & _ & Hg); [lia..|].
  exists s1, l1, T1, U1. split; [done|]. split; [done|]. split; [done|]. split; [done|]. split; [done|].
  destruct Hg as [Hg1 Hg2].
  destruct (deallocuvm_ok kend Hend Hpos s1 l1 pgdir T1 U1 newsz oldsz (Z.of_nat (npages newsz)) Hs1)
    as (s2 & l2 & U2 & E2 & Hs2 & [Hsh (fl & -> & Hfl)] & _); [lia|lia|lia| |].
  { intros i Hi. destruct (decide (i < Z.of_nat (npages newsz))) as [Hlt|Hge].
    - split; [done|intros _]. destruct (Hg2 i) as (p & -> & _); [lia|by eexists].
    - split; [|done]. rewrite Hg1 by lia. intros ?%Hsome; lia. }
  assert (U2 = U) as ->.
  { apply map_eq. intros i. rewrite Hsh. destruct (Z.ltb_spec i (Z.of_nat (npages oldsz))).
    - apply Hg1. lia. - symmetry. by apply Hnone. }
  exists s2, fl. split; [done|]. split; [done|]. intros p. rewrite Hfl. split; intros (i & f & Hi & Hi').
  - exists i, f. split; [done|]. by apply Hnone.
  - exists i, f. split; [|done]. destruct (decide (Z.of_nat (npages oldsz) <= i)); [done|].
    rewrite Hg1 in Hi by lia. congruence.
Qed.
Lemma allocuvm_deallocuvm_witness :
  exists s (l : list Z) pgdir s1 s2, length l = 100%nat
    /\ allocuvm some_end pgdir 0 20000 s = ([], Ret 20000 s1)
    /\ deallocuvm some_end pgdir 20000 0 s1 = ([], Ret 0 s2).
Proof.
  destruct (booted 100 ltac:(done)) as (s & l & pgdir & Hs & Hl).
  destruct (allocuvm_deallocuvm some_end s l pgdir ∅ ∅ 0 20000) as (s1 & l1 & T1 & U1 & E & _ & _ & _ & _ & s2 & fl & E2 & _);
    [done|done| |done|done|rewrite Hl; vm_compute; lia|by exists s, l, pgdir, s1, s2].
  intros i Hi. change (Z.of_nat (npages 0)) with 0. rewrite lookup_empty. split; [by intros []|lia].
Defined.

(** [freevm] gives back every page of an address space, its user pages, its
    page tables and the directory itself, each exactly once, and touches no
    other page. *)
Theorem freevm_spec kend s l pgdir T U K :
  KERNBASE < kend -> space kend s l pgdir T U -> K <= UPAGES -> upto U 0 K ->
  exists s' fl, freevm kend pgdir s = ([], Ret tt s')
    /\ alloc_inv kend s' (fl ++ l)
    /\ (forall q, q ∈ fl <-> owns pgdir T U q)
    /\ kept kend (fun q => ~ owns pgdir T U q) s s'.
Proof. intros Hpos. apply freevm_ok; lia. Qed.
Lemma freevm_spec_witness :
  exists s l pgdir s' fl, freevm some_end pgdir s = ([], Ret tt s')
    /\ pgdir ∈ fl /\ alloc_inv some_end s' (fl ++ l) /\ length l = 3%nat.
Proof.
  destruct (booted 3 ltac:(done)) as (s & l & pgdir & Hs & Hl).
  destruct (freevm_spec some_end s l pgdir ∅ ∅ 0) as (s' & fl & E & Ha & Hfl & _); [done|done|done| |].
  { intros i Hi. rewrite lookup_empty. split; [by intros []|lia]. }
  exists s, l, pgdir, s', fl. split; [done|]. split; [apply Hfl; left; by left|done].
Defined.

(** ** Copying *)

(** C9: [copyuvm], the memory half of [fork], returns 0 or a new page directory
    whose address space has, page by page, the parent's bytes and permissions in
    pages of its own: no page is shared between the two.  It succeeds when there are
    65 free pages for the kernel's part and two for each page of the parent, itself and
    a table.  Either way the parent keeps its address space, and no page that was in
    use before changes. *)
Theorem copyuvm_spec kend kdata s l pgdir T U sz K :
  KERNBASE < kend -> kdata `mod` PGSIZE = 0 -> KERNLINK < kdata < KERNBASE + PHYSTOP ->
  space kend s l pgdir T U -> upto U 0 K -> 0 <= sz <= KERNBASE -> Z.of_nat (npages sz) <= K ->
  exists r s' l', copyuvm kend kdata pgdir sz s = ([], Ret r s')
    /\ space kend s' l' pgdir T U /\ kept kend (fun q => q ∉ l) s s'
    /\ ((65 + 2 * npages sz <= length l)%nat -> r <> 0)
    /\ (r <> 0 -> exists Td Ud, space kend s' l' r Td Ud
          /\ (forall q, owns pgdir T U q -> ~ owns r Td Ud q)
          /\ copied s' U Ud (Z.of_nat (npages sz))
          /\ forall va, 0 <= va < PGSIZE * Z.of_nat (npages sz) -> ubyte s' Ud va = ubyte s' U va).
Proof.
  intros Hpos Hkd [H1 H2] Hs Hto Hsz HK. assert (KERNBASE <= kend) as Hend by lia.
  destruct (copyuvm_ok kend Hend Hpos kdata Hkd H1 H2 s l pgdir T U sz K Hs Hto Hsz HK)
    as (r & s' & l' & E & Hs' & Hk & Hres & Hen).
  exists r, s', l'. split; [done|]. split; [done|]. split; [done|]. split; [done|]. intros Hr.
  destruct (Hres Hr) as (Td & Ud & Hc & Hap & Hcp). exists Td, Ud. split; [done|]. split; [done|]. split; [done|].
  intros va Hva. apply (copied_bytes s' U Ud (Z.of_nat (npages sz)) K); auto.
Qed.

(** A process of 20000 bytes. *)
Lemma grown : exists s l pgdir s1 l1 T1 U1, space some_end s l pgdir ∅ ∅
  /\ allocuvm some_end pgdir 0 20000 s = ([], Ret 20000 s1)
  /\ space some_end s1 l1 pgdir T1 U1 /\ upto U1 0 5 /\ (75 <= length l1)%nat.
Proof.
  destruct (booted 100 ltac:(done)) as (s & l & pgdir & Hs & Hl).
  destruct (allocuvm_loop_ok some_end ltac:(done) pgdir 0 20000 5 ltac:(done) s l ∅ ∅ 0 (Z.to_nat (2 ^ 20)) Hs)
    as (s1 & l1 & T1 & U1 & E & Hs1 & _ & Hlen & _ & _ & Hg1 & Hg2); [done|done|intros; apply lookup_empty|lia|lia|].
  exists s, l, pgdir, s1, l1, T1, U1. split; [done|]. split; [exact E|]. split; [done|]. split; [|lia].
  intros i Hi. destruct (decide (i < 5)) as [Hlt|Hge].
  - split; [done|intros _]. destruct (Hg2 i) as (p & -> & _); [lia|by eexists].
  - rewrite Hg1, lookup_empty by lia. split; [by intros []|lia].
Qed.

Lemma copyuvm_spec_witness :
  exists s s1 s2 pgdir r U Ud, allocuvm some_end pgdir 0 20000 s = ([], Ret 20000 s1)
    /\ copyuvm some_end some_data pgdir 20000 s1 = ([], Ret r s2) /\ r <> 0
    /\ forall va, 0 <= va < 20480 -> ubyte s2 Ud va = ubyte s2 U va.
Proof.
  destruct grown as (s & l & pgdir & s1 & l1 & T1 & U1 & _ & E & Hs & Hto & Hl).
  destruct (copyuvm_spec some_end some_data s1 l1 pgdir T1 U1 20000 5) as (r & s2 & l2 & E2 & _ & _ & Hr & Hres);
    [done|done|done|done|done|done|done|].
  specialize (Hr Hl). destruct (Hres Hr) as (Td & Ud & _ & _ & _ & Hb). by exists s, s1, s2, pgdir, r, U1, Ud.
Defined.

(** ** Where the code departs from its intent *)

(** [uva2ka] reads through the null pointer [walkpgdir] returns for an address
    that has no page table. *)
Theorem uva2ka_null kend s l pgdir T uva :
  KERNBASE <= kend -> vm_inv kend s l pgdir T -> 0 <= uva < 2 ^ 32 -> T !! dirx (vpn uva) = None ->
  uva2ka pgdir uva s = ([], Fault).
Proof.
  intros Hend Hi Hva Ht. unfold uva2ka. by run_with (walk_miss kend Hend s l pgdir T uva Hi Hva Ht).
Qed.

(** With one free page left, [allocuvm] of a page reports success although its
    [mappages] failed: the page is taken from the free list and mapped nowhere. *)
Theorem allocuvm_unmapped kend s pgdir p :
  KERNBASE <= kend -> space kend s [p] pgdir ∅ ∅ ->
  exists s', allocuvm kend pgdir 0 PGSIZE s = ([], Ret PGSIZE s') /\ space kend s' [] pgdir ∅ ∅.
Proof.
  intros Hend Hs. destruct (take_zeroed kend Hend s [] pgdir ∅ ∅ p 0 Hs) as (s1 & Hk & Hfr & Hp0 & Hs1 & _).
  destruct (map_user kend Hend _ [] pgdir ∅ ∅ 0 p USER Hs1 Hfr) as (s2 & l2 & T2 & r & E & Hst & Hr); [done|done|done|].
  assert (s2 = on_ram (memset p 0 PGSIZE) s1 /\ r = -1) as [-> ->].
  { destruct Hr as [(-> & Hs2 & _)|(-> & _ & -> & _)]; [|done].
    destruct (slot_table _ _ _ _ _ _ _ _ _ Hs2 (lookup_insert_eq _ _ _)) as (t & Ht & _).
    destruct (vs_new _ _ _ _ _ _ _ _ Hst _ _ Ht) as [?%lookup_empty_Some|?%not_elem_of_nil]; done. }
  exists (on_ram (memset p 0 PGSIZE) s1). split; [|done].
  unfold allocuvm. assert (exists k, Z.to_nat (2 ^ 20) = S k) as [k ->] by (exists (Z.to_nat (2 ^ 20 - 1)); lia).
  change (PGSIZE >=? KERNBASE) with false. change (PGSIZE <? 0) with false. change (PGROUNDUP 0) with (PGSIZE * 0).
  cbn match.
  cbn [allocuvm_loop]. change (PGSIZE * 0 <? PGSIZE) with true. cbn match. run_with Hk.
  apply Z.eqb_neq in Hp0. rewrite Hp0. erewrite bind_nil by reflexivity. unfold USER in E. run_with E.
  change (u32 (PGSIZE * 0 + PGSIZE)) with PGSIZE.
  destruct k; cbn [allocuvm_loop]; change (PGSIZE <? PGSIZE) with false; done.
Qed.
