(* ===== verification/Proc.v ===== *)
(** * Processes: proc.c

    The process table and the operations on it.  A [struct proc *] is an index
    into the table.  The trap frame and the saved context of a process are in its
    kernel stack, so they are memory, as in the code.  The file system is behind
    the interface [FileOps]: processes only pass handles to it. *)

From stdpp Require Import base numbers list gmap strings.
From S2P Require Import Prelude Bytes Mem Str Segments Kalloc Vm.

Open Scope Z_scope.

(** ** param.h, mmu.h, proc.h, x86.h *)

Definition NPROC : nat := 64.
Definition KSTACKSIZE : Z := 4096.
Definition NOFILE : nat := 16.

(** [sizeof(struct trapframe)], [sizeof(struct context)] and field offsets. *)
Definition TF_SIZE : Z := 76.
Definition TF_EAX : Z := 28.
Definition TF_ES : Z := 40.
Definition TF_DS : Z := 44.
Definition TF_TRAPNO : Z := 48.
Definition TF_ERR : Z := 52.
Definition TF_EIP : Z := 56.
Definition TF_CS : Z := 60.
Definition TF_EFLAGS : Z := 64.
Definition TF_ESP : Z := 68.
Definition TF_SS : Z := 72.
Definition CONTEXT_SIZE : Z := 20.
Definition CONTEXT_EIP : Z := 16.

Inductive procstate := UNUSED | EMBRYO | SLEEPING | RUNNABLE | RUNNING | ZOMBIE.

#[global] Instance procstate_eq_dec : EqDecision procstate.
Proof. solve_decision. Defined.

Record proc := mk_proc {
  sz : Z;
  pgdir : Z;
  kstack : Z;
  state : procstate;
  pid : Z;
  parent : option nat;
  tf : Z;
  context : Z;
  pchan : option chan;
  killed : bool;
  ofile : list (option nat);
  cwd : option nat;
  name : list Z;
  swapFile : option nat
}.

(** [ptable] of zeroes. *)
Definition proc0 : proc :=
  mk_proc 0 0 0 UNUSED 0 None 0 0 None false (replicate NOFILE None) None (replicate 16 0) None.

Definition set_sz (x : Z) (p : proc) : proc :=
  mk_proc x (pgdir p) (kstack p) (state p) (pid p) (parent p) (tf p) (context p) (pchan p) (killed p) (ofile p) (cwd p) (name p) (swapFile p).
Definition set_pgdir (x : Z) (p : proc) : proc :=
  mk_proc (sz p) x (kstack p) (state p) (pid p) (parent p) (tf p) (context p) (pchan p) (killed p) (ofile p) (cwd p) (name p) (swapFile p).
Definition set_kstack (x : Z) (p : proc) : proc :=
  mk_proc (sz p) (pgdir p) x (state p) (pid p) (parent p) (tf p) (context p) (pchan p) (killed p) (ofile p) (cwd p) (name p) (swapFile p).
Definition set_state (x : procstate) (p : proc) : proc :=
  mk_proc (sz p) (pgdir p) (kstack p) x (pid p) (parent p) (tf p) (context p) (pchan p) (killed p) (ofile p) (cwd p) (name p) (swapFile p).
Definition set_pid (x : Z) (p : proc) : proc :=
  mk_proc (sz p) (pgdir p) (kstack p) (state p) x (parent p) (tf p) (context p) (pchan p) (killed p) (ofile p) (cwd p) (name p) (swapFile p).
Definition set_parent (x : option nat) (p : proc) : proc :=
  mk_proc (sz p) (pgdir p) (kstack p) (state p) (pid p) x (tf p) (context p) (pchan p) (killed p) (ofile p) (cwd p) (name p) (swapFile p).
Definition set_stack (x y : Z) (p : proc) : proc :=
  mk_proc (sz p) (pgdir p) (kstack p) (state p) (pid p) (parent p) x y (pchan p) (killed p) (ofile p) (cwd p) (name p) (swapFile p).
Definition set_pchan (x : option chan) (p : proc) : proc :=
  mk_proc (sz p) (pgdir p) (kstack p) (state p) (pid p) (parent p) (tf p) (context p) x (killed p) (ofile p) (cwd p) (name p) (swapFile p).
Definition set_killed (x : bool) (p : proc) : proc :=
  mk_proc (sz p) (pgdir p) (kstack p) (state p) (pid p) (parent p) (tf p) (context p) (pchan p) x (ofile p) (cwd p) (name p) (swapFile p).
Definition set_ofile (x : list (option nat)) (p : proc) : proc :=
  mk_proc (sz p) (pgdir p) (kstack p) (state p) (pid p) (parent p) (tf p) (context p) (pchan p) (killed p) x (cwd p) (name p) (swapFile p).
Definition set_cwd (x : option nat) (p : proc) : proc :=
  mk_proc (sz p) (pgdir p) (kstack p) (state p) (pid p) (parent p) (tf p) (context p) (pchan p) (killed p) (ofile p) x (name p) (swapFile p).
Definition set_name (x : list Z) (p : proc) : proc :=
  mk_proc (sz p) (pgdir p) (kstack p) (state p) (pid p) (parent p) (tf p) (context p) (pchan p) (killed p) (ofile p) (cwd p) x (swapFile p).
Definition set_swapFile (x : option nat) (p : proc) : proc :=
  mk_proc (sz p) (pgdir p) (kstack p) (state p) (pid p) (parent p) (tf p) (context p) (pchan p) (killed p) (ofile p) (cwd p) (name p) x.

(** [safestrcpy(p->name, s, sizeof(p->name))]. *)
Fixpoint until_nul (n : nat) (s : list Z) : list Z :=
  match n, s with
  | S k, c :: s' => if c =? 0 then [] else c :: until_nul k s'
  | _, _ => []
  end.
Definition copy_name (s : list Z) (p : proc) : proc :=
  let c := until_nul 15 s in
  set_name (c ++ 0 :: drop (S (length c)) (name p)) p.

(** The string initcode. *)
Definition initcode : list Z := [105; 110; 105; 116; 99; 111; 100; 101; 0].

(** [ptable], [initproc] and [nextpid]. *)
Record ptable := mk_ptable {
  pt_lock : bool;
  procs : list proc;
  initproc : option nat;
  nextpid : Z
}.

Definition ptable0 : ptable := mk_ptable false (replicate NPROC proc0) None 1.

Definition on_procs (f : list proc -> list proc) (t : ptable) : ptable :=
  mk_ptable (pt_lock t) (f (procs t)) (initproc t) (nextpid t).
Definition set_nextpid (x : Z) (t : ptable) : ptable :=
  mk_ptable (pt_lock t) (procs t) (initproc t) x.
Definition set_initproc (x : option nat) (t : ptable) : ptable :=
  mk_ptable (pt_lock t) (procs t) x (nextpid t).

Definition ptlock : lens ptable bool :=
  Lens pt_lock (fun b t => mk_ptable b (procs t) (initproc t) (nextpid t)).

(** [p->field] and [p->field = x]. *)
Definition getp {A} (f : proc -> A) (i : nat) : M ptable A :=
  let* t := get in let* p := deref (procs t !! i) in ret (f p).
Definition updp (i : nat) (f : proc -> proc) : M ptable unit :=
  let* t := get in let* _ := deref (procs t !! i) in modify (on_procs (alter f i)).

(** ** Operations on the table alone *)

(** The search of [allocproc], with what it does to the slot it finds. *)
Fixpoint find_unused (l : list proc) (i : nat) : option nat :=
  match l with
  | [] => None
  | p :: l' => if decide (state p = UNUSED) then Some i else find_unused l' (S i)
  end.

Definition take_slot : M ptable (option nat) :=
  acquire ptlock ;;
  let* t := get in
  match find_unused (procs t) 0 with
  | None => release ptlock ;; ret None
  | Some i =>
      updp i (set_state EMBRYO) ;;
      updp i (set_pid (nextpid t)) ;;
      modify (set_nextpid (s32 (nextpid t + 1))) ;;
      release ptlock ;;
      ret (Some i)
  end.

(** A channel is an address, [None] when null. *)
Definition wake_one (c : option chan) (p : proc) : proc :=
  if decide (state p = SLEEPING /\ pchan p = c) then set_state RUNNABLE p else p.

Definition wakeup1 (c : option chan) : M ptable unit := modify (on_procs (map (wake_one c))).

Definition wakeup (c : chan) : M ptable unit :=
  acquire ptlock ;;
  wakeup1 (Some c) ;;
  release ptlock.

Definition kill_one (p : proc) : proc :=
  let p := set_killed true p in
  if decide (state p = SLEEPING) then set_state RUNNABLE p else p.

Definition find_pid (pid0 : Z) (l : list proc) : option nat :=
  fst <$> list_find (fun p => pid p = pid0) l.

Definition kill (pid0 : Z) : M ptable Z :=
  acquire ptlock ;;
  let* t := get in
  match find_pid pid0 (procs t) with
  | Some i => updp i kill_one ;; release ptlock ;; ret 0
  | None => release ptlock ;; ret (-1)
  end.

(** [sched]: the checks before the switch; [ncli] and the interrupt flag are
    this CPU's. *)
Definition sched (me : nat) (ncli : Z) (intr : bool) : M ptable unit :=
  let* t := get in
  if negb (pt_lock t) then panic "sched ptable.lock"
  else if negb (ncli =? 1) then panic "sched locks"
  else
    let* st := getp state me in
    if decide (st = RUNNING) then panic "sched running"
    else if intr then panic "sched interruptible"
    else ret tt.

(** [yield], up to the switch. *)
Definition yield (me : nat) : M ptable unit :=
  acquire ptlock ;;
  updp me (set_state RUNNABLE) ;;
  sched me 1 false.

(** [sleep], with [ptable.lock] held, up to the switch. *)
Definition sleep_on (me : nat) (c : chan) : M ptable unit :=
  updp me (set_pchan (Some c)) ;;
  updp me (set_state SLEEPING) ;;
  sched me 1 false.

(** The body of the loop of [scheduler], up to the switch to [i]. *)
Definition schedule (i : nat) : M ptable bool :=
  let* st := getp state i in
  if decide (st = RUNNABLE) then updp i (set_state RUNNING) ;; ret true
  else ret false.

(** The loop of [exit] over the table. *)
Definition pass_child (me init i : nat) : M ptable unit :=
  let* par := getp parent i in
  when (bool_decide (par = Some me))
    (updp i (set_parent (Some init)) ;;
     let* st := getp state i in
     when (bool_decide (st = ZOMBIE)) (wakeup1 (Some (ChProc init)))).

(** The critical section of [exit], up to the switch. *)
Definition exit_locked (me : nat) : M ptable unit :=
  acquire ptlock ;;
  let* par := getp parent me in
  wakeup1 (ChProc <$> par) ;;
  let* t := get in
  let* init := deref (initproc t) in
  for_all (seq 0 NPROC) (pass_child me init) ;;
  updp me (set_state ZOMBIE) ;;
  sched me 1 false.

(** The scan of [wait]: the first zombie child, and whether there are children. *)
Definition zombie_child (me : nat) (l : list proc) : option nat :=
  fst <$> list_find (fun p => parent p = Some me /\ state p = ZOMBIE) l.
Definition havekids (me : nat) (l : list proc) : bool :=
  existsb (fun p => bool_decide (parent p = Some me)) l.

(** What [wait] does to the slot of a zombie. *)
Definition reap (p : proc) : proc :=
  set_killed false (set_name (<[0%nat := 0]> (name p)) (set_parent None (set_pid 0 (set_state UNUSED p)))).

(** ** The kernel around the table *)

(** The files' state holds the physical memory too, as pipes live in pages. *)
Class HasMem (F : Type) := {
  f_mem : lens F pmem;
  f_get_set : forall m s, lget f_mem (lset f_mem m s) = m;
  f_set_set : forall m m' s, lset f_mem m (lset f_mem m' s) = lset f_mem m s;
  f_set_get : forall s, lset f_mem (lget f_mem s) s = s
}.

(** What processes use of the file system; handles are indices of the file
    table and of the inode cache. *)
Class FileOps (F : Type) := {
  filedup : nat -> M F nat;
  fileclose : nat -> M F unit;
  idup : nat -> M F nat;
  iput : nat -> M F unit;
  begin_op : M F unit;
  end_op : M F unit;
  namei_root : M F nat;             (* namei of the path / *)
  iinit : Z -> M F unit;
  initlog : Z -> M F unit
}.

(** Processes, memory and files; [kcr3] is the page table in use, [kfirst] the
    flag of [forkret], [kticks] and [ktlock] are [ticks] and [tickslock]. *)
Record kern (F : Type) := mk_kern {
  kpt : ptable;
  kfiles : F;
  kcr3 : Z;
  kfirst : bool;
  kticks : Z;
  ktlock : bool
}.
Arguments mk_kern {F}.
Arguments kpt {F}.
Arguments kfiles {F}.
Arguments kcr3 {F}.
Arguments kfirst {F}.
Arguments kticks {F}.
Arguments ktlock {F}.

Section Kern.

Context {F : Type} `{HasMem F} `{FileOps F}.

Definition kpm (k : kern F) : pmem := lget f_mem (kfiles k).

Definition PT : lens (kern F) ptable :=
  Lens kpt (fun x k => mk_kern x (kfiles k) (kcr3 k) (kfirst k) (kticks k) (ktlock k)).
Definition FS : lens (kern F) F :=
  Lens kfiles (fun x k => mk_kern (kpt k) x (kcr3 k) (kfirst k) (kticks k) (ktlock k)).
Definition PM : lens (kern F) pmem :=
  Lens kpm (fun x k => mk_kern (kpt k) (lset f_mem x (kfiles k)) (kcr3 k) (kfirst k) (kticks k) (ktlock k)).

Definition upd_p (i : nat) (f : proc -> proc) : M (kern F) unit := zoom PT (updp i f).
Definition get_p {A} (f : proc -> A) (i : nat) : M (kern F) A := zoom PT (getp f i).
Definition store (a v : Z) : M (kern F) unit := zoom PM (modify (on_ram (fun m => store32 m a v))).
Definition load (a : Z) : M (kern F) Z := zoom PM (gets (fun s => load32 (ram s) a)).

(** [p->field = x] for a [ushort] field of a trap frame. *)
Definition store16 (a v : Z) : M (kern F) unit :=
  zoom PM (modify (on_ram (fun m => upd (upd m a (u8 v)) (a + 1) (u8 (Z.shiftr v 8))))).

(** [end], [data], and the addresses of [forkret] and [trapret]. *)
Variables (kend kdata forkret_addr trapret_addr : Z).

Definition allocproc : M (kern F) (option nat) :=
  let* o := zoom PT take_slot in
  match o with
  | None => ret None
  | Some p =>
      let* ks := zoom PM kalloc in
      upd_p p (set_kstack ks) ;;
      if ks =? 0 then
        upd_p p (set_state UNUSED) ;;
        ret None
      else
        let sp := u32 (ks + KSTACKSIZE) in
        let sp := u32 (sp - TF_SIZE) in
        let tf := sp in
        let sp := u32 (sp - 4) in
        store sp trapret_addr ;;
        let sp := u32 (sp - CONTEXT_SIZE) in
        upd_p p (set_stack tf sp) ;;
        zoom PM (modify (on_ram (memset sp 0 CONTEXT_SIZE))) ;;
        store (u32 (sp + CONTEXT_EIP)) forkret_addr ;;
        ret (Some p)
  end.

(** The part of [switchuvm] that does not set up the task state segment. *)
Definition switchuvm (p : nat) : M (kern F) unit :=
  let* d := get_p pgdir p in
  if d =? 0 then panic "switchuvm: no pgdir"
  else modify (fun k => mk_kern (kpt k) (kfiles k) (v2p d) (kfirst k) (kticks k) (ktlock k)).

(** [init] and [size] stand for [_binary_initcode_start] and its size. *)
Definition userinit (init size : Z) : M (kern F) unit :=
  let* o := allocproc in
  zoom PT (modify (set_initproc o)) ;;
  let* p := deref o in
  let* d := zoom PM (setupkvm kdata) in
  upd_p p (set_pgdir d) ;;
  if d =? 0 then panic "userinit: out of memory?"
  else
    zoom PM (inituvm d init size) ;;
    upd_p p (set_sz PGSIZE) ;;
    let* tf := get_p tf p in
    zoom PM (modify (on_ram (memset tf 0 TF_SIZE))) ;;
    store16 (tf + TF_CS) (Z.lor (Z.shiftl SEG_UCODE 3) DPL_USER) ;;
    store16 (tf + TF_DS) (Z.lor (Z.shiftl SEG_UDATA 3) DPL_USER) ;;
    store16 (tf + TF_ES) (Z.lor (Z.shiftl SEG_UDATA 3) DPL_USER) ;;
    store16 (tf + TF_SS) (Z.lor (Z.shiftl SEG_UDATA 3) DPL_USER) ;;
    store (tf + TF_EFLAGS) 0x200 ;;
    store (tf + TF_ESP) PGSIZE ;;
    store (tf + TF_EIP) 0 ;;
    upd_p p (copy_name initcode) ;;
    let* root := zoom FS namei_root in
    upd_p p (set_cwd (Some root)) ;;
    upd_p p (set_state RUNNABLE).

Definition growproc (me : nat) (n : Z) : M (kern F) Z :=
  let* sz0 := get_p sz me in
  let* d := get_p pgdir me in
  let* sz1 :=
    if n >? 0 then zoom PM (allocuvm kend d sz0 (u32 (sz0 + n)))
    else if n <? 0 then zoom PM (deallocuvm kend d sz0 (u32 (sz0 + n)))
    else ret sz0 in
  if negb (n =? 0) && (sz1 =? 0) then ret (-1)
  else
    upd_p me (set_sz sz1) ;;
    switchuvm me ;;
    ret 0.

(** [for(i = 0; i < NOFILE; i++) if(proc->ofile[i]) np->ofile[i] = filedup(proc->ofile[i]);] *)
Definition dup_file (me np i : nat) : M (kern F) unit :=
  let* fs := get_p ofile me in
  match fs !! i with
  | Some (Some f) =>
      let* f' := zoom FS (filedup f) in
      upd_p np (fun p => set_ofile (<[i := Some f']> (ofile p)) p)
  | _ => ret tt
  end.

Definition fork (me : nat) : M (kern F) Z :=
  let* o := allocproc in
  match o with
  | None => ret (-1)
  | Some np =>
      let* d := get_p pgdir me in
      let* size := get_p sz me in
      let* d' := zoom PM (copyuvm kend kdata d size) in
      upd_p np (set_pgdir d') ;;
      if d' =? 0 then
        let* ks := get_p kstack np in
        zoom PM (kfree kend ks) ;;
        upd_p np (set_kstack 0) ;;
        upd_p np (set_state UNUSED) ;;
        ret (-1)
      else
        upd_p np (set_sz size) ;;
        upd_p np (set_parent (Some me)) ;;
        let* tf1 := get_p tf np in
        let* tf0 := get_p tf me in
        zoom PM (modify (on_ram (memmove tf1 tf0 TF_SIZE))) ;;
        store (tf1 + TF_EAX) 0 ;;
        for_all (seq 0 NOFILE) (dup_file me np) ;;
        let* c := get_p cwd me in
        let* c := deref c in
        let* c' := zoom FS (idup c) in
        upd_p np (set_cwd (Some c')) ;;
        let* nm := get_p name me in
        upd_p np (copy_name nm) ;;
        let* pid := get_p pid np in
        zoom PT (acquire ptlock) ;;
        upd_p np (set_state RUNNABLE) ;;
        zoom PT (release ptlock) ;;
        ret pid
  end.

Definition close_file (me fd : nat) : M (kern F) unit :=
  let* fs := get_p ofile me in
  match fs !! fd with
  | Some (Some f) =>
      zoom FS (fileclose f) ;;
      upd_p me (fun p => set_ofile (<[fd := None]> (ofile p)) p)
  | _ => ret tt
  end.

(** [exit], up to the switch to the scheduler. *)
Definition exit (me : nat) : M (kern F) unit :=
  let* t := zoom PT get in
  if decide (initproc t = Some me) then panic "init exiting"
  else
    for_all (seq 0 NOFILE) (close_file me) ;;
    let* c := get_p cwd me in
    zoom FS begin_op ;;
    let* c := deref c in
    zoom FS (iput c) ;;
    zoom FS end_op ;;
    upd_p me (set_cwd None) ;;
    zoom PT (exit_locked me).

(** One turn of the loop of [wait]; it starts over when the process wakes up. *)
Definition wait (me : nat) : M (kern F) Z :=
  zoom PT (acquire ptlock) ;;
  let* t := zoom PT get in
  match zombie_child me (procs t) with
  | Some i =>
      let* pid := get_p pid i in
      let* ks := get_p kstack i in
      zoom PM (kfree kend ks) ;;
      upd_p i (set_kstack 0) ;;
      let* d := get_p pgdir i in
      zoom PM (freevm kend d) ;;
      upd_p i reap ;;
      zoom PT (release ptlock) ;;
      ret pid
  | None =>
      let* k := get_p killed me in
      if negb (havekids me (procs t)) || k then
        zoom PT (release ptlock) ;;
        ret (-1)
      else
        zoom PT (sleep_on me (ChProc me)) ;;
        zoom PT (release ptlock) ;;
        block_on (ChProc me)
  end.

(** [sleep(chan, lk)], up to the switch; [None] is [&ptable.lock]. *)
Definition sleep (me : nat) (c : chan) (lk : option (lens (kern F) bool)) : M (kern F) unit :=
  match lk with
  | Some L => zoom PT (acquire ptlock) ;; release L
  | None => ret tt
  end ;;
  zoom PT (sleep_on me c).

(** The end of [sleep], when the process runs again. *)
Definition sleep_return (me : nat) (lk : option (lens (kern F) bool)) : M (kern F) unit :=
  upd_p me (set_pchan None) ;;
  match lk with
  | Some L => zoom PT (release ptlock) ;; acquire L
  | None => ret tt
  end.

Definition forkret (rootdev : Z) : M (kern F) unit :=
  zoom PT (release ptlock) ;;
  let* k := get in
  when (kfirst k)
    (modify (fun k => mk_kern (kpt k) (kfiles k) (kcr3 k) false (kticks k) (ktlock k)) ;;
     zoom FS (iinit rootdev) ;;
     zoom FS (initlog rootdev)).

End Kern.
