(* ===== verification/ProcSys.v ===== *)
(** * Processes on several CPUs

    Any number of CPUs run processes, fork, exit, wait, sleep, wake up and kill
    in any order, each critical section of [ptable.lock] being one step.  The
    invariant says what the table then always looks like; from it follow that a
    process runs on one CPU at most, that process ids are unique, that every
    process has a live parent to wait for it, and that no exit is missed. *)

From stdpp Require Import base numbers list gmap strings.
From S2P Require Import Prelude Bytes Mem Str Kalloc Vm Proc.

Open Scope Z_scope.

(** ** The system *)

(** The table, what each CPU runs, for each process in [fork] the slot of its child
    and whether the child's parent is set, and how many process ids were given out
    since the start. *)
Record psys := mk_psys {
  tab : ptable;
  cur : nat -> option nat;
  forking : nat -> option (nat * bool);
  given : Z
}.

Definition fupd {A} (f : nat -> A) (i : nat) (x : A) : nat -> A := fun j => if decide (j = i) then x else f j.

(** [m] runs with [ptable.lock] held; what the lock holder leaves locked, the
    code that runs next on the CPU releases. *)
Definition critical (m : M ptable unit) : M ptable unit := acquire ptlock ;; m ;; release ptlock.

Definition frees (f : proc -> proc) : Prop :=
  forall p, state (f p) = state p /\ pid (f p) = pid p /\ parent (f p) = parent p
    /\ pchan (f p) = pchan p.

Inductive psys_step : psys -> psys -> Prop :=
  | ps_schedule s c i t' :
      cur s c = None ->
      (acquire ptlock ;; let* b := schedule i in release ptlock ;; ret b) (tab s) = ([], Ret true t') ->
      psys_step s (mk_psys t' (fupd (cur s) c (Some i)) (forking s) (given s))
  | ps_woken s c i t' :          (* proc->chan = 0 at the end of sleep *)
      cur s c = Some i ->
      updp i (set_pchan None) (tab s) = ([], Ret tt t') ->
      psys_step s (mk_psys t' (cur s) (forking s) (given s))
  | ps_yield s c i t' :          (* also in the middle of fork *)
      cur s c = Some i ->
      (yield i ;; release ptlock) (tab s) = ([], Ret tt t') ->
      psys_step s (mk_psys t' (fupd (cur s) c None) (forking s) (given s))
  | ps_sleep s c i ch t' :
      cur s c = Some i -> forking s i = None -> (forall j, ch <> ChProc j) ->
      critical (sleep_on i ch) (tab s) = ([], Ret tt t') ->
      psys_step s (mk_psys t' (fupd (cur s) c None) (forking s) (given s))
  | ps_wakeup s ch t' :          (* also from interrupt handlers *)
      wakeup ch (tab s) = ([], Ret tt t') ->
      psys_step s (mk_psys t' (cur s) (forking s) (given s))
  | ps_kill s c i pid0 r t' :
      cur s c = Some i -> kill pid0 (tab s) = ([], Ret r t') ->
      psys_step s (mk_psys t' (cur s) (forking s) (given s))
  | ps_allocproc s c i np t' :
      cur s c = Some i -> forking s i = None ->
      take_slot (tab s) = ([], Ret (Some np) t') ->
      psys_step s (mk_psys t' (cur s) (fupd (forking s) i (Some (np, false))) (given s + 1))
  | ps_fork_fails s c i np t' :
      cur s c = Some i -> forking s i = Some (np, false) ->
      updp np (set_state UNUSED) (tab s) = ([], Ret tt t') ->
      psys_step s (mk_psys t' (cur s) (fupd (forking s) i None) (given s))
  | ps_fork_parent s c i np t' :
      cur s c = Some i -> forking s i = Some (np, false) ->
      updp np (set_parent (Some i)) (tab s) = ([], Ret tt t') ->
      psys_step s (mk_psys t' (cur s) (fupd (forking s) i (Some (np, true))) (given s))
  | ps_fork_returns s c i np t' :
      cur s c = Some i -> forking s i = Some (np, true) ->
      critical (updp np (set_state RUNNABLE)) (tab s) = ([], Ret tt t') ->
      psys_step s (mk_psys t' (cur s) (fupd (forking s) i None) (given s))
  | ps_exit s c i t' :
      cur s c = Some i -> forking s i = None -> initproc (tab s) <> Some i ->
      (exit_locked i ;; release ptlock) (tab s) = ([], Ret tt t') ->
      psys_step s (mk_psys t' (fupd (cur s) c None) (forking s) (given s))
  | ps_wait_reaps s c i z t' :
      cur s c = Some i -> forking s i = None -> zombie_child i (procs (tab s)) = Some z ->
      critical (updp z reap) (tab s) = ([], Ret tt t') ->
      psys_step s (mk_psys t' (cur s) (forking s) (given s))
  | ps_wait_sleeps s c i t' :
      cur s c = Some i -> forking s i = None -> zombie_child i (procs (tab s)) = None ->
      critical (sleep_on i (ChProc i)) (tab s) = ([], Ret tt t') ->
      psys_step s (mk_psys t' (fupd (cur s) c None) (forking s) (given s))
  | ps_local s c i f t' :        (* a process changes its other fields *)
      cur s c = Some i -> frees f ->
      updp i f (tab s) = ([], Ret tt t') ->
      psys_step s (mk_psys t' (cur s) (forking s) (given s)).

(** After [userinit]: the first process is ready to run. *)
Definition boot_proc : proc := set_state RUNNABLE (set_pid 1 proc0).
Definition boot : psys :=
  mk_psys (mk_ptable false (<[0%nat := boot_proc]> (replicate NPROC proc0)) (Some 0%nat) 2)
          (fun _ => None) (fun _ => None) 1.

(** ** What the operations do to the table *)

Definition with_procs (t : ptable) (l : list proc) : ptable := mk_ptable false l (initproc t) (nextpid t).

Ltac run_table H :=
  unfold critical, yield, kill, wakeup, sleep_on, schedule, take_slot, sched, updp, getp, wakeup1, when,
    acquire, release, deref, modify, get, gets, ret, panic, fault, bind, on_procs in H; cbn in H.

Lemma alter_alter {A} (f g : A -> A) i (l : list A) : alter f i (alter g i l) = alter (fun x => f (g x)) i l.
Proof.
  apply list_eq. intros j. destruct (decide (i = j)) as [->|Hne].
  - rewrite !list_lookup_alter_eq. by destruct (l !! j).
  - by rewrite !list_lookup_alter_ne.
Qed.

Lemma updp_inv i f t t' :
  pt_lock t = false -> updp i f t = ([], Ret tt t') ->
  exists p, procs t !! i = Some p /\ t' = with_procs t (alter f i (procs t)).
Proof.
  destruct t as [lk l ip np]. cbn. intros -> Hu. run_table Hu.
  destruct (l !! i) as [p|] eqn:E; [|done]. injection Hu as <-. by exists p.
Qed.

Lemma critical_updp_inv i f t t' :
  pt_lock t = false -> critical (updp i f) t = ([], Ret tt t') ->
  exists p, procs t !! i = Some p /\ t' = with_procs t (alter f i (procs t)).
Proof.
  destruct t as [lk l ip np]. cbn. intros -> Hu. run_table Hu.
  destruct (l !! i) as [p|] eqn:E; [|done]. injection Hu as <-. by exists p.
Qed.

Lemma schedule_inv i t t' :
  pt_lock t = false ->
  (acquire ptlock ;; let* b := schedule i in release ptlock ;; ret b) t = ([], Ret true t') ->
  exists p, procs t !! i = Some p /\ state p = RUNNABLE
    /\ t' = with_procs t (alter (set_state RUNNING) i (procs t)).
Proof.
  destruct t as [lk l ip np]. cbn. intros -> Hu. run_table Hu.
  destruct (l !! i) as [p|] eqn:E; [|done]. cbn in Hu. destruct (decide (state p = RUNNABLE)); [|done].
  cbn in Hu. rewrite E in Hu. injection Hu as <-. by exists p.
Qed.

Lemma yield_inv i t t' :
  pt_lock t = false -> (yield i ;; release ptlock) t = ([], Ret tt t') ->
  exists p, procs t !! i = Some p /\ t' = with_procs t (alter (set_state RUNNABLE) i (procs t)).
Proof.
  destruct t as [lk l ip np]. cbn. intros -> Hu. run_table Hu.
  destruct (l !! i) as [p|] eqn:E; [|done]. cbn in Hu. rewrite list_lookup_alter_eq, E in Hu.
  cbn in Hu. injection Hu as <-. by exists p.
Qed.

Lemma sleep_inv i ch t t' :
  pt_lock t = false -> critical (sleep_on i ch) t = ([], Ret tt t') ->
  exists p, procs t !! i = Some p
    /\ t' = with_procs t (alter (fun p => set_state SLEEPING (set_pchan (Some ch) p)) i (procs t)).
Proof.
  destruct t as [lk l ip np]. cbn. intros -> Hu. run_table Hu.
  destruct (l !! i) as [p|] eqn:E; [|done]. cbn in Hu. rewrite list_lookup_alter_eq, E in Hu.
  cbn in Hu. rewrite list_lookup_alter_eq, list_lookup_alter_eq, E in Hu. cbn in Hu. injection Hu as <-.
  exists p. split; [done|]. unfold with_procs. cbn. f_equal. apply alter_alter.
Qed.

Lemma wakeup_inv ch t t' :
  pt_lock t = false -> wakeup ch t = ([], Ret tt t') -> t' = with_procs t (map (wake_one (Some ch)) (procs t)).
Proof. destruct t as [lk l ip np]. cbn. intros -> Hu. run_table Hu. by injection Hu as <-. Qed.

Lemma kill_inv pid0 r t t' :
  pt_lock t = false -> kill pid0 t = ([], Ret r t') ->
  t' = t \/ exists i p, procs t !! i = Some p /\ pid p = pid0 /\ t' = with_procs t (alter kill_one i (procs t)).
Proof.
  destruct t as [lk l ip np]. cbn. intros -> Hu. run_table Hu.
  unfold find_pid in Hu. destruct (list_find _ l) as [[i p]|] eqn:E; cbn in Hu.
  - apply list_find_Some in E as (E & Hp & _). rewrite E in Hu. cbn in Hu. injection Hu as _ <-.
    right. by exists i, p.
  - injection Hu as _ <-. by left.
Qed.

Lemma find_unused_Some l k i :
  find_unused l k = Some i -> exists j p, i = (k + j)%nat /\ l !! j = Some p /\ state p = UNUSED.
Proof.
  revert k. induction l as [|p l IH]; intros k; cbn; [done|].
  destruct (decide (state p = UNUSED)).
  - intros [= <-]. exists 0%nat, p. split; [lia|done].
  - intros (j & q & -> & Hj & Hq)%IH. exists (S j), q. split; [lia|done].
Qed.

(** The search only looks at states. *)
Lemma find_unused_mark l k i j f :
  (forall p, state p = UNUSED <-> state (f p) = UNUSED) ->
  find_unused l k = Some i -> find_unused (alter f j l) k = Some i.
Proof.
  intros Hf. revert k j. induction l as [|p l IH]; intros k j; cbn; [done|].
  destruct j as [|j]; cbn; pose proof (Hf p); repeat case_decide; try tauto; auto.
Qed.

Lemma take_slot_inv np t t' :
  pt_lock t = false -> take_slot t = ([], Ret (Some np) t') ->
  exists p, procs t !! np = Some p /\ state p = UNUSED
    /\ t' = mk_ptable false (alter (fun p => set_pid (nextpid t) (set_state EMBRYO p)) np (procs t))
                      (initproc t) (s32 (nextpid t + 1)).
Proof.
  destruct t as [lk l ip nx]. cbn. intros -> Hu. run_table Hu.
  destruct (find_unused l 0) as [i|] eqn:E; cbn in Hu; [|done].
  apply find_unused_Some in E as (j & p & -> & E & Hp). cbn in Hu. rewrite E in Hu. cbn in Hu.
  rewrite list_lookup_alter_eq, E in Hu. cbn in Hu. injection Hu as <- <-.
  exists p. split; [done|]. split; [done|]. f_equal. apply alter_alter.
Qed.

(** [p'] is [p], possibly woken up. *)
Definition woken (p p' : proc) : Prop := p' = p \/ state p = SLEEPING /\ p' = set_state RUNNABLE p.

Lemma wake_one_woken c p : woken p (wake_one c p).
Proof. unfold wake_one, woken. destruct (decide _) as [[? _]|]; auto. Qed.

Lemma woken_trans p q r : woken p q -> woken q r -> woken p r.
Proof. unfold woken. intros [->|[Hp ->]] [->|[Hq ->]]; auto. Qed.

Definition asleep_on (c : option chan) (p : proc) : Prop := state p = SLEEPING /\ pchan p = c.

Lemma wake_one_awake c p : ~ asleep_on c (wake_one c p).
Proof. unfold wake_one, asleep_on. destruct (decide _) as [|Hn]; [by intros [? _]|done]. Qed.

Lemma woken_asleep c p p' : woken p p' -> asleep_on c p' -> asleep_on c p.
Proof. unfold woken, asleep_on. intros [->|[? ->]]; [done|by intros [? _]]. Qed.

Definition adopted (me init : nat) (p : proc) : proc :=
  if decide (parent p = Some me) then set_parent (Some init) p else p.

Lemma woken_adopted me init p q r : woken p q -> woken (adopted me init q) r -> woken (adopted me init p) r.
Proof.
  intros [->|[Hp ->]]; [done|]. unfold adopted. cbn. intros W.
  destruct (decide (parent p = Some me)); eapply woken_trans;
    [right; split; [exact Hp|reflexivity]|exact W|right; split; [exact Hp|reflexivity]|exact W].
Qed.

Lemma pass_child_inv me init i t t' :
  pass_child me init i t = ([], Ret tt t') ->
  exists q l', procs t !! i = Some q
    /\ t' = mk_ptable (pt_lock t) l' (initproc t) (nextpid t)
    /\ (forall k p, procs t !! k = Some p -> exists p', l' !! k = Some p'
          /\ woken (if decide (k = i) then adopted me init p else p) p')
    /\ length l' = length (procs t)
    /\ (parent q = Some me -> state q = ZOMBIE -> forall j r, l' !! j = Some r -> ~ asleep_on (Some (ChProc init)) r).
Proof.
  destruct t as [lk l ip nx]. cbn. unfold pass_child. intros Hu. run_table Hu.
  destruct (l !! i) as [q|] eqn:E; cbn in Hu; [|done]. exists q. unfold adopted.
  assert (forall p k, l !! k = Some p -> exists p', alter (set_parent (Some init)) i l !! k = Some p'
    /\ (parent q = Some me -> p' = if decide (k = i) then adopted me init p else p)) as Halt.
  { intros p k Hk. destruct (decide (k = i)) as [->|Hne].
    - rewrite list_lookup_alter_eq, Hk. cbn. eexists. split; [done|]. assert (p = q) as -> by congruence.
      intros Hq. unfold adopted. by destruct (decide (parent q = Some me)).
    - rewrite list_lookup_alter_ne, Hk by done. by eexists. }
  case_bool_decide as Hpar; cbn in Hu; [|injection Hu as <-].
  - rewrite E in Hu. cbn in Hu. rewrite list_lookup_alter_eq, E in Hu. cbn in Hu.
    case_bool_decide as Hz; cbn in Hu; injection Hu as <-; (eexists; split; [done|]; split; [done|]); split.
    + intros k p Hk. destruct (Halt p k Hk) as (p' & E' & Hp'). rewrite Hp' in E' by done.
      eexists. split; [rewrite list_lookup_fmap, E'; reflexivity|]. unfold adopted. apply wake_one_woken.
    + split; [by rewrite length_map, length_alter|]. intros _ _ j r Hr.
      rewrite list_lookup_fmap in Hr. destruct (_ !! j) as [x|]; [|done]. injection Hr as <-. apply wake_one_awake.
    + intros k p Hk. destruct (Halt p k Hk) as (p' & E' & Hp'). rewrite Hp' in E' by done.
      eexists. split; [exact E'|]. by left.
    + split; [by rewrite length_alter|]. intros _ ?. done.
  - exists l. split; [done|]. split; [done|]. split; [|done].
    intros k p Hk. exists p. split; [done|]. left. destruct (decide (k = i)) as [->|]; [|done].
    destruct (decide (parent p = Some me)); [congruence|done].
Qed.

Lemma pass_children_inv me init : me <> init -> forall ks t t', NoDup ks ->
  for_all ks (pass_child me init) t = ([], Ret tt t') ->
  exists l', t' = mk_ptable (pt_lock t) l' (initproc t) (nextpid t)
    /\ (forall k p, procs t !! k = Some p -> exists p', l' !! k = Some p'
          /\ woken (if decide (k ∈ ks) then adopted me init p else p) p')
    /\ length l' = length (procs t)
    /\ ((exists k p, k ∈ ks /\ procs t !! k = Some p /\ parent p = Some me /\ state p = ZOMBIE) ->
        forall j r, l' !! j = Some r -> ~ asleep_on (Some (ChProc init)) r).
Proof.
  intros Hne. induction ks as [|i ks IH]; intros t t' Hnd Hf.
  - injection Hf as <-. exists (procs t). split; [by destruct t|]. split; [|split; [done|]].
    + intros k p Hk. exists p. split; [done|]. by left.
    + by intros (k & p & ?%not_elem_of_nil & _).
  - apply NoDup_cons in Hnd as [Hni Hnd]. cbn [for_all] in Hf.
    apply bind_inv in Hf as (e1 & [] & t1 & e2 & H1 & H2 & E). symmetry in E. apply app_nil in E as [-> ->].
    destruct (pass_child_inv _ _ _ _ _ H1) as (q & l1 & Hq & -> & Hl1 & Hlen1 & Hz1).
    destruct (IH _ _ Hnd H2) as (l2 & -> & Hl2 & Hlen2 & Hz2). cbn [procs pt_lock initproc nextpid] in *.
    exists l2. split; [done|]. split; [|split; [congruence|]].
    + intros k p Hk. destruct (Hl1 k p Hk) as (p1 & E1 & W1). destruct (Hl2 k p1 E1) as (p2 & E2 & W2).
      exists p2. split; [done|]. destruct (decide (k = i)) as [->|Hki].
      * rewrite decide_True by by left. rewrite decide_False in W2 by done. by eapply woken_trans.
      * destruct (decide (k ∈ ks)); [rewrite decide_True by by right|rewrite decide_False by (intros [?|?]%elem_of_cons; done)].
        -- by eapply woken_adopted.
        -- by eapply woken_trans.
    + intros (k & p & [->|Hk]%elem_of_cons & Hkp & Hpar & Hst) j r Hr Ha.
      * assert (p = q) as -> by congruence.
        destruct (l1 !! j) as [r1|] eqn:Ej.
        -- destruct (Hl2 j r1 Ej) as (r2 & E2 & W2). rewrite Hr in E2. injection E2 as <-.
           apply (Hz1 Hpar Hst j r1 Ej). unfold adopted in W2.
           destruct W2 as [W2|[W2a W2b]]; [|rewrite W2b in Ha; destruct Ha; done].
           rewrite W2 in Ha. destruct (decide (j ∈ ks)), (decide (parent r1 = Some me)); done.
        -- apply lookup_ge_None in Ej. apply lookup_lt_Some in Hr. lia.
      * destruct (Hl1 k p Hkp) as (p1 & E1 & W1). rewrite decide_False in W1 by (intros ->; done).
        destruct W1 as [->|[W1 _]]; [|congruence]. refine (Hz2 _ j r Hr Ha). by exists k, p.
Qed.

(** What [exit] leaves: the process is a zombie, its children belong to init,
    its parent and, if a child was a zombie, init are awake. *)
Lemma exit_inv me t t' :
  pt_lock t = false -> initproc t <> Some me -> length (procs t) = NPROC ->
  (exit_locked me ;; release ptlock) t = ([], Ret tt t') ->
  exists init pme l', initproc t = Some init /\ procs t !! me = Some pme /\ t' = with_procs t l'
    /\ length l' = length (procs t)
    /\ (forall k p, procs t !! k = Some p -> exists p', woken (adopted me init p) p'
          /\ ~ asleep_on (ChProc <$> parent pme) p'
          /\ l' !! k = Some (if decide (k = me) then set_state ZOMBIE p' else p'))
    /\ ((exists k p, procs t !! k = Some p /\ parent p = Some me /\ state p = ZOMBIE) ->
        forall j r, l' !! j = Some r -> ~ asleep_on (Some (ChProc init)) r).
Proof.
  destruct t as [lk l ip nx]. cbn [pt_lock initproc procs]. intros -> Hinit Hlen Hu.
  apply bind_inv in Hu as (e1 & [] & t1 & e2 & He & Hrel & E). symmetry in E. apply app_nil in E as [-> ->].
  unfold exit_locked in He. erewrite bind_nil in He by reflexivity.
  destruct (l !! me) as [pme|] eqn:Eme;
    [|unfold getp, bind, get, deref in He; cbn [lset ptlock procs] in He; rewrite Eme in He; done].
  assert (forall A (f : proc -> A) t, procs t !! me = Some pme -> getp f me t = ([], Ret (f pme) t)) as Hget.
  { intros A f t Ht. unfold getp, bind, get, deref. by rewrite Ht. }
  erewrite bind_nil in He by (by apply Hget). erewrite bind_nil in He by reflexivity.
  erewrite bind_nil in He by reflexivity. cbn [initproc on_procs lset ptlock] in He.
  destruct ip as [init|]; [|done]. erewrite bind_nil in He by reflexivity.
  apply bind_inv in He as (e1 & [] & t2 & e2 & Hf & He & E). symmetry in E. apply app_nil in E as [-> ->].
  apply pass_children_inv in Hf as (l2 & -> & Hl2 & Hlen2 & Hz2); [|congruence|apply NoDup_seq].
  cbn [procs on_procs pt_lock initproc nextpid] in *. rewrite length_map in Hlen2.
  assert (forall k p, l !! k = Some p -> exists p', woken (adopted me init p) p'
    /\ ~ asleep_on (ChProc <$> parent pme) p' /\ l2 !! k = Some p') as Hall.
  { intros k p Hk. destruct (Hl2 k (wake_one (ChProc <$> parent pme) p)) as (p' & E & W).
    { by rewrite list_lookup_fmap, Hk. }
    rewrite decide_True in W by (apply elem_of_seq; apply lookup_lt_Some in Hk; lia).
    exists p'. split; [|split; [|done]].
    - apply (woken_adopted _ _ _ _ _ (wake_one_woken _ _) W).
    - intros Ha%(woken_asleep _ _ _ W). apply (wake_one_awake (ChProc <$> parent pme) p).
      unfold adopted in Ha. by destruct (decide _). }
  destruct (Hall me pme Eme) as (pme' & _ & _ & Eme').
  exists init, pme, (alter (set_state ZOMBIE) me l2).
  assert (t1 = mk_ptable true (alter (set_state ZOMBIE) me l2) (Some init) nx) as ->.
  { run_table He. rewrite Eme' in He. cbn in He. rewrite list_lookup_alter_eq, Eme' in He. cbn in He. by injection He as <-. }
  run_table Hrel. injection Hrel as <-. split; [done|]. split; [done|]. split; [done|].
  split; [by rewrite length_alter|]. split.
  - intros k p Hk. destruct (Hall k p Hk) as (p' & W & Ha & E). exists p'. split; [done|]. split; [done|].
    destruct (decide (k = me)) as [->|Hne]; [by rewrite list_lookup_alter_eq, E|by rewrite list_lookup_alter_ne].
  - intros (k & p & Hk & Hpar & Hst) j r Hr Ha. destruct (decide (j = me)) as [->|Hne].
    + rewrite list_lookup_alter_eq, Eme' in Hr. injection Hr as <-. by destruct Ha.
    + rewrite list_lookup_alter_ne in Hr by done. refine (Hz2 _ j r Hr Ha).
      exists k, p. split; [apply elem_of_seq; apply lookup_lt_Some in Hk; lia|]. split; [|done].
      rewrite list_lookup_fmap, Hk. cbn. unfold wake_one. rewrite decide_False; [done|]. intros [? _]. congruence.
Qed.
