(* ===== verification/ProcInv.v ===== *)
(** * The invariant of the process table

    Four groups of facts hold in every state the system of [ProcSys] reaches:
    which process runs where, process ids, parents and children, and what a
    process that sleeps in [wait] may rely on. *)

From stdpp Require Import base numbers list gmap strings.
From S2P Require Import Prelude Bytes Mem Str Kalloc Vm Proc ProcSys.

Open Scope Z_scope.

Definition alive (p : proc) : Prop := state p = SLEEPING \/ state p = RUNNABLE \/ state p = RUNNING.

Section Groups.

Variables (l : list proc).

(** A running process runs on one CPU. *)
Record cpus_ok (cur : nat -> option nat) : Prop := {
  co_cur : forall c i, cur c = Some i -> exists p, l !! i = Some p /\ state p = RUNNING;
  co_inj : forall c c' i, cur c = Some i -> cur c' = Some i -> c = c';
  co_running : forall i p, l !! i = Some p -> state p = RUNNING -> exists c, cur c = Some i
}.

(** Process ids are positive and unique. *)
Record pids_ok (next : Z) : Prop := {
  po_next : 0 < next < 2 ^ 31;
  po_range : forall i p, l !! i = Some p -> state p <> UNUSED -> 0 < pid p < next;
  po_inj : forall i j p q, l !! i = Some p -> l !! j = Some q ->
    state p <> UNUSED -> state q <> UNUSED -> pid p = pid q -> i = j
}.

(** Init is alive, so is every parent, and only init has none. *)
Record family_ok (init : option nat) (forking : nat -> option (nat * bool)) : Prop := {
  fo_init : exists i p, init = Some i /\ l !! i = Some p /\ alive p /\ parent p = None;
  fo_irrefl : forall i p, l !! i = Some p -> parent p <> Some i;
  fo_unused : forall i p, l !! i = Some p -> state p = UNUSED -> parent p = None;
  fo_parent : forall i p q, l !! i = Some p -> parent p = Some q -> exists pq, l !! q = Some pq /\ alive pq;
  fo_has : forall i p, l !! i = Some p -> state p <> UNUSED -> state p <> EMBRYO -> init <> Some i -> is_Some (parent p);
  fo_fork : forall i np b, forking i = Some (np, b) ->
    exists p pn, l !! i = Some p /\ alive p /\ l !! np = Some pn /\ state pn = EMBRYO
      /\ parent pn = if b then Some i else None;
  fo_fork_inj : forall i j np b b', forking i = Some (np, b) -> forking j = Some (np, b') -> i = j;
  fo_embryo : forall i p, l !! i = Some p -> state p = EMBRYO -> exists j b, forking j = Some (i, b)
}.

(** Who sleeps on a process sleeps in [wait], and has no zombie child. *)
Record waits_ok : Prop := {
  wo_chan : forall i p, l !! i = Some p -> state p = SLEEPING -> is_Some (pchan p);
  wo_wait : forall i p j, l !! i = Some p -> asleep_on (Some (ChProc j)) p ->
    j = i /\ forall k z, l !! k = Some z -> parent z = Some i -> state z <> ZOMBIE
}.

End Groups.

(** ** Changes to the table, process by process *)

Definition evolves (R : nat -> proc -> proc -> Prop) (l l' : list proc) : Prop :=
  length l' = length l /\ forall k p, l !! k = Some p -> exists p', l' !! k = Some p' /\ R k p p'.

Lemma evolves_inv R l l' k p' : evolves R l l' -> l' !! k = Some p' -> exists p, l !! k = Some p /\ R k p p'.
Proof.
  intros [Hlen H] Hk. destruct (l !! k) as [p|] eqn:E.
  - destruct (H k p E) as (q & Hq & HR). exists p. split; [done|]. congruence.
  - apply lookup_ge_None in E. apply lookup_lt_Some in Hk. lia.
Qed.

Lemma evolves_weaken (R R' : nat -> proc -> proc -> Prop) l l' :
  evolves R l l' -> (forall k p p', l !! k = Some p -> R k p p' -> R' k p p') -> evolves R' l l'.
Proof.
  intros [Hlen H] HR. split; [done|]. intros k p Hk. destruct (H k p Hk) as (p' & ? & ?). exists p'. auto.
Qed.

Definition only (i : nat) (f : proc -> proc) (k : nat) (p p' : proc) : Prop := p' = if decide (k = i) then f p else p.

Lemma evolves_alter i f l : evolves (only i f) l (alter f i l).
Proof.
  split; [apply length_alter|]. intros k p Hk. exists (if decide (k = i) then f p else p). split; [|done].
  destruct (decide (k = i)) as [->|]; [by rewrite list_lookup_alter_eq, Hk|by rewrite list_lookup_alter_ne].
Qed.

Lemma evolves_map f l : evolves (fun _ p p' => p' = f p) l (map f l).
Proof.
  split; [apply length_map|]. intros k p Hk. exists (f p). split; [|done]. by rewrite list_lookup_fmap, Hk.
Qed.

(** ** CPUs *)

Lemma cpus_same l l' cur :
  cpus_ok l cur -> evolves (fun _ p p' => state p' = RUNNING <-> state p = RUNNING) l l' -> cpus_ok l' cur.
Proof.
  intros [H1 H2 H3] Hev. constructor; auto.
  - intros c i Hc. destruct (H1 c i Hc) as (p & Hp & Hs). destruct Hev as [_ Hev].
    destruct (Hev i p Hp) as (p' & ? & HR). exists p'. split; [done|]. by apply HR.
  - intros i p' Hp' Hs. destruct (evolves_inv _ _ _ _ _ Hev Hp') as (p & Hp & HR). apply (H3 i p Hp), HR, Hs.
Qed.

Lemma cpus_stop l l' cur c i :
  cpus_ok l cur -> cur c = Some i ->
  evolves (fun k p p' => if decide (k = i) then state p' <> RUNNING else state p' = RUNNING <-> state p = RUNNING) l l' ->
  cpus_ok l' (fupd cur c None).
Proof.
  intros [H1 H2 H3] Hc Hev. unfold fupd. constructor.
  - intros c' j Hj. destruct (decide (c' = c)); [done|]. destruct (H1 c' j Hj) as (p & Hp & Hs).
    destruct Hev as [_ Hev]. destruct (Hev j p Hp) as (p' & ? & HR). exists p'. split; [done|].
    rewrite decide_False in HR; [by apply HR|]. intros ->. eauto.
  - intros c1 c2 j Hj1 Hj2. destruct (decide (c1 = c)), (decide (c2 = c)); try done. eauto.
  - intros j p' Hp' Hs. destruct (evolves_inv _ _ _ _ _ Hev Hp') as (p & Hp & HR).
    destruct (decide (j = i)); [done|]. destruct (H3 j p Hp) as [c' Hc']; [by apply HR|].
    exists c'. rewrite decide_False; [done|]. intros ->. congruence.
Qed.

Lemma cpus_start l l' cur c i p0 :
  cpus_ok l cur -> cur c = None -> l !! i = Some p0 -> state p0 <> RUNNING ->
  evolves (only i (set_state RUNNING)) l l' -> cpus_ok l' (fupd cur c (Some i)).
Proof.
  intros [H1 H2 H3] Hc Hi Hnr Hev. unfold fupd.
  assert (forall c', cur c' <> Some i) as Hni.
  { intros c' Hc'. destruct (H1 c' i Hc') as (p & Hp & Hs). congruence. }
  constructor.
  - intros c' j Hj. destruct (decide (c' = c)) as [->|].
    + injection Hj as <-. destruct Hev as [_ Hev]. destruct (Hev i p0 Hi) as (p' & ? & HR).
      exists p'. split; [done|]. unfold only in HR. rewrite decide_True in HR by done. by subst.
    + destruct (H1 c' j Hj) as (p & Hp & Hs). destruct Hev as [_ Hev]. destruct (Hev j p Hp) as (p' & ? & HR).
      exists p'. split; [done|]. unfold only in HR. rewrite decide_False in HR by (intros ->; by apply (Hni c')). by subst.
  - intros c1 c2 j Hj1 Hj2. destruct (decide (c1 = c)), (decide (c2 = c)); subst; try done; simplify_eq; eauto;
      exfalso; by eapply Hni.
  - intros j p' Hp' Hs. destruct (evolves_inv _ _ _ _ _ Hev Hp') as (p & Hp & HR). unfold only in HR.
    destruct (decide (j = i)) as [->|]; [exists c; by rewrite decide_True|]. subst.
    destruct (H3 j p Hp Hs) as [c' Hc']. exists c'. rewrite decide_False; [done|]. intros ->. congruence.
Qed.

(** ** Process ids *)

Lemma pids_keep l l' next :
  pids_ok l next -> evolves (fun _ p p' => state p' <> UNUSED -> state p <> UNUSED /\ pid p' = pid p) l l' -> pids_ok l' next.
Proof.
  intros [H1 H2 H3] Hev. constructor; [done| |].
  - intros i p' Hp' Hs. destruct (evolves_inv _ _ _ _ _ Hev Hp') as (p & Hp & HR). destruct (HR Hs) as [? ->]. eauto.
  - intros i j p' q' Hp' Hq' Hs Hs' E. destruct (evolves_inv _ _ _ _ _ Hev Hp') as (p & Hp & HR).
    destruct (evolves_inv _ _ _ _ _ Hev Hq') as (q & Hq & HR'). destruct (HR Hs) as [? E1]. destruct (HR' Hs') as [? E2].
    apply (H3 i j p q); auto. congruence.
Qed.

Lemma pids_new (l : list proc) i f next :
  pids_ok l next -> next + 1 < 2 ^ 31 -> (forall p, pid (f p) = next) -> pids_ok (alter f i l) (next + 1).
Proof.
  intros [H1 H2 H3] Hn Hf. pose proof (evolves_alter i f l) as Hev.
  assert (forall k p', alter f i l !! k = Some p' -> state p' <> UNUSED ->
    k = i /\ pid p' = next \/ k <> i /\ l !! k = Some p' /\ 0 < pid p' < next) as Hcase.
  { intros k p' Hp' Hs. destruct (evolves_inv _ _ _ _ _ Hev Hp') as (p & Hp & HR). unfold only in HR.
    destruct (decide (k = i)); subst; [by left|right]. split; [done|]. split; [done|]. eauto. }
  constructor; [lia| |].
  - intros k p' Hp' Hs. destruct (Hcase k p' Hp' Hs) as [[_ ->]|(_ & _ & ?)]; lia.
  - intros k j p' q' Hp' Hq' Hs Hs' E.
    destruct (Hcase k p' Hp' Hs) as [[-> E1]|(? & ? & ?)], (Hcase j q' Hq' Hs') as [[-> E2]|(? & ? & ?)]; try done; try lia.
    eauto.
Qed.

(** The counter has not wrapped around yet. *)
Definition few (n : Z) : Prop := n + 1 < 2 ^ 31.

(** Until it does, the ids are in order. *)
Definition pids_inv (l : list proc) (n next : Z) : Prop := few n -> next = n + 1 /\ pids_ok l next.

Lemma pids_inv_keep l l' n next :
  pids_inv l n next -> evolves (fun _ p p' => state p' <> UNUSED -> state p <> UNUSED /\ pid p' = pid p) l l' ->
  pids_inv l' n next.
Proof. intros Hp Hev Hn. destruct (Hp Hn) as [? Hok]. split; [done|]. by apply (pids_keep _ _ _ Hok). Qed.

Lemma pids_inv_new (l : list proc) i f n next :
  pids_inv l n next -> (forall p, pid (f p) = next) -> pids_inv (alter f i l) (n + 1) (s32 (next + 1)).
Proof.
  unfold pids_inv, few. intros Hp Hf Hn. destruct (Hp ltac:(lia)) as [-> Hok]. pose proof (po_next _ _ Hok).
  rewrite s32_small by lia. split; [done|]. by apply pids_new.
Qed.

(** ** Families *)

Lemma family_keep l l' init fk :
  family_ok l init fk ->
  evolves (fun _ p p' => (alive p -> alive p') /\ (state p' = UNUSED <-> state p = UNUSED)
             /\ (state p' = EMBRYO <-> state p = EMBRYO) /\ parent p' = parent p) l l' ->
  family_ok l' init fk.
Proof.
  intros [H1 H0 H2 H3 H4 H5 H6 H7] Hev.
  assert (forall i p, l !! i = Some p -> alive p -> exists p', l' !! i = Some p' /\ alive p') as Hal.
  { intros i p Hp Ha. destruct Hev as [_ Hev]. destruct (Hev i p Hp) as (p' & ? & HR & _). eauto. }
  constructor.
  - destruct H1 as (i & p & -> & Hp & Ha & Hno). destruct Hev as [_ Hev].
    destruct (Hev i p Hp) as (p' & ? & HR & _ & _ & E). exists i, p'. rewrite E. auto.
  - intros i p' Hp'. destruct (evolves_inv _ _ _ _ _ Hev Hp') as (p & Hp & _ & _ & _ & ->). eauto.
  - intros i p' Hp' Hs. destruct (evolves_inv _ _ _ _ _ Hev Hp') as (p & Hp & _ & HU & _ & ->). by apply (H2 i p Hp), HU.
  - intros i p' q Hp' Hq. destruct (evolves_inv _ _ _ _ _ Hev Hp') as (p & Hp & _ & _ & _ & E). rewrite E in Hq.
    destruct (H3 i p q Hp Hq) as (pq & ? & ?). eauto.
  - intros i p' Hp' Hs Hs'. destruct (evolves_inv _ _ _ _ _ Hev Hp') as (p & Hp & _ & HU & HE & ->).
    apply (H4 i p Hp); [by rewrite <- HU|by rewrite <- HE].
  - intros i np b Hb. destruct (H5 i np b Hb) as (p & pn & Hp & Ha & Hpn & Hs & Hpar).
    destruct (Hal i p Hp Ha) as (p' & ? & ?). destruct Hev as [_ Hev]. destruct (Hev np pn Hpn) as (pn' & ? & _ & _ & HE & E).
    exists p', pn'. split_and!; try done; [by apply HE|congruence].
  - eauto.
  - intros i p' Hp' Hs. destruct (evolves_inv _ _ _ _ _ Hev Hp') as (p & Hp & _ & _ & HE & _). by apply (H7 i p Hp), HE.
Qed.

Lemma alter_inv (f : proc -> proc) i (l : list proc) k q :
  alter f i l !! k = Some q -> k = i /\ (exists p, l !! i = Some p /\ q = f p) \/ k <> i /\ l !! k = Some q.
Proof.
  intros Hk. destruct (evolves_inv _ _ _ _ _ (evolves_alter i f l) Hk) as (p & Hp & ->).
  destruct (decide (k = i)) as [->|]; [left; eauto|by right].
Qed.

(** Alter the slot of [np]: processes that were alive stay. *)
Lemma alive_alter (f : proc -> proc) np pn (l : list proc) i p :
  l !! np = Some pn -> ~ alive pn -> l !! i = Some p -> alive p -> alter f np l !! i = Some p.
Proof.
  intros Hn Hna Hp Ha. rewrite list_lookup_alter_ne; [done|]. intros ->. congruence.
Qed.

Ltac alter_case Hp :=
  apply alter_inv in Hp as [(-> & ? & ? & ->)|[? Hp]].

Lemma family_alloc (l : list proc) init fk i np pn p f :
  family_ok l init fk -> l !! i = Some p -> alive p -> fk i = None ->
  l !! np = Some pn -> state pn = UNUSED -> (forall q, state (f q) = EMBRYO /\ parent (f q) = parent q) ->
  family_ok (alter f np l) init (fupd fk i (Some (np, false))).
Proof.
  intros [H1 H0 H2 H3 H4 H5 H6 H7] Hi Ha Hfk Hnp Hun Hf.
  assert (~ alive pn) as Hna by (unfold alive; rewrite Hun; intuition discriminate).
  assert (forall j b, fk j <> Some (np, b)) as Hfree.
  { intros j b Hj. destruct (H5 j np b Hj) as (_ & q & _ & _ & Hq & Hs & _). congruence. }
  constructor.
  - destruct H1 as (j & q & -> & Hq & Hqa & Hqp). exists j, q. split; [done|]. split; [|done]. by apply (alive_alter _ np pn).
  - intros k q Hq. alter_case Hq; [|eauto]. rewrite (proj2 (Hf x)). eauto.
  - intros k q Hq Hs. alter_case Hq; [|eauto]. destruct (Hf x) as [E _]. congruence.
  - intros k q r Hq Hr. assert (exists q0, l !! k = Some q0 /\ parent q0 = Some r) as (q0 & Hq0 & Hr0).
    { alter_case Hq; [|eauto]. exists x. split; [done|]. by rewrite <- (proj2 (Hf x)). }
    destruct (H3 k q0 r Hq0 Hr0) as (pq & Hpq & Hpa). exists pq. split; [|done]. by apply (alive_alter _ np pn).
  - intros k q Hq Hs Hs' Hk. alter_case Hq; [|eauto]. by destruct (Hf x).
  - unfold fupd. intros j n b Hj. destruct (decide (j = i)) as [->|].
    + injection Hj as <- <-. exists p, (f pn). split; [by apply (alive_alter _ np pn)|]. split; [done|].
      rewrite list_lookup_alter_eq, Hnp. split; [done|]. destruct (Hf pn) as [-> ->]. split; [done|eauto].
    + destruct (H5 j n b Hj) as (q & qn & Hq & Hqa & Hqn & Hs & Hpar). exists q, qn.
      split; [by apply (alive_alter _ np pn)|]. split; [done|]. split; [|done]. rewrite list_lookup_alter_ne; [done|].
      intros ->. by apply (Hfree j b).
  - unfold fupd. intros j k n b b' Hj Hk. destruct (decide (j = i)), (decide (k = i)); subst; try done; simplify_eq;
      [by destruct (Hfree k b')|by destruct (Hfree j b)|eauto].
  - unfold fupd. intros k q Hq Hs. alter_case Hq; [exists i, false; by rewrite decide_True|].
    destruct (H7 k q Hq Hs) as (j & b & Hj). exists j, b. rewrite decide_False; [done|]. intros ->. congruence.
Qed.

(** The end of [fork] of [i]: its child leaves the embryonic state. *)
Lemma family_done (l : list proc) init fk i np b f :
  family_ok l init fk -> fk i = Some (np, b) ->
  (forall q, parent (f q) = parent q) ->
  (forall q, if b then alive (f q) else state (f q) = UNUSED) ->
  family_ok (alter f np l) init (fupd fk i None).
Proof.
  intros [H1 H0 H2 H3 H4 H5 H6 H7] Hfk Hfp Hf.
  destruct (H5 i np b Hfk) as (p & pn & Hi & Ha & Hnp & Hem & Hpar).
  assert (~ alive pn) as Hna by (unfold alive; rewrite Hem; intuition discriminate).
  assert (forall q, state (f q) <> EMBRYO) as Hne.
  { intros q. specialize (Hf q). destruct b; [unfold alive in Hf; intuition congruence|congruence]. }
  constructor.
  - destruct H1 as (j & q & -> & Hq & Hqa & Hqp). exists j, q. split; [done|]. split; [|done]. by apply (alive_alter _ np pn).
  - intros k q Hq. alter_case Hq; [|eauto]. rewrite Hfp. eauto.
  - intros k q Hq Hs. alter_case Hq; [|eauto]. simplify_eq. rewrite Hfp, Hpar. destruct b; [|done].
    specialize (Hf pn). unfold alive in Hf. intuition congruence.
  - intros k q r Hq Hr. assert (exists q0, l !! k = Some q0 /\ parent q0 = Some r) as (q0 & Hq0 & Hr0).
    { alter_case Hq; [|eauto]. eexists. split; [done|]. by rewrite Hfp in Hr. }
    destruct (H3 k q0 r Hq0 Hr0) as (pq & Hpq & Hpa). exists pq. split; [|done]. by apply (alive_alter _ np pn).
  - intros k q Hq Hs Hs' Hk. alter_case Hq; [|eauto]. simplify_eq. rewrite Hfp, Hpar.
    destruct b; [by eexists|]. by rewrite Hf in Hs.
  - unfold fupd. intros j n b' Hj. destruct (decide (j = i)) as [->|]; [done|].
    destruct (H5 j n b' Hj) as (q & qn & Hq & Hqa & Hqn & Hs & Hqp). exists q, qn.
    split; [by apply (alive_alter _ np pn)|]. split; [done|]. split; [|done]. rewrite list_lookup_alter_ne; [done|].
    intros ->. eauto.
  - unfold fupd. intros j k n b1 b2 Hj Hk. destruct (decide (j = i)), (decide (k = i)); try done. eauto.
  - unfold fupd. intros k q Hq Hs. alter_case Hq; [by destruct (Hne x)|].
    destruct (H7 k q Hq Hs) as (j & b' & Hj). exists j, b'. rewrite decide_False; [done|]. intros ->. congruence.
Qed.

Lemma family_parent (l : list proc) init fk i np :
  family_ok l init fk -> fk i = Some (np, false) ->
  family_ok (alter (set_parent (Some i)) np l) init (fupd fk i (Some (np, true))).
Proof.
  intros [H1 H0 H2 H3 H4 H5 H6 H7] Hfk.
  destruct (H5 i np false Hfk) as (p & pn & Hi & Ha & Hnp & Hem & Hpar).
  assert (~ alive pn) as Hna by (unfold alive; rewrite Hem; intuition discriminate).
  constructor.
  - destruct H1 as (j & q & -> & Hq & Hqa & Hqp). exists j, q. split; [done|]. split; [|done]. by apply (alive_alter _ np pn).
  - intros k q Hq. alter_case Hq; [|eauto]. cbn. intros [= ->]. congruence.
  - intros k q Hq Hs. alter_case Hq; [|eauto]. cbn in Hs. congruence.
  - intros k q r Hq Hr. alter_case Hq.
    + injection Hr as <-. exists p. split; [by apply (alive_alter _ np pn)|done].
    + destruct (H3 k q r Hq Hr) as (pq & Hpq & Hpa). exists pq. split; [by apply (alive_alter _ np pn)|done].
  - intros k q Hq Hs Hs' Hk. alter_case Hq; [by eexists|eauto].
  - unfold fupd. intros j n b' Hj. destruct (decide (j = i)) as [->|].
    + injection Hj as <- <-. exists p, (set_parent (Some i) pn). split; [by apply (alive_alter _ np pn)|]. split; [done|].
      rewrite list_lookup_alter_eq, Hnp. done.
    + destruct (H5 j n b' Hj) as (q & qn & Hq & Hqa & Hqn & Hs & Hqp). exists q, qn.
      split; [by apply (alive_alter _ np pn)|]. split; [done|]. split; [|done]. rewrite list_lookup_alter_ne; [done|].
      intros ->. eauto.
  - unfold fupd. intros j k n b1 b2 Hj Hk. destruct (decide (j = i)), (decide (k = i)); subst; try done; simplify_eq; eauto.
  - unfold fupd. intros k q Hq Hs. alter_case Hq; [exists i, true; by rewrite decide_True|].
    destruct (H7 k q Hq Hs) as (j & b' & Hj). destruct (decide (j = i)) as [->|Hji].
    + exists i, true. rewrite decide_True by done. congruence.
    + exists j, b'. by rewrite decide_False.
Qed.

Lemma adopted_woken me init p p' :
  woken (adopted me init p) p' ->
  (alive p -> alive p') /\ (state p' = UNUSED <-> state p = UNUSED) /\ (state p' = EMBRYO <-> state p = EMBRYO)
  /\ (state p' = ZOMBIE <-> state p = ZOMBIE) /\ (state p' = RUNNING <-> state p = RUNNING)
  /\ (state p' = SLEEPING -> state p = SLEEPING) /\ pid p' = pid p /\ pchan p' = pchan p
  /\ parent p' = if decide (parent p = Some me) then Some init else parent p.
Proof.
  unfold woken, adopted, alive. destruct (decide (parent p = Some me)); cbn;
    intros [->|[Hs ->]]; cbn; split_and!; auto; rewrite ?Hs; intuition discriminate.
Qed.

(** What [exit_inv] says of each process. *)
Definition exit_rel (me init : nat) (k : nat) (p p'' : proc) : Prop :=
  exists p', woken (adopted me init p) p' /\ p'' = if decide (k = me) then set_state ZOMBIE p' else p'.

Lemma family_exit l l' init fk me pme :
  family_ok l (Some init) fk -> l !! me = Some pme -> state pme = RUNNING -> init <> me -> fk me = None ->
  evolves (exit_rel me init) l l' -> family_ok l' (Some init) fk.
Proof.
  intros [H1 H0 H2 H3 H4 H5 H6 H7] Hme Hrun Hne Hfk Hev.
  assert (forall i p, i <> me -> l !! i = Some p -> alive p -> exists p', l' !! i = Some p' /\ alive p') as Hal.
  { intros i p Hi Hp Ha. destruct Hev as [_ Hev]. destruct (Hev i p Hp) as (p'' & Hp'' & p' & W & E).
    rewrite decide_False in E by done. subst. exists p'. split; [done|]. by apply (adopted_woken _ _ _ _ W). }
  assert (exists pi, l' !! init = Some pi /\ alive pi) as Hinit.
  { destruct H1 as (i & p & [= ->] & Hp & Ha & _). eauto. }
  assert (forall i p'', l' !! i = Some p'' -> exists p, l !! i = Some p
     /\ (if decide (i = me) then state p'' = ZOMBIE
         else (state p'' = UNUSED <-> state p = UNUSED) /\ (state p'' = EMBRYO <-> state p = EMBRYO))
     /\ parent p'' = if decide (parent p = Some me) then Some init else parent p) as Hinv.
  { intros i p'' Hp''. destruct (evolves_inv _ _ _ _ _ Hev Hp'') as (p & Hp & p' & W & ->). exists p. split; [done|].
    destruct (adopted_woken _ _ _ _ W) as (_ & ? & ? & _ & _ & _ & _ & _ & ?). by destruct (decide (i = me)). }
  constructor.
  - destruct Hinit as (p & Hp & ?). exists init, p. destruct (Hinv init p Hp) as (p0 & Hp0 & _ & ->).
    destruct H1 as (i & p1 & [= ->] & Hp1 & _ & Hno). assert (p1 = p0) as -> by congruence. by rewrite Hno.
  - intros i p'' Hp''. destruct (Hinv i p'' Hp'') as (p & Hp & _ & ->). destruct (decide (parent p = Some me)) as [E|]; [|eauto].
    intros [= ->]. destruct H1 as (j & p1 & [= ->] & Hp1 & _ & Hno). congruence.
  - intros i p'' Hp'' Hs. destruct (Hinv i p'' Hp'') as (p & Hp & Hst & ->). destruct (decide (i = me)); [congruence|].
    rewrite (H2 i p Hp) by (by apply Hst). done.
  - intros i p'' q Hp'' Hq. destruct (Hinv i p'' Hp'') as (p & Hp & _ & E). rewrite E in Hq.
    destruct (decide (parent p = Some me)); [by injection Hq as <-|]. destruct (H3 i p q Hp Hq) as (pq & Hpq & Ha).
    apply (Hal q pq); auto. congruence.
  - intros i p'' Hp'' Hs Hs' Hi. destruct (Hinv i p'' Hp'') as (p & Hp & Hst & ->).
    destruct (decide (parent p = Some me)); [by eexists|]. apply (H4 i p Hp); [..|done];
      (destruct (decide (i = me)) as [->|]; [congruence|]); [by rewrite <- (proj1 Hst)|by rewrite <- (proj2 Hst)].
  - intros i np b Hb. destruct (H5 i np b Hb) as (p & pn & Hp & Ha & Hpn & Hs & Hpar).
    assert (i <> me) as Him by congruence. assert (np <> me) as Hnm by (intros ->; congruence).
    destruct (Hal i p Him Hp Ha) as (p' & Hp' & Ha').
    destruct Hev as [_ Hev]. destruct (Hev np pn Hpn) as (pn'' & Hpn'' & pn' & W & E). rewrite decide_False in E by done. subst.
    destruct (adopted_woken _ _ _ _ W) as (_ & _ & HE & _ & _ & _ & _ & _ & HP).
    exists p', pn'. split_and!; try done; [by apply HE|]. rewrite HP, Hpar. destruct b; [|done].
    rewrite decide_False by congruence. done.
  - eauto.
  - intros i p'' Hp'' Hs. destruct (Hinv i p'' Hp'') as (p & Hp & Hst & _).
    destruct (decide (i = me)); [congruence|]. by apply (H7 i p Hp), Hst.
Qed.

Lemma family_reap (l : list proc) init fk z pz :
  family_ok l init fk -> l !! z = Some pz -> state pz = ZOMBIE -> family_ok (alter reap z l) init fk.
Proof.
  intros [H1 H0 H2 H3 H4 H5 H6 H7] Hz Hs.
  assert (~ alive pz) as Hna by (unfold alive; rewrite Hs; intuition discriminate).
  constructor; [| | | | | |done|].
  - destruct H1 as (j & q & -> & Hq & Hqa & Hqp). exists j, q. split; [done|]. split; [|done]. by apply (alive_alter _ z pz).
  - intros k q Hq. alter_case Hq; [done|eauto].
  - intros k q Hq Hu. alter_case Hq; [done|eauto].
  - intros k q r Hq Hr. alter_case Hq; [done|]. destruct (H3 k q r Hq Hr) as (pq & Hpq & Hpa). exists pq.
    split; [by apply (alive_alter _ z pz)|done].
  - intros k q Hq Hu He Hk. alter_case Hq; [done|eauto].
  - intros i np b Hb. destruct (H5 i np b Hb) as (p & pn & Hp & Ha & Hpn & Hst & Hpar). exists p, pn.
    split; [by apply (alive_alter _ z pz)|]. split; [done|]. rewrite list_lookup_alter_ne; [done|]. intros ->. congruence.
  - intros k q Hq Hst. alter_case Hq; [done|eauto].
Qed.

(** ** Waiting *)

Lemma waits_keep l l' :
  waits_ok l ->
  evolves (fun _ p p' => (state p' = SLEEPING -> state p = SLEEPING /\ pchan p' = pchan p)
             /\ (state p' = ZOMBIE -> state p = ZOMBIE /\ parent p' = parent p)) l l' -> waits_ok l'.
Proof.
  intros [H1 H2] Hev. constructor.
  - intros i p' Hp' Hs. destruct (evolves_inv _ _ _ _ _ Hev Hp') as (p & Hp & HR & _).
    destruct (HR Hs) as [? ->]. eauto.
  - intros i p' j Hp' [Hs Hc]. destruct (evolves_inv _ _ _ _ _ Hev Hp') as (p & Hp & HR & _).
    destruct (HR Hs) as [Hs0 E]. destruct (H2 i p j Hp) as [-> Hz]; [split; congruence|]. split; [done|].
    intros k z' Hz' Hpar Hzs. destruct (evolves_inv _ _ _ _ _ Hev Hz') as (z & Hzl & _ & HR').
    destruct (HR' Hzs) as [Hzs0 E0]. apply (Hz k z Hzl); [congruence|done].
Qed.

Lemma waits_sleep (l : list proc) i ch f :
  waits_ok l -> (forall p, state (f p) = SLEEPING /\ pchan (f p) = Some ch) ->
  (forall j, ch = ChProc j -> j = i /\ forall k z, l !! k = Some z -> parent z = Some i -> state z <> ZOMBIE) ->
  (forall p, parent (f p) = parent p) -> waits_ok (alter f i l).
Proof.
  intros [H1 H2] Hf Hch Hfp.
  assert (forall i0, (forall k z, l !! k = Some z -> parent z = Some i0 -> state z <> ZOMBIE) ->
    forall k z, alter f i l !! k = Some z -> parent z = Some i0 -> state z <> ZOMBIE) as Hz.
  { intros i0 Hz k z Hk Hp. alter_case Hk; [|eauto]. destruct (Hf x) as [-> _]. done. }
  constructor.
  - intros k p Hp Hs. alter_case Hp; [|eauto]. destruct (Hf x) as [_ ->]. by eexists.
  - intros k p j Hp [Hs Hc]. alter_case Hp.
    + destruct (Hf x) as [_ E]. rewrite E in Hc. injection Hc as ->. destruct (Hch j eq_refl) as [-> Hzz]. split; [done|]. by apply Hz.
    + destruct (H2 k p j Hp) as [-> Hzz]; [done|]. split; [done|]. by apply Hz.
Qed.

Lemma waits_exit l l' me init pme :
  waits_ok l -> l !! me = Some pme -> evolves (exit_rel me init) l l' ->
  (forall k p, l' !! k = Some p -> ~ asleep_on (ChProc <$> parent pme) p) ->
  ((exists k p, l !! k = Some p /\ parent p = Some me /\ state p = ZOMBIE) ->
   forall j r, l' !! j = Some r -> ~ asleep_on (Some (ChProc init)) r) ->
  init <> me -> parent pme <> Some me -> waits_ok l'.
Proof.
  intros [H1 H2] Hme Hev Hpar Hzom Hne Hself.
  assert (forall i p'', l' !! i = Some p'' -> state p'' = SLEEPING ->
    exists p, l !! i = Some p /\ state p = SLEEPING /\ pchan p'' = pchan p) as Hsl.
  { intros i p'' Hp'' Hs. destruct (evolves_inv _ _ _ _ _ Hev Hp'') as (p & Hp & p' & W & ->). exists p.
    destruct (decide (i = me)); [done|]. destruct (adopted_woken _ _ _ _ W) as (_ & _ & _ & _ & _ & ? & _ & ? & _). auto. }
  constructor.
  - intros i p'' Hp'' Hs. destruct (Hsl i p'' Hp'' Hs) as (p & Hp & Hs0 & ->). eauto.
  - intros i p'' j Hp'' [Hs Hc]. destruct (Hsl i p'' Hp'' Hs) as (p & Hp & Hs0 & E).
    destruct (H2 i p j Hp) as [-> Hz]; [split; congruence|]. split; [done|].
    intros k z'' Hz'' Hzp Hzs. destruct (evolves_inv _ _ _ _ _ Hev Hz'') as (z & Hzl & z' & W & E').
    destruct (adopted_woken _ _ _ _ W) as (_ & _ & _ & HZ & _ & _ & _ & _ & HP).
    destruct (decide (k = me)) as [->|Hk]; subst z''.
    + assert (z = pme) as -> by congruence. cbn in Hzp. rewrite HP, decide_False in Hzp by done.
      apply (Hpar i p'' Hp''). by rewrite Hzp.
    + rewrite HP in Hzp. apply HZ in Hzs. destruct (decide (parent z = Some me)) as [Ez|].
      * injection Hzp as <-. apply (Hzom ltac:(eauto) init p'' Hp''). done.
      * by apply (Hz k z Hzl).
Qed.

(** ** The invariant *)

Record proc_inv (s : psys) : Prop := {
  pi_len : length (procs (tab s)) = NPROC;
  pi_lock : pt_lock (tab s) = false;
  pi_cpus : cpus_ok (procs (tab s)) (cur s);
  pi_pids : pids_inv (procs (tab s)) (given s) (nextpid (tab s));
  pi_family : family_ok (procs (tab s)) (initproc (tab s)) (forking s);
  pi_waits : waits_ok (procs (tab s))
}.

Lemma evolves_at (R : proc -> proc -> Prop) (l : list proc) i f :
  (forall q, R q q) -> (forall p, l !! i = Some p -> R p (f p)) -> evolves (fun _ => R) l (alter f i l).
Proof.
  intros Hr Hf. apply (evolves_weaken _ _ _ _ (evolves_alter i f l)). intros k p p' Hk ->.
  destruct (decide (k = i)) as [->|]; auto.
Qed.

(** A change of one process that keeps its identity, its family and the facts
    about waiting. *)
Definition quiet (p p' : proc) : Prop :=
  pid p' = pid p /\ parent p' = parent p /\ (alive p -> alive p')
  /\ (state p' = UNUSED <-> state p = UNUSED) /\ (state p' = EMBRYO <-> state p = EMBRYO)
  /\ (state p' = SLEEPING -> state p = SLEEPING /\ pchan p' = pchan p) /\ (state p' = ZOMBIE -> state p = ZOMBIE).

Lemma quiet_refl p : quiet p p.
Proof. unfold quiet. tauto. Qed.

Lemma inv_quiet s l' cur' :
  proc_inv s -> evolves (fun _ => quiet) (procs (tab s)) l' -> cpus_ok l' cur' ->
  proc_inv (mk_psys (with_procs (tab s) l') cur' (forking s) (given s)).
Proof.
  intros [Hlen Hlk Hc Hp Hf Hw] Hev Hc'. constructor; cbn; auto.
  - destruct Hev as [-> _]. done.
  - apply (pids_inv_keep _ _ _ _ Hp), (evolves_weaken _ _ _ _ Hev). unfold quiet. intuition congruence.
  - apply (family_keep _ _ _ _ Hf), (evolves_weaken _ _ _ _ Hev). unfold quiet. intuition.
  - apply (waits_keep _ _ Hw), (evolves_weaken _ _ _ _ Hev). unfold quiet. intuition.
Qed.

Lemma cur_running s c i p : proc_inv s -> cur s c = Some i -> procs (tab s) !! i = Some p -> state p = RUNNING.
Proof. intros H Hc Hp. destruct (co_cur _ _ (pi_cpus _ H) c i Hc) as (q & Hq & ?). congruence. Qed.

Ltac quiet_tac := unfold quiet, alive, wake_one, kill_one; cbn;
  repeat case_decide; cbn; split_and!; intuition congruence.

Lemma running_same l (l' : list proc) cur :
  cpus_ok l cur -> evolves (fun _ => quiet) l l' ->
  (forall k p p', l !! k = Some p -> l' !! k = Some p' -> state p' = RUNNING <-> state p = RUNNING) -> cpus_ok l' cur.
Proof.
  intros Hc [Hlen Hev] HR. apply (cpus_same l); [done|]. split; [done|]. intros k p Hk.
  destruct (Hev k p Hk) as (p' & Hp' & _). eauto.
Qed.

(** The steps that only move a process between running, ready and asleep. *)
Lemma inv_schedule s c i t' :
  proc_inv s -> cur s c = None ->
  (acquire ptlock ;; let* b := schedule i in release ptlock ;; ret b) (tab s) = ([], Ret true t') ->
  proc_inv (mk_psys t' (fupd (cur s) c (Some i)) (forking s) (given s)).
Proof.
  intros Hi Hc Ht. apply schedule_inv in Ht as (p & Hp & Hs & ->); [|apply Hi].
  apply inv_quiet; [done| |].
  - apply evolves_at; [apply quiet_refl|]. intros q Hq. assert (q = p) as -> by congruence. quiet_tac.
  - apply (cpus_start _ _ _ _ _ p (pi_cpus _ Hi)); [done|done|congruence|apply evolves_alter].
Qed.

Lemma inv_running_alter s c i f t' :
  proc_inv s -> cur s c = Some i -> updp i f (tab s) = ([], Ret tt t') ->
  (forall p, state (f p) = state p /\ pid (f p) = pid p /\ parent (f p) = parent p) ->
  proc_inv (mk_psys t' (cur s) (forking s) (given s)).
Proof.
  intros Hi Hc Ht Hf. apply updp_inv in Ht as (p & Hp & ->); [|apply Hi].
  pose proof (cur_running s c i p Hi Hc Hp) as Hr.
  assert (evolves (fun _ => quiet) (procs (tab s)) (alter f i (procs (tab s)))) as Hev.
  { apply evolves_at; [apply quiet_refl|]. intros q Hq. assert (q = p) as -> by congruence.
    destruct (Hf p) as (E1 & E2 & E3). unfold quiet, alive. rewrite E1, E2, E3, Hr. intuition congruence. }
  apply inv_quiet; [done|done|]. apply (running_same _ _ _ (pi_cpus _ Hi) Hev).
  intros k q q' Hq Hq'. alter_case Hq'; [|by simplify_eq]. simplify_eq. by destruct (Hf p) as (-> & _).
Qed.

Lemma inv_yield s c i t' :
  proc_inv s -> cur s c = Some i -> (yield i ;; release ptlock) (tab s) = ([], Ret tt t') ->
  proc_inv (mk_psys t' (fupd (cur s) c None) (forking s) (given s)).
Proof.
  intros Hi Hc Ht. apply yield_inv in Ht as (p & Hp & ->); [|apply Hi].
  pose proof (cur_running s c i p Hi Hc Hp) as Hr. apply inv_quiet; [done| |].
  - apply evolves_at; [apply quiet_refl|]. intros q Hq. assert (q = p) as -> by congruence. quiet_tac.
  - apply (cpus_stop _ _ _ _ i (pi_cpus _ Hi) Hc). apply (evolves_weaken _ _ _ _ (evolves_alter i _ _)).
    intros k q q' Hq ->. by destruct (decide (k = i)).
Qed.

Lemma inv_sleep s c i ch t' :
  proc_inv s -> cur s c = Some i ->
  (forall j, ch = ChProc j -> j = i /\ forall k z, procs (tab s) !! k = Some z -> parent z = Some i -> state z <> ZOMBIE) ->
  critical (sleep_on i ch) (tab s) = ([], Ret tt t') ->
  proc_inv (mk_psys t' (fupd (cur s) c None) (forking s) (given s)).
Proof.
  intros Hi Hc Hch Ht. apply sleep_inv in Ht as (p & Hp & ->); [|apply Hi].
  pose proof (cur_running s c i p Hi Hc Hp) as Hr. destruct Hi as [Hlen Hlk Hcp Hpi Hf Hw].
  set (f := fun p => set_state SLEEPING (set_pchan (Some ch) p)).
  constructor; cbn; auto.
  - by rewrite length_alter.
  - apply (cpus_stop _ _ _ _ i Hcp Hc). apply (evolves_weaken _ _ _ _ (evolves_alter i _ _)).
    intros k q q' Hq ->. by destruct (decide (k = i)).
  - apply (pids_inv_keep _ _ _ _ Hpi), evolves_at; [done|]. intros q Hq. assert (q = p) as -> by congruence. cbn. split; [congruence|done].
  - apply (family_keep _ _ _ _ Hf), evolves_at; [tauto|]. intros q Hq. assert (q = p) as -> by congruence.
    unfold alive. cbn. rewrite Hr. intuition congruence.
  - by apply (waits_sleep _ i ch).
Qed.

Lemma inv_wakeup s ch t' :
  proc_inv s -> wakeup ch (tab s) = ([], Ret tt t') -> proc_inv (mk_psys t' (cur s) (forking s) (given s)).
Proof.
  intros Hi Ht. apply wakeup_inv in Ht as ->; [|apply Hi].
  assert (evolves (fun _ => quiet) (procs (tab s)) (map (wake_one (Some ch)) (procs (tab s)))) as Hev.
  { apply (evolves_weaken _ _ _ _ (evolves_map _ _)). intros k p p' _ ->. quiet_tac. }
  apply inv_quiet; [done|done|]. apply (running_same _ _ _ (pi_cpus _ Hi) Hev).
  intros k p p' Hp Hp'. rewrite list_lookup_fmap, Hp in Hp'. injection Hp' as <-. unfold wake_one.
  case_decide as Hd; [|done]. destruct Hd as [E _]. cbn. rewrite E. done.
Qed.

Lemma inv_kill s pid0 r t' :
  proc_inv s -> kill pid0 (tab s) = ([], Ret r t') -> proc_inv (mk_psys t' (cur s) (forking s) (given s)).
Proof.
  intros Hi Ht. apply kill_inv in Ht as [->|(i & p & Hp & _ & ->)]; [by destruct s|idtac|apply Hi].
  assert (evolves (fun _ => quiet) (procs (tab s)) (alter kill_one i (procs (tab s)))) as Hev.
  { apply evolves_at; [apply quiet_refl|]. intros q Hq. quiet_tac. }
  apply inv_quiet; [done|done|]. apply (running_same _ _ _ (pi_cpus _ Hi) Hev).
  intros k q q' Hq Hq'. alter_case Hq'; [|by simplify_eq]. simplify_eq. unfold kill_one. case_decide as Hd; [|done].
  cbn in *. rewrite Hd. done.
Qed.

(** ** fork, exit and wait *)

Lemma cur_alive s c i : proc_inv s -> cur s c = Some i -> exists p, procs (tab s) !! i = Some p /\ alive p.
Proof.
  intros H Hc. destruct (co_cur _ _ (pi_cpus _ H) c i Hc) as (p & Hp & Hr). exists p. split; [done|].
  unfold alive. auto.
Qed.

(** A change of a process that is not running, to a state that is not running. *)
Lemma cpus_other (l : list proc) cur i p f :
  cpus_ok l cur -> l !! i = Some p -> state p <> RUNNING -> state (f p) <> RUNNING -> cpus_ok (alter f i l) cur.
Proof.
  intros Hc Hp Hn Hn'. apply (cpus_same l); [done|]. apply evolves_at; [done|].
  intros q Hq. assert (q = p) as -> by congruence. done.
Qed.

Lemma waits_other (l : list proc) i p f :
  waits_ok l -> l !! i = Some p -> state (f p) <> SLEEPING -> state (f p) <> ZOMBIE -> waits_ok (alter f i l).
Proof.
  intros Hw Hp Hn Hn'. apply (waits_keep l); [done|]. apply evolves_at; [done|].
  intros q Hq. assert (q = p) as -> by congruence. done.
Qed.

Lemma inv_alloc s c i np t' :
  proc_inv s -> cur s c = Some i -> forking s i = None ->
  take_slot (tab s) = ([], Ret (Some np) t') ->
  proc_inv (mk_psys t' (cur s) (fupd (forking s) i (Some (np, false))) (given s + 1)).
Proof.
  intros Hi Hc Hfk Ht. apply take_slot_inv in Ht as (pn & Hnp & Hs & ->); [|apply Hi].
  destruct (cur_alive s c i Hi Hc) as (p & Hp & Ha). destruct Hi as [Hlen Hlk Hcp Hpi Hf Hw].
  constructor; cbn [tab procs pt_lock initproc nextpid cur forking given]; auto.
  - by rewrite length_alter.
  - apply (cpus_other _ _ _ pn); [done|done|congruence|done].
  - by apply pids_inv_new.
  - by apply (family_alloc _ _ _ i np pn p).
  - by apply (waits_other _ _ pn).
Qed.

Lemma fork_embryo s i np b : proc_inv s -> forking s i = Some (np, b) ->
  exists pn, procs (tab s) !! np = Some pn /\ state pn = EMBRYO.
Proof. intros Hi Hf. destruct (fo_fork _ _ _ (pi_family _ Hi) i np b Hf) as (_ & pn & _ & _ & ? & ? & _). eauto. Qed.

Lemma inv_fork_fails s i np t' :
  proc_inv s -> forking s i = Some (np, false) -> updp np (set_state UNUSED) (tab s) = ([], Ret tt t') ->
  proc_inv (mk_psys t' (cur s) (fupd (forking s) i None) (given s)).
Proof.
  intros Hi Hfk Ht. apply updp_inv in Ht as (pn & Hnp & ->); [|apply Hi].
  destruct (fork_embryo s i np false Hi Hfk) as (q & Hq & Hs). assert (q = pn) as -> by congruence.
  destruct Hi as [Hlen Hlk Hcp Hpi Hf Hw]. constructor; cbn; auto.
  - by rewrite length_alter.
  - apply (cpus_other _ _ _ pn); [done|done|congruence|done].
  - apply (pids_inv_keep _ _ _ _ Hpi), evolves_at; [done|]. intros q _ ?. done.
  - by apply (family_done _ _ _ i np false).
  - by apply (waits_other _ _ pn).
Qed.

Lemma inv_fork_parent s i np t' :
  proc_inv s -> forking s i = Some (np, false) -> updp np (set_parent (Some i)) (tab s) = ([], Ret tt t') ->
  proc_inv (mk_psys t' (cur s) (fupd (forking s) i (Some (np, true))) (given s)).
Proof.
  intros Hi Hfk Ht. apply updp_inv in Ht as (pn & Hnp & ->); [|apply Hi].
  destruct (fork_embryo s i np false Hi Hfk) as (q & Hq & Hs). assert (q = pn) as -> by congruence.
  destruct Hi as [Hlen Hlk Hcp Hpi Hf Hw]. constructor; cbn; auto.
  - by rewrite length_alter.
  - apply (cpus_other _ _ _ pn); [done|done|congruence|cbn; congruence].
  - apply (pids_inv_keep _ _ _ _ Hpi), evolves_at; [done|]. intros q _ ?. done.
  - by apply family_parent.
  - apply (waits_other _ _ pn); [done|done|cbn; congruence..].
Qed.

Lemma inv_fork_returns s i np t' :
  proc_inv s -> forking s i = Some (np, true) -> critical (updp np (set_state RUNNABLE)) (tab s) = ([], Ret tt t') ->
  proc_inv (mk_psys t' (cur s) (fupd (forking s) i None) (given s)).
Proof.
  intros Hi Hfk Ht. apply critical_updp_inv in Ht as (pn & Hnp & ->); [|apply Hi].
  destruct (fork_embryo s i np true Hi Hfk) as (q & Hq & Hs). assert (q = pn) as -> by congruence.
  destruct Hi as [Hlen Hlk Hcp Hpi Hf Hw]. constructor; cbn; auto.
  - by rewrite length_alter.
  - apply (cpus_other _ _ _ pn); [done|done|congruence|done].
  - apply (pids_inv_keep _ _ _ _ Hpi), evolves_at; [done|]. intros q Hq'. assert (q = pn) as -> by congruence. split; [congruence|done].
  - apply (family_done _ _ _ i np true); [done|done|done|]. intros q. unfold alive. auto.
  - by apply (waits_other _ _ pn).
Qed.

Lemma inv_exit s c i t' :
  proc_inv s -> cur s c = Some i -> forking s i = None -> initproc (tab s) <> Some i ->
  (exit_locked i ;; release ptlock) (tab s) = ([], Ret tt t') ->
  proc_inv (mk_psys t' (fupd (cur s) c None) (forking s) (given s)).
Proof.
  intros Hi Hc Hfk Hni Ht.
  apply exit_inv in Ht as (init & p & l' & Hin & Hp & -> & Hlen' & Hall & Hz); [|apply Hi|done|apply Hi].
  pose proof (cur_running s c i p Hi Hc Hp) as Hr. destruct Hi as [Hlen Hlk Hcp Hpi Hf Hw].
  assert (init <> i) as Hne by congruence.
  assert (evolves (exit_rel i init) (procs (tab s)) l') as Hev.
  { split; [done|]. intros k q Hq. destruct (Hall k q Hq) as (q' & W & _ & E). eexists. split; [exact E|]. by exists q'. }
  constructor; cbn; auto; [congruence| | | |].
  - apply (cpus_stop _ _ _ _ i Hcp Hc), (evolves_weaken _ _ _ _ Hev). intros k q q'' _ (q' & W & ->).
    destruct (decide (k = i)); [done|]. by apply (adopted_woken _ _ _ _ W).
  - apply (pids_inv_keep _ _ _ _ Hpi), (evolves_weaken _ _ _ _ Hev). intros k q q'' Hq (q' & W & ->).
    destruct (adopted_woken _ _ _ _ W) as (_ & HU & _ & _ & _ & _ & HP & _).
    destruct (decide (k = i)) as [->|]; cbn; intros Hs; (split; [|done]); [congruence|by rewrite <- HU].
  - rewrite Hin in *. by apply (family_exit _ _ _ _ i p Hf).
  - apply (waits_exit _ _ i init p Hw Hp Hev); auto.
    + intros k q Hq. destruct (evolves_inv _ _ _ _ _ Hev Hq) as (q0 & Hq0 & _).
      destruct (Hall k q0 Hq0) as (q' & _ & Ha & E). rewrite Hq in E. injection E as ->.
      destruct (decide (k = i)); [by intros [? _]|done].
    + by apply (fo_irrefl _ _ _ Hf).
Qed.

Lemma zombie_child_Some me l z :
  zombie_child me l = Some z -> exists p, l !! z = Some p /\ parent p = Some me /\ state p = ZOMBIE.
Proof.
  unfold zombie_child. destruct (list_find _ l) as [[k p]|] eqn:E; [|done]. intros [= <-].
  apply list_find_Some in E as (? & [? ?] & _). eauto.
Qed.

Lemma zombie_child_None me l k z :
  zombie_child me l = None -> l !! k = Some z -> parent z = Some me -> state z <> ZOMBIE.
Proof.
  unfold zombie_child. destruct (list_find _ l) as [[? ?]|] eqn:E; [done|]. intros _ Hk Hp Hs.
  apply list_find_None in E. rewrite Forall_forall in E. apply (E z); [by eapply list_elem_of_lookup_2|done].
Qed.

Lemma inv_reap s i z t' :
  proc_inv s -> zombie_child i (procs (tab s)) = Some z -> critical (updp z reap) (tab s) = ([], Ret tt t') ->
  proc_inv (mk_psys t' (cur s) (forking s) (given s)).
Proof.
  intros Hi (p & Hp & Hpar & Hs)%zombie_child_Some Ht. apply critical_updp_inv in Ht as (q & Hq & ->); [|apply Hi].
  assert (q = p) as -> by congruence. destruct Hi as [Hlen Hlk Hcp Hpi Hf Hw]. constructor; cbn; auto.
  - by rewrite length_alter.
  - apply (cpus_other _ _ _ p); [done|done|congruence|done].
  - apply (pids_inv_keep _ _ _ _ Hpi), evolves_at; [done|]. intros q _ ?. done.
  - by apply (family_reap _ _ _ z p).
  - by apply (waits_other _ _ p).
Qed.

Lemma inv_step s s' : proc_inv s -> psys_step s s' -> proc_inv s'.
Proof.
  intros Hi Hst. destruct Hst.
  - by apply inv_schedule.
  - by eapply inv_running_alter.
  - by eapply inv_yield.
  - eapply inv_sleep; eauto. intros j ->. by destruct (H1 j).
  - by eapply inv_wakeup.
  - by eapply inv_kill.
  - by eapply inv_alloc.
  - by eapply inv_fork_fails.
  - by eapply inv_fork_parent.
  - by eapply inv_fork_returns.
  - by eapply inv_exit.
  - by eapply inv_reap.
  - eapply inv_sleep; eauto. intros j [= <-]. split; [done|]. intros k z. by apply zombie_child_None.
  - eapply inv_running_alter; eauto. intros p. by destruct (H0 p) as (? & ? & ? & _).
Qed.

Lemma boot_lookup k p : procs (tab boot) !! k = Some p -> k = 0%nat /\ p = boot_proc \/ k <> 0%nat /\ p = proc0.
Proof.
  cbn [procs tab boot]. intros [[<- [<- _]]|[Hne Hk]]%list_lookup_insert_Some; [by left|right].
  apply lookup_replicate in Hk as [-> _]. done.
Qed.

Lemma inv_boot : proc_inv boot.
Proof.
  constructor; [done|done| | | |].
  - constructor; [done|done|]. intros i p [[_ ->]|[_ ->]]%boot_lookup; done.
  - intros _. split; [done|]. constructor; [done| |].
    + intros i p [[_ ->]|[_ ->]]%boot_lookup; done.
    + intros i j p q [[-> ->]|[_ ->]]%boot_lookup [[-> ->]|[_ ->]]%boot_lookup; done.
  - constructor; try done.
    + exists 0%nat, boot_proc. split; [done|]. split; [done|]. unfold alive. cbn. auto.
    + intros i p [[-> ->]|[_ ->]]%boot_lookup; done.
    + intros i p [[-> ->]|[_ ->]]%boot_lookup; done.
    + intros i p q [[-> ->]|[_ ->]]%boot_lookup; done.
    + intros i p [[-> ->]|[_ ->]]%boot_lookup; done.
    + intros i p [[-> ->]|[_ ->]]%boot_lookup; done.
  - constructor.
    + intros i p [[-> ->]|[_ ->]]%boot_lookup; done.
    + intros i p j [[-> ->]|[_ ->]]%boot_lookup [? _]; done.
Qed.

Lemma reachable_inv s : rtc psys_step boot s -> proc_inv s.
Proof.
  intros Hr. assert (proc_inv boot) as Hb by apply inv_boot. revert Hb.
  induction Hr as [|x y z Hst _ IH]; [done|]. intros Hx. apply IH. by eapply inv_step.
Qed.
