(* ===== verification/Processes.v ===== *)
(** * Processes: what proc.c promises

    The theorems on the process table: the invariant every interleaving keeps,
    that [wait] misses no [exit], that [wait] reclaims the memory of a child, and
    what [kill] does to slots that are not in use. *)

From stdpp Require Import base numbers list gmap strings.
From S2P Require Import Prelude Bytes Mem Str Kalloc Vm VmTable VmSpace VmKernel VmCopy Proc ProcSys ProcInv Uvm.

Open Scope Z_scope.

(** ** Every interleaving *)

(** A run: the first process is scheduled, forks, and its child is ready. *)
Definition some_run : psys :=
  mk_psys (mk_ptable false (<[1%nat := set_parent (Some 0%nat) (set_state RUNNABLE (set_pid 2 proc0))]>
                              (<[0%nat := set_state RUNNING (set_pid 1 proc0)]> (replicate NPROC proc0))) (Some 0%nat) 3)
          (fupd (fun _ => None) 0%nat (Some 0%nat)) (fupd (fupd (fupd (fun _ => None) 0%nat (Some (1%nat, false))) 0%nat (Some (1%nat, true))) 0%nat None) 2.

Lemma some_run_reachable : rtc psys_step boot some_run.
Proof.
  eapply rtc_l. { by eapply (ps_schedule boot 0 0); vm_compute. }
  eapply rtc_l. { by eapply (ps_allocproc _ 0 0 1); vm_compute. }
  eapply rtc_l. { by eapply (ps_fork_parent _ 0 0 1); vm_compute. }
  eapply rtc_l. { by eapply (ps_fork_returns _ 0 0 1); vm_compute. }
  apply rtc_refl.
Qed.

(** C11: in every interleaving of scheduling, fork, exit, wait, sleep, wakeup and
    kill on any number of CPUs, a process is in the running state exactly when
    one CPU runs it, and never two; and every process but init that has left [fork]
    has a parent that is alive and not a zombie.  As long as fewer than [2 ^ 31 - 1]
    process ids were given out since the start, the ids of the processes in use are
    positive and distinct; later [nextpid] wraps around and they need not be. *)
Theorem proc_table_invariant s :
  rtc psys_step boot s ->
  (forall i p, procs (tab s) !! i = Some p -> state p = RUNNING <-> exists c, cur s c = Some i)
  /\ (forall c c' i, cur s c = Some i -> cur s c' = Some i -> c = c')
  /\ (forall i p, procs (tab s) !! i = Some p -> state p <> UNUSED -> state p <> EMBRYO ->
        initproc (tab s) <> Some i ->
        exists q pq, parent p = Some q /\ procs (tab s) !! q = Some pq /\ alive pq)
  /\ (given s < 2 ^ 31 - 1 ->
        nextpid (tab s) = given s + 1
        /\ (forall i p, procs (tab s) !! i = Some p -> state p <> UNUSED -> 0 < pid p < nextpid (tab s))
        /\ (forall i j p q, procs (tab s) !! i = Some p -> procs (tab s) !! j = Some q ->
              state p <> UNUSED -> state q <> UNUSED -> pid p = pid q -> i = j)).
Proof.
  intros [_ _ [H1 H2 H3] Hp Hf _]%reachable_inv. split_and!; eauto.
  - intros i p Hi. split; [by apply H3|]. intros [c Hc]. destruct (H1 c i Hc) as (q & Hq & ?). congruence.
  - intros i p Hi Hu He Hn. destruct (fo_has _ _ _ Hf i p Hi Hu He Hn) as [q Hq].
    destruct (fo_parent _ _ _ Hf i p q Hi Hq) as (pq & ? & ?). eauto.
  - intros Hg. destruct Hp as [Hn [_ H4 H5]]; [unfold few; lia|]. eauto.
Qed.
Lemma proc_table_invariant_witness :
  exists q pq, parent (set_parent (Some 0%nat) (set_state RUNNABLE (set_pid 2 proc0))) = Some q
    /\ procs (tab some_run) !! q = Some pq /\ alive pq.
Proof.
  destruct (proc_table_invariant some_run some_run_reachable) as (_ & _ & H & _).
  apply (H 1%nat); [reflexivity|discriminate..].
Defined.

(** C12: no exit is missed.  In every interleaving, a process that sleeps on a
    process address sleeps in its own [wait], and then none of its children is a
    zombie: each exit that happened before was seen, and each later one wakes the
    parent up. *)
Theorem wait_no_lost_exit s i p j :
  rtc psys_step boot s -> procs (tab s) !! i = Some p -> state p = SLEEPING -> pchan p = Some (ChProc j) ->
  j = i /\ forall k z, procs (tab s) !! k = Some z -> parent z = Some i -> state z <> ZOMBIE.
Proof. intros [_ _ _ _ _ Hw]%reachable_inv Hp Hs Hc. by apply (wo_wait _ Hw i p j Hp). Qed.

(** [some_run], where the first process then waits for its child. *)
Definition waiting_run : psys :=
  mk_psys (mk_ptable false (<[1%nat := set_parent (Some 0%nat) (set_state RUNNABLE (set_pid 2 proc0))]>
                              (<[0%nat := set_pchan (Some (ChProc 0)) (set_state SLEEPING (set_pid 1 proc0))]> (replicate NPROC proc0))) (Some 0%nat) 3)
          (fupd (cur some_run) 0%nat None) (forking some_run) (given some_run).
Lemma wait_no_lost_exit_witness :
  state (set_parent (Some 0%nat) (set_state RUNNABLE (set_pid 2 proc0))) <> ZOMBIE.
Proof.
  assert (rtc psys_step boot waiting_run) as Hr.
  { etransitivity; [apply some_run_reachable|]. apply rtc_once. by eapply (ps_wait_sleeps _ 0 0); vm_compute. }
  destruct (wait_no_lost_exit waiting_run 0 (set_pchan (Some (ChProc 0)) (set_state SLEEPING (set_pid 1 proc0))) 0 Hr) as [_ H]; [reflexivity|reflexivity|reflexivity|].
  apply (H 1%nat); reflexivity.
Defined.

(** ** kill and free slots *)

(** [kill] does not look at the state of a slot.  Free slots have pid 0, so
    [kill] of process id 0 reports success and marks the first free slot, and as
    [allocproc] leaves the mark the next process made there is born killed. *)
Theorem kill_marks_free_slot t i p :
  pt_lock t = false -> find_unused (procs t) 0 = Some i -> find_pid 0 (procs t) = Some i ->
  procs t !! i = Some p -> state p = UNUSED ->
  exists t1 t2 p', kill 0 t = ([], Ret 0 t1) /\ take_slot t1 = ([], Ret (Some i) t2)
    /\ procs t2 !! i = Some p' /\ state p' = EMBRYO /\ killed p' = true.
Proof.
  destruct t as [lk l ip nx]. cbn [pt_lock procs]. intros -> Hu Hf Hp Hs.
  set (t1 := mk_ptable false (alter kill_one i l) ip nx).
  assert (kill 0 (mk_ptable false l ip nx) = ([], Ret 0 t1)) as E1.
  { unfold kill. erewrite bind_nil by reflexivity. erewrite bind_nil by reflexivity.
    cbn [procs lset ptlock]. rewrite Hf. unfold updp, bind, get, deref. cbn [procs lset ptlock]. by rewrite Hp. }
  assert (find_unused (alter kill_one i l) 0 = Some i) as Hu'.
  { apply find_unused_mark; [|done]. intros q. unfold kill_one. case_decide as E; [|done]. cbn in *. by rewrite E. }
  assert (alter kill_one i l !! i = Some (set_killed true p)) as Hk.
  { rewrite list_lookup_alter_eq, Hp. cbn. unfold kill_one. cbn. by rewrite decide_False by (rewrite Hs; done). }
  exists t1, (mk_ptable false (alter (set_pid nx) i (alter (set_state EMBRYO) i (alter kill_one i l))) ip (s32 (nx + 1))),
    (set_pid nx (set_state EMBRYO (set_killed true p))).
  split; [done|]. split; [|split; [|done]].
  - unfold take_slot. erewrite bind_nil by reflexivity. erewrite bind_nil by reflexivity.
    unfold t1. cbn [procs lset ptlock]. rewrite Hu'.
    unfold updp, bind, get, deref. cbn [procs lset ptlock on_procs modify]. rewrite Hk. cbn.
    by rewrite list_lookup_alter_eq, Hk.
  - cbn [procs]. rewrite list_lookup_alter_eq, list_lookup_alter_eq, Hk. done.
Qed.
Lemma kill_marks_free_slot_witness :
  exists t1 t2 p', kill 0 (tab boot) = ([], Ret 0 t1) /\ take_slot t1 = ([], Ret (Some 1%nat) t2)
    /\ procs t2 !! 1%nat = Some p' /\ state p' = EMBRYO /\ killed p' = true.
Proof. apply (kill_marks_free_slot (tab boot) 1 proc0); reflexivity. Defined.

(** ** Reaping a child *)

Lemma zoom_ret {S T A} (L : lens S T) (m : M T A) s a t :
  m (lget L s) = ([], Ret a t) -> zoom L m s = ([], Ret a (lset L t s)).
Proof. intros E. unfold zoom. by rewrite E. Qed.

Lemma get_p_run {F A} (f : proc -> A) i (k : kern F) p :
  procs (kpt k) !! i = Some p -> get_p f i k = ([], Ret (f p) k).
Proof. intros Hp. unfold get_p, zoom, getp, bind, get, deref. cbn. rewrite Hp. by destruct k. Qed.

Lemma upd_p_run {F} i f (k : kern F) p :
  procs (kpt k) !! i = Some p ->
  upd_p i f k = ([], Ret tt (mk_kern (on_procs (alter f i) (kpt k)) (kfiles k) (kcr3 k) (kfirst k) (kticks k) (ktlock k))).
Proof. intros Hp. unfold upd_p, zoom, updp, bind, get, deref. cbn. by rewrite Hp. Qed.

(** C13: [wait] with a zombie child returns the child's pid, frees the slot, and
    gives the child's kernel stack and every page of its address space back to
    the allocator, each once; no other page and no file changes. *)
Theorem wait_reclaims {F} `{HasMem F} kend (k : kern F) me i p l T U K :
  KERNBASE < kend -> pt_lock (kpt k) = false ->
  zombie_child me (procs (kpt k)) = Some i -> procs (kpt k) !! i = Some p ->
  space kend (kpm k) l (pgdir p) T U -> upto U 0 K -> K <= UPAGES ->
  good_page kend (kstack p) -> kstack p ∉ l -> ~ owns (pgdir p) T U (kstack p) ->
  exists k' fl, wait kend me k = ([], Ret (pid p) k')
    /\ kpt k' = mk_ptable false (alter (fun p => reap (set_kstack 0 p)) i (procs (kpt k))) (initproc (kpt k)) (nextpid (kpt k))
    /\ alloc_inv kend (kpm k') (fl ++ l)
    /\ (forall q, q ∈ fl <-> q = kstack p \/ owns (pgdir p) T U q)
    /\ kept kend (fun q => q <> kstack p /\ ~ owns (pgdir p) T U q) (kpm k) (kpm k')
    /\ kfiles k' = lset f_mem (kpm k') (kfiles k).
Proof.
  intros Hpos Hlk Hz Hp Hs Hto HK Hg Hl Ho. assert (KERNBASE <= kend) as Hend by lia.
  destruct k as [[lk pl ip nx] fs cr fi tk tl]. unfold kpm in *. cbn [kpt kfiles procs pt_lock initproc nextpid] in *. subst lk.
  set (pm := lget f_mem fs) in *.
  destruct (kfree_inv kend Hend pm l (kstack p)) as (pm1 & Ek & Ha1 & _ & Hfr1 & _); [apply Hs|done|done|].
  assert (kept kend (fun q => q <> kstack p) pm pm1) as Hk1.
  { intros q x Hq Hgq Hx. apply Hfr1. by apply (good_page_disjoint kend q). }
  assert (space kend pm1 (kstack p :: l) (pgdir p) T U) as Hs1.
  { apply (space_other kend pm l); [done|done| |].
    - intros q Hq [->|Hin]%elem_of_cons; [done|]. by apply (owned_page _ _ _ _ _ _ _ Hs Hq).
    - apply (kept_weaken _ _ _ _ _ Hk1). by intros q Hq ->. }
  destruct (freevm_ok kend Hend Hpos pm1 (kstack p :: l) (pgdir p) T U K Hs1 HK Hto) as (pm2 & fl & Ef & Ha2 & Hfl & Hk2).
  exists (mk_kern (mk_ptable false (alter (fun p => reap (set_kstack 0 p)) i pl) ip nx) (lset f_mem pm2 fs) cr fi tk tl), (fl ++ [kstack p]).
  cbn [kpt kfiles]. rewrite f_get_set.
  split; [|split; [done|split; [by rewrite <- app_assoc|split; [|split; [|done]]]]].
  - unfold wait. erewrite bind_nil by reflexivity. erewrite bind_nil by reflexivity. cbn [kpt kfiles kcr3 kfirst kticks ktlock lset lget PT ptlock procs initproc nextpid].
    rewrite Hz. erewrite bind_nil by (by apply get_p_run). erewrite bind_nil by (by apply get_p_run).
    erewrite bind_nil by (apply zoom_ret; exact Ek). erewrite bind_nil by (by apply (upd_p_run _ _ _ p)).
    erewrite bind_nil by (apply (get_p_run _ _ _ (set_kstack 0 p)); cbn; by rewrite list_lookup_alter_eq, Hp).
    erewrite bind_nil by (apply zoom_ret; cbn [lget PM]; unfold kpm; cbn [kfiles lset PM]; rewrite f_get_set; exact Ef).
    erewrite bind_nil by (apply (upd_p_run _ _ _ (set_kstack 0 p)); cbn; by rewrite list_lookup_alter_eq, Hp).
    erewrite bind_nil by reflexivity. cbn. by rewrite alter_alter, f_set_set.
  - intros q. rewrite elem_of_app, Hfl, list_elem_of_singleton. tauto.
  - eapply kept_trans; [apply (kept_weaken _ _ _ _ _ Hk1)|apply Hk2|]; by intros q [? ?].
Qed.

(** Memory alone. *)
#[export] Instance mem_only : HasMem pmem := {
  f_mem := Lens (fun m => m) (fun m _ => m); f_get_set := fun _ _ => eq_refl; f_set_set := fun _ _ _ => eq_refl;
  f_set_get := fun _ => eq_refl
}.
Lemma wait_reclaims_witness :
  exists (k k' : kern pmem) fl l, wait some_end 0 k = ([], Ret 2 k') /\ alloc_inv some_end (kpm k') (fl ++ l)
    /\ length l = 3%nat.
Proof.
  destruct (booted 4 ltac:(done)) as (s & l & d & Hs & Hl). destruct l as [|ks l]; [done|].
  destruct (kalloc_inv some_end ltac:(done) s (ks :: l)) as (s1 & _ & Ha & Hr & _); [apply Hs|].
  pose proof (space_pop some_end s s1 l d ∅ ∅ ks Hs Ha Hr) as Hs1.
  destruct (free_page _ _ _ _ _ _ _ Hs) as (Hg & Hkl & Hkt & _).
  set (child := set_pgdir d (set_kstack ks (set_parent (Some 0%nat) (set_state ZOMBIE (set_pid 2 proc0))))).
  set (k := mk_kern (mk_ptable false [boot_proc; child] (Some 0%nat) 3) s1 0 false 0 false).
  destruct (wait_reclaims some_end k 0 1 child l ∅ ∅ 0) as (k' & fl & E & _ & Ha' & _);
    [done|reflexivity|reflexivity|reflexivity|exact Hs1| |done|done|done| |].
  { intros i Hi. rewrite lookup_empty. split; [by intros []|lia]. }
  { intros [?|(n & f & Hn)]; [done|by apply lookup_empty_Some in Hn]. }
  exists k, k', fl, l. split; [exact E|]. split; [exact Ha'|]. by injection Hl.
Defined.
