(* ===== verification/OpenFiles.v ===== *)
(** * Open files: what file.c promises

    Reference counts, the ends of a pipe, and the size of the transactions a
    write makes. *)

From stdpp Require Import base numbers list gmap strings.
From S2P Require Import Prelude Bytes Mem Str Kalloc Buf Memide Bio Bcache Log Tx Recovery Pipe Fs File Mkfs FsImage.

Open Scope Z_scope.

(** ** The invariant of the file table *)

(** ** Holders *)

(** The file table, and how many references to each file its users hold. *)
Definition fsys : Type := ftable * (nat -> nat).

Definition held (h : nat -> nat) (f : nat) (n : nat) : nat -> nat := fun g => if decide (g = f) then n else h g.

Inductive fsys_step : fsys -> fsys -> Prop :=
  | fs_alloc t h f t' :
      filealloc t = ([], Ret (Some f) t') -> fsys_step (t, h) (t', held h f (h f + 1))
  | fs_alloc_fails t h t' :
      filealloc t = ([], Ret None t') -> fsys_step (t, h) (t', h)
  | fs_dup t h f g t' :
      (0 < h f)%nat -> filedup f t = ([], Ret g t') -> fsys_step (t, h) (t', held h f (h f + 1))
  | fs_close t h f o t' :
      (0 < h f)%nat -> file_drop f t = ([], Ret o t') -> fsys_step (t, h) (t', held h f (h f - 1))
  | fs_use t h f g t' :          (* a holder changes the file, not its count *)
      (0 < h f)%nat -> (forall x, f_ref (g x) = f_ref x) ->
      upd_file f g t = ([], Ret tt t') -> fsys_step (t, h) (t', held h f (h f)).

Definition no_files : fsys := (mk_ftable false (replicate NFILE file0), fun _ => 0%nat).

Record refs_ok (s : fsys) : Prop := {
  ro_len : length (files s.1) = NFILE;
  ro_lock : ft_lock s.1 = false;
  ro_ref : forall f x, files s.1 !! f = Some x -> f_ref x = Z.of_nat (s.2 f);
  ro_out : forall f, files s.1 !! f = None -> s.2 f = 0%nat;
  ro_free : forall f x, files s.1 !! f = Some x -> s.2 f = 0%nat -> f_type x = FD_NONE
}.

(** The table after a change of one file. *)
Definition with_file (t : ftable) (f : nat) (x : file) : ftable := mk_ftable false (<[f := x]> (files t)).

Lemma refs_set t h f x n :
  refs_ok (t, h) -> is_Some (files t !! f) -> f_ref x = Z.of_nat n -> (n = 0%nat -> f_type x = FD_NONE) ->
  refs_ok (with_file t f x, held h f n).
Proof.
  intros [H1 H2 H3 H4 H5] Hf Hr Ht. cbn in *. unfold with_file, held. constructor; cbn.
  - by rewrite length_insert.
  - done.
  - intros g y [[-> [<- _]]|[Hne Hg]]%list_lookup_insert_Some; [by rewrite decide_True|rewrite decide_False by congruence; auto].
  - intros g Hg. apply list_lookup_insert_None in Hg. destruct (decide (g = f)) as [->|Hne]; [destruct Hf; congruence|auto].
  - intros g y [[-> [<- _]]|[Hne Hg]]%list_lookup_insert_Some; [rewrite decide_True by done; done|rewrite decide_False by congruence; eauto].
Qed.

Lemma file_at_run f x t : files t !! f = Some x -> file_at f t = ([], Ret x t).
Proof. intros Hf. unfold file_at. by rewrite Hf. Qed.

Lemma upd_file_run f g x t :
  files t !! f = Some x -> upd_file f g t = ([], Ret tt (mk_ftable (ft_lock t) (<[f := g x]> (files t)))).
Proof. intros Hf. unfold upd_file. by erewrite bind_nil by (by apply file_at_run). Qed.

Lemma filealloc_run t :
  ft_lock t = false ->
  filealloc t = match find_free_file (files t) with
                | Some f => match files t !! f with
                            | Some x => ([], Ret (Some f) (with_file t f (set_fref 1 x)))
                            | None => ([], Fault)
                            end
                | None => ([], Ret None t)
                end.
Proof.
  destruct t as [lk l]. cbn [ft_lock files]. intros ->. unfold filealloc.
  erewrite bind_nil by reflexivity. erewrite bind_nil by reflexivity. cbn [lset ftlock files].
  destruct (find_free_file l) as [f|]; [|done]. destruct (l !! f) as [x|] eqn:Hf.
  - erewrite bind_nil by (by apply (upd_file_run _ _ x)). by erewrite bind_nil by reflexivity.
  - unfold upd_file, file_at, bind. cbn [lset ftlock files]. by rewrite Hf.
Qed.

Lemma find_free_file_Some l f : find_free_file l = Some f -> exists x, l !! f = Some x /\ f_ref x = 0.
Proof.
  unfold find_free_file. destruct (list_find _ l) as [[g x]|] eqn:E; [|done]. intros [= <-].
  apply list_find_Some in E as (? & ? & _). eauto.
Qed.

Lemma find_free_file_None l f x : find_free_file l = None -> l !! f = Some x -> f_ref x <> 0.
Proof.
  unfold find_free_file. destruct (list_find _ l) as [[g y]|] eqn:E; [done|]. intros _ Hf.
  apply list_find_None in E. rewrite Forall_forall in E. apply E. by eapply list_elem_of_lookup_2.
Qed.

Lemma filedup_run f x t :
  ft_lock t = false -> files t !! f = Some x ->
  filedup f t = if f_ref x <? 1 then ([], Panic "filedup") else ([], Ret f (with_file t f (set_fref (f_ref x + 1) x))).
Proof.
  destruct t as [lk l]. cbn [ft_lock files]. intros -> Hf. unfold filedup.
  erewrite bind_nil by reflexivity. erewrite bind_nil by (by apply file_at_run).
  destruct (f_ref x <? 1); [done|]. erewrite bind_nil by (by apply (upd_file_run _ _ x)).
  by erewrite bind_nil by reflexivity.
Qed.

Lemma file_drop_run f x t :
  ft_lock t = false -> files t !! f = Some x ->
  file_drop f t = if f_ref x <? 1 then ([], Panic "fileclose")
    else if f_ref x - 1 >? 0 then ([], Ret None (with_file t f (set_fref (f_ref x - 1) x)))
    else ([], Ret (Some (set_fref (f_ref x - 1) x)) (with_file t f (set_ftype FD_NONE (set_fref 0 x)))).
Proof.
  destruct t as [lk l]. cbn [ft_lock files]. intros -> Hf. unfold file_drop.
  assert (f < length l)%nat as Hlt by (by eapply lookup_lt_Some).
  erewrite bind_nil by reflexivity. erewrite bind_nil by (by apply file_at_run).
  destruct (f_ref x <? 1); [done|]. cbv zeta. erewrite bind_nil by (by apply (upd_file_run _ _ x)).
  cbn [ft_lock files lset ftlock]. destruct (f_ref x - 1 >? 0); [by erewrite bind_nil by reflexivity|].
  erewrite bind_nil by (apply file_at_run; by apply list_lookup_insert_eq).
  erewrite bind_nil by (eapply upd_file_run; by apply list_lookup_insert_eq).
  erewrite bind_nil by (eapply upd_file_run; cbn; rewrite list_insert_insert_eq; by apply list_lookup_insert_eq).
  cbn. unfold with_file. cbn. by rewrite !list_insert_insert_eq.
Qed.

Lemma refs_step s s' : refs_ok s -> fsys_step s s' -> refs_ok s'.
Proof.
  intros Hi Hst. destruct Hst as [t h f t' E|t h t' E|t h f g t' Hh E|t h f o t' Hh E|t h f g t' Hh Hg E].
  - rewrite filealloc_run in E by apply Hi. destruct (find_free_file (files t)) as [g|] eqn:Ef; [|done].
    apply find_free_file_Some in Ef as (x & Hx & Hr). rewrite Hx in E. injection E as -> <-.
    pose proof (ro_ref _ Hi f x Hx) as Hh. cbn in Hh. assert (h f = 0%nat) as -> by lia.
    apply refs_set; [done|by eexists|done|done].
  - rewrite filealloc_run in E by apply Hi. destruct (find_free_file (files t)) as [g|]; [by destruct (files t !! g)|].
    by injection E as <-.
  - destruct (files t !! f) as [x|] eqn:Hx; [|pose proof (ro_out _ Hi f Hx) as Ho; cbn in Ho; lia].
    pose proof (ro_ref _ Hi f x Hx) as Hr. cbn in Hr.
    rewrite (filedup_run f x) in E by (apply Hi || done). destruct (Z.ltb_spec (f_ref x) 1); [done|]. injection E as <- <-.
    apply refs_set; [done|by eexists|cbn; lia|lia].
  - destruct (files t !! f) as [x|] eqn:Hx; [|pose proof (ro_out _ Hi f Hx) as Ho; cbn in Ho; lia].
    pose proof (ro_ref _ Hi f x Hx) as Hr. cbn in Hr.
    rewrite (file_drop_run f x) in E by (apply Hi || done). destruct (Z.ltb_spec (f_ref x) 1); [done|].
    rewrite Z.gtb_ltb in E. destruct (Z.ltb_spec 0 (f_ref x - 1)); injection E as <- <-;
      (apply refs_set; [done|by eexists|cbn; lia|cbn; try done; lia]).
  - destruct t as [lk l]. pose proof (ro_lock _ Hi) as Hl. cbn in Hl. subst lk.
    unfold upd_file, file_at, bind, deref, modify, fault, ret in E. cbn in E.
    destruct (l !! f) as [x|] eqn:Hx; cbn in E; [|done]. injection E as <-.
    apply (refs_set (mk_ftable false l)); [done|by eexists|rewrite Hg; by apply (ro_ref _ Hi)|lia].
Qed.

Lemma refs_start : refs_ok no_files.
Proof.
  constructor; cbn [fst snd no_files files ft_lock]; [by rewrite length_replicate|done| |done|];
    intros f x Hx; apply lookup_replicate in Hx as [-> _]; done.
Qed.

Lemma refs_reachable s : rtc fsys_step no_files s -> refs_ok s.
Proof.
  intros Hr. pose proof refs_start as H0. revert H0. induction Hr as [|x y z Hst _ IH]; [done|].
  intros Hx. apply IH. by eapply refs_step.
Qed.

(** ** Files in use *)


(** Under any sequence of opens, dups, closes and uses by their holders, the
    reference count of a file is the number of references held, and a file
    nobody holds is marked as none.  A holder's dup or close never panics, the
    close hands back the file exactly when it was the last, and [filealloc] finds
    a file nobody holds unless all are held. *)
Theorem file_refcounts t h :
  rtc fsys_step no_files (t, h) ->
  (forall f x, files t !! f = Some x -> f_ref x = Z.of_nat (h f) /\ (h f = 0%nat -> f_type x = FD_NONE))
  /\ (forall f, (0 < h f)%nat ->
        (exists t', filedup f t = ([], Ret f t'))
        /\ exists o t', file_drop f t = ([], Ret o t') /\ (is_Some o <-> h f = 1%nat))
  /\ exists o t', filealloc t = ([], Ret o t')
       /\ match o with
          | Some f => h f = 0%nat
          | None => forall f, (f < NFILE)%nat -> (0 < h f)%nat
          end.
Proof.
  intros Hi%refs_reachable. pose proof Hi as [Hlen Hlk Href Hout Hfree]. cbn in *. split; [|split].
  - intros f x Hx. split; eauto.
  - intros f Hf. destruct (files t !! f) as [x|] eqn:Hx; [|specialize (Hout f Hx); lia].
    specialize (Href f x Hx). rewrite (filedup_run f x), (file_drop_run f x) by done.
    destruct (Z.ltb_spec (f_ref x) 1); [lia|]. split; [by eexists|]. rewrite Z.gtb_ltb.
    destruct (Z.ltb_spec 0 (f_ref x - 1)); eexists _, _; (split; [done|]).
    + split; [by intros []|lia].
    + split; [lia|by eexists].
  - rewrite filealloc_run by done. destruct (find_free_file (files t)) as [f|] eqn:Ef.
    + apply find_free_file_Some in Ef as (x & Hx & Hr). rewrite Hx. eexists _, _. split; [done|].
      specialize (Href f x Hx). cbn. lia.
    + eexists _, _. split; [done|]. intros f Hf.
      destruct (lookup_lt_is_Some_2 (files t) f) as [x Hx]; [by rewrite Hlen|].
      pose proof (find_free_file_None _ _ _ Ef Hx). specialize (Href f x Hx). lia.
Qed.
Lemma file_refcounts_witness :
  exists t h, rtc fsys_step no_files (t, h) /\ h 0%nat = 2%nat
    /\ exists o t', file_drop 0 t = ([], Ret o t') /\ (is_Some o <-> h 0%nat = 1%nat).
Proof.
  assert (exists t h, rtc fsys_step no_files (t, h) /\ h 0%nat = 2%nat) as (t & h & Hr & Hh).
  { eexists _, _. split.
    { eapply rtc_l; [by eapply (fs_alloc _ _ 0); vm_compute|].
      eapply rtc_l; [by eapply (fs_dup _ _ 0); [apply Nat.ltb_lt|]; vm_compute|]. apply rtc_refl. }
    reflexivity. }
  exists t, h. split; [exact Hr|]. split; [exact Hh|].
  destruct (file_refcounts t h Hr) as (_ & H & _). apply (H 0%nat). lia.
Defined.

(** ** pipealloc *)

Lemma fileclose_none {S} `{TxDisk S} kend f (k : kfile S) x :
  ft_lock (k_ft k) = false -> files (k_ft k) !! f = Some x -> f_ref x = 1 -> f_type x = FD_NONE ->
  fileclose kend f k = ([], Ret tt (mk_kfile (k_fs k) (k_pw k) (with_file (k_ft k) f (set_ftype FD_NONE (set_fref 0 x))))).
Proof.
  intros Hl Hf Hr Ht. unfold fileclose.
  assert (zoom kft (file_drop f) k = ([], Ret (Some (set_fref 0 x)) (mk_kfile (k_fs k) (k_pw k) (with_file (k_ft k) f (set_ftype FD_NONE (set_fref 0 x)))))) as E.
  { unfold zoom. cbn [lget kft]. rewrite (file_drop_run f x), Hr by done. done. }
  run_with E. cbn. by rewrite Ht.
Qed.

(** Allocating a file and closing it again. *)
Lemma alloc_undone t f x :
  ft_lock t = false -> files t !! f = Some x -> f_ref x = 0 -> f_type x = FD_NONE ->
  with_file (with_file t f (set_fref 1 x)) f (set_ftype FD_NONE (set_fref 0 (set_fref 1 x))) = t.
Proof.
  destruct t as [lk l]. cbn [ft_lock files]. intros -> Hf Hr Ht. unfold with_file. cbn [files].
  rewrite list_insert_insert_eq. f_equal. apply list_insert_id. rewrite Hf. f_equal.
  destruct x. cbn in *. by subst.
Qed.

Lemma undo_both t f0 f1 x0 x1 :
  ft_lock t = false -> f1 <> f0 ->
  files t !! f0 = Some x0 -> f_ref x0 = 0 -> f_type x0 = FD_NONE ->
  files t !! f1 = Some x1 -> f_ref x1 = 0 -> f_type x1 = FD_NONE ->
  with_file (with_file (with_file (with_file t f0 (set_fref 1 x0)) f1 (set_fref 1 x1)) f0
    (set_ftype FD_NONE (set_fref 0 (set_fref 1 x0)))) f1 (set_ftype FD_NONE (set_fref 0 (set_fref 1 x1))) = t.
Proof.
  intros Hl Hne H0 Hr0 Ht0 H1 Hr1 Ht1.
  rewrite <- (alloc_undone t f0 x0) at 2 by done. unfold with_file. cbn [files]. f_equal.
  rewrite (list_insert_insert_ne _ f0 f1), list_insert_insert_eq by done.
  rewrite (list_insert_id (<[f0:=_]> (<[f0:=_]> (files t))) f1); [done|].
  rewrite !list_lookup_insert_ne by done. rewrite H1. f_equal. destruct x1. cbn in *. by subst.
Qed.

Lemma ends_table (l : list file) f0 f1 x0 x1 y0 y1 :
  f1 <> f0 -> <[f1 := y1]> (<[f0 := y0]> (<[f1 := x1]> (<[f0 := x0]> l))) = <[f1 := y1]> (<[f0 := y0]> l).
Proof.
  intros Hne. rewrite (list_insert_insert_ne _ f0 f1), list_insert_insert_eq by done. by rewrite list_insert_insert_eq.
Qed.

Lemma zoom_ok {S T A} (L : lens S T) (m : M T A) s a t :
  m (lget L s) = ([], Ret a t) -> zoom L m s = ([], Ret a (lset L t s)).
Proof. intros E. unfold zoom. by rewrite E. Qed.

Lemma filealloc_ok t :
  ft_lock t = false ->
  (filealloc t = ([], Ret None t) /\ forall f x, files t !! f = Some x -> f_ref x <> 0)
  \/ exists f x, files t !! f = Some x /\ f_ref x = 0 /\ filealloc t = ([], Ret (Some f) (with_file t f (set_fref 1 x))).
Proof.
  intros Hl. rewrite filealloc_run by done. destruct (find_free_file (files t)) as [f|] eqn:E.
  - right. apply find_free_file_Some in E as (x & Hx & Hr). exists f, x. by rewrite Hx.
  - left. split; [done|]. intros f x. by apply find_free_file_None.
Qed.

Lemma new_pipe_ok m p : pipe_ok (new_pipe m p) /\ contents (new_pipe m p) = [].
Proof.
  split; [|reflexivity]. constructor; cbn; try lia; [|done]. unfold zrange. by rewrite !length_fmap, length_seq.
Qed.

(** [pipealloc] either makes a pipe: two files nobody held become the read
    and the write end of an empty pipe in a fresh page, everything else being
    unchanged; or it returns -1 and leaves files, pipes and pages exactly as they
    were.  It fails only for want of two files or of a page. *)
Theorem pipealloc_spec {S} `{TxDisk S} kend (k : kfile S) l :
  KERNBASE <= kend -> ft_lock (k_ft k) = false ->
  (forall f x, files (k_ft k) !! f = Some x -> f_ref x = 0 -> f_type x = FD_NONE) ->
  alloc_inv kend (pages_of (k_pw k)) l ->
  exists r k', pipealloc kend k = ([], Ret r k')
    /\ match r with
       | Some (f0, f1) =>
           f0 <> f1 /\ k_fs k' = k_fs k
           /\ exists x0 x1 p l' q,
                files (k_ft k) !! f0 = Some x0 /\ f_ref x0 = 0 /\ files (k_ft k) !! f1 = Some x1 /\ f_ref x1 = 0
                /\ k_ft k' = mk_ftable false (<[f1 := set_end false true p (set_fref 1 x1)]>
                                               (<[f0 := set_end true false p (set_fref 1 x0)]> (files (k_ft k))))
                /\ l = p :: l' /\ alloc_inv kend (pages_of (k_pw k')) l'
                /\ pipes (k_pw k') = <[p := q]> (pipes (k_pw k))
                /\ pipe_ok q /\ contents q = [] /\ readopen q = true /\ writeopen q = true
       | None => k' = k /\ (l = [] \/ forall f0 f1 x0 x1, files (k_ft k) !! f0 = Some x0 -> f_ref x0 = 0 ->
                               files (k_ft k) !! f1 = Some x1 -> f_ref x1 = 0 -> f0 = f1)
       end.
Proof.
  intros Hend Hlk Hfree Ha. destruct k as [fs pw t]. cbn [k_fs k_pw k_ft] in *. unfold pipealloc.
  destruct (filealloc_ok t Hlk) as [[E0 Hno]|(f0 & x0 & Hx0 & Hr0 & E0)];
    (erewrite bind_nil by (apply zoom_ok; exact E0)).
  { eexists None, _. split; [reflexivity|]. split; [done|]. right. intros f0 f1 x0 x1 H0 Hr0. by destruct (Hno f0 x0). }
  set (t1 := with_file t f0 (set_fref 1 x0)). pose proof (lookup_lt_Some _ _ _ Hx0) as Hlt0.
  assert (files t1 !! f0 = Some (set_fref 1 x0)) as Hf0 by (by apply list_lookup_insert_eq).
  destruct (filealloc_ok t1 eq_refl) as [[E1 Hno]|(f1 & x1 & Hx1 & Hr1 & E1)];
    (erewrite bind_nil by (apply zoom_ok; exact E1)).
  { eexists None, _. split; [|split; [reflexivity|]].
    - erewrite bind_nil by reflexivity. erewrite bind_nil by (apply fileclose_none; [reflexivity|exact Hf0|reflexivity|exact (Hfree f0 x0 Hx0 Hr0)]).
      cbn. unfold t1. by rewrite alloc_undone by eauto.
    - right. assert (forall f x, files t !! f = Some x -> f_ref x = 0 -> f = f0) as Honly.
      { intros f x Hx Hr. destruct (decide (f = f0)); [done|]. destruct (Hno f x); [|done].
        unfold t1, with_file. cbn [files]. by rewrite list_lookup_insert_ne. }
      intros g0 g1 y0 y1 ????. rewrite (Honly g0 y0), (Honly g1 y1); done. }
  assert (f1 <> f0) as Hne by (intros ->; rewrite Hf0 in Hx1; injection Hx1 as <-; done).
  unfold t1, with_file in Hx1. cbn [files] in Hx1. rewrite list_lookup_insert_ne in Hx1 by done. set (t2 := with_file t1 f1 (set_fref 1 x1)).
  pose proof (lookup_lt_Some _ _ _ Hx1) as Hlt1.
  assert (files t2 !! f0 = Some (set_fref 1 x0)) as Hg0 by (unfold t2, with_file; cbn [files]; by rewrite list_lookup_insert_ne).
  assert (files t2 !! f1 = Some (set_fref 1 x1)) as Hg1 by (apply list_lookup_insert_eq; cbn; by rewrite length_insert).
  pose proof (kalloc_inv kend Hend _ l Ha) as Hk. destruct l as [|p l].
  - eexists None, _. split; [|split; [reflexivity|by left]].
    erewrite bind_nil by (apply zoom_ok, zoom_ok; exact Hk). change (0 =? 0) with true. cbn match.
    erewrite bind_nil by reflexivity.
    erewrite bind_nil by (apply fileclose_none; [reflexivity|exact Hg0|reflexivity|exact (Hfree f0 x0 Hx0 Hr0)]).
    erewrite bind_nil by (apply fileclose_none; [reflexivity|cbn [k_ft files with_file]; rewrite list_lookup_insert_ne by done; exact Hg1|reflexivity|exact (Hfree f1 x1 Hx1 Hr1)]).
    destruct pw as [pi pm]. unfold ret. cbn [k_fs k_pw k_ft lset lget kft kpw pagel pipes pages_of].
    unfold t2, t1. by rewrite (undo_both t f0 f1 x0 x1) by eauto.
  - destruct Hk as (pm & Hk & Ha' & Hr & _). pose proof (ai_good _ _ _ Ha) as HF. apply Forall_cons in HF as [Hg _].
    pose proof (good_page_range kend Hend p Hg) as Hrg.
    eexists (Some (f0, f1)), _. split.
    + erewrite bind_nil by (apply zoom_ok, zoom_ok; exact Hk).
      destruct (Z.eqb_spec p 0); [unfold KERNBASE in *; lia|].
      erewrite bind_nil by reflexivity.
      erewrite bind_nil by (apply zoom_ok; apply (upd_file_run _ _ (set_fref 1 x0)); exact Hg0).
      erewrite bind_nil by (apply zoom_ok; apply (upd_file_run _ _ (set_fref 1 x1)); cbn; rewrite list_lookup_insert_ne by done; exact Hg1).
      reflexivity.
    + split; [done|]. split; [done|]. exists x0, x1, p, l, (new_pipe (ram pm) p).
      destruct (new_pipe_ok (ram pm) p) as [Hok Hct]. split_and!; try done. cbn. f_equal. by rewrite ends_table.
Qed.
Lemma pipealloc_spec_witness :
  exists (k k' : kfile (logst (bio memide))) f0 f1,
    pipealloc 0x80100000 k = ([], Ret (Some (f0, f1)) k').
Proof.
  set (w := mk_pworld ∅ (mk_pmem (fun _ => 0) (mk_kmem false true 0x80200000))).
  set (k := mk_kfile (new_fs (mk_logst (boot new_disk) boot_log)) w (mk_ftable false (replicate NFILE file0))).
  destruct (pipealloc_spec 0x80100000 k [0x80200000]) as (r & k' & E & Hr); [done|done| | |].
  { intros f x Hx%lookup_replicate. by destruct Hx as [-> _]. }
  { constructor; [intros x; cbn; lia|done| |by apply NoDup_singleton|done].
    constructor; [|constructor]. split; [done|]. split; [unfold KERNBASE; lia|reflexivity]. }
  destruct r as [[f0 f1]|]; [by exists k, k', f0, f1|].
  exfalso. destruct Hr as [_ [?|Hr]]; [done|].
  assert (0%nat = 1%nat); [|done]. by apply (Hr _ _ file0 file0).
Defined.

(** ** The size of a transaction *)

(** Two processes write to two new files, each inside its own [begin_op] and
    [end_op], as in the loop of [filewrite]: one call of [writei] with as many
    bytes as [filewrite] puts into one transaction. *)
Definition two_writes : M (fsst (logst (bio memide))) unit :=
  zoom fd (zoom lb binit) ;; zoom fd (initlog ROOTDEV) ;;
  zoom fd t_begin ;;
  let* a := ialloc ROOTDEV T_FILE in
  let* b := ialloc ROOTDEV T_FILE in
  zoom fd t_end ;;
  zoom fd t_begin ;;
  zoom fd t_begin ;;
  ilock a ;;
  ilock b ;;
  let* ra := writei (fun _ => None) a (replicate (Z.to_nat write_max) 1) 0 write_max in
  let* rb := writei (fun _ => None) b (replicate (Z.to_nat write_max) 2) 0 write_max in
  ret tt.

(** [filewrite] puts more blocks into a transaction than [begin_op] reserves
    for it.  On a new file system two writes of one [filewrite] chunk each, both
    admitted by [begin_op], fill the log, and the kernel panics. *)
Theorem filewrite_overflows_log :
  MAXOPBLOCKS * BS < write_max
  /\ exists e, two_writes (new_fs (mk_logst (boot new_disk) boot_log)) = (e, Panic "too big a transaction").
Proof. split; [reflexivity|]. eexists. vm_compute. reflexivity. Qed.
