(* ===== verification/Syscall.v ===== *)
(** * System calls: argument fetching of syscall.c, and sysproc.c

    The kernel reads and writes the memory of the current process through the
    page table in [%cr3].  [me] is the current process. *)

From stdpp Require Import base numbers list gmap strings.
From S2P Require Import Prelude Bytes Mem Str Kalloc Vm Proc.

Open Scope Z_scope.

(** ** The memory management unit

    The kernel address of the byte at [va], [None] for a page fault.  The kernel
    may read any present page; as [entry.S] sets [CR0_WP] it may write only to
    pages marked writable. *)
Definition allowed (write : bool) (e : Z) : bool := has e PTE_P && (negb write || has e PTE_W).

Definition mmu (m : mem) (cr3 va : Z) (write : bool) : option Z :=
  let pde := load32 m (pde_at (p2v cr3) va) in
  if allowed write pde then
    let pte := load32 m (pte_at (p2v (PTE_ADDR pde)) va) in
    if allowed write pte then Some (p2v (PTE_ADDR pte) + va `mod` PGSIZE) else None
  else None.

(** How a system call ends: with its return value, asleep with the local
    variable it goes on from, or not at all after [exit]. *)
Inductive sysret := SRet (r : Z) | SSleep (local : Z) | SExit.

Section Syscall.
Context {F : Type} `{HasMem F} `{FileOps F}.

(** ** Memory of the current process *)

Definition user_byte (va : Z) : M (kern F) Z := fun k =>
  match mmu (ram (kpm k)) (kcr3 k) va false with
  | Some a => ([], Ret (ram (kpm k) a) k)
  | None => ([], Fault)
  end.

Fixpoint user_bytes (va : Z) (n : nat) : M (kern F) (list Z) :=
  match n with
  | O => ret []
  | S n =>
      let* c := user_byte va in
      let* l := user_bytes (va + 1) n in
      ret (c :: l)
  end.

Definition user_word (va : Z) : M (kern F) Z :=
  let* l := user_bytes va 4 in
  ret (get32 l 0).

Fixpoint store_user (va : Z) (l : list Z) : M (kern F) unit :=
  match l with
  | [] => ret tt
  | c :: l =>
      let* k := get in
      let* a := deref (mmu (ram (kpm k)) (kcr3 k) va true) in
      zoom PM (modify (on_ram (fun m => upd m a c))) ;;
      store_user (u32 (va + 1)) l
  end.

(** ** Arguments *)

(** [None] is the return value -1. *)
Definition fetchint (me : nat) (addr : Z) : M (kern F) (option Z) :=
  let* size := get_p sz me in
  if (addr >=? size) || (u32 (addr + 4) >? size) then ret None
  else
    let* x := user_word addr in
    ret (Some (s32 x)).

(** The loop of [fetchstr] over the [n] bytes at [s]: where the string ends. *)
Fixpoint string_end (n : nat) (s : Z) : M (kern F) (option Z) :=
  match n with
  | O => ret None
  | S n =>
      let* c := user_byte s in
      if c =? 0 then ret (Some s) else string_end n (s + 1)
  end.

(** The pointer and the length of the string. *)
Definition fetchstr (me : nat) (addr : Z) : M (kern F) (option (Z * Z)) :=
  let* size := get_p sz me in
  if addr >=? size then ret None
  else
    let* e := string_end (Z.to_nat (size - addr)) addr in
    ret ((fun e => (addr, e - addr)) <$> e).

Definition argint (me : nat) (n : Z) : M (kern F) (option Z) :=
  let* tf := get_p tf me in
  let* esp := load (tf + TF_ESP) in
  fetchint me (u32 (esp + 4 + 4 * n)).

Definition argptr (me : nat) (n size : Z) : M (kern F) (option Z) :=
  let* i := argint me n in
  match i with
  | None => ret None
  | Some i =>
      let* sz := get_p sz me in
      if (u32 i >=? sz) || (u32 (u32 i + size) >? sz) then ret None
      else ret (Some (u32 i))
  end.

Definition argstr (me : nat) (n : Z) : M (kern F) (option (Z * Z)) :=
  let* addr := argint me n in
  match addr with
  | None => ret None
  | Some addr => fetchstr me (u32 addr)
  end.

(** The bytes of the string [argstr] checked. *)
Definition string_at (s : Z * Z) : M (kern F) (list Z) := user_bytes s.1 (Z.to_nat s.2).

(** ** sysproc.c *)

Variables (kend kdata forkret_addr trapret_addr : Z).

Definition sys_fork (me : nat) : M (kern F) Z := fork kend kdata forkret_addr trapret_addr me.

(** [exit] does not return. *)
Definition sys_exit (me : nat) : M (kern F) sysret := exit me ;; ret SExit.

Definition sys_wait (me : nat) : M (kern F) Z := wait kend me.

Definition sys_kill (me : nat) : M (kern F) Z :=
  let* pid := argint me 0 in
  match pid with
  | None => ret (-1)
  | Some pid => zoom PT (kill pid)
  end.

Definition sys_getpid (me : nat) : M (kern F) Z := get_p pid me.

Definition sys_sbrk (me : nat) : M (kern F) Z :=
  let* n := argint me 0 in
  match n with
  | None => ret (-1)
  | Some n =>
      let* addr := get_p sz me in
      let* r := growproc kend me n in
      ret (if r <? 0 then -1 else s32 addr)
  end.

Definition tickslock : lens (kern F) bool :=
  Lens ktlock (fun b k => mk_kern (kpt k) (kfiles k) (kcr3 k) (kfirst k) (kticks k) b).

(** The loop of [sys_sleep], with [tickslock] held; the comparison is unsigned.
    The process goes on here when it wakes up. *)
Definition sleep_turn (me : nat) (n ticks0 : Z) : M (kern F) sysret :=
  let* ticks := gets kticks in
  if u32 (ticks - ticks0) <? u32 n then
    let* dead := get_p killed me in
    if dead then
      release tickslock ;;
      ret (SRet (-1))
    else
      Proc.sleep me ChTicks (Some tickslock) ;;
      ret (SSleep ticks0)
  else
    release tickslock ;;
    ret (SRet 0).

Definition sys_sleep (me : nat) : M (kern F) sysret :=
  let* n := argint me 0 in
  match n with
  | None => ret (SRet (-1))
  | Some n =>
      acquire tickslock ;;
      let* ticks0 := gets kticks in
      sleep_turn me n ticks0
  end.

Definition sys_uptime : M (kern F) Z :=
  acquire tickslock ;;
  let* xticks := gets kticks in
  release tickslock ;;
  ret (s32 xticks).

End Syscall.
