(* ===== verification/Links.v ===== *)
(** * The calls of sysfile.c that change directories

    [sys_link] and [sys_unlink] after their arguments are fetched, [isdirempty] and
    [create].  They are computations of the file system; [cwd] is the index of
    [proc->cwd]. *)

From stdpp Require Import base numbers list gmap strings.
From S2P Require Import Prelude Bytes Mem Str Buf Log Fs.

Open Scope Z_scope.

(** The conversion of an [int] to [short]. *)
Definition short (x : Z) : Z := s16 (x `mod` 2 ^ 16).

Definition dot : list Z := [46].
Definition dotdot : list Z := [46; 46].

Section Paths.
Context {S : Type} `{TxDisk S}.
Variable dev_read : Z -> option (nat -> Z -> M (fsst S) (Z * list Z)).
Variable dev_write : Z -> option (nat -> list Z -> Z -> M (fsst S) Z).

Definition tbegin : M (fsst S) unit := zoom fd t_begin.
Definition tend : M (fsst S) unit := zoom fd t_end.

(** [ip->nlink += d; iupdate(ip)] *)
Definition add_nlink (i : nat) (d : Z) : M (fsst S) unit :=
  upd_ino i (fun ip => set_inlink (short (i_nlink ip + d)) ip) ;;
  iupdate i.

(** [sys_link] after its arguments. *)
Definition link (cwd : nat) (old new : list Z) : M (fsst S) Z :=
  let bad (i : nat) : M (fsst S) Z :=
    ilock i ;;
    add_nlink i (-1) ;;
    iunlockput i ;;
    tend ;;
    ret (-1) in
  tbegin ;;
  let* o := namei dev_read cwd old in
  match o with
  | None => tend ;; ret (-1)
  | Some i =>
      ilock i ;;
      let* ip := ino i in
      if i_type ip =? T_DIR then
        iunlockput i ;;
        tend ;;
        ret (-1)
      else
        add_nlink i 1 ;;
        iunlock i ;;
        let* o := nameiparent dev_read cwd new in
        match o with
        | None => bad i
        | Some (d, name) =>
            ilock d ;;
            let* dp := ino d in
            let* ip := ino i in
            let* ok :=
              if negb (i_dev dp =? i_dev ip) then ret false
              else let* r := dirlink dev_read dev_write d name (i_inum ip) in ret (r >=? 0) in
            iunlockput d ;;
            if ok then
              iput i ;;
              tend ;;
              ret 0
            else bad i
        end
  end.

(** The loop of [isdirempty]. *)
Fixpoint isdirempty_loop (fuel : nat) (d : nat) (off : Z) : M (fsst S) bool :=
  let* dp := ino d in
  if off <? i_size dp then
    match fuel with
    | O => fun _ => ([], NoFuel)
    | Datatypes.S k =>
        let* '(r, l) := readi dev_read d off DIRENT_SIZE in
        if negb (r =? DIRENT_SIZE) then panic "isdirempty: readi"
        else if negb (de_inum (dirent_of l) =? 0) then ret false
        else isdirempty_loop k d (off + DIRENT_SIZE)
    end
  else ret true.

Definition isdirempty (d : nat) : M (fsst S) bool :=
  let* dp := ino d in
  isdirempty_loop (entries dp) d (2 * DIRENT_SIZE).

(** [sys_unlink] after its argument. *)
Definition unlink (cwd : nat) (path : list Z) : M (fsst S) Z :=
  let bad (d : nat) : M (fsst S) Z :=
    iunlockput d ;;
    tend ;;
    ret (-1) in
  tbegin ;;
  let* o := nameiparent dev_read cwd path in
  match o with
  | None => tend ;; ret (-1)
  | Some (d, name) =>
      ilock d ;;
      if (namecmp name dot =? 0) || (namecmp name dotdot =? 0) then bad d
      else
        let* o := dirlookup dev_read d name in
        match o with
        | None => bad d
        | Some (i, off) =>
            ilock i ;;
            let* ip := ino i in
            if i_nlink ip <? 1 then panic "unlink: nlink < 1"
            else
              let* full := if i_type ip =? T_DIR then let* e := isdirempty i in ret (negb e) else ret false in
              if (full : bool) then
                iunlockput i ;;
                bad d
              else
                let* r := writei dev_write d (replicate (Z.to_nat DIRENT_SIZE) 0) off DIRENT_SIZE in
                if negb (r =? DIRENT_SIZE) then panic "unlink: writei"
                else
                  let* ip := ino i in
                  when (i_type ip =? T_DIR) (add_nlink d (-1)) ;;
                  iunlockput d ;;
                  add_nlink i (-1) ;;
                  iunlockput i ;;
                  tend ;;
                  ret 0
        end
  end.

(** The inode comes back locked. *)
Definition create (cwd : nat) (path : list Z) (type major minor : Z) : M (fsst S) (option nat) :=
  let* o := nameiparent dev_read cwd path in
  match o with
  | None => ret None
  | Some (d, name) =>
      ilock d ;;
      let* o := dirlookup dev_read d name in
      match o with
      | Some (i, _) =>
          iunlockput d ;;
          ilock i ;;
          let* ip := ino i in
          if (type =? T_FILE) && (i_type ip =? T_FILE) then ret (Some i)
          else
            iunlockput i ;;
            ret None
      | None =>
          let* dp := ino d in
          let* i := ialloc (i_dev dp) type in
          ilock i ;;
          upd_ino i (set_idevice (short major) (short minor)) ;;
          upd_ino i (set_inlink 1) ;;
          iupdate i ;;
          let* ip := ino i in
          when (type =? T_DIR)
            (add_nlink d 1 ;;
             let* r := dirlink dev_read dev_write i dot (i_inum ip) in
             if r <? 0 then panic "create dots"
             else
               let* r := dirlink dev_read dev_write i dotdot (i_inum dp) in
               if r <? 0 then panic "create dots" else ret tt) ;;
          let* r := dirlink dev_read dev_write d name (i_inum ip) in
          if r <? 0 then panic "create: dirlink"
          else
            iunlockput d ;;
            ret (Some i)
      end
  end.

End Paths.
