(* ===== verification/Sysfile.v ===== *)
(** * File system calls: sysfile.c, and the swap files of fs.c

    The calls of process [me] fetch their arguments from its stack, work on its
    descriptor table and call the layers below. *)

From stdpp Require Import base numbers list gmap strings.
From S2P Require Import Prelude Bytes Mem Str User Kalloc Buf Log Pipe Fs File Itoa Links Vm Proc Syscall.

Open Scope Z_scope.

(** param.h *)

Definition MAXARG : nat := 32.

(** [sizeof(struct stat)], and its fields in memory: [(offset, bytes)]. *)
Definition STAT_SIZE : Z := 20.
Definition stat_fields (st : stat) : list (Z * list Z) :=
  [ (0, put16 [0; 0] 0 (st_type st));
    (4, put32 [0; 0; 0; 0] 0 (st_dev st));
    (8, put32 [0; 0; 0; 0] 0 (st_ino st));
    (12, put16 [0; 0] 0 (st_nlink st));
    (16, put32 [0; 0; 0; 0] 0 (st_size st)) ].

(** The string [createSwapFile] and [removeSwapFile] build in [path]; [None] when
    they write past its end. *)
Definition swap_name (pid : Z) : option (list Z) :=
  match swap_path pid 0 (fun _ => 0) with
  | Some m =>
      let s := until_nul 20 (m <$> zrange 0 20) in
      if Z.of_nat (length s) <? DIGITS then Some s else None
  | None => None
  end.

Section Sysfile.
Context {S : Type} `{TxDisk S}.

(** Pipes live in pages, so files hold the physical memory. *)
#[global] Program Instance kfile_mem : HasMem (kfile S) := {|
  f_mem := Lens (fun k => pages_of (k_pw k))
                (fun m k => mk_kfile (k_fs k) (mk_pworld (pipes (k_pw k)) m) (k_ft k))
|}.
Next Obligation. done. Qed.
Next Obligation. done. Qed.
Next Obligation. by intros [? []]. Qed.

Abbreviation K := (kern (kfile S)).

Variables (kend : Z).
Variable dev_read : Z -> option (nat -> Z -> M (fsst S) (Z * list Z)).
Variable dev_write : Z -> option (nat -> list Z -> Z -> M (fsst S) Z).
Variable init_log : Z -> M S unit.

(** What proc.c uses of these files. *)
Definition kfile_ops : FileOps (kfile S) := {|
  Proc.filedup f := zoom kft (File.filedup f);
  Proc.fileclose f := File.fileclose kend f;
  Proc.idup i := zoom kfs (Fs.idup i);
  Proc.iput i := zoom kfs (Fs.iput i);
  Proc.begin_op := File.begin_op;
  Proc.end_op := File.end_op;
  Proc.namei_root := zoom kfs (let* o := Fs.namei dev_read 0 [SLASH] in deref o);
  Proc.iinit dev := zoom kfs (Fs.iinit dev);
  Proc.initlog dev := zoom kfs (zoom fd (init_log dev))
|}.

Definition fs {A} (m : M (fsst S) A) : M K A := zoom FS (zoom kfs m).
Definition ft {A} (m : M ftable A) : M K A := zoom FS (zoom kft m).
Definition fclose (f : nat) : M K unit := zoom FS (File.fileclose kend f).

(** [proc->cwd] for [path]: an absolute path does not look at it. *)
Definition cwd_for (me : nat) (path : list Z) : M K nat :=
  let* c := get_p cwd me in
  match path with
  | x :: _ => if x =? SLASH then ret (default 0%nat c) else deref c
  | [] => deref c
  end.

Definition set_fd (me fd : nat) (o : option nat) : M K unit :=
  upd_p me (fun p => set_ofile (<[fd := o]> (ofile p)) p).

(** The descriptor and the file; [None] is -1. *)
Definition argfd (me : nat) (n : Z) : M K (option (nat * nat)) :=
  let* d := argint me n in
  match d with
  | None => ret None
  | Some d =>
      if (d <? 0) || (d >=? Z.of_nat NOFILE) then ret None
      else
        let* fds := get_p ofile me in
        ret (match fds !! Z.to_nat d with
             | Some (Some f) => Some (Z.to_nat d, f)
             | _ => None
             end)
  end.

(** The search of [fdalloc]. *)
Definition free_fd {A} (l : list (option A)) : option nat := fst <$> list_find (fun o => o = None) l.

Definition fdalloc (me f : nat) : M K (option nat) :=
  let* fds := get_p ofile me in
  match free_fd fds with
  | Some d => set_fd me d (Some f) ;; ret (Some d)
  | None => ret None
  end.

Definition sys_dup (me : nat) : M K Z :=
  let* a := argfd me 0 in
  match a with
  | None => ret (-1)
  | Some (_, f) =>
      let* d := fdalloc me f in
      match d with
      | None => ret (-1)
      | Some d =>
          ft (File.filedup f) ;;
          ret (Z.of_nat d)
      end
  end.

(** The arguments of [sys_read] and [sys_write]: file, buffer and count. *)
Definition argbuf (me : nat) : M K (option (nat * Z * Z)) :=
  let* a := argfd me 0 in
  match a with
  | None => ret None
  | Some (_, f) =>
      let* n := argint me 2 in
      match n with
      | None => ret None
      | Some n =>
          let* p := argptr me 1 n in
          ret ((fun p => (f, p, n)) <$> p)
      end
  end.

(** [fileread(f, p, n)]; a process that sleeps in it does this again. *)
Definition read_turn (me f : nat) (p n : Z) : M K sysret :=
  let* dead := get_p killed me in
  let* r := zoom FS (fileread dev_read dead f n) in
  match r with
  | RRet r l => store_user p l ;; ret (SRet r)
  | RSleep => ret (SSleep 0)
  end.

Definition sys_read (me : nat) : M K sysret :=
  let* a := argbuf me in
  match a with
  | None => ret (SRet (-1))
  | Some (f, p, n) => read_turn me f p n
  end.

(** [filewrite(f, p, n)], in a pipe from index [i] on. *)
Definition write_turn (me f : nat) (p n i : Z) : M K sysret :=
  let* dead := get_p killed me in
  let* l := user_bytes p (Z.to_nat n) in
  let* r := zoom FS (filewrite dev_write dead f l n (Z.to_nat i)) in
  ret (match r with WRet r _ => SRet r | WSleep i => SSleep (Z.of_nat i) end).

Definition sys_write (me : nat) : M K sysret :=
  let* a := argbuf me in
  match a with
  | None => ret (SRet (-1))
  | Some (f, p, n) => write_turn me f p n 0
  end.

Definition sys_close (me : nat) : M K Z :=
  let* a := argfd me 0 in
  match a with
  | None => ret (-1)
  | Some (d, f) =>
      set_fd me d None ;;
      fclose f ;;
      ret 0
  end.

Definition sys_fstat (me : nat) : M K Z :=
  let* a := argfd me 0 in
  match a with
  | None => ret (-1)
  | Some (_, f) =>
      let* p := argptr me 1 STAT_SIZE in
      match p with
      | None => ret (-1)
      | Some p =>
          let* st := zoom FS (filestat f) in
          match st with
          | None => ret (-1)
          | Some st =>
              for_all (stat_fields st) (fun '(off, l) => store_user (u32 (p + off)) l) ;;
              ret 0
          end
      end
  end.

(** A string argument; [None] is -1. *)
Definition argpath (me : nat) (n : Z) : M K (option (list Z)) :=
  let* s := argstr me n in
  match s with
  | None => ret None
  | Some s => let* l := string_at s in ret (Some l)
  end.

Definition sys_link (me : nat) : M K Z :=
  let* old := argpath me 0 in
  match old with
  | None => ret (-1)
  | Some old =>
      let* new := argpath me 1 in
      match new with
      | None => ret (-1)
      | Some new =>
          let* c := cwd_for me old in
          cwd_for me new ;;
          fs (link dev_read dev_write c old new)
      end
  end.

Definition sys_unlink (me : nat) : M K Z :=
  let* path := argpath me 0 in
  match path with
  | None => ret (-1)
  | Some path =>
      let* c := cwd_for me path in
      fs (unlink dev_read dev_write c path)
  end.

(** [filealloc] and [fdalloc] of [sys_open]: the file and the descriptor, or
    nothing with the file closed again. *)
Definition open_file (me : nat) : M K (option (nat * nat)) :=
  let* f := ft filealloc in
  match f with
  | None => ret None
  | Some f =>
      let* d := fdalloc me f in
      match d with
      | None => fclose f ;; ret None
      | Some d => ret (Some (f, d))
      end
  end.

(** The first half of [sys_open]: the inode, locked. *)
Definition open_inode (cwd : nat) (path : list Z) (omode : Z) : M (fsst S) (option nat) :=
  if has omode O_CREATE then create dev_read dev_write cwd path T_FILE 0 0
  else
    let* o := namei dev_read cwd path in
    match o with
    | None => ret None
    | Some i =>
        Fs.ilock i ;;
        let* ip := ino i in
        if (i_type ip =? T_DIR) && negb (omode =? O_RDONLY) then
          Fs.iunlockput i ;;
          ret None
        else ret (Some i)
    end.

Definition sys_open (me : nat) : M K Z :=
  let* path := argpath me 0 in
  let* omode := match path with Some _ => argint me 1 | None => ret None end in
  match path, omode with
  | Some path, Some omode =>
      fs tbegin ;;
      let* c := cwd_for me path in
      let* o := fs (open_inode c path omode) in
      match o with
      | None =>
          fs tend ;;
          ret (-1)
      | Some i =>
          let* o := open_file me in
          match o with
          | None =>
              fs (Fs.iunlockput i) ;;
              fs tend ;;
              ret (-1)
          | Some (f, d) =>
              fs (Fs.iunlock i) ;;
              fs tend ;;
              ft (upd_file f (set_inode i 0 (negb (has omode O_WRONLY)) (has omode O_WRONLY || has omode O_RDWR))) ;;
              ret (Z.of_nat d)
          end
      end
  | _, _ => ret (-1)
  end.

(** [sys_mkdir] and [sys_mknod] after their arguments. *)
Definition make_node (me : nat) (path : option (list Z)) (type major minor : Z) : M K Z :=
  let* o :=
    match path with
    | None => ret None
    | Some path => let* c := cwd_for me path in fs (create dev_read dev_write c path type major minor)
    end in
  match o with
  | None =>
      fs tend ;;
      ret (-1)
  | Some i =>
      fs (Fs.iunlockput i) ;;
      fs tend ;;
      ret 0
  end.

Definition sys_mkdir (me : nat) : M K Z :=
  fs tbegin ;;
  let* path := argpath me 0 in
  make_node me path T_DIR 0 0.

Definition sys_mknod (me : nat) : M K Z :=
  fs tbegin ;;
  let* path := argpath me 0 in
  let* major := match path with Some _ => argint me 1 | None => ret None end in
  let* minor := match major with Some _ => argint me 2 | None => ret None end in
  match major, minor with
  | Some major, Some minor => make_node me path T_DEV major minor
  | _, _ => make_node me None T_DEV 0 0
  end.

Definition sys_chdir (me : nat) : M K Z :=
  fs tbegin ;;
  let* path := argpath me 0 in
  let* o :=
    match path with
    | None => ret None
    | Some path => let* c := cwd_for me path in fs (namei dev_read c path)
    end in
  match o with
  | None =>
      fs tend ;;
      ret (-1)
  | Some i =>
      fs (Fs.ilock i) ;;
      let* ip := fs (ino i) in
      if negb (i_type ip =? T_DIR) then
        fs (Fs.iunlockput i) ;;
        fs tend ;;
        ret (-1)
      else
        fs (Fs.iunlock i) ;;
        let* c := get_p cwd me in
        let* c := deref c in
        fs (Fs.iput c) ;;
        fs tend ;;
        upd_p me (set_cwd (Some i)) ;;
        ret 0
  end.

(** The loop of [sys_exec]: the argument strings, [None] for -1. *)
Fixpoint exec_args (n : nat) (me : nat) (uargv : Z) : M K (option (list (list Z))) :=
  match n with
  | O => ret None
  | Datatypes.S n =>
      let* a := fetchint me uargv in
      match a with
      | None => ret None
      | Some a =>
          if u32 a =? 0 then ret (Some [])
          else
            let* s := fetchstr me (u32 a) in
            match s with
            | None => ret None
            | Some s =>
                let* l := string_at s in
                let* rest := exec_args n me (u32 (uargv + 4)) in
                ret (cons l <$> rest)
            end
      end
  end.

Definition sys_pipe (me : nat) : M K Z :=
  let* p := argptr me 0 8 in
  match p with
  | None => ret (-1)
  | Some p =>
      let* o := zoom FS (pipealloc kend) in
      match o with
      | None => ret (-1)
      | Some (rf, wf) =>
          let* d0 := fdalloc me rf in
          match d0 with
          | None => fclose rf ;; fclose wf ;; ret (-1)
          | Some d0 =>
              let* d1 := fdalloc me wf in
              match d1 with
              | None => set_fd me d0 None ;; fclose rf ;; fclose wf ;; ret (-1)
              | Some d1 =>
                  store_user p (put32 [0; 0; 0; 0] 0 (Z.of_nat d0)) ;;
                  store_user (u32 (p + 4)) (put32 [0; 0; 0; 0] 0 (Z.of_nat d1)) ;;
                  ret 0
              end
          end
      end
  end.

(** ** Swap files *)

Definition removeSwapFile (p : nat) : M K Z :=
  let* pid := get_p pid p in
  let* path := deref (swap_name pid) in
  let* f := get_p swapFile p in
  match f with
  | None => ret (-1)
  | Some f =>
      fclose f ;;
      fs (unlink dev_read dev_write 0 path)
  end.

(** A null inode is used without a test. *)
Definition createSwapFile (p : nat) : M K Z :=
  let* pid := get_p pid p in
  let* path := deref (swap_name pid) in
  fs tbegin ;;
  let* o := fs (create dev_read dev_write 0 path T_FILE 0 0) in
  let* i := deref o in
  fs (Fs.iunlock i) ;;
  let* f := ft filealloc in
  upd_p p (set_swapFile f) ;;
  match f with
  | None => panic "no slot for files on /store"
  | Some f =>
      ft (upd_file f (set_inode i 0 true true)) ;;
      fs tend ;;
      ret 0
  end.

(** The bytes of [buffer] are [l]. *)
Definition writeToSwapFile (p : nat) (l : list Z) (placeOnFile size : Z) : M K wres :=
  let* f := get_p swapFile p in
  let* f := deref f in
  ft (upd_file f (set_foff placeOnFile)) ;;
  let* dead := get_p killed p in
  zoom FS (filewrite dev_write dead f l (s32 size) 0).

Definition readFromSwapFile (p : nat) (placeOnFile size : Z) : M K rres :=
  let* f := get_p swapFile p in
  let* f := deref f in
  ft (upd_file f (set_foff placeOnFile)) ;;
  let* dead := get_p killed p in
  zoom FS (fileread dev_read dead f (s32 size)).

End Sysfile.
