(* ===== verification/Exec.v ===== *)
(** * Programs: exec.c, and loaduvm of vm.c *)

From stdpp Require Import base numbers list gmap strings.
From S2P Require Import Prelude Bytes Mem Str Kalloc Buf Log Pipe Fs File Links Vm Proc Syscall Sysfile.

Open Scope Z_scope.

(** ** elf.h *)

Definition ELF_MAGIC : Z := 0x464C457F.
Definition ELF_PROG_LOAD : Z := 1.

(** [sizeof(struct elfhdr)], [sizeof(struct proghdr)], and the fields the code
    reads. *)
Definition ELFHDR_SIZE : Z := 52.
Definition PROGHDR_SIZE : Z := 32.

Record elfhdr := mk_elfhdr { e_magic : Z; e_entry : Z; e_phoff : Z; e_phnum : Z }.
Record proghdr := mk_proghdr { ph_type : Z; ph_off : Z; ph_vaddr : Z; ph_filesz : Z; ph_memsz : Z }.

Definition elfhdr_of (l : list Z) : elfhdr :=
  mk_elfhdr (get32 l 0) (get32 l 24) (get32 l 28) (get16 l 44).
Definition proghdr_of (l : list Z) : proghdr :=
  mk_proghdr (get32 l 0) (get32 l 4) (get32 l 8) (get32 l 16) (get32 l 20).

(** ** The user stack *)

(** One turn of the loop over [argv]: where string [s] goes below [sp]. *)
Definition push_string (sp : Z) (s : list Z) : Z :=
  Z.land (u32 (sp - (Z.of_nat (length s) + 1))) (u32 (Z.lnot 3)).

(** [ustack]: fake return address, [argc], [argv], and the pointers. *)
Definition ustack (sp : Z) (ptrs : list Z) : list Z :=
  let argc := Z.of_nat (length ptrs) in
  [0xffffffff; argc; u32 (sp - (argc + 1) * 4)] ++ ptrs ++ [0].

Definition word_bytes (x : Z) : list Z := put32 [0; 0; 0; 0] 0 x.

(** [last] after the loop over [path]: what follows the last slash. *)
Fixpoint base_name (s last : list Z) : list Z :=
  match s with
  | [] => last
  | c :: s' => base_name s' (if c =? SLASH then s' else last)
  end.

Section Exec.
Context {S : Type} `{TxDisk S}.

Abbreviation K := (kern (kfile S)).

Variables (kend kdata : Z).
Variable dev_read : Z -> option (nat -> Z -> M (fsst S) (Z * list Z)).

(** The loop of [loaduvm]: the bytes read go to the page that is mapped. *)
Fixpoint loaduvm_loop (fuel : nat) (pgdir addr : Z) (ip : nat) (offset i size : Z) : M K Z :=
  if i <? size then
    match fuel with
    | O => fun _ => ([], NoFuel)
    | Datatypes.S k =>
        let* pte := zoom PM (walkpgdir pgdir (u32 (addr + i)) false) in
        if pte =? 0 then panic "loaduvm: address should exist"
        else
          let* x := zoom PM (read_pte pte) in
          let pa := PTE_ADDR x in
          let n := if size - i <? PGSIZE then size - i else PGSIZE in
          let* '(r, l) := fs (readi dev_read ip (u32 (offset + i)) n) in
          zoom PM (modify (on_ram (fun m => filled m (p2v pa) (Z.of_nat (length l)) (fun j => nth (Z.to_nat j) l 0)))) ;;
          if negb (u32 r =? n) then ret (-1)
          else loaduvm_loop k pgdir addr ip offset (u32 (i + PGSIZE)) size
    end
  else ret 0.

Definition loaduvm (pgdir addr : Z) (ip : nat) (offset size : Z) : M K Z :=
  if negb (addr `mod` PGSIZE =? 0) then panic "loaduvm: addr must be page aligned"
  else loaduvm_loop (Z.to_nat (2 ^ 20)) pgdir addr ip offset 0 size.

(** The loop over the program headers, [n] of them left at [off]: the size of
    the image, [None] for [goto bad]. *)
Fixpoint load_segments (n : nat) (pgdir : Z) (ip : nat) (off size : Z) : M K (option Z) :=
  match n with
  | O => ret (Some size)
  | Datatypes.S n =>
      let* '(r, l) := fs (readi dev_read ip (u32 off) PROGHDR_SIZE) in
      if negb (r =? PROGHDR_SIZE) then ret None
      else
        let ph := proghdr_of l in
        if negb (ph_type ph =? ELF_PROG_LOAD) then load_segments n pgdir ip (off + PROGHDR_SIZE) size
        else if ph_memsz ph <? ph_filesz ph then ret None
        else
          let* size := zoom PM (allocuvm kend pgdir size (u32 (ph_vaddr ph + ph_memsz ph))) in
          if size =? 0 then ret None
          else
            let* r := loaduvm pgdir (ph_vaddr ph) ip (ph_off ph) (ph_filesz ph) in
            if r <? 0 then ret None
            else load_segments n pgdir ip (off + PROGHDR_SIZE) size
  end.

(** The loop over [argv]: the stack pointer and the pointers to the strings. *)
Fixpoint push_args (argc : nat) (pgdir sp : Z) (argv : list (list Z)) : M K (option (Z * list Z)) :=
  match argv with
  | [] => ret (Some (sp, []))
  | s :: argv =>
      if (MAXARG <=? argc)%nat then ret None
      else
        let sp := push_string sp s in
        let* r := zoom PM (copyout pgdir sp (s ++ [0]) (Z.of_nat (length s) + 1)) in
        if r <? 0 then ret None
        else
          let* o := push_args (Datatypes.S argc) pgdir sp argv in
          ret ((fun '(sp', ptrs) => (sp', sp :: ptrs)) <$> o)
  end.

(** [exec] up to the end of the transaction: the page table, the size of the
    image and the entry point.  [stack] is what the local [elf] held before. *)
Definition exec_image (me : nat) (path : list Z) (stack : list Z) : M K (option (Z * Z * Z)) :=
  let bad (pgdir : Z) (ip : nat) : M K (option (Z * Z * Z)) :=
    when (negb (pgdir =? 0)) (zoom PM (freevm kend pgdir)) ;;
    fs (Fs.iunlockput ip) ;;
    fs tend ;;
    ret None in
  fs tbegin ;;
  let* c := cwd_for me path in
  let* o := fs (namei dev_read c path) in
  match o with
  | None => fs tend ;; ret None
  | Some ip =>
      fs (Fs.ilock ip) ;;
      let* '(r, l) := fs (readi dev_read ip 0 ELFHDR_SIZE) in
      let elf := elfhdr_of (splice stack 0 l) in
      if u32 r <? ELFHDR_SIZE then bad 0 ip
      else if negb (e_magic elf =? ELF_MAGIC) then bad 0 ip
      else
        let* pgdir := zoom PM (setupkvm kdata) in
        if pgdir =? 0 then bad 0 ip
        else
          let* size := load_segments (Z.to_nat (e_phnum elf)) pgdir ip (s32 (e_phoff elf)) 0 in
          match size with
          | None => bad pgdir ip
          | Some size =>
              fs (Fs.iunlockput ip) ;;
              fs tend ;;
              ret (Some (pgdir, size, e_entry elf))
          end
  end.

(** The user stack: the new size and stack pointer. *)
Definition exec_stack (pgdir size : Z) (argv : list (list Z)) : M K (option (Z * Z)) :=
  let size := PGROUNDUP size in
  let* size := zoom PM (allocuvm kend pgdir size (u32 (size + 2 * PGSIZE))) in
  if size =? 0 then ret None
  else
    zoom PM (clearpteu pgdir (u32 (size - 2 * PGSIZE))) ;;
    let* o := push_args 0 pgdir size argv in
    match o with
    | None => ret None
    | Some (sp, ptrs) =>
        let words := ustack sp ptrs in
        let len := 4 * Z.of_nat (length words) in
        let sp := u32 (sp - len) in
        let* r := zoom PM (copyout pgdir sp (words ≫= word_bytes) len) in
        if r <? 0 then ret None else ret (Some (size, sp))
    end.

Definition exec (me : nat) (path : list Z) (argv : list (list Z)) (stack : list Z) : M K Z :=
  let* o := exec_image me path stack in
  match o with
  | None => ret (-1)
  | Some (pgdir, size, entry) =>
      let* o := exec_stack pgdir size argv in
      match o with
      | None =>
          zoom PM (freevm kend pgdir) ;;
          ret (-1)
      | Some (size, sp) =>
          upd_p me (copy_name (base_name path path)) ;;
          let* oldpgdir := get_p Proc.pgdir me in
          upd_p me (set_pgdir pgdir) ;;
          upd_p me (set_sz size) ;;
          let* tf := get_p tf me in
          store (tf + TF_EIP) entry ;;
          store (tf + TF_ESP) sp ;;
          switchuvm me ;;
          zoom PM (freevm kend oldpgdir) ;;
          ret 0
      end
  end.

Definition sys_exec (me : nat) (stack : list Z) : M K Z :=
  let* path := argpath me 0 in
  let* uargv := match path with Some _ => argint me 1 | None => ret None end in
  match path, uargv with
  | Some path, Some uargv =>
      let* argv := exec_args MAXARG me (u32 uargv) in
      match argv with
      | None => ret (-1)
      | Some argv => exec me path argv stack
      end
  | _, _ => ret (-1)
  end.

End Exec.
