(* ===== verification/Trap.v ===== *)
(** * Traps: the dispatch of syscall.c, and trap.c *)

From stdpp Require Import base numbers list gmap strings.
From S2P Require Import Prelude Bytes Mem Str Kalloc Buf Log Pipe Fs File Links Vm Proc Syscall Sysfile Exec Segments.

Open Scope Z_scope.

(** ** syscall.h *)

Definition SYS_fork : Z := 1.
Definition SYS_exit : Z := 2.
Definition SYS_wait : Z := 3.
Definition SYS_pipe : Z := 4.
Definition SYS_read : Z := 5.
Definition SYS_kill : Z := 6.
Definition SYS_exec : Z := 7.
Definition SYS_fstat : Z := 8.
Definition SYS_chdir : Z := 9.
Definition SYS_dup : Z := 10.
Definition SYS_getpid : Z := 11.
Definition SYS_sbrk : Z := 12.
Definition SYS_sleep : Z := 13.
Definition SYS_uptime : Z := 14.
Definition SYS_open : Z := 15.
Definition SYS_write : Z := 16.
Definition SYS_mknod : Z := 17.
Definition SYS_unlink : Z := 18.
Definition SYS_link : Z := 19.
Definition SYS_mkdir : Z := 20.
Definition SYS_close : Z := 21.

(** An argument of [cprintf]: a number or a string. *)
Inductive carg := CInt (z : Z) | CStr (s : list Z).

Section Trap.
Context {S : Type} `{TxDisk S}.

Abbreviation K := (kern (kfile S)).

Variables (kend kdata forkret_addr trapret_addr : Z).
Variable dev_read : Z -> option (nat -> Z -> M (fsst S) (Z * list Z)).
Variable dev_write : Z -> option (nat -> list Z -> Z -> M (fsst S) Z).
Variable init_log : Z -> M S unit.

#[local] Instance ops : FileOps (kfile S) := kfile_ops kend dev_read init_log.

(** [cprintf] of console.c, given its format, without the newline at its end, and its
    arguments. *)
Variable cprintf : string -> list carg -> M K unit.

(** A call that does not go on in the middle. *)
Definition plain (m : M K Z) : M K sysret := let* r := m in ret (SRet r).

(** [syscalls]; [stack] is what the kernel stack held where [exec] puts its
    locals. *)
Definition syscalls (me : nat) (stack : list Z) (num : Z) : option (M K sysret) :=
  if num =? SYS_fork then Some (plain (sys_fork kend kdata forkret_addr trapret_addr me))
  else if num =? SYS_exit then Some (sys_exit me)
  else if num =? SYS_wait then Some (plain (sys_wait kend me))
  else if num =? SYS_pipe then Some (plain (sys_pipe kend me))
  else if num =? SYS_read then Some (sys_read dev_read me)
  else if num =? SYS_kill then Some (plain (sys_kill me))
  else if num =? SYS_exec then Some (plain (sys_exec kend kdata dev_read me stack))
  else if num =? SYS_fstat then Some (plain (sys_fstat me))
  else if num =? SYS_chdir then Some (plain (sys_chdir dev_read me))
  else if num =? SYS_dup then Some (plain (sys_dup me))
  else if num =? SYS_getpid then Some (plain (sys_getpid me))
  else if num =? SYS_sbrk then Some (plain (sys_sbrk kend me))
  else if num =? SYS_sleep then Some (sys_sleep me)
  else if num =? SYS_uptime then Some (plain sys_uptime)
  else if num =? SYS_open then Some (plain (sys_open kend dev_read dev_write me))
  else if num =? SYS_write then Some (sys_write dev_write me)
  else if num =? SYS_mknod then Some (plain (sys_mknod dev_read dev_write me))
  else if num =? SYS_unlink then Some (plain (sys_unlink dev_read dev_write me))
  else if num =? SYS_link then Some (plain (sys_link dev_read dev_write me))
  else if num =? SYS_mkdir then Some (plain (sys_mkdir dev_read dev_write me))
  else if num =? SYS_close then Some (plain (sys_close kend me))
  else None.

(** [proc->tf->eax = r], unless the call went to sleep. *)
Definition set_eax (me : nat) (r : sysret) : M K sysret :=
  match r with
  | SRet v =>
      let* tf := get_p tf me in
      store (tf + TF_EAX) v ;;
      ret r
  | _ => ret r
  end.

Definition syscall (me : nat) (stack : list Z) : M K sysret :=
  let* tf := get_p tf me in
  let* num := load (tf + TF_EAX) in
  match syscalls me stack (s32 num) with
  | Some call =>
      let* r := call in
      set_eax me r
  | None =>
      let* id := get_p pid me in
      let* nm := get_p name me in
      cprintf "%d %s: unknown sys call %d" [CInt id; CStr nm; CInt (s32 num)] ;;
      set_eax me (SRet (-1))
  end.

(** ** trap.c *)

(** What an interrupt does on the devices: ide.c, kbd.c, uart.c and lapic.c; the
    address of the last page fault. *)
Variables (ideintr kbdintr uartintr lapiceoi : M K unit) (rcr2 : M K Z).

(** [tickslock] held around a tick. *)
Definition tick : M K unit :=
  acquire tickslock ;;
  modify (fun k => mk_kern (kpt k) (kfiles k) (kcr3 k) (kfirst k) (u32 (kticks k + 1)) (ktlock k)) ;;
  zoom PT (Proc.wakeup ChTicks) ;;
  release tickslock.

(** How a trap ends: back to where it came from, off the CPU after [exit] or
    [yield], or asleep in a system call. *)
Inductive trapret := TReturn | TExit | TYield | TSleep (local : Z).

(** [tf->cs], a [ushort]. *)
Definition tf_cs (tf : Z) : M K Z := let* w := load (tf + TF_CS) in ret (w `mod` 2 ^ 16).

(** The switch on [trapno] on CPU [cpu] with current process [proc]: a process
    that misbehaved is marked as killed. *)
Definition interrupt (cpu : nat) (proc : option nat) (tf trapno : Z) (user : bool) : M K unit :=
  if trapno =? T_IRQ0 + IRQ_TIMER then when (cpu =? 0)%nat tick ;; lapiceoi
  else if trapno =? T_IRQ0 + IRQ_IDE then ideintr ;; lapiceoi
  else if trapno =? T_IRQ0 + IRQ_IDE + 1 then ret tt
  else if trapno =? T_IRQ0 + IRQ_KBD then kbdintr ;; lapiceoi
  else if trapno =? T_IRQ0 + IRQ_COM1 then uartintr ;; lapiceoi
  else if (trapno =? T_IRQ0 + 7) || (trapno =? T_IRQ0 + IRQ_SPURIOUS) then
    let* cs := tf_cs tf in
    let* eip := load (tf + TF_EIP) in
    cprintf "cpu%d: spurious interrupt at %x:%x" [CInt (Z.of_nat cpu); CInt cs; CInt eip] ;;
    lapiceoi
  else
    let* eip := load (tf + TF_EIP) in
    let* cr2 := rcr2 in
    match (if user then proc else None) with
    | Some me =>
        let* id := get_p pid me in
        let* nm := get_p name me in
        let* err := load (tf + TF_ERR) in
        cprintf "pid %d %s: trap %d err %d on cpu %d eip 0x%x addr 0x%x--kill proc"
          [CInt id; CStr nm; CInt trapno; CInt err; CInt (Z.of_nat cpu); CInt eip; CInt cr2] ;;
        upd_p me (set_killed true)
    | None =>
        cprintf "unexpected trap %d from cpu %d eip %x (cr2=0x%x)" [CInt trapno; CInt (Z.of_nat cpu); CInt eip; CInt cr2] ;;
        panic "trap"
    end.

(** [if(proc->killed) exit();] *)
Definition exit_if_killed (me : nat) (r : trapret) : M K trapret :=
  let* dead := get_p killed me in
  if dead then exit me ;; ret TExit else ret r.

(** [trap]; [user] is [(tf->cs & 3) == DPL_USER], and a trap comes from ring 0
    or ring 3.  After a [yield] the process goes on in [trap_resume]. *)
Definition trap (cpu : nat) (proc : option nat) (tf trapno : Z) (user : bool) (stack : list Z) : M K trapret :=
  if trapno =? T_SYSCALL then
    let* me := deref proc in
    let* dead := get_p killed me in
    if dead then exit me ;; ret TExit
    else
      upd_p me (fun p => set_stack tf (context p) p) ;;
      let* r := syscall me stack in
      match r with
      | SSleep i => ret (TSleep i)
      | SExit => ret TExit
      | SRet _ => exit_if_killed me TReturn
      end
  else
    interrupt cpu proc tf trapno user ;;
    match proc with
    | None => ret TReturn
    | Some me =>
        let* dead := get_p killed me in
        if dead && user then exit me ;; ret TExit
        else
          let* st := get_p state me in
          if bool_decide (st = RUNNING) && (trapno =? T_IRQ0 + IRQ_TIMER) then
            zoom PT (yield me) ;;
            ret TYield
          else if user then exit_if_killed me TReturn
          else ret TReturn
    end.

(** The last test of [trap], when the process runs again after [yield]: [yield]
    releases [ptable.lock] first. *)
Definition trap_resume (me : nat) (user : bool) : M K trapret :=
  zoom PT (release ptlock) ;;
  if user then exit_if_killed me TReturn else ret TReturn.

End Trap.
