(* ===== verification/Args.v ===== *)
(** * The memory of the current process, as the kernel reads it

    For a process whose pages are mapped up to its size, fetching arguments never
    faults, returns what the process stored, and accepts exactly the pointers into
    its memory. *)

From stdpp Require Import base numbers list gmap strings.
From S2P Require Import Prelude Bytes Mem Str Kalloc Vm VmTable VmSpace Uvm Proc ProcSys Syscall Processes.

Open Scope Z_scope.

(** The bytes from [va] on. *)
Definition ustring (s : pmem) (U : gmap Z (Z * Z)) (va : Z) (n : nat) : list Z := ubyte s U <$> zrange va n.

Lemma zrange_S a n : zrange a (S n) = a :: zrange (a + 1) n.
Proof.
  unfold zrange. cbn [seq]. rewrite fmap_cons, <- fmap_S_seq, <- list_fmap_compose. f_equal; [cbn; lia|].
  apply list_fmap_ext. intros i x _. cbn. lia.
Qed.

Section Args.
Variable kend : Z.
Hypothesis Hend : KERNBASE <= kend.

(** The hardware finds the page the address space has at [va]. *)
Lemma mmu_read s l pgdir T U va p f :
  space kend s l pgdir T U -> 0 <= va < KERNBASE -> U !! vpn va = Some (p, f) ->
  mmu (ram s) (v2p pgdir) va false = Some (p + va `mod` PGSIZE).
Proof.
  intros Hs Hva HU. assert (0 <= va < 2 ^ 32) as Hva' by (unfold KERNBASE in *; lia).
  pose proof (sp_vm _ _ _ _ _ _ Hs) as Hi. destruct (sp_page _ _ _ _ _ _ Hs _ _ _ HU) as (Hn & Hg & _ & _ & Hf).
  pose proof (sp_slot _ _ _ _ _ _ Hs _ Hn) as Hsl. rewrite HU in Hsl.
  unfold mmu, allowed. rewrite (p2v_v2p kend Hend) by apply Hi.
  destruct (pde_at_vpn kend Hend _ _ _ _ va Hi Hva') as [E _]. rewrite E.
  pose proof (vi_pde _ _ _ _ _ Hi (dirx (vpn va)) (dirx_range _ (vpn_range _ Hva'))) as Hp.
  unfold slot in Hsl. destruct (T !! dirx (vpn va)) as [t|] eqn:Ht.
  2: { pose proof (entry_present (v2p p) f) as Hpr. rewrite <- Hsl in Hpr. done. }
  destruct Hp as [Hp Haddr], (vi_tab _ _ _ _ _ Hi _ _ Ht) as (Hgt & _). unfold present in Hp. rewrite Hp, Haddr.
  cbn [negb orb andb]. rewrite (p2v_v2p kend Hend), (pte_at_vpn kend Hend) by done. rewrite Hsl.
  pose proof (entry_present (v2p p) f) as Hpr. unfold present in Hpr. rewrite Hpr. cbn [negb orb andb].
  destruct (v2p_page kend Hend p Hg) as (_ & ? & ?).
  by rewrite entry_addr, (p2v_v2p kend Hend).
Qed.

(** ** The current process *)

Context {F : Type} `{HasMem F}.

(** Process [p], number [me], runs: its page table is in use and its memory is
    mapped up to its size. *)
Record running (k : kern F) (me : nat) (p : proc) (U : gmap Z (Z * Z)) : Prop := {
  rn_proc : procs (kpt k) !! me = Some p;
  rn_cr3 : kcr3 k = v2p (pgdir p);
  rn_size : 0 <= sz p <= KERNBASE;
  rn_space : exists l T K, space kend (kpm k) l (pgdir p) T U /\ upto U 0 K /\ Z.of_nat (npages (sz p)) <= K
}.

Variables (k : kern F) (me : nat) (p : proc) (U : gmap Z (Z * Z)).
Hypothesis Hrun : running k me p U.

Lemma user_byte_run va :
  0 <= va < sz p -> user_byte va k = ([], Ret (ubyte (kpm k) U va) k).
Proof.
  intros Hva. destruct Hrun as [_ Hcr Hsz (l & T & K & Hs & Hto & HK)]. unfold user_byte, ubyte.
  assert (vpn va < K) as Hn.
  { pose proof (npages_lt (sz p) (vpn va) ltac:(lia)) as Hlt. unfold vpn in *.
    pose proof (Z.mul_div_le va PGSIZE ltac:(done)). zcase; lia. }
  destruct (proj2 (Hto (vpn va) ltac:(unfold vpn; apply Z.div_pos; [lia|done])) Hn) as [[q f] HU]. rewrite HU, Hcr.
  by rewrite (mmu_read _ l (pgdir p) T U va q f) by (done || lia).
Qed.

Lemma user_bytes_run n : forall va,
  0 <= va -> va + Z.of_nat n <= sz p -> user_bytes va n k = ([], Ret (ustring (kpm k) U va n) k).
Proof.
  induction n as [|n IH]; intros va H0 Hn; [done|]. cbn [user_bytes]. unfold ustring. rewrite zrange_S.
  run_with (user_byte_run va ltac:(lia)). by run_with (IH (va + 1) ltac:(lia) ltac:(lia)).
Qed.

(** The word at [addr], as a C [int]. *)
Definition uint_at (addr : Z) : Z := s32 (get32 (ustring (kpm k) U addr 4) 0).

Lemma get_p_me {A} (f : proc -> A) : get_p f me k = ([], Ret (f p) k).
Proof. apply get_p_run, (rn_proc _ _ _ _ Hrun). Qed.

Lemma fetchint_run addr :
  0 <= addr < 2 ^ 32 -> fetchint me addr k = ([], Ret (if addr + 4 <=? sz p then Some (uint_at addr) else None) k).
Proof.
  intros Ha. pose proof (rn_size _ _ _ _ Hrun) as Hsz. unfold KERNBASE in Hsz. unfold fetchint. run_with (get_p_me sz).
  destruct (Z.geb_spec addr (sz p)), (Z.leb_spec (addr + 4) (sz p)); cbn [orb]; try done; try lia.
  - rewrite u32_small by lia. destruct (Z.gtb_spec (addr + 4) (sz p)); [lia|]. unfold user_word.
    erewrite bind_nil; [reflexivity|]. by run_with (user_bytes_run 4 addr ltac:(lia) ltac:(lia)).
  - rewrite u32_small by lia. destruct (Z.gtb_spec (addr + 4) (sz p)); [done|lia].
Qed.

(** Argument [n] of a system call, where the user's [%esp] says it is. *)
Definition arg_addr (n : Z) : Z := u32 (load32 (ram (kpm k)) (tf p + TF_ESP) + 4 + 4 * n).
Definition arg (n : Z) : option Z :=
  if arg_addr n + 4 <=? sz p then Some (uint_at (arg_addr n)) else None.

Lemma load_run a : load a k = ([], Ret (load32 (ram (kpm k)) a) k).
Proof. unfold load, zoom, gets. cbn. unfold kpm. rewrite f_set_get. by destruct k. Qed.

Lemma argint_run n : argint me n k = ([], Ret (arg n) k).
Proof.
  unfold argint. run_with (get_p_me tf). run_with (load_run (tf p + TF_ESP)). apply fetchint_run, u32_range.
Qed.

(** Which pointers [argptr] takes for a block of [size] bytes. *)
Definition accepted (i size : Z) : option Z :=
  if (u32 i <? sz p) && (u32 i + size <=? sz p) then Some (u32 i) else None.

Lemma argptr_run n size :
  0 <= size < 2 ^ 31 -> argptr me n size k = ([], Ret (i ← arg n; accepted i size) k).
Proof.
  intros Hs. pose proof (rn_size _ _ _ _ Hrun) as Hsz. unfold KERNBASE in Hsz. unfold argptr.
  run_with (argint_run n). destruct (arg n) as [i|]; [|done]. cbn [mbind option_bind]. run_with (get_p_me sz).
  pose proof (u32_range i). unfold accepted.
  destruct (Z.geb_spec (u32 i) (sz p)), (Z.ltb_spec (u32 i) (sz p)); try lia; cbn [orb andb]; [done|].
  rewrite (u32_small (u32 i + size)) by lia. zcase; done.
Qed.

(** Where the string at [s] ends within [n] bytes. *)
Lemma string_end_run n : forall s,
  0 <= s -> s + Z.of_nat n <= sz p ->
  exists r, string_end n s k = ([], Ret r k) /\
    match r with
    | Some e => s <= e < s + Z.of_nat n /\ ubyte (kpm k) U e = 0
                /\ forall x, s <= x < e -> ubyte (kpm k) U x <> 0
    | None => forall x, s <= x < s + Z.of_nat n -> ubyte (kpm k) U x <> 0
    end.
Proof.
  induction n as [|n IH]; intros s H0 Hn; cbn [string_end]; [exists None; split; [done|]; intros x Hx; lia|].
  run_with (user_byte_run s ltac:(lia)). destruct (Z.eqb_spec (ubyte (kpm k) U s) 0) as [E|E].
  - eexists. split; [done|]. split; [lia|]. split; [done|intros; lia].
  - destruct (IH (s + 1) ltac:(lia) ltac:(lia)) as (r & Er & Hr). exists r. split; [done|].
    assert (Hx : forall x, s <= x -> (s + 1 <= x -> ubyte (kpm k) U x <> 0) -> ubyte (kpm k) U x <> 0).
    { intros x Hx Hx'. destruct (decide (x = s)) as [->|]; [done|apply Hx'; lia]. }
    destruct r as [e|].
    + destruct Hr as (H1 & H2 & H3). split; [lia|]. split; [done|]. intros x Hr. apply Hx; [lia|]. intros. apply H3. lia.
    + intros x Hr'. apply Hx; [lia|]. intros. apply Hr. lia.
Qed.

Lemma fetchstr_run addr :
  0 <= addr ->
  exists r, fetchstr me addr k = ([], Ret r k) /\
    match r with
    | Some (a, n) => a = addr /\ 0 <= n /\ addr + n < sz p /\ ubyte (kpm k) U (addr + n) = 0
                     /\ string_at (a, n) k = ([], Ret (ustring (kpm k) U addr (Z.to_nat n)) k)
                     /\ Forall (fun c => c <> 0) (ustring (kpm k) U addr (Z.to_nat n))
    | None => forall x, addr <= x < sz p -> ubyte (kpm k) U x <> 0
    end.
Proof.
  intros Ha. unfold fetchstr. run_with (get_p_me sz).
  destruct (Z.geb_spec addr (sz p)); [exists None; split; [done|]; intros x Hx; lia|].
  destruct (string_end_run (Z.to_nat (sz p - addr)) addr Ha ltac:(lia)) as (r & E & Hr). run_with E.
  eexists. split; [done|]. destruct r as [e|]; cbn.
  - destruct Hr as (He & Hz & Hnz). split; [done|]. split; [lia|]. split; [lia|].
    split; [by replace (addr + (e - addr)) with e by lia|]. split.
    + unfold string_at. cbn [fst snd]. apply user_bytes_run; lia.
    + apply Forall_fmap, Forall_forall. intros x Hx%elem_of_zrange. apply Hnz. lia.
  - intros x Hx. apply Hr. lia.
Qed.

End Args.

(** C15: for a running process whose memory is mapped up to its size, fetching
    system call arguments never faults and changes nothing.  [argint] yields
    exactly the int the process stored where its stack pointer says, and fails
    when that is not inside its memory; [argptr] takes a block of [size] bytes
    exactly when all of it lies below the size of the process; [argstr] succeeds
    exactly when a 0 follows inside the memory of the process, and then the whole
    string is readable. *)
Theorem fetch_args {F} `{HasMem F} kend (k : kern F) me p U n :
  KERNBASE <= kend -> running kend k me p U ->
  argint me n k = ([], Ret (arg k p U n) k)
  /\ (forall size, 0 <= size < 2 ^ 31 -> argptr me n size k = ([], Ret (i ← arg k p U n; accepted p i size) k))
  /\ match arg k p U n with
     | None => argstr me n k = ([], Ret None k)
     | Some a => exists r, argstr me n k = ([], Ret r k) /\
         match r with
         | Some (s, len) => s = u32 a /\ 0 <= len /\ s + len < sz p /\ ubyte (kpm k) U (s + len) = 0
             /\ string_at (s, len) k = ([], Ret (ustring (kpm k) U s (Z.to_nat len)) k)
             /\ Forall (fun c => c <> 0) (ustring (kpm k) U s (Z.to_nat len))
         | None => forall x, u32 a <= x < sz p -> ubyte (kpm k) U x <> 0
         end
     end.
Proof.
  intros Hend Hr. split; [by apply (argint_run kend)|]. split; [intros; by apply (argptr_run kend)|].
  pose proof (argint_run kend Hend k me p U Hr n) as Ei. unfold argstr.
  destruct (arg k p U n) as [a|]; run_with Ei; [|done].
  destruct (fetchstr_run kend Hend k me p U Hr (u32 a)) as (r & E & Hspec); [apply u32_range|].
  exists r. split; [done|]. destruct r as [[s len]|]; [|done]. by destruct Hspec as (-> & ?).
Qed.
Lemma fetch_args_witness :
  exists (k : kern pmem) p U, sz p = 20000 /\ argint 0 0 k = ([], Ret (arg k p U 0) k)
    /\ argptr 0 1 100 k = ([], Ret (i ← arg k p U 1; accepted p i 100) k).
Proof.
  destruct grown as (_ & _ & pgdir & s & l & T & U & _ & _ & Hs & Hto & _).
  set (p := set_sz 20000 (set_pgdir pgdir boot_proc)).
  set (k := mk_kern (mk_ptable false [p] (Some 0%nat) 2) s (v2p pgdir) false 0 false).
  assert (running some_end k 0 p U) as Hr.
  { split; [done|done|done|]. by exists l, T, 5. }
  destruct (fetch_args some_end k 0 p U 0) as (E0 & _ & _); [done|done|].
  destruct (fetch_args some_end k 0 p U 1) as (_ & E1 & _); [done|done|].
  exists k, p, U. split; [done|]. split; [exact E0|]. by apply E1.
Defined.
