(* ===== verification/Descriptors.v ===== *)
(** * Descriptors and file references

    What the system calls do to the descriptors of the processes and the reference
    counts of the files. *)

From stdpp Require Import base numbers list gmap strings.
From S2P Require Import Prelude Bytes Mem Str Kalloc Buf Log Pipe Fs File OpenFiles Links Vm Proc ProcSys Syscall Sysfile Exec.

Open Scope Z_scope.

(** ** The file table *)

(** References held: [g], of which the files in [E] are not yet typed. *)
Definition kown (g : nat -> nat) (E : nat -> Prop) (t : ftable) : Prop :=
  refs_ok (t, g) /\ forall f x, files t !! f = Some x -> (0 < g f)%nat -> f_type x = FD_NONE -> E f.

Lemma kown_ext g g' (E E' : nat -> Prop) t :
  (forall f, g f = g' f) -> (forall f, (0 < g f)%nat -> E f -> E' f) -> kown g E t -> kown g' E' t.
Proof.
  intros Hg HE [[H1 H2 H3 H4 H5] Ht]. cbn in *. split.
  - constructor; cbn; try done; intros; rewrite <- Hg in *; eauto.
  - intros f x Hx. rewrite <- Hg. eauto.
Qed.

Lemma filealloc_own g E :
  hoare (kown g E) filealloc (fun o t =>
    match o with
    | Some f => g f = 0%nat /\ kown (held g f 1) (fun x => x = f \/ E x) t
    | None => kown g E t
    end).
Proof.
  intros t e o t' [Hr Ht] Eq. rewrite filealloc_run in Eq by apply Hr.
  destruct (find_free_file (files t)) as [f|] eqn:Ef; [|by injection Eq as <- <- <-].
  apply find_free_file_Some in Ef as (x & Hx & Hx0). rewrite Hx in Eq. injection Eq as <- <- <-.
  pose proof (ro_ref _ Hr f x Hx) as Hh. cbn in Hh. split; [lia|]. split.
  - apply refs_set; [done|by eexists|done|done].
  - unfold with_file, held. cbn [files]. intros f' y [[-> [<- _]]|[Hne Hy]]%list_lookup_insert_Some; [by left|].
    rewrite decide_False by done. intros. right. eauto.
Qed.

Lemma filedup_own g E f :
  hoare (fun t => kown g E t /\ (0 < g f)%nat) (File.filedup f) (fun a t => a = f /\ kown (held g f (g f + 1)) E t).
Proof.
  intros t e a t' [[Hr Ht] Hg] Eq.
  destruct (files t !! f) as [x|] eqn:Hx; [|pose proof (ro_out _ Hr f Hx) as Ho; cbn in Ho; lia].
  pose proof (ro_ref _ Hr f x Hx) as Hh. cbn in Hh. rewrite (filedup_run f x) in Eq by (apply Hr || done).
  destruct (Z.ltb_spec (f_ref x) 1); [done|]. injection Eq as <- <- <-. split; [done|]. split.
  - apply refs_set; [done|by eexists|cbn; lia|lia].
  - unfold with_file, held. cbn [files]. intros f' y [[-> [<- _]]|[Hne Hy]]%list_lookup_insert_Some.
    + intros _. cbn. eauto.
    + rewrite decide_False by done. eauto.
Qed.

Lemma file_drop_own g E f :
  hoare (fun t => kown g E t /\ (0 < g f)%nat) (file_drop f) (fun _ => kown (held g f (g f - 1)) E).
Proof.
  intros t e a t' [[Hr Ht] Hg] Eq.
  destruct (files t !! f) as [x|] eqn:Hx; [|pose proof (ro_out _ Hr f Hx) as Ho; cbn in Ho; lia].
  pose proof (ro_ref _ Hr f x Hx) as Hh. cbn in Hh. rewrite (file_drop_run f x) in Eq by (apply Hr || done).
  destruct (Z.ltb_spec (f_ref x) 1); [done|]. rewrite Z.gtb_ltb in Eq.
  destruct (Z.ltb_spec 0 (f_ref x - 1)); injection Eq as <- <- <-; (split;
    [apply refs_set; [done|by eexists|cbn; lia|cbn; try done; lia]|]); unfold with_file, held; cbn [files];
    intros f' y [[-> [<- _]]|[Hne Hy]]%list_lookup_insert_Some; try (rewrite decide_False by done; eauto);
    rewrite decide_True by done; cbn; intros; eauto; lia.
Qed.

(** A file gets its type. *)
Lemma upd_file_own g (E : nat -> Prop) f u :
  (forall x, f_ref (u x) = f_ref x /\ f_type (u x) <> FD_NONE) -> (0 < g f)%nat ->
  hoare (kown g (fun x => x = f \/ E x)) (upd_file f u) (fun _ => kown g E).
Proof.
  intros Hu Hg t e [] t' [Hr Ht] Eq.
  destruct (files t !! f) as [x|] eqn:Hx; [|pose proof (ro_out _ Hr f Hx) as Ho; cbn in Ho; lia].
  rewrite (upd_file_run f u x) in Eq by done. injection Eq as <- <-. rewrite (ro_lock _ Hr : ft_lock t = false).
  destruct (Hu x) as [Hur Hut]. apply (kown_ext (held g f (g f)) g E E); [|done|].
  { intros f'. unfold held. by destruct (decide (f' = f)) as [->|]. }
  split.
  - apply refs_set; [done|by eexists|rewrite Hur; by apply (ro_ref _ Hr)|lia].
  - unfold with_file, held. cbn [files]. intros f' y [[-> [<- _]]|[Hne Hy]]%list_lookup_insert_Some; [done|].
    rewrite decide_False by done. intros Hp Hn. by destruct (Ht f' y Hy Hp Hn) as [->|].
Qed.

(** ** Files *)

Section Files.
Context {S : Type} `{TxDisk S} (kend : Z).

(** Computations of the layers below leave the file table alone. *)
Lemma kfs_own {A} (P : ftable -> Prop) (m : M (fsst S) A) :
  hoare (fun k => P (k_ft k)) (zoom kfs m) (fun _ k => P (k_ft k)).
Proof. apply hoare_zoom. by intros k HP t e a t' _ _. Qed.
Lemma kpw_own {A} (P : ftable -> Prop) (m : M pworld A) :
  hoare (fun k : kfile S => P (k_ft k)) (zoom kpw m) (fun _ k => P (k_ft k)).
Proof. apply hoare_zoom. by intros k HP t e a t' _ _. Qed.
Lemma kft_own {A} (P : ftable -> Prop) (m : M ftable A) Q :
  hoare P m Q -> hoare (fun k : kfile S => P (k_ft k)) (zoom kft m) (fun a k => Q a (k_ft k)).
Proof. intros Hm. apply hoare_zoom. intros k HP t e a t' -> E. by eapply Hm. Qed.

Lemma fileclose_own g E f :
  (0 < g f)%nat -> hoare (fun k => kown g E (k_ft k)) (File.fileclose kend f) (fun _ k => kown (held g f (g f - 1)) E (k_ft k)).
Proof.
  intros Hg. unfold File.fileclose. eapply hoare_bind.
  { apply (kft_own (kown g E)). eapply hoare_pre; [apply (file_drop_own g E f)|done]. }
  set (P := fun k : kfile S => kown (held g f (g f - 1)) E (k_ft k)).
  intros [ff|]; [|apply (hoare_skip P)]. destruct (f_type ff); [apply (hoare_skip P)|apply kpw_own|].
  unfold begin_op, end_op.
  apply (hoare_keep P); [apply kfs_own|intros _]. apply (hoare_keep P); [apply kfs_own|intros _]. apply kfs_own.
Qed.

Lemma pipealloc_own g E :
  hoare (fun k => kown g E (k_ft k)) (pipealloc kend) (fun o k =>
    match o with
    | Some (f0, f1) => kown (fun f => g f + (if decide (f = f0) then 1 else 0) + (if decide (f = f1) then 1 else 0))%nat E (k_ft k)
    | None => kown g E (k_ft k)
    end).
Proof.
  set (E1 := fun f0 x : nat => x = f0 \/ E x).
  unfold pipealloc. eapply hoare_bind; [apply kft_own, (filealloc_own g E)|]. intros [f0|].
  2: { apply (hoare_keep (fun k => kown g E (k_ft k))); [apply hoare_skip|intros _].
       apply (hoare_keep (fun k => kown g E (k_ft k))); [apply hoare_skip|intros _].
       apply (hoare_keep (fun k => kown g E (k_ft k))); [apply hoare_skip|intros _].
       by intros k e a k' HP [= <- <- <-]. }
  apply (hoare_pure _ (g f0 = 0%nat)). intros H0.
  eapply hoare_bind; [apply kft_own, (filealloc_own (held g f0 1) (E1 f0))|]. intros [f1|].
  2: { apply (hoare_keep (fun k => kown (held g f0 1) (E1 f0) (k_ft k))); [apply hoare_skip|intros _].
       eapply hoare_bind; [apply fileclose_own; unfold held; rewrite decide_True by done; lia|intros ?; cbn beta].
       eapply hoare_bind; [apply hoare_skip|intros ?; cbn beta].
       intros k e r k' HP [= <- <- <-]. revert HP. apply kown_ext.
       - intros f. unfold held. by destruct (decide (f = f0)) as [->|]; rewrite ?decide_True.
       - unfold held, E1. intros f Hf [->|]; [|done]. rewrite !decide_True in Hf by done. lia. }
  set (g1 := held g f0 1). apply (hoare_pure _ (g1 f1 = 0%nat)). intros H1.
  assert (f1 <> f0) as Hne. { intros ->. unfold g1, held in H1. by rewrite decide_True in H1. }
  set (g2 := held g1 f1 1). set (E2 := fun x => x = f1 \/ E1 f0 x).
  apply (hoare_keep (fun k => kown g2 E2 (k_ft k))); [apply kpw_own|intros p].
  destruct (p =? 0).
  - apply (hoare_keep (fun k => kown g2 E2 (k_ft k))); [apply hoare_skip|intros _].
    eapply hoare_bind; [apply (fileclose_own g2 E2 f0); unfold g2, g1, held; rewrite decide_False, decide_True by done; lia|intros ?; cbn beta].
    eapply hoare_bind; [apply (fileclose_own (held g2 f0 (g2 f0 - 1)) E2 f1); unfold g2, g1, held; rewrite decide_False, decide_True by done; lia|intros ?; cbn beta].
    intros k e r k' HP [= <- <- <-]. revert HP.
    assert (Hg : forall f, held (held g2 f0 (g2 f0 - 1)) f1 (held g2 f0 (g2 f0 - 1) f1 - 1) f = g f).
    { intros f. unfold g2, g1, held in *. repeat case_decide; subst; try done; lia. }
    apply kown_ext; [done|]. intros f Hf. rewrite Hg in Hf. unfold g1, held in H1. rewrite decide_False in H1 by done.
    intros [->|[->|?]]; [lia|lia|done].
  - apply (hoare_keep (fun k => kown g2 E2 (k_ft k))); [apply kpw_own|intros _].
    assert (0 < g2 f0 /\ 0 < g2 f1)%nat as [Hp0 Hp1].
    { unfold g2, g1, held. repeat case_decide; subst; try done; lia. }
    eapply hoare_bind. { apply kft_own. eapply hoare_pre; [apply (upd_file_own g2 (fun x => x = f1 \/ E x) f0); [done|done]|].
      intros t. apply kown_ext; [done|]. unfold E2, E1. tauto. }
    intros ?. cbn beta. eapply hoare_bind; [apply kft_own, upd_file_own; done|intros ?; cbn beta].
    intros k e r k' HP [= <- <- <-]. revert HP. apply kown_ext; [|done]. intros f. unfold g2, g1, held in *.
    repeat case_decide; subst; lia.
Qed.

End Files.

(** ** Descriptors *)

(** How many descriptors of [p], and of all processes, refer to file [f]. *)
Definition fd_count (l : list (option nat)) (f : nat) : nat := length (filter (fun o => o = Some f) l).
Definition fds (l : list proc) (f : nat) : nat := sum_list ((fun p => fd_count (ofile p) f) <$> l).

Definition one (f g : nat) : Z := if decide (g = f) then 1 else 0.
Definition one_of (o : option nat) (g : nat) : Z := match o with Some f => one f g | None => 0 end.

Lemma fd_count_cons o l f : Z.of_nat (fd_count (o :: l) f) = one_of o f + Z.of_nat (fd_count l f).
Proof.
  unfold fd_count, one_of, one. rewrite filter_cons. destruct o as [g|]; repeat case_decide; cbn [length]; simplify_eq; lia.
Qed.

Lemma fd_count_insert l d o o' f :
  l !! d = Some o -> Z.of_nat (fd_count (<[d := o']> l) f) = Z.of_nat (fd_count l f) + one_of o' f - one_of o f.
Proof.
  revert d. induction l as [|x l IH]; intros [|d] Hd; [done|done| |].
  - injection Hd as ->. change (<[0%nat := o']> (o :: l)) with (o' :: l). rewrite !fd_count_cons. lia.
  - change (<[S d := o']> (x :: l)) with (x :: <[d := o']> l). rewrite !fd_count_cons, (IH d) by done. lia.
Qed.

Lemma fds_cons p l f : fds (p :: l) f = (fd_count (ofile p) f + fds l f)%nat.
Proof. done. Qed.

Lemma fds_insert l i p q f :
  l !! i = Some p ->
  Z.of_nat (fds (<[i := q]> l) f) = Z.of_nat (fds l f) + Z.of_nat (fd_count (ofile q) f) - Z.of_nat (fd_count (ofile p) f).
Proof.
  revert i. induction l as [|x l IH]; intros [|i] Hi; [done|done| |].
  - injection Hi as ->. change (<[0%nat := q]> (p :: l)) with (q :: l). rewrite !fds_cons. lia.
  - change (<[S i := q]> (x :: l)) with (x :: <[i := q]> l). rewrite !fds_cons. specialize (IH i Hi). lia.
Qed.

Lemma alter_is_insert {A} (g : A -> A) i (l : list A) x : l !! i = Some x -> alter g i l = <[i := g x]> l.
Proof.
  revert i. induction l as [|y l IH]; intros [|i] Hi; cbn in *; simplify_eq; [done|]. f_equal. by apply IH.
Qed.

Lemma fds_same l l' f :
  length l' = length l -> (forall i p p', l !! i = Some p -> l' !! i = Some p' -> ofile p' = ofile p) -> fds l' f = fds l f.
Proof.
  revert l'. induction l as [|p l IH]; intros [|p' l'] Hlen Ho; try done.
  rewrite !fds_cons, (Ho 0%nat p p') by done. f_equal. apply IH; [by injection Hlen|]. intros i. by apply (Ho (S i)).
Qed.

Lemma fd_count_pos l d f : l !! d = Some (Some f) -> (0 < fd_count l f)%nat.
Proof.
  revert d. induction l as [|o l IH]; intros [|d] Hd; try done.
  - injection Hd as ->. pose proof (fd_count_cons (Some f) l f) as E. unfold one_of, one in E. rewrite decide_True in E by done. lia.
  - specialize (IH d Hd). pose proof (fd_count_cons o l f) as E. assert (0 <= one_of o f); [|lia].
    unfold one_of, one. destruct o; [case_decide|]; lia.
Qed.

Lemma fds_ge l i p f : l !! i = Some p -> (fd_count (ofile p) f <= fds l f)%nat.
Proof.
  intros Hi. pose proof (fds_insert l i p (set_ofile [] p) f Hi) as E.
  cbn [ofile set_ofile] in E. change (fd_count [] f) with 0%nat in E. lia.
Qed.

(** Processes that are gone have no descriptors. *)
Definition closed (p : proc) : Prop := forall d o, ofile p !! d = Some o -> o = None.
Definition pt_ok (l : list proc) : Prop :=
  forall i p, l !! i = Some p -> length (ofile p) = NOFILE /\ (state p = UNUSED \/ state p = ZOMBIE -> closed p).

Definition is_running (me : nat) (l : list proc) : Prop := exists p, l !! me = Some p /\ state p = RUNNING.

(** The reference counts are the descriptors plus [h]. *)
Definition own (h : nat -> Z) (E : nat -> Prop) (l : list proc) (t : ftable) : Prop :=
  pt_ok l /\ exists g, kown g E t /\ forall f, Z.of_nat (g f) = Z.of_nat (fds l f) + h f.

Definition none : nat -> Z := fun _ => 0.
Definition plus (h : nat -> Z) (f : nat) : nat -> Z := fun g => h g + one f g.
Definition less (h : nat -> Z) (f : nat) : nat -> Z := fun g => h g - one f g.

Lemma own_ext h h' (E E' : nat -> Prop) l t :
  (forall f, h f = h' f) -> (forall f, E f -> E' f) -> own h E l t -> own h' E' l t.
Proof.
  intros Hh HE (Hl & g & Hg & Hc). split; [done|]. exists g. split; [apply (kown_ext g g E E'); auto|].
  intros f. rewrite Hc, Hh. done.
Qed.

Lemma pt_ok_insert l i p q :
  pt_ok l -> l !! i = Some p -> length (ofile q) = NOFILE -> (state q = UNUSED \/ state q = ZOMBIE -> closed q) ->
  pt_ok (<[i := q]> l).
Proof. intros Hl Hi Hn Hc j r [[-> [<- _]]|[_ Hj]]%list_lookup_insert_Some; [done|by apply (Hl j)]. Qed.

(** Changes that leave the descriptors alone. *)
Lemma own_same h E l l' t :
  own h E l t -> length l' = length l ->
  (forall i p p', l !! i = Some p -> l' !! i = Some p' -> ofile p' = ofile p
     /\ (state p' = UNUSED \/ state p' = ZOMBIE -> (state p = UNUSED \/ state p = ZOMBIE) \/ closed p')) ->
  own h E l' t.
Proof.
  intros (Hl & g & Hg & Hc) Hlen Hs. split.
  - intros i q' Hq'. assert (exists q, l !! i = Some q) as [q Hq].
    { apply lookup_lt_is_Some_2. rewrite <- Hlen. by eapply lookup_lt_Some. }
    destruct (Hs i q q' Hq Hq') as [Ho Hd], (Hl i q Hq) as [Hn Hc']. split; [congruence|]. intros Hdead.
    destruct (Hd Hdead) as [Hd'|]; [|done]. intros d o. rewrite Ho. by apply Hc'.
  - exists g. split; [done|]. intros f. rewrite Hc. rewrite (fds_same l l'); [done|done|]. intros i q q' Hq Hq'. by apply (Hs i).
Qed.

Lemma fds_none n f : fds (replicate n proc0) f = 0%nat.
Proof. induction n as [|n IH]; [done|]. cbn [replicate]. by rewrite fds_cons, IH. Qed.

(** One entry of a running process changes. *)
Lemma own_set_fd h E l t i p d o o' :
  own h E l t -> l !! i = Some p -> ofile p !! d = Some o -> ~ (state p = UNUSED \/ state p = ZOMBIE) ->
  own (fun f => h f + one_of o f - one_of o' f) E (<[i := set_ofile (<[d := o']> (ofile p)) p]> l) t.
Proof.
  intros (Hl & g & Hg & Hc) Hi Hd Hst. split.
  - apply (pt_ok_insert _ _ p); [done|done| |done]. cbn. rewrite length_insert. by apply (Hl i).
  - exists g. split; [done|]. intros f. rewrite (fds_insert _ _ p) by done. cbn [ofile set_ofile].
    rewrite (fd_count_insert _ _ o), Hc by done. lia.
Qed.

(** ** The kernel *)

Section Kernel.
Context {S : Type} `{TxDisk S}.

Abbreviation K := (kern (kfile S)).

Variable kend : Z.

(** A property of the processes and the file table. *)
Definition vw (V : list proc -> ftable -> Prop) (k : K) : Prop := V (procs (kpt k)) (k_ft (kfiles k)).

(** Computations that change neither. *)
Definition still {A} (m : M K A) : Prop := forall V, hoare (vw V) m (fun _ => vw V).

#[local] Create HintDb still.

Lemma still_bind {A B} (m : M K A) (n : A -> M K B) : still m -> (forall a, still (n a)) -> still (bind m n).
Proof. intros Hm Hn V. apply hoare_keep; [apply Hm|]. intros a. apply Hn. Qed.
Lemma still_ret {A} (a : A) : still (ret a).
Proof. by intros V k e b k' HV [= <- <- <-]. Qed.
Lemma still_get : still get.
Proof. by intros V k e b k' HV [= <- <- <-]. Qed.
Lemma still_gets {A} (f : K -> A) : still (gets f).
Proof. by intros V k e b k' HV [= <- <- <-]. Qed.
Lemma still_deref {A} (o : option A) : still (deref o).
Proof. destruct o; [apply still_ret|]. by intros V k e b k' _ E. Qed.
Lemma still_panic {A} msg : still (@panic K A msg).
Proof. by intros V k e b k' _ E. Qed.
Lemma still_get_p {A} (f : proc -> A) i : still (get_p f i).
Proof.
  intros V k e a k' HV. unfold get_p, zoom, getp, bind, get, deref. cbn.
  destruct (procs (kpt k) !! i); cbn; [|done]. intros [= <- <- <-]. by destruct k.
Qed.
Lemma still_fs {A} (m : M (fsst S) A) : still (fs m).
Proof.
  intros V k e a k' HV. unfold fs, zoom. destruct (m _) as [? [? ?| | | |]]; try done. by intros [= <- <- <-].
Qed.
Lemma still_pm {A} (m : M pmem A) : still (zoom PM m).
Proof. intros V k e a k' HV. unfold zoom. destruct (m _) as [? [? ?| | | |]]; try done. by intros [= <- <- <-]. Qed.
Lemma still_when b (m : M K unit) : still m -> still (when b m).
Proof. destruct b; [done|intros _; apply still_ret]. Qed.

#[local] Hint Resolve still_bind still_ret still_get still_gets still_deref still_panic still_get_p still_fs still_pm still_when : still.
#[local] Ltac still := repeat first [solve [auto with still] | apply still_bind; [|intros ?] | case_match | progress cbn].

Lemma still_user_byte va : still (user_byte va).
Proof. intros V k e a k' HV. unfold user_byte. case_match; [|done]. by intros [= <- <- <-]. Qed.
#[local] Hint Resolve still_user_byte : still.

Lemma still_user_bytes n : forall va, still (user_bytes va n).
Proof. induction n; intros va; cbn; still. Qed.
#[local] Hint Resolve still_user_bytes : still.

Lemma still_store_user l : forall va, still (store_user va l).
Proof. induction l; intros va; cbn; still. Qed.
#[local] Hint Resolve still_store_user : still.

Lemma still_string_end n : forall s, still (string_end n s).
Proof. induction n; intros s; cbn; still. Qed.
#[local] Hint Resolve still_string_end : still.

Lemma still_argint me n : still (argint me n).
Proof. unfold argint, fetchint, user_word, load. still. Qed.
#[local] Hint Resolve still_argint : still.

Lemma still_argptr me n size : still (argptr me n size).
Proof. unfold argptr. still. Qed.
Lemma still_argpath me n : still (argpath me n).
Proof. unfold argpath, argstr, fetchstr, string_at. still. Qed.
Lemma still_cwd_for me path : still (cwd_for me path).
Proof. unfold cwd_for. still. Qed.
#[local] Hint Resolve still_argptr still_argpath still_cwd_for : still.

(** The references, with a property [V] of the processes. *)
Definition owns_refs (V : list proc -> Prop) (h : nat -> Z) (E : nat -> Prop) : K -> Prop :=
  vw (fun l t => V l /\ own h E l t).

(** An operation of file.c that takes [g] to [g'] references. *)
Lemma file_op {A} (V : list proc -> Prop) h E (m : M (kfile S) A) (h' : A -> nat -> Z) (E' : A -> nat -> Prop) :
  (forall l g, V l -> (forall f, Z.of_nat (g f) = Z.of_nat (fds l f) + h f) ->
     hoare (fun k => kown g E (k_ft k)) m (fun a k => exists g', kown g' (E' a) (k_ft k)
       /\ forall f, Z.of_nat (g' f) - h' a f = Z.of_nat (g f) - h f)) ->
  hoare (owns_refs V h E) (zoom FS m) (fun a => owns_refs V (h' a) (E' a)).
Proof.
  intros Hm. apply hoare_zoom. intros k (HV & Hl & g & Hg & Hc) f e a f' -> Eq.
  destruct (Hm _ g HV Hc _ _ _ _ Hg Eq) as (g' & Hg' & Hc').
  split; [done|]. split; [done|]. exists g'. split; [done|]. intros f0. cbn. specialize (Hc' f0). rewrite Hc in Hc'. lia.
Qed.

Lemma filealloc_refs (V : list proc -> Prop) h E :
  hoare (owns_refs V h E) (ft filealloc) (fun o =>
    match o with
    | Some f => owns_refs (fun l => V l /\ Z.of_nat (fds l f) + h f = 0) (plus h f) (fun x => x = f \/ E x)
    | None => owns_refs V h E
    end).
Proof.
  apply hoare_zoom. intros k (HV & Hl & g & Hg & Hc) f e a f' -> Eq.
  pose proof (kft_own _ _ _ (filealloc_own g E) _ _ _ _ Hg Eq) as Ho. destruct a as [f0|].
  - destruct Ho as [H0 Ho]. split; [split; [done|by rewrite <- Hc, H0]|]. split; [done|]. exists (held g f0 1).
    split; [done|]. intros f1. cbn. specialize (Hc f1). unfold held, plus, one. case_decide; subst; lia.
  - split; [done|]. split; [done|]. by exists g.
Qed.

(** A file nobody refers to has no type to wait for. *)
Lemma owns_drop (V : list proc -> Prop) h E f k :
  (forall l, V l -> Z.of_nat (fds l f) + h f = 0) -> owns_refs V h (fun x => x = f \/ E x) k -> owns_refs V h E k.
Proof.
  intros H0 (HV & Hl & g & Hg & Hc). split; [done|]. split; [done|]. exists g. split; [|done]. revert Hg.
  apply kown_ext; [done|]. intros f0 Hf [->|]; [|done]. specialize (Hc f). rewrite (H0 _ HV) in Hc. lia.
Qed.

Lemma filedup_refs (V : list proc -> Prop) h E f :
  (forall l, V l -> 0 < Z.of_nat (fds l f) + h f) ->
  hoare (owns_refs V h E) (ft (File.filedup f)) (fun a k => a = f /\ owns_refs V (plus h f) E k).
Proof.
  intros Hpos. apply hoare_zoom. intros k (HV & Hl & g & Hg & Hc) x e a x' -> Eq.
  assert (0 < g f)%nat as Hf by (specialize (Hpos _ HV); rewrite <- Hc in Hpos; lia).
  destruct (kft_own _ _ _ (filedup_own g E f) _ _ _ _ (conj Hg Hf) Eq) as [-> Ho]. split; [done|].
  split; [done|]. split; [done|]. exists (held g f (g f + 1)). split; [done|].
  intros f0. cbn. specialize (Hc f0). unfold held, plus, one. case_decide; subst; lia.
Qed.

Lemma fclose_refs (V : list proc -> Prop) h E f :
  (forall l, V l -> 0 < Z.of_nat (fds l f) + h f) ->
  hoare (owns_refs V h E) (fclose kend f) (fun _ => owns_refs V (less h f) E).
Proof.
  intros Hpos. apply (file_op V h E _ (fun _ => less h f) (fun _ => E)). intros l g HV Hg.
  assert (0 < g f)%nat as Hf by (specialize (Hpos l HV); rewrite <- Hg in Hpos; lia).
  eapply hoare_post; [by apply fileclose_own|].
  intros ? k Hk. exists (held g f (g f - 1)). split; [done|]. intros f0. unfold held, less, one. case_decide; subst; lia.
Qed.

Lemma upd_file_refs (V : list proc -> Prop) h E f u :
  (forall x, f_ref (u x) = f_ref x /\ f_type (u x) <> FD_NONE) -> (forall l, V l -> 0 < Z.of_nat (fds l f) + h f) ->
  hoare (owns_refs V h (fun x => x = f \/ E x)) (ft (upd_file f u)) (fun _ => owns_refs V h E).
Proof.
  intros Hu Hpos. apply (file_op V h _ _ (fun _ => h) (fun _ => E)). intros l g HV Hg.
  assert (0 < g f)%nat as Hf by (specialize (Hpos l HV); rewrite <- Hg in Hpos; lia).
  eapply hoare_post; [by apply kft_own, upd_file_own|]. intros ? k Hk. by exists g.
Qed.

Lemma pipealloc_refs V h E :
  hoare (owns_refs V h E) (zoom FS (pipealloc kend)) (fun o =>
    match o with Some (f0, f1) => owns_refs V (plus (plus h f0) f1) E | None => owns_refs V h E end).
Proof.
  eapply hoare_post.
  { apply (file_op V h E _ (fun o => match o with Some (f0, f1) => plus (plus h f0) f1 | None => h end) (fun _ => E)).
    intros l g _ _. eapply hoare_post; [apply pipealloc_own|]. intros [[f0 f1]|] k Hk; [|by exists g].
    eexists. split; [done|]. intros f. cbn. unfold plus, one. repeat case_decide; lia. }
  by intros [[f0 f1]|].
Qed.

(** ** Descriptors of a running process *)

(** [p] is process [me] and runs. *)
Definition me_is (me : nat) (p : proc) (l : list proc) : Prop := l !! me = Some p /\ state p = RUNNING.

Lemma upd_p_hoare (V W : list proc -> ftable -> Prop) i u :
  (forall l t p, V l t -> l !! i = Some p -> W (<[i := u p]> l) t) ->
  hoare (vw V) (upd_p i u) (fun _ => vw W).
Proof.
  intros Hu k e a k' HV. unfold upd_p, zoom, updp, bind, get, deref. cbn.
  destruct (procs (kpt k) !! i) as [p|] eqn:Hp; cbn; [|done]. intros [= <- <- <-].
  unfold vw. cbn. rewrite (alter_is_insert _ _ _ p) by done. by apply Hu.
Qed.

Lemma set_fd_refs me p d o o' h E :
  ofile p !! d = Some o ->
  hoare (owns_refs (me_is me p) h E) (set_fd me d o')
    (fun _ => owns_refs (me_is me (set_ofile (<[d := o']> (ofile p)) p)) (fun f => h f + one_of o f - one_of o' f) E).
Proof.
  intros Hd. apply upd_p_hoare. intros l t q [[Hp Hst] Ho] Hq. simplify_eq. split.
  - split; [|done]. apply list_lookup_insert_eq. by eapply lookup_lt_Some.
  - apply own_set_fd; try done. rewrite Hst. by intros [|].
Qed.

Lemma get_p_me_is {A} (V : list proc -> ftable -> Prop) me p (f : proc -> A) :
  (forall l t, V l t -> l !! me = Some p) ->
  hoare (vw V) (get_p f me) (fun a k => a = f p /\ vw V k).
Proof.
  intros Hp k e a k' HV. unfold get_p, zoom, getp, bind, get, deref. cbn.
  rewrite (Hp _ _ HV). cbn. intros [= <- <- <-]. by destruct k.
Qed.

Lemma free_fd_Some {A} (l : list (option A)) d : free_fd l = Some d -> l !! d = Some None.
Proof.
  unfold free_fd. destruct (list_find _ l) as [[i o]|] eqn:E; [|done]. intros [= <-].
  apply list_find_Some in E as (? & -> & _). done.
Qed.

Lemma fdalloc_refs (V : list proc -> Prop) me p f h E :
  (forall l, V l -> me_is me p l) ->
  hoare (owns_refs V h E) (fdalloc me f) (fun o =>
    match o with
    | Some d => fun k => ofile p !! d = Some None
                  /\ owns_refs (me_is me (set_ofile (<[d := Some f]> (ofile p)) p)) (less h f) E k
    | None => owns_refs V h E
    end).
Proof.
  intros HV. unfold fdalloc. eapply hoare_bind; [apply (get_p_me_is _ me p); intros l t [Hl _]; by apply HV|]. intros fdl.
  apply hoare_pure. intros ->. destruct (free_fd (ofile p)) as [d|] eqn:Ed; [|by intros k e o k' Ho [= <- <- <-]].
  eapply hoare_bind.
  { eapply hoare_pre; [apply (set_fd_refs me p d None), (free_fd_Some _ _ Ed)|]. intros k [Hk Ho]. split; [by apply HV|done]. }
  intros ? k e o k' [Hk Ho] [= <- <- <-]. split; [by apply free_fd_Some|]. split; [done|].
  revert Ho. apply own_ext; [|done]. intros f0. cbn. unfold less. lia.
Qed.

(** ** The calls *)

Definition nobody : nat -> Prop := fun _ => False.

(** Between system calls the reference counts are the descriptors. *)
Definition settled : K -> Prop := vw (own none nobody).

Lemma settled_intro V h E k :
  (forall f, h f = 0) -> (forall f, ~ E f) -> owns_refs V h E k -> settled k.
Proof. intros Hh HE [_ Ho]. revert Ho. apply own_ext; [done|]. intros f HEf. by apply HE in HEf. Qed.

(** The last line of a call. *)
Lemma ret_settled {A} V h E (a : A) :
  (forall f, h f = 0) -> (forall f, ~ E f) -> hoare (owns_refs V h E) (ret a) (fun _ => settled).
Proof. intros Hh HE k e b k' Ho [= <- <- <-]. by eapply settled_intro. Qed.

Lemma argfd_refs me p n h E :
  hoare (owns_refs (me_is me p) h E) (argfd me n) (fun o k =>
    match o with Some (d, f) => ofile p !! d = Some (Some f) | None => True end /\ owns_refs (me_is me p) h E k).
Proof.
  unfold argfd. apply hoare_keep; [apply still_argint|]. intros [d|]; [|by intros k e o k' Ho [= <- <- <-]].
  case_match; [by intros k e o k' Ho [= <- <- <-]|].
  eapply hoare_bind; [apply (get_p_me_is _ me p); by intros l t [[]]|]. intros fdl. apply hoare_pure. intros ->.
  intros k e o k' Ho [= <- <- <-]. split; [|done]. by destruct (ofile p !! Z.to_nat d) as [[f|]|] eqn:Ed.
Qed.

Lemma fd_pos me p d f l : ofile p !! d = Some (Some f) -> me_is me p l -> 0 < Z.of_nat (fds l f).
Proof. intros Hd [Hp _]. pose proof (fds_ge _ _ _ f Hp). pose proof (fd_count_pos _ _ _ Hd). lia. Qed.

#[local] Ltac refs := unfold plus, less, none, one_of, one, nobody; repeat case_decide; subst; try tauto; try lia.
#[local] Ltac settle := apply ret_settled; [intros; refs|by intros ? []].

Lemma sys_dup_settled me p : hoare (owns_refs (me_is me p) none nobody) (sys_dup me) (fun _ => settled).
Proof.
  unfold sys_dup. eapply hoare_bind; [apply argfd_refs|]. intros [[d f]|]; apply hoare_pure; [intros Hd|intros _; settle].
  eapply hoare_bind; [by apply (fdalloc_refs _ me p)|]. intros [d'|]; [apply hoare_pure; intros Hd'|settle].
  eapply hoare_bind; [apply filedup_refs|intros ?; apply hoare_pure; intros _; settle].
  intros l [Hp _]. pose proof (fds_ge _ _ _ f Hp) as Hge. pose proof (fd_count_pos _ _ _ Hd).
  pose proof (fd_count_insert _ _ _ (Some f) f Hd') as Hc. revert Hc. cbn [ofile set_ofile] in Hge. refs.
Qed.

Lemma sys_close_settled me p : hoare (owns_refs (me_is me p) none nobody) (sys_close kend me) (fun _ => settled).
Proof.
  unfold sys_close. eapply hoare_bind; [apply argfd_refs|]. intros [[d f]|]; apply hoare_pure; [intros Hd|intros _; settle].
  eapply hoare_bind; [by apply (set_fd_refs me p d (Some f) None)|intros ?].
  eapply hoare_bind; [apply fclose_refs|intros ?; settle]. intros l _. refs.
Qed.

Lemma open_file_refs me p :
  hoare (owns_refs (me_is me p) none nobody) (open_file kend me) (fun o =>
    match o with
    | Some (f, d) => fun k => ofile p !! d = Some None
        /\ owns_refs (me_is me (set_ofile (<[d := Some f]> (ofile p)) p)) none (fun x => x = f \/ nobody x) k
    | None => owns_refs (me_is me p) none nobody
    end).
Proof.
  unfold open_file. eapply hoare_bind; [apply filealloc_refs|]. intros [f|]; [|by intros k e o k' Ho [= <- <- <-]].
  eapply hoare_bind; [apply (fdalloc_refs _ me p); by intros l []|]. intros [d|].
  - apply hoare_pure. intros Hd k e o k' [Hk Ho] [= <- <- <-]. split; [done|]. split; [done|].
    revert Ho. apply own_ext; [|done]. intros f0. refs.
  - eapply hoare_bind; [apply fclose_refs; intros l [_ Hl]; revert Hl; refs|].
    intros ? k e o k' Ho [= <- <- <-]. apply owns_drop in Ho; [|by intros l [_ Hl]; revert Hl; refs].
    destruct Ho as [[Hk _] Ho]. split; [done|]. revert Ho. apply own_ext; [|done]. intros f0. refs.
Qed.

Lemma sys_pipe_settled me p : hoare (owns_refs (me_is me p) none nobody) (sys_pipe kend me) (fun _ => settled).
Proof.
  unfold sys_pipe. apply hoare_keep; [apply still_argptr|]. intros [a|]; [|settle].
  eapply hoare_bind; [apply pipealloc_refs|]. intros [[rf wf]|]; [|settle].
  eapply hoare_bind; [by apply (fdalloc_refs _ me p)|]. intros [d0|].
  2: { eapply hoare_bind; [apply fclose_refs; intros; refs|intros ?].
       eapply hoare_bind; [apply fclose_refs; intros; refs|intros ?; settle]. }
  apply hoare_pure. intros Hd0.
  eapply hoare_bind; [by apply fdalloc_refs|]. intros [d1|].
  2: { eapply hoare_bind.
       { apply (set_fd_refs _ _ d0 (Some rf) None). apply list_lookup_insert_eq. by eapply lookup_lt_Some. }
       intros ?. eapply hoare_bind; [apply fclose_refs; intros; refs|intros ?].
       eapply hoare_bind; [apply fclose_refs; intros; refs|intros ?; settle]. }
  apply hoare_pure. intros _. do 2 (apply hoare_keep; [apply still_store_user|intros ?]). settle.
Qed.

Lemma sys_open_settled dev_read dev_write me p :
  hoare (owns_refs (me_is me p) none nobody) (sys_open kend dev_read dev_write me) (fun _ => settled).
Proof.
  unfold sys_open. apply hoare_keep; [apply still_argpath|]. intros path.
  apply hoare_keep; [destruct path; [apply still_argint|apply still_ret]|]. intros omode.
  destruct path as [path|]; [|settle]. destruct omode as [omode|]; [|settle].
  apply hoare_keep; [apply still_fs|intros ?]. apply hoare_keep; [apply still_cwd_for|intros c].
  apply hoare_keep; [apply still_fs|]. intros [i|].
  2: { apply hoare_keep; [apply still_fs|intros ?; settle]. }
  eapply hoare_bind; [apply open_file_refs|]. intros [[f d]|].
  2: { do 2 (apply hoare_keep; [apply still_fs|intros ?]). settle. }
  apply hoare_pure. intros Hd. do 2 (apply hoare_keep; [apply still_fs|intros ?]).
  eapply hoare_bind; [apply upd_file_refs; [done|]|intros ?; settle].
  intros l Hl. unfold none. rewrite Z.add_0_r. eapply (fd_pos _ _ d); [|exact Hl].
  apply list_lookup_insert_eq. by eapply lookup_lt_Some.
Qed.

(** ** fork *)

(** The child [np] of [fork] has no descriptor from [i] on. *)
Definition embryo (me np : nat) (p : proc) (i : nat) (l : list proc) : Prop :=
  np <> me /\ me_is me p l /\ exists q, l !! np = Some q /\ state q = EMBRYO
    /\ forall d o, (i <= d)%nat -> ofile q !! d = Some o -> o = None.

Lemma upd_child me np p i u h E :
  (forall q, ofile (u q) = ofile q /\ state (u q) = state q) ->
  hoare (owns_refs (embryo me np p i) h E) (upd_p np u) (fun _ => owns_refs (embryo me np p i) h E).
Proof.
  intros Hu. apply upd_p_hoare. intros l t q [(Hne & [Hp Hst] & q' & Hq & Hq') (Hl & g & Hg & Hc)] Hq0. simplify_eq.
  destruct (Hu q') as [Ho Hs]. pose proof (lookup_lt_Some _ _ _ Hq). split; [split; [done|split; [split; [|done]|]]|split].
  - by rewrite list_lookup_insert_ne.
  - exists (u q'). split; [by apply list_lookup_insert_eq|]. by rewrite Ho, Hs.
  - apply (pt_ok_insert _ _ q'); [done|done|rewrite Ho; by apply (Hl np)|]. rewrite Hs. intros [Hx|Hx]; destruct Hq' as [Hy _]; congruence.
  - exists g. split; [done|]. intros f. rewrite (fds_insert _ _ q'), Ho, Hc by done. lia.
Qed.

(** The table operations around [allocproc] and the end of a call. *)
Lemma pt_hoare {A} (V : list proc -> Prop) h E (m : M ptable A) (W : A -> list proc -> Prop) h' E' :
  (forall l t, V l -> own h E l t ->
     hoare (fun x => procs x = l) m (fun a x => W a (procs x) /\ own (h' a) (E' a) (procs x) t)) ->
  hoare (owns_refs V h E) (zoom PT m) (fun a => owns_refs (W a) (h' a) (E' a)).
Proof.
  intros Hm. apply hoare_zoom. intros k [HV Ho] x e a x' -> Eq. by eapply (Hm _ _ HV Ho).
Qed.

Lemma take_slot_procs x e o x' :
  take_slot x = (e, Ret o x') ->
  match o with
  | Some np => exists q n, procs x !! np = Some q /\ state q = UNUSED
                 /\ procs x' = <[np := set_pid n (set_state EMBRYO q)]> (procs x)
  | None => procs x' = procs x
  end.
Proof.
  destruct x as [lk l ip nx]. intros Hu. run_table Hu. destruct lk; [done|]. cbn in Hu.
  destruct (find_unused l 0) as [i|] eqn:Ef; cbn in Hu; [|by injection Hu as <- <- <-].
  apply find_unused_Some in Ef as (j & q & -> & Ef & Hq). cbn in Hu. rewrite Ef in Hu. cbn in Hu.
  rewrite list_lookup_alter_eq, Ef in Hu. cbn in Hu. injection Hu as <- <- <-. cbn.
  exists q, nx. split; [done|]. split; [done|]. rewrite alter_alter.
  exact (alter_is_insert (fun x => set_pid nx (set_state EMBRYO x)) _ _ q Ef).
Qed.

Lemma take_slot_refs me p :
  hoare (owns_refs (me_is me p) none nobody) (zoom PT take_slot) (fun o =>
    owns_refs (match o with Some np => embryo me np p 0 | None => me_is me p end) none nobody).
Proof.
  apply (pt_hoare _ _ _ _ (fun o => match o with Some np => embryo me np p 0 | None => me_is me p end) (fun _ => none) (fun _ => nobody)).
  intros l t [Hp Hst] (Hl & g & Hg & Hc) x e o x' <- Eq. apply take_slot_procs in Eq. destruct o as [np|]; cbn.
  2: { rewrite Eq. split; [done|]. split; [done|]. by exists g. }
  destruct Eq as (q & n & Hq & Hu & ->). pose proof (lookup_lt_Some _ _ _ Hq).
  assert (np <> me) as Hne by congruence. destruct (Hl np q Hq) as [Hlen Hcl]. split; [|split].
  - split; [done|]. split; [split; [by rewrite list_lookup_insert_ne|done]|].
    eexists. split; [by apply list_lookup_insert_eq|]. split; [done|]. intros d o _ Hd. by apply (Hcl (or_introl Hu) d).
  - apply (pt_ok_insert _ _ q); [done|done|done|]. by intros [|].
  - exists g. split; [done|]. intros f. rewrite (fds_insert _ _ q), Hc by done. cbn [ofile set_pid set_state]. lia.
Qed.

Variables (kdata forkret_addr trapret_addr : Z).
Variable dev_read : Z -> option (nat -> Z -> M (fsst S) (Z * list Z)).
Variable init_log : Z -> M S unit.
#[local] Instance ops : FileOps (kfile S) := kfile_ops kend dev_read init_log.

(** The slot goes back as it was. *)
Lemma free_child me np p :
  hoare (owns_refs (embryo me np p 0) none nobody) (upd_p np (set_state UNUSED)) (fun _ => settled).
Proof.
  apply upd_p_hoare. intros l t q [(Hne & _ & q' & Hq & Hst & Ho) (Hl & g & Hg & Hc)] Hq0. simplify_eq. split.
  - apply (pt_ok_insert _ _ q'); [done|done|exact (proj1 (Hl np q' Hq))|]. intros _ d o Hd. apply (Ho d); [lia|done].
  - exists g. split; [done|]. intros f. rewrite (fds_insert _ _ q'), Hc by done. cbn [ofile set_state]. lia.
Qed.

Lemma allocproc_refs me p :
  hoare (owns_refs (me_is me p) none nobody) (allocproc forkret_addr trapret_addr) (fun o =>
    match o with Some np => owns_refs (embryo me np p 0) none nobody | None => settled end).
Proof.
  unfold allocproc. eapply hoare_bind; [apply take_slot_refs|]. intros [np|]; cbn beta iota.
  2: { intros k e o k' Ho [= <- <- <-]. by apply (settled_intro _ _ _ _ (fun _ => eq_refl) (fun _ x => x) Ho). }
  apply hoare_keep; [apply still_pm|intros ks]. apply hoare_keep; [by apply upd_child|intros ?].
  destruct (ks =? 0).
  - eapply hoare_bind; [apply free_child|]. by intros ? k e o k' Ho [= <- <- <-].
  - cbv zeta. apply hoare_keep; [apply still_pm|intros ?]. apply hoare_keep; [by apply upd_child|intros ?].
    do 2 (apply hoare_keep; [apply still_pm|intros ?]). by intros k e o k' Ho [= <- <- <-].
Qed.

Lemma dup_file_refs me np p i :
  hoare (owns_refs (embryo me np p i) none nobody) (dup_file me np i) (fun _ => owns_refs (embryo me np p (Datatypes.S i)) none nobody).
Proof.
  unfold dup_file. eapply hoare_bind; [apply (get_p_me_is _ me p); by intros l t [(_ & [] & _)]|]. intros fdl.
  apply hoare_pure. intros ->.
  assert (Hskip : forall k, owns_refs (embryo me np p i) none nobody k -> owns_refs (embryo me np p (Datatypes.S i)) none nobody k).
  { intros k [(Hne & Hm & q & Hq & Hst & Ho) Hr]. split; [|done]. split; [done|]. split; [done|]. exists q.
    split; [done|]. split; [done|]. intros d o Hd. apply Ho. lia. }
  destruct (ofile p !! i) as [[f|]|] eqn:Hi; try (intros k e [] k' Ho [= <- <-]; by apply Hskip).
  eapply hoare_bind.
  { apply (filedup_refs (embryo me np p i) none nobody f). intros l (_ & Hm & _). unfold none. rewrite Z.add_0_r. by eapply fd_pos. }
  intros f'. apply hoare_pure. intros ->. apply upd_p_hoare.
  intros l t q [(Hne & [Hp Hst] & q' & Hq & Hsq & Ho) Hr] Hq0. simplify_eq. pose proof (lookup_lt_Some _ _ _ Hq).
  destruct (Hr) as [Hl _]. destruct (Hl np q' Hq) as [Hlen _], (Hl me p Hp) as [Hlen' _].
  destruct (lookup_lt_is_Some_2 (ofile q') i) as [o Hqi]; [rewrite Hlen, <- Hlen'; by eapply lookup_lt_Some|].
  rewrite (Ho i o ltac:(lia) Hqi) in Hqi. split.
  - split; [done|]. split; [split; [by rewrite list_lookup_insert_ne|done]|].
    eexists. split; [by apply list_lookup_insert_eq|]. split; [done|]. intros d o' Hd. cbn.
    rewrite list_lookup_insert_ne by lia. apply Ho. lia.
  - eapply own_ext; [| |apply (own_set_fd _ _ _ _ np q' i None (Some f) Hr Hq Hqi)]; [|done|rewrite Hsq; by intros [|]].
    intros f0. refs.
Qed.

Lemma start_child me np p i :
  hoare (owns_refs (embryo me np p i) none nobody) (upd_p np (set_state RUNNABLE)) (fun _ => settled).
Proof.
  apply upd_p_hoare. intros l t q [(Hne & _ & q' & Hq & Hst & Ho) (Hl & g & Hg & Hc)] Hq0. simplify_eq. split.
  - apply (pt_ok_insert _ _ q'); [done|done|exact (proj1 (Hl np q' Hq))|]. by intros [|].
  - exists g. split; [done|]. intros f. rewrite (fds_insert _ _ q'), Hc by done. cbn [ofile set_state]. lia.
Qed.

Lemma still_acquire : still (zoom PT (acquire ptlock)).
Proof.
  intros V k e a k' HV. unfold zoom, acquire. cbn. destruct (pt_lock (kpt k)); [done|]. by intros [= <- <- <-].
Qed.
Lemma still_release : still (zoom PT (release ptlock)).
Proof.
  intros V k e a k' HV. unfold zoom, release. cbn. destruct (pt_lock (kpt k)); [|done]. by intros [= <- <- <-].
Qed.

Lemma fork_settled me p :
  hoare (owns_refs (me_is me p) none nobody) (fork kend kdata forkret_addr trapret_addr me) (fun _ => settled).
Proof.
  unfold fork. eapply hoare_bind; [apply allocproc_refs|]. intros [np|]; [|by intros k e o k' Ho [= <- <- <-]].
  apply hoare_keep; [apply still_get_p|intros d]. apply hoare_keep; [apply still_get_p|intros size].
  apply hoare_keep; [apply still_pm|intros d']. apply hoare_keep; [by apply upd_child|intros ?].
  destruct (d' =? 0).
  - apply hoare_keep; [apply still_get_p|intros ks]. apply hoare_keep; [apply still_pm|intros ?].
    apply hoare_keep; [by apply upd_child|intros ?]. eapply hoare_bind; [apply free_child|].
    by intros ? k e o k' Ho [= <- <- <-].
  - do 2 (apply hoare_keep; [by apply upd_child|intros ?]). do 2 (apply hoare_keep; [apply still_get_p|intros ?]).
    do 2 (apply hoare_keep; [apply still_pm|intros ?]).
    eapply hoare_bind; [apply (hoare_for_all (fun i => owns_refs (embryo me np p i) none nobody)), dup_file_refs|intros ?].
    apply hoare_keep; [apply still_get_p|intros c]. apply hoare_keep; [apply still_deref|intros c0].
    apply hoare_keep; [apply still_fs|intros c']. apply hoare_keep; [by apply upd_child|intros ?].
    apply hoare_keep; [apply still_get_p|intros nm]. apply hoare_keep; [by apply upd_child|intros ?].
    apply hoare_keep; [apply still_get_p|intros pid].
    apply hoare_keep; [apply still_acquire|intros ?]. eapply hoare_bind; [apply start_child|intros ?].
    eapply hoare_keep; [apply still_release|intros ?]. by intros k e o k' Ho [= <- <- <-].
Qed.

(** ** exit *)

(** Process [me] has closed its descriptors below [i]. *)
Definition closing (me i : nat) (l : list proc) : Prop :=
  exists p, me_is me p l /\ forall d o, (d < i)%nat -> ofile p !! d = Some o -> o = None.

Lemma close_file_me me p i :
  (forall d o, (d < i)%nat -> ofile p !! d = Some o -> o = None) ->
  hoare (owns_refs (me_is me p) none nobody) (close_file me i) (fun _ => owns_refs (closing me (Datatypes.S i)) none nobody).
Proof.
  intros Hd. unfold close_file. eapply hoare_bind; [apply (get_p_me_is _ me p); by intros l t [[]]|]. intros fdl.
  apply hoare_pure. intros ->.
  assert (Hskip : forall o, ofile p !! i = o -> (forall f, o <> Some (Some f)) ->
    hoare (owns_refs (me_is me p) none nobody) (ret tt) (fun _ => owns_refs (closing me (Datatypes.S i)) none nobody)).
  { intros o Hi Hno k e [] k' [Hm Hr] [= <- <-]. split; [|done]. exists p. split; [done|]. intros d o' Hlt Hd'.
    destruct (decide (d = i)) as [->|]; [|apply (Hd d); [lia|done]]. destruct o' as [f|]; [|done].
    rewrite Hi in Hd'. by apply Hno in Hd'. }
  destruct (ofile p !! i) as [[f|]|] eqn:Hi; [|by apply (Hskip _ eq_refl)|by apply (Hskip _ eq_refl)].
  eapply hoare_bind; [apply (fclose_refs (me_is me p) none nobody f)|intros ?].
  { intros l Hm. unfold none. rewrite Z.add_0_r. by eapply fd_pos. }
  eapply hoare_post; [by apply (set_fd_refs me p i (Some f) None)|].
  intros ? k [Hm Hr]. split.
  - eexists. split; [exact Hm|]. intros d o Hlt. cbn. destruct (decide (d = i)) as [->|].
    + rewrite list_lookup_insert_eq by (by eapply lookup_lt_Some). by intros [= <-].
    + rewrite list_lookup_insert_ne by done. apply Hd. lia.
  - revert Hr. apply own_ext; [|done]. intros f0. refs.
Qed.

Lemma close_file_refs me i :
  hoare (owns_refs (closing me i) none nobody) (close_file me i) (fun _ => owns_refs (closing me (Datatypes.S i)) none nobody).
Proof. intros k e r k' [(p & Hm & Hd) Ho] Eq. eapply (close_file_me me p i Hd); [split; [exact Hm|exact Ho]|exact Eq]. Qed.

(** The table while [me] exits. *)
Definition leaving (me : nat) (t : ftable) (x : ptable) : Prop :=
  own none nobody (procs x) t /\ exists p, procs x !! me = Some p /\ closed p.

Lemma leaving_step me t l l' :
  own none nobody l t -> (exists p, l !! me = Some p /\ closed p) -> length l' = length l ->
  (forall i p p', l !! i = Some p -> l' !! i = Some p' -> ofile p' = ofile p
     /\ (state p' = UNUSED \/ state p' = ZOMBIE -> (state p = UNUSED \/ state p = ZOMBIE) \/ i = me)) ->
  own none nobody l' t /\ exists p, l' !! me = Some p /\ closed p.
Proof.
  intros Ho (p & Hp & Hcl) Hlen Hs.
  assert (exists p', l' !! me = Some p') as [p' Hp'].
  { apply lookup_lt_is_Some_2. rewrite Hlen. by eapply lookup_lt_Some. }
  assert (closed p') as Hcl' by (intros d o; rewrite (proj1 (Hs _ _ _ Hp Hp')); apply Hcl).
  split; [|by exists p']. apply (own_same _ _ l); [done|done|]. intros i q q' Hq Hq'.
  destruct (Hs i q q' Hq Hq') as [Hf Hd]. split; [done|]. intros Hdead.
  destruct (Hd Hdead) as [|Hi]; [by left|right]. subst i. by simplify_eq.
Qed.

Definition calm (me : nat) (u : proc -> proc) : Prop :=
  forall p, ofile (u p) = ofile p /\ (state (u p) = UNUSED \/ state (u p) = ZOMBIE -> state p = UNUSED \/ state p = ZOMBIE).

Lemma leaving_updp me t i u :
  calm me u \/ (i = me /\ forall p, ofile (u p) = ofile p) -> hoare (leaving me t) (updp i u) (fun _ => leaving me t).
Proof.
  intros Hu x e a x' [Ho Hp]. unfold updp, bind, get, deref. cbn.
  destruct (procs x !! i) as [p|] eqn:Hi; cbn; [|done]. intros [= <- <- <-].
  apply (leaving_step me t (procs x)); [done|done|by cbn; rewrite length_alter|]. intros j q q' Hq Hq'. cbn in Hq'.
  destruct (decide (j = i)) as [->|]; [|rewrite list_lookup_alter_ne in Hq' by done; simplify_eq; auto].
  rewrite list_lookup_alter_eq, Hq in Hq'. injection Hq' as <-.
  destruct Hu as [Hu|[-> Hu]]; [destruct (Hu q); auto|auto].
Qed.

Lemma leaving_wakeup1 me t c : hoare (leaving me t) (wakeup1 c) (fun _ => leaving me t).
Proof.
  intros x e a x' [Ho Hp] [= <- <- <-]. apply (leaving_step me t (procs x)); [done|done|by cbn; rewrite length_map|].
  intros j q q' Hq Hq'. cbn in Hq'. rewrite list_lookup_fmap, Hq in Hq'. injection Hq' as <-.
  unfold wake_one. case_decide; [|auto]. split; [done|]. by intros [|].
Qed.

Lemma leaving_getp {A} me t (f : proc -> A) i : hoare (leaving me t) (getp f i) (fun _ => leaving me t).
Proof.
  intros x e a x' Hx. unfold getp, bind, get, deref. cbn. destruct (procs x !! i); cbn; [|done]. by intros [= <- <- <-].
Qed.

Lemma leaving_pass_child me t init i : hoare (leaving me t) (pass_child me init i) (fun _ => leaving me t).
Proof.
  unfold pass_child. apply hoare_keep; [apply leaving_getp|intros par]. unfold when. case_match; [|apply hoare_skip].
  apply hoare_keep; [by apply leaving_updp; left|intros ?]. apply hoare_keep; [apply leaving_getp|intros st].
  case_match; [apply leaving_wakeup1|apply hoare_skip].
Qed.

Lemma leaving_exit me t : hoare (leaving me t) (exit_locked me) (fun _ => leaving me t).
Proof.
  unfold exit_locked. apply hoare_keep.
  { intros x e a x' Hx. unfold acquire. case_match; [done|]. by intros [= <- <- <-]. }
  intros ?. apply hoare_keep; [apply leaving_getp|intros par]. apply hoare_keep; [apply leaving_wakeup1|intros ?].
  apply hoare_keep; [by intros x e r x' Hx [= <- <- <-]|intros tb].
  apply hoare_keep; [destruct (initproc tb); by intros x e r x' Hx [= <- <- <-]|intros init].
  apply hoare_keep; [apply (hoare_for_all (fun _ => leaving me t)), leaving_pass_child|intros ?].
  apply hoare_keep; [apply leaving_updp; by right|intros ?]. unfold sched.
  apply hoare_keep; [by intros x e r x' Hx [= <- <- <-]|intros tb']. repeat (case_match; [apply hoare_panic|]).
  apply hoare_keep; [apply leaving_getp|intros st]. repeat (case_match; [apply hoare_panic|]). apply hoare_skip.
Qed.

Lemma exit_settled me p : hoare (owns_refs (me_is me p) none nobody) (exit me) (fun _ => settled).
Proof.
  unfold exit. apply hoare_keep; [intros k e r k' Hk [= <- <- <-]; by destruct k|intros tb].
  case_decide; [apply hoare_panic|]. eapply hoare_bind.
  { eapply hoare_pre; [apply (hoare_for_all (fun i => owns_refs (closing me i) none nobody) _ NOFILE 0), close_file_refs|].
    intros k [Hm Ho]. split; [|done]. exists p. split; [done|]. lia. }
  intros ?. apply hoare_keep; [apply still_get_p|intros c]. apply hoare_keep; [apply (still_fs (zoom fd t_begin))|intros ?].
  apply hoare_keep; [apply still_deref|intros c0]. apply hoare_keep; [apply (still_fs (Fs.iput c0))|intros ?].
  apply hoare_keep; [apply (still_fs (zoom fd t_end))|intros ?].
  eapply hoare_bind; [apply (upd_p_hoare _ (fun l t => own none nobody l t /\ exists p, l !! me = Some p /\ closed p))|intros ?].
  - intros l t q [(q' & [Hq Hst] & Hcl) Ho] Hq'. simplify_eq.
    apply (leaving_step me t l); [done| |by rewrite length_insert|].
    + exists q'. split; [done|]. intros d o Hd. apply (Hcl d); [|done]. destruct Ho as [Hl _].
      rewrite <- (proj1 (Hl me q' Hq)). by eapply lookup_lt_Some.
    + intros j r r' Hr [[-> [<- _]]|[Hne Hr']]%list_lookup_insert_Some; simplify_eq; auto.
  - intros k e r k'. unfold zoom. intros Hk. destruct (exit_locked me _) as [e1 [b x'| | | |]] eqn:Eq; try done.
    intros [= <- <- <-]. by destruct (leaving_exit me (k_ft (kfiles k)) _ _ _ _ Hk Eq).
Qed.

Lemma wait_settled me : hoare settled (wait kend me) (fun _ => settled).
Proof using Type.
  unfold wait. apply hoare_keep; [apply still_acquire|intros ?].
  eapply hoare_bind with (R := fun tb k => settled k /\ tb = kpt k).
  { intros k e r k' Hk [= <- <- <-]. by destruct k. }
  intros tb. destruct (zombie_child me (procs tb)) as [i|] eqn:Ez.
  - set (V := fun l t => own none nobody l t /\ forall q, l !! i = Some q -> state q = ZOMBIE).
    apply (hoare_pre _ (vw V)).
    2: { intros k [Hk ->]. split; [done|]. intros q Hq. unfold zombie_child in Ez.
         destruct (list_find _ _) as [[j r]|] eqn:Ef; [|done]. injection Ez as <-.
         apply list_find_Some in Ef as (Hr & [_ Hz] & _). by simplify_eq. }
    apply hoare_keep; [apply still_get_p|intros pid]. apply hoare_keep; [apply still_get_p|intros ks].
    apply hoare_keep; [apply still_pm|intros ?]. apply hoare_keep.
    { apply upd_p_hoare. intros l t q [Ho Hz] Hq. split; [|intros r; rewrite list_lookup_insert_eq by (by eapply lookup_lt_Some); intros [= <-]; exact (Hz q Hq)].
      destruct Ho as (Hl & g & Hg & Hc). split.
      - apply (pt_ok_insert _ _ q); [done|done|exact (proj1 (Hl i q Hq))|]. exact (proj2 (Hl i q Hq)).
      - exists g. split; [done|]. intros f. rewrite (fds_insert _ _ q), Hc by done. cbn [ofile set_kstack]. lia. }
    intros ?. apply hoare_keep; [apply still_get_p|intros d]. apply hoare_keep; [apply still_pm|intros ?].
    eapply hoare_bind; [apply (upd_p_hoare _ (own none nobody))|intros ?].
    { intros l t q [(Hl & g & Hg & Hc) Hz] Hq. split.
      - apply (pt_ok_insert _ _ q); [done|done|exact (proj1 (Hl i q Hq))|]. intros _. apply (Hl i q Hq). auto.
      - exists g. split; [done|]. intros f. rewrite (fds_insert _ _ q), Hc by done.
        cbn [ofile reap set_killed set_name set_parent set_pid set_state]. lia. }
    apply hoare_keep; [apply still_release|intros ?]. by intros k e r k' Hk [= <- <- <-].
  - apply (hoare_pre _ settled); [|by intros k []]. apply hoare_keep; [apply still_get_p|intros dead].
    case_match; [apply hoare_keep; [apply still_release|intros ?]; by intros k e r k' Hk [= <- <- <-]|].
    intros k e r k' Hk Eq. apply bind_inv in Eq as (? & ? & ? & ? & _ & Eq & _).
    by apply bind_inv in Eq as (? & ? & ? & ? & _ & Eq & _).
Qed.

End Kernel.
