(* ===== verification/Calls.v ===== *)
(** * System calls on files

    What a count below zero does to [read], and the descriptors of all processes. *)

From stdpp Require Import base numbers list gmap strings.
From S2P Require Import Prelude Bytes Mem Str Kalloc Buf Memide Bio Bcache Log Recovery Pipe Fs File Mkfs FsImage Files Links Vm Proc ProcSys Syscall Sysfile OpenFiles Descriptors.

Open Scope Z_scope.

(** ** A negative count *)

(** The memory of a process with one page, mapped at 0.  The page directory, the
    page table, the page and the trap frame have a page each; the arguments are at
    the bottom of the user page. *)
Definition one_page (arg0 arg1 arg2 : Z) : mem :=
  let m := store32 (fun _ => 0) 0x80200000 (Z.lor 0x201000 7) in
  let m := store32 m 0x80201000 (Z.lor 0x202000 7) in
  let m := store32 m 0x80202004 arg0 in
  let m := store32 m 0x80202008 arg1 in
  store32 m 0x8020200c arg2.

Definition reader : proc :=
  set_sz PGSIZE (set_pgdir 0x80200000 (set_stack 0x80203000 0 (set_ofile (<[0%nat := Some 0%nat]> (ofile boot_proc)) boot_proc))).

(** A new file system, and process 0 with arguments [arg0 ..]. *)
Definition one_process (arg0 arg1 arg2 : Z) : kern (kfile (logst (bio memide))) :=
  mk_kern (mk_ptable false [reader] (Some 0%nat) 2)
    (mk_kfile (new_fs (mk_logst (Bcache.boot new_disk) boot_log))
       (mk_pworld ∅ (mk_pmem (one_page arg0 arg1 arg2) (mk_kmem false true 0)))
       (mk_ftable false (replicate NFILE file0)))
    0x200000 false 0 false.

(** Descriptor 0 is a new file with the ten bytes [l]. *)
Definition with_file_of (l : list Z) : M (kern (kfile (logst (bio memide)))) unit :=
  let* i := fs (zoom fd (zoom lb Bio.binit) ;; zoom fd (Log.initlog ROOTDEV) ;;
    tbegin ;;
    let* i := ialloc ROOTDEV T_FILE in
    ilock i ;;
    writei (fun _ => None) i l 0 (Z.of_nat (length l)) ;;
    iunlock i ;;
    tend ;;
    ret i) in
  ft (upd_file 0 (set_fref 1)) ;;
  ft (upd_file 0 (set_inode i 0 true true)).

Definition read_call (buf count : Z) : list event * res (kern (kfile (logst (bio memide)))) sysret :=
  (with_file_of [1; 2; 3; 4; 5; 6; 7; 8; 9; 10] ;; sys_read (fun _ => None) 0) (one_process 0 buf count).

(** The value a run returns. *)
Definition value_of {S A} (r : list event * res S A) : option A := match r.2 with Ret a _ => Some a | _ => None end.

(** [read] with a negative count passes the bounds check of [argptr] and reads
    the whole file.  A process of one page that reads ten bytes to the last six of
    its page makes the kernel fault on the page after it; with a count of 6 the
    call returns 6, and with a count of 7 it is refused. *)
Theorem read_negative_count :
  value_of (read_call (PGSIZE - 6) 6) = Some (SRet 6)
  /\ value_of (read_call (PGSIZE - 6) 7) = Some (SRet (-1))
  /\ exists e, read_call (PGSIZE - 6) (-1) = (e, Fault).
Proof. split; [vm_compute; reflexivity|]. split; [vm_compute; reflexivity|]. eexists. vm_compute. reflexivity. Qed.

(** ** Descriptors of all processes *)

Section Calls.
Context {S : Type} `{TxDisk S}.

Abbreviation K := (kern (kfile S)).

Variables (kend kdata forkret_addr trapret_addr : Z).
Variable dev_read : Z -> option (nat -> Z -> M (fsst S) (Z * list Z)).
Variable dev_write : Z -> option (nat -> list Z -> Z -> M (fsst S) Z).
Variable init_log : Z -> M S unit.
#[local] Instance ops : FileOps (kfile S) := kfile_ops kend dev_read init_log.

(** A call of process [me] on its descriptors, or a [fork], [exit] or [wait]. *)
Inductive fd_call (me : nat) (k k' : K) : Prop :=
  | call_dup e r : sys_dup me k = (e, Ret r k') -> fd_call me k k'
  | call_close e r : sys_close kend me k = (e, Ret r k') -> fd_call me k k'
  | call_open e r : sys_open kend dev_read dev_write me k = (e, Ret r k') -> fd_call me k k'
  | call_pipe e r : sys_pipe kend me k = (e, Ret r k') -> fd_call me k k'
  | call_fork e r : sys_fork kend kdata forkret_addr trapret_addr me k = (e, Ret r k') -> fd_call me k k'
  | call_exit e r : sys_exit me k = (e, Ret r k') -> fd_call me k k'
  | call_wait e r : sys_wait kend me k = (e, Ret r k') -> fd_call me k k'.

(** Anything else that happens in the kernel: it changes no descriptor and no
    reference, and no process comes to its end. *)
Definition background (k k' : K) : Prop :=
  k_ft (kfiles k') = k_ft (kfiles k) /\ length (procs (kpt k')) = length (procs (kpt k))
  /\ forall i p p', procs (kpt k) !! i = Some p -> procs (kpt k') !! i = Some p' ->
       ofile p' = ofile p /\ (state p' = UNUSED \/ state p' = ZOMBIE -> state p = UNUSED \/ state p = ZOMBIE).

Inductive fd_step (k k' : K) : Prop :=
  | step_call me p : me_is me p (procs (kpt k)) -> fd_call me k k' -> fd_step k k'
  | step_background : background k k' -> fd_step k k'.

Definition at_boot (k : K) : Prop :=
  procs (kpt k) = replicate NPROC proc0 /\ k_ft (kfiles k) = mk_ftable false (replicate NFILE file0).

Lemma settled_boot k : at_boot k -> settled k.
Proof.
  intros [Hp Hf]. unfold settled, vw. rewrite Hp, Hf. split.
  - intros i p Hi%lookup_replicate. destruct Hi as [-> _]. split; [done|]. intros _ d o Hd%lookup_replicate. by destruct Hd.
  - exists (fun _ => 0%nat). split; [split; [apply refs_start|lia]|]. intros f. by rewrite fds_none.
Qed.

Lemma settled_step k k' : settled k -> fd_step k k' -> settled k'.
Proof.
  intros Hs [me p Hm Hc|(Hf & Hlen & Hp)].
  - assert (owns_refs (me_is me p) none nobody k) as Ho by done.
    destruct Hc as [e r E|e r E|e r E|e r E|e r E|e r E|e r E]; revert E.
    + eapply sys_dup_settled; exact Ho.
    + eapply sys_close_settled; exact Ho.
    + eapply sys_open_settled; exact Ho.
    + eapply sys_pipe_settled; exact Ho.
    + eapply fork_settled; exact Ho.
    + intros E. apply bind_inv in E as (e1 & a & k1 & e2 & E1 & [= <- <- <-] & _).
      eapply exit_settled; [exact Ho|exact E1].
    + eapply wait_settled. exact Hs.
  - unfold settled, vw. rewrite Hf. apply (own_same _ _ (procs (kpt k))); [done|done|]. intros i p p' Hi Hi'.
    destruct (Hp i p p' Hi Hi'). auto.
Qed.

End Calls.

(** C14: in every sequence of system calls by any processes ([dup], [close], [open],
    [pipe], [fork], [exit] and [wait] in any order, with anything else that leaves
    descriptors alone in between) the reference count of each file is the number of
    descriptors that refer to it in all processes.  A file is typed exactly while
    somebody refers to it, so no descriptor ever makes [filedup], [fileclose],
    [fileread] or [filewrite] panic, and a process that is gone has no descriptors. *)
Theorem descriptor_counts {S} `{TxDisk S} kend kdata fr tr dev_read dev_write init_log (k0 k : kern (kfile S)) :
  at_boot k0 -> rtc (fd_step kend kdata fr tr dev_read dev_write init_log) k0 k ->
  (forall f x, files (k_ft (kfiles k)) !! f = Some x ->
     f_ref x = Z.of_nat (fds (procs (kpt k)) f) /\ (f_type x = FD_NONE <-> fds (procs (kpt k)) f = 0%nat))
  /\ (forall i p d f, procs (kpt k) !! i = Some p -> ofile p !! d = Some (Some f) ->
     state p <> UNUSED /\ state p <> ZOMBIE
     /\ exists x, files (k_ft (kfiles k)) !! f = Some x /\ 0 < f_ref x /\ f_type x <> FD_NONE).
Proof.
  intros Hb%settled_boot Hr. assert (settled k) as (Hl & g & [Hg Ht] & Hc).
  { revert Hb. induction Hr as [|x y z Hst _ IH]; [done|]. intros Hx. apply IH. eapply settled_step; [exact Hx|exact Hst]. }
  assert (forall f, g f = fds (procs (kpt k)) f) as Hgf by (intros f; specialize (Hc f); unfold none in Hc; lia).
  assert (Hfile : forall f x, files (k_ft (kfiles k)) !! f = Some x ->
     f_ref x = Z.of_nat (fds (procs (kpt k)) f) /\ (f_type x = FD_NONE <-> fds (procs (kpt k)) f = 0%nat)).
  { intros f x Hx. rewrite <- Hgf. split; [by apply (ro_ref _ Hg)|]. split; [|by apply (ro_free _ Hg)].
    intros Hn. destruct (decide (g f = 0%nat)); [done|]. by destruct (Ht f x Hx ltac:(lia) Hn). }
  split; [done|]. intros i p d f Hp Hd. pose proof (fds_ge _ _ _ f Hp). pose proof (fd_count_pos _ _ _ Hd).
  destruct (Hl i p Hp) as [_ Hcl]. split; [|split].
  { intros Hs. by specialize (Hcl (or_introl Hs) d _ Hd). }
  { intros Hs. by specialize (Hcl (or_intror Hs) d _ Hd). }
  destruct (files (k_ft (kfiles k)) !! f) as [x|] eqn:Hx.
  - destruct (Hfile f x Hx) as [Hr' Ht']. exists x. split; [done|]. split; [lia|]. rewrite Ht'. lia.
  - pose proof (ro_out _ Hg f Hx) as Ho. cbn in Ho. rewrite Hgf in Ho. lia.
Qed.

(** A process makes a pipe: the kernel after boot, with the process running, and
    after the call. *)
Definition piper : proc := set_state RUNNING (set_sz PGSIZE (set_pgdir 0x80200000 (set_stack 0x80203000 0 proc0))).
Definition pipe_boot (p : proc) : kern (kfile (logst (bio memide))) :=
  mk_kern (mk_ptable false (<[0%nat := p]> (replicate NPROC proc0)) None 2)
    (mk_kfile (new_fs (mk_logst (Bcache.boot new_disk) boot_log))
       (mk_pworld ∅ (mk_pmem (one_page 100 0 0) (mk_kmem false true 0x80204000)))
       (mk_ftable false (replicate NFILE file0)))
    0x200000 false 0 false.
Definition piped : kern (kfile (logst (bio memide))) :=
  match (sys_pipe 0x80100000 0 (pipe_boot piper)).2 with Ret _ k => k | _ => pipe_boot piper end.

Lemma piped_run : exists e r, sys_pipe 0x80100000 0 (pipe_boot piper) = (e, Ret r piped).
Proof.
  assert (value_of (sys_pipe 0x80100000 0 (pipe_boot piper)) = Some 0) as Hv by (vm_compute; reflexivity).
  revert Hv. unfold piped, value_of. destruct (sys_pipe _ _ _) as [e [r k| | | |]]; [|discriminate..].
  intros _. exists e, r. reflexivity.
Qed.

Lemma run_first n i p p' :
  <[0%nat := proc0]> (replicate n proc0) !! i = Some p -> <[0%nat := piper]> (replicate n proc0) !! i = Some p' ->
  ofile p' = ofile p /\ (state p' = UNUSED \/ state p' = ZOMBIE -> state p = UNUSED \/ state p = ZOMBIE).
Proof.
  intros [(<- & <- & _)|[Hne Hp]]%list_lookup_insert_Some [(Hi & <- & _)|[Hne' Hp']]%list_lookup_insert_Some; try done.
  - split; [done|]. by intros [|].
  - rewrite Hp in Hp'. injection Hp' as <-. auto.
Qed.

Lemma descriptor_counts_witness :
  exists k : kern (kfile (logst (bio memide))), exists x, files (k_ft (kfiles k)) !! 0%nat = Some x /\ f_ref x = 1
    /\ (f_type x = FD_NONE <-> fds (procs (kpt k)) 0 = 0%nat).
Proof.
  destruct piped_run as (e & r & E).
  assert (files (k_ft (kfiles piped)) !! 0%nat = Some (mk_file FD_PIPE 1 true false 0x80204000 0 0)) as Hx
    by (vm_compute; reflexivity).
  destruct (descriptor_counts 0x80100000 0 0 0 (fun _ => None) (fun _ => None) (fun _ => ret tt) (pipe_boot proc0) piped)
    as [Hf _].
  - split; [|reflexivity]. clear E Hx. cbn [kpt procs pipe_boot]. apply list_insert_id. reflexivity.
  - clear Hx. apply (rtc_l _ _ (pipe_boot piper)); [clear E|apply rtc_once].
    + apply step_background. split; [reflexivity|]. cbn [kpt procs pipe_boot]. split; [by rewrite !length_insert|].
      apply run_first.
    + apply (step_call _ _ _ _ _ _ _ _ _ 0 piper); [split; reflexivity|]. exact (call_pipe _ _ _ _ _ _ _ _ _ _ e r E).
  - exists piped, (mk_file FD_PIPE 1 true false 0x80204000 0 0). split; [exact Hx|]. split; [reflexivity|].
    apply (Hf _ _ Hx).
Defined.
