(* ===== verification/TrapSpec.v ===== *)
(** * What a trap does to the process it interrupts

    A process that is killed does not get back to user mode; a fault in user mode
    kills the process and one in the kernel stops the machine; a number that is no
    system call is answered with -1. *)

From stdpp Require Import base numbers list gmap strings.
From S2P Require Import Prelude Bytes Mem Str Kalloc Buf Memide Bio Bcache Log Recovery Pipe Fs File FsImage Links Vm Proc Syscall Sysfile Exec Segments Trap Args Calls.

Open Scope Z_scope.

Section Spec.
Context {S : Type} `{TxDisk S}.

Abbreviation K := (kern (kfile S)).

Lemma get_p_eq {A} (f : proc -> A) i (k : K) p : procs (kpt k) !! i = Some p -> get_p f i k = ([], Ret (f p) k).
Proof. intros Hp. unfold get_p, getp, zoom, bind, get, deref. cbn. rewrite Hp. by destruct k. Qed.

Lemma get_p_inv {A} (f : proc -> A) i (k k' : K) e a :
  get_p f i k = (e, Ret a k') -> e = [] /\ k' = k /\ exists p, procs (kpt k) !! i = Some p /\ a = f p.
Proof.
  unfold get_p, getp, zoom, bind, get, deref. cbn. destruct (procs (kpt k) !! i) as [p|]; cbn; [|done].
  intros [= <- <- <-]. destruct k. eauto.
Qed.

Lemma upd_p_eq i f (k : K) p :
  procs (kpt k) !! i = Some p -> upd_p i f k = ([], Ret tt (lset PT (on_procs (alter f i) (kpt k)) k)).
Proof. intros Hp. unfold upd_p, updp, zoom, bind, get, deref. cbn. by rewrite Hp. Qed.

Lemma load_eq a (k : K) : load a k = ([], Ret (load32 (ram (kpm k)) a) k).
Proof. unfold load, zoom. cbn. by destruct k as [? [? []] ? ? ? ?]. Qed.

Lemma store_eq a v (k : K) :
  store a v k = ([], Ret tt (lset PM (on_ram (fun m => store32 m a v) (kpm k)) k)).
Proof. reflexivity. Qed.

(** The first half of a computation speaks, and the second decides its end. *)
Lemma bind_end {X A B} (m : M X A) (f : A -> M X B) s e a s' :
  m s = (e, Ret a s') -> (bind m f s).2 = (f a s').2.
Proof. intros Hm. unfold bind. rewrite Hm. by destruct (f a s'). Qed.

(** The process is alive, and not killed, in [k]. *)
Definition not_killed (me : nat) (k : K) : Prop := exists p, procs (kpt k) !! me = Some p /\ killed p = false.

(** A trap that is neither a system call nor a device: a fault of the code that ran. *)
Definition fault_no (n : Z) : bool :=
  negb (existsb (Z.eqb n)
    [T_SYSCALL; T_IRQ0 + IRQ_TIMER; T_IRQ0 + IRQ_IDE; T_IRQ0 + IRQ_IDE + 1; T_IRQ0 + IRQ_KBD; T_IRQ0 + IRQ_COM1;
     T_IRQ0 + 7; T_IRQ0 + IRQ_SPURIOUS]).

Context (kend kdata fr tr : Z).
Context (dev_read : Z -> option (nat -> Z -> M (fsst S) (Z * list Z))).
Context (dev_write : Z -> option (nat -> list Z -> Z -> M (fsst S) Z)).
Context (init_log : Z -> M S unit).
Context (cprintf : string -> list carg -> M K unit).
Context (ideintr kbdintr uartintr lapiceoi : M K unit) (rcr2 : M K Z).

#[local] Instance spec_ops : FileOps (kfile S) := kfile_ops kend dev_read init_log.

Abbreviation the_trap := (trap kend kdata fr tr dev_read dev_write init_log cprintf ideintr kbdintr uartintr lapiceoi rcr2).

(** A message goes to the screen and leaves the processes and the memory alone. *)
Definition prints : Prop := forall f a k, exists e k',
  cprintf f a k = (e, Ret tt k') /\ kpt k' = kpt k /\ ram (kpm k') = ram (kpm k).

(** The register of the last fault is read. *)
Definition reads_cr2 : Prop := forall k, exists v, rcr2 k = ([], Ret v k).

Lemma exit_if_killed_inv me (k k' : K) e :
  exit_if_killed kend dev_read init_log me TReturn k = (e, Ret TReturn k') -> not_killed me k'.
Proof.
  intros (? & dead & k1 & ? & Hg & Hr & _)%bind_inv. apply get_p_inv in Hg as (_ & -> & p & Hp & ->).
  destruct (killed p) eqn:Hk.
  - apply bind_inv in Hr as (? & ? & ? & ? & _ & [=] & _).
  - injection Hr as _ <-. by exists p.
Qed.

Lemma fault_no_spec n : fault_no n = true ->
  (n =? T_SYSCALL) = false /\ (n =? T_IRQ0 + IRQ_TIMER) = false /\ (n =? T_IRQ0 + IRQ_IDE) = false
  /\ (n =? T_IRQ0 + IRQ_IDE + 1) = false /\ (n =? T_IRQ0 + IRQ_KBD) = false /\ (n =? T_IRQ0 + IRQ_COM1) = false
  /\ (n =? T_IRQ0 + 7) = false /\ (n =? T_IRQ0 + IRQ_SPURIOUS) = false.
Proof.
  unfold fault_no. cbn [existsb]. intros Hn%negb_true_iff. repeat (apply orb_false_iff in Hn as [? Hn]). auto 10.
Qed.

(** The default case of the switch, in user mode and in the kernel. *)
Lemma interrupt_user cpu me tf n (k : K) p :
  prints -> reads_cr2 -> fault_no n = true -> procs (kpt k) !! me = Some p ->
  exists e k1, interrupt cprintf ideintr kbdintr uartintr lapiceoi rcr2 cpu (Some me) tf n true k = (e, Ret tt k1)
    /\ procs (kpt k1) = alter (set_killed true) me (procs (kpt k)).
Proof.
  intros Hpr Hcr (_ & E1 & E2 & E3 & E4 & E5 & E6 & E7)%fault_no_spec Hp.
  unfold interrupt. rewrite E1, E2, E3, E4, E5, E6, E7. cbn [orb]. destruct (Hcr k) as [v Hv].
  run_with (load_eq (tf + TF_EIP) k). run_with Hv. run_with (get_p_eq pid _ _ _ Hp). run_with (get_p_eq name _ _ _ Hp).
  run_with (load_eq (tf + TF_ERR) k).
  match goal with |- context [cprintf ?f ?a] => destruct (Hpr f a k) as (e & k1 & Hc & Hpt & _) end.
  rewrite <- Hpt in Hp. eexists _, _. split.
  - eapply bind_ret_eq; [exact Hc|]. exact (upd_p_eq _ _ _ _ Hp).
  - cbn. by rewrite Hpt.
Qed.

Lemma interrupt_kernel cpu proc tf n (user : bool) (k : K) :
  prints -> reads_cr2 -> fault_no n = true -> (if user then proc else None) = None ->
  exists e, interrupt cprintf ideintr kbdintr uartintr lapiceoi rcr2 cpu proc tf n user k = (e, Panic "trap").
Proof.
  intros Hpr Hcr (_ & E1 & E2 & E3 & E4 & E5 & E6 & E7)%fault_no_spec Hn.
  unfold interrupt. rewrite E1, E2, E3, E4, E5, E6, E7, Hn. cbn [orb]. destruct (Hcr k) as [v Hv].
  run_with (load_eq (tf + TF_EIP) k). run_with Hv.
  match goal with |- context [cprintf ?f ?a] => destruct (Hpr f a k) as (e & k1 & Hc & _) end.
  eexists. eapply bind_ret_eq; [exact Hc|reflexivity].
Qed.

Lemma syscalls_none me stack n :
  ~ 1 <= n <= 21 -> syscalls kend kdata fr tr dev_read dev_write init_log me stack n = None.
Proof.
  intros Hn. unfold syscalls.
  repeat match goal with |- (if n =? ?c then _ else _) = None =>
    destruct (Z.eqb_spec n c); [subst n; exfalso; apply Hn; split; vm_compute; discriminate|] end.
  reflexivity.
Qed.

(** A number that is no call: a message, and -1 in the frame. *)
Lemma syscall_unknown me stack (k : K) p :
  prints -> procs (kpt k) !! me = Some p -> ~ 1 <= s32 (load32 (ram (kpm k)) (tf p + TF_EAX)) <= 21 ->
  exists e k', syscall kend kdata fr tr dev_read dev_write init_log cprintf me stack k = (e, Ret (SRet (-1)) k')
    /\ procs (kpt k') = procs (kpt k) /\ ram (kpm k') = store32 (ram (kpm k)) (tf p + TF_EAX) (-1).
Proof.
  intros Hpr Hp Hn. unfold syscall. run_with (get_p_eq tf _ _ _ Hp). run_with (load_eq (tf p + TF_EAX) k).
  rewrite syscalls_none by done. run_with (get_p_eq pid _ _ _ Hp). run_with (get_p_eq name _ _ _ Hp).
  match goal with |- context [cprintf ?f ?a] => destruct (Hpr f a k) as (e & k1 & Hc & Hpt & Hm) end.
  rewrite <- Hpt in Hp. eexists _, _. split; [|split].
  - eapply bind_ret_eq; [exact Hc|]. unfold set_eax. run_with (get_p_eq tf _ _ _ Hp).
    rewrite (bind_nil _ _ _ _ _ (store_eq _ _ _)). reflexivity.
  - cbn. by rewrite Hpt.
  - cbn. unfold kpm in Hm. cbn in Hm. by rewrite Hm.
Qed.

(** What is left of [trap] after the switch, for a process that was in user mode. *)
Lemma after_switch_inv me n (k k' : K) e :
  (let* dead := get_p killed me in
   if dead && true then exit me ;; ret TExit
   else
     let* st := get_p state me in
     if bool_decide (st = RUNNING) && (n =? T_IRQ0 + IRQ_TIMER) then zoom PT (yield me) ;; ret TYield
     else exit_if_killed kend dev_read init_log me TReturn) k = (e, Ret TReturn k') ->
  not_killed me k'.
Proof.
  intros (? & dead & k1 & ? & _ & Hr & _)%bind_inv. destruct (dead && true).
  { apply bind_inv in Hr as (? & ? & ? & ? & _ & [=] & _). }
  apply bind_inv in Hr as (? & st & k2 & ? & _ & Hr & _).
  destruct (bool_decide (st = RUNNING) && (n =? T_IRQ0 + IRQ_TIMER)); [|by apply exit_if_killed_inv in Hr].
  apply bind_inv in Hr as (? & ? & ? & ? & _ & [=] & _).
Qed.

Lemma trap_return_inv cpu me tf n stack (k k' : K) e :
  the_trap cpu (Some me) tf n true stack k = (e, Ret TReturn k') -> not_killed me k'.
Proof.
  unfold trap. destruct (n =? T_SYSCALL).
  - intros (? & me' & ? & ? & [= <- <- <-] & Hr & _)%bind_inv.
    apply bind_inv in Hr as (? & dead & ? & ? & _ & Hr & _). destruct dead.
    { apply bind_inv in Hr as (? & ? & ? & ? & _ & [=] & _). }
    apply bind_inv in Hr as (? & ? & ? & ? & _ & Hr & _). apply bind_inv in Hr as (? & r & ? & ? & _ & Hr & _).
    destruct r; [by apply exit_if_killed_inv in Hr|discriminate Hr..].
  - intros (? & ? & ? & ? & _ & Hr & _)%bind_inv. exact (after_switch_inv _ _ _ _ _ Hr).
Qed.

(** A process that was killed before its system call does not make it. *)
Lemma trap_syscall_killed cpu me tf user stack (k : K) p :
  procs (kpt k) !! me = Some p -> killed p = true ->
  the_trap cpu (Some me) tf T_SYSCALL user stack k = (exit me ;; ret TExit) k.
Proof.
  intros Hp Hk. unfold trap. rewrite Z.eqb_refl. cbn [deref]. run_with (eq_refl (ret (S := K) me k)).
  run_with (get_p_eq killed _ _ _ Hp). by rewrite Hk.
Qed.

Lemma trap_unknown_call cpu me tf user stack (k : K) p :
  prints -> procs (kpt k) !! me = Some p -> killed p = false -> ~ 1 <= s32 (load32 (ram (kpm k)) (tf + TF_EAX)) <= 21 ->
  exists e k', the_trap cpu (Some me) tf T_SYSCALL user stack k = (e, Ret TReturn k')
    /\ load32 (ram (kpm k')) (tf + TF_EAX) = 2 ^ 32 - 1
    /\ procs (kpt k') = alter (fun p => set_stack tf (context p) p) me (procs (kpt k)).
Proof.
  intros Hpr Hp Hk Hn. unfold trap. rewrite Z.eqb_refl. cbn [deref]. run_with (eq_refl (ret (S := K) me k)).
  run_with (get_p_eq killed _ _ _ Hp). rewrite Hk. run_with (upd_p_eq _ (fun p => set_stack tf (context p) p) _ _ Hp).
  set (k1 := lset PT _ k). set (p1 := set_stack tf (context p) p).
  assert (procs (kpt k1) !! me = Some p1) as Hp1.
  { change (alter (fun p => set_stack tf (context p) p) me (procs (kpt k)) !! me = Some p1).
    by rewrite list_lookup_alter_eq, Hp. }
  destruct (syscall_unknown me stack k1 p1 Hpr Hp1 Hn) as (e & k2 & Hs & Hpr2 & Hram).
  rewrite <- Hpr2 in Hp1. eexists _, k2. split; [|split].
  - eapply bind_ret_eq; [exact Hs|]. cbn beta iota. unfold exit_if_killed. run_with (get_p_eq killed _ _ _ Hp1).
    change (killed p1) with (killed p). rewrite Hk. reflexivity.
  - rewrite Hram. change (store32 (ram (kpm k1)) (Proc.tf p1 + TF_EAX) (-1))
      with (store32 (ram (kpm k1)) (tf + TF_EAX) (2 ^ 32 - 1)). by apply load32_store32_eq.
  - exact Hpr2.
Qed.

Lemma trap_fault_user cpu me tf n stack (k : K) p :
  prints -> reads_cr2 -> fault_no n = true -> procs (kpt k) !! me = Some p ->
  exists k1, procs (kpt k1) = alter (set_killed true) me (procs (kpt k))
    /\ (the_trap cpu (Some me) tf n true stack k).2 = ((exit me ;; ret TExit) k1).2.
Proof.
  intros Hpr Hcr Hn Hp. destruct (interrupt_user cpu me tf n k p Hpr Hcr Hn Hp) as (e & k1 & Hi & Hk1).
  assert (procs (kpt k1) !! me = Some (set_killed true p)) as Hp1 by by rewrite Hk1, list_lookup_alter_eq, Hp.
  exists k1. split; [done|]. unfold trap. rewrite (proj1 (fault_no_spec _ Hn)), (bind_end _ _ _ _ _ _ Hi).
  by run_with (get_p_eq killed _ _ _ Hp1).
Qed.

Lemma trap_fault_kernel cpu proc tf n (user : bool) stack (k : K) :
  prints -> reads_cr2 -> fault_no n = true -> user = false \/ proc = None ->
  (the_trap cpu proc tf n user stack k).2 = Panic "trap".
Proof.
  intros Hpr Hcr Hn Hu. assert ((if user then proc else None) = None) as Hnone by by destruct user, Hu.
  destruct (interrupt_kernel cpu proc tf n user k Hpr Hcr Hn Hnone) as [e Hi]. unfold trap.
  by rewrite (proj1 (fault_no_spec _ Hn)), (bind_panic_eq _ _ _ _ _ Hi).
Qed.

(** C16: how [trap] treats the process that it interrupts, whatever the devices do.
    - It goes back to user mode, at once or after a [yield], only with a process that is
      not killed; a process killed before its system call exits without making it.
    - A trap that is neither a call nor a device, from user mode, marks the process as
      killed and makes it exit; from the kernel, or with no process, it panics.
    - A number that is no system call puts -1 in [%eax] of the trap frame, which is
      where [proc->tf] then points, and the process goes on. *)
Theorem trap_kills cpu me tf n stack (k : K) p :
  prints -> reads_cr2 -> procs (kpt k) !! me = Some p ->
  (forall e k', the_trap cpu (Some me) tf n true stack k = (e, Ret TReturn k') -> not_killed me k')
  /\ (forall e k', trap_resume kend dev_read init_log me true k = (e, Ret TReturn k') -> not_killed me k')
  /\ (killed p = true -> the_trap cpu (Some me) tf T_SYSCALL true stack k = (exit me ;; ret TExit) k)
  /\ (fault_no n = true ->
      (exists k1, procs (kpt k1) = alter (set_killed true) me (procs (kpt k))
         /\ (the_trap cpu (Some me) tf n true stack k).2 = ((exit me ;; ret TExit) k1).2)
      /\ (forall pr user, user = false \/ pr = None -> (the_trap cpu pr tf n user stack k).2 = Panic "trap"))
  /\ (killed p = false -> ~ 1 <= s32 (load32 (ram (kpm k)) (tf + TF_EAX)) <= 21 ->
      exists e k', the_trap cpu (Some me) tf T_SYSCALL true stack k = (e, Ret TReturn k')
        /\ load32 (ram (kpm k')) (tf + TF_EAX) = 2 ^ 32 - 1
        /\ procs (kpt k') = alter (fun p => set_stack tf (context p) p) me (procs (kpt k))).
Proof.
  intros Hpr Hcr Hp. split_and!.
  - intros e k' Ht. by apply trap_return_inv in Ht.
  - intros e k' (? & ? & ? & ? & _ & Hr & _)%bind_inv. by apply exit_if_killed_inv in Hr.
  - by apply trap_syscall_killed.
  - intros Hn. split; [by eapply trap_fault_user|]. intros pr user Hu. by apply trap_fault_kernel.
  - by apply trap_unknown_call.
Qed.

End Spec.

(** The first process asks for call 0, on a machine whose messages are one character. *)
Lemma trap_kills_witness :
  exists e k', trap 0x80100000 0 0 0 (fun _ => None) (fun _ => None) (fun _ => ret tt) (fun _ _ => emit (EvPutc 63))
    (ret tt) (ret tt) (ret tt) (ret tt) (ret 0) 0 (Some 0%nat) 0x80203000 T_SYSCALL true [] (pipe_boot piper)
    = (e, Ret TReturn k') /\ load32 (ram (kpm k')) (0x80203000 + TF_EAX) = 2 ^ 32 - 1.
Proof.
  destruct (trap_kills 0x80100000 0 0 0 (fun _ => None) (fun _ => None) (fun _ => ret tt) (fun _ _ => emit (EvPutc 63))
    (ret tt) (ret tt) (ret tt) (ret tt) (ret 0) 0 0 0x80203000 T_SYSCALL [] (pipe_boot piper) piper)
    as (_ & _ & _ & _ & Hu).
  - intros f a k. exists [EvPutc 63], k. split; [reflexivity|]. split; reflexivity.
  - intros k. exists 0. reflexivity.
  - reflexivity.
  - destruct Hu as (e & k' & Ht & He & _); [reflexivity| |exists e, k'; split; [exact Ht|exact He]].
    intros [Hn _]. revert Hn. vm_compute. intros Hn. exact (Hn eq_refl).
Defined.
