(* ===== verification/ExecStack.v ===== *)
(** * The stack of a new program

    [uva2ka], [copyout] and [clearpteu] of vm.c on an address space, and with them the
    stack that exec.c builds: the guard page, the strings of the arguments, and the
    words that [main] of the program finds at its stack pointer. *)

From stdpp Require Import base numbers list gmap strings.
From S2P Require Import Prelude Bytes Mem Str Kalloc Buf Memide Bio Bcache Log Fs File Vm VmTable VmSpace VmCopy Uvm Proc Syscall Sysfile Exec Processes Calls.

Open Scope Z_scope.

(** ** Writing to the memory of a process *)

Section UserMem.

Context (kend : Z) (Hend : KERNBASE <= kend).

#[local] Abbreviation space := (space kend).
#[local] Abbreviation good_page := (good_page kend).

(** User code may touch the [len] bytes from [va]. *)
Definition reachable (U : gmap Z (Z * Z)) (va len : Z) : Prop :=
  forall a, va <= a < va + len -> exists p f, U !! vpn a = Some (p, f) /\ has f PTE_U = true.

(** The bytes [buf] were written at [va], and nothing else of the user's memory. *)
Definition wrote (s s' : pmem) (U : gmap Z (Z * Z)) (va : Z) (buf : list Z) : Prop :=
  forall a, ubyte s' U a
    = if (va <=? a) && (a <? va + Z.of_nat (length buf)) then nth (Z.to_nat (a - va)) buf 0 else ubyte s U a.

(** The pages that are not behind the [len] bytes from [va]. *)
Definition beside (U : gmap Z (Z * Z)) (va len q : Z) : Prop :=
  forall a f, va <= a < va + len -> U !! vpn a <> Some (q, f).

(** The entry of a mapped page. *)
Lemma walk_entry s l pgdir T U va p f :
  space s l pgdir T U -> 0 <= va < 2 ^ 32 -> U !! vpn va = Some (p, f) ->
  exists t, T !! dirx (vpn va) = Some t
    /\ walkpgdir pgdir va false s = ([], Ret (t + 4 * tabx (vpn va)) s)
    /\ (t + 4 * tabx (vpn va) =? 0) = false
    /\ read_pte (t + 4 * tabx (vpn va)) s = ([], Ret (entry (v2p p) f) s).
Proof.
  intros Hs Hva HU. destruct (slot_table kend _ _ _ _ _ _ _ _ Hs HU) as (t & Ht & Hsl).
  pose proof (sp_vm _ _ _ _ _ _ Hs) as Hi. destruct (vi_tab _ _ _ _ _ Hi _ _ Ht) as (Hgt & _).
  destruct (page_word kend Hend t (tabx (vpn va)) Hgt (tabx_range _)) as (_ & Hnz & _). apply Z.eqb_neq in Hnz.
  exists t. split; [done|]. split; [by apply (walk_hit kend Hend s l pgdir T)|]. split; [done|].
  by rewrite (read_pte_run _ s Hnz), Hsl.
Qed.

Lemma uva2ka_ok s l pgdir T U va p f :
  space s l pgdir T U -> 0 <= va < 2 ^ 32 -> U !! vpn va = Some (p, f) ->
  uva2ka pgdir va s = ([], Ret (if has f PTE_U then p else 0) s).
Proof.
  intros Hs Hva HU. destruct (walk_entry s l pgdir T U va p f Hs Hva HU) as (t & _ & Hw & _ & Hr).
  destruct (sp_page _ _ _ _ _ _ Hs _ _ _ HU) as (_ & Hg & _ & _ & Hf). destruct (v2p_page kend Hend p Hg) as (_ & Hv & Ha).
  unfold uva2ka. run_with Hw. run_with Hr.
  pose proof (entry_present (v2p p) f) as Hp. unfold present in Hp. rewrite Hp, entry_user by done. cbn [negb].
  destruct (has f PTE_U); [|done]. cbn [negb]. by rewrite entry_addr, (p2v_v2p kend Hend) by done.
Qed.

(** Some bytes of one page of the user. *)
Lemma fill_ok s l pgdir T U va p f buf n :
  space s l pgdir T U -> U !! vpn va = Some (p, f) -> bytes_ok buf ->
  0 <= n <= Z.of_nat (length buf) -> va `mod` PGSIZE + n <= PGSIZE ->
  let s' := on_ram (fun m => filled m (p + va `mod` PGSIZE) n (fun i => nth (Z.to_nat i) buf 0)) s in
  space s' l pgdir T U /\ wrote s s' U va (take (Z.to_nat n) buf) /\ kept kend (fun q => q <> p) s s'.
Proof.
  intros Hs HU Hb Hn Hlen s'. destruct (sp_page _ _ _ _ _ _ Hs _ _ _ HU) as (_ & Hg & Hpl & Hpt & _).
  pose proof (Z.mod_pos_bound va PGSIZE ltac:(done)) as Hm.
  assert (kept kend (fun q => q <> p) s s') as Hk.
  { intros q x Hq Hgq Hx. cbn. apply filled_out. intros Hx'. apply (good_page_disjoint kend q p x Hgq Hg Hq Hx). vm_consts. lia. }
  split; [|split; [|done]].
  - apply (space_frame kend s l pgdir T U (ram s')); [done| |].
    + intros x. cbn. pose proof (vi_ok _ _ _ _ _ (sp_vm _ _ _ _ _ _ Hs) x) as Hx. unfold filled.
      destruct (_ && _) eqn:E; [|done]. apply andb_true_iff in E as [E1%Z.leb_le E2%Z.ltb_lt].
      destruct (nth_lookup_or_length buf (Z.to_nat (x - (p + va `mod` PGSIZE))) 0) as [Hl|]; [|lia].
      by apply (proj1 (Forall_lookup _ _) Hb) in Hl.
    + intros q x Hq. apply Hk; [intros ->; by destruct Hq|]. destruct Hq as [Hq|[->|[i Hi]]].
      * exact (proj1 (Forall_forall _ _) (ai_good _ _ _ (vi_alloc _ _ _ _ _ (sp_vm _ _ _ _ _ _ Hs))) q Hq).
      * apply (sp_vm _ _ _ _ _ _ Hs).
      * apply (vi_tab _ _ _ _ _ (sp_vm _ _ _ _ _ _ Hs) _ _ Hi).
  - intros a. rewrite length_take_le, Z2Nat.id by lia.
    pose proof (Z.div_mod va PGSIZE ltac:(done)) as Dv. pose proof (Z.div_mod a PGSIZE ltac:(done)) as Da.
    pose proof (Z.mod_pos_bound a PGSIZE ltac:(done)) as Hma. unfold ubyte.
    destruct (decide (vpn a = vpn va)) as [E|E].
    + rewrite E, HU. cbn. unfold vpn in E. rewrite E in Da. unfold filled.
      replace (p + a `mod` PGSIZE - (p + va `mod` PGSIZE)) with (a - va) by lia.
      destruct (Z.leb_spec va a), (Z.ltb_spec a (va + n)),
        (Z.leb_spec (p + va `mod` PGSIZE) (p + a `mod` PGSIZE)),
        (Z.ltb_spec (p + a `mod` PGSIZE) (p + va `mod` PGSIZE + n)); try done; try lia.
      cbn [andb]. rewrite !nth_lookup, lookup_take_lt by lia. done.
    + assert ((va <=? a) && (a <? va + n) = false) as ->.
      { apply andb_false_iff. destruct (Z.leb_spec va a); [right|by left]. apply Z.ltb_ge.
        unfold vpn in E. vm_consts. nia. }
      destruct (U !! vpn a) as [[q g]|] eqn:Ea; [|done].
      destruct (sp_page _ _ _ _ _ _ Hs _ _ _ Ea) as (_ & Hgq & _).
      apply (Hk q); [|done|vm_consts; lia]. intros ->. apply E. exact (sp_inj _ _ _ _ _ _ Hs _ _ _ _ _ Ea HU).
Qed.

Lemma wrote_app s s1 s2 U va b1 b2 :
  wrote s s1 U va b1 -> wrote s1 s2 U (va + Z.of_nat (length b1)) b2 -> wrote s s2 U va (b1 ++ b2).
Proof.
  intros H1 H2 a. rewrite H2, H1, length_app, Nat2Z.inj_add.
  destruct (Z.leb_spec (va + Z.of_nat (length b1)) a), (Z.ltb_spec a (va + Z.of_nat (length b1) + Z.of_nat (length b2))),
    (Z.leb_spec va a), (Z.ltb_spec a (va + Z.of_nat (length b1))),
    (Z.ltb_spec a (va + (Z.of_nat (length b1) + Z.of_nat (length b2)))); cbn [andb]; try lia; try done.
  all: first [by rewrite app_nth1 by lia|rewrite app_nth2 by lia; f_equal; lia].
Qed.

(** The start of the page of an address. *)
Lemma page_start va : 0 <= va < 2 ^ 32 ->
  PGROUNDDOWN va = va - va `mod` PGSIZE /\ vpn (va - va `mod` PGSIZE) = vpn va /\ 0 <= va - va `mod` PGSIZE < 2 ^ 32.
Proof.
  intros Hw. split; [by apply land_pgmask|]. pose proof (Z.div_mod va PGSIZE ltac:(done)) as Dv.
  pose proof (Z.mod_pos_bound va PGSIZE ltac:(done)) as Hm.
  pose proof (Z.div_pos va PGSIZE ltac:(lia) ltac:(done)). split; [|vm_consts; lia]. unfold vpn. rewrite Dv at 1.
  replace (PGSIZE * (va / PGSIZE) + va `mod` PGSIZE - va `mod` PGSIZE) with (va / PGSIZE * PGSIZE) by lia. by apply Z.div_mul.
Qed.

(** Enough turns for the bytes that are left. *)
Lemma copyout_loop_ok l pgdir T U fuel : forall s va buf,
  let len := Z.of_nat (length buf) in
  space s l pgdir T U -> bytes_ok buf -> 0 <= va -> va + len <= KERNBASE -> reachable U va len ->
  va `mod` PGSIZE + len <= PGSIZE * Z.of_nat fuel ->
  exists s', copyout_loop fuel pgdir va buf len s = ([], Ret 0 s')
    /\ space s' l pgdir T U /\ wrote s s' U va buf /\ kept kend (beside U va len) s s'.
Proof.
  induction fuel as [|fuel IH]; intros s va buf len Hs Hb Hva Hto HR Hf; cbn [copyout_loop];
    pose proof (Z.mod_pos_bound va PGSIZE ltac:(done)) as Hm; destruct (Z.gtb_spec len 0) as [Hpos|Hz]; try lia.
  1, 3: exists s; split; [done|]; split; [done|]; split; [|done]; intros a; fold len;
    destruct (Z.leb_spec va a), (Z.ltb_spec a (va + len)); try done; lia.
  assert (KERNBASE = 2 ^ 31) as HK by done. assert (0 <= va < 2 ^ 32) as Hw by lia.
  destruct (HR va) as (p & f & HU & Hf'); [lia|].
  destruct (sp_page _ _ _ _ _ _ Hs _ _ _ HU) as (_ & Hg & _). pose proof (good_page_range kend Hend p Hg) as Hgr.
  pose proof (Z.div_mod va PGSIZE ltac:(done)) as Dv. destruct (page_start va Hw) as (-> & Hv0 & Hw0).
  rewrite <- Hv0 in HU. run_with (uva2ka_ok s l pgdir T U _ p f Hs Hw0 HU). rewrite Hf', Hv0 in *. clear Hw0.
  assert ((p =? 0) = false) as -> by (apply Z.eqb_neq; vm_consts; lia). cbv zeta.
  replace (va - (va - va `mod` PGSIZE)) with (va `mod` PGSIZE) by lia.
  set (n := if PGSIZE - va `mod` PGSIZE >? len then len else PGSIZE - va `mod` PGSIZE).
  assert (n = Z.min len (PGSIZE - va `mod` PGSIZE)) as Hn by (unfold n; destruct (Z.gtb_spec (PGSIZE - va `mod` PGSIZE) len); lia).
  clearbody n. rewrite u32_small by (vm_consts; lia).
  destruct (fill_ok s l pgdir T U va p f buf n Hs HU Hb) as (Hs1 & W1 & K1); [lia|lia|].
  erewrite bind_nil by reflexivity. set (s1 := on_ram _ s) in *. clearbody s1.
  assert (Z.of_nat (length (drop (Z.to_nat n) buf)) = len - n) as Hl by (rewrite length_drop; lia).
  destruct (decide (n = len)) as [->|Hne].
  - rewrite Z.sub_diag. exists s1. split; [by destruct fuel|]. split; [done|]. split.
    + by rewrite take_ge in W1 by lia.
    + apply (kept_weaken kend _ _ _ _ K1). intros q Hq ->. by apply (Hq va f); [lia|].
  - assert (va - va `mod` PGSIZE + PGSIZE = va + n) as -> by lia. rewrite u32_small by lia.
    assert ((va + n) `mod` PGSIZE = 0) as Hm0.
    { rewrite Dv, Hn, Z.min_r by lia. replace (_ + _) with (0 + (va / PGSIZE + 1) * PGSIZE) by lia. by rewrite Z.mod_add. }
    destruct (IH s1 (va + n) (drop (Z.to_nat n) buf)) as (s2 & E2 & Hs2 & W2 & K2); rewrite ?Hl, ?Hm0; try done; try lia.
    + by apply Forall_drop.
    + intros a Ha. apply HR. lia.
    + rewrite Hl in E2, K2. exists s2. split; [done|]. split; [done|]. split.
      * rewrite <- (take_drop (Z.to_nat n) buf). apply (wrote_app _ s1); [done|]. by rewrite length_take_le, Z2Nat.id by lia.
      * eapply kept_trans; [apply (kept_weaken kend _ (beside U va len) _ _ K1)|exact K2|].
        -- intros q Hq ->. by apply (Hq va f); [lia|].
        -- intros q Hq a g Ha. apply Hq. lia.
Qed.

(** [copyout] writes its bytes at [va], across pages if it must. *)
Lemma copyout_ok s l pgdir T U va buf :
  let len := Z.of_nat (length buf) in
  space s l pgdir T U -> bytes_ok buf -> 0 <= va -> va + len <= KERNBASE -> reachable U va len ->
  exists s', copyout pgdir va buf len s = ([], Ret 0 s')
    /\ space s' l pgdir T U /\ wrote s s' U va buf /\ kept kend (beside U va len) s s'.
Proof.
  intros len Hs Hb Hva Hto HR. apply copyout_loop_ok; try done.
  pose proof (Z.mod_pos_bound va PGSIZE ltac:(done)) as Hm. pose proof (Z.div_mod len PGSIZE ltac:(done)) as Dl.
  pose proof (Z.mod_pos_bound len PGSIZE ltac:(done)) as Hm'. pose proof (Z.div_pos len PGSIZE ltac:(lia) ltac:(done)).
  rewrite Z2Nat.id by lia. fold len. vm_consts. lia.
Qed.

(** It stops at once at a page that is not for the user. *)
Lemma copyout_guard s l pgdir T U va buf len p f :
  space s l pgdir T U -> 0 <= va < 2 ^ 32 -> 0 < len -> U !! vpn va = Some (p, f) -> has f PTE_U = false ->
  copyout pgdir va buf len s = ([], Ret (-1) s).
Proof.
  intros Hs Hva Hlen HU Hf. unfold copyout. destruct (Z.to_nat (len / PGSIZE + 2)) as [|k] eqn:E.
  { pose proof (Z.div_pos len PGSIZE ltac:(lia) ltac:(done)). lia. }
  cbn [copyout_loop]. destruct (Z.gtb_spec len 0); [|lia]. destruct (page_start va Hva) as (-> & Hv0 & Hw0).
  rewrite <- Hv0 in HU. run_with (uva2ka_ok s l pgdir T U _ p f Hs Hw0 HU). by rewrite Hf.
Qed.

Definition guarded (f : Z) : Z := Z.land f (u32 (Z.lnot PTE_U)).

Lemma guarded_ok f : 0 <= f < PGSIZE -> 0 <= guarded f < PGSIZE /\ has (guarded f) PTE_U = false.
Proof.
  intros Hf. unfold guarded, has. split.
  - assert (f = Z.land f (Z.ones 12)) as -> by (rewrite Z.land_ones, Z.mod_small by done || lia; done).
    rewrite <- Z.land_assoc, (Z.land_comm (Z.ones 12)), Z.land_assoc, Z.land_ones by lia. by apply Z.mod_pos_bound.
  - rewrite <- Z.land_assoc. change (Z.land (u32 (Z.lnot PTE_U)) PTE_U) with 0. by rewrite Z.land_0_r.
Qed.

Lemma entry_guarded pa f : 0 <= pa < 2 ^ 32 -> pa `mod` PGSIZE = 0 ->
  Z.land (entry pa f) (u32 (Z.lnot PTE_U)) = entry pa (guarded f).
Proof.
  intros Hpa Ha. unfold entry, guarded. rewrite !Z.land_lor_distr_l.
  change (Z.land PTE_P (u32 (Z.lnot PTE_U))) with PTE_P. f_equal. f_equal.
  change (u32 (Z.lnot PTE_U)) with (Z.ldiff (Z.ones 32) PTE_U).
  rewrite Z.ldiff_land, Z.land_assoc, <- Z.ldiff_land, Z.land_ones, Z.mod_small by done || lia.
  rewrite <- (Z.lor_ldiff_and pa PTE_U) at 2. rewrite land_low by done. by rewrite Z.lor_0_r.
Qed.

(** [clearpteu] takes the page from the user. *)
Lemma clearpteu_ok s l pgdir T U va p f :
  space s l pgdir T U -> 0 <= va < 2 ^ 32 -> U !! vpn va = Some (p, f) ->
  exists s', clearpteu pgdir va s = ([], Ret tt s') /\ space s' l pgdir T (<[vpn va := (p, guarded f)]> U)
    /\ kept kend (fun q => ~ tables pgdir T q) s s'.
Proof.
  intros Hs Hva HU. destruct (walk_entry s l pgdir T U va p f Hs Hva HU) as (t & Ht & Hw & Hnz & Hr).
  destruct (sp_page _ _ _ _ _ _ Hs _ _ _ HU) as (Hn & Hg & Hpl & Hpt & Hf). destruct (v2p_page kend Hend p Hg) as (_ & Hv & Ha).
  destruct (guarded_ok f Hf) as [Hgf _]. pose proof (vpn_range va Hva) as Hn20.
  destruct (set_slot kend s l pgdir T (vpn va) t (entry (v2p p) (guarded f)) (sp_vm _ _ _ _ _ _ Hs) Hn20 Ht) as [Hst Hsl];
    [by apply entry_range|].
  eexists. split; [|split].
  - unfold clearpteu. run_with Hw. rewrite Hnz. run_with Hr. rewrite entry_guarded by done. reflexivity.
  - destruct Hs as [Hi Hslot Hpg Hinj]. constructor.
    + apply Hst.
    + intros n Hn'. cbn [on_ram ram]. specialize (Hslot n Hn'). rewrite UPAGES_eq in Hn'. rewrite Hsl by lia.
      destruct (Z.eqb_spec n (vpn va)) as [->|]; [by rewrite lookup_insert_eq|by rewrite lookup_insert_ne].
    + intros n q g [[<- [= <- <-]]|[_ HU']]%lookup_insert_Some; [done|by apply Hpg].
    + intros n m q g g' [[<- [= <- <-]]|[_ H1]]%lookup_insert_Some [[<- E]|[_ H2]]%lookup_insert_Some; try done.
      * by eapply Hinj.
      * injection E as -> _. by eapply Hinj.
      * by eapply Hinj.
  - intros q x Hq Hgq Hx. apply (vs_frame _ _ _ _ _ _ _ _ Hst q); auto.
    + intros ->. apply Hq. by left.
    + intros i Hi. apply Hq. right. by exists i.
Qed.

End UserMem.

(** ** The words and strings of the stack *)

(** A word of user memory. *)
Definition uword (s : pmem) (U : gmap Z (Z * Z)) (a : Z) : Z := load32 (ubyte s U) a.

(** The bytes that string [s] takes, with its 0 and up to a whole word. *)
Definition string_size (s : list Z) : Z := (Z.of_nat (length s) + 4) / 4 * 4.

Fixpoint strings_size (argv : list (list Z)) : Z :=
  match argv with [] => 0 | s :: argv => string_size s + strings_size argv end.

(** Where the strings go below [sp]. *)
Fixpoint string_ptrs (sp : Z) (argv : list (list Z)) : list Z :=
  match argv with [] => [] | s :: argv => (sp - string_size s) :: string_ptrs (sp - string_size s) argv end.

Lemma string_size_ok s : string_size s `mod` 4 = 0 /\ Z.of_nat (length s) + 1 <= string_size s < Z.of_nat (length s) + 5.
Proof. unfold string_size. split; [by apply Z.mod_mul|]. Z.to_euclidean_division_equations. lia. Qed.

Lemma strings_size_ok argv : strings_size argv `mod` 4 = 0 /\ 0 <= strings_size argv.
Proof.
  induction argv as [|s argv [IH1 IH2]]; cbn [strings_size]; [done|]. destruct (string_size_ok s) as [H1 H2].
  split; [|lia]. by rewrite Zplus_mod, H1, IH1.
Qed.

Lemma land_word a : 0 <= a < 2 ^ 32 -> Z.land a (u32 (Z.lnot 3)) = a - a `mod` 4.
Proof.
  intros Ha. change (u32 (Z.lnot 3)) with (Z.ldiff (Z.ones 32) (Z.ones 2)).
  rewrite Z.ldiff_land, Z.land_assoc, <- Z.ldiff_land, Z.land_ones, Z.mod_small by lia.
  rewrite Z.ldiff_ones_r, Z.shiftl_mul_pow2, Z.shiftr_div_pow2 by lia. change (2 ^ 2) with 4.
  pose proof (Z.div_mod a 4 ltac:(done)). lia.
Qed.

Lemma push_string_eq sp s : sp `mod` 4 = 0 -> Z.of_nat (length s) + 1 <= sp < 2 ^ 32 ->
  push_string sp s = sp - string_size s.
Proof.
  intros Hm Hr. unfold push_string, string_size. rewrite u32_small, land_word by lia.
  Z.to_euclidean_division_equations. lia.
Qed.

Lemma length_words ws : length (ws ≫= word_bytes) = (4 * length ws)%nat.
Proof. induction ws as [|w ws IH]; [done|]. cbn [mbind list_bind]. rewrite length_app, IH. cbn. lia. Qed.

Lemma words_ok ws : bytes_ok (ws ≫= word_bytes).
Proof.
  unfold bytes_ok. apply Forall_bind, Forall_true. intros w. apply put32_bytes_ok. repeat constructor; lia.
Qed.

Lemma words_nth ws : forall i w j, ws !! i = Some w -> (j < 4)%nat ->
  nth (4 * i + j) (ws ≫= word_bytes) 0 = nth j (word_bytes w) 0.
Proof.
  induction ws as [|w0 ws IH]; intros i w j Hi Hj; [done|]. cbn [mbind list_bind].
  assert (length (word_bytes w0) = 4%nat) as Hl by done. destruct i as [|i]; cbn in Hi.
  - injection Hi as ->. rewrite app_nth1 by lia. done.
  - rewrite app_nth2 by lia. rewrite <- (IH i w j Hi Hj). f_equal. lia.
Qed.

Lemma word_read s s' U a ws i w :
  wrote s s' U a (ws ≫= word_bytes) -> ws !! i = Some w -> 0 <= w < 2 ^ 32 -> uword s' U (a + 4 * Z.of_nat i) = w.
Proof.
  intros W Hi Hw. pose proof (lookup_lt_Some _ _ _ Hi) as Hlt.
  assert (forall j, (j < 4)%nat -> ubyte s' U (a + 4 * Z.of_nat i + Z.of_nat j) = nth j (word_bytes w) 0) as Hb.
  { intros j Hj. rewrite W, length_words.
    destruct (Z.leb_spec a (a + 4 * Z.of_nat i + Z.of_nat j)), (Z.ltb_spec (a + 4 * Z.of_nat i + Z.of_nat j) (a + Z.of_nat (4 * length ws)));
      cbn [andb]; try lia. rewrite <- (words_nth ws i w j Hi Hj). f_equal. lia. }
  pose proof (Hb 0%nat ltac:(lia)) as H0. pose proof (Hb 1%nat ltac:(lia)) as H1.
  pose proof (Hb 2%nat ltac:(lia)) as H2. pose proof (Hb 3%nat ltac:(lia)) as H3. rewrite Z.add_0_r in H0.
  change (Z.of_nat 1) with 1 in H1. change (Z.of_nat 2) with 2 in H2. change (Z.of_nat 3) with 3 in H3.
  unfold uword, load32. rewrite H0, H1, H2, H3. by apply byte_combine.
Qed.

(** What [main] of the program finds at the stack pointer [sp]: the fake return
    address, [argc], [argv], and behind it the pointers to the arguments, each a string
    in the page from [base], and a null pointer. *)
Record main_frame (s : pmem) (U : gmap Z (Z * Z)) (base sp : Z) (argv : list (list Z)) : Prop := {
  mf_sp : base <= sp /\ sp `mod` 4 = 0;
  mf_ret : uword s U sp = 0xffffffff;
  mf_argc : uword s U (sp + 4) = Z.of_nat (length argv);
  mf_argv : uword s U (sp + 8) = sp + 12;
  mf_args : forall i str, argv !! i = Some str -> exists ptr, uword s U (sp + 12 + 4 * Z.of_nat i) = ptr
    /\ base <= ptr /\ ptr + Z.of_nat (length str) < base + PGSIZE
    /\ forall j, (j <= length str)%nat -> ubyte s U (ptr + Z.of_nat j) = nth j str 0;
  mf_null : uword s U (sp + 12 + 4 * Z.of_nat (length argv)) = 0
}.

Section Stack.

Context {S : Type} `{TxDisk S} (kend : Z) (Hend : KERNBASE <= kend).

#[local] Abbreviation K := (kern (kfile S)).
#[local] Abbreviation space := (space kend).

Lemma kpm_set s (k : K) : kpm (lset PM s k) = s.
Proof. done. Qed.

Lemma set_set s s' (k : K) : lset PM s (lset PM s' k) = lset PM s k.
Proof. done. Qed.

Lemma set_get (k : K) : lset PM (kpm k) k = k.
Proof. by destruct k as [? [? [] ?] ????]. Qed.

(** The stack page [p] at [base], above a page that is not for the user. *)
Record stack_at (U : gmap Z (Z * Z)) (base p : Z) : Prop := {
  sa_base : base `mod` PGSIZE = 0 /\ PGSIZE <= base /\ base + PGSIZE <= KERNBASE;
  sa_stack : exists f, U !! vpn base = Some (p, f) /\ has f PTE_U = true;
  sa_guard : exists g f, U !! (vpn base - 1) = Some (g, f) /\ has f PTE_U = false
}.

Lemma in_stack base a : base `mod` PGSIZE = 0 -> base <= a < base + PGSIZE -> vpn a = vpn base.
Proof. intros Hb Ha. unfold vpn. vm_consts. Z.to_euclidean_division_equations. lia. Qed.

Lemma in_guard base a : base `mod` PGSIZE = 0 -> base - PGSIZE <= a < base -> vpn a = vpn base - 1.
Proof. intros Hb Ha. unfold vpn. vm_consts. Z.to_euclidean_division_equations. lia. Qed.

(** A write that ends in the stack page succeeds if it starts there, too. *)
Lemma stack_write s l pgdir T U base p va buf len :
  space s l pgdir T U -> stack_at U base p -> bytes_ok buf -> len = Z.of_nat (length buf) -> 0 < len ->
  base - PGSIZE <= va -> va + len <= base + PGSIZE ->
  exists s', copyout pgdir va buf len s = ([], Ret (if base <=? va then 0 else -1) s')
    /\ space s' l pgdir T U /\ kept kend (fun q => q <> p) s s'
    /\ (base <= va -> wrote s s' U va buf) /\ (va < base -> s' = s).
Proof.
  intros Hs [(Hb & Hlo & Hhi) (f & HU & Hf) (g & fg & HG & Hfg)] Hok -> Hlen Hva Hto. assert (KERNBASE = 2 ^ 31) as HK by done.
  destruct (Z.leb_spec base va) as [Hle|Hlt].
  - destruct (copyout_ok kend Hend s l pgdir T U va buf Hs Hok) as (s' & E & Hs' & W & Hk); [vm_consts; lia..| |].
    { intros a Ha. exists p, f. by rewrite (in_stack base) by (done || lia). }
    exists s'. split; [done|]. split; [done|]. split; [|split; [done|lia]]. apply (kept_weaken kend _ _ _ _ Hk).
    intros q Hq a g' Ha. rewrite (in_stack base) by (done || lia). rewrite HU. by intros [= <- _].
  - exists s. split; [|split; [done|split; [done|split; [lia|done]]]].
    apply (copyout_guard kend Hend s l pgdir T U va buf _ g fg); try done; [vm_consts; lia|]. by rewrite (in_guard base).
Qed.

(** String [str] with its 0 at [ptr]. *)
Definition ustring (s : pmem) (U : gmap Z (Z * Z)) (ptr : Z) (str : list Z) : Prop :=
  forall j, (j <= length str)%nat -> ubyte s U (ptr + Z.of_nat j) = nth j str 0.

Lemma wrote_string s s' U ptr str : wrote s s' U ptr (str ++ [0]) -> ustring s' U ptr str.
Proof.
  intros W j Hj. rewrite W, length_app. cbn [length].
  destruct (Z.leb_spec ptr (ptr + Z.of_nat j)), (Z.ltb_spec (ptr + Z.of_nat j) (ptr + Z.of_nat (length str + 1))); cbn [andb]; try lia.
  rewrite Z.add_simpl_l, Nat2Z.id. destruct (decide (j = length str)) as [->|].
  - rewrite app_nth2, Nat.sub_diag by lia. symmetry. by apply nth_overflow.
  - by rewrite app_nth1 by lia.
Qed.

Lemma wrote_above s s' U va buf a : wrote s s' U va buf -> va + Z.of_nat (length buf) <= a -> ubyte s' U a = ubyte s U a.
Proof. intros W Ha. rewrite W. destruct (Z.ltb_spec a (va + Z.of_nat (length buf))); [lia|]. by rewrite andb_false_r. Qed.

Definition arg_ok (str : list Z) : Prop := bytes_ok str /\ Z.of_nat (length str) < PGSIZE.

Lemma push_args_ok l pgdir T U base p : stack_at U base p ->
  forall argv argc sp (k : K), Forall arg_ok argv -> space (kpm k) l pgdir T U ->
  (argc <= MAXARG)%nat -> sp `mod` 4 = 0 -> base <= sp <= base + PGSIZE ->
  let sp' := sp - strings_size argv in
  let ok := (argc + length argv <=? MAXARG)%nat && (base <=? sp') in
  exists s', push_args argc pgdir sp argv k
      = ([], Ret (if ok then Some (sp', string_ptrs sp argv) else None) (lset PM s' k))
    /\ space s' l pgdir T U /\ kept kend (fun q => q <> p) (kpm k) s'
    /\ (ok = true -> Forall2 (ustring s' U) (string_ptrs sp argv) argv)
    /\ forall a, sp <= a -> ubyte s' U a = ubyte (kpm k) U a.
Proof.
  intros Hst. pose proof (sa_base _ _ _ Hst) as (Hb & Hlo & Hhi). assert (KERNBASE = 2 ^ 31) as HK by done.
  induction argv as [|str argv IH]; intros argc sp k Hok Hs Hargc Hm Hsp sp' ok.
  - exists (kpm k). assert (ok = true) as -> by (unfold ok, sp'; cbn; apply andb_true_iff; split; [apply Nat.leb_le|apply Z.leb_le]; lia).
    rewrite set_get. unfold sp'. cbn. rewrite Z.sub_0_r. by split_and!.
  - apply Forall_cons in Hok as [[Hb1 Hl1] Hok]. cbn [push_args]. destruct (Nat.leb_spec MAXARG argc) as [Hge|Hlt].
    { exists (kpm k). assert (ok = false) as -> by (unfold ok; cbn [length]; destruct (Nat.leb_spec (argc + Datatypes.S (length argv)) MAXARG); [lia|done]).
      rewrite set_get. by split_and!. }
    destruct (string_size_ok str) as [Hsm Hss]. assert (string_size str <= PGSIZE) as Hsz.
    { unfold string_size. vm_consts. Z.to_euclidean_division_equations. lia. }
    rewrite push_string_eq by (done || vm_consts; lia). cbv zeta. subst ok sp'. cbn [strings_size string_ptrs length].
    destruct (strings_size_ok argv) as [_ Hnn].
    destruct (stack_write (kpm k) l pgdir T U base p (sp - string_size str) (str ++ [0]) (Z.of_nat (length str) + 1) Hs Hst)
      as (s1 & E1 & Hs1 & K1 & W1 & Q1); [apply Forall_app; split; [done|repeat constructor; lia]|rewrite length_app; cbn; lia|lia..|].
    run_with (zoom_ret PM _ k _ _ E1). destruct (Z.leb_spec base (sp - string_size str)) as [Hin|Hout].
    + cbn [Z.ltb Z.compare]. specialize (W1 Hin).
      destruct (IH (Datatypes.S argc) (sp - string_size str) (lset PM s1 k)) as (s2 & E2 & Hs2 & K2 & F2 & A2);
        [done|done|lia|by rewrite Zminus_mod, Hm, Hsm|lia|].
      rewrite kpm_set, set_set in *. run_with E2.
      rewrite Z.sub_add_distr, Nat.add_succ_r. rewrite Nat.add_succ_l in *.
      exists s2. split; [by destruct (_ && _)|]. split; [done|]. split; [|split].
      * eapply kept_trans; [exact K1|exact K2|done].
      * intros Ht. constructor; [|by apply F2]. intros j Hj. rewrite A2 by lia. by apply (wrote_string _ _ _ _ _ W1).
      * intros a Ha. rewrite A2 by lia. apply (wrote_above _ _ _ _ _ _ W1). rewrite length_app. cbn. lia.
    + cbn [Z.ltb Z.compare]. exists s1. assert ((base <=? sp - (string_size str + strings_size argv)) = false) as -> by (apply Z.leb_gt; lia).
      rewrite andb_false_r. split_and!; try done. intros a _. by rewrite Q1.
Qed.

Lemma length_ptrs argv : forall sp, length (string_ptrs sp argv) = length argv.
Proof. induction argv as [|str argv IH]; intros sp; cbn; [done|]. by rewrite IH. Qed.

Lemma string_ptrs_range argv : forall sp i ptr str,
  string_ptrs sp argv !! i = Some ptr -> argv !! i = Some str ->
  sp - strings_size argv <= ptr /\ ptr + Z.of_nat (length str) < sp.
Proof.
  induction argv as [|s0 argv IH]; intros sp i ptr str Hp Hi; [done|].
  destruct (string_size_ok s0) as [_ Hs]. destruct (strings_size_ok argv) as [_ Hn].
  destruct i as [|i]; cbn in *; [simplify_eq; lia|]. pose proof (IH _ _ _ _ Hp Hi). lia.
Qed.

(** The words below the strings. *)
Lemma main_frame_ok s s' U base argv :
  base `mod` PGSIZE = 0 -> 0 <= base -> base + PGSIZE <= KERNBASE -> (length argv <= MAXARG)%nat ->
  let top := base + PGSIZE in
  let sp0 := top - strings_size argv in
  let sp := sp0 - 4 * (Z.of_nat (length argv) + 4) in
  base <= sp -> Forall2 (ustring s U) (string_ptrs top argv) argv ->
  wrote s s' U sp (ustack sp0 (string_ptrs top argv) ≫= word_bytes) -> main_frame s' U base sp argv.
Proof.
  intros Hb H0 Hhi Hargc top sp0 sp Hsp HF W. assert (KERNBASE = 2 ^ 31) as HK by done. unfold MAXARG in Hargc.
  destruct (strings_size_ok argv) as [Hm4 Hnn]. pose proof (length_ptrs argv top) as Hlp.
  assert (forall i w, ustack sp0 (string_ptrs top argv) !! i = Some w -> 0 <= w < 2 ^ 32 -> uword s' U (sp + 4 * Z.of_nat i) = w) as HW.
  { intros i w. by apply (word_read s). }
  constructor.
  - split; [done|]. unfold sp, sp0, top. vm_consts. Z.to_euclidean_division_equations. lia.
  - rewrite <- (HW 0%nat 0xffffffff); [f_equal; lia|done|lia].
  - rewrite <- (HW 1%nat (Z.of_nat (length argv))); [f_equal; lia|cbn; by rewrite Hlp|lia].
  - rewrite <- (HW 2%nat (sp + 12)); [f_equal; lia| |vm_consts; lia].
    cbn. rewrite Hlp, u32_small by (vm_consts; lia). f_equal. lia.
  - intros i str Hi. destruct (lookup_lt_is_Some_2 (string_ptrs top argv) i) as [ptr Hp]; [rewrite Hlp; by eapply lookup_lt_Some|].
    pose proof (string_ptrs_range argv top i ptr str Hp Hi) as Hr. exists ptr. split_and!; [|lia|lia|].
    + rewrite <- (HW (3 + i)%nat ptr); [f_equal; lia|cbn; by apply lookup_app_l_Some|vm_consts; lia].
    + intros j Hj. rewrite (wrote_above _ _ _ _ _ _ W).
      * by apply (Forall2_lookup_lr _ _ _ _ _ _ HF Hp Hi).
      * rewrite length_words. cbn. rewrite length_app, Hlp. cbn. lia.
  - replace (sp + 12 + 4 * Z.of_nat (length argv)) with (sp + 4 * Z.of_nat (3 + length argv)) by lia. apply HW; [|lia].
    etrans; [apply (lookup_app_r (string_ptrs top argv) [0] (length argv)); lia|by rewrite Hlp, Nat.sub_diag].
Qed.

Lemma npages_mul k : 0 <= k -> npages (PGSIZE * k) = Z.to_nat k.
Proof. intros Hk. unfold npages. f_equal. vm_consts. Z.to_euclidean_division_equations. lia. Qed.

(** The two new pages, the lower one a guard. *)
Lemma stack_pages s l pgdir T U n :
  space s l pgdir T U -> upto U 0 (Z.of_nat n) -> PGSIZE * (Z.of_nat n + 2) < KERNBASE -> (4 <= length l)%nat ->
  exists s1 s2 l' T' U' p,
    allocuvm kend pgdir (PGSIZE * Z.of_nat n) (PGSIZE * (Z.of_nat n + 2)) s = ([], Ret (PGSIZE * (Z.of_nat n + 2)) s1)
    /\ clearpteu pgdir (PGSIZE * Z.of_nat n) s1 = ([], Ret tt s2)
    /\ space s2 l' pgdir T' U' /\ stack_at U' (PGSIZE * (Z.of_nat n + 1)) p /\ p ∈ l
    /\ kept kend (fun q => (q ∉ l) /\ ~ tables pgdir T q) s s2
    /\ (forall i, i < Z.of_nat n -> U' !! i = U !! i) /\ upto U' 0 (Z.of_nat n + 2).
Proof.
  intros Hs Hto Hhi Hl. assert (KERNBASE = 2 ^ 31) as HK by done.
  assert (forall i, is_Some (U !! i) -> 0 <= i < Z.of_nat n) as Hsome.
  { intros i [[p f] Hi]. destruct (sp_page _ _ _ _ _ _ Hs _ _ _ Hi) as (? & _). split; [lia|]. apply Hto; [lia|by eexists]. }
  destruct (allocuvm_ok kend s l pgdir T U (PGSIZE * Z.of_nat n) (PGSIZE * (Z.of_nat n + 2)) Hend Hs)
    as (s1 & l1 & T1 & U1 & E1 & Hs1 & Hsuf & _ & K1 & Ht1 & Hg1 & Hg2); rewrite ?npages_mul by lia; try (vm_consts; lia).
  { intros i Hi. apply eq_None_not_Some. intros ?%Hsome. lia. }
  rewrite !npages_mul in Hg1, Hg2 by lia.
  destruct (Hg2 (Z.of_nat n)) as (g & Hg & _); [lia|]. destruct (Hg2 (Z.of_nat n + 1)) as (p & Hp & Hpl & _); [lia|].
  pose proof Hg as Hg'. rewrite <- (vpn_page (Z.of_nat n)) in Hg'.
  destruct (clearpteu_ok kend Hend s1 l1 pgdir T1 U1 (PGSIZE * Z.of_nat n) g USER Hs1) as (s2 & E2 & Hs2 & K2); [vm_consts; lia|done|].
  rewrite vpn_page in Hs2. exists s1, s2, l1, T1, (<[Z.of_nat n := (g, guarded USER)]> U1), p.
  split; [done|]. split; [done|]. split; [done|]. split; [|split; [done|split; [|split]]].
  - constructor.
    + split; [by rewrite Z.mul_comm, Z.mod_mul|]. vm_consts; lia.
    + exists USER. rewrite vpn_page, lookup_insert_ne by lia. done.
    + exists g, (guarded USER). rewrite vpn_page, Z.add_simpl_r, lookup_insert_eq. done.
  - eapply kept_trans; [exact K1|exact K2|]. intros q [Hq1 Hq2] [?|?]%Ht1; done.
  - intros i Hi. rewrite lookup_insert_ne by lia. apply Hg1. lia.
  - intros i Hi. destruct (decide (i = Z.of_nat n)) as [->|Hne].
    + rewrite lookup_insert_eq. split; [lia|by eexists].
    + rewrite lookup_insert_ne by lia. destruct (decide (Z.of_nat n <= i < Z.of_nat n + 2)) as [Hin|Hout].
      * destruct (Hg2 i) as (q & -> & _); [lia|]. split; [lia|by eexists].
      * rewrite Hg1, (Hto i Hi) by lia. lia.
Qed.

(** The last write of [exec_stack], below the strings. *)
Lemma write_frame s l pgdir T U base p argv :
  space s l pgdir T U -> stack_at U base p -> (length argv <= MAXARG)%nat ->
  let top := base + PGSIZE in
  let sp0 := top - strings_size argv in
  let ws := ustack sp0 (string_ptrs top argv) in
  let need := strings_size argv + 4 * (Z.of_nat (length argv) + 4) in
  base <= sp0 -> Forall2 (ustring s U) (string_ptrs top argv) argv ->
  4 * Z.of_nat (length ws) = 4 * (Z.of_nat (length argv) + 4) /\ u32 (top - need) = top - need
  /\ exists s', copyout pgdir (top - need) (ws ≫= word_bytes) (4 * (Z.of_nat (length argv) + 4)) s
        = ([], Ret (if need <=? PGSIZE then 0 else -1) s')
      /\ space s' l pgdir T U /\ kept kend (fun q => q <> p) s s'
      /\ (need <= PGSIZE -> main_frame s' U base (top - need) argv).
Proof.
  intros Hs Hst Hac top sp0 ws need Hin HF. pose proof Hst as [(Hb & Hlo & Hhi) _ _]. assert (KERNBASE = 2 ^ 31) as HK by done.
  destruct (strings_size_ok argv) as [_ Hnn]. pose proof Hac as Hac'. unfold MAXARG in Hac'.
  assert (Z.of_nat (length ws) = Z.of_nat (length argv) + 4) as Hlw.
  { unfold ws, ustack. rewrite !length_app, length_ptrs. cbn. lia. }
  split; [lia|]. split; [apply u32_small; vm_consts; lia|].
  destruct (stack_write s l pgdir T U base p (top - need) (ws ≫= word_bytes) (4 * (Z.of_nat (length argv) + 4)) Hs Hst)
    as (s' & E & Hs' & K & W & _); [apply words_ok|rewrite length_words; lia|lia|vm_consts; lia|lia|].
  exists s'. split; [|split; [done|split; [done|]]].
  - rewrite E. destruct (Z.leb_spec base (top - need)), (Z.leb_spec need PGSIZE); done || lia.
  - intros Hfit. replace (top - need) with (sp0 - 4 * (Z.of_nat (length argv) + 4)) in * by lia.
    apply (main_frame_ok s s' U base argv); auto; [vm_consts; lia..|]. apply W. vm_consts; lia.
Qed.

End Stack.

(** C10: the stack that [exec] makes for a new program.  When four pages are free and
    each argument is shorter than a page:
    - if there are at most [MAXARG] arguments, and their strings, each with its 0 and
      padded to a word, and the words below fit in one page, [exec_stack] returns the
      new size, two pages more, and a stack pointer at which [main] finds the fake
      return address, [argc], [argv], and behind it a pointer to each argument and a
      null pointer;
    - otherwise it refuses: the page below, which the program cannot touch, stops a
      write that does not fit.
    In both cases the image keeps its pages and their contents, and no other page in
    use changes. *)
Theorem exec_stack_spec {S} `{TxDisk S} kend (k : kern (kfile S)) l pgdir T U size argv :
  KERNBASE <= kend -> space kend (kpm k) l pgdir T U -> upto U 0 (Z.of_nat (npages size)) ->
  0 <= size -> PGSIZE * (Z.of_nat (npages size) + 2) < KERNBASE -> (4 <= length l)%nat ->
  Forall (fun str => bytes_ok str /\ Z.of_nat (length str) < PGSIZE) argv ->
  let guard := Z.of_nat (npages size) in
  let need := strings_size argv + 4 * (Z.of_nat (length argv) + 4) in
  exists r s' l' T' U',
    exec_stack kend pgdir size argv k = ([], Ret r (lset PM s' k))
    /\ space kend s' l' pgdir T' U' /\ upto U' 0 (guard + 2)
    /\ kept kend (fun q => (q ∉ l) /\ ~ tables pgdir T q) (kpm k) s'
    /\ (forall i, i < guard -> U' !! i = U !! i)
    /\ (exists g f, U' !! guard = Some (g, f) /\ has f PTE_U = false)
    /\ (exists p f, U' !! (guard + 1) = Some (p, f) /\ has f PTE_U = true)
    /\ if (length argv <=? MAXARG)%nat && (need <=? PGSIZE)
       then let sp := PGSIZE * (guard + 2) - need in
            r = Some (PGSIZE * (guard + 2), sp) /\ main_frame s' U' (PGSIZE * (guard + 1)) sp argv
       else r = None.
Proof.
  intros Hend Hs Hto Hsz Hhi Hl Hargs guard need. assert (KERNBASE = 2 ^ 31) as HK by done. set (n := npages size) in *.
  assert (size <= PGSIZE * guard) as Hsn by (unfold guard, n, npages; vm_consts; Z.to_euclidean_division_equations; lia).
  unfold exec_stack. rewrite PGROUNDUP_pages by (vm_consts; lia). fold n. fold guard. cbv zeta.
  replace (PGSIZE * guard + 2 * PGSIZE) with (PGSIZE * (guard + 2)) by lia. rewrite u32_small by (vm_consts; lia).
  destruct (stack_pages kend Hend (kpm k) l pgdir T U n Hs Hto Hhi Hl)
    as (s1 & s2 & l' & T' & U' & p & E1 & E2 & Hs2 & Hst & Hpl & K2 & HU2 & Hto2). fold guard in E1, E2, Hst, HU2, Hto2.
  run_with (zoom_ret PM _ k _ _ E1). assert ((PGSIZE * (guard + 2) =? 0) = false) as -> by (apply Z.eqb_neq; vm_consts; lia).
  replace (PGSIZE * (guard + 2) - 2 * PGSIZE) with (PGSIZE * guard) by lia. rewrite u32_small by (vm_consts; lia).
  run_with (zoom_ret PM (clearpteu pgdir (PGSIZE * guard)) (lset PM s1 k) tt s2 E2). rewrite set_set.
  assert ((PGSIZE * (guard + 2)) `mod` 4 = 0) as Hm4.
  { unfold PGSIZE. replace (4096 * (guard + 2)) with (1024 * (guard + 2) * 4) by lia. by apply Z.mod_mul. }
  destruct (push_args_ok kend Hend l' pgdir T' U' (PGSIZE * (guard + 1)) p Hst argv 0 (PGSIZE * (guard + 2)) (lset PM s2 k))
    as (s3 & E3 & Hs3 & K3 & F3 & _); [done|done|unfold MAXARG; lia|done|vm_consts; lia|].
  rewrite kpm_set, set_set in *. run_with E3. rewrite Nat.add_0_l in *.
  assert (kept kend (fun q => (q ∉ l) /\ ~ tables pgdir T q) (kpm k) s3) as K3'.
  { eapply kept_trans; [exact K2|exact K3|]. by intros q [Hq _] ->. }
  pose proof Hst as [_ Hstk Hgd]. rewrite vpn_page in Hstk, Hgd. rewrite Z.add_simpl_r in Hgd. clear E1 E2 E3.
  destruct (strings_size_ok argv) as [_ Hnn].
  destruct (Nat.leb_spec (length argv) MAXARG) as [Hac|]; cbn [andb] in *; [|by exists None, s3, l', T', U'; split_and!; eauto].
  destruct (Z.leb_spec (PGSIZE * (guard + 1)) (PGSIZE * (guard + 2) - strings_size argv)) as [Hin|Hout].
  2: { exists None, s3, l', T', U'. assert ((need <=? PGSIZE) = false) as -> by (apply Z.leb_gt; lia). by split_and!; eauto. }
  replace (PGSIZE * (guard + 2)) with (PGSIZE * (guard + 1) + PGSIZE) in * by lia.
  destruct (write_frame kend Hend s3 l' pgdir T' U' (PGSIZE * (guard + 1)) p argv Hs3 Hst Hac Hin (F3 eq_refl))
    as (Hlen & Hsp & s4 & E4 & Hs4 & K4 & M4). cbn beta iota zeta. rewrite Hlen, <- Z.sub_add_distr, Hsp. fold need in E4, M4 |- *.
  run_with (zoom_ret PM (copyout pgdir _ _ _) (lset PM s3 k) _ s4 E4). rewrite set_set.
  assert (kept kend (fun q => (q ∉ l) /\ ~ tables pgdir T q) (kpm k) s4) as K4'.
  { eapply kept_trans; [exact K3'|exact K4|]. by intros q [Hq _] ->. }
  destruct (Z.leb_spec need PGSIZE) as [Hfit|Hover].
  - by eexists (Some _), s4, l', T', U'; split_and!; eauto.
  - by exists None, s4, l', T', U'; split_and!; eauto.
Qed.

(** The stack of [echo hi], for an image without pages. *)
Lemma exec_stack_spec_witness :
  exists (k k' : kern (kfile (logst (bio memide)))) pgdir U, let argv := [[101; 99; 104; 111]; [104; 105]] in
    exec_stack some_end pgdir 0 argv k = ([], Ret (Some (8192, 8156)) k') /\ main_frame (kpm k') U 4096 8156 argv.
Proof.
  destruct (booted 10 ltac:(done)) as (s & l & pgdir & Hs & Hl). set (k := lset PM s (pipe_boot piper)).
  destruct (exec_stack_spec some_end k l pgdir ∅ ∅ 0 [[101; 99; 104; 111]; [104; 105]])
    as (r & s' & l' & T' & U' & E & _ & _ & _ & _ & _ & _ & -> & Hmf); [done|done| |done|done|lia| |].
  - intros i Hi. rewrite lookup_empty. change (Z.of_nat (npages 0)) with 0. split; [by intros []|lia].
  - apply (bool_decide_unpack _). vm_compute. exact I.
  - exists k, (lset PM s' k), pgdir, U'. split; [exact E|exact Hmf].
Defined.
