(* ===== verification/Format.v ===== *)
(** * Formatted output: cprintf of console.c and printf of printf.c

    Both print one character at a time, the kernel with [consputc], programs with
    a [write] of one byte.  The arguments are the words on the stack after [fmt];
    [str_at p] are the bytes of the C string at address [p]. *)

From stdpp Require Import base numbers list strings.
From S2P Require Import Prelude Bytes Mem Str User.

Open Scope Z_scope.

(** A [char] as an [int]. *)
Definition s8 (c : Z) : Z := if u8 c <? 128 then u8 c else u8 c - 256.

(** The two tables [digits]. *)
Definition lower : list Z := codes "0123456789abcdef".
Definition upper : list Z := codes "0123456789ABCDEF".

(** [*argp++] *)
Definition next_arg {S} (args : list Z) : M S (Z * list Z) :=
  match args with [] => fault | a :: args' => ret (a, args') end.

(** [buf[i++] = c] in [char buf[16]]; [i] is the length of the list. *)
Definition store {S} (c : Z) (buf : list Z) : M S (list Z) :=
  if (length buf <? 16)%nat then ret (buf ++ [c]) else fault.

(** [do{ buf[i++] = digits[x % base]; }while((x /= base) != 0)] *)
Fixpoint digit_loop {S} (fuel : nat) (digits : list Z) (base x : Z) (buf : list Z) : M S (list Z) :=
  match fuel with
  | O => nofuel
  | S k =>
      let* buf := store (byte_at digits (Z.to_nat (x `mod` base))) buf in
      if x / base =? 0 then ret buf else digit_loop k digits base (x / base) buf
  end.

Section Print.
Context {S : Type}.
Variable str_at : Z -> list Z.

(** ** The kernel *)

Section Cprintf.
Variable consputc : Z -> M S unit.

(** [printint] of console.c *)
Definition cprintint (xx base : Z) (sign : bool) : M S unit :=
  let sign := sign && (s32 xx <? 0) in
  let x := if sign then u32 (- s32 xx) else u32 xx in
  let* buf := digit_loop 32 lower base x [] in
  let* buf := if sign then store (chr "-") buf else ret buf in
  for_all (rev buf) consputc.

Fixpoint cprintf_loop (fmt args : list Z) : M S unit :=
  match fmt with
  | [] => ret tt
  | c :: r =>
      if negb (c =? chr "%") then consputc c ;; cprintf_loop r args
      else
        match r with
        | [] => ret tt
        | c :: r =>
            if c =? chr "d" then
              let* a := next_arg args in
              cprintint a.1 10 true ;; cprintf_loop r a.2
            else if (c =? chr "x") || (c =? chr "p") then
              let* a := next_arg args in
              cprintint a.1 16 false ;; cprintf_loop r a.2
            else if c =? chr "s" then
              let* a := next_arg args in
              for_all (if a.1 =? 0 then codes "(null)" else s8 <$> str_at a.1) consputc ;; cprintf_loop r a.2
            else if c =? chr "%" then consputc (chr "%") ;; cprintf_loop r args
            else consputc (chr "%") ;; consputc c ;; cprintf_loop r args
        end
  end.
End Cprintf.

(** ** Programs *)

Section Printf.
Variable write : list Z -> M S unit.

(** [putc] of printf.c *)
Definition putc (c : Z) : M S unit := write [u8 c].

(** [printint] of printf.c *)
Definition uprintint (xx base : Z) (sgn : bool) : M S unit :=
  let neg := sgn && (s32 xx <? 0) in
  let x := if neg then u32 (- s32 xx) else u32 xx in
  let* buf := digit_loop 32 upper base x [] in
  let* buf := if neg then store (chr "-") buf else ret buf in
  for_all (rev buf) putc.

(** [state] is whether the last character was a percent sign. *)
Fixpoint printf_loop (state : bool) (fmt args : list Z) : M S unit :=
  match fmt with
  | [] => ret tt
  | c :: r =>
      if negb state then
        if c =? chr "%" then printf_loop true r args
        else putc c ;; printf_loop false r args
      else if c =? chr "d" then
        let* a := next_arg args in
        uprintint a.1 10 true ;; printf_loop false r a.2
      else if (c =? chr "x") || (c =? chr "p") then
        let* a := next_arg args in
        uprintint a.1 16 false ;; printf_loop false r a.2
      else if c =? chr "s" then
        let* a := next_arg args in
        for_all (if a.1 =? 0 then codes "(null)" else str_at a.1) putc ;; printf_loop false r a.2
      else if c =? chr "c" then
        let* a := next_arg args in
        putc a.1 ;; printf_loop false r a.2
      else if c =? chr "%" then putc c ;; printf_loop false r args
      else putc (chr "%") ;; putc c ;; printf_loop false r args
  end.

Definition printf (fmt args : list Z) : M S unit := printf_loop false fmt args.
End Printf.
End Print.

(** ** Numerals *)

(** The digits of [x], the last one first. *)
Fixpoint rdigits (fuel : nat) (base x : Z) : list Z :=
  match fuel with
  | O => []
  | S k => x `mod` base :: (if x / base =? 0 then [] else rdigits k base (x / base))
  end.

Definition value (base : Z) (ds : list Z) : Z := foldr (fun d a => d + base * a) 0 ds.

Lemma rdigits_value fuel base x :
  2 <= base -> 0 <= x < base ^ Z.of_nat fuel -> value base (rdigits fuel base x) = x.
Proof.
  intros Hb. revert x. induction fuel as [|k IH]; intros x Hx; [cbn in *; lia|]. cbn [rdigits].
  pose proof (Z.div_mod x base ltac:(lia)) as E. destruct (Z.eqb_spec (x / base) 0) as [E0|E0].
  - cbn. lia.
  - change (x `mod` base + base * value base (rdigits k base (x / base)) = x). rewrite IH; [lia|].
    rewrite Nat2Z.inj_succ, Z.pow_succ_r in Hx by lia. split; [apply Z.div_pos; lia|].
    apply Z.div_lt_upper_bound; lia.
Qed.

Lemma rdigits_range fuel base x : 2 <= base -> Forall (fun d => 0 <= d < base) (rdigits fuel base x).
Proof.
  intros Hb. revert x. induction fuel as [|k IH]; intros x; cbn [rdigits]; [constructor|].
  constructor; [apply Z.mod_pos_bound; lia|]. destruct (x / base =? 0); [constructor|apply IH].
Qed.

Lemma rdigits_length n fuel base x :
  2 <= base -> 0 <= x < base ^ Z.of_nat (S n) -> (length (rdigits fuel base x) <= S n)%nat.
Proof.
  intros Hb. revert n x. induction fuel as [|k IH]; intros n x Hx; cbn [rdigits length]; [lia|].
  destruct (Z.eqb_spec (x / base) 0) as [E0|E0]; [cbn; lia|].
  rewrite Nat2Z.inj_succ, Z.pow_succ_r in Hx by lia.
  assert (0 <= x / base < base ^ Z.of_nat n) as Hd.
  { split; [apply Z.div_pos; lia|apply Z.div_lt_upper_bound; lia]. }
  destruct n as [|n]; [cbn in Hd; lia|]. specialize (IH n (x / base) Hd). lia.
Qed.

(** The first digit is not 0, except for 0 itself. *)
Lemma rdigits_leading fuel base x :
  2 <= base -> 0 < x < base ^ Z.of_nat fuel -> last (rdigits fuel base x) <> Some 0.
Proof.
  intros Hb. revert x. induction fuel as [|k IH]; intros x Hx; cbn [rdigits]; [done|].
  pose proof (Z.div_mod x base ltac:(lia)) as E. destruct (Z.eqb_spec (x / base) 0) as [E0|E0].
  - cbn. intros [= ?]. lia.
  - rewrite Nat2Z.inj_succ, Z.pow_succ_r in Hx by lia.
    assert (0 < x / base < base ^ Z.of_nat k) as Hd.
    { split; [|apply Z.div_lt_upper_bound; lia]. pose proof (Z.div_pos x base). lia. }
    rewrite last_cons. specialize (IH _ Hd). destruct (last (rdigits k base (x / base))) eqn:El; [done|].
    apply last_None in El. destruct k; [cbn in Hd; lia|done].
Qed.

(** [t] is the numeral of [v]: digits of the base, without leading zeroes. *)
Definition numeral (digits : list Z) (base : Z) (t : list Z) (v : Z) : Prop :=
  exists ds, t = rev ((fun d => byte_at digits (Z.to_nat d)) <$> ds) /\ value base ds = v /\
    Forall (fun d => 0 <= d < base) ds /\ ds <> [] /\ (last ds = Some 0 -> ds = [0]).

Definition number (digits : list Z) (base x : Z) : list Z :=
  rev ((fun d => byte_at digits (Z.to_nat d)) <$> rdigits 32 base x).

Lemma number_numeral digits base x :
  2 <= base -> 0 <= x < 2 ^ 32 -> numeral digits base (number digits base x) x.
Proof.
  intros Hb Hx. assert (x < base ^ Z.of_nat 32) as Hlt.
  { apply Z.lt_le_trans with (2 ^ 32); [lia|]. apply Z.pow_le_mono_l. lia. }
  exists (rdigits 32 base x). split; [done|]. split; [apply rdigits_value; [done|split; [lia|done]]|].
  split; [by apply rdigits_range|]. split; [by cbn [rdigits]|]. intros Hl.
  destruct (decide (x = 0)) as [->|Hne].
  - cbn [rdigits]. rewrite Z.mod_0_l, Z.div_0_l by lia. done.
  - apply rdigits_leading in Hl; [done|done|split; [lia|done]].
Qed.

Lemma digit_loop_run {S} fuel digits base x buf (s : S) :
  2 <= base -> 0 <= x < base ^ Z.of_nat fuel -> fuel <> O ->
  (length buf + length (rdigits fuel base x) <= 16)%nat ->
  digit_loop fuel digits base x buf s =
    ([], Ret (buf ++ ((fun d => byte_at digits (Z.to_nat d)) <$> rdigits fuel base x)) s).
Proof.
  intros Hb. revert x buf. induction fuel as [|k IH]; intros x buf Hx Hf Hl; [done|].
  cbn [digit_loop rdigits length] in *. unfold store.
  destruct (Nat.ltb_spec (length buf) 16); [|lia]. rewrite (bind_nil (ret _) _ s _ s eq_refl).
  destruct (Z.eqb_spec (x / base) 0) as [E0|E0]; [done|].
  rewrite Nat2Z.inj_succ, Z.pow_succ_r in Hx by lia.
  assert (0 <= x / base < base ^ Z.of_nat k) as Hd.
  { split; [apply Z.div_pos; lia|apply Z.div_lt_upper_bound; lia]. }
  rewrite IH; [by rewrite <- app_assoc|done|..].
  - intros ->. cbn in Hd. lia.
  - rewrite length_app. cbn [length]. lia.
Qed.

(** What [printint] prints. *)
Definition int_text (digits : list Z) (xx base : Z) (sign : bool) : list Z :=
  if sign && (s32 xx <? 0) then chr "-" :: number digits base (u32 (- s32 xx))
  else number digits base (u32 xx).

(** At most ten digits and a sign: [buf] is large enough. *)
Lemma print_digits {S} digits base (neg : bool) x (out : Z -> M S unit) s :
  10 <= base -> 0 <= x < 2 ^ 32 ->
  (let* buf := digit_loop 32 digits base x [] in
   let* buf := if neg then store (chr "-") buf else ret buf in
   for_all (rev buf) out) s =
  for_all (if neg then chr "-" :: number digits base x else number digits base x) out s.
Proof.
  intros Hb Hx. assert (x < base ^ Z.of_nat 10) as H10.
  { apply Z.lt_le_trans with (10 ^ 10); [lia|]. apply Z.pow_le_mono_l. lia. }
  assert (length (rdigits 32 base x) <= 10)%nat as Hl by (apply (rdigits_length 9); lia).
  rewrite (bind_nil _ _ _ _ _ (digit_loop_run 32 digits base x [] s ltac:(lia)
    ltac:(split; [lia|apply Z.lt_le_trans with (base ^ Z.of_nat 10); [done|apply Z.pow_le_mono_r; lia]]) ltac:(done)
    ltac:(cbn [length]; lia))).
  cbn [app]. destruct neg; [|by rewrite (bind_nil (ret _) _ s _ s eq_refl)]. unfold store. rewrite length_fmap.
  destruct (Nat.ltb_spec (length (rdigits 32 base x)) 16); [|lia].
  rewrite (bind_nil (ret _) _ s _ s eq_refl). by rewrite rev_app_distr.
Qed.

Lemma s32_abs xx : 0 <= (if s32 xx <? 0 then u32 (- s32 xx) else u32 xx) < 2 ^ 32 /\
  (if s32 xx <? 0 then u32 (- s32 xx) else u32 xx) = Z.abs (s32 xx).
Proof.
  unfold s32, u32. pose proof (Z.mod_pos_bound xx (2 ^ 32) ltac:(lia)).
  destruct (Z.ltb_spec (xx `mod` 2 ^ 32) (2 ^ 31)).
  - destruct (Z.ltb_spec (xx `mod` 2 ^ 32) 0); lia.
  - destruct (Z.ltb_spec (xx `mod` 2 ^ 32 - 2 ^ 32) 0); [|lia]. rewrite Z.mod_small by lia. lia.
Qed.

Lemma number_decimal x : number upper 10 x = number lower 10 x.
Proof.
  unfold number. f_equal. apply list_fmap_ext. intros i d Hd.
  pose proof (rdigits_range 32 10 x ltac:(lia)) as Hr. rewrite Forall_lookup in Hr. specialize (Hr i d Hd).
  apply Z.eqb_eq. by apply (zrange_check (fun d => byte_at upper (Z.to_nat d) =? byte_at lower (Z.to_nat d)) 0 10).
Qed.

(** [printint] of the kernel and of programs print the number they are given
    for every 32-bit word, the most negative one included: signed in base 10, the
    word itself in base 16, without leading zeroes, and their 16-byte buffer is
    never overrun. *)
Theorem printint_prints {S} (out : Z -> M S unit) (write : list Z -> M S unit) (xx : Z) :
  exists dec lhex uhex,
    numeral lower 10 dec (Z.abs (s32 xx)) /\ numeral lower 16 lhex (u32 xx) /\ numeral upper 16 uhex (u32 xx) /\
    let signed := if s32 xx <? 0 then chr "-" :: dec else dec in
    (forall s, cprintint out xx 10 true s = for_all signed out s) /\
    (forall s, uprintint write xx 10 true s = for_all signed (putc write) s) /\
    (forall s, cprintint out xx 16 false s = for_all lhex out s) /\
    (forall s, uprintint write xx 16 false s = for_all uhex (putc write) s).
Proof.
  destruct (s32_abs xx) as [Hr Ha]. pose proof (u32_range xx) as Hu.
  exists (number lower 10 (if s32 xx <? 0 then u32 (- s32 xx) else u32 xx)), (number lower 16 (u32 xx)), (number upper 16 (u32 xx)).
  split; [rewrite <- Ha; by apply number_numeral|]. do 2 (split; [by apply number_numeral|]).
  cbn zeta. split; [|split; [|split]]; intros s.
  - unfold cprintint. rewrite print_digits by done. by destruct (s32 xx <? 0).
  - unfold uprintint. rewrite print_digits, number_decimal by done. by destruct (s32 xx <? 0).
  - unfold cprintint. by rewrite print_digits.
  - unfold uprintint. by rewrite print_digits.
Qed.

(** ** Formats *)

Section Render.
Variable str_at : Z -> list Z.

(** The text of the conversion [%c], and the arguments left; [chars] says whether
    there is a conversion for single characters. *)
Definition conversion (digits : list Z) (chars : bool) (c : Z) (args : list Z) : option (list Z * list Z) :=
  let with_arg (f : Z -> list Z) := match args with [] => None | a :: args' => Some (f a, args') end in
  if c =? chr "d" then with_arg (fun a => int_text digits a 10 true)
  else if (c =? chr "x") || (c =? chr "p") then with_arg (fun a => int_text digits a 16 false)
  else if c =? chr "s" then with_arg (fun a => if a =? 0 then codes "(null)" else str_at a)
  else if chars && (c =? chr "c") then with_arg (fun a => [u8 a])
  else if c =? chr "%" then Some ([chr "%"], args)
  else Some ([chr "%"; c], args).

Fixpoint render (digits : list Z) (chars : bool) (fmt args : list Z) : option (list Z) :=
  match fmt with
  | [] => Some []
  | c :: r =>
      if negb (c =? chr "%") then t ← render digits chars r args; Some (c :: t)
      else
        match r with
        | [] => Some []
        | c :: r =>
            x ← conversion digits chars c args;
            t ← render digits chars r x.2;
            Some (x.1 ++ t)
        end
  end.

Hypothesis strings_ok : forall p, bytes_ok (str_at p).

Lemma cprintint_text {S} (out : Z -> M S unit) xx base sign s :
  10 <= base -> cprintint out xx base sign s = for_all (int_text lower xx base sign) out s.
Proof.
  intros Hb. unfold cprintint, int_text. rewrite print_digits; [by destruct (sign && (s32 xx <? 0))|done|].
  destruct (sign && (s32 xx <? 0)); apply u32_range.
Qed.

Lemma uprintint_text {S} (write : list Z -> M S unit) xx base sign s :
  10 <= base -> uprintint write xx base sign s = for_all (int_text upper xx base sign) (putc write) s.
Proof.
  intros Hb. unfold uprintint, int_text. rewrite print_digits; [by destruct (sign && (s32 xx <? 0))|done|].
  destruct (sign && (s32 xx <? 0)); apply u32_range.
Qed.

(** Run one piece of the output and go on with the rest. *)
Lemma print_then {S} (m k : M S unit) (out : Z -> M S unit) l l' s :
  (forall s, m s = for_all l out s) -> (forall s, k s = for_all l' out s) ->
  (m ;; k) s = for_all (l ++ l') out s.
Proof.
  intros Hm Hk. rewrite <- for_all_seq. unfold bind. rewrite Hm.
  destruct (for_all l out s) as [e [[] s1| | | |]]; try done. by rewrite Hk.
Qed.

Lemma print_one {S} (out : Z -> M S unit) (k : M S unit) c l s :
  (forall s, k s = for_all l out s) -> (out c ;; k) s = for_all (c :: l) out s.
Proof.
  intros Hk. cbn [for_all]. unfold bind. destruct (out c s) as [e [[] s1| | | |]]; try done. by rewrite Hk.
Qed.

Lemma for_all_ext {S} (out : Z -> M S unit) (f : Z -> Z) l s :
  (forall c, c ∈ l -> forall s, out (f c) s = out c s) -> for_all (f <$> l) out s = for_all l out s.
Proof.
  revert s. induction l as [|c l IH]; intros s Hf; [done|]. cbn [fmap list_fmap for_all].
  unfold bind. rewrite Hf by (by left). destruct (out c s) as [e [[] s1| | | |]]; try done.
  rewrite IH; [done|]. intros c' Hc'. apply Hf. by right.
Qed.

(** [cprintf] prints the text of its format, as long as there are arguments enough. *)
Lemma cprintf_render {S} (out : Z -> M S unit) fmt args t s :
  (forall c, 0 <= c < 256 -> forall s, out (s8 c) s = out c s) ->
  render lower false fmt args = Some t -> cprintf_loop str_at out fmt args s = for_all t out s.
Proof.
  intros Hout. remember (length fmt) as n eqn:En. assert (length fmt <= n)%nat as Hn by lia. clear En.
  revert fmt args t s Hn. induction n as [|n IH]; intros fmt args t s Hn E; (destruct fmt as [|c r]; [by injection E as <-|]);
    [cbn in Hn; lia|].
  cbn [render cprintf_loop length] in *. destruct (Z.eqb_spec c (chr "%")) as [->|Hc]; cbn [negb] in *.
  2: { destruct (render lower false r args) as [t'|] eqn:Er; [|done]. injection E as <-. apply print_one.
       intros s'. apply IH; [lia|done]. }
  destruct r as [|d r]; [by injection E as <-|]. cbn [length] in Hn.
  destruct (conversion lower false d args) as [[x args']|] eqn:Ec; [|done]. cbn [mbind option_bind fst snd] in E.
  destruct (render lower false r args') as [t'|] eqn:Er; [|done]. injection E as <-.
  assert (forall s, cprintf_loop str_at out r args' s = for_all t' out s) as Hrest by (intros s'; apply IH; [lia|done]).
  unfold conversion in Ec. cbn [andb] in Ec.
  destruct (d =? chr "d"); [|destruct ((d =? chr "x") || (d =? chr "p")); [|destruct (d =? chr "s"); [|destruct (d =? chr "%")]]].
  1-3: destruct args as [|a args1]; [done|]; injection Ec as <- <-;
    rewrite (bind_nil (next_arg (a :: args1)) _ s (a, args1) s) by done; cbn [fst snd]; apply print_then; [|done]; intros s'.
  - by apply cprintint_text.
  - by apply cprintint_text.
  - destruct (a =? 0); [done|]. apply for_all_ext. intros c Hin. apply Hout.
    pose proof (strings_ok a) as Ha. unfold bytes_ok in Ha. rewrite Forall_forall in Ha. by apply Ha.
  - injection Ec as <- <-. by apply print_one.
  - injection Ec as <- <-. apply print_one. intros s'. by apply print_one.
Qed.

Lemma printf_render {S} (write : list Z -> M S unit) fmt args t s :
  render upper true fmt args = Some t -> printf str_at write fmt args s = for_all t (putc write) s.
Proof using Type.
  unfold printf. remember (length fmt) as n eqn:En. assert (length fmt <= n)%nat as Hn by lia. clear En.
  revert fmt args t s Hn. induction n as [|n IH]; intros fmt args t s Hn E; (destruct fmt as [|c r]; [by injection E as <-|]);
    [cbn in Hn; lia|].
  cbn [render printf_loop length negb] in *. destruct (Z.eqb_spec c (chr "%")) as [->|Hc]; cbn [negb] in *.
  2: { destruct (render upper true r args) as [t'|] eqn:Er; [|done]. injection E as <-. apply print_one.
       intros s'. apply IH; [lia|done]. }
  destruct r as [|d r]; [by injection E as <-|]. cbn [length printf_loop negb] in *.
  destruct (conversion upper true d args) as [[x args']|] eqn:Ec; [|done]. cbn [mbind option_bind fst snd] in E.
  destruct (render upper true r args') as [t'|] eqn:Er; [|done]. injection E as <-.
  assert (forall s, printf_loop str_at write false r args' s = for_all t' (putc write) s) as Hrest
    by (intros s'; apply IH; [lia|done]).
  unfold conversion in Ec. cbn [andb] in Ec.
  destruct (d =? chr "d"); [|destruct ((d =? chr "x") || (d =? chr "p"));
    [|destruct (d =? chr "s"); [|destruct (d =? chr "c"); [|destruct (Z.eqb_spec d (chr "%"))]]]].
  1-4: destruct args as [|a args1]; [done|]; injection Ec as <- <-;
    rewrite (bind_nil (next_arg (a :: args1)) _ s (a, args1) s) by done; cbn [fst snd].
  - apply print_then; [|done]. intros s'. by apply uprintint_text.
  - apply print_then; [|done]. intros s'. by apply uprintint_text.
  - by apply print_then.
  - change ([u8 a] ++ t') with (u8 a :: t'). rewrite <- (print_one (putc write) _ (u8 a) t' s Hrest). unfold putc, u8. by rewrite Z.mod_mod by lia.
  - injection Ec as <- <-. subst d. by apply print_one.
  - injection Ec as <- <-. apply print_one. intros s'. by apply print_one.
Qed.

(** ** The two agree *)

(** No conversion for single characters in the format. *)
Fixpoint plain (fmt : list Z) : bool :=
  match fmt with
  | [] => true
  | c :: r => if c =? chr "%" then match r with [] => true | d :: r' => negb (d =? chr "c") && plain r' end else plain r
  end.

(** The same character, or the same hexadecimal digit. *)
Definition same_char (a b : Z) : Prop := a = b \/ (chr "a" <= a <= chr "f" /\ b = a - (chr "a" - chr "A")).

Lemma same_refl l : Forall2 same_char l l.
Proof using Type. induction l; constructor; [by left|done]. Qed.

Lemma same_number base x : 2 <= base <= 16 -> Forall2 same_char (number lower base x) (number upper base x).
Proof using Type.
  intros Hb. unfold number. pose proof (rdigits_range 32 base x ltac:(lia)) as Hr.
  rewrite !rev_alt. apply Forall2_reverse. induction Hr as [|d l Hd Hr IH]; constructor; [|done].
  assert (((byte_at lower (Z.to_nat d) =? byte_at upper (Z.to_nat d)) ||
    ((chr "a" <=? byte_at lower (Z.to_nat d)) && (byte_at lower (Z.to_nat d) <=? chr "f") &&
     (byte_at upper (Z.to_nat d) =? byte_at lower (Z.to_nat d) - (chr "a" - chr "A")))) = true) as K.
  { apply (zrange_check (fun d => (byte_at lower (Z.to_nat d) =? byte_at upper (Z.to_nat d)) ||
      ((chr "a" <=? byte_at lower (Z.to_nat d)) && (byte_at lower (Z.to_nat d) <=? chr "f") &&
       (byte_at upper (Z.to_nat d) =? byte_at lower (Z.to_nat d) - (chr "a" - chr "A")))) 0 16); [done|lia]. }
  unfold same_char. lia.
Qed.

Lemma same_int xx base sign : 2 <= base <= 16 -> Forall2 same_char (int_text lower xx base sign) (int_text upper xx base sign).
Proof using Type.
  intros Hb. unfold int_text. destruct (sign && (s32 xx <? 0)); [constructor; [by left|]|]; by apply same_number.
Qed.

Lemma same_conversion c args x args' :
  c <> chr "c" -> conversion lower false c args = Some (x, args') ->
  exists x', conversion upper true c args = Some (x', args') /\ Forall2 same_char x x'.
Proof using Type.
  intros Hc. unfold conversion. cbn [andb]. destruct (Z.eqb_spec c (chr "c")); [done|].
  destruct (c =? chr "d"); [|destruct ((c =? chr "x") || (c =? chr "p")); [|destruct (c =? chr "s"); [|destruct (c =? chr "%")]]];
    try (destruct args as [|a args1]; [done|]); intros [= <- <-]; eexists; (split; [reflexivity|]); try apply same_refl;
    by apply same_int.
Qed.

Lemma same_render fmt args t :
  plain fmt = true -> render lower false fmt args = Some t ->
  exists t', render upper true fmt args = Some t' /\ Forall2 same_char t t'.
Proof using Type.
  remember (length fmt) as n eqn:En. assert (length fmt <= n)%nat as Hn by lia. clear En.
  revert fmt args t Hn. induction n as [|n IH]; intros fmt args t Hn Hp E;
    (destruct fmt as [|c r]; [injection E as <-; by exists []|]); [cbn in Hn; lia|].
  cbn [render plain length] in *. destruct (c =? chr "%"); cbn [negb] in *.
  - destruct r as [|d r]; [injection E as <-; by exists []|]. apply andb_true_iff in Hp as [Hd Hp]. cbn [length] in Hn.
    destruct (conversion lower false d args) as [[x args']|] eqn:Ec; [|done]. cbn [mbind option_bind fst snd] in E.
    destruct (render lower false r args') as [t'|] eqn:Er; [|done]. injection E as <-.
    destruct (same_conversion d args x args') as (x' & -> & Hx); [lia|done|].
    destruct (IH r args' t' ltac:(lia) Hp Er) as (t2 & E2 & Ht). exists (x' ++ t2). cbn [mbind option_bind fst snd].
    rewrite E2. split; [done|]. by apply Forall2_app.
  - destruct (render lower false r args) as [t'|] eqn:Er; [|done]. injection E as <-.
    destruct (IH r args t' ltac:(lia) Hp Er) as (t2 & E2 & Ht). exists (c :: t2). rewrite E2. split; [done|].
    constructor; [by left|done].
Qed.
End Render.

(** C39: the kernel's [cprintf] and the programs' [printf] print the text a format
    means, character by character, when there are enough arguments: [cprintf] with
    lower-case hexadecimal digits and without a conversion for single characters, which
    it prints like an unknown one, [printf] with upper-case digits and with that
    conversion.  So on a format without that conversion the two texts are equal up to
    the case of hexadecimal digits; on others they differ. *)
Theorem printf_cprintf {S T} (str_at : Z -> list Z) (out : Z -> M S unit) (write : list Z -> M T unit)
    (fmt args : list Z) :
  (forall p, bytes_ok (str_at p)) ->
  (forall c, 0 <= c < 256 -> forall s, out (s8 c) s = out c s) ->
  (forall t, render str_at lower false fmt args = Some t ->
     forall s, cprintf_loop str_at out fmt args s = for_all t out s) /\
  (forall t, render str_at upper true fmt args = Some t ->
     forall s, printf str_at write fmt args s = for_all t (putc write) s) /\
  (plain fmt = true -> forall t, render str_at lower false fmt args = Some t ->
     exists t', render str_at upper true fmt args = Some t' /\ Forall2 same_char t t').
Proof.
  intros Hstr Hout. split; [|split].
  - intros t E s. by apply cprintf_render.
  - intros t E s. by apply printf_render.
  - intros Hp t. by apply same_render.
Qed.

(** Output as events. *)
Definition emit_byte {S} : Z -> M S unit := fun c => emit (EvPutc (u8 c)).

Lemma emit_byte_s8 {S} c (s : S) : emit_byte (s8 c) s = emit_byte c s.
Proof.
  unfold emit_byte, s8, u8. destruct (c `mod` 256 <? 128).
  - by rewrite Z.mod_mod by lia.
  - replace (c `mod` 256 - 256) with (c `mod` 256 + (-1) * 256) by lia. by rewrite Z.mod_add, Z.mod_mod by lia.
Qed.

Lemma for_all_emit {S} t (s : S) : for_all t emit_byte s = ((fun c => EvPutc (u8 c)) <$> t, Ret tt s).
Proof. revert s. induction t as [|c t IH]; intros s; [done|]. cbn [for_all]. unfold bind, emit_byte at 1, emit. by rewrite IH. Qed.

Lemma cprintf_emits {S} str_at fmt args t (s : S) :
  (forall p, bytes_ok (str_at p)) -> render str_at lower false fmt args = Some t ->
  cprintf_loop str_at emit_byte fmt args s = ((fun c => EvPutc (u8 c)) <$> t, Ret tt s).
Proof.
  intros Hs E. rewrite (cprintf_render str_at Hs emit_byte fmt args t); [apply for_all_emit| |done].
  intros c _ s'. apply emit_byte_s8.
Qed.

(** ["pid %d: %x %s%"] with -5, 255 and a null pointer. *)
Definition emit_bytes (l : list Z) : M unit unit := for_all l (fun c => emit (EvPutc c)).

Lemma printf_cprintf_witness :
  (forall s : unit, cprintf_loop (fun _ => []) emit_byte (codes "pid %d: %x %s%") [2 ^ 32 - 5; 255; 0] s =
     for_all (codes "pid -5: ff (null)") emit_byte s) /\
  (forall s, printf (fun _ => []) emit_bytes (codes "pid %d: %x %s%") [2 ^ 32 - 5; 255; 0] s =
     for_all (codes "pid -5: FF (null)") (putc emit_bytes) s).
Proof.
  destruct (printf_cprintf (S := unit) (fun _ => []) emit_byte emit_bytes (codes "pid %d: %x %s%") [2 ^ 32 - 5; 255; 0]) as (H1 & H2 & _);
    [constructor|intros c _ s; apply emit_byte_s8|].
  split; [by apply H1|by apply H2].
Defined.
