(* ===== verification/Grep.v ===== *)
(** * The grep program: grep.c

    The pattern matcher against a declarative semantics of patterns, and the loop
    over the input against the lines of a file. *)

From stdpp Require Import base numbers list.
From S2P Require Import Prelude.

Open Scope Z_scope.

(** Characters: [* . ^ $] and newline. *)
Definition STAR : Z := 42.
Definition DOT : Z := 46.
Definition CARET : Z := 94.
Definition DOLLAR : Z := 36.
Definition NL : Z := 10.

(** ** The matcher; a string is the list of its bytes before the NUL *)

(** The loop of [matchstar], where [here] searches for the rest of the pattern. *)
Fixpoint matchstar (here : list Z -> bool) (c : Z) (text : list Z) : bool :=
  if here text then true
  else
    match text with
    | [] => false
    | t :: text' => if (t =? c) || (c =? DOT) then matchstar here c text' else false
    end.

Fixpoint matchhere (re text : list Z) : bool :=
  match re with
  | [] => true
  | c :: re' =>
      let rest :=
        if (c =? DOLLAR) && (match re' with [] => true | _ => false end) then
          match text with [] => true | _ => false end
        else
          match text with
          | [] => false
          | t :: text' => if (c =? DOT) || (c =? t) then matchhere re' text' else false
          end in
      match re' with
      | d :: re'' => if d =? STAR then matchstar (matchhere re'') c text else rest
      | [] => rest
      end
  end.

(** The loop of [match] over the suffixes of the text. *)
Fixpoint match_from (re text : list Z) : bool :=
  if matchhere re text then true
  else match text with [] => false | _ :: text' => match_from re text' end.

(** [match] of grep.c *)
Definition rematch (re text : list Z) : bool :=
  match re with
  | c :: re' => if c =? CARET then matchhere re' text else match_from re text
  | [] => match_from re text
  end.

(** ** The loop over the input *)

Definition BUFSIZE : nat := 1024.

(** A file descriptor delivers its input in chunks; a [read] of [max] bytes takes
    at most that much of the next one, and 0 bytes at the end. *)
Definition read (max : nat) (input : list (list Z)) : list Z * list (list Z) :=
  match input with
  | [] => ([], [])
  | c :: rest => if (length c <=? max)%nat then (c, rest) else (take max c, drop max c :: rest)
  end.

(** [strchr(p, '\n')]: the bytes before the newline and those after it. *)
Fixpoint cut_line (p : list Z) : option (list Z * list Z) :=
  match p with
  | [] => None
  | c :: p' =>
      if c =? NL then Some ([], p')
      else if c =? 0 then None
      else match cut_line p' with Some (l, r) => Some (c :: l, r) | None => None end
  end.

(** The inner loop: what is written, and the bytes after the last newline. *)
Fixpoint grep_lines (fuel : nat) (pattern p : list Z) : list Z * list Z :=
  match fuel with
  | O => ([], p)
  | S k =>
      match cut_line p with
      | None => ([], p)
      | Some (line, rest) =>
          let '(out, p') := grep_lines k pattern rest in
          ((if rematch pattern line then line ++ [NL] else []) ++ out, p')
      end
  end.

(** [grep], with the [m] bytes [buf] left from before; [None] when the fuel is
    used up. *)
Fixpoint grep_loop (fuel : nat) (pattern buf : list Z) (input : list (list Z)) : option (list Z) :=
  match fuel with
  | O => None
  | S k =>
      let '(c, input) := read (BUFSIZE - length buf - 1) input in
      match c with
      | [] => Some []
      | _ =>
          let b := buf ++ c in
          let '(out, p) := grep_lines (length b) pattern b in
          let left := if (length p =? length b)%nat then [] else p in
          match grep_loop k pattern left input with
          | Some more => Some (out ++ more)
          | None => None
          end
      end
  end.

(** Every turn takes at least one byte. *)
Definition grep (pattern : list Z) (input : list (list Z)) : option (list Z) :=
  grep_loop (S (length (concat input))) pattern [] input.

(** ** What patterns mean *)

(** A character, or any number of it; a dot stands for every character. *)
Inductive item := One (c : Z) | Many (c : Z).

Definition stands_for (c t : Z) : Prop := c = DOT \/ c = t.

(** The strings a sequence of items describes. *)
Inductive lang : list item -> list Z -> Prop :=
  | lang_nil : lang [] []
  | lang_one c t its s : stands_for c t -> lang its s -> lang (One c :: its) (t :: s)
  | lang_many c s1 its s : Forall (stands_for c) s1 -> lang its s -> lang (Many c :: its) (s1 ++ s).

(** The items of a pattern, and whether it ends with [$]. *)
Fixpoint items (re : list Z) : list item * bool :=
  match re with
  | [] => ([], false)
  | c :: re' =>
      let one := if (c =? DOLLAR) && (match re' with [] => true | _ => false end) then ([], true)
                 else let '(its, eol) := items re' in (One c :: its, eol) in
      match re' with
      | d :: re'' => if d =? STAR then let '(its, eol) := items re'' in (Many c :: its, eol) else one
      | [] => one
      end
  end.

(** [text] begins with a string of the pattern, up to its end for [$]. *)
Definition begins (re text : list Z) : Prop :=
  exists mid post, text = mid ++ post /\ lang (items re).1 mid /\ ((items re).2 = true -> post = []).

Definition found (re text : list Z) : Prop :=
  match re with
  | c :: re' => if c =? CARET then begins re' text else exists pre rest, text = pre ++ rest /\ begins re rest
  | [] => exists pre rest, text = pre ++ rest /\ begins re rest
  end.

Lemma lang_one_inv c its s : lang (One c :: its) s <-> exists t s', s = t :: s' /\ stands_for c t /\ lang its s'.
Proof.
  split; [intros Hl; inversion Hl; subst; eauto|]. intros (t & s' & -> & ? & ?). by constructor.
Qed.

Lemma lang_many_inv c its s : lang (Many c :: its) s <-> exists s1 s2, s = s1 ++ s2 /\ Forall (stands_for c) s1 /\ lang its s2.
Proof.
  split; [intros Hl; inversion Hl; subst; eauto|]. intros (s1 & s2 & -> & ? & ?). by constructor.
Qed.

Lemma stands_for_dec c t : (c =? DOT) || (c =? t) = true <-> stands_for c t.
Proof. unfold stands_for. rewrite orb_true_iff, !Z.eqb_eq. done. Qed.

(** [matchstar] tries every number of characters [c]. *)
Lemma matchstar_spec here c text :
  matchstar here c text = true <-> exists s rest, text = s ++ rest /\ Forall (stands_for c) s /\ here rest = true.
Proof.
  induction text as [|t text IH]; cbn [matchstar]; destruct (here _) eqn:Eh.
  - split; [|done]. intros _. by exists [], [].
  - split; [done|]. intros (s & rest & E & _ & Hr). symmetry in E. apply app_eq_nil in E as [-> ->]. congruence.
  - split; [|done]. intros _. by exists [], (t :: text).
  - rewrite (Z.eqb_sym t c), orb_comm. destruct ((c =? DOT) || (c =? t)) eqn:Et.
    + apply stands_for_dec in Et. rewrite IH. split.
      * intros (s & rest & -> & Hs & Hr). exists (t :: s), rest. split; [done|]. split; [by constructor|done].
      * intros (s & rest & E & Hs & Hr). destruct s as [|t' s]; [cbn in E; congruence|].
        injection E as <- ->. inversion Hs. by exists s, rest.
    + split; [done|]. intros (s & rest & E & Hs & Hr). destruct s as [|t' s]; [cbn in E; congruence|].
      injection E as <- ->. inversion Hs as [|? ? Ht]. subst. apply stands_for_dec in Ht. congruence.
Qed.

(** One character, when the rest of the pattern is understood. *)
Lemma one_spec c re text :
  (forall text, matchhere re text = true <-> begins re text) ->
  (match text with [] => false | t :: text' => if (c =? DOT) || (c =? t) then matchhere re text' else false end) = true
  <-> exists mid post, text = mid ++ post /\ lang (One c :: (items re).1) mid /\ ((items re).2 = true -> post = []).
Proof.
  intros Hre. destruct text as [|t text].
  - split; [done|]. intros (mid & post & E & Hl & _). symmetry in E. apply app_eq_nil in E as [-> ->].
    apply lang_one_inv in Hl as (? & ? & ? & _). done.
  - destruct ((c =? DOT) || (c =? t)) eqn:Et.
    + apply stands_for_dec in Et. rewrite Hre. split.
      * intros (mid & post & -> & Hl & He). exists (t :: mid), post. split; [done|]. split; [by constructor|done].
      * intros (mid & post & E & Hl & He). apply lang_one_inv in Hl as (t' & mid' & -> & _ & Hl).
        injection E as <- ->. by exists mid', post.
    + split; [done|]. intros (mid & post & E & Hl & He). apply lang_one_inv in Hl as (t' & mid' & -> & Ht & _).
      injection E as <- ->. apply stands_for_dec in Ht. congruence.
Qed.

Lemma matchhere_cons2 c d re text :
  matchhere (c :: d :: re) text =
    if d =? STAR then matchstar (matchhere re) c text
    else match text with [] => false | t :: text' => if (c =? DOT) || (c =? t) then matchhere (d :: re) text' else false end.
Proof. cbn -[matchhere matchstar]. unfold matchhere at 1. fold matchhere. by rewrite andb_false_r. Qed.

Lemma items_cons2 c d re :
  items (c :: d :: re) =
    if d =? STAR then (Many c :: (items re).1, (items re).2) else (One c :: (items (d :: re)).1, (items (d :: re)).2).
Proof.
  assert (Hp : forall (x : list item * bool) i, (let '(its, eol) := x in (i :: its, eol)) = (i :: x.1, x.2)) by (by intros [] ?).
  rewrite <- !Hp. cbn [items]. by rewrite andb_false_r.
Qed.

Lemma end_spec text :
  (match text with [] => true | _ => false end) = true
  <-> exists mid post, text = mid ++ post /\ lang [] mid /\ (true = true -> post = []).
Proof.
  split.
  - destruct text; [|done]. intros _. exists [], []. split; [done|]. split; [constructor|done].
  - intros (mid & post & -> & Hl & He). inversion Hl; subst. by rewrite (He eq_refl).
Qed.

Lemma matchhere_spec n : forall re text, (length re <= n)%nat -> matchhere re text = true <-> begins re text.
Proof.
  induction n as [|n IH]; intros re text Hn.
  { destruct re; [|cbn in Hn; lia]. split; [|done]. intros _. exists [], text. split; [done|]. split; [constructor|done]. }
  destruct re as [|c re]; [apply (IH [] text); cbn; lia|].
  pose proof (one_spec c re text ltac:(intros; apply IH; cbn in Hn; lia)) as Hone. unfold begins.
  destruct re as [|d re].
  - cbn [matchhere items]. destruct (c =? DOLLAR); [apply end_spec|exact Hone].
  - rewrite matchhere_cons2, items_cons2. destruct (d =? STAR); [|exact Hone].
    rewrite matchstar_spec. cbn [fst snd]. split.
    + intros (s & rest & -> & Hs & Hr). apply IH in Hr as (mid & post & -> & Hl & He); [|cbn in Hn; lia].
      exists (s ++ mid), post. rewrite app_assoc. split; [done|]. split; [by constructor|done].
    + intros (mid & post & -> & Hl & He). apply lang_many_inv in Hl as (s1 & s2 & -> & Hs & Hl).
      exists s1, (s2 ++ post). rewrite app_assoc. split; [done|]. split; [done|]. apply IH; [cbn in Hn; lia|].
      by exists s2, post.
Qed.

Lemma match_from_spec re text :
  match_from re text = true <-> exists pre rest, text = pre ++ rest /\ begins re rest.
Proof.
  induction text as [|t text IH]; cbn [match_from]; destruct (matchhere re _) eqn:Eh.
  - split; [|done]. intros _. exists [], []. split; [done|]. by apply (matchhere_spec (length re)).
  - split; [done|]. intros (pre & rest & E & Hb). symmetry in E. apply app_eq_nil in E as [-> ->].
    apply (matchhere_spec (length re)) in Hb; [congruence|lia].
  - split; [|done]. intros _. exists [], (t :: text). split; [done|]. by apply (matchhere_spec (length re)).
  - rewrite IH. split.
    + intros (pre & rest & -> & Hb). by exists (t :: pre), rest.
    + intros (pre & rest & E & Hb). destruct pre as [|t' pre].
      * cbn in E. subst rest. apply (matchhere_spec (length re)) in Hb; [congruence|lia].
      * injection E as <- ->. by exists pre, rest.
Qed.

(** C21: the matcher of grep finds a pattern exactly when some part of the line is
    a string the pattern describes: characters, dots and starred items in
    sequence, from the start of the line for [^], up to its end for [$]. *)
Theorem grep_match re text : rematch re text = true <-> found re text.
Proof.
  unfold rematch, found. destruct re as [|c re]; [apply match_from_spec|].
  destruct (c =? CARET); [by apply (matchhere_spec (length re))|apply match_from_spec].
Qed.

(** ** The lines of a file *)

Definition text (ls : list (list Z)) : list Z := concat ((fun l => l ++ [NL]) <$> ls).

(** No newline, no NUL. *)
Definition plain (l : list Z) : Prop := Forall (fun c => c <> NL /\ c <> 0) l.

Lemma text_app a b : text (a ++ b) = text a ++ text b.
Proof. unfold text. by rewrite fmap_app, concat_app. Qed.

Lemma cut_line_text l r : plain l -> cut_line (l ++ NL :: r) = Some (l, r).
Proof.
  induction 1 as [|c l [Hc H0] _ IH]; [done|]. cbn. rewrite IH.
  destruct (Z.eqb_spec c NL), (Z.eqb_spec c 0); done.
Qed.

Lemma cut_line_plain p : plain p -> cut_line p = None.
Proof.
  induction 1 as [|c l [Hc H0] _ IH]; [done|]. cbn. rewrite IH. destruct (Z.eqb_spec c NL), (Z.eqb_spec c 0); done.
Qed.

Lemma grep_lines_text pattern ls p fuel :
  Forall plain ls -> plain p -> (length ls <= fuel)%nat ->
  grep_lines fuel pattern (text ls ++ p) = (text (filter (fun l => rematch pattern l = true) ls), p).
Proof.
  intros Hls Hp. revert fuel. induction Hls as [|l ls Hl _ IH]; intros fuel Hf.
  - destruct fuel; cbn; [done|]. by rewrite cut_line_plain.
  - destruct fuel as [|fuel]; [cbn in Hf; lia|]. cbn [grep_lines].
    change (text (l :: ls)) with ((l ++ [NL]) ++ text ls). rewrite <- !app_assoc. cbn [app].
    rewrite cut_line_text, IH by (done || cbn in Hf; lia). rewrite filter_cons.
    destruct (rematch pattern l); [rewrite decide_True by done|rewrite decide_False by done]; done.
Qed.

(** A prefix of a text is some of its lines and part of the next. *)
Lemma prefix_lines ls : forall tail x y,
  Forall plain ls -> plain tail -> x ++ y = text ls ++ tail ->
  exists ls1 ls2 p, ls = ls1 ++ ls2 /\ x = text ls1 ++ p /\ plain p /\ p ++ y = text ls2 ++ tail.
Proof.
  induction ls as [|l ls IH]; intros tail x y Hls Ht E.
  - exists [], [], x. cbn in *. split; [done|]. split; [done|]. split; [|done]. rewrite <- E in Ht. by apply Forall_app in Ht as [].
  - apply Forall_cons in Hls as [Hl Hls]. change (text (l :: ls)) with ((l ++ [NL]) ++ text ls) in E.
    rewrite <- app_assoc in E. apply app_eq_app in E as (k & [[-> E]|[E ->]]).
    + destruct (IH tail k y Hls Ht) as (ls1 & ls2 & p & -> & -> & Hp & Hy); [done|].
      exists (l :: ls1), ls2, p. split; [done|]. split; [|done]. by rewrite app_assoc.
    + destruct k as [|c k _] using rev_ind.
      * rewrite app_nil_r in E. subst x. exists [l], ls, []. split; [done|]. cbn. rewrite !app_nil_r. split; [done|]. by split; [constructor|].
      * rewrite app_assoc in E. apply app_inj_tail in E as [-> <-]. pose proof Hl as Hl'. apply Forall_app in Hl' as [Hl1 _].
        exists [], ((x ++ k) :: ls), x. split; [done|]. split; [done|]. split; [done|].
        change (text ((x ++ k) :: ls)) with (((x ++ k) ++ [NL]) ++ text ls). by rewrite <- !app_assoc.
Qed.

Lemma text_plain ls tail p : plain p -> p = text ls ++ tail -> ls = [].
Proof.
  intros Hp E. destruct ls as [|l ls]; [done|]. change (text (l :: ls)) with ((l ++ [NL]) ++ text ls) in E.
  rewrite E in Hp. unfold plain in Hp. rewrite !Forall_app, Forall_cons in Hp. naive_solver.
Qed.

(** A line that fits has its newline within reach. *)
Lemma long_prefix ls tail p y :
  Forall (fun l => plain l /\ (length l <= 1022)%nat) ls -> plain p -> (1023 <= length p)%nat ->
  p ++ y = text ls ++ tail -> ls = [].
Proof.
  intros Hls Hp Hlen E. destruct ls as [|l ls]; [done|]. apply Forall_cons in Hls as [[_ Hl] _]. exfalso.
  change (text (l :: ls)) with ((l ++ [NL]) ++ text ls) in E. rewrite <- app_assoc in E.
  apply app_eq_app in E as (k & [[-> E]|[E ->]]).
  - unfold plain in Hp. rewrite !Forall_app, Forall_cons in Hp. naive_solver.
  - assert (length (l ++ [NL]) = length (p ++ k)) as Hk by congruence. rewrite !length_app in Hk. cbn in Hk.
    destruct k as [|c k]; [|cbn in Hk; lia]. rewrite app_nil_r in E. subst p.
    unfold plain in Hp. rewrite Forall_app, Forall_cons in Hp. naive_solver.
Qed.

Lemma text_length ls : (length ls <= length (text ls))%nat.
Proof.
  induction ls as [|l ls IH]; [done|]. change (text (l :: ls)) with ((l ++ [NL]) ++ text ls).
  rewrite !length_app. cbn. lia.
Qed.

(** One turn of the loop, on [b] and the next bytes [c]. *)
Lemma grep_turn pattern ls tail b c r :
  Forall plain ls -> plain tail -> (b ++ c) ++ r = text ls ++ tail ->
  exists ls1 ls2 p, ls = ls1 ++ ls2 /\ b ++ c = text ls1 ++ p /\ plain p /\ p ++ r = text ls2 ++ tail
    /\ grep_lines (length (b ++ c)) pattern (b ++ c) = (text (filter (fun l => rematch pattern l = true) ls1), p).
Proof.
  intros Hls Ht E. destruct (prefix_lines ls tail (b ++ c) r Hls Ht E) as (ls1 & ls2 & p & -> & Ex & Hp & Ey).
  exists ls1, ls2, p. split; [done|]. split; [done|]. split; [done|]. split; [done|]. rewrite Ex.
  apply grep_lines_text; [by apply Forall_app in Hls as []|done|]. rewrite length_app. pose proof (text_length ls1). lia.
Qed.

Definition fits (l : list Z) : Prop := plain l /\ (length l <= 1022)%nat.

Lemma grep_loop_end k pattern b : grep_loop (S k) pattern b [] = Some [].
Proof. done. Qed.

Lemma grep_loop_file pattern : forall fuel r b ls tail,
  (length r < fuel)%nat -> Forall fits ls -> plain tail -> plain b -> (length b <= 1022)%nat ->
  b ++ r = text ls ++ tail ->
  grep_loop fuel pattern b [r] = Some (text (filter (fun l => rematch pattern l = true) ls)).
Proof.
  induction fuel as [|k IH]; intros r b ls tail Hf Hls Ht Hb Hlen E; [lia|].
  assert (Forall plain ls) as Hpl by (eapply Forall_impl; [exact Hls|by intros l []]).
  cbn [grep_loop read]. change BUFSIZE with 1024%nat. remember (1024 - length b - 1)%nat as max eqn:Hmax.
  destruct (Nat.leb_spec (length r) max) as [Hm|Hm].
  - destruct r as [|x r].
    { rewrite app_nil_r in E. by rewrite (text_plain _ _ _ Hb E). }
    destruct (grep_turn pattern ls tail b (x :: r) [] Hpl Ht ltac:(by rewrite app_nil_r)) as (ls1 & ls2 & p & -> & _ & Hp & Ep & ->).
    rewrite app_nil_r in Ep. rewrite (text_plain _ _ _ Hp Ep), app_nil_r.
    destruct k as [|k]; [cbn in Hf; lia|]. by rewrite grep_loop_end, app_nil_r.
  - assert (length (take max r) = max) as Htk by (rewrite length_take; lia).
    destruct (grep_turn pattern ls tail b (take max r) (drop max r) Hpl Ht) as (ls1 & ls2 & p & -> & Ex & Hp & Ep & Eg);
      [by rewrite <- app_assoc, take_drop|]. cbv zeta. rewrite Eg.
    assert (length (b ++ take max r) = 1023%nat) as Hfull by (rewrite length_app, Htk; lia).
    assert (length (drop max r) < k)%nat as Hk by (rewrite length_drop; lia).
    destruct (take max r) as [|y c] eqn:Etk; [cbn in Htk; lia|]. rewrite <- Etk in *. clear Etk.
    apply Forall_app in Hls as [Hls1 Hls2]. destruct (Nat.eqb_spec (length p) (length (b ++ take max r))) as [Hpl'|Hpl'].
    + assert (ls1 = []) as ->.
      { destruct ls1 as [|l ls1]; [done|]. rewrite Ex, length_app in Hpl'. pose proof (text_length (l :: ls1)). cbn in *. lia. }
      assert (ls2 = []) as -> by (eapply long_prefix; [exact Hls2|exact Hp|lia|exact Ep]).
      cbn in Ep. subst tail. apply Forall_app in Ht as [_ Ht].
      rewrite (IH (drop max r) [] [] (drop max r)); [done|done|constructor|done|constructor|cbn; lia|done].
    + rewrite (IH (drop max r) p ls2 tail); try done; [by rewrite filter_app, text_app|].
      rewrite Ex, length_app in Hfull, Hpl'. lia.
Qed.

(** On a file whose lines have at most 1022 characters and no NUL, grep ends
    and prints exactly the lines that match, each with its newline and in order,
    wherever the borders of the 1024-byte buffer fall; an unterminated last line
    is not printed. *)
Theorem grep_file pattern ls tail :
  Forall fits ls -> plain tail ->
  grep pattern [text ls ++ tail] = Some (text (filter (fun l => rematch pattern l = true) ls)).
Proof.
  intros Hls Ht. unfold grep. cbn [concat]. rewrite app_nil_r. apply (grep_loop_file _ _ _ _ _ tail); try done; [lia|constructor|cbn; lia].
Qed.
Lemma grep_file_witness :
  grep [97; STAR; 98] [text [[97; 97; 98]; [99]; [98]] ++ [98]] = Some (text [[97; 97; 98]; [98]]).
Proof.
  rewrite (grep_file [97; STAR; 98] [[97; 97; 98]; [99]; [98]] [98]);
    [vm_compute; reflexivity|repeat constructor; cbn; try lia; done|repeat constructor; done].
Defined.

(** Input that comes in pieces, as from a pipe, loses the start of a line that is
    read without its newline. *)
Theorem grep_loses_short_reads :
  grep [97; 98] [[97; 98; NL]] = Some [97; 98; NL] /\ grep [97; 98] [[97]; [98; NL]] = Some [].
Proof. split; vm_compute; reflexivity. Qed.
