(* ===== verification/Uprogs.v ===== *)
(** * Programs: cat.c, wc.c, grep.c, echo.c, ls.c, rm.c, mkdir.c, ln.c, kill.c, and stat of ulib.c

    A program talks to the kernel by system calls; they are the interface
    [UserSys], over a state that stands for the rest of the system.  A program that
    calls [exit] in the middle returns [false]. *)

From stdpp Require Import base numbers list strings.
From S2P Require Import Prelude Bytes Mem Str User Format Grep.

Open Scope Z_scope.

(** [struct stat], as far as programs look at it. *)
Record ustat := mk_ustat { us_type : Z; us_ino : Z; us_size : Z }.

Definition T_DIR : Z := 1.
Definition T_FILE : Z := 2.
Definition DIRSIZ : nat := 14.

(** [read] returns its result and the bytes; [fstat] the structure. *)
Class UserSys (K : Type) := {
  u_open : list Z -> Z -> M K Z;
  u_close : Z -> M K Z;
  u_read : Z -> Z -> M K (Z * list Z);
  u_write : Z -> list Z -> M K Z;
  u_fstat : Z -> M K (Z * ustat);
  u_unlink : list Z -> M K Z;
  u_mkdir : list Z -> M K Z;
  u_link : list Z -> list Z -> M K Z;
  u_kill : Z -> M K Z
}.

Section Programs.
Context {K : Type} `{UserSys K}.

(** [printf(fd, fmt, ...)]: the argument of the n-th string conversion is n. *)
Definition uprintf (fd : Z) (fmt : list Z) (strs : list (list Z)) (args : list Z) : M K unit :=
  printf (fun a => nth (Z.to_nat (a - 1)) strs []) (fun l => u_write fd l ;; ret tt) fmt args.

Definition line (s : string) : list Z := codes s ++ [10].

(** The loop of [main] over the files: open each, or complain and stop; [body] says
    whether to go on. *)
Fixpoint each_file (body : Z -> list Z -> M K bool) (msg : list Z) (argv : list (list Z)) : M K unit :=
  match argv with
  | [] => ret tt
  | a :: argv' =>
      let* fd := u_open a 0 in
      if fd <? 0 then uprintf 1 msg [a] [1]
      else
        let* go := body fd a in
        if go then u_close fd ;; each_file body msg argv' else ret tt
  end.

(** ** cat.c *)

Fixpoint cat_loop (fuel : nat) (fd : Z) : M K Z :=
  match fuel with
  | O => nofuel
  | S k =>
      let* '(n, l) := u_read fd 512 in
      if n >? 0 then
        u_write 1 (take (Z.to_nat n) l) ;;
        cat_loop k fd
      else ret n
  end.

Definition cat (fuel : nat) (fd : Z) : M K bool :=
  let* n := cat_loop fuel fd in
  if n <? 0 then uprintf 1 (line "cat: read error") [] [] ;; ret false else ret true.

Definition cat_files (fuel : nat) : list (list Z) -> M K unit :=
  each_file (fun fd _ => cat fuel fd) (line "cat: cannot open %s").

(** [main]; [argv] without the name of the program. *)
Definition cat_main (fuel : nat) (argv : list (list Z)) : M K unit :=
  match argv with
  | [] => cat fuel 0 ;; ret tt
  | _ => cat_files fuel argv
  end.

(** ** wc.c *)

Record counts := mk_counts { cl : Z; cw : Z; cc : Z; inword : bool }.

Definition count_char (s : counts) (c : Z) : counts :=
  let l := if c =? 10 then s32 (cl s + 1) else cl s in
  let cc' := s32 (cc s + 1) in
  if strchr [chr " "; 13; 9; 10; 11] c then mk_counts l (cw s) cc' false
  else if inword s then mk_counts l (cw s) cc' true
  else mk_counts l (s32 (cw s + 1)) cc' true.

Fixpoint wc_loop (fuel : nat) (fd : Z) (s : counts) : M K (Z * counts) :=
  match fuel with
  | O => nofuel
  | S k =>
      let* '(n, l) := u_read fd 512 in
      if n >? 0 then wc_loop k fd (foldl count_char s (take (Z.to_nat n) l)) else ret (n, s)
  end.

Definition wc (fuel : nat) (fd : Z) (name : list Z) : M K bool :=
  let* '(n, s) := wc_loop fuel fd (mk_counts 0 0 0 false) in
  if n <? 0 then uprintf 1 (line "wc: read error") [] [] ;; ret false
  else uprintf 1 (line "%d %d %d %s") [name] [cl s; cw s; cc s; 1] ;; ret true.

Definition wc_files (fuel : nat) : list (list Z) -> M K unit := each_file (wc fuel) (line "wc: cannot open %s").

Definition wc_main (fuel : nat) (argv : list (list Z)) : M K unit :=
  match argv with
  | [] => wc fuel 0 [] ;; ret tt
  | _ => wc_files fuel argv
  end.

(** ** grep.c; the matcher and [strchr] are those of [Grep] *)

(** The inner loop over the lines from [p] on; the result is the bytes after the
    last newline. *)
Fixpoint grep_print (fuel : nat) (pattern p : list Z) : M K (list Z) :=
  match fuel with
  | O => ret p
  | S k =>
      match cut_line p with
      | None => ret p
      | Some (l, rest) =>
          when (rematch pattern l) (u_write 1 (l ++ [NL]) ;; ret tt) ;;
          grep_print k pattern rest
      end
  end.

(** [grep], with the [m] bytes [buf] left from before. *)
Fixpoint grep_fd (fuel : nat) (pattern : list Z) (fd : Z) (buf : list Z) : M K unit :=
  match fuel with
  | O => nofuel
  | S k =>
      let* '(n, c) := u_read fd (Z.of_nat BUFSIZE - Z.of_nat (length buf) - 1) in
      if n >? 0 then
        let b := buf ++ take (Z.to_nat n) c in
        let* p := grep_print (length b) pattern b in
        grep_fd k pattern fd (if (length p =? length b)%nat then [] else p)
      else ret tt
  end.

Definition grep_main (fuel : nat) (argv : list (list Z)) : M K unit :=
  match argv with
  | [] => uprintf 2 (line "usage: grep pattern [file ...]") [] []
  | [pattern] => grep_fd fuel pattern 0 []
  | pattern :: argv' =>
      each_file (fun fd _ => grep_fd fuel pattern fd [] ;; ret true) (line "grep: cannot open %s") argv'
  end.

(** ** echo.c *)

Fixpoint echo_main (argv : list (list Z)) : M K unit :=
  match argv with
  | [] => ret tt
  | a :: argv' =>
      uprintf 1 (codes "%s%s") [a; match argv' with [] => [10] | _ => codes " " end] [1; 2] ;;
      echo_main argv'
  end.

(** ** rm.c, mkdir.c, ln.c, kill.c *)

Fixpoint until_failure (call : list Z -> M K Z) (msg : list Z) (argv : list (list Z)) : M K unit :=
  match argv with
  | [] => ret tt
  | a :: argv' =>
      let* r := call a in
      if r <? 0 then uprintf 2 msg [a] [1] else until_failure call msg argv'
  end.

Definition rm_main (argv : list (list Z)) : M K unit :=
  match argv with
  | [] => uprintf 2 (line "Usage: rm files...") [] []
  | _ => until_failure u_unlink (line "rm: %s failed to delete") argv
  end.

Definition mkdir_main (argv : list (list Z)) : M K unit :=
  match argv with
  | [] => uprintf 2 (line "Usage: mkdir files...") [] []
  | _ => until_failure u_mkdir (line "mkdir: %s failed to create") argv
  end.

Definition ln_main (argv : list (list Z)) : M K unit :=
  match argv with
  | [old; new] =>
      let* r := u_link old new in
      when (r <? 0) (uprintf 2 (line "link %s %s: failed") [old; new] [1; 2])
  | _ => uprintf 2 (line "Usage: ln old new") [] []
  end.

(** [atoi] of ulib.c on a string; a [char] is signed, so bytes above 127 are not digits. *)
Fixpoint atoi_from (s : list Z) (n : Z) : Z :=
  match s with
  | c :: s' => if (chr "0" <=? c) && (c <=? chr "9") then atoi_from s' (s32 (n * 10 + c - chr "0")) else n
  | [] => n
  end.

Definition kill_main (argv : list (list Z)) : M K unit :=
  match argv with
  | [] => uprintf 2 (line "usage: kill pid...") [] []
  | _ => for_all argv (fun a => u_kill (atoi_from a 0) ;; ret tt)
  end.

(** ** ls.c *)

(** [stat] of ulib.c *)
Definition stat (n : list Z) : M K (Z * ustat) :=
  let* fd := u_open n O_RDONLY in
  if fd <? 0 then ret (-1, mk_ustat 0 0 0)
  else
    let* r := u_fstat fd in
    u_close fd ;;
    ret r.

(** What follows the last slash. *)
Fixpoint after_slash (path : list Z) : list Z :=
  match path with
  | [] => []
  | c :: path' =>
      if c =? chr "/" then after_slash path'
      else if strchr path' (chr "/") then after_slash path' else c :: path'
  end.

(** [fmtname]: padded with blanks to [DIRSIZ] characters. *)
Definition fmtname (path : list Z) : list Z :=
  let p := after_slash path in
  if (DIRSIZ <=? length p)%nat then p else p ++ repeat (chr " ") (DIRSIZ - length p).

Definition ls_line (path : list Z) (st : ustat) : M K unit :=
  uprintf 1 (line "%s %d %d %d") [fmtname path] [1; us_type st; us_ino st; us_size st].

(** The entries of a directory; a [struct dirent] has 16 bytes, the name from the
    third on.  [buf] of 512 bytes holds the path, a slash and the name. *)
Fixpoint ls_dir (fuel : nat) (fd : Z) (path : list Z) : M K unit :=
  match fuel with
  | O => nofuel
  | S k =>
      let* '(n, de) := u_read fd 16 in
      if negb (n =? 16) then ret tt
      else if get16 de 0 =? 0 then ls_dir k fd path
      else
        let name := take DIRSIZ (drop 2 de) in
        if (512 <? length path + 1 + DIRSIZ + 1)%nat then fault
        else
          let buf := path ++ [chr "/"] ++ c_string name in
          let* '(r, st) := stat buf in
          (if r <? 0 then uprintf 1 (line "ls: cannot stat %s") [buf] [1] else ls_line buf st) ;;
          ls_dir k fd path
  end.

Definition ls (fuel : nat) (path : list Z) : M K unit :=
  let* fd := u_open path 0 in
  if fd <? 0 then uprintf 2 (line "ls: cannot open %s") [path] [1]
  else
    let* '(r, st) := u_fstat fd in
    if r <? 0 then uprintf 2 (line "ls: cannot stat %s") [path] [1] ;; u_close fd ;; ret tt
    else
      (if us_type st =? T_FILE then ls_line path st
       else if us_type st =? T_DIR then
         if (512 <? length path + 1 + DIRSIZ + 1)%nat then uprintf 1 (line "ls: path too long") [] []
         else ls_dir fuel fd path
       else ret tt) ;;
      u_close fd ;;
      ret tt.

Definition ls_main (fuel : nat) (argv : list (list Z)) : M K unit :=
  match argv with
  | [] => ls fuel (codes ".")
  | _ => for_all argv (ls fuel)
  end.

End Programs.
