(* ===== verification/UprogsSpec.v ===== *)
(** * What cat, wc and echo print

    [FileSys] is what the programs rely on: opening a file gives its contents,
    while only the standard descriptors are open, each read the next piece of them, however short, and writes to descriptor 1
    appear one after the other. *)

From stdpp Require Import base numbers list strings.
From S2P Require Import Prelude Bytes Mem Str User Format Uprogs.

Open Scope Z_scope.

Definition upd_fd (fd : Z) (v : option (list Z)) (f : Z -> option (list Z)) : Z -> option (list Z) :=
  fun x => if x =? fd then v else f x.

(** [rest k fd] are the bytes still to be read at an open descriptor, [named k path]
    the contents of a file that can be opened, [shown k] what was written to
    descriptor 1. *)
Class FileSys (K : Type) `{UserSys K} := {
  rest : K -> Z -> option (list Z);
  named : K -> list Z -> option (list Z);
  shown : K -> list Z;

  fs_read k fd n l : rest k fd = Some l -> 0 < n ->
    exists c l' k', u_read fd n k = ([], Ret (Z.of_nat (length c), c) k') /\ l = c ++ l' /\ (c = [] -> l = []) /\
      (forall x, rest k' x = upd_fd fd (Some l') (rest k) x) /\ (forall p, named k' p = named k p) /\ shown k' = shown k;
  fs_write k l : exists k', u_write 1 l k = ([], Ret (Z.of_nat (length l)) k') /\
    (forall x, rest k' x = rest k x) /\ (forall p, named k' p = named k p) /\ shown k' = shown k ++ l;
  fs_open k p l : (forall fd, 3 <= fd -> rest k fd = None) -> named k p = Some l ->
    exists fd k', u_open p 0 k = ([], Ret fd k') /\ 0 <= fd /\ rest k fd = None /\
      (forall x, rest k' x = upd_fd fd (Some l) (rest k) x) /\ (forall p, named k' p = named k p) /\ shown k' = shown k;
  fs_no_file k p : named k p = None -> exists fd, fd < 0 /\ u_open p 0 k = ([], Ret fd k);
  fs_close k fd l : rest k fd = Some l ->
    exists k', u_close fd k = ([], Ret 0 k') /\
      (forall x, rest k' x = upd_fd fd None (rest k) x) /\ (forall p, named k' p = named k p) /\ shown k' = shown k
}.

Section Spec.
Context {K : Type} `{FileSys K}.

(** The files are untouched, and [t] was printed. *)
Definition printed (k k' : K) (t : list Z) : Prop :=
  (forall x, rest k' x = rest k x) /\ (forall p, named k' p = named k p) /\ shown k' = shown k ++ t.

(** ** Output *)

Lemma putc_all_run t (k : K) :
  bytes_ok t -> exists k', for_all t (putc (fun l => u_write 1 l ;; ret tt)) k = ([], Ret tt k') /\ printed k k' t.
Proof.
  intros Ht. revert k. induction Ht as [|c t Hc Ht IH]; intros k; cbn [for_all].
  { exists k. split; [done|]. split; [done|]. split; [done|]. by rewrite app_nil_r. }
  unfold putc at 1. unfold u8. rewrite Z.mod_small by lia.
  destruct (fs_write k [c]) as (k1 & E1 & R1 & N1 & S1).
  rewrite (bind_nil _ _ k tt k1) by (rewrite (bind_nil _ _ _ _ _ E1); done).
  destruct (IH k1) as (k2 & E2 & R2 & N2 & S2). exists k2. split; [done|].
  split; [intros x; by rewrite R2|]. split; [intros p; by rewrite N2|]. rewrite S2, S1, <- app_assoc. done.
Qed.

Lemma uprintf_run fmt strs args t (k : K) :
  Forall bytes_ok strs ->
  render (fun a => nth (Z.to_nat (a - 1)) strs []) upper true fmt args = Some t -> bytes_ok t ->
  exists k', uprintf 1 fmt strs args k = ([], Ret tt k') /\ printed k k' t.
Proof.
  intros Hs E Ht. unfold uprintf. rewrite (printf_render _ _ fmt args t k E). by apply putc_all_run.
Qed.

(** ** cat *)

Lemma cat_loop_run fuel fd l (k : K) :
  rest k fd = Some l -> (length l < fuel)%nat ->
  exists k', cat_loop fuel fd k = ([], Ret 0 k') /\ (forall x, rest k' x = upd_fd fd (Some []) (rest k) x) /\
    (forall p, named k' p = named k p) /\ shown k' = shown k ++ l.
Proof.
  revert l k. induction fuel as [|fuel IH]; intros l k Hl Hf; [lia|]. cbn [cat_loop].
  destruct (fs_read k fd 512 l Hl ltac:(lia)) as (c & l' & k1 & E1 & -> & Hc & R1 & N1 & S1).
  rewrite (bind_nil _ _ _ _ _ E1). cbv beta iota. destruct (decide (c = [])) as [->|Hne].
  - specialize (Hc eq_refl). cbn [app] in *. subst l'. exists k1. split; [done|]. split; [done|]. split; [done|].
    by rewrite S1, app_nil_r.
  - assert (0 < length c)%nat as Hpos by (destruct c; [done|cbn; lia]).
    destruct (Z.gtb_spec (Z.of_nat (length c)) 0); [|lia]. rewrite Nat2Z.id, firstn_all.
    destruct (fs_write k1 c) as (k2 & E2 & R2 & N2 & S2). rewrite (bind_nil _ _ _ _ _ E2). rewrite length_app in Hf.
    destruct (IH l' k2) as (k3 & E3 & R3 & N3 & S3); [rewrite R2, R1; unfold upd_fd; by rewrite Z.eqb_refl|lia|].
    exists k3. split; [done|]. split; [|split; [intros p; by rewrite N3, N2|rewrite S3, S2, S1; by rewrite app_assoc]].
    intros x. rewrite R3. unfold upd_fd. rewrite R2, R1. unfold upd_fd. by destruct (x =? fd).
Qed.

Lemma cat_run fuel fd l (k : K) :
  rest k fd = Some l -> (length l < fuel)%nat ->
  exists k', cat fuel fd k = ([], Ret true k') /\ (forall x, rest k' x = upd_fd fd (Some []) (rest k) x) /\
    (forall p, named k' p = named k p) /\ shown k' = shown k ++ l.
Proof.
  intros Hl Hf. destruct (cat_loop_run fuel fd l k Hl Hf) as (k' & E & Hr). exists k'. split; [|done].
  unfold cat. by rewrite (bind_nil _ _ _ _ _ E).
Qed.

(** ** The arguments *)

(** What is printed for the arguments: [f] for each file, up to the first that is missing. *)
Fixpoint files_text (f : list Z -> list Z -> list Z) (prog : list Z) (files : list Z -> option (list Z)) (argv : list (list Z)) : list Z :=
  match argv with
  | [] => []
  | a :: argv' =>
      match files a with
      | Some l => f l a ++ files_text f prog files argv'
      | None => prog ++ codes ": cannot open " ++ a ++ [10]
      end
  end.

Lemma files_text_ext g prog f f' argv : (forall p, f p = f' p) -> files_text g prog f argv = files_text g prog f' argv.
Proof using Type.
  intros E. induction argv as [|a argv IH]; cbn [files_text]; [done|]. rewrite E. destruct (f' a); [by rewrite IH|done].
Qed.

(** Every file passes [P]. *)
Definition all_files (P : list Z -> Prop) (files : list Z -> option (list Z)) (argv : list (list Z)) : Prop :=
  forall a l, a ∈ argv -> files a = Some l -> P l.

Lemma each_file_run body msg prog f (P : list Z -> Prop) argv (k : K) :
  (forall fd a l k, rest k fd = Some l -> P l -> bytes_ok a ->
     exists k', body fd a k = ([], Ret true k') /\ (forall x, rest k' x = upd_fd fd (Some []) (rest k) x) /\
       (forall p, named k' p = named k p) /\ shown k' = shown k ++ f l a) ->
  (forall a k, bytes_ok a -> exists k', uprintf 1 msg [a] [1] k = ([], Ret tt k') /\
     printed k k' (prog ++ codes ": cannot open " ++ a ++ [10])) ->
  (forall fd, 3 <= fd -> rest k fd = None) -> all_files P (named k) argv -> Forall bytes_ok argv ->
  exists k', each_file body msg argv k = ([], Ret tt k') /\ printed k k' (files_text f prog (named k) argv).
Proof.
  intros Hbody Hmsg. revert k. induction argv as [|a argv IH]; intros k Hsp Hf Hb; cbn [each_file files_text].
  { exists k. split; [done|]. split; [done|]. split; [done|]. by rewrite app_nil_r. }
  apply Forall_cons in Hb as [Ha Hb]. destruct (named k a) as [l|] eqn:Ea.
  - destruct (fs_open k a l Hsp Ea) as (fd & k1 & E1 & Hfd & Hnone & R1 & N1 & S1). rewrite (bind_nil _ _ _ _ _ E1).
    destruct (Z.ltb_spec fd 0); [lia|].
    destruct (Hbody fd a l k1) as (k2 & E2 & R2 & N2 & S2);
      [rewrite R1; unfold upd_fd; by rewrite Z.eqb_refl|apply (Hf a); [by left|done]|done|].
    rewrite (bind_nil _ _ _ _ _ E2).
    destruct (fs_close k2 fd []) as (k3 & E3 & R3 & N3 & S3); [rewrite R2; unfold upd_fd; by rewrite Z.eqb_refl|].
    rewrite (bind_nil _ _ _ _ _ E3).
    assert (forall p, named k3 p = named k p) as N by (intros p; by rewrite N3, N2, N1).
    assert (forall x, rest k3 x = rest k x) as R.
    { intros x. rewrite R3. unfold upd_fd. rewrite R2. unfold upd_fd. rewrite R1. unfold upd_fd.
      destruct (Z.eqb_spec x fd) as [->|]; [by rewrite Hnone|done]. }
    destruct (IH k3) as (k4 & E4 & R4 & N4 & S4); [intros x Hx; rewrite R; by apply Hsp| |done|].
    { intros a' l' Ha' Hl'. rewrite N in Hl'. apply (Hf a' l'); [by right|done]. }
    exists k4. split; [done|]. split; [intros x; by rewrite R4|split; [intros p; by rewrite N4|]].
    rewrite S4, S3, S2, S1, (files_text_ext f prog _ _ argv N), app_assoc. done.
  - destruct (fs_no_file k a Ea) as (fd & Hfd & E1). rewrite (bind_nil _ _ _ _ _ E1).
    destruct (Z.ltb_spec fd 0); [|lia]. by apply Hmsg.
Qed.

Lemma complaint_run prog (k : K) a :
  bytes_ok a -> prog ∈ [codes "cat"; codes "wc"; codes "grep"] ->
  exists k', uprintf 1 (prog ++ line ": cannot open %s") [a] [1] k = ([], Ret tt k') /\
    printed k k' (prog ++ codes ": cannot open " ++ a ++ [10]).
Proof.
  intros Ha Hp. rewrite !elem_of_cons, elem_of_nil in Hp.
  apply uprintf_run; [by repeat constructor|by destruct Hp as [-> |[-> |[-> |[]]]]|].
  apply Forall_app. split; [destruct Hp as [-> |[-> |[-> |[]]]]; repeat constructor; lia|].
  apply Forall_app. split; [repeat constructor; lia|]. apply Forall_app. split; [done|]. repeat constructor; lia.
Qed.

(** ** wc *)

Definition blank (c : Z) : bool := strchr [chr " "; 13; 9; 10; 11] c.

(** The stretches between blanks, the empty ones included. *)
Fixpoint fields (l : list Z) : list (list Z) :=
  match l with
  | [] => [[]]
  | c :: l' =>
      if blank c then [] :: fields l'
      else match fields l' with f :: fs => (c :: f) :: fs | [] => [[c]] end
  end.

Definition full (f : list Z) : bool := match f with [] => false | _ => true end.

Definition lines (l : list Z) : Z := Z.of_nat (length (filter (fun c => c = 10) l)).
Definition words (l : list Z) : Z := Z.of_nat (length (filter (fun f => full f = true) (fields l))).
Definition chars (l : list Z) : Z := Z.of_nat (length l).

Lemma fields_cons l : exists f fs, fields l = f :: fs.
Proof using Type.
  destruct l as [|c l]; cbn [fields]; [by eexists _, _|]. destruct (blank c); [by eexists _, _|].
  destruct (fields l); by eexists _, _.
Qed.

(** A text after a character of a word: its first stretch belongs to that word. *)
Definition words_from (b : bool) (l : list Z) : Z :=
  words l - (if b && full (hd [] (fields l)) then 1 else 0).

Lemma words_cons b c l :
  words_from b (c :: l) = (if blank c then 0 else if b then 0 else 1) + words_from (negb (blank c)) l.
Proof using Type.
  unfold words_from, words. destruct (fields_cons l) as (f & fs & E). cbn [fields]. rewrite E. cbn [hd].
  destruct (blank c); cbn [negb andb].
  - rewrite filter_cons_False by done. cbn [hd full]. rewrite andb_false_r. lia.
  - cbn [hd full]. rewrite filter_cons_True by done. cbn [length]. rewrite andb_true_r.
    destruct f as [|x f]; cbn [full]; [rewrite (filter_cons_False _ []) by done|rewrite (filter_cons_True _ (x :: f)) by done; cbn [length]];
      destruct b; lia.
Qed.

Lemma count_run l s :
  0 <= cl s -> 0 <= cw s -> 0 <= cc s -> cl s + chars l < 2 ^ 31 -> cw s + chars l < 2 ^ 31 -> cc s + chars l < 2 ^ 31 ->
  let r := foldl count_char s l in
  cl r = cl s + lines l /\ cw r = cw s + words_from (inword s) l /\ cc r = cc s + chars l.
Proof using Type.
  unfold chars. revert s. induction l as [|c l IH]; intros s H1 H2 H3 H4 H5 H6; cbn [foldl length] in *.
  { unfold words_from. cbn [fields hd full]. rewrite andb_false_r. change (lines []) with 0. change (words []) with 0. cbn [Z.of_nat]. lia. }
  set (s1 := count_char s c).
  assert (cl s1 = cl s + (if c =? 10 then 1 else 0) /\ cw s1 = cw s + (if blank c then 0 else if inword s then 0 else 1) /\
    cc s1 = cc s + 1 /\ inword s1 = negb (blank c)) as (A1 & A2 & A3 & A4).
  { unfold s1, count_char. fold (blank c). rewrite !s32_small by lia.
    destruct (c =? 10), (blank c), (inword s); cbn; lia. }
  destruct (IH s1) as (B1 & B2 & B3); [destruct (c =? 10), (blank c), (inword s); lia..|].
  rewrite B1, B2, B3, A1, A2, A3, A4, words_cons. unfold lines. rewrite filter_cons.
  destruct (Z.eqb_spec c 10); case_decide; try done; cbn [length]; lia.
Qed.

Lemma wc_loop_run fuel fd l (k : K) s :
  rest k fd = Some l -> (length l < fuel)%nat ->
  exists k', wc_loop fuel fd s k = ([], Ret (0, foldl count_char s l) k') /\
    (forall x, rest k' x = upd_fd fd (Some []) (rest k) x) /\ (forall p, named k' p = named k p) /\ shown k' = shown k.
Proof.
  revert l k s. induction fuel as [|fuel IH]; intros l k s Hl Hf; [lia|]. cbn [wc_loop].
  destruct (fs_read k fd 512 l Hl ltac:(lia)) as (c & l' & k1 & E1 & -> & Hc & R1 & N1 & S1).
  rewrite (bind_nil _ _ _ _ _ E1). cbv beta iota. destruct (decide (c = [])) as [->|Hne].
  - specialize (Hc eq_refl). cbn [app] in *. subst l'. by exists k1.
  - assert (0 < length c)%nat as Hpos by (destruct c; [done|cbn; lia]).
    destruct (Z.gtb_spec (Z.of_nat (length c)) 0); [|lia]. rewrite Nat2Z.id, firstn_all. rewrite length_app in Hf.
    destruct (IH l' k1 (foldl count_char s c)) as (k3 & E3 & R3 & N3 & S3); [rewrite R1; unfold upd_fd; by rewrite Z.eqb_refl|lia|].
    exists k3. split; [rewrite E3; by rewrite foldl_app|]. split; [|split; [intros p; by rewrite N3|congruence]].
    intros x. rewrite R3. unfold upd_fd. rewrite R1. unfold upd_fd. by destruct (x =? fd).
Qed.

(** The line for a file. *)
Definition wc_line (l name : list Z) : list Z :=
  int_text upper (lines l) 10 true ++ chr " " :: int_text upper (words l) 10 true ++ chr " " ::
  int_text upper (chars l) 10 true ++ chr " " :: name ++ [10].

Lemma int_text_bytes x : bytes_ok (int_text upper x 10 true).
Proof using Type.
  assert (forall v, bytes_ok (number upper 10 v)) as Hn.
  { intros v. unfold number. rewrite rev_alt. apply Forall_reverse, Forall_fmap. apply (Forall_impl _ _ _ (rdigits_range 32 10 v ltac:(lia))).
    intros d Hd. change (0 <= byte_at upper (Z.to_nat d) < 256). assert (((0 <=? byte_at upper (Z.to_nat d)) && (byte_at upper (Z.to_nat d) <? 256)) = true) as K1; [|lia].
    by apply (zrange_check (fun d => (0 <=? byte_at upper (Z.to_nat d)) && (byte_at upper (Z.to_nat d) <? 256)) 0 10). }
  unfold int_text. destruct (true && (s32 x <? 0)); [|apply Hn]. apply Forall_cons. split; [done|apply Hn].
Qed.

Lemma wc_run fuel fd l name (k : K) :
  rest k fd = Some l -> (length l < fuel)%nat -> chars l < 2 ^ 31 -> bytes_ok name ->
  exists k', wc fuel fd name k = ([], Ret true k') /\ (forall x, rest k' x = upd_fd fd (Some []) (rest k) x) /\
    (forall p, named k' p = named k p) /\ shown k' = shown k ++ wc_line l name.
Proof.
  intros Hl Hf Hc Hb. unfold wc. destruct (wc_loop_run fuel fd l k (mk_counts 0 0 0 false) Hl Hf) as (k1 & E1 & R1 & N1 & S1).
  rewrite (bind_nil _ _ _ _ _ E1). cbv beta iota. change (0 <? 0) with false. cbv iota.
  destruct (count_run l (mk_counts 0 0 0 false)) as (C1 & C2 & C3); cbn [cl cw cc inword] in *; try lia.
  unfold words_from in C2. cbn [andb] in C2. rewrite C1, C2, C3, Z.sub_0_r, !Z.add_0_l.
  destruct (uprintf_run (line "%d %d %d %s") [name] [lines l; words l; chars l; 1] (wc_line l name) k1) as (k2 & E2 & R2 & N2 & S2).
  - by repeat constructor.
  - reflexivity.
  - unfold wc_line. apply Forall_app. split; [apply int_text_bytes|]. apply Forall_cons. split; [done|].
    apply Forall_app. split; [apply int_text_bytes|]. apply Forall_cons. split; [done|].
    apply Forall_app. split; [apply int_text_bytes|]. apply Forall_cons. split; [done|].
    apply Forall_app. split; [done|]. by apply Forall_cons.
  - exists k2. rewrite (bind_nil _ _ _ _ _ E2). split; [done|]. split; [intros x; by rewrite R2|].
    split; [intros p; by rewrite N2|]. by rewrite S2, S1.
Qed.

(** ** echo *)

Fixpoint echo_text (argv : list (list Z)) : list Z :=
  match argv with
  | [] => []
  | [a] => a ++ [10]
  | a :: argv' => a ++ codes " " ++ echo_text argv'
  end.

Lemma echo_run argv (k : K) :
  Forall bytes_ok argv -> exists k', echo_main argv k = ([], Ret tt k') /\ printed k k' (echo_text argv).
Proof.
  revert k. induction argv as [|a argv IH]; intros k Hb; cbn [echo_main].
  { exists k. split; [done|]. split; [done|]. split; [done|]. by rewrite app_nil_r. }
  apply Forall_cons in Hb as [Ha Hb]. set (sep := match argv with [] => [10] | _ => codes " " end).
  assert (bytes_ok sep) as Hs by (unfold sep; destruct argv; repeat constructor; lia).
  destruct (uprintf_run (codes "%s%s") [a; sep] [1; 2] (a ++ sep) k) as (k1 & E1 & R1 & N1 & S1).
  - by repeat constructor.
  - transitivity (Some (a ++ sep ++ [])); [reflexivity|by rewrite app_nil_r].
  - by apply Forall_app.
  - rewrite (bind_nil _ _ _ _ _ E1). destruct (IH k1 Hb) as (k2 & E2 & R2 & N2 & S2). exists k2. split; [done|].
    split; [intros x; by rewrite R2|]. split; [intros p; by rewrite N2|]. rewrite S2, S1, <- !app_assoc. f_equal.
    unfold sep. destruct argv; done.
Qed.
End Spec.

(** C40: [cat], [wc] and [echo] print what they should, however the kernel cuts the
    files into pieces.  For files that are there [cat] prints their contents one after
    the other and [wc] a line for each with the number of lines, of words and of
    characters, words being the stretches without blanks; at a file that is missing
    both complain and stop; [echo] prints its arguments; all descriptors that were
    opened are closed again and the files stay as they are. *)
Theorem filters_print {K} `{FileSys K} (fuel : nat) (argv : list (list Z)) (k : K) :
  argv <> [] -> Forall bytes_ok argv -> (forall fd, 3 <= fd -> rest k fd = None) ->
  all_files (fun l => (length l < fuel)%nat /\ chars l < 2 ^ 31) (named k) argv ->
  (exists k', cat_main fuel argv k = ([], Ret tt k') /\ printed k k' (files_text (fun l _ => l) (codes "cat") (named k) argv)) /\
  (exists k', wc_main fuel argv k = ([], Ret tt k') /\ printed k k' (files_text wc_line (codes "wc") (named k) argv)) /\
  (exists k', echo_main argv k = ([], Ret tt k') /\ printed k k' (echo_text argv)).
Proof.
  intros Hne Hb Hsp Hf. split; [|split; [|by apply echo_run]].
  - assert (cat_main fuel argv = cat_files fuel argv) as -> by (by destruct argv).
    refine (each_file_run _ _ _ _ _ argv k _ _ Hsp Hf Hb).
    + intros fd a l k1 Hr [Hl _] _. by apply cat_run.
    + intros a k1 Ha. apply (complaint_run (codes "cat")); [done|by repeat constructor].
  - assert (wc_main fuel argv = wc_files fuel argv) as -> by (by destruct argv).
    refine (each_file_run _ _ _ _ _ argv k _ _ Hsp Hf Hb).
    + intros fd a l k1 Hr [Hl Hc] Ha. by apply wc_run.
    + intros a k1 Ha. apply (complaint_run (codes "wc")); [done|by repeat constructor].
Qed.

(** ** An instance: files in a table, reads that return at most three bytes *)
Module Desk.
Record desk := mk_desk {
  files : list Z -> option (list Z);
  opened : Z -> option (list Z);
  screen : list Z
}.

Definition d_open (p : list Z) (_ : Z) : M desk Z := fun d =>
  match files d p with
  | Some l => ([], Ret 3 (mk_desk (files d) (upd_fd 3 (Some l) (opened d)) (screen d)))
  | None => ([], Ret (-1) d)
  end.

Definition d_close (fd : Z) : M desk Z := fun d =>
  ([], Ret 0 (mk_desk (files d) (upd_fd fd None (opened d)) (screen d))).

Definition d_read (fd n : Z) : M desk (Z * list Z) := fun d =>
  let l := default [] (opened d fd) in
  let c := take (Z.to_nat (Z.min n 3)) l in
  ([], Ret (Z.of_nat (length c), c)
         (mk_desk (files d) (upd_fd fd (Some (drop (Z.to_nat (Z.min n 3)) l)) (opened d)) (screen d))).

Definition d_write (_ : Z) (l : list Z) : M desk Z := fun d =>
  ([], Ret (Z.of_nat (length l)) (mk_desk (files d) (opened d) (screen d ++ l))).

#[local] Instance desk_sys : UserSys desk := {
  u_open := d_open; u_close := d_close; u_read := d_read; u_write := d_write;
  u_fstat _ := ret (-1, mk_ustat 0 0 0); u_unlink _ := ret (-1); u_mkdir _ := ret (-1);
  u_link _ _ := ret (-1); u_kill _ := ret (-1)
}.

#[local, program] Instance desk_files : FileSys desk := { rest := opened; named := files; shown := screen }.
Next Obligation.
  intros d fd n l Hl Hn. exists (take (Z.to_nat (Z.min n 3)) l), (drop (Z.to_nat (Z.min n 3)) l). eexists.
  cbn [u_read desk_sys]. unfold d_read. rewrite Hl. split; [done|]. split; [by rewrite take_drop|].
  split; [|done]. intros E. destruct l as [|x l]; [done|].
  destruct (Z.to_nat (Z.min n 3)) eqn:En; [lia|done].
Qed.
Next Obligation. intros d l. by eexists. Qed.
Next Obligation.
  intros d p l Hsp Hl. exists 3. eexists. cbn [u_open desk_sys]. unfold d_open. rewrite Hl.
  split; [done|]. split; [lia|]. split; [apply Hsp; lia|done].
Qed.
Next Obligation. intros d p Hl. exists (-1). cbn [u_open desk_sys]. unfold d_open. by rewrite Hl. Qed.
Next Obligation. intros d fd l Hl. by eexists. Qed.

(** Two files, and a third name that is not there. *)
Definition two_files : desk :=
  mk_desk (fun p => if decide (p = codes "a") then Some (codes "to be or" ++ [10] ++ codes "not")
                    else if decide (p = codes "b") then Some [] else None) (fun _ => None) [].

Lemma filters_print_witness :
  (exists k', cat_main 99 [codes "a"; codes "b"; codes "c"] two_files = ([], Ret tt k') /\
     printed two_files k' (codes "to be or" ++ [10] ++ codes "not" ++ line "cat: cannot open c")) /\
  (exists k', wc_main 99 [codes "a"; codes "b"; codes "c"] two_files = ([], Ret tt k') /\
     printed two_files k' (line "1 4 12 a" ++ line "0 0 0 b" ++ line "wc: cannot open c")) /\
  (exists k', echo_main [codes "a"; codes "b"; codes "c"] two_files = ([], Ret tt k') /\ printed two_files k' (line "a b c")).
Proof.
  assert (files_text (fun l _ => l) (codes "cat") (named two_files) [codes "a"; codes "b"; codes "c"] =
            codes "to be or" ++ [10] ++ codes "not" ++ line "cat: cannot open c") as <- by (vm_compute; reflexivity).
  assert (files_text wc_line (codes "wc") (named two_files) [codes "a"; codes "b"; codes "c"] =
            line "1 4 12 a" ++ line "0 0 0 b" ++ line "wc: cannot open c") as <- by (vm_compute; reflexivity).
  assert (echo_text [codes "a"; codes "b"; codes "c"] = line "a b c") as <- by (vm_compute; reflexivity).
  refine (filters_print 99 [codes "a"; codes "b"; codes "c"] two_files _ _ _ _).
  - done.
  - repeat constructor; lia.
  - done.
  - intros a l _ E. cbn [named desk_files two_files files] in E.
    repeat case_decide; simplify_eq; split; (vm_compute; lia) || (vm_compute; done).
Defined.
End Desk.
