(* ===== verification/GrepMain.v ===== *)
(** * What the program grep prints

    The loop of [Uprogs] over a descriptor writes what the loop of [Grep] computes,
    when every read of a file returns as much as was asked for. *)

From stdpp Require Import base numbers list strings.
From S2P Require Import Prelude Bytes Mem Str User Format Grep Uprogs UprogsSpec.

Open Scope Z_scope.

(** [read] on a file, as against a pipe or the console, stops short only at its end. *)
Class FullReads (K : Type) `{FileSys K} := {
  fs_full k fd n l : rest k fd = Some l -> 0 <= n ->
    exists k', u_read fd n k = ([], Ret (Z.of_nat (length (take (Z.to_nat n) l)), take (Z.to_nat n) l) k') /\
      (forall x, rest k' x = upd_fd fd (Some (drop (Z.to_nat n) l)) (rest k) x) /\
      (forall p, named k' p = named k p) /\ shown k' = shown k
}.

(** The lines of a file that end in a newline, and what follows the last one. *)
Fixpoint split_lines (l : list Z) : list (list Z) * list Z :=
  match l with
  | [] => ([], [])
  | c :: l' =>
      let '(ls, tail) := split_lines l' in
      if c =? NL then ([] :: ls, tail)
      else match ls with
           | [] => ([], c :: tail)
           | x :: ls' => ((c :: x) :: ls', tail)
           end
  end.

Definition file_lines (l : list Z) : list (list Z) := (split_lines l).1.

(** The lines that match the pattern. *)
Definition matching (pattern l : list Z) : list Z :=
  text (filter (fun x => rematch pattern x = true) (file_lines l)).

(** A file that grep can read: no NUL, and lines of at most 1022 characters. *)
Definition readable (l : list Z) : Prop :=
  Forall (fun c => c <> 0) l /\ Forall (fun x => (length x <= 1022)%nat) (file_lines l).

Lemma split_lines_text l : l = text (split_lines l).1 ++ (split_lines l).2.
Proof.
  induction l as [|c l IH]; [done|]. cbn [split_lines]. destruct (split_lines l) as [[|x ls] tail] eqn:E; cbn [fst snd] in *.
  - destruct (Z.eqb_spec c NL); cbn [fst snd]; rewrite IH at 1; [subst c; done|done].
  - destruct (Z.eqb_spec c NL); cbn [fst snd]; rewrite IH at 1; [subst c; done|done].
Qed.

Lemma split_lines_plain l :
  Forall (fun c => c <> 0) l -> Forall plain (split_lines l).1 /\ plain (split_lines l).2.
Proof.
  induction 1 as [|c l Hc _ IH]; [by repeat constructor|]. cbn [split_lines].
  destruct (split_lines l) as [[|x ls] tail] eqn:E; cbn [fst snd] in *; destruct IH as [IH1 IH2];
    destruct (Z.eqb_spec c NL); cbn [fst snd].
  - by repeat constructor.
  - split; [constructor|]. by repeat constructor.
  - split; [|done]. by constructor; [constructor|].
  - split; [|done]. apply Forall_cons in IH1 as [Hx IH1]. constructor; [by constructor|done].
Qed.

Lemma readable_grep pattern l fuel :
  readable l -> (length l < fuel)%nat -> grep_loop fuel pattern [] [l] = Some (matching pattern l).
Proof.
  intros [H0 Hlen] Hf. destruct (split_lines_plain l H0) as [Hls Ht].
  apply (grep_loop_file pattern fuel l [] (file_lines l) (split_lines l).2); [done| |done|constructor|cbn; lia|apply split_lines_text].
  unfold fits. apply Forall_and. by split.
Qed.

(** What is left after the inner loop is the buffer or shorter. *)
Lemma grep_lines_left fuel pattern p :
  (grep_lines fuel pattern p).2 = p \/ (length (grep_lines fuel pattern p).2 < length p)%nat.
Proof.
  assert (forall p l r, cut_line p = Some (l, r) -> (length r < length p)%nat) as Hcut.
  { clear. induction p as [|c p IH]; intros l r; cbn [cut_line]; [done|]. destruct (c =? NL); [intros [= <- <-]; cbn; lia|].
    destruct (c =? 0); [done|]. destruct (cut_line p) as [[l' r']|] eqn:E; [|done]. intros [= <- <-].
    specialize (IH l' r' eq_refl). cbn. lia. }
  revert p. induction fuel as [|fuel IH]; intros p; cbn [grep_lines]; [by left|].
  destruct (cut_line p) as [[l r]|] eqn:E; [|by left]. right. specialize (Hcut p l r E). specialize (IH r).
  destruct (grep_lines fuel pattern r) as [out p'] eqn:Eg. cbn [snd] in *. destruct IH as [->|]; lia.
Qed.

Section Spec.
Context {K : Type} `{FullReads K}.

Lemma grep_print_run fuel pattern p (k : K) :
  exists k', grep_print fuel pattern p k = ([], Ret (grep_lines fuel pattern p).2 k')
    /\ printed k k' (grep_lines fuel pattern p).1.
Proof.
  assert (forall k : K, printed k k []) as Hno by (intros k0; split; [done|split; [done|by rewrite app_nil_r]]).
  revert p k. induction fuel as [|fuel IH]; intros p k; cbn [grep_print grep_lines]; [by exists k|].
  destruct (cut_line p) as [[l r]|]; [|by exists k].
  assert (exists k1, when (rematch pattern l) (u_write 1 (l ++ [NL]) ;; ret tt) k = ([], Ret tt k1)
    /\ printed k k1 (if rematch pattern l then l ++ [NL] else [])) as (k1 & E1 & R1 & N1 & S1).
  { destruct (rematch pattern l); cbn [when]; [|by exists k].
    destruct (fs_write k (l ++ [NL])) as (k1 & E1 & P1). exists k1. by rewrite (bind_nil _ _ _ _ _ E1). }
  rewrite (bind_nil _ _ _ _ _ E1). destruct (IH r k1) as (k2 & E2 & R2 & N2 & S2).
  destruct (grep_lines fuel pattern r) as [out p'] eqn:Eg. cbn [fst snd] in *. exists k2. split; [done|].
  split; [intros x; by rewrite R2|]. split; [intros x; by rewrite N2|]. by rewrite S2, S1, app_assoc.
Qed.

(** The input that is left, as [Grep] has it. *)
Definition left_input (input : list (list Z)) (l : list Z) : Prop := input = [l] \/ (input = [] /\ l = []).

Lemma left_input_read max input l :
  left_input input l -> exists input', read max input = (take max l, input') /\ left_input input' (drop max l).
Proof using Type.
  intros [-> | [-> ->]]; cbn [read].
  - destruct (Nat.leb_spec (length l) max).
    + rewrite take_ge, drop_ge by lia. exists []. split; [done|by right].
    + eexists. split; [done|by left].
  - rewrite take_nil, drop_nil. exists []. split; [done|by right].
Qed.

Lemma grep_fd_run fuel pattern fd : forall buf input l out (k : K),
  rest k fd = Some l -> left_input input l -> (length buf <= 1022)%nat -> grep_loop fuel pattern buf input = Some out ->
  exists k', grep_fd fuel pattern fd buf k = ([], Ret tt k') /\ (forall x, rest k' x = upd_fd fd (Some []) (rest k) x) /\
    (forall p, named k' p = named k p) /\ shown k' = shown k ++ out.
Proof.
  induction fuel as [|fuel IH]; intros buf input l out k Hl Hin Hbuf Hout; [done|].
  cbn [grep_fd grep_loop] in *. set (max := (BUFSIZE - length buf - 1)%nat) in *.
  assert (Z.of_nat BUFSIZE - Z.of_nat (length buf) - 1 = Z.of_nat max) as -> by (unfold max, BUFSIZE; lia).
  destruct (fs_full k fd (Z.of_nat max) l Hl ltac:(lia)) as (k1 & E1 & R1 & N1 & S1). rewrite Nat2Z.id in E1, R1.
  destruct (left_input_read max input l Hin) as (input' & Er & Hin'). rewrite Er in Hout.
  rewrite (bind_nil _ _ _ _ _ E1). cbv beta iota. destruct (take max l) as [|x c] eqn:Et.
  { assert (l = []) as -> by (destruct l; [done|]; destruct max eqn:Em; [unfold max, BUFSIZE in Em; lia|done]).
    injection Hout as <-. rewrite drop_nil in R1. exists k1. split; [done|]. split; [done|]. split; [done|]. by rewrite S1, app_nil_r. }
  destruct (Z.gtb_spec (Z.of_nat (length (x :: c))) 0); [|cbn in *; lia]. rewrite Nat2Z.id, firstn_all. cbv zeta in Hout |- *.
  set (b := buf ++ x :: c) in *. destruct (grep_print_run (length b) pattern b k1) as (k2 & E2 & R2 & N2 & S2).
  rewrite (bind_nil _ _ _ _ _ E2). pose proof (grep_lines_left (length b) pattern b) as Hleft.
  destruct (grep_lines (length b) pattern b) as [out1 p] eqn:Eg. cbn [fst snd] in *.
  destruct (grep_loop fuel pattern _ input') as [more|] eqn:Em; [|done]. injection Hout as <-.
  assert (length b <= 1023)%nat as Hb.
  { unfold b. rewrite <- Et, length_app, length_take. unfold max, BUFSIZE. lia. }
  destruct (IH (if (length p =? length b)%nat then [] else p) input' (drop max l) more k2 ltac:(rewrite R2, R1; unfold upd_fd; by rewrite Z.eqb_refl) Hin') as (k3 & E3 & R3 & N3 & S3);
    [|exact Em|].
  { destruct (Nat.eqb_spec (length p) (length b)); [cbn; lia|]. destruct Hleft as [->|]; [done|lia]. }
  exists k3. split; [exact E3|]. split; [|split; [intros q; by rewrite N3, N2|by rewrite S3, S2, S1, app_assoc]].
  intros y. rewrite R3. unfold upd_fd. rewrite R2, R1. unfold upd_fd. by destruct (y =? fd).
Qed.

Lemma grep_file_run fuel pattern fd l (k : K) :
  rest k fd = Some l -> readable l -> (length l < fuel)%nat ->
  exists k', grep_fd fuel pattern fd [] k = ([], Ret tt k') /\ (forall x, rest k' x = upd_fd fd (Some []) (rest k) x) /\
    (forall p, named k' p = named k p) /\ shown k' = shown k ++ matching pattern l.
Proof.
  intros Hl Hr Hf. apply (grep_fd_run fuel pattern fd [] [l] l); [done|by left|cbn; lia|by apply readable_grep].
Qed.

End Spec.

(** C22: the program [grep] prints, for each of its files in turn, exactly the lines
    that match the pattern, each with its newline and in order, wherever the borders
    of its 1024-byte buffer fall; a last line without a newline is not printed.  The
    files have no NUL and lines of at most 1022 characters.  At a file that is missing
    it complains and stops; without files it reads descriptor 0.  The files stay as
    they are and all descriptors that were opened are closed. *)
Theorem grep_prints {K} `{FullReads K} (fuel : nat) (pattern : list Z) (argv : list (list Z)) (k : K) :
  Forall bytes_ok argv ->
  (argv <> [] -> (forall fd, 3 <= fd -> rest k fd = None) ->
   all_files (fun l => (length l < fuel)%nat /\ readable l) (named k) argv ->
   exists k', grep_main fuel (pattern :: argv) k = ([], Ret tt k')
     /\ printed k k' (files_text (fun l _ => matching pattern l) (codes "grep") (named k) argv)) /\
  (forall l, rest k 0 = Some l -> readable l -> (length l < fuel)%nat ->
   exists k', grep_main fuel [pattern] k = ([], Ret tt k') /\ shown k' = shown k ++ matching pattern l).
Proof.
  intros Hb. split.
  - intros Hne Hsp Hf. destruct argv as [|a argv]; [done|]. cbn [grep_main].
    refine (each_file_run _ _ _ (fun l _ => matching pattern l) _ (a :: argv) k _ _ Hsp Hf Hb).
    + intros fd b l k1 Hr [Hl Hd] _. destruct (grep_file_run fuel pattern fd l k1 Hr Hd Hl) as (k2 & E & P).
      exists k2. by rewrite (bind_nil _ _ _ _ _ E).
    + intros b k1 Hb1. apply (complaint_run (codes "grep")); [done|by repeat constructor].
  - intros l Hl Hd Hf. destruct (grep_file_run fuel pattern 0 l k Hl Hd Hf) as (k2 & E & _ & _ & S2). by exists k2.
Qed.

(** ** An instance: the desk of [UprogsSpec], with reads of full length *)
Module Shelf.
Import Desk.

Definition s_read (fd n : Z) : M desk (Z * list Z) := fun d =>
  let l := default [] (opened d fd) in
  let c := take (Z.to_nat n) l in
  ([], Ret (Z.of_nat (length c), c) (mk_desk (files d) (upd_fd fd (Some (drop (Z.to_nat n) l)) (opened d)) (screen d))).

#[local] Instance shelf_sys : UserSys desk := {
  u_open := d_open; u_close := d_close; u_read := s_read; u_write := d_write;
  u_fstat _ := ret (-1, mk_ustat 0 0 0); u_unlink _ := ret (-1); u_mkdir _ := ret (-1);
  u_link _ _ := ret (-1); u_kill _ := ret (-1)
}.

#[local, program] Instance shelf_files : FileSys desk := { rest := opened; named := files; shown := screen }.
Next Obligation.
  intros d fd n l Hl Hn. exists (take (Z.to_nat n) l), (drop (Z.to_nat n) l). eexists.
  cbn [u_read shelf_sys]. unfold s_read. rewrite Hl. split; [done|]. split; [by rewrite take_drop|].
  split; [|done]. intros E. destruct l as [|x l]; [done|]. destruct (Z.to_nat n) eqn:En; [lia|done].
Qed.
Next Obligation. intros d l. by eexists. Qed.
Next Obligation.
  intros d p l Hsp Hl. exists 3. eexists. cbn [u_open shelf_sys]. unfold d_open. rewrite Hl.
  split; [done|]. split; [lia|]. split; [apply Hsp; lia|done].
Qed.
Next Obligation. intros d p Hl. exists (-1). cbn [u_open shelf_sys]. unfold d_open. by rewrite Hl. Qed.
Next Obligation. intros d fd l Hl. by eexists. Qed.

#[local, program] Instance shelf_full : FullReads desk := {}.
Next Obligation.
  intros d fd n l Hl Hn. cbn [u_read shelf_sys]. unfold s_read. cbn [rest shelf_files] in Hl. rewrite Hl. by eexists.
Qed.

(** [grep o a b c]: file c is not there. *)
Lemma grep_prints_witness :
  exists k', grep_main 99 [codes "o"; codes "a"; codes "b"; codes "c"] two_files = ([], Ret tt k') /\
    printed two_files k' (line "to be or" ++ line "grep: cannot open c").
Proof.
  assert (files_text (fun l _ => matching (codes "o") l) (codes "grep") (named two_files) [codes "a"; codes "b"; codes "c"] =
            line "to be or" ++ line "grep: cannot open c") as <- by (vm_compute; reflexivity).
  refine (proj1 (grep_prints 99 (codes "o") [codes "a"; codes "b"; codes "c"] two_files _) _ _ _).
  - repeat constructor; lia.
  - done.
  - done.
  - intros a l _ E. cbn [named shelf_files two_files files] in E.
    repeat case_decide; simplify_eq; (split; [vm_compute; lia|split; apply (bool_decide_unpack _); vm_compute; exact I]).
Defined.
End Shelf.
