(* ===== verification/Ports.v ===== *)
(** * I/O ports: the x86 instructions of x86.h that talk to devices

    The devices are a parameter: a type of machine states with what these
    instructions do to it.  A device whose behaviour does not matter for the code
    is [script]: any sequence of answers, and a record of all accesses. *)

From stdpp Require Import base numbers list.
From S2P Require Import Prelude.

Open Scope Z_scope.

(** [insl] reads and [outsl] writes whole words, here as their bytes. *)
Class Ports (H : Type) := {
  inb : Z -> M H Z;
  outb : Z -> Z -> M H unit;
  outw : Z -> Z -> M H unit;
  insl : Z -> nat -> M H (list Z);
  outsl : Z -> list Z -> M H unit
}.

(** ** Any device: answers given in advance *)

Inductive access :=
  | In (port value : Z)
  | Out (port value : Z)
  | InWords (port : Z) (data : list Z)
  | OutWords (port : Z) (data : list Z).

Record script := mk_script { answers : list Z; trace : list access }.

(** The next [n] answers; a device that gives none leaves the code waiting. *)
Definition answer (f : Z -> access) : M script Z := fun s =>
  match answers s with
  | [] => ([], NoFuel)
  | v :: rest => ([], Ret (u8 v) (mk_script rest (trace s ++ [f (u8 v)])))
  end.

Fixpoint answer_bytes (n : nat) : M script (list Z) :=
  match n with
  | O => ret []
  | S k => let* b := answer (fun v => InWords 0 [v]) in let* r := answer_bytes k in ret (b :: r)
  end.

Definition record_access (a : access) : M script unit :=
  modify (fun s => mk_script (answers s) (trace s ++ [a])).

#[export] Instance script_ports : Ports script := {|
  inb := fun p => answer (In p);
  outb := fun p v => record_access (Out p (u8 v));
  outw := fun p v => record_access (Out p (v `mod` 2 ^ 16));
  insl := fun p n => answer_bytes (4 * n);
  outsl := fun p d => record_access (OutWords p d)
|}.
