(* ===== verification/Irq.v ===== *)
(** * Interrupt routing and the timer: picirq.c, ioapic.c, timer.c

    The drivers program their controllers by writes to ports and to memory-mapped
    registers; the devices are a parameter. *)

From stdpp Require Import base numbers list sets strings.
From S2P Require Import Prelude Bytes Mem Str User Ports Segments.

Open Scope Z_scope.

(** Loads and stores of a [uint] at the address of a device register. *)
Class Mmio (H : Type) := {
  load_reg : Z -> M H Z;
  store_reg : Z -> Z -> M H unit
}.

(** Text on the console. *)
Definition say {S} (text : string) : M S unit := for_all (codes text) (fun c => emit (EvPutc c)).

Section Irq.
Context {H : Type} `{Ports H} `{Mmio H}.

(** [irqmask] of picirq.c, [ismp] and [ioapicid] of mp.c, and the devices. *)
Record irq := mk_irq {
  irqmask : Z;
  ismp : bool;
  ioapicid : Z;
  ihw : H
}.

Definition set_irqmask (m : Z) (s : irq) : irq := mk_irq m (ismp s) (ioapicid s) (ihw s).
Definition ihw_l : lens irq H := Lens ihw (fun h s => mk_irq (irqmask s) (ismp s) (ioapicid s) h).
Definition io {A} (m : M H A) : M irq A := zoom ihw_l m.

(** ** The 8259A controllers *)

Definition IO_PIC1 : Z := 0x20.
Definition IO_PIC2 : Z := 0xA0.
Definition IRQ_SLAVE : Z := 2.

(** The initial value of [irqmask]. *)
Definition irqmask0 : Z := Z.land 0xFFFF (Z.lnot (Z.shiftl 1 IRQ_SLAVE)).

Definition picsetmask (mask : Z) : M irq unit :=
  modify (set_irqmask mask) ;;
  io (outb (IO_PIC1 + 1) (u8 mask) ;;
      outb (IO_PIC2 + 1) (u8 (Z.shiftr mask 8))).

Definition picenable (n : Z) : M irq unit :=
  let* s := get in
  picsetmask (u16 (Z.land (irqmask s) (Z.lnot (Z.shiftl 1 n)))).

Definition picinit : M irq unit :=
  io (outb (IO_PIC1 + 1) 0xFF ;;
      outb (IO_PIC2 + 1) 0xFF ;;
      outb IO_PIC1 0x11 ;;
      outb (IO_PIC1 + 1) T_IRQ0 ;;
      outb (IO_PIC1 + 1) (Z.shiftl 1 IRQ_SLAVE) ;;
      outb (IO_PIC1 + 1) 0x3 ;;
      outb IO_PIC2 0x11 ;;
      outb (IO_PIC2 + 1) (T_IRQ0 + 8) ;;
      outb (IO_PIC2 + 1) IRQ_SLAVE ;;
      outb (IO_PIC2 + 1) 0x3 ;;
      outb IO_PIC1 0x68 ;;
      outb IO_PIC1 0x0a ;;
      outb IO_PIC2 0x68 ;;
      outb IO_PIC2 0x0a) ;;
  let* s := get in
  when (negb (irqmask s =? 0xFFFF)) (picsetmask (irqmask s)).

(** ** The I/O APIC *)

Definition IOAPIC : Z := 0xFEC00000.
Definition REG_ID : Z := 0x00.
Definition REG_VER : Z := 0x01.
Definition REG_TABLE : Z := 0x10.
Definition INT_DISABLED : Z := 0x00010000.

(** The fields [reg] and [data] of [struct ioapic]. *)
Definition IOAPIC_REG : Z := IOAPIC.
Definition IOAPIC_DATA : Z := IOAPIC + 16.

Definition ioapicread (reg : Z) : M H Z :=
  store_reg IOAPIC_REG reg ;;
  load_reg IOAPIC_DATA.

Definition ioapicwrite (reg data : Z) : M H unit :=
  store_reg IOAPIC_REG reg ;;
  store_reg IOAPIC_DATA data.

Definition ioapicinit : M irq unit :=
  let* s := get in
  when (ismp s)
    (let* v := io (ioapicread REG_VER) in
     let maxintr := Z.land (Z.shiftr v 16) 0xFF in
     let* r := io (ioapicread REG_ID) in
     let id := Z.shiftr r 24 in
     when (negb (id =? ioapicid s)) (say "ioapicinit: id isn't equal to ioapicid; not a MP" ;; emit (EvPutc 10)) ;;
     for_all (zrange 0 (Z.to_nat (maxintr + 1))) (fun i =>
       io (ioapicwrite (REG_TABLE + 2 * i) (Z.lor INT_DISABLED (T_IRQ0 + i)) ;;
           ioapicwrite (REG_TABLE + 2 * i + 1) 0))).

Definition ioapicenable (n cpunum : Z) : M irq unit :=
  let* s := get in
  when (ismp s)
    (io (ioapicwrite (REG_TABLE + 2 * n) (T_IRQ0 + n) ;;
         ioapicwrite (REG_TABLE + 2 * n + 1) (u32 (Z.shiftl cpunum 24)))).

(** ** The interval timer *)

Definition IO_TIMER1 : Z := 0x040.
Definition TIMER_FREQ : Z := 1193182.
Definition TIMER_DIV (x : Z) : Z := (TIMER_FREQ + x / 2) / x.
Definition TIMER_MODE : Z := IO_TIMER1 + 3.
Definition TIMER_SEL0 : Z := 0x00.
Definition TIMER_RATEGEN : Z := 0x04.
Definition TIMER_16BIT : Z := 0x30.

Definition timerinit : M irq unit :=
  io (outb TIMER_MODE (Z.lor (Z.lor TIMER_SEL0 TIMER_RATEGEN) TIMER_16BIT) ;;
      outb IO_TIMER1 (TIMER_DIV 100 `mod` 256) ;;
      outb IO_TIMER1 (u8 (TIMER_DIV 100 / 256))) ;;
  picenable IRQ_TIMER.

End Irq.
Arguments irq H : clear implicits.

(** ** The masks of the 8259A pair *)

(** Any device on the ports; there are no memory-mapped registers in use. *)
#[local] Instance script_mmio : Mmio script := {|
  load_reg := fun a => answer (In a);
  store_reg := fun a v => record_access (Out a v)
|}.

Definition mask_writes (m : Z) : list access := [Out (IO_PIC1 + 1) (u8 m); Out (IO_PIC2 + 1) (u8 (Z.shiftr m 8))].

Lemma picsetmask_run m (s : irq script) :
  picsetmask m s =
    ([], Ret tt (mk_irq m (ismp s) (ioapicid s) (mk_script (answers (ihw s)) (trace (ihw s) ++ mask_writes m)))).
Proof.
  destruct s as [k p a [an tr]]. unfold picsetmask, mask_writes. cbn. unfold u8. rewrite !Z.mod_mod by lia.
  by rewrite <- app_assoc.
Qed.

Lemma enable_bit m n k :
  0 <= m < 2 ^ 16 -> 0 <= n < 16 -> 0 <= k ->
  Z.testbit (u16 (Z.land m (Z.lnot (Z.shiftl 1 n)))) k = Z.testbit m k && negb (k =? n).
Proof.
  intros Hm Hn Hk. unfold u16. destruct (Z.lt_ge_cases k 16) as [H16|H16].
  - rewrite Z.mod_pow2_bits_low, Z.land_spec, Z.lnot_spec by lia. f_equal. f_equal.
    rewrite Z.shiftl_1_l, Z.pow2_bits_eqb by lia. apply Z.eqb_sym.
  - rewrite Z.mod_pow2_bits_high by lia. rewrite (Z.bits_above_log2 m k); [done|lia|].
    destruct (decide (m = 0)) as [->|]; [cbn; lia|]. apply Z.log2_lt_pow2; [lia|].
    apply Z.lt_le_trans with (2 ^ 16); [lia|]. apply Z.pow_le_mono_r; lia.
Qed.

(** Enabling interrupts opens exactly their lines, and the controllers hold the mask. *)
Lemma picenable_all ns (s : irq script) :
  0 <= irqmask s < 2 ^ 16 -> Forall (fun n => 0 <= n < 16) ns -> ns <> [] ->
  exists s' before, for_all ns picenable s = ([], Ret tt s') /\ 0 <= irqmask s' < 2 ^ 16 /\
    (forall k, 0 <= k -> Z.testbit (irqmask s') k = Z.testbit (irqmask s) k && negb (bool_decide (k ∈ ns))) /\
    trace (ihw s') = before ++ mask_writes (irqmask s').
Proof.
  intros Hm Hns. revert s Hm. induction Hns as [|n ns Hn Hns IH]; intros s Hm Hne; [done|]. cbn [for_all].
  unfold picenable at 1. rewrite bind_assoc, (bind_nil get _ s s s) by done.
  rewrite (bind_nil _ _ _ _ _ (picsetmask_run _ s)).
  set (m := u16 (Z.land (irqmask s) (Z.lnot (Z.shiftl 1 n)))).
  assert (0 <= m < 2 ^ 16) as Hm' by (apply Z.mod_pos_bound; lia).
  destruct (decide (ns = [])) as [->|Hne'].
  - eexists _, _. split; [reflexivity|]. cbn [irqmask ihw trace]. split; [done|]. split; [|done].
    intros k Hk. unfold m. rewrite enable_bit by done. f_equal. f_equal.
    destruct (Z.eqb_spec k n) as [->|]; [rewrite bool_decide_true|rewrite bool_decide_false]; set_solver.
  - edestruct (IH (mk_irq m (ismp s) (ioapicid s) (mk_script (answers (ihw s)) (trace (ihw s) ++ mask_writes m))))
      as (s' & before & E & Hm2 & Hb & Ht); [exact Hm'|done|].
    exists s', before. split; [done|]. split; [done|]. split; [|done].
    intros k Hk. rewrite Hb by done. cbn [irqmask]. unfold m. rewrite enable_bit by done. rewrite <- andb_assoc. f_equal.
    destruct (Z.eqb_spec k n) as [->|]; [rewrite (bool_decide_true (n ∈ n :: ns)) by set_solver; done|].
    cbn [negb andb]. f_equal. apply bool_decide_ext. set_solver.
Qed.

(** ** The redirection table of the I/O APIC *)

(** The register file behind the select and data registers. *)
Record ioregs := mk_ioregs { select : Z; regs : Z -> Z }.

#[local] Instance ioregs_ports : Ports ioregs := {|
  inb := fun _ => ret 0; outb := fun _ _ => ret tt; outw := fun _ _ => ret tt;
  insl := fun _ _ => ret []; outsl := fun _ _ => ret tt
|}.

#[local] Instance ioregs_mmio : Mmio ioregs := {|
  load_reg := fun a => let* d := get in ret (if a =? IOAPIC_REG then select d else regs d (select d));
  store_reg := fun a v => modify (fun d =>
    if a =? IOAPIC_REG then mk_ioregs v (regs d)
    else mk_ioregs (select d) (fun r => if r =? select d then v else regs d r))
|}.

Lemma ioapicwrite_run reg v (d : ioregs) :
  ioapicwrite reg v d = ([], Ret tt (mk_ioregs reg (fun r => if r =? reg then v else regs d r))).
Proof. reflexivity. Qed.

(** On a multiprocessor an enabled interrupt goes to its own vector on the chosen
    CPU, and the entries of all others stay as they were. *)
Lemma ioapicenable_run n cpu (s : irq ioregs) :
  ismp s = true ->
  exists s', ioapicenable n cpu s = ([], Ret tt s') /\
    regs (ihw s') (REG_TABLE + 2 * n) = T_IRQ0 + n /\
    regs (ihw s') (REG_TABLE + 2 * n + 1) = u32 (Z.shiftl cpu 24) /\
    forall m, m <> n -> regs (ihw s') (REG_TABLE + 2 * m) = regs (ihw s) (REG_TABLE + 2 * m) /\
      regs (ihw s') (REG_TABLE + 2 * m + 1) = regs (ihw s) (REG_TABLE + 2 * m + 1).
Proof.
  intros Hs. unfold ioapicenable. rewrite (bind_nil get _ s s s) by done. rewrite Hs. unfold when.
  exists (mk_irq (irqmask s) (ismp s) (ioapicid s) (mk_ioregs (REG_TABLE + 2 * n + 1) (fun r =>
    if r =? REG_TABLE + 2 * n + 1 then u32 (Z.shiftl cpu 24)
    else if r =? REG_TABLE + 2 * n then T_IRQ0 + n else regs (ihw s) r))).
  split; [reflexivity|]. cbn [ihw regs].
  assert (forall a b, a <> b -> (a =? b) = false) as Hne by (intros; by apply Z.eqb_neq).
  split; [by rewrite Hne, Z.eqb_refl by lia|]. split; [by rewrite Z.eqb_refl|].
  intros m Hm. split; by rewrite !Hne by lia.
Qed.
