(* ===== verification/Lapic.v ===== *)
(** * The local interrupt controller and the clock: lapic.c

    [lapic] is the address of the memory-mapped registers, 0 on a machine without
    them.  Delays are empty, as in the code. *)

From stdpp Require Import base numbers list strings.
From S2P Require Import Prelude Bytes Mem Str User Segments Kalloc Ports Irq.

Open Scope Z_scope.

(** The registers, as indices of an array of [uint]. *)
Definition ID : Z := 0x0020 / 4.
Definition VER : Z := 0x0030 / 4.
Definition TPR : Z := 0x0080 / 4.
Definition EOI : Z := 0x00B0 / 4.
Definition SVR : Z := 0x00F0 / 4.
Definition ENABLE : Z := 0x00000100.
Definition ESR : Z := 0x0280 / 4.
Definition ICRLO : Z := 0x0300 / 4.
Definition INIT : Z := 0x00000500.
Definition STARTUP : Z := 0x00000600.
Definition DELIVS : Z := 0x00001000.
Definition ASSERT : Z := 0x00004000.
Definition LEVEL : Z := 0x00008000.
Definition BCAST : Z := 0x00080000.
Definition ICRHI : Z := 0x0310 / 4.
Definition TIMER : Z := 0x0320 / 4.
Definition X1 : Z := 0x0000000B.
Definition PERIODIC : Z := 0x00020000.
Definition PCINT : Z := 0x0340 / 4.
Definition LINT0 : Z := 0x0350 / 4.
Definition LINT1 : Z := 0x0360 / 4.
Definition ERROR : Z := 0x0370 / 4.
Definition MASKED : Z := 0x00010000.
Definition TICR : Z := 0x0380 / 4.
Definition TDCR : Z := 0x03E0 / 4.

Definition CMOS_PORT : Z := 0x70.
Definition CMOS_RETURN : Z := 0x71.
Definition CMOS_STATA : Z := 0x0a.
Definition CMOS_STATB : Z := 0x0b.
Definition CMOS_UIP : Z := Z.shiftl 1 7.
Definition SECS : Z := 0x00.
Definition MINS : Z := 0x02.
Definition HOURS : Z := 0x04.
Definition DAY : Z := 0x07.
Definition MONTH : Z := 0x08.
Definition YEAR : Z := 0x09.

Record rtcdate := mk_rtcdate {
  second : Z; minute : Z; hour : Z; day : Z; month : Z; year : Z
}.

#[global] Instance rtcdate_eq_dec : EqDecision rtcdate.
Proof. solve_decision. Defined.

Section Lapic.
Context {H : Type} `{Ports H} `{Mmio H}.

(** [warned] is the counter of [cpunum]; [low] is the memory of the machine. *)
Record lapics := mk_lapics { lapic : Z; warned : Z; low : mem; lhw : H }.

Definition lhw_l : lens lapics H := Lens lhw (fun h s => mk_lapics (lapic s) (warned s) (low s) h).
Definition set_low (f : mem -> mem) (s : lapics) : lapics := mk_lapics (lapic s) (warned s) (f (low s)) (lhw s).
Definition dev {A} (m : M H A) : M lapics A := zoom lhw_l m.

(** [lapic[index]] *)
Definition lapicr (index : Z) : M lapics Z :=
  let* s := get in dev (load_reg (lapic s + 4 * index)).

Definition lapicw (index value : Z) : M lapics unit :=
  let* s := get in
  dev (store_reg (lapic s + 4 * index) value) ;;
  lapicr ID ;;
  ret tt.

(** [while(lapic[ICRLO] & DELIVS);] *)
Fixpoint wait_delivery (fuel : nat) : M lapics unit :=
  match fuel with
  | O => nofuel
  | S k => let* v := lapicr ICRLO in if has v DELIVS then wait_delivery k else ret tt
  end.

Definition lapicinit (fuel : nat) : M lapics unit :=
  let* s := get in
  when (negb (lapic s =? 0))
    (lapicw SVR (Z.lor ENABLE (T_IRQ0 + IRQ_SPURIOUS)) ;;
     lapicw TDCR X1 ;;
     lapicw TIMER (Z.lor PERIODIC (T_IRQ0 + IRQ_TIMER)) ;;
     lapicw TICR 10000000 ;;
     lapicw LINT0 MASKED ;;
     lapicw LINT1 MASKED ;;
     let* v := lapicr VER in
     when (Z.land (Z.shiftr v 16) 0xFF >=? 4) (lapicw PCINT MASKED) ;;
     lapicw ERROR (T_IRQ0 + IRQ_ERROR) ;;
     lapicw ESR 0 ;;
     lapicw ESR 0 ;;
     lapicw EOI 0 ;;
     lapicw ICRHI 0 ;;
     lapicw ICRLO (Z.lor (Z.lor BCAST INIT) LEVEL) ;;
     wait_delivery fuel ;;
     lapicw TPR 0).

(** [interrupts] is [readeflags()&FL_IF]; the message ends with the return address. *)
Definition cpunum (interrupts : bool) (caller : string) : M lapics Z :=
  when interrupts
    (let* s := get in
     modify (fun s => mk_lapics (lapic s) (warned s + 1) (low s) (lhw s)) ;;
     when (warned s =? 0) (say ("cpu called from " ++ caller ++ " with interrupts enabled") ;; emit (EvPutc 10))) ;;
  let* s := get in
  if negb (lapic s =? 0) then let* v := lapicr ID in ret (Z.shiftr v 24) else ret 0.

Definition lapiceoi : M lapics unit :=
  let* s := get in
  when (negb (lapic s =? 0)) (lapicw EOI 0).

Definition microdelay (us : Z) : M lapics unit := ret tt.

(** [*(ushort* )p = v] *)
Definition store16 (m : mem) (p v : Z) : mem :=
  upd (upd m (u32 p) (u8 v)) (u32 (p + 1)) (u8 (v / 256)).

Definition lapicstartap (apicid addr : Z) : M lapics unit :=
  dev (outb CMOS_PORT 0xF) ;;
  dev (outb (CMOS_PORT + 1) 0x0A) ;;
  let wrv := u32 (Z.lor (Z.shiftl 0x40 4) 0x67 + KERNBASE) in
  modify (set_low (fun m => store16 m wrv 0)) ;;
  modify (set_low (fun m => store16 m (wrv + 2) (u16 (Z.shiftr addr 4)))) ;;
  lapicw ICRHI (u32 (Z.shiftl apicid 24)) ;;
  lapicw ICRLO (Z.lor (Z.lor INIT LEVEL) ASSERT) ;;
  microdelay 200 ;;
  lapicw ICRLO (Z.lor INIT LEVEL) ;;
  microdelay 100 ;;
  for_all [0; 1] (fun _ =>
    lapicw ICRHI (u32 (Z.shiftl apicid 24)) ;;
    lapicw ICRLO (Z.lor STARTUP (Z.shiftr addr 12)) ;;
    microdelay 200).

(** ** The clock *)

Definition cmos_read (reg : Z) : M lapics Z :=
  dev (outb CMOS_PORT (u8 reg)) ;;
  microdelay 200 ;;
  dev (inb CMOS_RETURN).

Definition fill_rtcdate : M lapics rtcdate :=
  let* s := cmos_read SECS in
  let* m := cmos_read MINS in
  let* h := cmos_read HOURS in
  let* d := cmos_read DAY in
  let* mo := cmos_read MONTH in
  let* y := cmos_read YEAR in
  ret (mk_rtcdate s m h d mo y).

(** The loop that reads the clock until two readings agree. *)
Fixpoint read_clock (fuel : nat) : M lapics rtcdate :=
  match fuel with
  | O => nofuel
  | S k =>
      let* t1 := fill_rtcdate in
      let* a := cmos_read CMOS_STATA in
      if has a CMOS_UIP then read_clock k
      else
        let* t2 := fill_rtcdate in
        if bool_decide (t1 = t2) then ret t1 else read_clock k
  end.

(** [CONV] *)
Definition conv (x : Z) : Z := Z.shiftr x 4 * 10 + Z.land x 0xf.

Definition conv_date (t : rtcdate) : rtcdate :=
  mk_rtcdate (conv (second t)) (conv (minute t)) (conv (hour t)) (conv (day t)) (conv (month t)) (conv (year t)).

Definition cmostime (fuel : nat) : M lapics rtcdate :=
  let* sb := cmos_read CMOS_STATB in
  let bcd := Z.land sb (Z.shiftl 1 2) =? 0 in
  let* t1 := read_clock fuel in
  let t1 := if bcd then conv_date t1 else t1 in
  ret (mk_rtcdate (second t1) (minute t1) (hour t1) (day t1) (month t1) (year t1 + 2000)).

End Lapic.
Arguments lapics H : clear implicits.

(** ** The clock chip *)

Definition to_bcd (x : Z) : Z := 16 * (x / 10) + x `mod` 10.

(** How a register codes a number, by bit 2 of status register B. *)
Definition enc (b x : Z) : Z := if has b 4 then x else to_bcd x.

(** The field of the date that a register holds. *)
Definition time_reg (r : Z) : option (rtcdate -> Z) :=
  if r =? SECS then Some second
  else if r =? MINS then Some minute
  else if r =? HOURS then Some hour
  else if r =? DAY then Some day
  else if r =? MONTH then Some month
  else if r =? YEAR then Some year
  else None.

Definition two_digits (x : Z) : Prop := 0 <= x < 100.
Definition date_ok (t : rtcdate) : Prop :=
  two_digits (second t) /\ two_digits (minute t) /\ two_digits (hour t) /\ two_digits (day t) /\
  two_digits (month t) /\ two_digits (year t).

(** The MC146818 behind the two ports, over time.  [uip n] says that the
    update-in-progress bit is set at time [n], [busy n] that the chip is changing its
    registers, [date n] what date it is.  A register that is read while the chip is
    busy gives any byte.  The bit is set well before an update: when it is clear, the
    registers are stable for another [lead] units of time (244 microseconds in the data
    sheet).  An access to a port takes at most [per] units. *)
Class RtcSpec (H : Type) `{Ports H} := {
  clock : H -> nat;
  selected : H -> Z;
  statb : Z;
  uip : nat -> bool;
  busy : nat -> bool;
  date : nat -> rtcdate;
  lead : nat;
  per : nat;

  rtc_select : forall h v, exists h', outb CMOS_PORT v h = ([], Ret tt h')
    /\ selected h' = v /\ (clock h < clock h' <= clock h + per)%nat;
  rtc_read : forall h, exists v h', inb CMOS_RETURN h = ([], Ret v h')
    /\ (clock h < clock h' <= clock h + per)%nat
    /\ (selected h = CMOS_STATB -> v = statb)
    /\ (selected h = CMOS_STATA -> has v CMOS_UIP = uip (clock h))
    /\ (forall f, time_reg (selected h) = Some f -> busy (clock h) = false -> v = enc statb (f (date (clock h))));
  rtc_24 : has statb 2 = true;            (* hours from 0 to 23 *)
  rtc_digits : forall n, date_ok (date n);
  rtc_lead : forall n k, uip n = false -> (n <= k <= n + lead)%nat -> busy k = false /\ date k = date n;
  rtc_fast : (13 * per <= lead)%nat
}.

(** ** The time that is read *)

Lemma conv_bcd x : 0 <= x < 100 -> conv (to_bcd x) = x.
Proof. intros Hx. apply Z.eqb_eq. by apply (zrange_check (fun x => conv (to_bcd x) =? x) 0 100). Qed.

Definition enc_date (b : Z) (t : rtcdate) : rtcdate :=
  mk_rtcdate (enc b (second t)) (enc b (minute t)) (enc b (hour t)) (enc b (day t)) (enc b (month t)) (enc b (year t)).

Lemma conv_enc_date b t :
  date_ok t -> (if Z.land b (Z.shiftl 1 2) =? 0 then conv_date (enc_date b t) else enc_date b t) = t.
Proof.
  intros (K1 & K2 & K3 & K4 & K5 & K6). unfold enc_date, conv_date, enc, has. change (Z.shiftl 1 2) with 4.
  destruct (Z.land b 4 =? 0); cbn [negb second minute hour day month year]; [rewrite !conv_bcd by done|]; by destruct t.
Qed.

Section Clock.
Context {H : Type} `{RtcSpec H} `{Mmio H}.

Definition time (s : lapics H) : nat := clock (lhw s).

(** The register is read at a time [n] during the call. *)
Lemma cmos_read_run reg (s : lapics H) :
  0 <= reg < 256 ->
  exists v s' n, cmos_read reg s = ([], Ret v s')
    /\ (time s < n < time s')%nat /\ (n <= time s + per)%nat /\ (time s' <= n + per)%nat
    /\ (reg = CMOS_STATB -> v = statb) /\ (reg = CMOS_STATA -> has v CMOS_UIP = uip n)
    /\ (forall f, time_reg reg = Some f -> busy n = false -> v = enc statb (f (date n))).
Proof.
  intros Hreg. destruct s as [a wd m h]. unfold cmos_read, time. unfold u8. rewrite Z.mod_small by done.
  destruct (rtc_select h reg) as (h1 & E1 & Hs & Hc1). destruct (rtc_read h1) as (v & h2 & E2 & Hc2 & Hb & Ha & Ht).
  rewrite Hs in Hb, Ha, Ht. exists v, (mk_lapics a wd m h2), (clock h1).
  split; [|cbn; repeat (split; [lia|]); done].
  unfold dev, zoom, microdelay, bind. cbn. rewrite E1. cbn. by rewrite E2.
Qed.

(** The chip shows [d] from time [a] to time [b]. *)
Definition shows (d : rtcdate) (a b : nat) : Prop :=
  forall k, (a <= k <= b)%nat -> busy k = false /\ date k = d.

Lemma field_read reg f (s : lapics H) :
  0 <= reg < 256 -> time_reg reg = Some f ->
  exists v s', cmos_read reg s = ([], Ret v s') /\ (time s + 2 <= time s' <= time s + 2 * per)%nat
    /\ forall d a b, shows d a b -> (a <= time s)%nat -> (time s' <= b)%nat -> v = enc statb (f d).
Proof.
  intros Hreg Hf. destruct (cmos_read_run reg s Hreg) as (v & s' & n & E & Hn & Hp & Hp' & _ & _ & Ht).
  exists v, s'. split; [done|]. split; [lia|]. intros d a b Hd Ha Hb.
  destruct (Hd n) as [Hbusy <-]; [lia|]. by apply Ht.
Qed.

Lemma fill_run (s : lapics H) :
  exists t s', fill_rtcdate s = ([], Ret t s') /\ (time s + 12 <= time s' <= time s + 12 * per)%nat
    /\ forall d, shows d (time s) (time s') -> t = enc_date statb d.
Proof.
  unfold fill_rtcdate.
  destruct (field_read SECS second s ltac:(done) eq_refl) as (v1 & s1 & E1 & T1 & D1).
  destruct (field_read MINS minute s1 ltac:(done) eq_refl) as (v2 & s2 & E2 & T2 & D2).
  destruct (field_read HOURS hour s2 ltac:(done) eq_refl) as (v3 & s3 & E3 & T3 & D3).
  destruct (field_read DAY day s3 ltac:(done) eq_refl) as (v4 & s4 & E4 & T4 & D4).
  destruct (field_read MONTH month s4 ltac:(done) eq_refl) as (v5 & s5 & E5 & T5 & D5).
  destruct (field_read YEAR year s5 ltac:(done) eq_refl) as (v6 & s6 & E6 & T6 & D6).
  exists (mk_rtcdate v1 v2 v3 v4 v5 v6), s6. run_with E1. run_with E2. run_with E3. run_with E4. run_with E5. run_with E6.
  split; [done|]. split; [lia|]. intros d Hd. unfold enc_date.
  by rewrite (D1 d _ _ Hd), (D2 d _ _ Hd), (D3 d _ _ Hd), (D4 d _ _ Hd), (D5 d _ _ Hd), (D6 d _ _ Hd) by lia.
Qed.

(** No update is near for as long as two rounds of the loop take. *)
Definition calm (w : nat) : Prop :=
  forall k, (w <= k <= w + 52 * per)%nat -> uip k = false /\ busy k = false /\ date k = date w.

Lemma calm_shows w a b : calm w -> (w <= a)%nat -> (b <= w + 52 * per)%nat -> shows (date w) a b.
Proof. intros Hw Ha Hb k Hk. destruct (Hw k) as (_ & ? & ?); [lia|done]. Qed.

(** What the loop returns was on the chip during the loop; a calm time ends it. *)
Lemma read_clock_run fuel w (s : lapics H) :
  calm w -> (time s <= w + 26 * per)%nat -> fuel <> O -> (w + 14 <= time s + 14 * fuel)%nat ->
  exists m s', read_clock fuel s = ([], Ret (enc_date statb (date m)) s') /\ (time s <= m <= time s')%nat.
Proof.
  intros Hw. revert s. induction fuel as [|fuel IH]; intros s Hs Hf Hfuel; [done|]. cbn [read_clock].
  destruct (fill_run s) as (t1 & s1 & E1 & T1 & D1). run_with E1.
  destruct (cmos_read_run CMOS_STATA s1 ltac:(done)) as (v & s2 & n & E2 & Hn & Hp & Hp' & _ & Hu & _). run_with E2.
  rewrite (Hu eq_refl). destruct (uip n) eqn:En.
  - assert (time s < w)%nat as Hlt by (destruct (decide (w <= time s)%nat); [|lia]; destruct (Hw n) as [? _]; [lia|congruence]).
    destruct (IH s2) as (m & s' & E & Hm); [lia..|]. exists m, s'. split; [done|lia].
  - destruct (fill_run s2) as (t2 & s3 & E3 & T3 & D3). run_with E3. pose proof rtc_fast as Hfast.
    assert (t2 = enc_date statb (date n)) as Ht2 by (apply D3; intros k Hk; apply rtc_lead; [done|lia]).
    destruct (decide (t1 = t2)) as [Eq|Ne].
    + rewrite bool_decide_true by done. exists n, s3. rewrite Eq, Ht2. split; [done|lia].
    + rewrite bool_decide_false by done. assert (time s < w)%nat as Hlt.
      { destruct (decide (w <= time s)%nat); [|lia]. destruct Ne. rewrite Ht2, (D1 (date w)).
        - f_equal. symmetry. apply (Hw n). lia.
        - apply calm_shows; [done|lia..]. }
      destruct (IH s3) as (m & s' & E & Hm); [lia..|]. exists m, s'. split; [done|lia].
Qed.
End Clock.

(** C37: over any clock chip that satisfies [RtcSpec], [cmostime] returns a date that
    the chip showed at one moment during the call, binary or decimal coded, with the
    century added: never a mixture of the fields of two dates, and nothing read while
    the chip was changing its registers.  It returns once the chip is calm for as long
    as two rounds of the loop take. *)
Theorem cmostime_correct {H} `{RtcSpec H} `{Mmio H} (s : lapics H) w fuel :
  (time s <= w)%nat -> (w + 14 <= time s + 14 * fuel)%nat -> calm w ->
  exists m s', (time s <= m <= time s')%nat /\
    cmostime fuel s = ([], Ret (mk_rtcdate (second (date m)) (minute (date m)) (hour (date m)) (day (date m))
                                           (month (date m)) (year (date m) + 2000)) s').
Proof.
  intros Hs Hf Hw. unfold cmostime.
  destruct (cmos_read_run CMOS_STATB s ltac:(done)) as (v & s1 & n & E1 & Hn & Hp & Hp' & Hb & _). run_with E1.
  destruct (read_clock_run fuel w s1 Hw) as (m & s2 & E2 & Hm); [lia..|]. exists m, s2. split; [lia|].
  run_with E2. cbv zeta. by rewrite (Hb eq_refl), conv_enc_date by apply rtc_digits.
Qed.

(** A chip that counts time in accesses.  It is busy from 995 to 1000, when the minute
    passes, and its registers read 0x55 then; the bit is set from 981 on. *)
Module Chip.
Record rtc := mk_rtc { reg_sel : Z; now : nat }.

Definition some_date (n : nat) : rtcdate :=
  mk_rtcdate (if (n <? 1000)%nat then 59 else 0) (if (n <? 1000)%nat then 7 else 8) 23 31 12 26.
Definition some_busy (n : nat) : bool := (995 <=? n)%nat && (n <=? 1000)%nat.
Definition some_uip (n : nat) : bool := (981 <=? n)%nat && (n <=? 1000)%nat.

Definition reg_value (d : rtc) : Z :=
  match time_reg (reg_sel d) with
  | Some f => if some_busy (now d) then 0x55 else enc 2 (f (some_date (now d)))
  | None => if reg_sel d =? CMOS_STATA then (if some_uip (now d) then CMOS_UIP else 0) else 2
  end.

#[local] Instance rtc_ports : Ports rtc := {|
  inb := fun p => let* d := get in modify (fun d => mk_rtc (reg_sel d) (S (now d))) ;; ret (reg_value d);
  outb := fun p v => modify (fun d => mk_rtc v (S (now d)));
  outw := fun _ _ => ret tt;
  insl := fun _ _ => ret [];
  outsl := fun _ _ => ret tt
|}.

#[local] Instance rtc_mmio : Mmio rtc := {| load_reg := fun _ => ret 0; store_reg := fun _ _ => ret tt |}.

#[local] Program Instance rtc_spec : RtcSpec rtc := {|
  clock := now; selected := reg_sel; statb := 2; uip := some_uip; busy := some_busy; date := some_date;
  lead := 13; per := 1
|}.
Next Obligation. intros h v. eexists. split; [reflexivity|]. cbn. split; [done|lia]. Qed.
Next Obligation.
  intros h. do 2 eexists. split; [reflexivity|]. split; [cbn; lia|]. unfold reg_value.
  split; [by intros ->|]. split; [intros ->; by destruct (some_uip (now h))|]. intros f -> Hb. by rewrite Hb.
Qed.
Next Obligation. done. Qed.
Next Obligation.
  intros n. unfold date_ok, two_digits, some_date. cbn [second minute hour day month year].
  destruct (n <? 1000)%nat; lia.
Qed.
Next Obligation.
  intros n k. unfold some_uip, some_busy, some_date. intros Hu Hk.
  destruct (Nat.leb_spec 981 n), (Nat.leb_spec n 1000); try done;
    destruct (Nat.leb_spec 995 k), (Nat.leb_spec k 1000), (Nat.ltb_spec n 1000), (Nat.ltb_spec k 1000);
    cbn; (lia || done).
Qed.
Next Obligation. cbn. lia. Qed.

(** A call that starts just before the update. *)
Lemma cmostime_correct_witness :
  exists m s', (970 <= m)%nat /\
    cmostime 10 (mk_lapics 0 0 (fun _ => 0) (mk_rtc 0 970)) =
      ([], Ret (mk_rtcdate (second (some_date m)) (minute (some_date m)) 23 31 12 2026) s').
Proof.
  destruct (cmostime_correct (mk_lapics 0 0 (fun _ => 0) (mk_rtc 0 970)) 1001 10) as (m & s' & Hm & E).
  - cbn. lia.
  - cbn. lia.
  - intros k Hk. cbn in *. unfold some_uip, some_busy, some_date.
    destruct (Nat.leb_spec k 1000), (Nat.ltb_spec k 1000); try lia. by rewrite !andb_false_r.
  - exists m, s'. split; [exact (proj1 Hm)|exact E].
Defined.
End Chip.
