(* ===== verification/Main.v ===== *)
(** * Starting the kernel: main.c, and kvmalloc and switchkvm of vm.c

    The first processor gets the memory below 4 megabytes into the allocator, makes
    the kernel's page table, starts the other processors one by one, each on a stack
    of its own, and then hands the rest of memory to the allocator.  The registers of
    the local APIC, and what a processor does from its startup interrupt until it sets
    [cpu->started], are an interface, [OtherCpus]. *)

From stdpp Require Import base numbers list gmap strings.
From S2P Require Import Prelude Bytes Mem Str Segments Kalloc Vm VmTable VmSpace VmKernel Proc Ports Irq Lapic.

Open Scope Z_scope.

Definition PTE_PS : Z := 0x080.

(** ** The page directory of entry.S *)

Definition entrypgdir : list Z :=
  let e := Z.lor (Z.lor (Z.lor 0 PTE_P) PTE_W) PTE_PS in
  <[Z.to_nat (Z.shiftr KERNBASE PDXSHIFT) := e]> (<[0%nat := e]> (replicate (Z.to_nat NPDENTRIES) 0)).

(** How the processor translates an address through a directory of 4-megabyte pages. *)
Definition big_page (dir : list Z) (va : Z) : option Z :=
  match dir !! Z.to_nat (PDX va) with
  | Some e => if has e PTE_P && has e PTE_PS then Some (Z.shiftl (Z.shiftr e PDXSHIFT) PDXSHIFT + va `mod` 2 ^ PDXSHIFT) else None
  | None => None
  end.

(** ** The machine *)

(** [mlap] and [mwarn] are the static variables of lapic.c, [mhw] the devices and the
    other processors. *)
Record machine (H : Type) := mk_machine {
  mpm : pmem;
  mlap : Z;
  mwarn : Z;
  kpgdir : Z;
  mcr3 : Z;
  mhw : H
}.
Arguments mk_machine {H}.
Arguments mpm {H}.
Arguments mlap {H}.
Arguments mwarn {H}.
Arguments kpgdir {H}.
Arguments mcr3 {H}.
Arguments mhw {H}.

Section Main.
Context {H : Type} `{Ports H} `{Mmio H}.

Definition MM : lens (machine H) pmem :=
  Lens mpm (fun x s => mk_machine x (mlap s) (mwarn s) (kpgdir s) (mcr3 s) (mhw s)).

(** The state of lapic.c: its memory is that of the allocator. *)
Definition LA : lens (machine H) (lapics H) :=
  Lens (fun s => mk_lapics (mlap s) (mwarn s) (ram (mpm s)) (mhw s))
    (fun x s => mk_machine (mk_pmem (low x) (km (mpm s))) (lapic x) (warned x) (kpgdir s) (mcr3 s) (lhw x)).

(** [end] and [data] of kernel.ld; [mpenter], [entrypgdir] and the image of
    entryother.S with its size; the number of processors. *)
Variables (kend kdata mpenter entrypgdir_addr entryother_start entryother_size : Z) (ncpu : nat).

(** [cpus[i].started], which processor [i] sets. *)
Variable started : nat -> M (machine H) bool.

Definition set_kpgdir (d : Z) (s : machine H) : machine H := mk_machine (mpm s) (mlap s) (mwarn s) d (mcr3 s) (mhw s).

Definition switchkvm : M (machine H) unit :=
  modify (fun s => mk_machine (mpm s) (mlap s) (mwarn s) (kpgdir s) (v2p (kpgdir s)) (mhw s)).

Definition kvmalloc : M (machine H) unit :=
  let* d := zoom MM (setupkvm kdata) in
  modify (set_kpgdir d) ;;
  switchkvm.

(** [*(void** )a = v] *)
Definition put_word (a v : Z) : M (machine H) unit := zoom MM (modify (on_ram (fun m => store32 m a v))).

(** [while(c->started == 0);] *)
Fixpoint wait_started (fuel : nat) (i : nat) : M (machine H) unit :=
  match fuel with
  | O => nofuel
  | S k => let* up := started i in if up then ret tt else wait_started k i
  end.

(** [p2v(0x7000)] *)
Definition code : Z := p2v 0x7000.

(** The body of the loop of [startothers] over the processors; [c->id] is the index
    in [cpus], which [mpinit] gives it. *)
Definition startother (fuel : nat) (i : nat) : M (machine H) unit :=
  let* me := zoom LA (cpunum false "") in
  if Z.of_nat i =? me then ret tt
  else
    let* stack := zoom MM kalloc in
    put_word (code - 4) (u32 (stack + KSTACKSIZE)) ;;
    put_word (code - 8) mpenter ;;
    put_word (code - 12) (v2p entrypgdir_addr) ;;
    zoom LA (lapicstartap (Z.of_nat i) (v2p code)) ;;
    wait_started fuel i.

Definition startothers (fuel : nat) : M (machine H) unit :=
  zoom MM (modify (on_ram (memmove code entryother_start entryother_size))) ;;
  for_all (seq 0 ncpu) (startother fuel).

(** The first two calls of [main]. *)
Definition main_tables : M (machine H) unit :=
  zoom MM (kinit1 kend kend (p2v (4 * 1024 * 1024))) ;;
  kvmalloc.

(** The two calls after the devices are set up. *)
Definition main_start (fuel : nat) : M (machine H) unit :=
  startothers fuel ;;
  zoom MM (kinit2 kend (p2v (4 * 1024 * 1024)) (p2v PHYSTOP)).

(** [main] up to [kinit2]; [devices] are the calls from [mpinit] to [timerinit], which
    allocate no memory. *)
Definition main_memory (devices : M (machine H) unit) (fuel : nat) : M (machine H) unit :=
  main_tables ;;
  devices ;;
  main_start fuel.

End Main.

(** ** What is shown *)

(** The words that processor [i] finds below its code. *)
Definition ap_words (m : mem) (i : nat) : nat * Z * Z * Z :=
  (i, load32 m (code - 4), load32 m (code - 8), load32 m (code - 12)).

Section Polls.
Context {H : Type} (started : nat -> M (machine H) bool).

(** The flag is seen unset [n] times, and then set. *)
Fixpoint polls (n : nat) (i : nat) (s s' : machine H) : Prop :=
  match n with
  | O => started i s = ([], Ret true s')
  | S k => exists s1, started i s = ([], Ret false s1) /\ polls k i s1 s'
  end.

Lemma polls_wait n i fuel s s' : polls n i s s' -> (n < fuel)%nat -> wait_started started fuel i s = ([], Ret tt s').
Proof.
  revert fuel s. induction n as [|n IH]; intros [|fuel] s Hp Hf; try lia; cbn [polls] in Hp; cbn [wait_started].
  - by run_with Hp.
  - destruct Hp as (s1 & E & Hp). run_with E. apply IH; [done|lia].
Qed.
End Polls.

(** The interrupt commands that start processor [i] at physical address [addr], with
    the upper half of the command register. *)
Definition startup_ipis (i : nat) (addr : Z) : list (Z * Z) :=
  let hi := u32 (Z.shiftl (Z.of_nat i) 24) in
  [(hi, Z.lor (Z.lor INIT LEVEL) ASSERT); (hi, Z.lor INIT LEVEL);
   (hi, Z.lor STARTUP (Z.shiftr addr 12)); (hi, Z.lor STARTUP (Z.shiftr addr 12))].

(** The hardware.  The devices answer.  The registers of the local APIC are at [apic],
    0 on a machine without one; its identification register holds [me], and a store to
    the lower half of the command register sends an interrupt command.  A processor
    that gets the startup commands for [code] reads the words below it, enters the
    kernel and sets its flag within [delay] looks, changing nothing else that the first
    processor sees; [launched] is what the processors that were started have read. *)
Class OtherCpus (H : Type) `{Ports H} `{Mmio H} (started : nat -> M (machine H) bool) (me : nat) := {
  apic : Z;
  launched : H -> list (nat * Z * Z * Z);
  icrhi : H -> Z;                 (* the upper half of the command register *)
  ipis : H -> list (Z * Z);       (* the commands sent since a processor last came up *)
  delay : nat;

  oc_out p v h : exists h', outb p v h = ([], Ret tt h')
    /\ launched h' = launched h /\ icrhi h' = icrhi h /\ ipis h' = ipis h;
  oc_load i h : exists v h', load_reg (apic + 4 * i) h = ([], Ret v h')
    /\ launched h' = launched h /\ icrhi h' = icrhi h /\ ipis h' = ipis h
    /\ (apic <> 0 -> i = ID -> Z.shiftr v 24 = Z.of_nat me);
  oc_store i v h : exists h', store_reg (apic + 4 * i) v h = ([], Ret tt h')
    /\ launched h' = launched h
    /\ icrhi h' = (if i =? ICRHI then v else icrhi h)
    /\ ipis h' = (if i =? ICRLO then ipis h ++ [(icrhi h, v)] else ipis h);
  oc_only : apic = 0 -> me = 0%nat;
  oc_up i s : (i < 256)%nat -> startup_ipis i (v2p code) `suffix_of` ipis (mhw s) ->
    exists n s', (n < delay)%nat /\ polls started n i s s' /\ mpm s' = mpm s /\ kpgdir s' = kpgdir s
      /\ mlap s' = mlap s /\ launched (mhw s') = launched (mhw s) ++ [ap_words (ram (mpm s)) i]
}.

Section Spec.
Context {H : Type} `{Ports H} `{Mmio H} (started : nat -> M (machine H) bool) (me : nat) `{!OtherCpus H started me}.

(** *** The local APIC *)

(** What the hardware shows. *)
Definition seen (h : H) : list (nat * Z * Z * Z) * Z * list (Z * Z) := (launched h, icrhi h, ipis h).

(** What a store to a register changes of it. *)
Definition stored (i v : Z) (x : list (nat * Z * Z * Z) * Z * list (Z * Z)) : list (nat * Z * Z * Z) * Z * list (Z * Z) :=
  let '(l, hi, ip) := x in (l, if i =? ICRHI then v else hi, if i =? ICRLO then ip ++ [(hi, v)] else ip).

Definition at_hw (s : lapics H) (h : H) : lapics H := mk_lapics (lapic s) (warned s) (low s) h.

Lemma lapicw_run i v s :
  lapic s = apic -> exists h, lapicw i v s = ([], Ret tt (at_hw s h)) /\ seen h = stored i v (seen (lhw s)).
Proof.
  intros Ea. unfold lapicw. erewrite bind_nil by reflexivity. unfold lapicr, dev.
  destruct (oc_store i v (lhw s)) as (h & E & L & Hi & Ip).
  destruct (oc_load ID h) as (x & h' & E' & L' & Hi' & Ip' & _).
  exists h'. split; [|unfold seen, stored; by rewrite L', Hi', Ip', L, Hi, Ip].
  unfold bind, zoom, get, ret. cbn. unfold at_hw. rewrite Ea, E. cbn. rewrite E'. reflexivity.
Qed.

Lemma outb_run p v s : exists h, dev (outb p v) s = ([], Ret tt (at_hw s h)) /\ seen h = seen (lhw s).
Proof.
  destruct (oc_out p v (lhw s)) as (h & E & L & Hi & Ip). exists h.
  split; [|unfold seen; by rewrite L, Hi, Ip]. unfold dev, zoom. cbn. by rewrite E.
Qed.

Lemma cpunum_run s :
  lapic s = apic ->
  exists h, cpunum false "" s = ([], Ret (Z.of_nat me) (at_hw s h)) /\ seen h = seen (lhw s).
Proof.
  intros Ea. unfold cpunum. cbn [when]. erewrite bind_nil by reflexivity. erewrite bind_nil by reflexivity. rewrite Ea.
  destruct (Z.eqb_spec apic 0) as [E0|E0]; cbn [negb].
  - exists (lhw s). rewrite (oc_only E0). by destruct s.
  - destruct (oc_load ID (lhw s)) as (v & h & E & L & Hi & Ip & Hid). exists h. rewrite <- (Hid E0 eq_refl).
    split; [|unfold seen; by rewrite L, Hi, Ip]. unfold lapicr, dev, bind, zoom, get, ret. unfold at_hw. cbn. rewrite Ea, E. reflexivity.
Qed.

(** Everything from [code] on, and the allocator, is as it was. *)
Record above (s s' : machine H) : Prop := mk_above {
  ab_mem x : code <= x -> ram (mpm s') x = ram (mpm s) x;
  ab_ok : mem_ok (ram (mpm s)) -> mem_ok (ram (mpm s'));
  ab_dir : kpgdir s' = kpgdir s;
  ab_lap : mlap s' = mlap s
}.

Lemma above_refl s : above s s.
Proof using Type. done. Qed.

Lemma above_trans s1 s2 s3 : above s1 s2 -> above s2 s3 -> above s1 s3.
Proof using Type.
  intros [A1 B1 C1 D1] [A2 B2 C2 D2]. constructor; [|auto|congruence|congruence]. intros x Hx. by rewrite A2, A1.
Qed.

(** The warm reset vector is below [code]. *)
Lemma store16_frame m p v x : 0 <= p -> p + 1 < 2 ^ 32 -> x < p \/ p + 1 < x -> store16 m p v x = m x.
Proof using Type.
  intros H2 H3 Hx. unfold store16, upd. rewrite !u32_small by lia.
  destruct (Z.eqb_spec x (p + 1)); [lia|]. destruct (Z.eqb_spec x p); [lia|done].
Qed.

Lemma store16_ok m p v : mem_ok m -> mem_ok (store16 m p v).
Proof using Type. intros Hm. unfold store16. repeat apply upd_ok; auto using u8_range. Qed.

(** Run the next store to a register. *)
Ltac one_store Ea V :=
  match goal with
  | |- context [bind (lapicw ?i ?v) _ ?x] =>
      let h := fresh "h" in let E := fresh "E" in
      destruct (lapicw_run i v x) as (h & E & V); [exact Ea|]; run_with E; clear E
  end.

(** [lapicstartap] sets the warm reset vector and sends the startup commands. *)
Lemma lapicstartap_run i a s :
  lapic s = apic -> exists h, lapicstartap (Z.of_nat i) a s =
    ([], Ret tt (mk_lapics (lapic s) (warned s)
       (store16 (store16 (low s) (KERNBASE + 0x467) 0) (KERNBASE + 0x469) (u16 (Z.shiftr a 4))) h))
    /\ launched h = launched (lhw s) /\ ipis h = ipis (lhw s) ++ startup_ipis i a.
Proof.
  intros Ea. unfold lapicstartap, microdelay.
  destruct (outb_run CMOS_PORT 0xF s) as (h1 & E1 & V1). run_with E1.
  destruct (outb_run (CMOS_PORT + 1) 0x0A (at_hw s h1)) as (h2 & E2 & V2). run_with E2.
  erewrite bind_nil by reflexivity. erewrite bind_nil by reflexivity. cbn [for_all].
  one_store Ea V3. one_store Ea V4. erewrite (bind_nil (ret tt)) by reflexivity.
  one_store Ea V5. erewrite (bind_nil (ret tt)) by reflexivity.
  rewrite bind_assoc. one_store Ea V6. rewrite bind_assoc. one_store Ea V7. erewrite (bind_nil (ret tt)) by reflexivity.
  rewrite bind_assoc. one_store Ea V8. rewrite bind_assoc. one_store Ea V9. erewrite (bind_nil (ret tt)) by reflexivity.
  eexists. split; [reflexivity|]. cbn [at_hw set_low lapic warned low lhw] in *.
  rewrite V8, V7, V6, V5, V4, V3, V2, V1 in V9. unfold seen, stored in V9. cbn in V9. injection V9 as -> _ ->.
  split; [done|]. by rewrite <- !app_assoc.
Qed.

Lemma lapicstartap_ok i a s :
  mlap s = apic ->
  exists s', zoom LA (lapicstartap (Z.of_nat i) a) s = ([], Ret tt s') /\ above s s' /\ km (mpm s') = km (mpm s)
    /\ (forall j, ap_words (ram (mpm s')) j = ap_words (ram (mpm s)) j)
    /\ launched (mhw s') = launched (mhw s) /\ ipis (mhw s') = ipis (mhw s) ++ startup_ipis i a.
Proof.
  intros Ea. destruct (lapicstartap_run i a (lget LA s) Ea) as (h & E & L & Ip).
  eexists. split; [unfold zoom; rewrite E; reflexivity|]. cbn [LA lget low lhw lapic warned] in L, Ip |- *.
  set (v := u16 (Z.shiftr a 4)).
  assert (forall x, KERNBASE + 0x500 <= x ->
    store16 (store16 (ram (mpm s)) (KERNBASE + 0x467) 0) (KERNBASE + 0x469) v x = ram (mpm s) x) as Hf.
  { intros x Hx. unfold KERNBASE in *. rewrite !store16_frame by lia. done. }
  split; [|split; [done|split; [|done]]].
  - constructor; cbn; [|intros Hm; by apply store16_ok, store16_ok|done|done].
    intros x Hx. apply Hf. change code with (KERNBASE + 0x7000) in Hx. lia.
  - intros j. unfold ap_words. cbn [mpm ram LA lset low].
    rewrite !(load32_ext (store16 _ _ _) (ram (mpm s))); [done|..];
      intros k Hk; apply Hf; change code with (KERNBASE + 0x7000); lia.
Qed.

(** *** Starting the other processors *)

Context (kend : Z) (Hend : KERNLINK <= kend).
Context (mpenter entrypgdir_addr entryother_start entryother_size : Z) (Hentry : 0 <= mpenter < 2 ^ 32).

Lemma kend_base : KERNBASE <= kend.
Proof using Hend. unfold KERNLINK, KERNBASE, EXTMEM in *. lia. Qed.

(** The three words, one after the other. *)
Definition with_words (m : mem) (stack : Z) : mem :=
  store32 (store32 (store32 m (code - 4) (stack + KSTACKSIZE)) (code - 8) mpenter) (code - 12) (v2p entrypgdir_addr).

Lemma with_words_frame m stack x : code <= x -> with_words m stack x = m x.
Proof using Type. intros Hx. unfold with_words. rewrite !store32_other by lia. done. Qed.

Lemma with_words_read m stack i :
  0 <= stack + KSTACKSIZE < 2 ^ 32 ->
  ap_words (with_words m stack) i = (i, stack + KSTACKSIZE, mpenter, v2p entrypgdir_addr).
Proof using Hentry.
  intros Hs. assert (0 <= v2p entrypgdir_addr < 2 ^ 32) as Hv by (unfold v2p; apply u32_range).
  unfold ap_words, with_words.
  rewrite (load32_store32_ne _ (code - 12) _ (code - 4)), (load32_store32_ne _ (code - 8) _ (code - 4)) by lia.
  rewrite (load32_store32_ne _ (code - 12) _ (code - 8)) by lia. rewrite !load32_store32_eq by done. done.
Qed.

Abbreviation one := (startother mpenter entrypgdir_addr started).

Lemma me_run s :
  mlap s = apic -> exists s', zoom LA (cpunum false "") s = ([], Ret (Z.of_nat me) s')
    /\ mpm s' = mpm s /\ kpgdir s' = kpgdir s /\ mlap s' = mlap s /\ launched (mhw s') = launched (mhw s).
Proof using Type*.
  intros Ea. destruct (cpunum_run (lget LA s) Ea) as (h & E & V). injection V as V _ _.
  eexists. split; [unfold zoom; rewrite E; reflexivity|]. cbn. split; [by destruct (mpm s)|done].
Qed.

Lemma startother_me fuel s :
  mlap s = apic -> exists s', one fuel me s = ([], Ret tt s')
    /\ mpm s' = mpm s /\ kpgdir s' = kpgdir s /\ mlap s' = mlap s /\ launched (mhw s') = launched (mhw s).
Proof.
  intros Ea. destruct (me_run s Ea) as (s1 & E1 & P1). exists s1. split; [|done]. unfold startother. run_with E1. by rewrite Z.eqb_refl.
Qed.

Lemma page_top p : good_page kend p -> 0 <= p + KSTACKSIZE < 2 ^ 32 /\ u32 (p + KSTACKSIZE) = p + KSTACKSIZE.
Proof using Hend.
  intros Hg%(good_page_range kend kend_base). assert (0 <= p + KSTACKSIZE < 2 ^ 32) as Hr
    by (unfold KERNBASE, PHYSTOP, PGSIZE, KSTACKSIZE in *; lia). split; [done|by apply u32_small].
Qed.

Lemma startother_ok fuel i s stack l :
  i <> me -> (i < 256)%nat -> mlap s = apic -> alloc_inv kend (mpm s) (stack :: l) -> (delay <= fuel)%nat ->
  exists s', one fuel i s = ([], Ret tt s') /\ alloc_inv kend (mpm s') l /\ above s s'
    /\ use_lock (km (mpm s')) = use_lock (km (mpm s))
    /\ launched (mhw s') = launched (mhw s) ++ [(i, stack + KSTACKSIZE, mpenter, v2p entrypgdir_addr)].
Proof.
  intros Hi Hi2 Ea Ha Hf. unfold startother. destruct (me_run s Ea) as (s1 & E1 & M1 & D1 & P1 & L1). run_with E1.
  destruct (Z.eqb_spec (Z.of_nat i) (Z.of_nat me)) as [|_]; [lia|]. rewrite <- M1 in Ha.
  destruct (kalloc_inv kend kend_base (mpm s1) _ Ha) as (p1 & E2 & Ha2 & R2 & U2).
  assert (zoom MM kalloc s1 = ([], Ret stack (lset MM p1 s1))) as E2' by (unfold zoom; cbn [MM lget]; by rewrite E2). run_with E2'.
  set (s2 := lset MM p1 s1). destruct (page_top stack) as [Hr Hu].
  { pose proof (ai_good _ _ _ Ha) as HF. by apply Forall_cons in HF as [? _]. }
  rewrite Hu. erewrite !bind_nil by reflexivity.
  match goal with |- context [bind (zoom LA (lapicstartap _ _)) _ ?x] => set (s3 := x) end.
  destruct (lapicstartap_ok i (v2p code) s3) as (s4 & E4 & A4 & K4 & W4 & L4 & I4); [by rewrite <- Ea, <- P1|]. run_with E4.
  destruct (oc_up i s4 Hi2) as (n & s5 & Hn & Hp & M5 & D5 & P5 & L5); [rewrite I4; by eexists|].
  rewrite (polls_wait started n i fuel s4 s5 Hp ltac:(lia)). exists s5. split; [done|].
  assert (ram (mpm s3) = with_words (ram (mpm s1)) stack) as R3 by (cbn; by rewrite R2).
  assert (km (mpm s3) = km p1) as K3 by done. assert (kpgdir s3 = kpgdir s1) as D3 by done.
  assert (mhw s3 = mhw s1) as H3 by done. assert (mlap s3 = mlap s1) as P3 by done. clearbody s3.
  assert (mem_ok (ram (mpm s1)) -> mem_ok (ram (mpm s3))) as Hok by (rewrite R3; intros ?; by repeat apply store32_ok).
  assert (forall x, code <= x -> ram (mpm s4) x = ram (mpm s1) x) as Hx.
  { intros x Hx. by rewrite (ab_mem _ _ A4), R3, with_words_frame. }
  split; [|split; [|split]].
  - rewrite M5. destruct (mpm s4) as [m4 k4] eqn:E. cbn in K4. subst k4. rewrite K3.
    apply (alloc_inv_frame kend p1 l m4 Ha2).
    + change m4 with (ram (mk_pmem m4 (km (mpm s3)))). rewrite <- E. apply (ab_ok _ _ A4), Hok, Ha.
    + intros p x Hin Hpx. rewrite R2. apply Hx.
      pose proof (ai_good _ _ _ Ha2) as HF. rewrite Forall_forall in HF. destruct (HF p Hin) as (_ & Hk & _).
      change code with (KERNBASE + 0x7000). unfold in_page, KERNLINK, EXTMEM, KERNBASE in *. lia.
  - constructor; [rewrite M5, <- M1; done|rewrite M5, <- M1; intros Hm; apply (ab_ok _ _ A4), Hok, Hm| |].
    + by rewrite D5, (ab_dir _ _ A4), D3, D1.
    + by rewrite P5, (ab_lap _ _ A4), P3, P1.
  - by rewrite M5, K4, K3, U2, M1.
  - rewrite L5, L4, H3, L1, W4, R3, with_words_read by done. done.
Qed.

(** The processors to start, with the pages they get. *)
Definition given (cs : list nat) (stacks : list Z) : list (nat * Z * Z * Z) :=
  zip_with (fun i p => (i, p + KSTACKSIZE, mpenter, v2p entrypgdir_addr)) cs stacks.

Lemma startothers_loop fuel : forall cs s l,
  Forall (fun i => i < 256)%nat cs -> mlap s = apic ->
  alloc_inv kend (mpm s) l -> (delay <= fuel)%nat -> (length (filter (fun i => i <> me) cs) <= length l)%nat ->
  exists s' stacks l', for_all cs (one fuel) s = ([], Ret tt s') /\ l = stacks ++ l'
    /\ length stacks = length (filter (fun i => i <> me) cs)
    /\ alloc_inv kend (mpm s') l' /\ above s s' /\ use_lock (km (mpm s')) = use_lock (km (mpm s))
    /\ launched (mhw s') = launched (mhw s) ++ given (filter (fun i => i <> me) cs) stacks.
Proof.
  induction cs as [|i cs IH]; intros s l Hcs Ea Ha Hf Hl; cbn [for_all].
  { exists s, [], l. split_and!; try done. by rewrite app_nil_r. }
  apply Forall_cons in Hcs as [Hi2 Hcs]. rewrite filter_cons in Hl |- *. destruct (decide (i <> me)) as [Hi|Hi].
  - destruct l as [|p l]; [cbn in Hl; lia|]. destruct (startother_ok fuel i s p l Hi Hi2 Ea Ha Hf) as (s1 & E1 & Ha1 & A1 & U1 & L1).
    run_with E1. destruct (IH s1 l Hcs (eq_trans (ab_lap _ _ A1) Ea) Ha1 Hf ltac:(cbn in Hl; lia)) as (s2 & st & l' & E2 & -> & Hst & Ha2 & A2 & U2 & L2).
    exists s2, (p :: st), l'. split_and!; [done|done|cbn; lia|done|by eapply above_trans|congruence|].
    rewrite L2, L1, <- app_assoc. done.
  - assert (i = me) as -> by (destruct (decide (i = me)); tauto). destruct (startother_me fuel s Ea) as (s1 & E1 & M1 & D1 & P1 & L1). run_with E1.
    rewrite <- M1 in Ha. destruct (IH s1 l Hcs (eq_trans P1 Ea) Ha Hf Hl) as (s2 & st & l' & E2 & -> & Hst & Ha2 & A2 & U2 & L2).
    exists s2, st, l'. split_and!; [done|done|done|done| |by rewrite U2, M1|by rewrite L2, L1].
    eapply above_trans; [|exact A2]. constructor; by rewrite ?M1, ?D1, ?P1.
Qed.

(** The image of entryother.S, somewhere in the kernel. *)
Context (Hsize : 0 <= entryother_size <= 0x1000)
  (Himage : KERNLINK <= entryother_start /\ entryother_start + entryother_size <= kend < KERNBASE + PHYSTOP).

Lemma startothers_ok ncpu fuel s l :
  (ncpu <= 256)%nat -> mlap s = apic ->
  alloc_inv kend (mpm s) l -> (delay <= fuel)%nat -> (length (filter (fun i => i <> me) (seq 0 ncpu)) <= length l)%nat ->
  exists s' stacks l', startothers mpenter entrypgdir_addr entryother_start entryother_size ncpu started fuel s = ([], Ret tt s')
    /\ l = stacks ++ l' /\ length stacks = length (filter (fun i => i <> me) (seq 0 ncpu))
    /\ alloc_inv kend (mpm s') l' /\ use_lock (km (mpm s')) = use_lock (km (mpm s)) /\ kpgdir s' = kpgdir s
    /\ (forall x, KERNLINK <= x -> ram (mpm s') x = ram (mpm s) x)
    /\ (forall i, 0 <= i < entryother_size -> ram (mpm s') (code + i) = ram (mpm s') (entryother_start + i))
    /\ launched (mhw s') = launched (mhw s) ++ given (filter (fun i => i <> me) (seq 0 ncpu)) stacks.
Proof.
  intros Hnc Ea Ha Hf Hl. unfold startothers. erewrite bind_nil by reflexivity.
  match goal with |- context [for_all _ _ ?x] => set (s1 := x) end.
  assert (code = KERNBASE + 0x7000) as Hcode by reflexivity.
  assert (forall x, ram (mpm s1) x = filled (ram (mpm s)) code entryother_size (fun i => ram (mpm s) (entryother_start + i)) x) as Hm.
  { intros x. cbn. apply memmove_filled; unfold KERNLINK, EXTMEM, KERNBASE, PHYSTOP in *; lia. }
  assert (forall x, KERNLINK <= x -> ram (mpm s1) x = ram (mpm s) x) as Hhigh.
  { intros x Hx. rewrite Hm. apply filled_out. unfold KERNLINK, EXTMEM, KERNBASE in *. lia. }
  assert (alloc_inv kend (mpm s1) l) as Ha1.
  { apply (alloc_inv_frame kend (mpm s) l); [done| |].
    - intros x. change (0 <= ram (mpm s1) x < 256). rewrite Hm. unfold filled. destruct (_ && _); apply (ai_ram _ _ _ Ha).
    - intros p x Hin Hx. apply Hhigh. pose proof (ai_good _ _ _ Ha) as HF. rewrite Forall_forall in HF.
      destruct (HF p Hin) as (_ & Hk & _). unfold in_page in Hx. lia. }
  destruct (startothers_loop fuel (seq 0 ncpu) s1 l ltac:(apply Forall_seq; lia) Ea Ha1 Hf Hl) as (s2 & st & l' & E2 & El & Hst & Ha2 & A2 & U2 & L2).
  exists s2, st, l'. split_and!; [exact E2|done|done|done|exact U2|exact (ab_dir _ _ A2)| | |exact L2].
  - intros x Hx. rewrite (ab_mem _ _ A2); [by apply Hhigh|]. unfold KERNLINK, EXTMEM, KERNBASE in *. lia.
  - intros i Hi. rewrite !(ab_mem _ _ A2) by (unfold KERNLINK, EXTMEM, KERNBASE in *; lia).
    rewrite Hm, filled_in, Hhigh by lia. f_equal. lia.
Qed.

(** *** The memory of main *)

(** A page table is kept when its pages are. *)
Lemma vm_inv_move s l d T s' l' :
  vm_inv kend s l d T -> alloc_inv kend s' l' -> d ∉ l' -> (forall i t, T !! i = Some t -> t ∉ l') ->
  (forall q x, good_page kend q -> q = d \/ (exists i, T !! i = Some q) -> in_page q x -> ram s' x = ram s x) ->
  vm_inv kend s' l' d T /\ forall n, slot (ram s') T n = slot (ram s) T n.
Proof using Hend.
  intros [Ai Di Ui Ti Ji Pi] Ha Hd HT Hx. split.
  - constructor; auto.
    + intros i t Ht. destruct (Ti i t Ht) as (Hg & _ & Hne & Hr). split; [done|]. split; [by apply (HT i)|done].
    + intros i Hi. rewrite (load32_page (ram s) (ram s') d i Hi); [by apply Pi|]. intros x Hin. apply (Hx d); auto.
  - intros n. unfold slot. destruct (T !! dirx n) as [t|] eqn:Ht; [|done]. destruct (Ti _ t Ht) as (Hg & _).
    apply load32_page; [apply tabx_range|]. intros x Hin. apply (Hx t); eauto.
Qed.

Context (kdata : Z) (Hkd : kdata `mod` PGSIZE = 0 /\ KERNLINK < kdata < KERNBASE + PHYSTOP).

Definition FOURMB : Z := p2v (4 * 1024 * 1024).

(** The pages that [kinit1] and [kinit2] free. *)
Definition early : list Z := rev (pages (PGROUNDUP kend) (Z.to_nat ((FOURMB - PGROUNDUP kend) / PGSIZE))).
Definition late : list Z := rev (pages FOURMB (Z.to_nat ((KERNBASE + PHYSTOP - FOURMB) / PGSIZE))).

Context (Hroom : PGROUNDUP kend <= FOURMB).

Lemma kend_up : kend <= PGROUNDUP kend.
Proof using Hend Himage.
  destruct (PGROUNDUP_spec kend) as [_ Hr]; unfold KERNLINK, EXTMEM, KERNBASE, PHYSTOP, PGSIZE in *; lia.
Qed.

Lemma early_range p : p ∈ early -> kend <= p /\ p + PGSIZE <= FOURMB.
Proof using Hend Himage Hroom.
  unfold early. rewrite list_elem_of_In, <- in_rev, <- list_elem_of_In. intros (i & Hi & ->)%elem_of_pages. pose proof kend_up.
  pose proof (Z.div_mod (FOURMB - PGROUNDUP kend) PGSIZE ltac:(done)).
  pose proof (Z.mod_pos_bound (FOURMB - PGROUNDUP kend) PGSIZE ltac:(done)).
  rewrite Z2Nat.id in Hi by (apply Z.div_pos; [lia|done]). unfold PGSIZE in *. lia.
Qed.

Lemma late_range p : p ∈ late -> FOURMB <= p.
Proof using Type. unfold late. rewrite list_elem_of_In, <- in_rev, <- list_elem_of_In. intros (i & Hi & ->)%elem_of_pages. unfold PGSIZE. lia. Qed.

(** [kinit1] and [kvmalloc]. *)
Lemma tables_ok (s : machine H) spare :
  mem_ok (ram (mpm s)) -> freelist (km (mpm s)) = 0 -> (65 + spare <= length early)%nat ->
  exists s' l T, main_tables kend kdata s = ([], Ret tt s')
    /\ l `suffix_of` early /\ (spare <= length l)%nat /\ mhw s' = mhw s
    /\ vm_inv kend (mpm s') l (kpgdir s') T /\ kpgdir s' ∈ early /\ (forall i t, T !! i = Some t -> t ∈ early)
    /\ (forall n, 0 <= n < 2 ^ 20 -> slot (ram (mpm s')) T n = kernel_slot kdata n).
Proof using Hend Himage Hroom Hkd.
  intros Hm Hfl Hlen. pose proof kend_up as Hup. pose proof kend_base as Hb. unfold main_tables. fold FOURMB.
  destruct (kinit1_free_list kend kend FOURMB (mpm s)) as (p1 & E1 & Ha1 & _); try (done || lia).
  fold early in Ha1. assert (zoom MM (kinit1 kend kend FOURMB) s = ([], Ret tt (lset MM p1 s))) as E1'
    by (unfold zoom; cbn [MM lget]; by rewrite E1). run_with E1'. unfold kvmalloc.
  destruct (setupkvm_full kend Hb kdata (proj1 Hkd) (proj1 (proj2 Hkd)) (proj2 (proj2 Hkd)) p1 early Ha1)
    as (d & p2 & l & E2 & Hsuf & Hk & Hres & Hen). destruct (Hen spare Hlen) as [Hd Hl].
  assert (zoom MM (setupkvm kdata) (lset MM p1 s) = ([], Ret d (lset MM p2 s))) as E2'
    by (unfold zoom; cbn [MM lget lset mpm mlap mwarn kpgdir mcr3 mhw]; by rewrite E2). run_with E2'.
  destruct (Z.eqb_spec d 0) as [|_]; [done|]. destruct Hres as (Hin & T & Hi & HT & Hsl).
  eexists _, l, T. split; [reflexivity|]. cbn. split_and!; try done.
Qed.

(** [kinit2], with a page table that lives in the early pages. *)
Lemma rest_ok (s : machine H) l T :
  vm_inv kend (mpm s) l (kpgdir s) T -> kpgdir s ∈ early -> (forall i t, T !! i = Some t -> t ∈ early) ->
  (forall p, p ∈ l -> p ∈ early) ->
  exists s', zoom MM (kinit2 kend FOURMB (p2v PHYSTOP)) s = ([], Ret tt s')
    /\ vm_inv kend (mpm s') (late ++ l) (kpgdir s') T /\ kpgdir s' = kpgdir s /\ mhw s' = mhw s
    /\ (forall n, slot (ram (mpm s')) T n = slot (ram (mpm s)) T n)
    /\ use_lock (km (mpm s')) = true
    /\ (forall x, x < FOURMB -> ram (mpm s') x = ram (mpm s) x).
Proof using Hend Himage Hroom.
  intros Hi Hd HT Hl. pose proof kend_up as Hup. change (p2v PHYSTOP) with (KERNBASE + PHYSTOP).
  assert (FOURMB = 2151677952) as Hfm by reflexivity.
  destruct (freerange_spec kend kend_base FOURMB (KERNBASE + PHYSTOP) (mpm s) l) as (p1 & E & Ha & _ & Hx);
    [apply Hi|unfold KERNBASE, PHYSTOP; lia|done|done|intros q Hq; left; destruct (early_range q (Hl q Hq)); unfold PGSIZE in *; lia|].
  assert (PGROUNDUP FOURMB = FOURMB) as Eup by reflexivity. rewrite Eup in Ha, Hx. pose proof late_range as Hlate.
  unfold late in *. remember (rev (pages FOURMB _)) as lt eqn:Elt. clear Elt.
  assert (alloc_inv kend (set_use_lock true p1) (lt ++ l)) as Ha2 by (destruct Ha; by constructor).
  destruct (vm_inv_move (mpm s) l (kpgdir s) T (set_use_lock true p1) (lt ++ l) Hi Ha2) as [Hi2 Hsl].
  - intros [Hin%Hlate|Hin]%elem_of_app; [destruct (early_range _ Hd); unfold PGSIZE in *; lia|exact (vi_dir_used _ _ _ _ _ Hi Hin)].
  - intros i t Ht [Hin%Hlate|Hin]%elem_of_app.
    + destruct (early_range _ (HT i t Ht)). unfold PGSIZE in *. lia.
    + by destruct (vi_tab _ _ _ _ _ Hi i t Ht) as (_ & ? & _).
  - intros q x _ Hq Hin. apply Hx. assert (q ∈ early) as Hqe by (destruct Hq as [->|[i Ht]]; eauto).
    destruct (early_range q Hqe). unfold in_page in Hin. lia.
  - exists (lset MM (set_use_lock true p1) s). split; [|split; [exact Hi2|split; [done|split; [done|split; [exact Hsl|split; [done|]]]]]].
    + unfold zoom, kinit2. cbn [MM lget]. rewrite (bind_nil _ _ _ _ _ E). reflexivity.
    + intros x Hlow. apply Hx. by left.
Qed.

Lemma others_count ncpu : (me < ncpu)%nat -> length (filter (fun i => i <> me) (seq 0 ncpu)) = (ncpu - 1)%nat.
Proof using Type.
  clear. intros Hme. replace ncpu with (me + S (ncpu - S me))%nat at 1 by lia.
  rewrite seq_app, filter_app, length_app. cbn [seq Nat.add]. rewrite filter_cons_False by tauto.
  assert (forall l : list nat, me ∉ l -> filter (fun i => i <> me) l = l) as Hall.
  { induction l as [|x l IH]; [done|]. intros [Hx Hl]%not_elem_of_cons. rewrite filter_cons_True by congruence. by rewrite IH. }
  rewrite !Hall, !length_seq; [lia|..]; rewrite elem_of_seq; lia.
Qed.

(** What [main] relies on of the calls from [mpinit] to [timerinit]: they end, allocate
    nothing, write only to the kernel's own data and find the local APIC. *)
Definition quiet (devices : M (machine H) unit) : Prop := forall s, exists e s',
  devices s = (e, Ret tt s') /\ km (mpm s') = km (mpm s) /\ kpgdir s' = kpgdir s /\ mlap s' = apic
  /\ launched (mhw s') = launched (mhw s) /\ (mem_ok (ram (mpm s)) -> mem_ok (ram (mpm s')))
  /\ forall x, kend <= x -> ram (mpm s') x = ram (mpm s) x.

Lemma quiet_keeps devices s l T :
  quiet devices -> vm_inv kend (mpm s) l (kpgdir s) T ->
  exists e s', devices s = (e, Ret tt s') /\ vm_inv kend (mpm s') l (kpgdir s') T /\ kpgdir s' = kpgdir s /\ mlap s' = apic
    /\ launched (mhw s') = launched (mhw s) /\ forall n, slot (ram (mpm s')) T n = slot (ram (mpm s)) T n.
Proof using Hend.
  intros Hq Hi. destruct (Hq s) as (e & s' & E & K & D & P & L & Hok & Hx). exists e, s'. split; [done|].
  assert (forall q x, good_page kend q -> in_page q x -> ram (mpm s') x = ram (mpm s) x) as Hf.
  { intros q x (_ & Hg & _) Hin. apply Hx. unfold in_page in Hin. lia. }
  assert (alloc_inv kend (mpm s') l) as Ha.
  { destruct (mpm s') as [m k]. cbn in *. subst k. apply (alloc_inv_frame kend (mpm s)); [apply Hi|apply Hok, Hi|].
    intros p x Hp. pose proof (ai_good _ _ _ (vi_alloc _ _ _ _ _ Hi)) as HF. rewrite Forall_forall in HF. by apply Hf, HF. }
  destruct (vm_inv_move (mpm s) l (kpgdir s) T (mpm s') l Hi Ha) as [Hi' Hsl]; [exact (vi_dir_used _ _ _ _ _ Hi)| |eauto|].
  - intros i t Ht. by destruct (vi_tab _ _ _ _ _ Hi i t Ht) as (_ & ? & _).
  - rewrite D. done.
Qed.

End Spec.

(** Where the linker puts things. *)
Record boot_layout (kend kdata mpenter start size : Z) : Prop := mk_boot_layout {
  bl_end : KERNLINK <= kend;
  bl_room : PGROUNDUP kend <= FOURMB;
  bl_data : kdata `mod` PGSIZE = 0 /\ KERNLINK < kdata < KERNBASE + PHYSTOP;
  bl_entry : 0 <= mpenter < 2 ^ 32;
  bl_size : 0 <= size <= 0x1000;
  bl_image : KERNLINK <= start /\ start + size <= kend < KERNBASE + PHYSTOP
}.

(** Below and above [KERNBASE], 4 megabytes are mapped to the same memory. *)
Lemma entrypgdir_maps x :
  0 <= x < 2 ^ 22 -> big_page entrypgdir x = Some x /\ big_page entrypgdir (KERNBASE + x) = Some x.
Proof.
  intros Hx. unfold big_page.
  assert (PDX x = 0) as ->.
  { rewrite PDX_vpn by lia. unfold dirx, vpn, PGSIZE, NPTENTRIES. rewrite Z.div_div, Z.div_small by lia. done. }
  assert (PDX (KERNBASE + x) = 512) as ->.
  { rewrite PDX_vpn by (unfold KERNBASE; lia). unfold dirx, vpn, PGSIZE, NPTENTRIES. rewrite Z.div_div by lia.
    symmetry. apply (Z.div_unique_pos _ _ _ x); unfold KERNBASE; lia. }
  change (entrypgdir !! Z.to_nat 0) with (Some 0x83). change (entrypgdir !! Z.to_nat 512) with (Some 0x83).
  cbv iota. change (has 0x83 PTE_P && has 0x83 PTE_PS) with true. cbv iota.
  change (Z.shiftl (Z.shiftr 0x83 PDXSHIFT) PDXSHIFT) with 0. change (2 ^ PDXSHIFT) with (2 ^ 22).
  split; f_equal.
  - rewrite Z.mod_small by lia. lia.
  - replace (KERNBASE + x) with (x + 512 * 2 ^ 22) by (unfold KERNBASE; lia). rewrite Z.mod_add, Z.mod_small by lia. lia.
Qed.

Lemma early_mapped kend kdata mpenter start size p x :
  boot_layout kend kdata mpenter start size -> p ∈ early kend -> in_page p x ->
  big_page entrypgdir x = Some (x - KERNBASE).
Proof.
  intros [He Hr _ _ _ Hi] Hp Hx. destruct (early_range kend He start size Hi Hr p Hp) as [H1 H2].
  assert (FOURMB = KERNBASE + 2 ^ 22) as Hf by reflexivity. unfold in_page in Hx.
  destruct (entrypgdir_maps (x - KERNBASE)) as [_ E]; [unfold KERNLINK, EXTMEM in *; lia|].
  by replace (KERNBASE + (x - KERNBASE)) with x in E by lia.
Qed.

(** C35: the kernel comes up with its memory in order.  When there are 65 pages and
    one for every other processor between the end of the kernel and 4 megabytes, and at
    most the 256 processors that an APIC id can name, [main] reaches [kinit2] and
    returns from it: the kernel's page table maps exactly what [kmap] says; each other processor was started once, in order, and found below
    its code the top of a page of its own as its stack, [mpenter] and the physical
    address of [entrypgdir]; the code is the image of entryother.S; the stacks, the
    pages of the page table and the free pages are apart, and all pages above
    4 megabytes are free, with the allocator's lock in use.  All pages that were used
    before [kinit2] are mapped by [entrypgdir], which the processors still use then. *)
Theorem main_boots {H} `{Ports H} `{Mmio H} started me `{!OtherCpus H started me}
    kend kdata mpenter entry start size ncpu devices fuel (s : machine H) :
  boot_layout kend kdata mpenter start size -> quiet started me kend devices ->
  mem_ok (ram (mpm s)) -> freelist (km (mpm s)) = 0 ->
  (me < ncpu <= 256)%nat -> (65 + (ncpu - 1) <= length (early kend))%nat -> (delay <= fuel)%nat ->
  exists e s' stacks T l,
    main_memory kend kdata mpenter entry start size ncpu started devices fuel s = (e, Ret tt s')
    /\ launched (mhw s') = launched (mhw s) ++ given mpenter entry (filter (fun i => i <> me) (seq 0 ncpu)) stacks
    /\ length stacks = (ncpu - 1)%nat /\ NoDup (stacks ++ l)
    /\ (forall p, p ∈ stacks -> p ∈ early kend /\ p <> kpgdir s' /\ forall i, T !! i <> Some p)
    /\ vm_inv kend (mpm s') l (kpgdir s') T
    /\ (forall n, 0 <= n < 2 ^ 20 -> slot (ram (mpm s')) T n = kernel_slot kdata n)
    /\ (forall p, p ∈ late -> p ∈ l) /\ use_lock (km (mpm s')) = true
    /\ (forall i, 0 <= i < size -> ram (mpm s') (code + i) = ram (mpm s') (start + i))
    /\ (forall p x, p ∈ early kend -> in_page p x -> big_page entrypgdir x = Some (x - KERNBASE)).
Proof.
  intros BL Hq Hm Hfl [Hme Hnc] Hlen Hf. pose proof BL as [Be Br Bd Bn Bs Bi].
  destruct (tables_ok kend Be start size Bi kdata Bd Br s (ncpu - 1) Hm Hfl Hlen)
    as (s1 & l1 & T & E1 & Hsuf & Hl1 & W1 & I1 & D1 & HT & Hsl1).
  destruct (quiet_keeps started me kend Be devices s1 l1 T Hq I1) as (e & s2 & E2 & I2 & D2 & P2 & L2 & Hsl2).
  rewrite <- (others_count me ncpu Hme) in Hl1.
  destruct (startothers_ok started me kend Be mpenter entry start size Bn Bs Bi ncpu fuel s2 l1 Hnc P2 (vi_alloc _ _ _ _ _ I2) Hf Hl1)
    as (s3 & stacks & l3 & E3 & El & Hst & Ha3 & U3 & D3 & Hx3 & Him & L3).
  assert (forall p, p ∈ l1 -> p ∈ early kend) as Hin1 by (intros p; by apply suffix_elem).
  destruct (vm_inv_move kend Be (mpm s2) l1 (kpgdir s2) T (mpm s3) l3 I2 Ha3) as [I3 Hsl3].
  { intros Hin. apply (vi_dir_used _ _ _ _ _ I2). subst l1. apply elem_of_app. by right. }
  { intros i t Ht Hin. destruct (vi_tab _ _ _ _ _ I2 i t Ht) as (_ & Hno & _). apply Hno. subst l1. apply elem_of_app. by right. }
  { intros q x (_ & Hg & _) _ Hin. apply Hx3. unfold in_page in Hin. lia. }
  rewrite <- D3 in I3. destruct (rest_ok kend Be start size Bi Br s3 l3 T I3) as (s4 & E4 & I4 & D4 & W4 & Hsl4 & U4 & Hx4).
  { rewrite D3, D2. exact D1. } { exact HT. } { intros p Hp. apply Hin1. subst l1. apply elem_of_app. by right. }
  exists (e ++ []), s4, stacks, T, (late ++ l3). split; [|split; [|split; [|split; [|split; [|split; [|split; [|split; [|split; [|split]]]]]]]]].
  - unfold main_memory, main_start. rewrite (bind_nil _ _ _ _ _ E1).
    apply (bind_ret_eq _ _ _ _ _ _ _ _ E2). rewrite (bind_nil _ _ _ _ _ E3). exact E4.
  - rewrite W4, L3, L2, W1. reflexivity.
  - rewrite Hst. by apply others_count.
  - pose proof (ai_nodup _ _ _ (vi_alloc _ _ _ _ _ I2)) as N1. rewrite El in N1. apply NoDup_app in N1 as (N1 & N2 & _).
    apply NoDup_app. split; [exact N1|]. split; [|exact (ai_nodup _ _ _ (vi_alloc _ _ _ _ _ I4))].
    intros p Hp [Hl%late_range|Hl]%elem_of_app; [|by apply (N2 p)].
    destruct (early_range kend Be start size Bi Br p) as [_ Hr]; [apply Hin1; rewrite El; apply elem_of_app; by left|].
    unfold PGSIZE in Hr. lia.
  - intros p Hp. assert (p ∈ l1) as Hp1 by (rewrite El; apply elem_of_app; by left). split; [by apply Hin1|]. split.
    + intros ->. rewrite D4, D3 in Hp1. exact (vi_dir_used _ _ _ _ _ I2 Hp1).
    + intros i Ht. by destruct (vi_tab _ _ _ _ _ I2 i p Ht) as (_ & Hno & _).
  - exact I4.
  - intros n Hn. rewrite Hsl4, Hsl3, Hsl2. by apply Hsl1.
  - intros p Hp. apply elem_of_app. by left.
  - exact U4.
  - intros i Hi. assert (FOURMB = KERNBASE + 2 ^ 22) as Hfm by reflexivity. assert (code = KERNBASE + 0x7000) as Hc by reflexivity.
    pose proof (kend_up kend Be start size Bi). rewrite !Hx4 by lia. by apply Him.
  - intros p x. exact (early_mapped kend kdata mpenter start size p x BL).
Qed.

(** ** An instance: a processor that comes up at the second look *)
Module TwoCpus.
Record aps := mk_aps { waiting : bool; log : list (nat * Z * Z * Z); hi : Z; cmds : list (Z * Z) }.

Definition base : Z := 0xFEE00000.

#[local] Instance aps_ports : Ports aps := {|
  inb := fun _ => ret 0; outb := fun _ _ => ret tt; outw := fun _ _ => ret tt;
  insl := fun _ _ => ret []; outsl := fun _ _ => ret tt
|}.
#[local] Instance aps_mmio : Mmio aps := {|
  load_reg := fun _ => ret 0;
  store_reg := fun a v => modify (fun h => mk_aps (waiting h) (log h)
    (if a =? base + 4 * ICRHI then v else hi h) (if a =? base + 4 * ICRLO then cmds h ++ [(hi h, v)] else cmds h))
|}.

Definition set_aps (a : aps) (s : machine aps) : machine aps :=
  mk_machine (mpm s) (mlap s) (mwarn s) (kpgdir s) (mcr3 s) a.

Definition ap_started (i : nat) : M (machine aps) bool := fun s =>
  let h := mhw s in
  if decide (startup_ipis i (v2p code) `suffix_of` cmds h) then
    if waiting h then ([], Ret false (set_aps (mk_aps false (log h) (hi h) (cmds h)) s))
    else ([], Ret true (set_aps (mk_aps true (log h ++ [ap_words (ram (mpm s)) i]) (hi h) []) s))
  else ([], Ret false s).

#[local, program] Instance aps_cpus : OtherCpus aps ap_started 0 :=
  { apic := base; launched := log; icrhi := hi; ipis := cmds; delay := 2 }.
Next Obligation. intros p v h. by exists h. Qed.
Next Obligation. intros i h. by exists 0, h. Qed.
Next Obligation.
  intros i v h. eexists. split; [reflexivity|]. cbn. split; [done|].
  assert (forall r, (base + 4 * i =? base + 4 * r) = (i =? r)) as E
    by (intros r; destruct (Z.eqb_spec i r), (Z.eqb_spec (base + 4 * i) (base + 4 * r)); (done || lia)).
  by rewrite !E.
Qed.
Next Obligation. done. Qed.
Next Obligation.
  intros i s _ Hs.
  destruct (waiting (mhw s)) eqn:Ew.
  - exists 1%nat. eexists. split; [lia|]. split.
    + exists (set_aps (mk_aps false (log (mhw s)) (hi (mhw s)) (cmds (mhw s))) s). unfold ap_started at 1.
      rewrite decide_True, Ew by exact Hs. split; [reflexivity|]. cbn [polls]. unfold ap_started.
      rewrite decide_True by exact Hs. reflexivity.
    + done.
  - exists 0%nat. eexists. split; [lia|]. split.
    + cbn [polls]. unfold ap_started. rewrite decide_True, Ew by exact Hs. reflexivity.
    + done.
Qed.

Definition power_on : machine aps :=
  mk_machine (mk_pmem (fun _ => 0) (mk_kmem false true 0)) 0 0 0 0 (mk_aps true [] 0 []).

(** [mpinit] finds the local APIC. *)
Definition find_apic : M (machine aps) unit :=
  modify (fun s => mk_machine (mpm s) base (mwarn s) (kpgdir s) (mcr3 s) (mhw s)).

Lemma main_boots_witness :
  exists e s' stacks (l : list Z),
    main_memory 0x80120000 0x80108000 0x80103000 0x80109000 0x8010a000 0x80 2 ap_started find_apic 5 power_on = (e, Ret tt s')
    /\ length stacks = 1%nat
    /\ log (mhw s') = given 0x80103000 0x80109000 [1%nat] stacks.
Proof.
  destruct (main_boots ap_started 0 0x80120000 0x80108000 0x80103000 0x80109000 0x8010a000 0x80 2 find_apic 5 power_on)
    as (e & s' & stacks & T & l & E & L & Hs & _).
  - constructor; vm_compute; repeat split; discriminate.
  - intros s. exists [], (mk_machine (mpm s) base (mwarn s) (kpgdir s) (mcr3 s) (mhw s)). split_and!; auto.
  - intros x. cbn. lia.
  - reflexivity.
  - lia.
  - apply Nat.leb_le. vm_compute. reflexivity.
  - cbn. lia.
  - exists e, s', stacks, l. split; [exact E|]. split; [exact Hs|exact L].
Defined.
End TwoCpus.
