(* ===== verification/Mp.v ===== *)
(** * Finding the processors: mp.c

    The MP tables of the BIOS are read from memory; [mp] and [mpconf] are addresses. *)

From stdpp Require Import base numbers list strings.
From S2P Require Import Prelude Bytes Mem Str User Kalloc Format Ports.

Open Scope Z_scope.

Definition NCPU : nat := 8.

(** mp.h: sizes of the structures, offsets of the fields used, types of entries. *)
Definition MP_SIZE : Z := 16.
Definition MP_PHYSADDR : Z := 4.
Definition MP_IMCRP : Z := 12.
Definition MPCONF_SIZE : Z := 44.
Definition MPCONF_LENGTH : Z := 4.
Definition MPCONF_VERSION : Z := 6.
Definition MPCONF_LAPICADDR : Z := 36.
Definition MPPROC_SIZE : Z := 20.
Definition MPPROC_APICID : Z := 1.
Definition MPPROC_FLAGS : Z := 3.
Definition MPBOOT : Z := 0x02.
Definition MPIOAPIC_SIZE : Z := 8.
Definition MPIOAPIC_APICNO : Z := 1.
Definition MPPROC : Z := 0x00.
Definition MPBUS : Z := 0x01.
Definition MPIOAPIC : Z := 0x02.
Definition MPIOINTR : Z := 0x03.
Definition MPLINTR : Z := 0x04.

(** ** Searching *)

Definition load16 (m : mem) (a : Z) : Z := m (u32 a) + 256 * m (u32 (a + 1)).

Fixpoint sum_loop (n : nat) (m : mem) (addr acc : Z) : Z :=
  match n with
  | O => acc
  | S k => sum_loop k m (addr + 1) (acc + m (u32 addr))
  end.

Definition sum (m : mem) (addr len : Z) : Z := u8 (sum_loop (Z.to_nat len) m addr 0).

(** The loop of [mpsearch1] from [p] to [e]; [fuel] is the number of places to look at. *)
Fixpoint mpsearch1_loop (fuel : nat) (m : mem) (p e : Z) : Z :=
  match fuel with
  | O => 0
  | S k =>
      if p <? e then
        if (memcmp 4 (at_ m p) (bytes (codes "_MP_")) =? 0) && (sum m p MP_SIZE =? 0) then p
        else mpsearch1_loop k m (p + MP_SIZE) e
      else 0
  end.

Definition mpsearch1 (m : mem) (a len : Z) : Z :=
  let addr := p2v a in
  mpsearch1_loop (Z.to_nat len) m addr (addr + len).

Definition mpsearch (m : mem) : Z :=
  let bda := p2v 0x400 in
  let p := Z.shiftl (Z.lor (Z.shiftl (m (bda + 0x0F)) 8) (m (bda + 0x0E))) 4 in
  let mp :=
    if negb (p =? 0) then mpsearch1 m p 1024
    else
      let p := Z.lor (Z.shiftl (m (bda + 0x14)) 8) (m (bda + 0x13)) * 1024 in
      mpsearch1 m (u32 (p - 1024)) 1024 in
  if negb (mp =? 0) then mp else mpsearch1 m 0xF0000 0x10000.

(** [mpconfig]: the floating pointer structure and the table. *)
Definition mpconfig (m : mem) : option (Z * Z) :=
  let mp := mpsearch m in
  if (mp =? 0) || (load32 m (mp + MP_PHYSADDR) =? 0) then None
  else
    let conf := p2v (load32 m (mp + MP_PHYSADDR)) in
    let version := m (u32 (conf + MPCONF_VERSION)) in
    if negb (memcmp 4 (at_ m conf) (bytes (codes "PCMP")) =? 0) then None
    else if negb (version =? 1) && negb (version =? 4) then None
    else if negb (sum m conf (load16 m (conf + MPCONF_LENGTH)) =? 0) then None
    else Some (mp, conf).

(** ** The table *)

Section Mp.
Context {H : Type} `{Ports H}.

(** [cpus[i].id], [bcpu - cpus], [ismp], [ncpu], [ioapicid], [lapic]. *)
Record mpst := mk_mpst {
  cpu_ids : list Z;
  bcpu : nat;
  ismp : bool;
  ncpu : nat;
  ioapicid : Z;
  lapic : Z;
  mhw : H
}.

Definition mpbcpu (s : mpst) : nat := bcpu s.

Definition set_bcpu (b : nat) (s : mpst) : mpst := mk_mpst (cpu_ids s) b (ismp s) (ncpu s) (ioapicid s) (lapic s) (mhw s).
Definition set_ismp (b : bool) (s : mpst) : mpst := mk_mpst (cpu_ids s) (bcpu s) b (ncpu s) (ioapicid s) (lapic s) (mhw s).
Definition set_ioapicid (x : Z) (s : mpst) : mpst := mk_mpst (cpu_ids s) (bcpu s) (ismp s) (ncpu s) x (lapic s) (mhw s).
Definition set_lapic (x : Z) (s : mpst) : mpst := mk_mpst (cpu_ids s) (bcpu s) (ismp s) (ncpu s) (ioapicid s) x (mhw s).
Definition set_ncpu (n : nat) (s : mpst) : mpst := mk_mpst (cpu_ids s) (bcpu s) (ismp s) n (ioapicid s) (lapic s) (mhw s).
Definition set_cpu (i : nat) (id : Z) (s : mpst) : mpst :=
  mk_mpst (<[i := id]> (cpu_ids s)) (bcpu s) (ismp s) (ncpu s) (ioapicid s) (lapic s) (mhw s).
Definition mhw_l : lens mpst H :=
  Lens mhw (fun h s => mk_mpst (cpu_ids s) (bcpu s) (ismp s) (ncpu s) (ioapicid s) (lapic s) h).

Definition mp_cprintf (fmt : string) (args : list Z) : M mpst unit :=
  cprintf_loop (fun _ => []) emit_byte (codes fmt ++ [10]) args.

(** The case [MPPROC]; [cpus[ncpu].id = ncpu] is a fault outside the array. *)
Definition add_cpu (apicid flags : Z) : M mpst unit :=
  let* s := get in
  when (negb (Z.of_nat (ncpu s) =? apicid))
    (mp_cprintf "mpinit: ncpu=%d apicid=%d" [Z.of_nat (ncpu s); apicid] ;; modify (set_ismp false)) ;;
  when (has flags MPBOOT) (modify (set_bcpu (ncpu s))) ;;
  (if (ncpu s <? length (cpu_ids s))%nat then modify (set_cpu (ncpu s) (u8 (Z.of_nat (ncpu s)))) else fault) ;;
  modify (set_ncpu (ncpu s + 1)).

(** The loop over the entries from [p] to [e]. *)
Fixpoint mpinit_loop (fuel : nat) (m : mem) (p e : Z) : M mpst unit :=
  match fuel with
  | O => nofuel
  | S k =>
      if p <? e then
        let t := m (u32 p) in
        if t =? MPPROC then
          add_cpu (m (u32 (p + MPPROC_APICID))) (m (u32 (p + MPPROC_FLAGS))) ;;
          mpinit_loop k m (p + MPPROC_SIZE) e
        else if t =? MPIOAPIC then
          modify (set_ioapicid (m (u32 (p + MPIOAPIC_APICNO)))) ;;
          mpinit_loop k m (p + MPIOAPIC_SIZE) e
        else if (t =? MPBUS) || (t =? MPIOINTR) || (t =? MPLINTR) then
          mpinit_loop k m (p + 8) e
        else
          mp_cprintf "mpinit: unknown config type %x" [t] ;;
          modify (set_ismp false) ;;
          mpinit_loop k m p e
      else ret tt
  end.

Definition mpinit (fuel : nat) (m : mem) : M mpst unit :=
  modify (set_bcpu 0) ;;
  match mpconfig m with
  | None => ret tt
  | Some (mp, conf) =>
      modify (set_ismp true) ;;
      modify (set_lapic (load32 m (conf + MPCONF_LAPICADDR))) ;;
      mpinit_loop fuel m (conf + MPCONF_SIZE) (conf + load16 m (conf + MPCONF_LENGTH)) ;;
      let* s := get in
      if negb (ismp s) then
        modify (set_ncpu 1) ;; modify (set_lapic 0) ;; modify (set_ioapicid 0)
      else
        when (negb (m (u32 (mp + MP_IMCRP)) =? 0))
          (zoom mhw_l (outb 0x22 0x70 ;; let* x := inb 0x23 in outb 0x23 (Z.lor x 1)))
  end.

End Mp.
Arguments mpst H : clear implicits.

(** ** What the table says *)

Inductive mpentry := EProc (apicid flags : Z) | EIoapic (apicno : Z) | EOther (t : Z).

(** [es] are the entries in memory from [p] to [e]. *)
Fixpoint entries_at (m : mem) (p e : Z) (es : list mpentry) : Prop :=
  match es with
  | [] => p = e
  | EProc id fl :: es' =>
      m (u32 p) = MPPROC /\ m (u32 (p + 1)) = id /\ m (u32 (p + 3)) = fl /\ entries_at m (p + 20) e es'
  | EIoapic a :: es' => m (u32 p) = MPIOAPIC /\ m (u32 (p + 1)) = a /\ entries_at m (p + 8) e es'
  | EOther t :: es' => m (u32 p) = t /\ (t = MPBUS \/ t = MPIOINTR \/ t = MPLINTR) /\ entries_at m (p + 8) e es'
  end.

Definition procs (es : list mpentry) : list (Z * Z) :=
  omap (fun x => match x with EProc id fl => Some (id, fl) | _ => None end) es.
Definition ioapics (es : list mpentry) : list Z :=
  omap (fun x => match x with EIoapic a => Some a | _ => None end) es.

(** The processors are numbered from [n] on. *)
Definition numbered (n : nat) (ps : list (Z * Z)) : bool :=
  bool_decide (ps.*1 = zrange (Z.of_nat n) (length ps)).

(** The last processor marked as the one that booted, counted from [n]. *)
Fixpoint boot_cpu (n : nat) (ps : list (Z * Z)) (b : nat) : nat :=
  match ps with
  | [] => b
  | (_, fl) :: ps' => boot_cpu (S n) ps' (if has fl MPBOOT then n else b)
  end.

Section Spec.
Context {H : Type} `{Ports H}.

(** The state after the entries [es]. *)
Record scanned (es : list mpentry) (s s' : mpst H) : Prop := mk_scanned {
  sc_ncpu : ncpu s' = (ncpu s + length (procs es))%nat;
  sc_ismp : ismp s' = ismp s && numbered (ncpu s) (procs es);
  sc_boot : bcpu s' = boot_cpu (ncpu s) (procs es) (bcpu s);
  sc_ids : length (cpu_ids s') = length (cpu_ids s) /\
    forall i, cpu_ids s' !! i =
      if decide (ncpu s <= i < ncpu s + length (procs es))%nat then Some (Z.of_nat i) else cpu_ids s !! i;
  sc_ioapic : ioapicid s' = default (ioapicid s) (last (ioapics es));
  sc_lapic : lapic s' = lapic s;
  sc_hw : mhw s' = mhw s
}.

Lemma zrange_cons a n : zrange a (S n) = a :: zrange (a + 1) n.
Proof.
  unfold zrange. cbn [seq fmap list_fmap]. rewrite Z.add_0_r. f_equal. rewrite <- fmap_S_seq, <- list_fmap_compose.
  apply list_fmap_ext. intros i x _. cbn. lia.
Qed.

Lemma numbered_cons n id fl ps : numbered n ((id, fl) :: ps) = (Z.of_nat n =? id) && numbered (S n) ps.
Proof.
  unfold numbered. cbn [length fmap list_fmap fst]. rewrite zrange_cons.
  replace (Z.of_nat (S n)) with (Z.of_nat n + 1) by lia.
  destruct (Z.eqb_spec (Z.of_nat n) id) as [<-|Hne].
  - apply bool_decide_ext. split; [by intros [= ?]|]. by intros ->.
  - apply bool_decide_eq_false. intros [= ?]. lia.
Qed.

Lemma cprintf_runs fmt args (s : mpst H) :
  (exists t, render (fun _ => []) lower false (codes fmt ++ [10]) args = Some t) ->
  exists ev, mp_cprintf fmt args s = (ev, Ret tt s).
Proof. intros [t E]. eexists. apply (cprintf_emits (fun _ => [])); [constructor|exact E]. Qed.

Lemma add_cpu_run id fl (s : mpst H) :
  (ncpu s < length (cpu_ids s))%nat -> (ncpu s < 256)%nat ->
  exists ev s', add_cpu id fl s = (ev, Ret tt s') /\ scanned [EProc id fl] s s'.
Proof.
  intros Hn H256. unfold add_cpu. rewrite (bind_nil get _ s s s) by done.
  set (s1 := if Z.of_nat (ncpu s) =? id then s else set_ismp false s).
  assert (exists ev, when (negb (Z.of_nat (ncpu s) =? id))
      (mp_cprintf "mpinit: ncpu=%d apicid=%d" [Z.of_nat (ncpu s); id] ;; modify (set_ismp false)) s = (ev, Ret tt s1)) as [ev E1].
  { unfold s1. destruct (Z.of_nat (ncpu s) =? id); [by eexists|]. cbn [negb when].
    destruct (cprintf_runs "mpinit: ncpu=%d apicid=%d" [Z.of_nat (ncpu s); id] s) as [ev E]; [eexists; reflexivity|].
    eexists. unfold bind. rewrite E. reflexivity. }
  set (s2 := if has fl MPBOOT then set_bcpu (ncpu s) s1 else s1).
  assert (when (has fl MPBOOT) (modify (set_bcpu (ncpu s))) s1 = ([], Ret tt s2)) as E2.
  { unfold s2. by destruct (has fl MPBOOT). }
  destruct (Nat.ltb_spec (ncpu s) (length (cpu_ids s))); [|lia].
  exists ev, (set_ncpu (ncpu s + 1) (set_cpu (ncpu s) (u8 (Z.of_nat (ncpu s))) s2)). split.
  - unfold bind at 1. rewrite E1. rewrite (bind_nil _ _ _ _ _ E2). cbn. by rewrite app_nil_r.
  - split; cbn [procs ioapics omap list_omap length set_ncpu set_cpu ncpu ismp bcpu cpu_ids ioapicid lapic mhw boot_cpu last default].
    + done.
    + rewrite numbered_cons. unfold numbered. cbn [length fmap list_fmap]. rewrite bool_decide_true, andb_true_r by done.
      unfold s2, s1. destruct (has fl MPBOOT), (Z.of_nat (ncpu s) =? id); cbn; by rewrite ?andb_true_r, ?andb_false_r.
    + unfold s2, s1. by destruct (has fl MPBOOT), (Z.of_nat (ncpu s) =? id).
    + assert (cpu_ids s2 = cpu_ids s) as -> by (unfold s2, s1; by destruct (has fl MPBOOT), (Z.of_nat (ncpu s) =? id)).
      split; [by rewrite length_insert|]. intros i. unfold u8. rewrite Z.mod_small by lia.
      destruct (decide (ncpu s <= i < ncpu s + 1)%nat) as [Hi|Hi].
      * assert (i = ncpu s) as -> by lia. by rewrite list_lookup_insert_eq.
      * rewrite list_lookup_insert_ne by lia. done.
    + unfold s2, s1. by destruct (has fl MPBOOT), (Z.of_nat (ncpu s) =? id).
    + unfold s2, s1. by destruct (has fl MPBOOT), (Z.of_nat (ncpu s) =? id).
    + unfold s2, s1. by destruct (has fl MPBOOT), (Z.of_nat (ncpu s) =? id).
Qed.

Lemma numbered_app n ps1 ps2 : numbered n (ps1 ++ ps2) = numbered n ps1 && numbered (n + length ps1) ps2.
Proof.
  revert n. induction ps1 as [|[id fl] ps1 IH]; intros n; cbn [app length].
  - by rewrite Nat.add_0_r.
  - rewrite !numbered_cons, IH, andb_assoc. by replace (S n + length ps1)%nat with (n + S (length ps1))%nat by lia.
Qed.

Lemma boot_cpu_app n ps1 ps2 b : boot_cpu n (ps1 ++ ps2) b = boot_cpu (n + length ps1) ps2 (boot_cpu n ps1 b).
Proof.
  revert n b. induction ps1 as [|[id fl] ps1 IH]; intros n b; cbn [app length boot_cpu]; [by rewrite Nat.add_0_r|].
  rewrite IH. by replace (S n + length ps1)%nat with (n + S (length ps1))%nat by lia.
Qed.

Lemma scanned_app es1 es2 s s1 s2 : scanned es1 s s1 -> scanned es2 s1 s2 -> scanned (es1 ++ es2) s s2.
Proof.
  intros [A1 A2 A3 [A4 A4'] A5 A6 A7] [B1 B2 B3 [B4 B4'] B5 B6 B7].
  assert (procs (es1 ++ es2) = procs es1 ++ procs es2) as Ep by apply omap_app.
  assert (ioapics (es1 ++ es2) = ioapics es1 ++ ioapics es2) as Ei by apply omap_app.
  split; rewrite ?Ep, ?Ei, ?length_app.
  - lia.
  - by rewrite B2, A2, numbered_app, andb_assoc, A1.
  - by rewrite B3, A3, boot_cpu_app, A1.
  - split; [congruence|]. intros i. rewrite B4', A4', A1.
    repeat case_decide; (done || lia).
  - rewrite B5, A5, last_app. by destruct (last (ioapics es2)).
  - congruence.
  - congruence.
Qed.

Lemma scanned_nil s : scanned [] s s.
Proof.
  split; [by rewrite Nat.add_0_r| |done| |done..].
  - unfold numbered. cbn [procs omap list_omap length fmap list_fmap]. by rewrite bool_decide_true, andb_true_r.
  - split; [done|]. intros i. case_decide as Hi; [cbn in Hi; lia|done].
Qed.

Definition entry_size (x : mpentry) : Z := match x with EProc _ _ => MPPROC_SIZE | _ => 8 end.

Lemma entries_tail m p e x es : entries_at m p e (x :: es) -> entries_at m (p + entry_size x) e es.
Proof. destruct x; cbn; tauto. Qed.

Lemma entries_le m p e es : entries_at m p e es -> p <= e.
Proof.
  revert p. induction es as [|x es IH]; intros p Hes; [cbn in Hes; lia|]. apply entries_tail, IH in Hes.
  destruct x; cbn [entry_size] in Hes; unfold MPPROC_SIZE in *; lia.
Qed.

(** One turn of the loop. *)
Lemma mpinit_turn x m p q e es fuel (s : mpst H) :
  entries_at m p q (x :: es) -> q <= e -> (ncpu s + length (procs [x]) <= length (cpu_ids s))%nat -> (length (cpu_ids s) <= 256)%nat ->
  exists ev s1, scanned [x] s s1 /\
    mpinit_loop (S fuel) m p e s = (let '(ev', r) := mpinit_loop fuel m (p + entry_size x) e s1 in (ev ++ ev', r)).
Proof.
  intros He Hqe Hn Hl. pose proof (entries_le _ _ _ _ (entries_tail _ _ _ _ _ He)) as Hle. cbn [mpinit_loop].
  destruct (Z.ltb_spec p e); [|destruct x; cbn [entry_size] in Hle; unfold MPPROC_SIZE in *; lia].
  destruct x as [id fl|a|t]; cbn [entries_at] in He.
  - destruct He as (E0 & E1 & E2 & _). cbn [procs omap list_omap length] in Hn.
    destruct (add_cpu_run id fl s) as (ev & s1 & E & Hs); [lia|lia|]. exists ev, s1. split; [done|].
    unfold MPPROC_APICID, MPPROC_FLAGS. rewrite E0, E1, E2. cbn [Z.eqb MPPROC]. unfold bind. by rewrite E.
  - destruct He as (E0 & E1 & _). exists [], (set_ioapicid a s). split.
    + destruct (scanned_nil s) as [A1 A2 A3 A4 A5 A6 A7]. by split.
    + unfold MPIOAPIC_APICNO. rewrite E0, E1. cbn [Z.eqb MPIOAPIC MPPROC Pos.eqb].
      rewrite (bind_nil (modify _) _ s tt _ eq_refl). cbn [entry_size]. unfold MPIOAPIC_SIZE. by destruct (mpinit_loop _ _ _ _ _).
  - destruct He as (E0 & Ht & _). exists [], s. split; [destruct (scanned_nil s) as [A1 A2 A3 A4 A5 A6 A7]; by split|].
    rewrite E0. destruct Ht as [-> | [-> | ->]]; cbn [Z.eqb Pos.eqb MPPROC MPIOAPIC MPBUS MPIOINTR MPLINTR orb entry_size];
      by destruct (mpinit_loop _ _ _ _ _).
Qed.

(** The loop reads every entry. *)
Lemma mpinit_loop_run es fuel m p e (s : mpst H) :
  entries_at m p e es -> (length es < fuel)%nat ->
  (ncpu s + length (procs es) <= length (cpu_ids s))%nat -> (length (cpu_ids s) <= 256)%nat ->
  exists ev s', mpinit_loop fuel m p e s = (ev, Ret tt s') /\ scanned es s s'.
Proof.
  revert fuel p s. induction es as [|x es IH]; intros fuel p s He Hf Hn Hl;
    (destruct fuel as [|fuel]; [cbn in Hf; lia|]).
  { cbn in He. cbn [mpinit_loop]. destruct (Z.ltb_spec p e); [lia|]. exists [], s. split; [done|apply scanned_nil]. }
  assert (procs (x :: es) = procs [x] ++ procs es) as Ep by (apply (omap_app _ [x] es)).
  rewrite Ep, length_app in Hn.
  destruct (mpinit_turn x m p e e es fuel s He ltac:(lia) ltac:(lia) Hl) as (ev & s1 & Hs1 & E).
  destruct (IH fuel (p + entry_size x) s1) as (ev2 & s2 & E2 & Hs2).
  - by apply entries_tail.
  - cbn in Hf. lia.
  - rewrite (sc_ncpu _ _ _ Hs1), (proj1 (sc_ids _ _ _ Hs1)). lia.
  - by rewrite (proj1 (sc_ids _ _ _ Hs1)).
  - exists (ev ++ ev2), s2. rewrite E, E2. split; [done|]. by apply (scanned_app [x] es s s1 s2).
Qed.

(** At an entry of another type the loop stays where it is. *)
Lemma mpinit_loop_stuck fuel m p e (s : mpst H) :
  p < e -> ~ (0 <= m (u32 p) <= 4) -> (mpinit_loop fuel m p e s).2 = NoFuel.
Proof.
  intros Hp Ht. revert s. induction fuel as [|fuel IH]; intros s; [done|]. cbn [mpinit_loop].
  destruct (Z.ltb_spec p e); [|lia]. unfold MPPROC, MPIOAPIC, MPBUS, MPIOINTR, MPLINTR. zcase. cbn [orb].
  destruct (cprintf_runs "mpinit: unknown config type %x" [m (u32 p)] s) as [ev E]; [eexists; reflexivity|].
  unfold bind at 1. rewrite E. rewrite (bind_nil (modify _) _ s tt _ eq_refl).
  specialize (IH (set_ismp false s)). by destruct (mpinit_loop fuel m p e (set_ismp false s)) as [ev' r].
Qed.

Lemma mpinit_loop_unknown es fuel m p q e (s : mpst H) :
  entries_at m p q es -> q < e -> ~ (0 <= m (u32 q) <= 4) ->
  (ncpu s + length (procs es) <= length (cpu_ids s))%nat -> (length (cpu_ids s) <= 256)%nat ->
  (mpinit_loop fuel m p e s).2 = NoFuel.
Proof.
  revert fuel p s. induction es as [|x es IH]; intros fuel p s He Hq Ht Hn Hl.
  { cbn in He. subst p. by apply mpinit_loop_stuck. }
  destruct fuel as [|fuel]; [done|].
  assert (procs (x :: es) = procs [x] ++ procs es) as Ep by (apply (omap_app _ [x] es)).
  rewrite Ep, length_app in Hn.
  destruct (mpinit_turn x m p q e es fuel s He ltac:(lia) ltac:(lia) Hl) as (ev & s1 & Hs1 & E).
  specialize (IH fuel (p + entry_size x) s1). rewrite E.
  destruct (mpinit_loop fuel m (p + entry_size x) e s1) as [ev' r]. apply IH; [by apply entries_tail in He|done|done|..].
  - rewrite (sc_ncpu _ _ _ Hs1), (proj1 (sc_ids _ _ _ Hs1)). lia.
  - by rewrite (proj1 (sc_ids _ _ _ Hs1)).
Qed.

(** Every access to a port is answered. *)
Definition responsive : Prop :=
  (forall p v (h : H), exists h', outb p v h = ([], Ret tt h')) /\
  (forall p (h : H), exists v h', inb p h = ([], Ret v h')).

(** The state at the start of [main]. *)
Definition unset (s : mpst H) : Prop :=
  length (cpu_ids s) = NCPU /\ ncpu s = 0%nat /\ ismp s = false /\ ioapicid s = 0 /\ lapic s = 0.
End Spec.

(** C36: [mpinit] finds the processors of the machine.  Given a table of entries it
    knows, with at most [NCPU] processors, it reads all of them and ends: if the
    processors are numbered 0, 1, 2, .. it sets [ncpu] to their number, [cpus[i].id]
    to [i], [bcpu] to the one marked as the boot processor, and the addresses of the
    interrupt controllers; if they are not, it falls back to one processor. *)
Theorem mpinit_spec {H} `{Ports H} (m : mem) (mp conf : Z) (es : list mpentry) (fuel : nat) (s : mpst H) :
  responsive (H := H) -> unset s -> mpconfig m = Some (mp, conf) ->
  entries_at m (conf + MPCONF_SIZE) (conf + load16 m (conf + MPCONF_LENGTH)) es ->
  (length (procs es) <= NCPU)%nat -> (length es < fuel)%nat ->
  exists ev s', mpinit fuel m s = (ev, Ret tt s') /\
    bcpu s' = boot_cpu 0 (procs es) 0 /\
    (forall i, (i < length (procs es))%nat -> cpu_ids s' !! i = Some (Z.of_nat i)) /\
    if numbered 0 (procs es) then
      ismp s' = true /\ ncpu s' = length (procs es) /\ lapic s' = load32 m (conf + MPCONF_LAPICADDR) /\
      ioapicid s' = default 0 (last (ioapics es))
    else ismp s' = false /\ ncpu s' = 1%nat /\ lapic s' = 0 /\ ioapicid s' = 0.
Proof.
  intros [Ho Hi] (U1 & U2 & U3 & U4 & U5) Hc He Hn Hf. unfold mpinit.
  rewrite (bind_nil (modify _) _ s tt _ eq_refl), Hc.
  rewrite (bind_nil (modify _) _ _ tt _ eq_refl), (bind_nil (modify _) _ _ tt _ eq_refl).
  match goal with |- context [bind (mpinit_loop _ _ _ _) _ ?t] => set (s1 := t) end.
  destruct (mpinit_loop_run es fuel m (conf + MPCONF_SIZE) (conf + load16 m (conf + MPCONF_LENGTH)) s1 He Hf)
    as (ev & s2 & E & [A1 A2 A3 [A4 A4'] A5 A6 A7]).
  { cbn. rewrite U1, U2. done. }
  { cbn. rewrite U1. unfold NCPU. lia. }
  cbn [s1 set_lapic set_ismp set_bcpu ncpu ismp bcpu cpu_ids ioapicid lapic mhw] in *.
  rewrite ?U2, ?U4 in *. cbn [andb] in A2.
  unfold bind at 1. rewrite E. rewrite (bind_nil get _ s2 s2 s2) by done. rewrite A2.
  assert (forall i, (i < length (procs es))%nat -> cpu_ids s2 !! i = Some (Z.of_nat i)) as Hids.
  { intros i Hlt. rewrite A4'. rewrite decide_True by lia. done. }
  destruct (numbered 0 (procs es)) eqn:Enum; cbn [negb].
  - destruct (m (u32 (mp + MP_IMCRP)) =? 0); cbn [negb when].
    + eexists _, s2. split; [reflexivity|]. by rewrite A1, A3, A5, A6.
    + destruct (Ho 0x22 0x70 (mhw s2)) as (h1 & E1). destruct (Hi 0x23 h1) as (v & h2 & E2).
      destruct (Ho 0x23 (Z.lor v 1) h2) as (h3 & E3).
      eexists _, (lset mhw_l h3 s2). split; [|cbn [lset mhw_l bcpu cpu_ids ismp ncpu lapic ioapicid]; by rewrite A1, A3, A5, A6].
      unfold zoom. change (lget mhw_l s2) with (mhw s2). rewrite (bind_nil _ _ _ _ _ E1), (bind_nil _ _ _ _ _ E2), E3. reflexivity.
  - eexists _, _. split; [reflexivity|]. done.
Qed.

(** A machine with two processors, the first one the boot processor, and an I/O APIC. *)
Definition mp_pointer : list Z := codes "_MP_" ++ [0; 1; 15; 0; 1; 4; 144; 0; 0; 0; 0; 0].
Definition mp_entries : list Z :=
  [0; 0; 17; 3] ++ repeat 0 16 ++ [0; 1; 17; 1] ++ repeat 0 16 ++ [2; 2; 17; 1; 0; 0; 192; 254].
Definition mp_table : list Z :=
  codes "PCMP" ++ [92; 0; 4; 151] ++ repeat 0 28 ++ [0; 0; 224; 254] ++ repeat 0 4 ++ mp_entries.
Definition bios : mem := fun a =>
  if (0x800F0000 <=? a) && (a <? 0x800F0010) then byte_at mp_pointer (Z.to_nat (a - 0x800F0000))
  else if (0x800F0100 <=? a) && (a <? 0x800F0200) then byte_at mp_table (Z.to_nat (a - 0x800F0100))
  else 0.

#[local] Instance unit_ports : Ports unit := {|
  inb := fun _ => ret 0; outb := fun _ _ => ret tt; outw := fun _ _ => ret tt;
  insl := fun _ _ => ret []; outsl := fun _ _ => ret tt
|}.

Lemma mpinit_spec_witness :
  mpconfig bios = Some (0x800F0000, 0x800F0100) /\
  exists ev s', mpinit 10 bios (mk_mpst (repeat 0 NCPU) 0 false 0 0 0 tt) = (ev, Ret tt s') /\
    bcpu s' = 0%nat /\ ncpu s' = 2%nat /\ ismp s' = true /\ lapic s' = 0xFEE00000 /\ ioapicid s' = 2.
Proof.
  assert (mpconfig bios = Some (0x800F0000, 0x800F0100)) as E by (vm_compute; reflexivity). split; [exact E|].
  destruct (mpinit_spec bios 0x800F0000 0x800F0100 [EProc 0 3; EProc 1 1; EIoapic 2] 10
    (mk_mpst (repeat 0 NCPU) 0 false 0 0 0 tt)) as (ev & s' & K & K1 & _ & K3 & K4 & K5 & K6).
  - split; [by intros; eexists|by intros; eexists _, _].
  - clear E. unfold unset. cbn. repeat split.
  - exact E.
  - clear E. vm_compute. tauto.
  - clear E. vm_compute. lia.
  - clear E. cbn. lia.
  - exists ev, s'. split; [exact K|]. split; [exact K1|]. split; [exact K4|]. split; [exact K3|]. split; [exact K5|exact K6].
Defined.

(** An entry of a type that [mpinit] does not know is never passed: the code
    reports it and looks at the same entry again, for ever, instead of falling back to
    one processor. *)
Theorem mpinit_unknown_hangs {H} `{Ports H} (m : mem) (mp conf q : Z) (es : list mpentry) (s : mpst H) :
  unset s -> mpconfig m = Some (mp, conf) -> entries_at m (conf + MPCONF_SIZE) q es ->
  q < conf + load16 m (conf + MPCONF_LENGTH) -> ~ (0 <= m (u32 q) <= 4) ->
  (length (procs es) <= NCPU)%nat ->
  forall fuel, (mpinit fuel m s).2 = NoFuel.
Proof.
  intros (U1 & U2 & U3 & U4 & U5) Hc He Hq Ht Hn fuel. unfold mpinit.
  rewrite (bind_nil (modify _) _ s tt _ eq_refl), Hc.
  rewrite (bind_nil (modify _) _ _ tt _ eq_refl), (bind_nil (modify _) _ _ tt _ eq_refl).
  match goal with |- context [bind (mpinit_loop _ _ _ _) _ ?t] => set (s1 := t) end.
  pose proof (mpinit_loop_unknown es fuel m (conf + MPCONF_SIZE) q (conf + load16 m (conf + MPCONF_LENGTH)) s1 He Hq Ht) as E.
  unfold bind. destruct (mpinit_loop fuel m _ _ s1) as [ev r]. cbn [snd] in E.
  rewrite E; [done|cbn; by rewrite U1, U2|cbn; rewrite U1; unfold NCPU; lia].
Qed.

(** A table whose only entry is of type 9. *)
Definition odd_table : list Z :=
  codes "PCMP" ++ [52; 0; 4; 177] ++ repeat 0 28 ++ [0; 0; 224; 254] ++ repeat 0 4 ++ [9] ++ repeat 0 7.
Definition odd_bios : mem := fun a =>
  if (0x800F0000 <=? a) && (a <? 0x800F0010) then byte_at mp_pointer (Z.to_nat (a - 0x800F0000))
  else if (0x800F0100 <=? a) && (a <? 0x800F0200) then byte_at odd_table (Z.to_nat (a - 0x800F0100))
  else 0.

Lemma mpinit_unknown_hangs_witness :
  (mpinit 1000 odd_bios (mk_mpst (repeat 0 NCPU) 0 false 0 0 0 tt)).2 = NoFuel.
Proof.
  apply (mpinit_unknown_hangs odd_bios 0x800F0000 0x800F0100 0x800F012C []).
  - unfold unset. cbn. repeat split.
  - vm_compute. reflexivity.
  - reflexivity.
  - vm_compute. reflexivity.
  - vm_compute. intros [_ K]. by apply K.
  - cbn. lia.
Defined.

(** A ninth processor is written past the end of [cpus]. *)
Lemma add_cpu_overflow {H} `{Ports H} id fl (s : mpst H) :
  ncpu s = length (cpu_ids s) -> Z.of_nat (ncpu s) = id -> (add_cpu id fl s).2 = Fault.
Proof.
  intros Hn Hid. unfold add_cpu. rewrite (bind_nil get _ s s s) by done. rewrite Hid, Z.eqb_refl. cbn [negb when].
  rewrite (bind_nil (ret tt) _ s tt s) by done. rewrite Hn, Nat.ltb_irrefl.
  destruct (has fl MPBOOT); cbn [when]; [rewrite (bind_nil (modify _) _ s tt _ eq_refl)|rewrite (bind_nil (ret tt) _ s tt s) by done]; done.
Qed.
