(* ===== verification/Kbd.v ===== *)
(** * The keyboard: kbd.c and the tables of kbd.h *)

From stdpp Require Import base numbers list strings.
From S2P Require Import Prelude Bytes Mem Str User Ports.

Open Scope Z_scope.

Definition KBSTATP : Z := 0x64.
Definition KBS_DIB : Z := 0x01.
Definition KBDATAP : Z := 0x60.

Definition NO : Z := 0.

Definition SHIFT : Z := Z.shiftl 1 0.
Definition CTL : Z := Z.shiftl 1 1.
Definition ALT : Z := Z.shiftl 1 2.

Definition CAPSLOCK : Z := Z.shiftl 1 3.
Definition NUMLOCK : Z := Z.shiftl 1 4.
Definition SCROLLLOCK : Z := Z.shiftl 1 5.

Definition E0ESC : Z := Z.shiftl 1 6.

Definition KEY_HOME : Z := 0xE0.
Definition KEY_END : Z := 0xE1.
Definition KEY_UP : Z := 0xE2.
Definition KEY_DN : Z := 0xE3.
Definition KEY_LF : Z := 0xE4.
Definition KEY_RT : Z := 0xE5.
Definition KEY_PGUP : Z := 0xE6.
Definition KEY_PGDN : Z := 0xE7.
Definition KEY_INS : Z := 0xE8.
Definition KEY_DEL : Z := 0xE9.

(** [C('A')] is Control-A. *)
Definition C (x : string) : Z := chr x - chr "@".

(** An array of 256 bytes: the first ones, the designated ones, and zeroes. *)
Definition table (first : list Z) (rest : list (nat * Z)) : list Z :=
  foldl (fun t p => <[p.1 := p.2]> t) (first ++ repeat 0 (256 - length first)) rest.

Definition shiftcode : list Z :=
  table [] [(0x1D, CTL); (0x2A, SHIFT); (0x36, SHIFT); (0x38, ALT); (0x9D, CTL); (0xB8, ALT)]%nat.

Definition togglecode : list Z :=
  table [] [(0x3A, CAPSLOCK); (0x45, NUMLOCK); (0x46, SCROLLLOCK)]%nat.

(** The keys of the extended set, the same in the first two maps. *)
Definition arrows : list (nat * Z) :=
  [(0xC8, KEY_UP); (0xD0, KEY_DN); (0xC9, KEY_PGUP); (0xD1, KEY_PGDN); (0xCB, KEY_LF); (0xCD, KEY_RT);
   (0x97, KEY_HOME); (0xCF, KEY_END); (0xD2, KEY_INS); (0xD3, KEY_DEL)]%nat.

Definition normalmap : list Z :=
  table
    ([NO; 0x1B] ++ codes "123456" ++
     codes "7890-=" ++ [8; 9] ++
     codes "qwertyui" ++
     codes "op[]" ++ [10; NO] ++ codes "as" ++
     codes "dfghjkl;" ++
     [39; 96; NO; 92] ++ codes "zxcv" ++
     codes "bnm,./" ++ [NO] ++ codes "*" ++
     [NO] ++ codes " " ++ [NO; NO; NO; NO; NO; NO] ++
     [NO; NO; NO; NO; NO; NO; NO] ++ codes "7" ++
     codes "89-456+1" ++
     codes "230." ++ [NO; NO; NO; NO])
    ([(0x9C%nat, 10); (0xB5%nat, chr "/")] ++ arrows).

Definition shiftmap : list Z :=
  table
    ([NO; 27] ++ codes "!@#$%^" ++
     codes "&*()_+" ++ [8; 9] ++
     codes "QWERTYUI" ++
     codes "OP{}" ++ [10; NO] ++ codes "AS" ++
     codes "DFGHJKL:" ++
     [34; 126; NO; 124] ++ codes "ZXCV" ++
     codes "BNM<>?" ++ [NO] ++ codes "*" ++
     [NO] ++ codes " " ++ [NO; NO; NO; NO; NO; NO] ++
     [NO; NO; NO; NO; NO; NO; NO] ++ codes "7" ++
     codes "89-456+1" ++
     codes "230." ++ [NO; NO; NO; NO])
    ([(0x9C%nat, 10); (0xB5%nat, chr "/")] ++ arrows).

Definition ctlmap : list Z :=
  table
    ([NO; NO; NO; NO; NO; NO; NO; NO;
      NO; NO; NO; NO; NO; NO; NO; NO;
      C "Q"; C "W"; C "E"; C "R"; C "T"; C "Y"; C "U"; C "I";
      C "O"; C "P"; NO; NO; 13; NO; C "A"; C "S";
      C "D"; C "F"; C "G"; C "H"; C "J"; C "K"; C "L"; NO;
      NO; NO; NO; C "\"; C "Z"; C "X"; C "C"; C "V";
      C "B"; C "N"; C "M"; NO; NO; u8 (C "/"); NO; NO])
    ([(0x9C%nat, 13); (0xB5%nat, u8 (C "/"))] ++ arrows).

Definition charcode : list (list Z) := [normalmap; shiftmap; ctlmap; ctlmap].

(** [kbdgetc] on a byte from the keyboard: the new [shift] and the result.  An
    access outside a table is [None]. *)
Definition kbd_byte (shift data : Z) : option (Z * Z) :=
  if data =? 0xE0 then Some (Z.lor shift E0ESC, 0)
  else if has data 0x80 then
    let data := if has shift E0ESC then data else Z.land data 0x7F in
    m ← shiftcode !! Z.to_nat data;
    Some (Z.land shift (Z.lnot (Z.lor m E0ESC)), 0)
  else
    let '(data, shift) :=
      if has shift E0ESC then (Z.lor data 0x80, Z.land shift (Z.lnot E0ESC)) else (data, shift) in
    m ← shiftcode !! Z.to_nat data;
    let shift := Z.lor shift m in
    g ← togglecode !! Z.to_nat data;
    let shift := Z.lxor shift g in
    t ← charcode !! Z.to_nat (Z.land shift (Z.lor CTL SHIFT));
    c ← t !! Z.to_nat data;
    Some (shift,
      if has shift CAPSLOCK then
        if (chr "a" <=? c) && (c <=? chr "z") then c + (chr "A" - chr "a")
        else if (chr "A" <=? c) && (c <=? chr "Z") then c + (chr "a" - chr "A")
        else c
      else c).

(** The driver: [static uint shift] and the ports. *)
Section Kbd.
Context {H : Type} `{Ports H}.

Definition kports : lens (Z * H) H := Lens snd (fun h s => (s.1, h)).

Definition kbdgetc : M (Z * H) Z :=
  let* st := zoom kports (inb KBSTATP) in
  if Z.land st KBS_DIB =? 0 then ret (-1)
  else
    let* data := zoom kports (inb KBDATAP) in
    let* s := get in
    let* r := deref (kbd_byte s.1 data) in
    modify (fun s => (r.1, s.2)) ;;
    ret r.2.
End Kbd.

(** ** What is typed *)

(** The place of the letter keys. *)
Definition letter_keys : list (Z * string) :=
  [(0x10, "q"); (0x11, "w"); (0x12, "e"); (0x13, "r"); (0x14, "t"); (0x15, "y"); (0x16, "u"); (0x17, "i");
   (0x18, "o"); (0x19, "p"); (0x1E, "a"); (0x1F, "s"); (0x20, "d"); (0x21, "f"); (0x22, "g"); (0x23, "h");
   (0x24, "j"); (0x25, "k"); (0x26, "l"); (0x2C, "z"); (0x2D, "x"); (0x2E, "c"); (0x2F, "v"); (0x30, "b");
   (0x31, "n"); (0x32, "m")]%string.

(** The modifier keys by the bytes of their left and right versions. *)
Definition held_keys : list (list Z * list Z * Z) :=
  [([0x2A], [0xAA], SHIFT); ([0x36], [0xB6], SHIFT); ([0x1D], [0x9D], CTL); ([0xE0; 0x1D], [0xE0; 0x9D], CTL);
   ([0x38], [0xB8], ALT); ([0xE0; 0x38], [0xE0; 0xB8], ALT)].

(** A sequence of bytes, and the last result. *)
Fixpoint kbd_bytes (shift : Z) (l : list Z) : option (Z * Z) :=
  match l with
  | [] => Some (shift, 0)
  | d :: l' => r ← kbd_byte shift d; match l' with [] => Some r | _ => kbd_bytes r.1 l' end
  end.

Definition in_range (r : option (Z * Z)) : bool :=
  match r with
  | Some (shift, c) => (0 <=? shift) && (shift <? 128) && (0 <=? c) && (c <? 256)
  | None => false
  end.

Lemma kbd_byte_range shift data :
  0 <= shift < 128 -> 0 <= data < 256 -> in_range (kbd_byte shift data) = true.
Proof.
  intros Hs Hd. revert data Hd.
  refine (zrange_check (fun d => in_range (kbd_byte shift d)) 0 256 _).
  revert shift Hs. refine (zrange_check (fun s => forallb (fun d => in_range (kbd_byte s d)) (zrange 0 256)) 0 128 _).
  by vm_compute.
Qed.

Definition result_is (shift c : Z) (r : option (Z * Z)) : bool :=
  match r with Some (s, c') => (s =? shift) && (c' =? c) | None => false end.

Lemma result_is_eq shift c r : result_is shift c r = true -> r = Some (shift, c).
Proof.
  unfold result_is. destruct r as [[s c']|]; [|done]. intros [E1%Z.eqb_eq E2%Z.eqb_eq]%andb_true_iff. by subst.
Qed.

Definition capital (l : string) : Z := chr l + (chr "A" - chr "a").

(** What the key of letter [l] types. *)
Definition letter (shift : Z) (l : string) : Z :=
  if has shift CTL then capital l - chr "@"
  else if xorb (has shift SHIFT) (has shift CAPSLOCK) then capital l else chr l.

Definition letter_ok (shift : Z) : bool :=
  has shift E0ESC || forallb (fun k => result_is shift (letter shift k.2) (kbd_byte shift k.1)) letter_keys.

Definition held_ok (shift : Z) : bool :=
  has shift E0ESC ||
  forallb (fun k => let '(mk, brk, bit) := k in has shift bit ||
    result_is (shift + bit) 0 (kbd_bytes shift mk) && result_is shift 0 (kbd_bytes (shift + bit) brk)) held_keys.

Lemma letters_checked : forallb letter_ok (zrange 0 64) = true.
Proof. by vm_compute. Qed.

Lemma held_checked : forallb held_ok (zrange 0 64) = true.
Proof. by vm_compute. Qed.

(** The keyboard driver decodes every byte, in every state of the modifiers,
    inside its tables, to a character code; a letter key types the letter, the
    capital under one of shift and caps lock, the control character under control;
    pressing a modifier, left or right, sets its bit and nothing else, and releasing
    it brings the state before back. *)
Theorem kbd_types (shift : Z) :
  0 <= shift < 64 ->
  (forall esc data, 0 <= data < 256 -> exists shift' c,
    kbd_byte (if esc : bool then shift + E0ESC else shift) data = Some (shift', c) /\ 0 <= shift' < 128 /\ 0 <= c < 256) /\
  (forall code l, (code, l) ∈ letter_keys -> kbd_byte shift code = Some (shift, letter shift l)) /\
  (forall make break bit, (make, break, bit) ∈ held_keys -> has shift bit = false ->
    kbd_bytes shift make = Some (shift + bit, 0) /\ kbd_bytes (shift + bit) break = Some (shift, 0)).
Proof.
  intros Hs. assert (has shift E0ESC = false) as He.
  { apply negb_true_iff. by apply (zrange_check (fun s => negb (has s E0ESC)) 0 64). }
  split; [|split].
  - intros esc data Hd. pose proof (kbd_byte_range (if esc then shift + E0ESC else shift) data) as K.
    change E0ESC with 64 in *. destruct (kbd_byte _ data) as [[shift' c]|]; cbn in K.
    + exists shift', c. split; [done|]. specialize (K ltac:(destruct esc; lia) Hd). lia.
    + specialize (K ltac:(destruct esc; lia) Hd). done.
  - intros code l Hin. apply result_is_eq. pose proof (zrange_check letter_ok 0 64 letters_checked shift Hs) as K.
    unfold letter_ok in K. rewrite He, orb_false_l, forallb_forall in K. apply (K (code, l)). by apply list_elem_of_In.
  - intros mk brk bit Hin Hb. pose proof (zrange_check held_ok 0 64 held_checked shift Hs) as K.
    unfold held_ok in K. rewrite He, orb_false_l, forallb_forall in K.
    specialize (K (mk, brk, bit) ltac:(by apply list_elem_of_In)). cbn beta iota in K. rewrite Hb, orb_false_l in K.
    apply andb_true_iff in K as [K1%result_is_eq K2%result_is_eq]. done.
Qed.

(** Capital A with the left shift key. *)
Lemma kbd_types_witness :
  0 <= SHIFT < 64 /\ kbd_byte SHIFT 0x1E = Some (SHIFT, chr "A") /\ kbd_bytes 0 [0x2A] = Some (SHIFT, 0).
Proof.
  split; [done|]. split.
  - apply (proj1 (proj2 (kbd_types SHIFT ltac:(done))) 0x1E "a"%string). apply list_elem_of_In. cbn. tauto.
  - apply (proj2 (proj2 (kbd_types 0 ltac:(done))) [0x2A] [0xAA] SHIFT); [|done]. apply list_elem_of_In. cbn. tauto.
Defined.
