(* ===== verification/Console.v ===== *)
(** * The console: console.c, uart.c

    Characters come from the keyboard or the serial line and are edited into
    lines in the ring buffer [input]; output goes to the serial line and to the
    screen.  The state of the keyboard driver is part of the console's, since its
    interrupt handler is [consoleintr]. *)

From stdpp Require Import base numbers list strings.
From S2P Require Import Prelude Bytes Mem Str User Segments Format Ports Kbd.

Open Scope Z_scope.

Definition COM1 : Z := 0x3f8.
Definition BACKSPACE : Z := 0x100.
Definition CRTPORT : Z := 0x3d4.
Definition INPUT_BUF : Z := 128.
Definition CONSOLE : Z := 1.

(** [struct { char buf[INPUT_BUF]; uint r, w, e; } input] *)
Record input := mk_input { ibuf : list Z; ir : Z; iw : Z; ie : Z }.

Section Console.
Context {H : Type} `{Ports H}.

(** [cons.lock], [cons.locking], [panicked], [uart], the keyboard's [shift], the
    screen memory as [ushort]s, [input], and the devices. *)
Record cons := mk_cons {
  clock : bool;
  locking : bool;
  panicked : bool;
  uart : bool;
  shift : Z;
  crt : Z -> Z;
  inp : input;
  chw : H
}.

Definition set_locking (b : bool) (s : cons) : cons := mk_cons (clock s) b (panicked s) (uart s) (shift s) (crt s) (inp s) (chw s).
Definition set_panicked (b : bool) (s : cons) : cons := mk_cons (clock s) (locking s) b (uart s) (shift s) (crt s) (inp s) (chw s).
Definition set_uart (b : bool) (s : cons) : cons := mk_cons (clock s) (locking s) (panicked s) b (shift s) (crt s) (inp s) (chw s).
Definition set_crt (f : Z -> Z) (s : cons) : cons := mk_cons (clock s) (locking s) (panicked s) (uart s) (shift s) f (inp s) (chw s).
Definition set_inp (i : input) (s : cons) : cons := mk_cons (clock s) (locking s) (panicked s) (uart s) (shift s) (crt s) i (chw s).

Definition cons_lock : lens cons bool :=
  Lens clock (fun b s => mk_cons b (locking s) (panicked s) (uart s) (shift s) (crt s) (inp s) (chw s)).
Definition ports : lens cons H :=
  Lens chw (fun h s => mk_cons (clock s) (locking s) (panicked s) (uart s) (shift s) (crt s) (inp s) h).
Definition keyboard : lens cons (Z * H) :=
  Lens (fun s => (shift s, chw s))
    (fun k s => mk_cons (clock s) (locking s) (panicked s) (uart s) k.1 (crt s) (inp s) k.2).

(** ** The serial line *)

(** [for(i = 0; i < 128 && !(inb(COM1+5) & 0x20); i++) microdelay(10);] *)
Fixpoint uart_wait (n : nat) : M H unit :=
  match n with
  | O => ret tt
  | S k => let* st := inb (COM1 + 5) in if has st 0x20 then ret tt else uart_wait k
  end.

Definition uartputc (c : Z) : M cons unit :=
  let* s := get in
  when (uart s) (zoom ports (uart_wait 128 ;; outb (COM1 + 0) (u8 c))).

(** [enable irq cpu] is [picenable(irq); ioapicenable(irq, cpu)]. *)
Definition uartinit (enable : Z -> Z -> M H unit) : M cons unit :=
  zoom ports
    (outb (COM1 + 2) 0 ;;
     outb (COM1 + 3) 0x80 ;;
     outb (COM1 + 0) (115200 / 9600) ;;
     outb (COM1 + 1) 0 ;;
     outb (COM1 + 3) 0x03 ;;
     outb (COM1 + 4) 0 ;;
     outb (COM1 + 1) 0x01) ;;
  let* st := zoom ports (inb (COM1 + 5)) in
  when (negb (st =? 0xFF))
    (modify (set_uart true) ;;
     zoom ports (inb (COM1 + 2) ;; inb (COM1 + 0) ;; enable IRQ_COM1 0) ;;
     for_all (codes "xv6..." ++ [10]) uartputc).

Definition uartgetc : M cons Z :=
  let* s := get in
  if negb (uart s) then ret (-1)
  else
    let* st := zoom ports (inb (COM1 + 5)) in
    if negb (has st 0x01) then ret (-1) else zoom ports (inb (COM1 + 0)).

(** ** The screen *)

(** [crt[i] = v] *)
Definition poke (i v : Z) (f : Z -> Z) : Z -> Z := fun x => if x =? i then v else f x.

(** [memmove(crt, crt+80, sizeof(crt[0])*23*80)] and the [memset] of the rest. *)
Definition scroll (pos : Z) (f : Z -> Z) : Z -> Z := fun x =>
  if (pos <=? x) && (x <? 24 * 80) then 0
  else if (0 <=? x) && (x <? 23 * 80) then f (x + 80)
  else f x.

(** The cursor, column + 80 * row, in two registers of the screen controller. *)
Definition get_cursor : M H Z :=
  outb CRTPORT 14 ;;
  let* hi := inb (CRTPORT + 1) in
  outb CRTPORT 15 ;;
  let* lo := inb (CRTPORT + 1) in
  ret (Z.lor (Z.shiftl hi 8) lo).

Definition set_cursor (pos : Z) : M H unit :=
  outb CRTPORT 14 ;;
  outb (CRTPORT + 1) (u8 (Z.shiftr pos 8)) ;;
  outb CRTPORT 15 ;;
  outb (CRTPORT + 1) (u8 pos).

Definition cgaputc (c : Z) : M cons unit :=
  let* pos := zoom ports get_cursor in
  let* pos :=
    if c =? 10 then ret (pos + (80 - pos `mod` 80))
    else if c =? BACKSPACE then ret (if pos >? 0 then pos - 1 else pos)
    else
      modify (fun s => set_crt (poke pos (Z.lor (Z.land c 0xff) 0x0700) (crt s)) s) ;;
      ret (pos + 1) in
  if (pos <? 0) || (pos >? 25 * 80) then panic "pos under/overflow"
  else
    let* pos :=
      if pos / 80 >=? 24 then
        modify (fun s => set_crt (scroll (pos - 80) (crt s)) s) ;;
        ret (pos - 80)
      else ret pos in
    zoom ports (set_cursor pos) ;;
    modify (fun s => set_crt (poke pos (Z.lor (chr " ") 0x0700) (crt s)) s).

(** After a panic every CPU that prints stops for good. *)
Definition consputc (c : Z) : M cons unit :=
  let* s := get in
  if panicked s then nofuel
  else
    (if c =? BACKSPACE then uartputc 8 ;; uartputc (chr " ") ;; uartputc 8 else uartputc c) ;;
    cgaputc c.

(** ** Formatted output *)

(** [fmt] is [None] for a null pointer. *)
Definition cprintf (str_at : Z -> list Z) (fmt : option (list Z)) (args : list Z) : M cons unit :=
  let* s := get in
  when (locking s) (acquire cons_lock) ;;
  match fmt with
  | None => panic "null fmt"
  | Some f =>
      cprintf_loop str_at consputc f args ;;
      when (locking s) (release cons_lock)
  end.

(** [panic] up to its endless loop; [id] is [cpu->id], [pcs] what [getcallerpcs] finds. *)
Definition cons_panic (str_at : Z -> list Z) (id : Z) (msg : list Z) (pcs : list Z) : M cons unit :=
  modify (set_locking false) ;;
  cprintf str_at (Some (codes "cpu%d: panic: ")) [id] ;;
  cprintf str_at (Some msg) [] ;;
  cprintf str_at (Some [10]) [] ;;
  for_all pcs (fun pc => cprintf str_at (Some (codes " %p")) [pc]) ;;
  modify (set_panicked true).

(** ** Input *)

Definition set_ie (e : Z) (i : input) : input := mk_input (ibuf i) (ir i) (iw i) e.
Definition set_ir (r : Z) (i : input) : input := mk_input (ibuf i) r (iw i) (ie i).

(** [input.buf[k % INPUT_BUF]] *)
Definition peek (k : Z) (i : input) : Z := byte_at (ibuf i) (Z.to_nat (k `mod` INPUT_BUF)).

Definition upd_inp (f : input -> input) : M cons unit := modify (fun s => set_inp (f (inp s)) s).

(** [while(input.e != input.w && input.buf[(input.e-1) % INPUT_BUF] != '\n')]: at
    most as many turns as the buffer has places. *)
Fixpoint kill_line (fuel : nat) : M cons unit :=
  match fuel with
  | O => nofuel
  | S k =>
      let* s := get in
      let i := inp s in
      if negb (ie i =? iw i) && negb (peek (u32 (ie i - 1)) i =? 10) then
        upd_inp (set_ie (u32 (ie i - 1))) ;;
        consputc BACKSPACE ;;
        kill_line k
      else ret tt
  end.

Definition put_input (c : Z) (i : input) : input :=
  mk_input (<[Z.to_nat (ie i `mod` INPUT_BUF) := u8 c]> (ibuf i)) (ir i) (iw i) (u32 (ie i + 1)).

(** The [switch] of [consoleintr]; the result says whether [doprocdump] is set. *)
Definition console_char (c : Z) : M cons bool :=
  if c =? C "P" then ret true
  else if c =? C "U" then kill_line (S (Z.to_nat INPUT_BUF)) ;; ret false
  else if (c =? C "H") || (c =? 0x7f) then
    let* s := get in
    when (negb (ie (inp s) =? iw (inp s)))
      (upd_inp (set_ie (u32 (ie (inp s) - 1))) ;; consputc BACKSPACE) ;;
    ret false
  else
    let* s := get in
    when (negb (c =? 0) && (u32 (ie (inp s) - ir (inp s)) <? INPUT_BUF))
      (let c := if c =? 13 then 10 else c in
       upd_inp (put_input c) ;;
       consputc c ;;
       let* s := get in
       let i := inp s in
       when ((c =? 10) || (c =? C "D") || (ie i =? u32 (ir i + INPUT_BUF)))
         (upd_inp (fun i => mk_input (ibuf i) (ir i) (ie i) (ie i)) ;; wakeup ChInput)) ;;
    ret false.

(** The loop of [consoleintr]; [fuel] bounds the characters the device delivers. *)
Fixpoint consoleintr_loop (fuel : nat) (getc : M cons Z) (doprocdump : bool) : M cons bool :=
  match fuel with
  | O => nofuel
  | S k =>
      let* c := getc in
      if c >=? 0 then
        let* d := console_char c in
        consoleintr_loop k getc (doprocdump || d)
      else ret doprocdump
  end.

Definition consoleintr (fuel : nat) (getc : M cons Z) (procdump : M cons unit) : M cons unit :=
  acquire cons_lock ;;
  let* d := consoleintr_loop fuel getc false in
  release cons_lock ;;
  when d procdump.

Definition uartintr (fuel : nat) : M cons unit -> M cons unit := consoleintr fuel uartgetc.
Definition kbdintr (fuel : nat) : M cons unit -> M cons unit := consoleintr fuel (zoom keyboard kbdgetc).

(** ** Reading and writing *)

(** How a turn of [consoleread] ends: it returns, or sleeps with [got] bytes so far. *)
Inductive cres := CRet (n : Z) (got : list Z) | CSleep (got : list Z).

(** The loop of [consoleread], [n] bytes still to come of [target]; a woken thread
    goes on here with the bytes it has. *)
Fixpoint consoleread_loop (killed : bool) (target : Z) (n : nat) (got : list Z) : M cons cres :=
  match n with
  | O => release cons_lock ;; ret (CRet (target - 0) got)
  | S k =>
      let* s := get in
      let i := inp s in
      if ir i =? iw i then
        if killed then release cons_lock ;; ret (CRet (-1) got)
        else release cons_lock ;; ret (CSleep got)
      else
        let c := peek (ir i) i in
        upd_inp (set_ir (u32 (ir i + 1))) ;;
        if c =? C "D" then
          when (Z.of_nat n <? target) (upd_inp (set_ir (ir i))) ;;
          release cons_lock ;;
          ret (CRet (target - Z.of_nat n) got)
        else if c =? 10 then
          release cons_lock ;; ret (CRet (target - Z.of_nat k) (got ++ [c]))
        else consoleread_loop killed target k (got ++ [c])
  end.

(** [consoleread], entered with [got = []] or woken up; [iunlock(ip)] and [ilock(ip)]
    around it belong to the file system. *)
Definition consoleread (killed : bool) (n : Z) (got : list Z) : M cons cres :=
  acquire cons_lock ;;
  consoleread_loop killed (Z.max n 0) (Z.to_nat n - length got) got.

Definition consolewrite (buf : list Z) (n : Z) : M cons Z :=
  acquire cons_lock ;;
  for_all (take (Z.to_nat n) buf) (fun c => consputc (Z.land c 0xff)) ;;
  release cons_lock ;;
  ret n.

Definition consoleinit (enable : Z -> Z -> M H unit) : M cons unit :=
  modify (lset cons_lock false) ;;
  modify (set_locking true) ;;
  zoom ports (enable IRQ_KBD 0).

End Console.
Arguments cons H : clear implicits.
