(* ===== verification/ConsoleSpec.v ===== *)
(** * The console as a terminal

    [ConsoleHw] is what the drivers rely on in the screen controller, the serial
    port and the keyboard controller.  Over any such hardware the console is a
    screen with a cursor, and a line editor in front of its readers. *)

From stdpp Require Import base numbers list strings.
From S2P Require Import Prelude Bytes Mem Str User Segments Format Ports Kbd Console.

Open Scope Z_scope.

(** ** The hardware *)

(** The cursor, the bytes sent on the serial line, the bytes received and the bytes
    from the keyboard that wait to be read. *)
Record panel := mk_panel { p_cursor : Z; p_sent : list Z; p_serial : list Z; p_keys : list Z }.

Definition with_cursor (c : Z) (p : panel) : panel := mk_panel c (p_sent p) (p_serial p) (p_keys p).
Definition with_sent (l : list Z) (p : panel) : panel := mk_panel (p_cursor p) l (p_serial p) (p_keys p).
Definition with_serial (l : list Z) (p : panel) : panel := mk_panel (p_cursor p) (p_sent p) l (p_keys p).
Definition with_keys (l : list Z) (p : panel) : panel := mk_panel (p_cursor p) (p_sent p) (p_serial p) l.

Definition waiting (l : list Z) : bool := match l with [] => false | _ => true end.

Class ConsoleHw (H : Type) `{Ports H} := {
  face : H -> panel;

  face_ok h : 0 <= p_cursor (face h) < 2 ^ 16 /\ bytes_ok (p_serial (face h)) /\ bytes_ok (p_keys (face h));
  crt_get h : exists h',
    (outb 0x3d4 14 ;; let* hi := inb 0x3d5 in outb 0x3d4 15 ;; let* lo := inb 0x3d5 in ret (hi, lo)) h =
      ([], Ret (p_cursor (face h) / 256, p_cursor (face h) `mod` 256) h') /\ face h' = face h;
  crt_set h hi lo : 0 <= hi < 256 -> 0 <= lo < 256 -> exists h',
    (outb 0x3d4 14 ;; outb 0x3d5 hi ;; outb 0x3d4 15 ;; outb 0x3d5 lo) h = ([], Ret tt h') /\
    face h' = with_cursor (256 * hi + lo) (face h);
  uart_status h : exists v h',
    inb 0x3fd h = ([], Ret v h') /\ face h' = face h /\ has v 1 = waiting (p_serial (face h));
  uart_send h c : 0 <= c < 256 -> exists h',
    outb 0x3f8 c h = ([], Ret tt h') /\ face h' = with_sent (p_sent (face h) ++ [c]) (face h);
  uart_receive h c r : p_serial (face h) = c :: r -> exists h',
    inb 0x3f8 h = ([], Ret c h') /\ face h' = with_serial r (face h);
  kbd_status h : exists v h',
    inb 0x64 h = ([], Ret v h') /\ face h' = face h /\ has v 1 = waiting (p_keys (face h));
  kbd_data h c r : p_keys (face h) = c :: r -> exists h',
    inb 0x60 h = ([], Ret c h') /\ face h' = with_keys r (face h);

  (** What happens on the other side of the devices. *)
  arrive_serial : list Z -> H -> H;
  arrive_keys : list Z -> H -> H;
  face_arrive_serial l h : bytes_ok l -> face (arrive_serial l h) = with_serial (p_serial (face h) ++ l) (face h);
  face_arrive_keys l h : bytes_ok l -> face (arrive_keys l h) = with_keys (p_keys (face h) ++ l) (face h)
}.

(** ** The terminal *)

(** 24 lines of 80 cells; the cursor is one of them. *)
Definition CELLS : Z := 1920.

(** One character: the cell at the cursor, the next line, or a step back; the screen
    moves up when the cursor leaves the last line. *)
Definition term_cell (c : Z) (t : list Z * Z) : list Z * Z :=
  if c =? 10 then (t.1, 80 * (t.2 / 80 + 1))
  else if c =? BACKSPACE then (t.1, Z.max 0 (t.2 - 1))
  else (<[Z.to_nat t.2 := Z.lor (Z.land c 0xff) 0x0700]> t.1, t.2 + 1).

Definition term_scroll (t : list Z * Z) : list Z * Z :=
  if t.2 =? CELLS then (drop 80 t.1 ++ repeat 0 80, CELLS - 80) else t.

Definition term_put (c : Z) (t : list Z * Z) : list Z * Z :=
  let t := term_scroll (term_cell c t) in (<[Z.to_nat t.2 := 0x0720]> t.1, t.2).

Lemma lor_byte a b : 0 <= b < 256 -> Z.lor (Z.shiftl a 8) b = 256 * a + b.
Proof.
  intros Hb. assert (Z.land (Z.shiftl a 8) b = 0) as E.
  { apply Z.bits_inj'. intros k Hk. rewrite Z.land_spec, Z.bits_0. destruct (Z.ltb_spec k 8).
    - by rewrite Z.shiftl_spec_low.
    - rewrite <- (Z.mod_small b (2 ^ 8)), Z.mod_pow2_bits_high by lia. apply andb_false_r. }
  rewrite <- Z.lxor_lor, <- Z.add_nocarry_lxor by done. rewrite Z.shiftl_mul_pow2 by lia. lia.
Qed.

(** Take the first step of a silent run. *)
Ltac first_step E x s E1 :=
  let e1 := fresh "e" in let e2 := fresh "e" in let Ee := fresh "Ee" in
  apply bind_inv in E as (e1 & x & s & e2 & E1 & E & Ee);
  symmetry in Ee; apply app_nil in Ee as [-> ->].

Section Spec.
Context {H : Type} `{ConsoleHw H}.

Lemma get_cursor_run (h : H) :
  exists h', get_cursor h = ([], Ret (p_cursor (face h)) h') /\ face h' = face h.
Proof.
  destruct (crt_get h) as (h' & E & Hf). exists h'. split; [|done]. unfold get_cursor.
  change (CRTPORT + 1) with 0x3d5. change CRTPORT with 0x3d4.
  first_step E x1 h1 E1. first_step E hi h2 E2. first_step E x3 h3 E3. first_step E lo h4 E4. injection E as -> -> ->.
  rewrite (bind_nil _ _ _ _ _ E1), (bind_nil _ _ _ _ _ E2), (bind_nil _ _ _ _ _ E3), (bind_nil _ _ _ _ _ E4).
  unfold ret. do 2 f_equal. rewrite lor_byte by (apply Z.mod_pos_bound; lia).
  symmetry. apply Z.div_mod. lia.
Qed.

Lemma set_cursor_run (h : H) p :
  0 <= p < 2 ^ 16 -> exists h', set_cursor p h = ([], Ret tt h') /\ face h' = with_cursor p (face h).
Proof.
  intros Hp. destruct (crt_set h (p / 256) (p `mod` 256)) as (h' & E & Hf).
  { split; [apply Z.div_pos; lia|apply Z.div_lt_upper_bound; lia]. }
  { apply Z.mod_pos_bound. lia. }
  exists h'. rewrite Hf, <- Z.div_mod by lia. split; [|done]. unfold set_cursor, u8. rewrite Z.shiftr_div_pow2 by lia.
  change (2 ^ 8) with 256. rewrite (Z.mod_small (p / 256)); [exact E|].
  split; [apply Z.div_pos; lia|apply Z.div_lt_upper_bound; lia].
Qed.

(** ** Output *)

(** The state with other devices behind it and another screen. *)
Definition with_out (h : H) (f : Z -> Z) (s : cons H) : cons H :=
  mk_cons (clock s) (locking s) (panicked s) (uart s) (shift s) f (inp s) h.

(** [s] shows the cells and the cursor of [t]. *)
Definition on_screen (f : Z -> Z) (cells : list Z) : Prop :=
  length cells = Z.to_nat CELLS /\ forall i x, cells !! i = Some x -> f (Z.of_nat i) = x.

Lemma poke_screen f cells p v :
  on_screen f cells -> 0 <= p -> on_screen (poke p v f) (<[Z.to_nat p := v]> cells).
Proof using Type.
  intros [Hl Hc] Hp. split; [by rewrite length_insert|]. intros i x Hx. unfold poke.
  apply list_lookup_insert_Some in Hx as [(<- & <- & Hi)|[Hne Hx]].
  - destruct (Z.eqb_spec (Z.of_nat (Z.to_nat p)) p); [done|lia].
  - destruct (Z.eqb_spec (Z.of_nat i) p); [lia|]. by apply Hc.
Qed.

Lemma scroll_screen f cells :
  on_screen f cells -> on_screen (scroll (CELLS - 80) f) (drop 80 cells ++ repeat 0 80).
Proof using Type.
  unfold on_screen, CELLS. intros [Hl Hc]. split; [rewrite length_app, length_drop, repeat_length, Hl; lia|].
  intros i x Hx. unfold scroll. apply lookup_app_Some in Hx as [Hx|[Hi Hx]].
  - pose proof (lookup_lt_Some _ _ _ Hx) as Hlt. rewrite length_drop, Hl in Hlt. rewrite lookup_drop in Hx.
    apply Hc in Hx. destruct (Z.leb_spec (1920 - 80) (Z.of_nat i)); [lia|]. cbn [andb].
    destruct (Z.leb_spec 0 (Z.of_nat i)); [|lia]. destruct (Z.ltb_spec (Z.of_nat i) (23 * 80)); [|lia]. cbn [andb].
    rewrite <- Hx. f_equal. lia.
  - rewrite length_drop, Hl in Hi. rewrite length_drop, Hl in Hx. pose proof (lookup_lt_Some _ _ _ Hx) as Hlt.
    rewrite repeat_length in Hlt. apply list_elem_of_lookup_2, list_elem_of_In, repeat_spec in Hx.
    destruct (Z.leb_spec (1920 - 80) (Z.of_nat i)); [|lia]. destruct (Z.ltb_spec (Z.of_nat i) (24 * 80)); [|lia]. by subst.
Qed.

(** Where a character takes the cursor, before the screen moves and after. *)
Lemma term_cell_range c t : 0 <= t.2 < CELLS -> 0 <= (term_cell c t).2 <= CELLS.
Proof using Type.
  unfold term_cell, CELLS. intros Hp. pose proof (Z.div_mod t.2 80). pose proof (Z.mod_pos_bound t.2 80).
  destruct (c =? 10); [|destruct (c =? BACKSPACE)]; cbn [snd]; lia.
Qed.

Lemma term_put_range c t : 0 <= t.2 < CELLS -> 0 <= (term_put c t).2 < CELLS.
Proof using Type.
  intros Hp. pose proof (term_cell_range c t Hp). unfold term_put, term_scroll. cbn [snd].
  destruct (Z.eqb_spec (term_cell c t).2 CELLS); cbn [snd]; unfold CELLS in *; lia.
Qed.

(** The cell and the new position, before the screen moves. *)
Lemma cga_cell c cells p (s : cons H) :
  on_screen (crt s) cells -> 0 <= p ->
  exists f', (if c =? 10 then ret (p + (80 - p `mod` 80))
     else if c =? BACKSPACE then ret (if p >? 0 then p - 1 else p)
     else modify (fun s => set_crt (poke p (Z.lor (Z.land c 0xff) 0x0700) (crt s)) s) ;; ret (p + 1)) s =
    ([], Ret (term_cell c (cells, p)).2 (set_crt f' s)) /\ on_screen f' (term_cell c (cells, p)).1 /\
    (forall i, p < i -> f' i = crt s i).
Proof using Type.
  intros Hf Hp. assert (s = set_crt (crt s) s) as Es by (by destruct s). unfold term_cell. cbn [fst snd].
  destruct (c =? 10); [|destruct (c =? BACKSPACE)]; cbn [fst snd].
  - exists (crt s). rewrite <- Es. split; [|done]. unfold ret. do 2 f_equal. pose proof (Z.div_mod p 80). lia.
  - exists (crt s). rewrite <- Es. split; [|done]. unfold ret. do 2 f_equal. destruct (Z.gtb_spec p 0); lia.
  - exists (poke p (Z.lor (Z.land c 255) 1792) (crt s)). split; [done|]. split; [by apply poke_screen|].
    intros i Hi. unfold poke. by destruct (Z.eqb_spec i p); [lia|].
Qed.

(** The screen moves up or stays. *)
Lemma cga_scroll t (s : cons H) :
  on_screen (crt s) t.1 -> 0 <= t.2 <= CELLS ->
  exists f', (if t.2 / 80 >=? 24 then modify (fun s => set_crt (scroll (t.2 - 80) (crt s)) s) ;; ret (t.2 - 80) else ret t.2) s =
      ([], Ret (term_scroll t).2 (set_crt f' s)) /\ on_screen f' (term_scroll t).1 /\ (forall i, CELLS <= i -> f' i = crt s i).
Proof using Type.
  destruct t as [cells p]. unfold term_scroll. cbn [fst snd]. intros Hf Hp. destruct (Z.eqb_spec p CELLS) as [->|Hne]; cbn [fst snd].
  - exists (scroll (CELLS - 80) (crt s)). split; [done|]. split; [by apply scroll_screen|].
    intros i Hi. unfold scroll, CELLS in *. destruct (Z.ltb_spec i (24 * 80)); [lia|]. rewrite andb_false_r.
    destruct (Z.ltb_spec i (23 * 80)); [lia|]. by rewrite andb_false_r.
  - exists (crt s). split; [|done]. destruct (Z.geb_spec (p / 80) 24) as [Hge|]; [|by destruct s].
    unfold CELLS in *. pose proof (Z.div_lt_upper_bound p 80 24). lia.
Qed.

Lemma cgaputc_run c cells (s : cons H) :
  on_screen (crt s) cells -> p_cursor (face (chw s)) < CELLS ->
  let t := term_put c (cells, p_cursor (face (chw s))) in
  exists h' f', cgaputc c s = ([], Ret tt (with_out h' f' s)) /\ on_screen f' t.1 /\
    face h' = with_cursor t.2 (face (chw s)) /\ (forall i, CELLS <= i -> f' i = crt s i).
Proof.
  intros Hf Hc t. destruct (face_ok (chw s)) as [[Hc0 _] _]. set (p := p_cursor (face (chw s))) in *.
  assert (0 <= (cells, p).2 < CELLS) as Hp by done.
  pose proof (term_cell_range c (cells, p) Hp) as Hr1. pose proof (term_put_range c (cells, p) Hp) as Hr2. unfold cgaputc.
  destruct (get_cursor_run (chw s)) as (h1 & E1 & Hf1).
  rewrite (bind_nil _ _ _ p (lset ports h1 s)) by (unfold zoom; change (lget ports s) with (chw s); by rewrite E1).
  destruct (cga_cell c cells p (lset ports h1 s) Hf Hc0) as (f1 & E2 & Hs1 & Hfar).
  rewrite (bind_nil _ _ _ _ _ E2). set (t1 := term_cell c (cells, p)) in *. set (s1 := set_crt f1 (lset ports h1 s)).
  destruct (Z.ltb_spec t1.2 0); [lia|]. destruct (Z.gtb_spec t1.2 (25 * 80)); [unfold CELLS in *; lia|]. cbn [orb].
  destruct (cga_scroll t1 s1) as (f2 & E3 & Hs2 & Hfar2); [done|done|].
  rewrite (bind_nil _ _ _ _ _ E3). change (term_put c (cells, p)) with (<[Z.to_nat (term_scroll t1).2 := 0x0720]> (term_scroll t1).1, (term_scroll t1).2) in *.
  set (t2 := term_scroll t1) in *. cbn [snd] in Hr2.
  destruct (set_cursor_run h1 t2.2) as (h2 & E4 & Hf4); [unfold CELLS in *; lia|].
  rewrite (bind_nil _ _ _ tt (lset ports h2 (set_crt f2 s1))) by (unfold zoom; change (lget ports (set_crt f2 s1)) with h1; by rewrite E4).
  exists h2, (poke t2.2 0x0720 f2). split; [done|]. cbn [fst snd t].
  split; [apply poke_screen; [done|lia]|]. split; [by rewrite Hf4, Hf1|].
  intros i Hi. unfold poke. destruct (Z.eqb_spec i t2.2); [lia|]. transitivity (crt s1 i); [by apply Hfar2|].
  apply Hfar. unfold CELLS in *. lia.
Qed.

Lemma uart_wait_run n (h : H) : exists h', uart_wait n h = ([], Ret tt h') /\ face h' = face h.
Proof.
  revert h. induction n as [|n IH]; intros h; cbn [uart_wait]; [by exists h|].
  destruct (uart_status h) as (v & h1 & E & Hf & _). rewrite (bind_nil _ _ _ _ _ E).
  destruct (has v 0x20); [by exists h1|]. destruct (IH h1) as (h2 & E2 & Hf2). exists h2. split; [done|congruence].
Qed.

(** The bytes go out on the serial line, if there is one. *)
Definition sends (s : cons H) (l : list Z) (p : panel) : panel := if uart s then with_sent (p_sent p ++ l) p else p.

Lemma uartputc_run c (s : cons H) :
  exists h', uartputc c s = ([], Ret tt (with_out h' (crt s) s)) /\ face h' = sends s [u8 c] (face (chw s)).
Proof.
  unfold uartputc, sends. rewrite (bind_nil get _ s s s) by done. destruct (uart s) eqn:Eu; cbn [when].
  - destruct (uart_wait_run 128 (chw s)) as (h1 & E1 & Hf1).
    destruct (uart_send h1 (u8 c) (u8_range c)) as (h2 & E2 & Hf2). exists h2.
    split; [|by rewrite Hf2, Hf1]. unfold zoom. change (lget ports s) with (chw s). rewrite (bind_nil _ _ _ _ _ E1).
    change (COM1 + 0) with 0x3f8. rewrite E2. done.
  - exists (chw s). split; [|done]. destruct s; done.
Qed.

(** The serial bytes of a character. *)
Definition serial_bytes (c : Z) : list Z := if c =? BACKSPACE then [8; chr " "; 8] else [u8 c].

Lemma consputc_run c cells (s : cons H) :
  panicked s = false -> on_screen (crt s) cells -> p_cursor (face (chw s)) < CELLS ->
  let t := term_put c (cells, p_cursor (face (chw s))) in
  exists h' f', consputc c s = ([], Ret tt (with_out h' f' s)) /\ on_screen f' t.1 /\
    face h' = with_cursor t.2 (sends s (serial_bytes c) (face (chw s))) /\ (forall i, CELLS <= i -> f' i = crt s i).
Proof.
  intros Hp Hf Hc. unfold consputc. rewrite (bind_nil get _ s s s) by done. rewrite Hp.
  assert (exists h1, (if c =? BACKSPACE then uartputc 8 ;; uartputc (chr " ") ;; uartputc 8 else uartputc c) s =
      ([], Ret tt (with_out h1 (crt s) s)) /\ face h1 = sends s (serial_bytes c) (face (chw s))) as (h1 & E1 & Hf1).
  { unfold serial_bytes. destruct (c =? BACKSPACE); [|apply uartputc_run].
    destruct (uartputc_run 8 s) as (h1 & E1 & K1). rewrite (bind_nil _ _ _ _ _ E1).
    destruct (uartputc_run (chr " ") (with_out h1 (crt s) s)) as (h2 & E2 & K2). rewrite (bind_nil _ _ _ _ _ E2).
    destruct (uartputc_run 8 (with_out h2 (crt s) s)) as (h3 & E3 & K3). exists h3. split; [exact E3|].
    rewrite K3. cbn [chw with_out]. unfold sends in *. cbn [uart with_out] in *. rewrite K2. cbn [chw with_out].
    rewrite K1. destruct (uart s); [|done]. cbn [p_sent with_sent]. unfold with_sent. cbn. by rewrite <- !app_assoc. }
  rewrite (bind_nil _ _ _ _ _ E1).
  assert (p_cursor (face h1) = p_cursor (face (chw s))) as Ec by (rewrite Hf1; unfold sends; by destruct (uart s)).
  destruct (cgaputc_run c cells (with_out h1 (crt s) s)) as (h2 & f2 & E2 & Hs & Hf2 & Hfar); [done|cbn [chw with_out]; by rewrite Ec|].
  cbn [chw with_out crt] in *. rewrite Ec in *. exists h2, f2. split; [exact E2|]. split; [done|]. split; [by rewrite Hf2, Hf1|done].
Qed.

(** ** The abstract terminal *)

Record tty := mk_tty {
  t_cells : list Z;      (* the screen *)
  t_cursor : Z;
  t_sent : list Z;       (* bytes sent on the serial line *)
  t_ready : list Z;      (* finished lines that were not read yet *)
  t_line : list Z;       (* the line that is being edited *)
  t_serial : list Z;     (* bytes in the serial port *)
  t_keys : list Z;       (* bytes in the keyboard controller *)
  t_shift : Z            (* modifiers *)
}.

(** A character of output; [u] says whether there is a serial port. *)
Definition put (u : bool) (c : Z) (t : tty) : tty :=
  let d := term_put c (t_cells t, t_cursor t) in
  mk_tty d.1 d.2 (if u then t_sent t ++ serial_bytes c else t_sent t)
    (t_ready t) (t_line t) (t_serial t) (t_keys t) (t_shift t).

Definition put_all (u : bool) (l : list Z) (t : tty) : tty := foldl (fun t c => put u c t) t l.

(** The ring buffer: [ready] from [r] to [w], [line] from [w] to [e]. *)
Record holds (i : input) (ready line : list Z) : Prop := mk_holds {
  h_len : length (ibuf i) = Z.to_nat INPUT_BUF;
  h_r : 0 <= ir i < 2 ^ 32;
  h_w : iw i = u32 (ir i + Z.of_nat (length ready));
  h_e : ie i = u32 (ir i + Z.of_nat (length (ready ++ line)));
  h_room : (length (ready ++ line) <= Z.to_nat INPUT_BUF)%nat;
  h_bytes : forall k x, (ready ++ line) !! k = Some x -> peek (u32 (ir i + Z.of_nat k)) i = x
}.

Record shows (s : cons H) (t : tty) : Prop := mk_shows {
  w_panicked : panicked s = false;
  w_screen : on_screen (crt s) (t_cells t);
  w_cursor : t_cursor t < CELLS;
  w_face : face (chw s) = mk_panel (t_cursor t) (t_sent t) (t_serial t) (t_keys t);
  w_shift : shift s = t_shift t;
  w_input : holds (inp s) (t_ready t) (t_line t)
}.

(** The parts that output and input leave alone. *)
Definition kept (s s' : cons H) : Prop := uart s' = uart s /\ locking s' = locking s /\ clock s' = clock s.

Lemma kept_after_kept s1 s2 s3 : kept s1 s2 -> kept s2 s3 -> kept s1 s3.
Proof using Type. intros (A & B & D) (A' & B' & D'). split; [congruence|split; congruence]. Qed.

Lemma consputc_shows c (s : cons H) t :
  shows s t -> exists s', consputc c s = ([], Ret tt s') /\ shows s' (put (uart s) c t) /\ inp s' = inp s /\ kept s s'.
Proof.
  intros [K1 K3 K4 K5 K6 K7]. destruct (consputc_run c (t_cells t) s K1 K3) as (h' & f' & E & Hs & Hf & _).
  { by rewrite K5. }
  rewrite K5 in Hf, Hs. cbn [p_cursor] in *. exists (with_out h' f' s). split; [done|]. split; [|done].
  split; cbn [with_out panicked crt shift inp chw put t_cells t_cursor t_sent t_serial t_keys t_shift t_ready t_line]; try done.
  - pose proof (face_ok (chw s)) as [Hc _]. rewrite K5 in Hc. cbn in Hc. apply (term_put_range c (t_cells t, t_cursor t)). cbn [snd]. lia.
  - rewrite Hf. unfold sends. by destruct (uart s).
Qed.

(** ** The ring buffer *)

Lemma ring_inj r a b : 0 <= a < 2 ^ 32 -> 0 <= b < 2 ^ 32 -> u32 (r + a) = u32 (r + b) -> a = b.
Proof using Type. unfold u32. intros. Z.to_euclidean_division_equations; lia. Qed.

Lemma ring_sub r a : 0 <= a < 2 ^ 32 -> u32 (u32 (r + a) - r) = a.
Proof using Type. unfold u32. intros. Z.to_euclidean_division_equations; lia. Qed.

Lemma ring_add r a b : u32 (u32 (r + a) + b) = u32 (r + (a + b)).
Proof using Type. unfold u32. rewrite Zplus_mod_idemp_l. f_equal. lia. Qed.

(** Places less than 128 apart are different cells of the buffer. *)
Lemma ring_cell r a b :
  0 <= a < 128 -> 0 <= b < 128 -> u32 (r + a) `mod` INPUT_BUF = u32 (r + b) `mod` INPUT_BUF -> a = b.
Proof using Type. unfold u32, INPUT_BUF. intros. Z.to_euclidean_division_equations; lia. Qed.

Lemma peek_cell k i : length (ibuf i) = Z.to_nat INPUT_BUF -> ibuf i !! Z.to_nat (k `mod` INPUT_BUF) = Some (peek k i).
Proof using Type.
  intros Hl. unfold peek. rewrite byte_at_lookup. destruct (lookup_lt_is_Some_2 (ibuf i) (Z.to_nat (k `mod` INPUT_BUF))) as [x ->]; [|done].
  rewrite Hl. pose proof (Z.mod_pos_bound k INPUT_BUF). unfold INPUT_BUF in *. lia.
Qed.

Section Ring.
Variables (i : input) (ready line : list Z).
Hypothesis Hh : holds i ready line.

Lemma small : Z.of_nat (length (ready ++ line)) <= 128.
Proof using Hh. pose proof (h_room _ _ _ Hh). unfold INPUT_BUF in *. lia. Qed.

Lemma holds_size : u32 (ie i - ir i) = Z.of_nat (length (ready ++ line)).
Proof using Hh. rewrite (h_e _ _ _ Hh). apply ring_sub. pose proof small. lia. Qed.

Lemma holds_full : (ie i =? u32 (ir i + INPUT_BUF)) = (Z.of_nat (length (ready ++ line)) =? INPUT_BUF).
Proof using Hh.
  rewrite (h_e _ _ _ Hh). pose proof small. unfold INPUT_BUF. destruct (Z.eqb_spec (Z.of_nat (length (ready ++ line))) 128) as [->|Hne].
  - by rewrite Z.eqb_refl.
  - apply Z.eqb_neq. intros E. apply ring_inj in E; lia.
Qed.

Lemma holds_editing : (ie i =? iw i) = (length line =? 0)%nat.
Proof using Hh.
  rewrite (h_e _ _ _ Hh), (h_w _ _ _ Hh). pose proof small as Hs. rewrite length_app in *. destruct (Nat.eqb_spec (length line) 0) as [->|Hne].
  - rewrite Nat.add_0_r. apply Z.eqb_refl.
  - apply Z.eqb_neq. intros E. apply ring_inj in E; lia.
Qed.

Lemma holds_empty : (ir i =? iw i) = (length ready =? 0)%nat.
Proof using Hh.
  rewrite (h_w _ _ _ Hh). pose proof small as Hs. rewrite length_app in *. pose proof (h_r _ _ _ Hh).
  destruct (Nat.eqb_spec (length ready) 0) as [->|Hne].
  - rewrite Z.add_0_r, u32_small by done. apply Z.eqb_refl.
  - apply Z.eqb_neq. intros E. rewrite <- (u32_small (ir i)) in E at 1 by done. rewrite <- (Z.add_0_r (ir i)) in E at 1.
    apply ring_inj in E; lia.
Qed.

(** A character is added. *)
Lemma holds_put c : Z.of_nat (length (ready ++ line)) < INPUT_BUF -> holds (put_input c i) ready (line ++ [u8 c]).
Proof using Hh.
  intros Hroom. pose proof (h_len _ _ _ Hh) as Hl. pose proof (h_e _ _ _ Hh) as He. unfold INPUT_BUF in *.
  split; cbn [put_input ibuf ir iw ie].
  - by rewrite length_insert.
  - apply Hh.
  - apply Hh.
  - rewrite He, ring_add, !length_app. cbn [length]. f_equal. lia.
  - rewrite !length_app in *. cbn [length]. unfold INPUT_BUF. lia.
  - intros k x. rewrite app_assoc. intros [Hk|[Hk Hx]]%lookup_app_Some.
    + pose proof (lookup_lt_Some _ _ _ Hk) as Hlt. pose proof (h_bytes _ _ _ Hh k x Hk) as Hp. unfold peek in *.
      cbn [put_input ibuf]. rewrite byte_at_lookup in *. rewrite list_lookup_insert_ne; [done|]. rewrite He. intros E.
      apply Z2Nat.inj in E; [|unfold INPUT_BUF; apply Z.mod_pos_bound; lia..].
      apply (ring_cell (ir i)) in E; [lia|lia|lia].
    + assert (k = length (ready ++ line)) as -> by (apply lookup_lt_Some in Hx; cbn in Hx; lia).
      rewrite Nat.sub_diag in Hx. injection Hx as <-. unfold peek. cbn [put_input ibuf]. rewrite byte_at_lookup, He.
      rewrite list_lookup_insert_eq; [done|]. rewrite Hl. pose proof (Z.mod_pos_bound (u32 (ir i + Z.of_nat (length (ready ++ line)))) 128).
      unfold INPUT_BUF. lia.
Qed.

(** The line is finished. *)
Lemma holds_commit : holds (mk_input (ibuf i) (ir i) (ie i) (ie i)) (ready ++ line) [].
Proof using Hh. destruct Hh. split; rewrite ?app_nil_r; done. Qed.
End Ring.

(** The last character of the line. *)
Lemma holds_last i ready line c :
  holds i ready (line ++ [c]) -> peek (u32 (ie i - 1)) i = c /\ holds (set_ie (u32 (ie i - 1)) i) ready line.
Proof using Type.
  intros Hh. pose proof (small _ _ _ Hh) as Hs. pose proof (h_e _ _ _ Hh) as He.
  assert (u32 (ie i - 1) = u32 (ir i + Z.of_nat (length (ready ++ line)))) as E.
  { rewrite He. replace (u32 (ir i + Z.of_nat (length (ready ++ line ++ [c]))) - 1) with (u32 (ir i + Z.of_nat (length (ready ++ line ++ [c]))) + (-1)) by lia.
    rewrite ring_add. f_equal. rewrite !length_app. cbn [length]. lia. }
  rewrite E. split.
  - apply (h_bytes _ _ _ Hh). rewrite app_assoc, lookup_app_r, Nat.sub_diag by lia. done.
  - destruct Hh as [A1 A2 A3 A4 A5 A6]. split; cbn [set_ie ibuf ir iw ie]; try done.
    + rewrite !length_app in *. cbn [length] in *. lia.
    + intros k x Hk. apply A6. rewrite app_assoc. by apply lookup_app_l_Some.
Qed.

(** The first character that was not read. *)
Lemma holds_first i c ready line :
  holds i (c :: ready) line -> peek (ir i) i = c /\ holds (set_ir (u32 (ir i + 1)) i) ready line.
Proof using Type.
  intros Hh. destruct Hh as [A1 A2 A3 A4 A5 A6]. split.
  - rewrite <- (u32_small (ir i)) by done. rewrite <- (Z.add_0_r (ir i)). by apply (A6 0%nat).
  - split; cbn [set_ir ibuf ir iw ie]; try done.
    + apply u32_range.
    + rewrite A3, u32_add_u32. f_equal. cbn [length]. lia.
    + rewrite A4, u32_add_u32. f_equal. cbn [length app]. lia.
    + cbn [length app] in *. lia.
    + intros k x Hk. specialize (A6 (S k) x Hk). rewrite <- A6.
      replace (u32 (u32 (ir i + 1) + Z.of_nat k)) with (u32 (ir i + Z.of_nat (S k))) by (rewrite u32_add_u32; f_equal; lia).
      done.
Qed.

(** ** Editing a line *)

Definition with_lines (ready line : list Z) (t : tty) : tty :=
  mk_tty (t_cells t) (t_cursor t) (t_sent t) ready line (t_serial t) (t_keys t) (t_shift t).

(** A character from a device: erase the line, erase a character, or add one and
    finish the line at its end, at the end of the file, or when the buffer is full. *)
Definition typed (u : bool) (c : Z) (t : tty) : tty * list event :=
  let ready := t_ready t in
  let line := t_line t in
  if c =? C "P" then (t, [])
  else if c =? C "U" then (with_lines ready [] (put_all u (repeat BACKSPACE (length line)) t), [])
  else if (c =? C "H") || (c =? 0x7f) then
    match line with
    | [] => (t, [])
    | _ => (with_lines ready (removelast line) (put u BACKSPACE t), [])
    end
  else if (c =? 0) || (Z.of_nat (length (ready ++ line)) =? INPUT_BUF) then (t, [])
  else
    let c := if c =? 13 then 10 else c in
    let line := line ++ [c] in
    if (c =? 10) || (c =? C "D") || (Z.of_nat (length (ready ++ line)) =? INPUT_BUF)
    then (with_lines (ready ++ line) [] (put u c t), [EvWakeup ChInput])
    else (with_lines ready line (put u c t), []).

Lemma shows_inp (s : cons H) t i ready line :
  shows s t -> holds i ready line -> shows (set_inp i s) (with_lines ready line t).
Proof using Type. intros [] Hi. by split. Qed.

Lemma shows_lines (s : cons H) t : shows s t -> shows s (with_lines (t_ready t) (t_line t) t).
Proof using Type. by destruct t. Qed.

(** A character that leaves the screen and changes the buffer. *)
Lemma echo_shows c i ready line (s : cons H) t :
  shows s t -> holds i ready line ->
  exists s', (upd_inp (fun _ => i) ;; consputc c) s = ([], Ret tt s') /\ shows s' (with_lines ready line (put (uart s) c t)) /\
    inp s' = i /\ kept s s'.
Proof.
  intros Hs Hi. unfold upd_inp. rewrite (bind_nil (modify _) _ s tt (set_inp i s)) by done.
  apply (consputc_shows c _ _ (shows_inp s t i ready line Hs Hi)).
Qed.

(** Output does not look at the lines. *)
Lemma lines_put_all u l t r x r' x' :
  with_lines r x (put_all u l (with_lines r' x' t)) = with_lines r x (put_all u l t).
Proof using Type.
  revert t. induction l as [|c l IH]; intros t; [done|]. unfold put_all. cbn [foldl]. exact (IH (put u c t)).
Qed.

Lemma kill_line_shows fuel (s : cons H) t :
  shows s t -> 10 ∉ t_line t -> (length (t_line t) < fuel)%nat ->
  exists s', kill_line fuel s = ([], Ret tt s') /\
    shows s' (with_lines (t_ready t) [] (put_all (uart s) (repeat BACKSPACE (length (t_line t))) t)) /\
    kept s s'.
Proof.
  remember (t_line t) as line eqn:El. revert fuel s t El. induction line as [|c line IH] using rev_ind; intros fuel s t El Hs Hn Hf;
    (destruct fuel as [|fuel]; [lia|]); cbn [kill_line]; rewrite (bind_nil get _ s s s) by done.
  - exists s. rewrite (holds_editing _ _ _ (w_input _ _ Hs)), <- El. split; [done|]. split; [|done].
    cbn [length repeat]. rewrite El at 1. by apply shows_lines.
  - pose proof (w_input _ _ Hs) as Hi. rewrite <- El in Hi.
    destruct (holds_last _ _ _ _ Hi) as [Hp Hi']. rewrite (holds_editing _ _ _ Hi), length_app.
    destruct (Nat.eqb_spec (length line + length [c]) 0) as [E|_]; [cbn in E; lia|].
    rewrite Hp. assert (c <> 10 /\ 10 ∉ line) as [Hc Hn'].
    { split; [intros ->|intros Hin]; apply Hn, elem_of_app; [right; by apply list_elem_of_singleton|by left]. }
    destruct (Z.eqb_spec c 10); [done|]. cbn [negb andb].
    destruct (echo_shows BACKSPACE _ (t_ready t) line s t Hs Hi') as (s1 & E1 & Hs1 & _ & Hk1).
    rewrite <- bind_assoc. rewrite (bind_nil _ _ s tt s1) by exact E1.
    destruct (IH fuel s1 (with_lines (t_ready t) line (put (uart s) BACKSPACE t)) eq_refl Hs1 Hn') as (s2 & E2 & Hs2 & Hk2); [rewrite length_app in Hf; cbn in Hf; lia|].
    exists s2. split; [exact E2|]. split; [|by apply (kept_after_kept s s1 s2)].
    replace (length line + length [c])%nat with (S (length line)) by (cbn; lia). cbn [repeat]. unfold put_all. cbn [foldl].
    rewrite (proj1 Hk1), lines_put_all in Hs2. exact Hs2.
Qed.

Lemma typed_no_newline u c t : 10 ∉ t_line t -> 10 ∉ t_line (typed u c t).1.
Proof using Type.
  intros Hn. unfold typed. destruct (c =? C "P"); [done|]. destruct (c =? C "U"); [apply not_elem_of_nil|].
  destruct ((c =? C "H") || (c =? 0x7f)).
  { destruct (t_line t) as [|a l] eqn:El using rev_ind; [cbn [fst]; by rewrite El|]. clear IHl.
    assert (forall A (x y : A), match l ++ [a] with [] => x | _ :: _ => y end = y) as E by (intros A x y; by destruct l).
    rewrite E. cbn [fst t_line with_lines]. rewrite removelast_last. intros Hin. apply Hn, elem_of_app. by left. }
  destruct ((c =? 0) || _); [done|]. set (c' := if c =? 13 then 10 else c).
  destruct (Z.eqb_spec c' 10) as [E|E]; cbn [orb]; [apply not_elem_of_nil|].
  destruct ((c' =? C "D") || _); [apply not_elem_of_nil|]. cbn [fst t_line with_lines].
  intros [Hin|Hin%list_elem_of_singleton]%elem_of_app; [done|congruence].
Qed.

(** A character that is added to the line. *)
Lemma add_char_shows c (s : cons H) t :
  shows s t -> 0 <= c < 256 -> Z.of_nat (length (t_ready t ++ t_line t)) < INPUT_BUF ->
  let line := t_line t ++ [c] in
  let ends := (c =? 10) || (c =? C "D") || (Z.of_nat (length (t_ready t ++ line)) =? INPUT_BUF) in
  exists s', (upd_inp (put_input c) ;;
       consputc c ;;
       let* s := get in
       let i := inp s in
       when ((c =? 10) || (c =? C "D") || (ie i =? u32 (ir i + INPUT_BUF)))
         (upd_inp (fun i => mk_input (ibuf i) (ir i) (ie i) (ie i)) ;; wakeup ChInput)) s =
      (if ends then [EvWakeup ChInput] else [], Ret tt s') /\
    shows s' (if ends then with_lines (t_ready t ++ line) [] (put (uart s) c t) else with_lines (t_ready t) line (put (uart s) c t)) /\
    kept s s'.
Proof.
  intros Hs Hc Hroom line ends. pose proof (holds_put _ _ _ (w_input _ _ Hs) c Hroom) as Hi1.
  replace (u8 c) with c in Hi1 by (symmetry; by apply Z.mod_small). fold line in Hi1.
  destruct (echo_shows c _ (t_ready t) line s t Hs Hi1) as (s1 & E1 & Hs1 & Ei1 & Hk1).
  rewrite <- bind_assoc. rewrite (bind_nil _ _ s tt s1) by exact E1. rewrite (bind_nil get _ s1 s1 s1) by done.
  pose proof (w_input _ _ Hs1) as Hi2. cbn [t_ready t_line with_lines] in Hi2. cbv zeta.
  rewrite (holds_full _ _ _ Hi2). fold ends. destruct ends; cbn [when].
  - eexists. split; [reflexivity|]. split; [|exact Hk1].
    pose proof (shows_inp s1 _ _ _ _ Hs1 (holds_commit _ _ _ Hi2)) as K. exact K.
  - exists s1. done.
Qed.

Lemma console_char_shows c (s : cons H) t :
  shows s t -> 10 ∉ t_line t -> 0 <= c < 256 ->
  exists s', console_char c s = ((typed (uart s) c t).2, Ret (c =? C "P") s') /\ shows s' (typed (uart s) c t).1 /\
    kept s s'.
Proof.
  intros Hs Hn Hc. pose proof (w_input _ _ Hs) as Hi. pose proof (small _ _ _ Hi) as Hsm.
  unfold console_char, typed. destruct (c =? C "P"); [by exists s|]. destruct (c =? C "U").
  { destruct (kill_line_shows (S (Z.to_nat INPUT_BUF)) s t Hs Hn) as (s' & E & Hs' & Hk).
    - rewrite length_app in Hsm. unfold INPUT_BUF. lia.
    - exists s'. rewrite (bind_nil _ _ _ _ _ E). done. }
  destruct ((c =? C "H") || (c =? 0x7f)).
  { rewrite (bind_nil get _ s s s) by done. rewrite (holds_editing _ _ _ Hi).
    destruct (t_line t) as [|a l] eqn:El using rev_ind; [by exists s|]. clear IHl.
    replace (length (l ++ [a]) =? 0)%nat with false by (symmetry; apply Nat.eqb_neq; rewrite length_app; cbn; lia).
    destruct (holds_last _ _ _ _ Hi) as [_ Hi']. cbn [negb when].
    destruct (echo_shows BACKSPACE _ (t_ready t) l s t Hs Hi') as (s1 & E1 & Hs1 & _ & Hk1).
    exists s1. rewrite (bind_nil _ _ s tt s1) by exact E1. rewrite removelast_last.
    assert (forall A (x y : A), match l ++ [a] with [] => x | _ :: _ => y end = y) as E by (intros A x y; by destruct l).
    rewrite !E. done. }
  rewrite (bind_nil get _ s s s) by done. rewrite (holds_size _ _ _ Hi).
  assert (negb (c =? 0) && (Z.of_nat (length (t_ready t ++ t_line t)) <? INPUT_BUF) =
    negb ((c =? 0) || (Z.of_nat (length (t_ready t ++ t_line t)) =? INPUT_BUF))) as ->.
  { rewrite negb_orb. f_equal. unfold INPUT_BUF. zcase; done. }
  destruct ((c =? 0) || (Z.of_nat (length (t_ready t ++ t_line t)) =? INPUT_BUF)) eqn:Efull; cbn [negb when]; [by exists s|].
  apply orb_false_iff in Efull as [_ Hroom%Z.eqb_neq].
  destruct (add_char_shows (if c =? 13 then 10 else c) s t Hs) as (s' & E & Hs' & Hk);
    [destruct (c =? 13); lia|unfold INPUT_BUF in *; lia|].
  exists s'. cbv zeta in E, Hs' |- *. unfold bind at 1. rewrite E. cbn [ret].
  destruct (_ || _ || _); cbn [fst snd app]; done.
Qed.

(** ** Interrupts *)

Definition well (t : tty) : Prop := (10 ∉ t_line t) /\ 0 <= t_shift t < 128.

(** The next character of the serial port and of the keyboard, and what is left. *)
Definition next_serial (u : bool) (t : tty) : option (Z * tty) :=
  match t_serial t with
  | c :: r =>
      if u then Some (c, mk_tty (t_cells t) (t_cursor t) (t_sent t) (t_ready t) (t_line t) r (t_keys t) (t_shift t)) else None
  | [] => None
  end.

Definition next_key (u : bool) (t : tty) : option (Z * tty) :=
  match t_keys t with
  | k :: r =>
      x ← kbd_byte (t_shift t) k;
      Some (x.2, mk_tty (t_cells t) (t_cursor t) (t_sent t) (t_ready t) (t_line t) (t_serial t) r x.1)
  | [] => None
  end.

(** All characters of a device; the result says whether a process listing was asked for. *)
Fixpoint drain (u : bool) (next : bool -> tty -> option (Z * tty)) (fuel : nat) (t : tty) : tty * list event * bool :=
  match fuel with
  | O => (t, [], false)
  | S k =>
      match next u t with
      | None => (t, [], false)
      | Some (c, t1) =>
          let r := typed u c t1 in
          let d := drain u next k r.1 in
          (d.1.1, r.2 ++ d.1.2, (c =? C "P") || d.2)
      end
  end.

(** [getc] delivers what [next] says, and [size] counts what is left. *)
Record source (getc : M (cons H) Z) (next : bool -> tty -> option (Z * tty)) (size : tty -> nat) : Prop := mk_source {
  src_get : forall s t, shows s t -> well t ->
    exists s', getc s = ([], Ret (match next (uart s) t with Some (c, _) => c | None => -1 end) s') /\
      shows s' (match next (uart s) t with Some (_, t') => t' | None => t end) /\ kept s s';
  src_next : forall u s t c t', shows s t -> well t -> next u t = Some (c, t') ->
    0 <= c < 256 /\ well t' /\ (size t' < size t)%nat /\ forall t2, t_serial t2 = t_serial t' -> t_keys t2 = t_keys t' -> size t2 = size t'
}.

Lemma typed_devices u c t : t_serial (typed u c t).1 = t_serial t /\ t_keys (typed u c t).1 = t_keys t /\ t_shift (typed u c t).1 = t_shift t.
Proof using Type.
  assert (forall l t, t_serial (put_all u l t) = t_serial t /\ t_keys (put_all u l t) = t_keys t /\ t_shift (put_all u l t) = t_shift t) as Hp.
  { intros l. induction l as [|x l IH]; intros t'; [done|]. apply (IH (put u x t')). }
  unfold typed. destruct (c =? C "P"); [done|]. destruct (c =? C "U"); [apply Hp|].
  destruct ((c =? C "H") || (c =? 0x7f)); [by destruct (t_line t)|]. destruct ((c =? 0) || _); [done|]. by destruct (_ || _ || _).
Qed.

Lemma consoleintr_loop_shows getc next size fuel dump (s : cons H) t :
  source getc next size -> shows s t -> well t -> (size t < fuel)%nat ->
  let d := drain (uart s) next fuel t in
  exists s', consoleintr_loop fuel getc dump s = (d.1.2, Ret (dump || d.2) s') /\ shows s' d.1.1 /\ well d.1.1 /\ kept s s'.
Proof.
  intros Hsrc. revert s t dump. induction fuel as [|fuel IH]; intros s t dump Hs Hw Hf; [lia|]. cbn [consoleintr_loop drain].
  destruct (src_get _ _ _ Hsrc s t Hs Hw) as (s1 & E1 & Hs1 & Hk1). rewrite (bind_nil _ _ _ _ _ E1).
  destruct (next (uart s) t) as [[c t1]|] eqn:En.
  2: { exists s1. cbn [Z.geb Z.compare]. split; [by rewrite orb_false_r|]. done. }
  destruct (src_next _ _ _ Hsrc _ _ _ _ _ Hs Hw En) as (Hc & Hw1 & Hlt & Hsize).
  destruct (Z.geb_spec c 0); [|lia].
  destruct (console_char_shows c s1 t1 Hs1 (proj1 Hw1) Hc) as (s2 & E2 & Hs2 & Hk2).
  rewrite (proj1 Hk1) in *. pose proof (typed_devices (uart s) c t1) as (D1 & D2 & D3).
  destruct (IH s2 (typed (uart s) c t1).1 (dump || (c =? C "P")) Hs2) as (s3 & E3 & Hs3 & Hw3 & Hk3).
  - split; [by apply typed_no_newline, Hw1|]. rewrite D3. apply Hw1.
  - rewrite (Hsize _ D1 D2). lia.
  - assert (uart s2 = uart s) as Eu by (rewrite (proj1 Hk2); apply Hk1). rewrite Eu in *.
    exists s3. cbn [fst snd]. split; [|split; [done|split; [done|]]].
    + unfold bind. rewrite E2, E3. by rewrite orb_assoc.
    + by apply (kept_after_kept s s1 s3); [|apply (kept_after_kept s1 s2 s3)].
Qed.

Lemma serial_source : source uartgetc next_serial (fun t => length (t_serial t)).
Proof.
  split.
  - intros s t Hs Hw. unfold uartgetc, next_serial. rewrite (bind_nil get _ s s s) by done.
    destruct (uart s) eqn:Eu; cbn [negb].
    2: { exists s. by destruct (t_serial t). }
    destruct (uart_status (chw s)) as (v & h1 & E1 & Hf1 & Hv).
    rewrite (bind_nil _ _ _ v (lset ports h1 s)) by (unfold zoom; change (lget ports s) with (chw s); change (COM1 + 5) with 0x3fd; by rewrite E1).
    rewrite Hv, (w_face _ _ Hs). cbn [p_serial]. destruct (t_serial t) as [|c r] eqn:Et; cbn [waiting negb].
    + exists (lset ports h1 s). split; [done|]. split; [|done]. destruct Hs. split; try done. cbn. by rewrite Hf1.
    + destruct (uart_receive h1 c r) as (h2 & E2 & Hf2); [by rewrite Hf1, (w_face _ _ Hs)|].
      exists (lset ports h2 s). split; [unfold zoom; change (lget ports (lset ports h1 s)) with h1; change (COM1 + 0) with 0x3f8; by rewrite E2|].
      split; [|done]. destruct Hs as [K1 K2 K3 K4 K5 K6]. split; try done. cbn. by rewrite Hf2, Hf1, K4.
  - intros u s t c t' Hs Hw. unfold next_serial. destruct (t_serial t) as [|x r] eqn:Et; [done|]. destruct u; [|done].
    intros [= -> <-]. cbn [t_serial t_keys]. pose proof (face_ok (chw s)) as (_ & Hb & _). rewrite (w_face _ _ Hs) in Hb. cbn in Hb.
    rewrite Et in Hb. apply Forall_cons in Hb as [Hc _]. split; [done|]. split; [exact Hw|]. split; [cbn; lia|]. intros t2 -> _. done.
Qed.

Lemma kbd_source : source (zoom keyboard kbdgetc) next_key (fun t => length (t_keys t)).
Proof.
  split.
  - intros s t Hs Hw. unfold next_key, zoom. change (lget keyboard s) with (shift s, chw s). unfold kbdgetc.
    destruct (kbd_status (chw s)) as (v & h1 & E1 & Hf1 & Hv).
    rewrite (bind_nil _ _ _ v (shift s, h1)) by (unfold zoom; change (lget kports (shift s, chw s)) with (chw s); change KBSTATP with 0x64; by rewrite E1).
    unfold has in Hv. change KBS_DIB with 1. rewrite <- (negb_involutive (Z.land v 1 =? 0)), Hv, (w_face _ _ Hs). cbn [p_keys].
    destruct (t_keys t) as [|k r] eqn:Et; cbn [waiting negb].
    + exists (lset keyboard (shift s, h1) s). split; [done|]. split; [|done]. destruct Hs. split; try done. cbn. by rewrite Hf1.
    + destruct (kbd_data h1 k r) as (h2 & E2 & Hf2); [by rewrite Hf1, (w_face _ _ Hs)|].
      rewrite (bind_nil _ _ _ k (shift s, h2)) by (unfold zoom; change (lget kports (shift s, h1)) with h1; change KBDATAP with 0x60; by rewrite E2).
      rewrite (bind_nil get _ _ (shift s, h2) (shift s, h2)) by done. cbn [fst]. rewrite (w_shift _ _ Hs).
      pose proof (face_ok (chw s)) as (_ & _ & Hb). rewrite (w_face _ _ Hs) in Hb. cbn in Hb. rewrite Et in Hb. apply Forall_cons in Hb as [Hc _].
      pose proof (kbd_byte_range (t_shift t) k (proj2 Hw) Hc) as Hr. destruct (kbd_byte (t_shift t) k) as [[sh c]|]; [|done].
      eexists. split; [reflexivity|]. split; [|done]. cbn [mbind option_bind fst snd].
      destruct Hs as [K1 K2 K3 K4 K5 K6]. split; try done. cbn. by rewrite Hf2, Hf1, K4.
  - intros u s t c t' Hs Hw. unfold next_key. destruct (t_keys t) as [|k r] eqn:Et; [done|].
    pose proof (face_ok (chw s)) as (_ & _ & Hb). rewrite (w_face _ _ Hs) in Hb. cbn in Hb. rewrite Et in Hb. apply Forall_cons in Hb as [Hc _].
    pose proof (kbd_byte_range (t_shift t) k (proj2 Hw) Hc) as Hr. destruct (kbd_byte (t_shift t) k) as [[sh x]|]; [|done].
    cbn [mbind option_bind fst snd]. intros [= -> <-]. cbn [t_serial t_keys]. unfold in_range in Hr.
    split; [lia|]. split; [split; [apply Hw|cbn; lia]|]. split; [cbn; lia|]. intros t2 _ ->. done.
Qed.

(** ** Reading and writing *)

(** At most [n] bytes of the finished lines, up to the end of a line; the mark for the
    end of the file is taken if nothing comes before it, and left for the next reader
    otherwise.  The last part says whether the reader has what it wants. *)
Fixpoint read_ready (n : nat) (first : bool) (ready : list Z) : list Z * list Z * bool :=
  match n, ready with
  | O, _ => ([], ready, true)
  | S _, [] => ([], [], false)
  | S k, c :: r =>
      if c =? C "D" then ([], if first then r else c :: r, true)
      else if c =? 10 then ([c], r, true)
      else let x := read_ready k false r in (c :: x.1.1, x.1.2, x.2)
  end.

Definition with_ready (ready : list Z) (t : tty) : tty := with_lines ready (t_line t) t.

(** What a turn of a reader with [got] bytes returns. *)
Definition read_result (killed : bool) (got : list Z) (x : list Z * list Z * bool) : cres :=
  let got := got ++ x.1.1 in
  if x.2 then CRet (Z.of_nat (length got)) got else if killed then CRet (-1) got else CSleep got.

Definition unlocked (s s' : cons H) : Prop := uart s' = uart s /\ locking s' = locking s /\ clock s' = false.

Lemma release_shows (s : cons H) t : shows s t -> shows (lset cons_lock false s) t.
Proof using Type. intros []. by split. Qed.

Lemma release_run (s : cons H) : clock s = true -> release cons_lock s = ([], Ret tt (lset cons_lock false s)).
Proof using Type. intros Hc. unfold release. cbn. by rewrite Hc. Qed.

Lemma consoleread_loop_shows killed n got (s : cons H) t :
  shows s t -> clock s = true ->
  let x := read_ready n (length got =? 0)%nat (t_ready t) in
  exists s', consoleread_loop killed (Z.of_nat (length got + n)) n got s = ([], Ret (read_result killed got x) s') /\
    shows s' (with_ready x.1.2 t) /\ unlocked s s'.
Proof using Type.
  unfold read_result. revert got s t. induction n as [|n IH]; intros got s t Hs Hl; cbn [consoleread_loop read_ready fst snd].
  { exists (lset cons_lock false s). rewrite (bind_nil _ _ _ _ _ (release_run s Hl)), app_nil_r, Nat.add_0_r, Z.sub_0_r.
    split; [done|]. split; [|done]. by apply release_shows, shows_lines. }
  rewrite (bind_nil get _ s s s) by done. cbv zeta. rewrite (holds_empty _ _ _ (w_input _ _ Hs)).
  destruct (t_ready t) as [|c r] eqn:Er; cbn [length Nat.eqb fst snd].
  { exists (lset cons_lock false s). rewrite app_nil_r.
    split; [destruct killed; rewrite (bind_nil _ _ _ _ _ (release_run s Hl)); done|].
    split; [|done]. unfold with_ready. rewrite <- Er. by apply release_shows, shows_lines. }
  pose proof (w_input _ _ Hs) as Hi. rewrite Er in Hi. destruct (holds_first _ _ _ _ Hi) as [Hp Hi1]. rewrite Hp.
  unfold upd_inp at 1. rewrite (bind_nil (modify _) _ s tt _ eq_refl).
  set (s1 := set_inp (set_ir (u32 (ir (inp s) + 1)) (inp s)) s).
  assert (shows s1 (with_ready r t)) as Hs1 by (by apply shows_inp). assert (clock s1 = true) as Hl1 by done.
  destruct (c =? C "D"); cbn [fst snd].
  { replace (Z.of_nat (S n) <? Z.of_nat (length got + S n)) with (negb (length got =? 0)%nat)
      by (destruct (Nat.eqb_spec (length got) 0), (Z.ltb_spec (Z.of_nat (S n)) (Z.of_nat (length got + S n))); (done || lia)).
    replace (Z.of_nat (length got + S n) - Z.of_nat (S n)) with (Z.of_nat (length got)) by lia. rewrite app_nil_r.
    destruct (length got =? 0)%nat; cbn [negb when].
    - exists (lset cons_lock false s1). rewrite (bind_nil (ret tt) _ s1 tt s1) by done.
      rewrite (bind_nil _ _ _ _ _ (release_run s1 Hl1)). split; [done|]. split; [by apply release_shows|done].
    - exists (lset cons_lock false s). unfold upd_inp. rewrite (bind_nil (modify _) _ s1 tt s) by (destruct s as [? ? ? ? ? ? [? ? ? ?] ?]; done).
      rewrite (bind_nil _ _ _ _ _ (release_run s Hl)). split; [done|]. split; [|done].
      apply release_shows. unfold with_ready. rewrite <- Er. by apply shows_lines. }
  destruct (c =? 10); cbn [fst snd].
  { exists (lset cons_lock false s1). rewrite (bind_nil _ _ _ _ _ (release_run s1 Hl1)). rewrite length_app. cbn [length].
    replace (Z.of_nat (length got + S n) - Z.of_nat n) with (Z.of_nat (length got + 1)) by lia.
    split; [done|]. split; [by apply release_shows|done]. }
  destruct (IH (got ++ [c]) s1 (with_ready r t) Hs1 Hl1) as (s2 & E2 & Hs2 & Hu2).
  rewrite length_app in E2, Hs2. cbn [length t_ready with_ready with_lines] in E2, Hs2.
  replace (length got + 1 + n)%nat with (length got + S n)%nat in E2 by lia.
  replace (length got + 1 =? 0)%nat with false in E2, Hs2 by (symmetry; apply Nat.eqb_neq; lia).
  exists s2. rewrite <- app_assoc in E2. cbn [app] in E2. done.
Qed.

Lemma print_shows (f : Z -> Z) l (s : cons H) t :
  shows s t -> (forall c, c ∈ l -> f c = c) ->
  exists s', for_all l (fun c => consputc (f c)) s = ([], Ret tt s') /\ shows s' (put_all (uart s) l t) /\ kept s s'.
Proof.
  revert s t. induction l as [|c l IH]; intros s t Hs Hl; cbn [for_all]; [by exists s|].
  rewrite (Hl c) by (by left). destruct (consputc_shows c s t Hs) as (s1 & E1 & Hs1 & _ & Hk1). rewrite (bind_nil _ _ _ _ _ E1).
  destruct (IH s1 _ Hs1) as (s2 & E2 & Hs2 & Hk2); [intros x Hx; apply Hl; by right|]. rewrite (proj1 Hk1) in Hs2. exists s2.
  split; [exact E2|]. split; [done|]. by apply (kept_after_kept s s1 s2).
Qed.

Lemma put_all_well u l t : well t -> well (put_all u l t).
Proof using Type. revert t. induction l as [|c l IH]; intros t Hw; [done|]. apply (IH (put u c t)). exact Hw. Qed.

Lemma acquire_run (s : cons H) : clock s = false -> acquire cons_lock s = ([], Ret tt (lset cons_lock true s)).
Proof using Type. intros Hc. unfold acquire. cbn. by rewrite Hc. Qed.

Lemma acquire_shows (s : cons H) t : shows s t -> shows (lset cons_lock true s) t.
Proof using Type. intros []. by split. Qed.

(** ** Formatted output *)

(** A negative [char] is printed as its byte. *)
Lemma consputc_s8 c (s : cons H) : 0 <= c < 256 -> consputc (s8 c) s = consputc c s.
Proof using Type.
  intros Hc. unfold s8, u8. rewrite Z.mod_small by lia. destruct (Z.ltb_spec c 128); [done|].
  assert (forall s : cons H, uartputc (c - 256) s = uartputc c s) as E1.
  { intros s'. unfold uartputc, u8. by rewrite <- (Z.mod_add (c - 256) 1 256), Z.mul_1_l, Z.sub_add by lia. }
  unfold consputc, BACKSPACE, bind. destruct (get s) as [e [s0 s1| | | |]]; try done. destruct (panicked s0); [done|].
  destruct (Z.eqb_spec (c - 256) 256); [lia|]. destruct (Z.eqb_spec c 256); [lia|]. rewrite E1.
  destruct (uartputc c s1) as [e1 [[] s2| | | |]]; try done.
  assert (cgaputc (c - 256) s2 = cgaputc c s2) as ->; [|done]. unfold cgaputc, BACKSPACE.
  destruct (Z.eqb_spec (c - 256) 10); [lia|]. destruct (Z.eqb_spec c 10); [lia|].
  destruct (Z.eqb_spec (c - 256) 256); [lia|]. destruct (Z.eqb_spec c 256); [lia|].
  change 255 with (Z.ones 8). rewrite !Z.land_ones by lia. change (2 ^ 8) with 256.
  by rewrite <- (Z.mod_add (c - 256) 1 256), Z.mul_1_l, Z.sub_add by lia.
Qed.

(** [cprintf] puts the text of its format on the terminal. *)
Lemma cprintf_shows str_at fmt args text (s : cons H) t :
  (forall p, bytes_ok (str_at p)) -> render str_at lower false fmt args = Some text ->
  shows s t -> (locking s = true -> clock s = false) ->
  exists s', cprintf str_at (Some fmt) args s = ([], Ret tt s') /\ shows s' (put_all (uart s) text t) /\ kept s s'.
Proof.
  intros Hstr Ht Hs Hl. unfold cprintf. rewrite (bind_nil get _ s s s) by done.
  assert (forall c, 0 <= c < 256 -> forall s : cons H, consputc (s8 c) s = consputc c s) as Hout by (intros; by apply consputc_s8).
  destruct (locking s) eqn:El; cbn [when].
  - rewrite (bind_nil _ _ _ _ _ (acquire_run s (Hl eq_refl))).
    destruct (print_shows id text (lset cons_lock true s) t (acquire_shows s t Hs)) as (s1 & E1 & Hs1 & Hu1 & Hg1 & Hc1); [done|].
    rewrite (bind_nil _ _ _ tt s1) by (rewrite (cprintf_render str_at Hstr consputc fmt args text) by done; exact E1).
    exists (lset cons_lock false s1). rewrite (release_run s1 Hc1). split; [done|]. split; [by apply release_shows|].
    split; [exact Hu1|]. split; [exact Hg1|]. cbn. by rewrite (Hl eq_refl).
  - rewrite (bind_nil (ret tt) _ s tt s) by done.
    destruct (print_shows id text s t Hs) as (s1 & E1 & Hs1 & Hk1); [done|].
    rewrite (bind_nil _ _ _ tt s1) by (rewrite (cprintf_render str_at Hstr consputc fmt args text) by done; exact E1).
    exists s1. done.
Qed.

(** ** The console as a whole *)

(** [m] puts a text on the terminal, taking the lock itself. *)
Definition prints (m : M (cons H) unit) (text : list Z) : Prop :=
  forall s t, shows s t -> clock s = false ->
    exists s', m s = ([], Ret tt s') /\ shows s' (put_all (uart s) text t) /\ kept s s'.

(** [procdump] of proc.c prints a listing. *)
Variables (procdump : M (cons H) unit) (dump : list Z).
Hypothesis procdump_prints : prints procdump dump.

(** What happens to the console: bytes arrive at the devices, the interrupt handlers
    run, a process reads or, woken up with [got] bytes, goes on reading, and writes. *)
Inductive cop :=
  | Arrive (l : list Z)
  | Strike (l : list Z)
  | SerialIntr
  | KbdIntr
  | Read (killed : bool) (n : Z) (got : list Z)
  | Write (buf : list Z) (n : Z).

Definition ended {A} (f : A -> option cres) (r : list event * res (cons H) A) : option (list event * option cres * cons H) :=
  match r with (ev, Ret a s) => Some (ev, f a, s) | _ => None end.

Definition console_op (o : cop) (s : cons H) : option (list event * option cres * cons H) :=
  match o with
  | Arrive l => Some ([], None, lset ports (arrive_serial l (chw s)) s)
  | Strike l => Some ([], None, lset ports (arrive_keys l (chw s)) s)
  | SerialIntr => ended (fun _ => None) (uartintr (S (length (p_serial (face (chw s))))) procdump s)
  | KbdIntr => ended (fun _ => None) (kbdintr (S (length (p_keys (face (chw s))))) procdump s)
  | Read killed n got => ended Some (consoleread killed n got s)
  | Write buf n => ended (fun r => Some (CRet r [])) (consolewrite buf n s)
  end.

Definition is_byte (c : Z) : bool := (0 <=? c) && (c <? 256).

(** The abstract terminal; [u] says whether there is a serial port. *)
Definition tty_op (u : bool) (o : cop) (t : tty) : option (list event * option cres * tty) :=
  let intr next n :=
    let d := drain u next n t in
    Some (d.1.2, None, if d.2 then put_all u dump d.1.1 else d.1.1) in
  match o with
  | Arrive l =>
      if forallb is_byte l then Some ([], None, mk_tty (t_cells t) (t_cursor t) (t_sent t) (t_ready t) (t_line t) (t_serial t ++ l) (t_keys t) (t_shift t))
      else None
  | Strike l =>
      if forallb is_byte l then Some ([], None, mk_tty (t_cells t) (t_cursor t) (t_sent t) (t_ready t) (t_line t) (t_serial t) (t_keys t ++ l) (t_shift t))
      else None
  | SerialIntr => intr next_serial (S (length (t_serial t)))
  | KbdIntr => intr next_key (S (length (t_keys t)))
  | Read killed n got =>
      if (length got <=? Z.to_nat n)%nat then
        let x := read_ready (Z.to_nat n - length got) (length got =? 0)%nat (t_ready t) in
        Some ([], Some (read_result killed got x), with_ready x.1.2 t)
      else None
  | Write buf n => if forallb is_byte buf then Some ([], Some (CRet n []), put_all u (take (Z.to_nat n) buf) t) else None
  end.

Record implements (u : bool) (s : cons H) (t : tty) : Prop := mk_implements {
  im_lock : clock s = false;
  im_shows : shows s t;
  im_well : well t;
  im_uart : uart s = u
}.

Lemma bytes_okb l : forallb is_byte l = true -> bytes_ok l.
Proof using Type.
  rewrite forallb_forall. intros Hl. apply Forall_forall. intros c Hc. apply list_elem_of_In, Hl in Hc. unfold is_byte in Hc. lia.
Qed.

Lemma consoleintr_ok getc next size u fuel (s : cons H) t :
  source getc next size -> implements u s t -> (size t < fuel)%nat ->
  let d := drain u next fuel t in
  exists s', consoleintr fuel getc procdump s = (d.1.2, Ret tt s') /\ implements u s' (if d.2 then put_all u dump d.1.1 else d.1.1).
Proof.
  intros Hsrc [Hl Hs Hw <-] Hf d. unfold consoleintr. rewrite (bind_nil _ _ _ _ _ (acquire_run s Hl)).
  destruct (consoleintr_loop_shows getc next size fuel false _ t Hsrc (acquire_shows s t Hs) Hw Hf) as (s1 & E1 & Hs1 & Hw1 & Hu1 & Hg1 & Hc1).
  change (uart (lset cons_lock true s)) with (uart s) in *. fold d in E1, Hs1, Hw1. cbn [orb] in E1.
  set (s2 := lset cons_lock false s1). assert (shows s2 d.1.1) as Hs2 by (by apply release_shows).
  unfold bind at 1. rewrite E1, (bind_nil _ _ _ _ _ (release_run s1 Hc1)). fold s2. destruct d.2; cbn [when].
  - destruct (procdump_prints s2 d.1.1 Hs2 eq_refl) as (s3 & E3 & Hs3 & Hu3 & Hg3 & Hc3).
    exists s3. rewrite E3, app_nil_r. split; [done|].
    change (uart s2) with (uart s1) in *. rewrite Hu1 in *. split; [done|done|by apply put_all_well|done].
  - exists s2. unfold ret. rewrite app_nil_r. split; [done|]. by split.
Qed.

Lemma console_op_ok u o (s : cons H) t out t' :
  implements u s t -> tty_op u o t = Some (out, t') ->
  exists s', console_op o s = Some (out, s') /\ implements u s' t'.
Proof.
  intros Hi E. pose proof Hi as [Hl Hs Hw Hu]. destruct o as [l|l| | |killed n got|buf n]; cbn [tty_op console_op] in *.
  - destruct (forallb is_byte l) eqn:Eb; [|done]. injection E as <- <-. eexists. split; [reflexivity|].
    split; [done| |exact Hw|done]. destruct Hs as [K1 K2 K3 K4 K5 K6]. split; try done. cbn.
    by rewrite face_arrive_serial, K4 by (by apply bytes_okb).
  - destruct (forallb is_byte l) eqn:Eb; [|done]. injection E as <- <-. eexists. split; [reflexivity|].
    split; [done| |exact Hw|done]. destruct Hs as [K1 K2 K3 K4 K5 K6]. split; try done. cbn.
    by rewrite face_arrive_keys, K4 by (by apply bytes_okb).
  - rewrite (w_face _ _ Hs). cbn [p_serial]. injection E as <- <-.
    destruct (consoleintr_ok _ _ _ u (S (length (t_serial t))) s t serial_source Hi) as (s' & E & Hi'); [lia|].
    exists s'. unfold uartintr. rewrite E. done.
  - rewrite (w_face _ _ Hs). cbn [p_keys]. injection E as <- <-.
    destruct (consoleintr_ok _ _ _ u (S (length (t_keys t))) s t kbd_source Hi) as (s' & E & Hi'); [lia|].
    exists s'. unfold kbdintr. rewrite E. done.
  - destruct (Nat.leb_spec (length got) (Z.to_nat n)) as [Hle|]; [|done]. injection E as <- <-.
    destruct (consoleread_loop_shows killed (Z.to_nat n - length got) got _ t (acquire_shows s t Hs) eq_refl) as (s1 & E1 & Hs1 & Hu1 & _ & Hc1).
    exists s1. unfold consoleread. rewrite (bind_nil _ _ _ _ _ (acquire_run s Hl)).
    replace (Z.max n 0) with (Z.of_nat (length got + (Z.to_nat n - length got))) by lia. rewrite E1. split; [done|].
    split; [done|done|exact Hw|exact (eq_trans Hu1 Hu)].
  - destruct (forallb is_byte buf) eqn:Eb; [|done]. injection E as <- <-. unfold consolewrite.
    rewrite (bind_nil _ _ _ _ _ (acquire_run s Hl)). apply bytes_okb in Eb. unfold bytes_ok in Eb. rewrite Forall_forall in Eb.
    destruct (print_shows (fun c => Z.land c 0xff) (take (Z.to_nat n) buf) _ t (acquire_shows s t Hs)) as (s1 & E1 & Hs1 & Hu1 & Hg1 & Hc1).
    { intros c Hc. apply elem_of_take in Hc as (k & Hc & _). apply list_elem_of_lookup_2, Eb in Hc.
      change 0xff with (Z.ones 8). rewrite Z.land_ones, Z.mod_small by lia. done. }
    rewrite (bind_nil _ _ _ _ _ E1), (bind_nil _ _ _ _ _ (release_run s1 Hc1)). eexists. split; [reflexivity|].
    split; [done| |by apply put_all_well|exact (eq_trans Hu1 Hu)]. change (uart (lset cons_lock true s)) with (uart s) in Hs1. rewrite Hu in Hs1.
    by apply release_shows.
Qed.
End Spec.

(** C33: the console is a terminal with a line editor.  Over any hardware that keeps
    [ConsoleHw], every sequence of arriving bytes, keyboard and serial interrupts,
    reads, resumed reads and writes does what the abstract terminal does: nothing
    panics, hangs or writes outside the 80 by 24 screen; the screen scrolls; control-U
    and backspace erase exactly the unfinished line, also when the ring buffer and its
    32-bit indices wrap around; finished lines are handed to the readers in order, each
    byte once, and every reader that waits is woken when a line is finished. *)
Theorem console_refines {H} `{ConsoleHw H} (procdump : M (cons H) unit) (dump : list Z) (u : bool)
    (os : list cop) (s : cons H) (t t' : tty) (outs : list (list event * option cres)) :
  prints procdump dump ->
  implements u s t -> run_ops (tty_op dump u) os t = Some (outs, t') ->
  exists s', run_ops (console_op procdump) os s = Some (outs, s') /\ implements u s' t'.
Proof.
  intros Hd. apply (run_ops_refines (console_op procdump) (tty_op dump u) (implements u)).
  intros o s1 a1 r a2. by apply console_op_ok.
Qed.

(** ** A terminal on a desk *)

Module Desk.
(** The selected register of the screen controller and the two of the cursor, the
    bytes sent, and those that wait in the serial port and the keyboard controller. *)
Record desk := mk_desk { d_sel : Z; d_hi : Z; d_lo : Z; d_sent : list Z; d_serial : list Z; d_keys : list Z }.

Definition status (l : list Z) : Z := if waiting l then 0x21 else 0x20.

#[local] Instance desk_ports : Ports desk := {|
  inb := fun p => let* d := get in
    if p =? 0x3d5 then ret (u8 (if d_sel d =? 14 then d_hi d else d_lo d))
    else if p =? 0x3fd then ret (status (d_serial d))
    else if p =? 0x64 then ret (status (d_keys d))
    else if p =? 0x3f8 then
      modify (fun d => mk_desk (d_sel d) (d_hi d) (d_lo d) (d_sent d) (tail (d_serial d)) (d_keys d)) ;;
      ret (u8 (hd 0 (d_serial d)))
    else if p =? 0x60 then
      modify (fun d => mk_desk (d_sel d) (d_hi d) (d_lo d) (d_sent d) (d_serial d) (tail (d_keys d))) ;;
      ret (u8 (hd 0 (d_keys d)))
    else ret 0;
  outb := fun p v => modify (fun d =>
    if p =? 0x3d4 then mk_desk v (d_hi d) (d_lo d) (d_sent d) (d_serial d) (d_keys d)
    else if p =? 0x3d5 then
      mk_desk (d_sel d) (if d_sel d =? 14 then v else d_hi d) (if d_sel d =? 14 then d_lo d else v) (d_sent d) (d_serial d) (d_keys d)
    else if p =? 0x3f8 then mk_desk (d_sel d) (d_hi d) (d_lo d) (d_sent d ++ [v]) (d_serial d) (d_keys d)
    else d);
  outw := fun _ _ => ret tt;
  insl := fun _ _ => ret [];
  outsl := fun _ _ => ret tt
|}.

Definition front (d : desk) : panel :=
  mk_panel (256 * u8 (d_hi d) + u8 (d_lo d)) (d_sent d) (u8 <$> d_serial d) (u8 <$> d_keys d).

Lemma bytes_u8 l : bytes_ok (u8 <$> l).
Proof. apply Forall_fmap, Forall_forall. intros x _. apply u8_range. Qed.

Lemma u8_bytes l : bytes_ok l -> u8 <$> l = l.
Proof. induction 1 as [|x l Hx Hl IH]; [done|]. cbn. f_equal; [by apply Z.mod_small|done]. Qed.

Lemma cursor_bytes d : p_cursor (front d) / 256 = u8 (d_hi d) /\ p_cursor (front d) `mod` 256 = u8 (d_lo d).
Proof.
  unfold front. cbn [p_cursor]. pose proof (u8_range (d_hi d)). pose proof (u8_range (d_lo d)).
  split; Z.to_euclidean_division_equations; lia.
Qed.

#[local] Instance desk_hw : ConsoleHw desk.
Proof.
  refine {| face := front;
    arrive_serial l d := mk_desk (d_sel d) (d_hi d) (d_lo d) (d_sent d) (d_serial d ++ l) (d_keys d);
    arrive_keys l d := mk_desk (d_sel d) (d_hi d) (d_lo d) (d_sent d) (d_serial d) (d_keys d ++ l) |}.
  - intros d. split; [|split; apply bytes_u8]. cbn. pose proof (u8_range (d_hi d)). pose proof (u8_range (d_lo d)). lia.
  - intros d. destruct (cursor_bytes d) as [-> ->].
    exists (mk_desk 15 (d_hi d) (d_lo d) (d_sent d) (d_serial d) (d_keys d)). split; [reflexivity|done].
  - intros d hi lo Hhi Hlo. exists (mk_desk 15 hi lo (d_sent d) (d_serial d) (d_keys d)). split; [reflexivity|].
    unfold front, with_cursor, u8. cbn [d_hi d_lo d_sent d_serial d_keys p_sent p_serial p_keys]. by rewrite !Z.mod_small by lia.
  - intros d. eexists _, _. split; [reflexivity|]. split; [done|]. cbn. by destruct (d_serial d).
  - intros d c Hc. eexists. split; [reflexivity|]. done.
  - intros d c r E. cbn in E. destruct (d_serial d) as [|x l] eqn:Ed; [done|]. injection E as <- <-.
    eexists. split; [cbn; by rewrite Ed|]. unfold front, with_serial. cbn. done.
  - intros d. eexists _, _. split; [reflexivity|]. split; [done|]. cbn. by destruct (d_keys d).
  - intros d c r E. cbn in E. destruct (d_keys d) as [|x l] eqn:Ed; [done|]. injection E as <- <-.
    eexists. split; [cbn; by rewrite Ed|]. done.
  - intros l d Hl. cbn. unfold front, with_serial. cbn. by rewrite fmap_app, (u8_bytes l Hl).
  - intros l d Hl. cbn. unfold front, with_keys. cbn. by rewrite fmap_app, (u8_bytes l Hl).
Defined.

(** A console that has been in use for long: its indices are about to wrap around. *)
Definition idle : cons desk :=
  mk_cons false true false true 0 (fun _ => 0) (mk_input (repeat 0 128) (2 ^ 32 - 2) (2 ^ 32 - 2) (2 ^ 32 - 2))
    (mk_desk 0 0 0 [] [] []).
Definition blank : tty := mk_tty (repeat 0 1920) 0 [] [] [] [] [] 0.

(** A reader waits; [lsx], a backspace and the end of the line arrive, and it goes on;
    then output, and the letter a on the keyboard. *)
Definition morning : list cop :=
  [Read false 10 []; Arrive (codes "lsx" ++ [8; 13]); SerialIntr; Read false 10 []; Write (codes "ok") 2; Strike [0x1E]; KbdIntr].
Definition told : list (list event * option cres) :=
  [([], Some (CSleep [])); ([], None); ([EvWakeup ChInput], None); ([], Some (CRet 3 (codes "ls" ++ [10])));
   ([], Some (CRet 2 [])); ([], None); ([], None)].
Definition evening : tty :=
  match run_ops (tty_op [] true) morning blank with Some (_, t) => t | None => blank end.

Lemma console_refines_witness :
  run_ops (tty_op [] true) morning blank = Some (told, evening) /\ t_line evening = codes "a" /\
  exists s', run_ops (console_op (ret tt)) morning idle = Some (told, s') /\ implements true s' evening.
Proof.
  assert (run_ops (tty_op [] true) morning blank = Some (told, evening)) as E by (vm_compute; reflexivity).
  split; [exact E|]. split; [vm_compute; reflexivity|].
  apply (console_refines (ret tt) [] true morning idle blank); [clear E| |exact E].
  { intros s t Hs _. exists s. split; [reflexivity|]. split; [exact Hs|repeat split]. }
  clear E.
  split; [done| |split; [apply not_elem_of_nil|done]|done].
  split; [done| |done|done|done|].
  - split; [reflexivity|]. intros i x Hx. apply list_elem_of_lookup_2, list_elem_of_In, repeat_spec in Hx. done.
  - split; [reflexivity|done|done|done|cbn; lia|done].
Defined.
End Desk.
