(* ===== verification/Procdump.v ===== *)
(** * The process listing: procdump of proc.c

    Control-P on the console prints the table of processes, with the call stack of
    the ones that sleep. *)

From stdpp Require Import base numbers list strings.
From S2P Require Import Prelude Bytes Mem Str User Segments Kalloc Vm Proc Spinlock Format Ports Kbd Console ConsoleSpec.

Open Scope Z_scope.

(** [states] *)
Definition state_name (st : procstate) : list Z :=
  match st with
  | UNUSED => codes "unused"
  | EMBRYO => codes "embryo"
  | SLEEPING => codes "sleep "
  | RUNNABLE => codes "runble"
  | RUNNING => codes "run   "
  | ZOMBIE => codes "zombie"
  end.

(** The two strings of a line, at the addresses 1 and 2. *)
Definition strings (p : proc) (a : Z) : list Z :=
  if a =? 1 then state_name (state p) else if a =? 2 then c_string (name p) else [].

(** [p->context->ebp] *)
Definition CONTEXT_EBP : Z := 12.

(** The return addresses up to the first 0. *)
Definition stack_of (m : mem) (p : proc) : list Z :=
  c_string (getcallerpcs m (u32 (load32 m (context p + CONTEXT_EBP) + 8))).

Section Dump.
Context {H : Type} `{Ports H}.
Variable m : mem.

Definition dump_proc (p : proc) : M (cons H) unit :=
  if bool_decide (state p = UNUSED) then ret tt
  else
    cprintf (strings p) (Some (codes "%d %s %s")) [pid p; 1; 2] ;;
    when (bool_decide (state p = SLEEPING))
      (for_all (stack_of m p) (fun pc => cprintf (fun _ => []) (Some (codes " %p")) [pc])) ;;
    cprintf (fun _ => []) (Some [10]) [].

Definition procdump (procs : list proc) : M (cons H) unit := for_all procs dump_proc.
End Dump.

(** ** What is printed *)

Definition stack_text (pcs : list Z) : list Z := concat ((fun pc => chr " " :: int_text lower pc 16 false) <$> pcs).

Definition proc_line (m : mem) (p : proc) : list Z :=
  if bool_decide (state p = UNUSED) then []
  else
    (int_text lower (pid p) 10 true ++ chr " " :: state_name (state p) ++ chr " " :: c_string (name p)) ++
    (if bool_decide (state p = SLEEPING) then stack_text (stack_of m p) else []) ++ [10].

Definition listing (m : mem) (procs : list proc) : list Z := concat (proc_line m <$> procs).

Section Prints.
Context {H : Type} `{ConsoleHw H}.

Lemma prints_nil : prints (ret tt : M (cons H) unit) [].
Proof using Type. intros s t Hs Hl. exists s. split; [done|]. split; [exact Hs|]. by repeat split. Qed.

Lemma prints_seq (m1 m2 : M (cons H) unit) t1 t2 : prints m1 t1 -> prints m2 t2 -> prints (m1 ;; m2) (t1 ++ t2).
Proof using Type.
  intros H1' H2' s t Hs Hl. destruct (H1' s t Hs Hl) as (s1 & E1 & Hs1 & Hk1).
  destruct (H2' s1 _ Hs1) as (s2 & E2 & Hs2 & Hk2); [by rewrite (proj2 (proj2 Hk1))|].
  exists s2. rewrite (bind_nil _ _ _ _ _ E1), E2. split; [done|]. split; [|by apply (kept_after_kept s s1 s2)].
  unfold put_all in *. rewrite foldl_app. by rewrite (proj1 Hk1) in Hs2.
Qed.

Lemma prints_all {X} (f : X -> M (cons H) unit) (g : X -> list Z) l :
  (forall x, x ∈ l -> prints (f x) (g x)) -> prints (for_all l f) (concat (g <$> l)).
Proof using Type.
  induction l as [|x l IH]; intros Hf; cbn [for_all fmap list_fmap concat]; [apply prints_nil|].
  apply prints_seq; [apply Hf; by left|]. apply IH. intros y Hy. apply Hf. by right.
Qed.

Lemma prints_cprintf str_at fmt args text :
  (forall p, bytes_ok (str_at p)) -> render str_at lower false fmt args = Some text ->
  prints (cprintf str_at (Some fmt) args : M (cons H) unit) text.
Proof. intros Hb Et s t Hs Hl. by apply cprintf_shows. Qed.

Lemma c_string_bytes l : bytes_ok l -> bytes_ok (c_string l).
Proof using Type. induction 1 as [|c l Hc Hl IH]; cbn [c_string]; [constructor|]. destruct (c =? 0); by constructor. Qed.

(** [procdump] prints a line for every process, and takes the console lock for each
    piece: what [console_refines] asks of it. *)
Lemma procdump_listing m procs :
  Forall (fun p => bytes_ok (name p)) procs -> prints (procdump m procs : M (cons H) unit) (listing m procs).
Proof.
  intros Hn. rewrite Forall_forall in Hn. apply prints_all. intros p Hp. unfold dump_proc, proc_line.
  case_bool_decide as Eu; [apply prints_nil|].
  assert (forall a, bytes_ok (strings p a)) as Hb.
  { intros a. unfold strings. destruct (a =? 1); [destruct (state p); repeat constructor; lia|].
    destruct (a =? 2); [apply c_string_bytes, Hn, Hp|constructor]. }
  apply prints_seq; [|apply prints_seq].
  - apply prints_cprintf; [done|]. change (render (strings p) lower false (codes "%d %s %s") [pid p; 1; 2] =
      Some (int_text lower (pid p) 10 true ++ chr " " :: state_name (state p) ++ chr " " :: c_string (name p))).
    rewrite <- (app_nil_r (c_string (name p))) at 1. reflexivity.
  - case_bool_decide; [|apply prints_nil]. apply prints_all. intros pc _. apply prints_cprintf; [constructor|].
    rewrite <- (app_nil_r (int_text lower pc 16 false)). reflexivity.
  - apply prints_cprintf; [constructor|reflexivity].
Qed.
End Prints.
