(* ===== verification/Ide.v ===== *)
(** * The disk driver: ide.c

    Requests wait in a queue linked through the buffers; the first one is with the
    disk, and the interrupt handler finishes it and starts the next.  A
    [struct buf *] is the index of the buffer. *)

From stdpp Require Import base numbers list strings.
From S2P Require Import Prelude Bytes Buf Ports.

Open Scope Z_scope.

Definition SECTOR_SIZE : Z := 512.
Definition IDE_BSY : Z := 0x80.
Definition IDE_DRDY : Z := 0x40.
Definition IDE_DF : Z := 0x20.
Definition IDE_ERR : Z := 0x01.
Definition IDE_CMD_READ : Z := 0x20.
Definition IDE_CMD_WRITE : Z := 0x30.

Section Ide.
Context {H : Type} `{Ports H}.

(** The lock, the head of the queue, [b->qnext] for each buffer, [havedisk1], the
    buffers and the devices. *)
Record ide := mk_ide {
  idelock : bool;
  idequeue : option nat;
  qnext : list (option nat);
  havedisk1 : bool;
  ibufs : list buf;
  hw : H
}.

Definition set_idequeue (q : option nat) (s : ide) : ide :=
  mk_ide (idelock s) q (qnext s) (havedisk1 s) (ibufs s) (hw s).
Definition set_qnext (i : nat) (n : option nat) (s : ide) : ide :=
  mk_ide (idelock s) (idequeue s) (<[i := n]> (qnext s)) (havedisk1 s) (ibufs s) (hw s).
Definition set_havedisk1 (b : bool) (s : ide) : ide :=
  mk_ide (idelock s) (idequeue s) (qnext s) b (ibufs s) (hw s).
Definition upd_buf (i : nat) (f : buf -> buf) (s : ide) : ide :=
  mk_ide (idelock s) (idequeue s) (qnext s) (havedisk1 s) (alter f i (ibufs s)) (hw s).

Definition ilock : lens ide bool :=
  Lens idelock (fun b s => mk_ide b (idequeue s) (qnext s) (havedisk1 s) (ibufs s) (hw s)).
Definition dev_of : lens ide H :=
  Lens hw (fun h s => mk_ide (idelock s) (idequeue s) (qnext s) (havedisk1 s) (ibufs s) h).

Definition get_buf (i : nat) : M ide buf := let* s := get in deref (ibufs s !! i).
Definition get_qnext (i : nat) : M ide (option nat) := let* s := get in deref (qnext s !! i).

(** [fuel] bounds the polls of a status register. *)
Variable fuel : nat.

Fixpoint idewait_loop (n : nat) (checkerr : bool) : M H Z :=
  match n with
  | O => nofuel
  | S k =>
      let* r := inb 0x1f7 in
      if negb (Z.land r (Z.lor IDE_BSY IDE_DRDY) =? IDE_DRDY) then idewait_loop k checkerr
      else if checkerr && negb (Z.land r (Z.lor IDE_DF IDE_ERR) =? 0) then ret (-1)
      else ret 0
  end.

Definition idewait (checkerr : bool) : M ide Z := zoom dev_of (idewait_loop fuel checkerr).

(** The probe for disk 1, at most 1000 polls. *)
Fixpoint probe (n : nat) : M H bool :=
  match n with
  | O => ret false
  | S k => let* r := inb 0x1f7 in if negb (r =? 0) then ret true else probe k
  end.

(** [enable] is [picenable(IRQ_IDE); ioapicenable(IRQ_IDE, ncpu - 1)]. *)
Definition ideinit (enable : M ide unit) : M ide unit :=
  modify (lset ilock false) ;;
  enable ;;
  idewait false ;;
  zoom dev_of (outb 0x1f6 (Z.lor 0xe0 (Z.shiftl 1 4))) ;;
  let* found := zoom dev_of (probe 1000) in
  when found (modify (set_havedisk1 true)) ;;
  zoom dev_of (outb 0x1f6 (Z.lor 0xe0 (Z.shiftl 0 4))).

Definition idestart (p : option nat) : M ide unit :=
  match p with
  | None => panic "idestart"
  | Some i =>
      let* b := get_buf i in
      if blockno b >=? FSSIZE then panic "incorrect blockno"
      else
        let sector_per_block := Z.of_nat BSIZE / SECTOR_SIZE in
        let sector := blockno b * sector_per_block in
        if sector_per_block >? 7 then panic "idestart"
        else
          idewait false ;;
          zoom dev_of
            (outb 0x3f6 0 ;;
             outb 0x1f2 sector_per_block ;;
             outb 0x1f3 (Z.land sector 0xff) ;;
             outb 0x1f4 (Z.land (Z.shiftr sector 8) 0xff) ;;
             outb 0x1f5 (Z.land (Z.shiftr sector 16) 0xff) ;;
             outb 0x1f6 (Z.lor (Z.lor 0xe0 (Z.shiftl (Z.land (dev b) 1) 4))
                               (Z.land (Z.shiftr sector 24) 0x0f)) ;;
             if dirty b then
               outb 0x1f7 IDE_CMD_WRITE ;;
               outsl 0x1f0 (data b)
             else outb 0x1f7 IDE_CMD_READ)
  end.

Definition ideintr : M ide unit :=
  acquire ilock ;;
  let* s := get in
  match idequeue s with
  | None => release ilock
  | Some i =>
      let* n := get_qnext i in
      modify (set_idequeue n) ;;
      let* b := get_buf i in
      (if dirty b then ret tt
       else
         let* r := idewait true in
         when (r >=? 0)
           (let* d := zoom dev_of (insl 0x1f0 (BSIZE / 4)) in
            modify (upd_buf i (set_data d)))) ;;
      modify (upd_buf i (fun b => set_flags (set_flag (flags b) B_VALID) b)) ;;
      modify (upd_buf i (fun b => set_flags (clear_flag (flags b) B_DIRTY) b)) ;;
      wakeup (ChBuf i) ;;
      (match n with None => ret tt | Some _ => idestart n end) ;;
      release ilock
  end.

(** The walk to the end of the queue from node [j], and [*pp = b] there. *)
Fixpoint append_after (n : nat) (j b : nat) : M ide unit :=
  match n with
  | O => nofuel
  | S k =>
      let* o := get_qnext j in
      match o with
      | None => modify (set_qnext j (Some b))
      | Some j' => append_after k j' b
      end
  end.

(** [while((b->flags & (B_VALID|B_DIRTY)) != B_VALID) sleep(b, &idelock);
    release(&idelock)]; a thread that was woken takes the lock and goes on here. *)
Definition iderw_wait (i : nat) : M ide unit :=
  let* b := get_buf i in
  if synced b then release ilock else sleep (ChBuf i) ilock.

Definition iderw_resume (i : nat) : M ide unit := acquire ilock ;; iderw_wait i.

Definition iderw (i : nat) : M ide unit :=
  let* b := get_buf i in
  let* s := get in
  if negb (busy b) then panic "iderw: buf not busy"
  else if synced b then panic "iderw: nothing to do"
  else if negb (dev b =? 0) && negb (havedisk1 s) then panic "iderw: ide disk 1 not present"
  else
    acquire ilock ;;
    modify (set_qnext i None) ;;
    let* s := get in
    (match idequeue s with
     | None => modify (set_idequeue (Some i))
     | Some j => append_after (length (qnext s)) j i
     end) ;;
    let* s := get in
    when (bool_decide (idequeue s = Some i)) (idestart (Some i)) ;;
    iderw_wait i.

End Ide.
Arguments ide H : clear implicits.
