(* ===== verification/IdeSpec.v ===== *)
(** * The disk driver serves its queue

    [AtaSpec] is what ide.c relies on in the disk controller: the meaning of the
    registers, the status bits and the data port.  Over any controller that keeps
    it, requests are served one at a time and in order, each with the effect of
    the synchronous driver memide.c.  The controller of [AtaSpec] never reports an
    error: what ide.c does with a disk that fails is not covered. *)

From stdpp Require Import base numbers list strings.
From S2P Require Import Prelude Bytes Buf Memide Ports Ide.

Open Scope Z_scope.

(** ** The disk controller *)

(** Between commands, or with the data of a sector to be fetched. *)
Inductive phase := Ready | Reading (drive lba : Z).

Section Command.
Context {H : Type} `{Ports H}.

(** The registers of a command for one sector, [lba] in 28 bits, and then [k]. *)
Definition command (drive lba : Z) (k : M H unit) : M H unit :=
  outb 0x1f2 1 ;;
  outb 0x1f3 (lba `mod` 256) ;;
  outb 0x1f4 ((lba / 2 ^ 8) `mod` 256) ;;
  outb 0x1f5 ((lba / 2 ^ 16) `mod` 256) ;;
  outb 0x1f6 (0xe0 + 16 * drive + lba / 2 ^ 24) ;;
  k.

(** [sect h drive lba] is the contents of a sector; [busy_for h] how many status
    reads find the controller busy, at most [bound]. *)
Class AtaSpec (bound : nat) := {
  sect : H -> Z -> Z -> list Z;
  a_phase : H -> phase;
  busy_for : H -> nat;

  ata_busy_bound h : (busy_for h <= bound)%nat;
  ata_status_busy h n : busy_for h = S n ->
    exists v h', inb 0x1f7 h = ([], Ret v h') /\ Z.land v 0xc0 <> 0x40 /\
      busy_for h' = n /\ a_phase h' = a_phase h /\ (forall d l, sect h' d l = sect h d l);
  ata_status_ready h : busy_for h = 0%nat ->
    exists v h', inb 0x1f7 h = ([], Ret v h') /\ Z.land v 0xc0 = 0x40 /\ Z.land v 0x21 = 0 /\
      busy_for h' = 0%nat /\ a_phase h' = a_phase h /\ (forall d l, sect h' d l = sect h d l);
  ata_control h : exists h', outb 0x3f6 0 h = ([], Ret tt h') /\
    busy_for h' = busy_for h /\ a_phase h' = a_phase h /\ (forall d l, sect h' d l = sect h d l);
  ata_read h d l : busy_for h = 0%nat -> a_phase h = Ready -> 0 <= d < 2 -> 0 <= l < 2 ^ 28 ->
    exists h', command d l (outb 0x1f7 0x20) h = ([], Ret tt h') /\
      a_phase h' = Reading d l /\ (forall d' l', sect h' d' l' = sect h d' l');
  ata_write h d l x : busy_for h = 0%nat -> a_phase h = Ready -> 0 <= d < 2 -> 0 <= l < 2 ^ 28 ->
    length x = BSIZE ->
    exists h', command d l (outb 0x1f7 0x30 ;; outsl 0x1f0 x) h = ([], Ret tt h') /\
      a_phase h' = Ready /\
      (forall d' l', sect h' d' l' = if (d' =? d) && (l' =? l) then x else sect h d' l');
  ata_data h d l : busy_for h = 0%nat -> a_phase h = Reading d l ->
    exists h', insl 0x1f0 (BSIZE / 4) h = ([], Ret (sect h d l) h') /\
      a_phase h' = Ready /\ (forall d' l', sect h' d' l' = sect h d' l')
}.
End Command.

Section Serve.
Context {H : Type} `{Ports H} {bound : nat} `{!AtaSpec (H := H) bound}.

Definition fuel : nat := S bound.

(** Waiting ends and changes nothing but the time that is left. *)
Lemma idewait_loop_spec n checkerr h :
  (busy_for h < n)%nat ->
  exists h', idewait_loop n checkerr h = ([], Ret 0 h') /\ busy_for h' = 0%nat /\
    a_phase h' = a_phase h /\ (forall d l, sect h' d l = sect h d l).
Proof.
  revert h. induction n as [|n IH]; intros h Hn; [lia|]. cbn [idewait_loop].
  change (Z.lor IDE_BSY IDE_DRDY) with 0xc0. change IDE_DRDY with 0x40.
  destruct (busy_for h) as [|k] eqn:E.
  - destruct (ata_status_ready h E) as (v & h' & Ei & H1 & H2 & H3 & H4 & H5). run_with Ei.
    rewrite H1. change (Z.lor IDE_DF IDE_ERR) with 0x21. rewrite H2. cbn. rewrite andb_false_r. eauto 6.
  - destruct (ata_status_busy h k E) as (v & h' & Ei & H1 & H2 & H3 & H4). run_with Ei.
    destruct (Z.eqb_spec (Z.land v 192) 64); [done|]. cbn [negb].
    destruct (IH h') as (h2 & E2 & H5 & H6 & H7); [lia|]. exists h2. split; [done|]. split; [done|].
    split; [congruence|]. intros d l. by rewrite H7.
Qed.

Lemma idewait_spec checkerr (s : ide H) :
  exists h', idewait fuel checkerr s = ([], Ret 0 (lset dev_of h' s)) /\ busy_for h' = 0%nat /\
    a_phase h' = a_phase (hw s) /\ (forall d l, sect h' d l = sect (hw s) d l).
Proof.
  destruct (idewait_loop_spec fuel checkerr (hw s)) as (h' & E & Hr).
  { unfold fuel. pose proof (ata_busy_bound (hw s)). lia. }
  exists h'. split; [|done]. unfold idewait, zoom. change (lget dev_of s) with (hw s). by rewrite E.
Qed.

(** The registers hold the number of the sector. *)
Lemma regs_spec d n :
  0 <= n < FSSIZE ->
  Z.land n 0xff = n `mod` 256 /\ Z.land (Z.shiftr n 8) 0xff = (n / 2 ^ 8) `mod` 256 /\
  Z.land (Z.shiftr n 16) 0xff = (n / 2 ^ 16) `mod` 256 /\
  Z.lor (Z.lor 0xe0 (Z.shiftl (Z.land d 1) 4)) (Z.land (Z.shiftr n 24) 0x0f) =
    0xe0 + 16 * Z.land d 1 + n / 2 ^ 24.
Proof.
  intros Hn. change 0xff with (Z.ones 8). rewrite !Z.land_ones, !Z.shiftr_div_pow2 by lia.
  split; [done|]. split; [done|]. split; [done|].
  unfold FSSIZE in Hn. rewrite (Z.div_small n (2 ^ 24)) by lia. change (Z.land 0 15) with 0. rewrite Z.lor_0_r.
  change 1 with (Z.ones 1) at 1 2. rewrite Z.land_ones by lia.
  assert (d `mod` 2 ^ 1 = 0 \/ d `mod` 2 ^ 1 = 1) as [-> | ->]; [|done..].
  pose proof (Z.mod_pos_bound d (2 ^ 1)). lia.
Qed.

(** ** Requests *)

(** The contents of the disks. *)
Definition disks : Type := Z -> Z -> list Z.

Definition drive (b : buf) : Z := Z.land (dev b) 1.

Definition write_disk (D : disks) (b : buf) : disks := fun d l =>
  if (d =? drive b) && (l =? blockno b) then data b else D d l.

(** A buffer that waits for the disk. *)
Record pending (s : ide H) (b : buf) : Prop := mk_pending {
  p_busy : busy b = true;
  p_unsynced : synced b = false;
  p_block : 0 <= blockno b < FSSIZE;
  p_data : length (data b) = BSIZE;
  p_disk : dev b = 0 \/ havedisk1 s = true
}.

(** The controller works on [b]; [D] is what the requests before it left. *)
Definition started (b : buf) (D : disks) (h : H) : Prop :=
  if dirty b then a_phase h = Ready /\ forall d l, sect h d l = write_disk D b d l
  else a_phase h = Reading (drive b) (blockno b) /\ forall d l, sect h d l = D d l.

Lemma drive_range b : 0 <= drive b < 2.
Proof using Type.
  unfold drive. change 1 with (Z.ones 1). rewrite Z.land_ones by lia. pose proof (Z.mod_pos_bound (dev b) (2 ^ 1)). lia.
Qed.

Lemma idestart_spec i b (s : ide H) :
  ibufs s !! i = Some b -> pending s b -> a_phase (hw s) = Ready ->
  exists h', idestart fuel (Some i) s = ([], Ret tt (lset dev_of h' s)) /\ started b (sect (hw s)) h'.
Proof.
  intros Hb Hp Hr. destruct (p_block _ _ Hp) as [Hn0 Hn1]. unfold idestart.
  rewrite (bind_nil (get_buf i) _ s b s) by (unfold get_buf, bind, get; cbn; by rewrite Hb).
  destruct (Z.geb_spec (blockno b) FSSIZE); [lia|].
  change (Z.of_nat BSIZE / SECTOR_SIZE) with 1. change (1 >? 7) with false. cbn match. rewrite Z.mul_1_r.
  destruct (idewait_spec false s) as (h1 & E1 & Hb1 & Hp1 & Hs1). run_with E1.
  destruct (regs_spec (dev b) (blockno b) (conj Hn0 Hn1)) as (-> & -> & -> & ->). fold (drive b).
  unfold FSSIZE in Hn1. pose proof (drive_range b) as Hd. unfold zoom. change (lget dev_of (lset dev_of h1 s)) with h1.
  destruct (ata_control h1) as (h0 & E0 & Hb0 & Hp0 & Hs0). rewrite (bind_nil _ _ _ _ _ E0).
  unfold started. destruct (dirty b) eqn:Ed.
  - destruct (ata_write h0 (drive b) (blockno b) (data b)) as (h2 & E2 & K1 & K2);
      [congruence|congruence|done|lia|by apply (p_data _ _ Hp)|].
    unfold command in E2. exists h2. split; [|split; [done|]].
    + by match goal with |- context [?m h0] => replace (m h0) with (@nil event, @Ret H unit tt h2) by (by rewrite <- E2) end.
    + intros d l. rewrite K2. unfold write_disk. by rewrite Hs0, Hs1.
  - destruct (ata_read h0 (drive b) (blockno b)) as (h2 & E2 & K1 & K2); [congruence|congruence|done|lia|].
    unfold command in E2. exists h2. split; [|split; [done|]].
    + by match goal with |- context [?m h0] => replace (m h0) with (@nil event, @Ret H unit tt h2) by (by rewrite <- E2) end.
    + intros d l. by rewrite K2, Hs0, Hs1.
Qed.

(** ** The queue *)

Fixpoint links (nx : list (option nat)) (q : list nat) : Prop :=
  match q with
  | [] => True
  | i :: q' => nx !! i = Some (head q') /\ links nx q'
  end.

Lemma links_other nx q i o : i ∉ q -> links nx q -> links (<[i := o]> nx) q.
Proof using Type.
  induction q as [|j q IH]; [done|]. intros [Hj Hq]%not_elem_of_cons [K1 K2]. split; [|by apply IH].
  by rewrite list_lookup_insert_ne.
Qed.

Definition with_qnext (nx : list (option nat)) (s : ide H) : ide H :=
  mk_ide (idelock s) (idequeue s) nx (havedisk1 s) (ibufs s) (hw s).

Lemma append_after_spec q n j i (s : ide H) :
  links (qnext s) (j :: q) -> NoDup (j :: q) -> i ∉ j :: q -> qnext s !! i = Some None ->
  (length q < n)%nat ->
  exists nx, append_after n j i s = ([], Ret tt (with_qnext nx s)) /\ links nx ((j :: q) ++ [i]) /\
    (forall k, k ∉ j :: q -> nx !! k = qnext s !! k) /\ length nx = length (qnext s).
Proof using Type.
  revert n j. induction q as [|j' q IH]; intros n j [Hj Hl] Hd Hi Hin Hn;
    (destruct n as [|n]; [cbn in Hn; lia|]); cbn [append_after].
  - exists (<[j := Some i]> (qnext s)). apply not_elem_of_cons in Hi as [Hij _].
    split; [|split; [|split; [|by rewrite length_insert]]].
    + rewrite (bind_nil _ _ _ None s) by (unfold get_qnext, bind, get; cbn; by rewrite Hj). done.
    + cbn. rewrite list_lookup_insert_eq by (by eapply lookup_lt_Some).
      by rewrite list_lookup_insert_ne by congruence.
    + intros k [Hk _]%not_elem_of_cons. by rewrite list_lookup_insert_ne by congruence.
  - apply NoDup_cons in Hd as [Hjn Hd]. apply not_elem_of_cons in Hi as [Hij Hi].
    destruct (IH n j' Hl Hd Hi Hin ltac:(cbn in Hn; lia)) as (nx & E & Hlx & Hk & Hlen).
    exists nx. split; [|split; [|split; [|done]]].
    + rewrite (bind_nil _ _ _ (Some j') s) by (unfold get_qnext, bind, get; cbn; by rewrite Hj). done.
    + split; [|done]. rewrite Hk by done. exact Hj.
    + intros k [_ Hkn]%not_elem_of_cons. by apply Hk.
Qed.

(** ** The invariant *)

(** [q] is the queue, [D] the disks after the requests that were finished. *)
Record serving (s : ide H) (q : list nat) (D : disks) : Prop := mk_serving {
  v_lock : idelock s = false;
  v_len : length (qnext s) = length (ibufs s);
  v_head : idequeue s = head q;
  v_links : links (qnext s) q;
  v_nodup : NoDup q;
  v_pending : forall i, i ∈ q -> exists b, ibufs s !! i = Some b /\ pending s b;
  v_hw : match q with
         | [] => a_phase (hw s) = Ready /\ forall d l, sect (hw s) d l = D d l
         | i :: _ => forall b, ibufs s !! i = Some b -> started b D (hw s)
         end
}.

Lemma queue_length s q D : serving s q D -> (length q <= length (qnext s))%nat.
Proof using Type.
  intros Hv. rewrite (v_len _ _ _ Hv).
  replace (length (ibufs s)) with (length (seq 0 (length (ibufs s)))) by (by rewrite length_seq).
  apply submseteq_length, NoDup_submseteq; [apply Hv|].
  intros i Hi. destruct (v_pending _ _ _ Hv i Hi) as (b & Hb & _). apply lookup_lt_Some in Hb.
  apply elem_of_seq. lia.
Qed.

(** A request joins the end of the queue and its thread goes to sleep. *)
Lemma iderw_spec (s : ide H) q D i b :
  serving s q D -> i ∉ q -> ibufs s !! i = Some b -> pending s b ->
  exists s', iderw fuel i s = ([], Sleep (ChBuf i) s') /\ serving s' (q ++ [i]) D /\
    ibufs s' = ibufs s /\ havedisk1 s' = havedisk1 s.
Proof.
  intros Hv Hi Hb Hp. unfold iderw.
  assert (forall t : ide H, ibufs t = ibufs s -> get_buf i t = ([], Ret b t)) as Hget.
  { intros t Et. unfold get_buf, bind, get. cbn. by rewrite Et, Hb. }
  rewrite (bind_nil _ _ _ b s) by (by apply Hget). rewrite (bind_nil get _ s s s) by done.
  rewrite (p_busy _ _ Hp), (p_unsynced _ _ Hp). cbn [negb].
  assert (negb (dev b =? 0) && negb (havedisk1 s) = false) as ->.
  { destruct (p_disk _ _ Hp) as [-> | ->]; [done|apply andb_false_r]. }
  rewrite (bind_nil (acquire ilock) _ s tt (lset ilock true s)) by (unfold acquire; cbn; by rewrite (v_lock _ _ _ Hv)).
  rewrite (bind_nil (modify _) _ _ tt _ eq_refl). set (s1 := set_qnext i None (lset ilock true s)).
  rewrite (bind_nil get _ s1 s1 s1) by done. cbn [s1 set_qnext idequeue lset ilock].
  assert ((i < length (qnext s))%nat) as Hil by (rewrite (v_len _ _ _ Hv); by eapply lookup_lt_Some).
  assert (links (qnext s1) q) as Hl1 by (by apply links_other, Hv).
  assert (qnext s1 !! i = Some None) as Hi1 by (by apply list_lookup_insert_eq).
  rewrite (v_head _ _ _ Hv). destruct q as [|j q]; cbn [head].
  - rewrite (bind_nil (modify _) _ _ tt _ eq_refl). set (s2 := set_idequeue (Some i) s1).
    rewrite (bind_nil get _ s2 s2 s2) by done. rewrite bool_decide_true by done. cbn [when].
    destruct (v_hw _ _ _ Hv) as [Hph HD].
    destruct (idestart_spec i b s2) as (h' & E & Hst); [done|by destruct Hp|done|].
    rewrite (bind_nil _ _ _ _ _ E). unfold iderw_wait. rewrite (bind_nil _ _ _ b (lset dev_of h' s2)) by (by apply Hget).
    rewrite (p_unsynced _ _ Hp). eexists. split; [reflexivity|]. split; [|done].
    split; cbn.
    + done.
    + rewrite length_insert. apply Hv.
    + done.
    + done.
    + constructor; [by apply not_elem_of_nil|constructor].
    + intros k ->%list_elem_of_singleton. exists b. split; [done|by destruct Hp].
    + intros b'. rewrite Hb. intros [= <-]. unfold started in *.
      destruct (dirty b); destruct Hst as [K1 K2]; (split; [done|]); intros d l; rewrite K2; unfold write_disk; by rewrite HD.
  - destruct (append_after_spec q (length (qnext s1)) j i s1) as (nx & E & Hlx & Hk & Hlen);
      [done|apply Hv|done|done| |].
    { pose proof (queue_length _ _ _ Hv) as Hq. cbn [s1 set_qnext qnext]. rewrite length_insert. cbn in *. lia. }
    rewrite (bind_nil _ _ _ _ _ E). set (s2 := with_qnext nx s1).
    rewrite (bind_nil get _ s2 s2 s2) by done.
    rewrite bool_decide_false; [|cbn; rewrite (v_head _ _ _ Hv); intros [= ->]; apply Hi; by left].
    rewrite (bind_nil (when false _) _ s2 tt s2) by done.
    unfold iderw_wait. rewrite (bind_nil _ _ _ b s2) by (by apply Hget).
    rewrite (p_unsynced _ _ Hp). eexists. split; [reflexivity|]. split; [|done].
    split; cbn [lset ilock s2 with_qnext s1 set_qnext idelock qnext ibufs hw idequeue havedisk1].
    + done.
    + rewrite Hlen. cbn. rewrite length_insert. apply Hv.
    + rewrite (v_head _ _ _ Hv). done.
    + exact Hlx.
    + apply NoDup_app. split; [apply Hv|]. split; [|constructor; [by apply not_elem_of_nil|constructor]].
      intros x Hx ->%list_elem_of_singleton. done.
    + intros k [Hk'| ->%list_elem_of_singleton]%elem_of_app; [|exists b; split; [done|by destruct Hp]].
      destruct (v_pending _ _ _ Hv k Hk') as (b' & Hb' & Hp'). exists b'. split; [done|by destruct Hp'].
    + cbn. apply (v_hw _ _ _ Hv).
Qed.

(** What a request does, once it is finished: the effect of the synchronous driver. *)
Definition finish (b : buf) (D : disks) : buf * disks :=
  let done f := set_flags (clear_flag (set_flag (flags f) B_VALID) B_DIRTY) f in
  if dirty b then (done b, write_disk D b)
  else (done (set_data (D (drive b) (blockno b)) b), D).

(** The first half of the interrupt handler: the data arrives. *)
Definition fetch (i : nat) (b : buf) : M (ide H) unit :=
  if dirty b then ret tt
  else
    let* r := idewait fuel true in
    when (r >=? 0)
      (let* d := zoom dev_of (insl 0x1f0 (BSIZE / 4)) in
       modify (upd_buf i (set_data d))).

Lemma fetch_spec i b D (s : ide H) :
  ibufs s !! i = Some b -> started b D (hw s) ->
  exists h', fetch i b s =
      ([], Ret tt (lset dev_of h' (upd_buf i (fun b => if dirty b then b else set_data (D (drive b) (blockno b)) b) s))) /\
    a_phase h' = Ready /\ forall d l, sect h' d l = (finish b D).2 d l.
Proof.
  intros Hb Hst. unfold fetch, started, finish in *. destruct (dirty b) eqn:Ed.
  - exists (hw s). destruct Hst as [K1 K2]. split; [|done]. unfold ret. do 2 f_equal. destruct s as [l q n hd bs h].
    unfold lset, dev_of, upd_buf. cbn in *. f_equal. symmetry. etransitivity; [|apply (list_alter_id id); done].
    apply list_alter_ext; [|done]. intros b'. rewrite Hb. intros [= <-]. by rewrite Ed.
  - destruct Hst as [K1 K2]. destruct (idewait_spec true s) as (h1 & E1 & Hb1 & Hp1 & Hs1). run_with E1.
    change (0 >=? 0) with true. cbn [when].
    destruct (ata_data h1 (drive b) (blockno b)) as (h2 & E2 & K3 & K4); [done|congruence|].
    exists h2. split; [|split; [done|intros d l; by rewrite K4, Hs1, K2]].
    rewrite (bind_nil _ _ _ (sect h1 (drive b) (blockno b)) (lset dev_of h2 (lset dev_of h1 s))).
    2: { unfold zoom. change (lget dev_of (lset dev_of h1 s)) with h1. by rewrite E2. }
    unfold modify. do 2 f_equal. unfold upd_buf, lset, dev_of. cbn. f_equal.
    apply list_alter_ext; [|done]. intros b' Hb'. rewrite Hb in Hb'. injection Hb' as <-.
    by rewrite Ed, Hs1, K2.
Qed.

Lemma v_other s q D i b :
  serving s q D -> i ∉ q -> serving (upd_buf i (fun _ => b) s) q D.
Proof using Type.
  intros Hv Hi. destruct Hv. split; cbn; try done.
  - by rewrite length_alter.
  - intros k Hk. destruct (v_pending0 k Hk) as (b' & Hb' & Hp'). exists b'.
    rewrite list_lookup_alter_ne by (intros ->; done). split; [done|by destruct Hp'].
  - destruct q as [|j q]; [done|]. intros b'. rewrite list_lookup_alter_ne; [apply v_hw0|].
    intros ->. apply Hi. by left.
Qed.

(** An interrupt finishes the first request, wakes its thread and starts the next. *)
Lemma ideintr_spec (s : ide H) i q D b :
  serving s (i :: q) D -> ibufs s !! i = Some b ->
  exists s', ideintr fuel s = ([EvWakeup (ChBuf i)], Ret tt s') /\
    ibufs s' = <[i := (finish b D).1]> (ibufs s) /\ havedisk1 s' = havedisk1 s /\
    serving s' q (finish b D).2.
Proof.
  intros Hv Hb. unfold ideintr.
  rewrite (bind_nil (acquire ilock) _ s tt (lset ilock true s)) by (unfold acquire; cbn; by rewrite (v_lock _ _ _ Hv)).
  rewrite (bind_nil get _ _ (lset ilock true s) (lset ilock true s)) by done.
  change (idequeue (lset ilock true s)) with (idequeue s). rewrite (v_head _ _ _ Hv). cbn [head].
  destruct (v_links _ _ _ Hv) as [Hqi Hlq]. set (s1 := lset ilock true s).
  rewrite (bind_nil _ _ s1 (head q) s1) by (unfold get_qnext, bind, get; cbn; by rewrite Hqi).
  rewrite (bind_nil (modify _) _ _ tt _ eq_refl). set (s2 := set_idequeue (head q) s1).
  rewrite (bind_nil _ _ s2 b s2) by (unfold get_buf, bind, get; cbn; by rewrite Hb).
  fold (fetch i b).
  destruct (fetch_spec i b D s2) as (h' & E & Hph & Hsect); [done|by apply (v_hw _ _ _ Hv)|].
  rewrite (bind_nil _ _ _ _ _ E).
  rewrite (bind_nil (modify _) _ _ tt _ eq_refl), (bind_nil (modify _) _ _ tt _ eq_refl).
  match goal with |- context [bind (wakeup _) _ ?t] => set (s3 := t) end.
  assert (ibufs s3 = <[i := (finish b D).1]> (ibufs s)) as Eb.
  { unfold s3, upd_buf. cbn. apply list_eq. intros k. destruct (decide (k = i)) as [->|Hne].
    - rewrite !list_lookup_alter_eq, Hb, list_lookup_insert_eq by (by eapply lookup_lt_Some). cbn.
      unfold finish. by destruct (dirty b) eqn:Ed.
    - by rewrite !list_lookup_alter_ne, list_lookup_insert_ne by congruence. }
  pose proof (v_nodup _ _ _ Hv) as [Hiq Hdq]%NoDup_cons.
  assert (forall k, k ∈ q -> exists b', ibufs s3 !! k = Some b' /\ pending s b') as Hpend.
  { intros k Hk. destruct (v_pending _ _ _ Hv k) as (b' & Hb' & Hp'); [by right|]. exists b'.
    rewrite Eb, list_lookup_insert_ne by (intros ->; done). done. }
  assert (exists h2, (match head q with None => ret tt | Some _ => idestart fuel (head q) end) s3 =
      ([], Ret tt (lset dev_of h2 s3)) /\
    match q with
    | [] => a_phase h2 = Ready /\ forall d l, sect h2 d l = (finish b D).2 d l
    | j :: _ => forall b', ibufs s3 !! j = Some b' -> started b' (finish b D).2 h2
    end) as (h2 & E2 & Hst).
  { destruct q as [|j q]; cbn [head].
    - exists h'. split; [reflexivity|done].
    - destruct (Hpend j) as (b' & Hb' & Hp'); [by left|].
      destruct (idestart_spec j b' s3) as (h2 & E2 & Hst); [done|by destruct Hp'|done|]. exists h2. split; [done|].
      intros b''. rewrite Hb'. intros [= <-]. unfold started in *.
      destruct (dirty b'); destruct Hst as [K1 K2]; (split; [done|]); intros d l; rewrite K2; unfold write_disk;
        change (hw s3) with h'; by rewrite Hsect. }
  exists (lset ilock false (lset dev_of h2 s3)). split; [|split; [done|split; [done|]]].
  - unfold wakeup, emit. unfold bind at 1. rewrite (bind_nil _ _ _ _ _ E2). done.
  - split; cbn [lset ilock dev_of idelock idequeue qnext ibufs hw].
    + done.
    + rewrite Eb, length_insert. apply Hv.
    + done.
    + exact Hlq.
    + done.
    + intros k Hk. destruct (Hpend k Hk) as (b' & Hb' & Hp'). exists b'. split; [done|by destruct Hp'].
    + exact Hst.
Qed.

(** An interrupt with no request changes nothing. *)
Lemma ideintr_spurious (s : ide H) D : serving s [] D -> ideintr fuel s = ([], Ret tt s).
Proof using Type.
  intros Hv. unfold ideintr. destruct s as [l q nx hd bs h]. destruct Hv as [Hl _ Hq _ _ _ _]. cbn in Hl, Hq. by subst.
Qed.

(** A thread that was woken returns when its request is finished, and sleeps again before. *)
Lemma iderw_resume_spec (s : ide H) i b :
  idelock s = false -> ibufs s !! i = Some b ->
  iderw_resume i s = ([], if synced b then Ret tt s else Sleep (ChBuf i) s).
Proof using Type.
  intros Hl Hb. unfold iderw_resume.
  rewrite (bind_nil (acquire ilock) _ s tt (lset ilock true s)) by (unfold acquire; cbn; by rewrite Hl).
  unfold iderw_wait.
  rewrite (bind_nil _ _ (lset ilock true s) b (lset ilock true s)) by (unfold get_buf, bind, get; cbn; by rewrite Hb).
  destruct s as [l q nx hd bs h]. cbn in Hl. subst l. by destruct (synced b).
Qed.

(** ** The driver as a queue of requests *)

(** What happens to the driver: a request, an interrupt, a waiting thread that runs
    again, and a thread that changes a buffer of its own. *)
Inductive op := Request (i : nat) | Interrupt | Resume (i : nat) | Touch (i : nat) (b : buf).

(** The events of an operation, and where its thread sleeps if it does. *)
Definition outcome : Type := list event * option chan.

Definition outcome_of {A} (r : list event * res (ide H) A) : option (outcome * ide H) :=
  match r with
  | (ev, Ret _ s) => Some (ev, None, s)
  | (ev, Sleep c s) => Some (ev, Some c, s)
  | _ => None
  end.

Definition ide_op (o : op) (s : ide H) : option (outcome * ide H) :=
  match o with
  | Request i => outcome_of (iderw fuel i s)
  | Interrupt => outcome_of (ideintr fuel s)
  | Resume i => outcome_of (iderw_resume i s)
  | Touch i b => Some ([], None, upd_buf i (fun _ => b) s)
  end.

(** The abstract driver: the queue, the buffers and the disks. *)
Record spec := mk_spec { a_queue : list nat; a_bufs : list buf; a_disks : disks }.

(** [iderw]'s own checks, and a block on the disk. *)
Definition askable (hd : bool) (b : buf) : bool :=
  busy b && negb (synced b) && (0 <=? blockno b) && (blockno b <? FSSIZE) &&
  (length (data b) =? BSIZE)%nat && ((dev b =? 0) || hd).

Definition spec_op (hd : bool) (o : op) (a : spec) : option (outcome * spec) :=
  let 'mk_spec q bs D := a in
  match o with
  | Request i =>
      b ← bs !! i;
      if bool_decide (i ∉ q) && askable hd b then Some ([], Some (ChBuf i), mk_spec (q ++ [i]) bs D) else None
  | Interrupt =>
      match q with
      | [] => Some ([], None, a)
      | i :: q' =>
          b ← bs !! i;
          let r := finish b D in
          Some ([EvWakeup (ChBuf i)], None, mk_spec q' (<[i := r.1]> bs) r.2)
      end
  | Resume i => b ← bs !! i; Some ([], if synced b then None else Some (ChBuf i), a)
  | Touch i b => if bool_decide (i ∉ q) then Some ([], None, mk_spec q (alter (fun _ => b) i bs) D) else None
  end.

Definition implements (s : ide H) (hd : bool) (a : spec) : Prop :=
  havedisk1 s = hd /\ ibufs s = a_bufs a /\ serving s (a_queue a) (a_disks a).

Lemma askable_pending (s : ide H) b : askable (havedisk1 s) b = true -> pending s b.
Proof using Type.
  unfold askable. rewrite !andb_true_iff, orb_true_iff, negb_true_iff, Nat.eqb_eq.
  intros [[[[[K1 K2] K3] K4] K5] K6]. split; [done|done|lia|done|].
  destruct K6; [left; lia|by right].
Qed.

Lemma ide_op_ok (s : ide H) hd a o out a' :
  implements s hd a -> spec_op hd o a = Some (out, a') ->
  exists s', ide_op o s = Some (out, s') /\ implements s' hd a'.
Proof.
  destruct a as [q bs D]. intros (Hh & Hb & Hv) E. cbn in Hb, Hv. destruct o as [i| |i|i b]; cbn in E.
  - destruct (bs !! i) as [b|] eqn:Ei; [|done]. cbn in E. case_bool_decide as Hi; [|done]. cbn [andb] in E.
    destruct (askable hd b) eqn:Ea; [|done]. injection E as <- <-. subst hd bs.
    destruct (iderw_spec s q D i b Hv Hi Ei (askable_pending s b Ea)) as (s' & E & Hv' & Hb' & Hh').
    exists s'. cbn. by rewrite E.
  - destruct q as [|i q].
    + injection E as <- <-. exists s. cbn. by rewrite (ideintr_spurious s D Hv).
    + destruct (bs !! i) as [b|] eqn:Ei; [|done]. injection E as <- <-. subst bs.
      destruct (ideintr_spec s i q D b Hv Ei) as (s' & E & Hb' & Hh' & Hv'). exists s'. cbn [ide_op].
      rewrite E. split; [done|]. split; [congruence|done].
  - destruct (bs !! i) as [b|] eqn:Ei; [|done]. injection E as <- <-. subst bs. exists s. cbn.
    rewrite (iderw_resume_spec s i b (v_lock _ _ _ Hv) Ei). by destruct (synced b).
  - case_bool_decide as Hi; [|done]. injection E as <- <-. exists (upd_buf i (fun _ => b) s).
    split; [done|]. split; [done|]. split; [cbn; by rewrite Hb|by apply v_other].
Qed.

(** C5: ide.c is a first-in first-out queue of disk requests.  Over any disk
    controller that keeps [AtaSpec], and so reports no disk errors, every sequence of requests, interrupts, spurious
    ones included, wake-ups and changes to buffers outside the queue does what the
    abstract driver does: no operation panics or polls forever, a request joins the
    end of the queue and sleeps on its own buffer, an interrupt finishes exactly the
    oldest request, wakes its thread and no other, and leaves the buffer valid and
    clean and the disk and the buffer as the one read or write of that request. *)
Theorem ide_serves (os : list op) (s : ide H) (hd : bool) (a a' : spec) (outs : list outcome) :
  implements s hd a -> run_ops (spec_op hd) os a = Some (outs, a') ->
  exists s', run_ops ide_op os s = Some (outs, s') /\ implements s' hd a'.
Proof.
  intros Hi E. apply (run_ops_refines ide_op (spec_op hd) (fun s a => implements s hd a)) with (a := a); [|done|done].
  intros o s1 a1 r a2. apply ide_op_ok.
Qed.
End Serve.


(** ** The synchronous driver *)

Lemma flags_done (b : buf) :
  clear_flag (set_flag (flags b) B_VALID) B_DIRTY =
    set_flag (if dirty b then clear_flag (flags b) B_DIRTY else flags b) B_VALID.
Proof.
  rewrite dirty_bit. change B_VALID with (2 ^ 1). change B_DIRTY with (2 ^ 2).
  apply Z.bits_inj'. intros n Hn. rewrite testbit_clear_flag, testbit_set_flag by lia.
  destruct (Z.testbit (flags b) 2) eqn:E; rewrite testbit_set_flag, ?testbit_clear_flag by lia;
    destruct (Z.eqb_spec 1 n), (Z.eqb_spec 2 n); subst; try done; by rewrite ?E, ?andb_true_r.
Qed.

(** A finished request is what memide.c's [iderw] does at once. *)
Lemma finish_memide (b : buf) (d : memide) (D : disks) :
  memide_ready d -> dev b = ROOTDEV -> 0 <= blockno b < disksize d ->
  busy b = true -> synced b = false -> length (data b) = BSIZE ->
  (forall n, 0 <= n < disksize d -> D 1 n = sector d n) ->
  exists ev d', Memide.iderw b d = (ev, Ret (finish b D).1 d') /\
    forall n, 0 <= n < disksize d -> (finish b D).2 1 n = sector d' n.
Proof.
  intros Hr Hdev Hb Hbusy Hs Hlen HD. rewrite synced_bits in Hs. pose proof (flags_done b) as Hf.
  unfold finish, write_disk. assert (drive b = 1) as -> by (unfold drive; by rewrite Hdev).
  destruct (dirty b) eqn:Ed.
  - rewrite (iderw_write d b) by done. eexists _, _. cbn [fst snd]. rewrite Hf. split; [done|].
    intros n Hn. cbn [Z.eqb Pos.eqb andb]. unfold sector. cbn [memdisk]. rewrite !(block_offset d) by done.
    destruct (Z.eqb_spec n (blockno b)) as [->|Hne].
    + by rewrite read_write_block_eq.
    + rewrite read_write_block_ne by (unfold BSIZE; lia). rewrite HD by done. unfold sector. by rewrite (block_offset d).
  - rewrite andb_true_r in Hs. rewrite (iderw_read d b) by done. exists [], d. cbn [fst snd].
    rewrite HD by done. split; [|done]. cbn [set_data flags]. by rewrite Hf.
Qed.

(** ** A disk controller *)

Module Ata.
Inductive mode := Off | Fetch | Store.

(** The task file registers, the command that waits for data, whether the
    controller is busy, and the sectors. *)
Record ata := mk_ata {
  r_lba0 : Z; r_lba1 : Z; r_lba2 : Z; r_drive : Z;
  r_mode : mode; r_busy : bool; sectors : Z -> Z -> list Z
}.

Definition lba_of (h : ata) : Z :=
  r_lba0 h + 2 ^ 8 * r_lba1 h + 2 ^ 16 * r_lba2 h + 2 ^ 24 * (r_drive h `mod` 16).
Definition drive_of (h : ata) : Z := (r_drive h / 16) `mod` 2.

Definition store (h : ata) (x : list Z) : Z -> Z -> list Z := fun d l =>
  if (d =? drive_of h) && (l =? lba_of h) then x else sectors h d l.

Definition status (h : ata) : Z := if r_busy h then 0x80 else 0x40.

#[local] Instance ata_ports : Ports ata := {|
  inb := fun p h =>
    ([], Ret (if p =? 0x1f7 then status h else 0)
      (mk_ata (r_lba0 h) (r_lba1 h) (r_lba2 h) (r_drive h) (r_mode h) false (sectors h)));
  outb := fun p v h =>
    ([], Ret tt
      (if p =? 0x1f3 then mk_ata v (r_lba1 h) (r_lba2 h) (r_drive h) (r_mode h) (r_busy h) (sectors h)
       else if p =? 0x1f4 then mk_ata (r_lba0 h) v (r_lba2 h) (r_drive h) (r_mode h) (r_busy h) (sectors h)
       else if p =? 0x1f5 then mk_ata (r_lba0 h) (r_lba1 h) v (r_drive h) (r_mode h) (r_busy h) (sectors h)
       else if p =? 0x1f6 then mk_ata (r_lba0 h) (r_lba1 h) (r_lba2 h) v (r_mode h) (r_busy h) (sectors h)
       else if p =? 0x1f7 then
         mk_ata (r_lba0 h) (r_lba1 h) (r_lba2 h) (r_drive h) (if v =? 0x30 then Store else Fetch) true (sectors h)
       else h));
  outw := fun p v h => ([], Ret tt h);
  insl := fun p n h =>
    ([], Ret (sectors h (drive_of h) (lba_of h))
      (mk_ata (r_lba0 h) (r_lba1 h) (r_lba2 h) (r_drive h) Off (r_busy h) (sectors h)));
  outsl := fun p x h =>
    ([], Ret tt (mk_ata (r_lba0 h) (r_lba1 h) (r_lba2 h) (r_drive h) Off true (store h x)))
|}.

(** The registers after the driver wrote them. *)
Definition task (d l : Z) : mode -> bool -> (Z -> Z -> list Z) -> ata :=
  mk_ata (l `mod` 256) ((l / 2 ^ 8) `mod` 256) ((l / 2 ^ 16) `mod` 256) (0xe0 + 16 * d + l / 2 ^ 24).

Lemma lba_regs d l m b x :
  0 <= d < 2 -> 0 <= l < 2 ^ 28 -> drive_of (task d l m b x) = d /\ lba_of (task d l m b x) = l.
Proof.
  intros Hd Hl. unfold drive_of, lba_of, task. cbn [r_lba0 r_lba1 r_lba2 r_drive].
  split; Z.to_euclidean_division_equations; lia.
Qed.

#[local] Instance ata_spec : AtaSpec (H := ata) 1.
Proof.
  refine {| sect := sectors;
            a_phase h := match r_mode h with Fetch => Reading (drive_of h) (lba_of h) | _ => Ready end;
            busy_for h := if r_busy h then 1%nat else 0%nat |}.
  - intros h. destruct (r_busy h); lia.
  - intros h n E. eexists _, _. split; [reflexivity|]. unfold status. destruct (r_busy h); [|done].
    injection E as <-. cbn. done.
  - intros h E. eexists _, _. split; [reflexivity|]. unfold status. destruct (r_busy h); [done|]. cbn. done.
  - intros h. exists h. split; [reflexivity|]. done.
  - intros h d l _ _ Hd Hl. exists (task d l Fetch true (sectors h)). split; [reflexivity|]. cbn [r_mode task].
    destruct (lba_regs d l Fetch true (sectors h) Hd Hl) as [-> ->]. done.
  - intros h d l x _ _ Hd Hl Hx.
    exists (task d l Off true (store (task d l Store true (sectors h)) x)). split; [reflexivity|]. split; [done|].
    intros d' l'. cbn [sectors task]. unfold store.
    destruct (lba_regs d l Store true (sectors h) Hd Hl) as [-> ->]. done.
  - intros h d l _ E. destruct (r_mode h); try done. injection E as <- <-.
    eexists. split; [reflexivity|]. done.
Defined.

(** Two requests at once: a write of block 3 and a read of the same block, on a
    disk of zeroes, with a spurious interrupt at the end. *)
Definition blank : Z -> Z -> list Z := fun _ _ => repeat 0 BSIZE.
Definition page : list Z := repeat 7 BSIZE.
Definition b_write : buf := mk_buf (set_flag (set_flag 0 B_BUSY) B_DIRTY) 0 3 0 0 page.
Definition b_read : buf := mk_buf (set_flag 0 B_BUSY) 0 3 0 0 (repeat 1 BSIZE).
Definition idle : ide ata := mk_ide false None [None; None] false [b_write; b_read] (mk_ata 0 0 0 0 Off false blank).
Definition traffic : list outcome :=
  [([], Some (ChBuf 0)); ([], Some (ChBuf 1)); ([EvWakeup (ChBuf 0)], None); ([], None);
   ([EvWakeup (ChBuf 1)], None); ([], None); ([], None)].
Definition finished : spec :=
  let r0 := finish b_write blank in let r1 := finish b_read r0.2 in mk_spec [] [r0.1; r1.1] r1.2.

Lemma ide_serves_witness :
  run_ops (spec_op false) [Request 0; Request 1; Interrupt; Resume 0; Interrupt; Resume 1; Interrupt]
      (mk_spec [] [b_write; b_read] blank) = Some (traffic, finished) /\
  (exists s', run_ops (ide_op (bound := 1)) [Request 0; Request 1; Interrupt; Resume 0; Interrupt; Resume 1; Interrupt]
      idle = Some (traffic, s') /\ implements s' false finished) /\
  (data <$> a_bufs finished !! 1%nat) = Some page.
Proof.
  assert (run_ops (spec_op false) [Request 0; Request 1; Interrupt; Resume 0; Interrupt; Resume 1; Interrupt]
      (mk_spec [] [b_write; b_read] blank) = Some (traffic, finished)) as E by reflexivity.
  split; [exact E|]. split; [|reflexivity].
  apply (ide_serves (bound := 1) _ idle false (mk_spec [] [b_write; b_read] blank)); [|exact E].
  split; [done|]. split; [done|]. split; try done; [constructor|]. intros i Hi. by apply elem_of_nil in Hi.
Defined.
End Ata.
