(* ===== verification/Boot.v ===== *)
(** * The boot loader: bootmain.c

    It reads the kernel, an ELF file that starts at sector 1 of the disk, into
    physical memory and jumps to its entry point. *)

From stdpp Require Import base numbers list strings.
From S2P Require Import Prelude Bytes Mem Str Buf Ports Ide IdeSpec.

Open Scope Z_scope.

Definition SECTSIZE : Z := 512.

(** elf.h: the magic number, and the offsets of the fields that are used. *)
Definition ELF_MAGIC : Z := 0x464C457F.
Definition ELF_ENTRY : Z := 24.
Definition ELF_PHOFF : Z := 28.
Definition ELF_PHNUM : Z := 44.
Definition PROGHDR_SIZE : Z := 32.
Definition PH_OFF : Z := 4.
Definition PH_PADDR : Z := 12.
Definition PH_FILESZ : Z := 16.
Definition PH_MEMSZ : Z := 20.

Section Boot.
Context {H : Type} `{Ports H}.

(** Memory and the devices. *)
Record boot := mk_boot { bmem : mem; bhw : H }.

Definition bhw_l : lens boot H := Lens bhw (fun h s => mk_boot (bmem s) h).
Definition set_bmem (f : mem -> mem) (s : boot) : boot := mk_boot (f (bmem s)) (bhw s).

(** [fuel] bounds the polls of the status register. *)
Variable fuel : nat.

Fixpoint waitdisk (n : nat) : M H unit :=
  match n with
  | O => nofuel
  | S k => let* r := inb 0x1F7 in if Z.land r 0xC0 =? 0x40 then ret tt else waitdisk k
  end.

(** The bytes that [insl] stores at [dst]. *)
Definition store_bytes (m : mem) (dst : Z) (l : list Z) : mem :=
  filled m dst (Z.of_nat (length l)) (fun i => byte_at l (Z.to_nat i)).

Definition readsect (dst offset : Z) : M boot unit :=
  zoom bhw_l
    (waitdisk fuel ;;
     outb 0x1F2 1 ;;
     outb 0x1F3 (u8 offset) ;;
     outb 0x1F4 (u8 (Z.shiftr offset 8)) ;;
     outb 0x1F5 (u8 (Z.shiftr offset 16)) ;;
     outb 0x1F6 (u8 (Z.lor (Z.shiftr offset 24) 0xE0)) ;;
     outb 0x1F7 0x20 ;;
     waitdisk fuel) ;;
  let* d := zoom bhw_l (insl 0x1F0 (BSIZE / 4)) in
  modify (set_bmem (fun m => store_bytes m dst d)).

(** [for(; pa < epa; pa += SECTSIZE, offset++)]; [n] bounds the sectors. *)
Fixpoint readseg_loop (n : nat) (pa epa offset : Z) : M boot unit :=
  match n with
  | O => if pa <? epa then nofuel else ret tt
  | S k =>
      if pa <? epa then
        readsect pa offset ;;
        readseg_loop k (u32 (pa + SECTSIZE)) epa (u32 (offset + 1))
      else ret tt
  end.

Definition readseg (pa count offset : Z) : M boot unit :=
  let epa := u32 (pa + count) in
  let pa := u32 (pa - offset `mod` SECTSIZE) in
  let offset := offset / SECTSIZE + 1 in
  readseg_loop (S (Z.to_nat (count / SECTSIZE + 1))) pa epa offset.

(** One program segment, whose header is at [ph]. *)
Definition load_segment (ph : Z) : M boot unit :=
  let* s := get in
  let pa := load32 (bmem s) (ph + PH_PADDR) in
  readseg pa (load32 (bmem s) (ph + PH_FILESZ)) (load32 (bmem s) (ph + PH_OFF)) ;;
  let* s := get in
  let filesz := load32 (bmem s) (ph + PH_FILESZ) in
  let memsz := load32 (bmem s) (ph + PH_MEMSZ) in
  when (memsz >? filesz) (modify (set_bmem (stosb (Z.to_nat (memsz - filesz)) (u32 (pa + filesz)) 0))).

(** [bootmain]: the address it jumps to, [None] if it returns. *)
Definition bootmain : M boot (option Z) :=
  let elf := 0x10000 in
  readseg elf 4096 0 ;;
  let* s := get in
  if negb (load32 (bmem s) elf =? ELF_MAGIC) then ret None
  else
    let ph := u32 (elf + load32 (bmem s) (elf + ELF_PHOFF)) in
    let phnum := bmem s (elf + ELF_PHNUM) + 256 * bmem s (elf + ELF_PHNUM + 1) in
    let eph := u32 (ph + PROGHDR_SIZE * phnum) in
    for_all (zrange 0 (Z.to_nat ((eph - ph) / PROGHDR_SIZE))) (fun i => load_segment (ph + PROGHDR_SIZE * i)) ;;
    let* s := get in
    ret (Some (load32 (bmem s) (elf + ELF_ENTRY))).

End Boot.
Arguments boot H : clear implicits.

(** ** Sectors *)

Section Spec.
Context {H : Type} `{Ports H} {bound : nat} `{!AtaSpec (H := H) bound}.
Abbreviation polls := (@fuel bound).

Lemma waitdisk_run n (h : H) :
  (busy_for h < n)%nat ->
  exists h', waitdisk n h = ([], Ret tt h') /\ busy_for h' = 0%nat /\ a_phase h' = a_phase h /\
    (forall d l, sect h' d l = sect h d l).
Proof.
  revert h. induction n as [|n IH]; intros h Hn; [lia|]. cbn [waitdisk].
  destruct (busy_for h) as [|k] eqn:E.
  - destruct (ata_status_ready h E) as (v & h' & Ei & K1 & _ & K3 & K4 & K5). run_with Ei. rewrite K1. cbn. eauto 6.
  - destruct (ata_status_busy h k E) as (v & h' & Ei & K1 & K2 & K3 & K4). run_with Ei.
    destruct (Z.eqb_spec (Z.land v 0xC0) 0x40); [done|].
    destruct (IH h') as (h2 & E2 & H5 & H6 & H7); [lia|]. exists h2. split; [done|]. split; [done|].
    split; [congruence|]. intros d l. by rewrite H7.
Qed.

Lemma polls_enough (h : H) : (busy_for h < polls)%nat.
Proof. unfold fuel. pose proof (ata_busy_bound h). lia. Qed.

(** The registers hold the number of the sector on drive 0. *)
Lemma sector_regs n :
  0 <= n < 2 ^ 28 ->
  u8 n = n `mod` 256 /\ u8 (Z.shiftr n 8) = (n / 2 ^ 8) `mod` 256 /\ u8 (Z.shiftr n 16) = (n / 2 ^ 16) `mod` 256 /\
  u8 (Z.lor (Z.shiftr n 24) 0xE0) = 0xe0 + 16 * 0 + n / 2 ^ 24.
Proof using Type.
  intros Hn. unfold u8. rewrite !Z.shiftr_div_pow2 by lia. split; [done|]. split; [done|]. split; [done|].
  assert (0 <= n / 2 ^ 24 < 16) as Hq by (split; [apply Z.div_pos; lia|apply Z.div_lt_upper_bound; lia]).
  apply Z.eqb_eq. by apply (zrange_check (fun q => Z.lor q 0xE0 `mod` 256 =? 0xe0 + 16 * 0 + q) 0 16).
Qed.

Lemma readsect_run dst n (s : boot H) :
  a_phase (bhw s) = Ready -> 0 <= n < 2 ^ 28 ->
  exists h', readsect polls dst n s = ([], Ret tt (mk_boot (store_bytes (bmem s) dst (sect (bhw s) 0 n)) h')) /\
    a_phase h' = Ready /\ (forall d l, sect h' d l = sect (bhw s) d l).
Proof.
  intros Hr Hn. unfold readsect. destruct (sector_regs n Hn) as (-> & -> & -> & ->).
  destruct (waitdisk_run polls (bhw s) (polls_enough _)) as (h1 & E1 & B1 & P1 & S1).
  destruct (ata_read h1 0 n) as (h2 & E2 & P2 & S2); [done|congruence|lia|done|].
  destruct (waitdisk_run polls h2 (polls_enough _)) as (h3 & E3 & B3 & P3 & S3).
  destruct (ata_data h3 0 n) as (h4 & E4 & P4 & S4); [done|congruence|].
  exists h4. split; [|split; [done|intros d l; by rewrite S4, S3, S2, S1]].
  rewrite (bind_nil _ _ _ tt (mk_boot (bmem s) h3)).
  - rewrite (bind_nil _ _ _ (sect h3 0 n) (mk_boot (bmem s) h4)).
    + unfold modify, set_bmem. cbn [bmem bhw]. by rewrite S3, S2, S1.
    + unfold zoom. change (lget bhw_l (mk_boot (bmem s) h3)) with h3. by rewrite E4.
  - unfold zoom. change (lget bhw_l s) with (bhw s). rewrite (bind_nil _ _ _ _ _ E1). unfold command in E2.
    repeat (apply bind_inv in E2 as (e & [] & ? & e2 & Ex & E2 & Ee); symmetry in Ee; apply app_nil in Ee as [-> ->];
      rewrite (bind_nil _ _ _ _ _ Ex); clear Ex).
    rewrite (bind_nil _ _ _ _ _ E2), E3. done.
Qed.

(** ** Ranges of the file *)

(** [size] sectors from sector 1 of drive 0 hold the bytes of the file [img]. *)
Definition image_sector (img : mem) (k : Z) : list Z := (fun i => img (SECTSIZE * k + i)) <$> zrange 0 BSIZE.

Definition on_disk (h : H) (img : mem) (size : Z) : Prop :=
  a_phase h = Ready /\ forall k, 0 <= k < size -> sect h 0 (k + 1) = image_sector img k.

Lemma image_byte img k i : 0 <= i < SECTSIZE -> byte_at (image_sector img k) (Z.to_nat i) = img (SECTSIZE * k + i).
Proof using Type.
  unfold SECTSIZE. intros Hi. unfold image_sector, zrange. rewrite byte_at_lookup, !list_lookup_fmap, lookup_seq_lt by (unfold BSIZE; lia).
  cbn [fmap option_fmap option_map]. unfold default, id, SECTSIZE. by replace (0 + Z.of_nat (0 + Z.to_nat i)) with i by lia.
Qed.

Lemma length_image img k : length (image_sector img k) = BSIZE.
Proof using Type. unfold image_sector, zrange. by rewrite !length_fmap, length_seq. Qed.

(** Memory with [n] bytes of the file from [off] on at [pa]. *)
Definition with_file (m : mem) (img : mem) (pa n off : Z) : mem := filled m pa n (fun i => img (off + i)).

Lemma readseg_loop_run j n pa epa k img size (s : boot H) :
  on_disk (bhw s) img size -> 0 <= k -> k + Z.of_nat j <= size -> size < 2 ^ 28 - 1 ->
  0 <= pa -> pa + SECTSIZE * Z.of_nat j < 2 ^ 32 -> (j <= n)%nat ->
  epa <= pa + SECTSIZE * Z.of_nat j -> (j <> O -> pa + SECTSIZE * (Z.of_nat j - 1) < epa) ->
  exists m' h', readseg_loop polls n pa epa (k + 1) s = ([], Ret tt (mk_boot m' h')) /\ on_disk h' img size /\
    forall x, m' x = with_file (bmem s) img pa (SECTSIZE * Z.of_nat j) (SECTSIZE * k) x.
Proof.
  unfold SECTSIZE. revert n pa k s. induction j as [|j IH]; intros n pa k s Hd Hk Hks Hsz Hpa Hmax Hn He Hlast.
  - exists (bmem s), (bhw s). split; [|split; [done|]].
    + destruct n; cbn [readseg_loop]; (destruct (Z.ltb_spec pa epa); [lia|]); by destruct s.
    + intros x. unfold with_file. by rewrite filled_out by lia.
  - destruct n as [|n]; [lia|]. cbn [readseg_loop]. destruct (Z.ltb_spec pa epa); [|lia].
    destruct Hd as [Hr Hd]. destruct (readsect_run pa (k + 1) s Hr ltac:(lia)) as (h1 & E1 & P1 & S1).
    rewrite (bind_nil _ _ _ _ _ E1). rewrite Hd by lia. unfold SECTSIZE. rewrite !u32_small by lia.
    replace (k + 1 + 1) with ((k + 1) + 1) by lia.
    set (s1 := mk_boot (store_bytes (bmem s) pa (image_sector img k)) h1).
    destruct (IH n (pa + 512) (k + 1) s1) as (m2 & h2 & E2 & D2 & M2); [|lia..|].
    { split; [done|]. intros l Hl. cbn [bhw s1]. rewrite S1. by apply Hd. }
    exists m2, h2. split; [done|]. split; [done|]. intros x. rewrite M2. unfold with_file. cbn [bmem s1].
    unfold store_bytes, filled. rewrite length_image. unfold BSIZE.
    destruct (Z.leb_spec (pa + 512) x), (Z.ltb_spec x (pa + 512 + 512 * Z.of_nat j)), (Z.leb_spec pa x),
      (Z.ltb_spec x (pa + 512 * Z.of_nat (S j))), (Z.ltb_spec x (pa + Z.of_nat 512)); cbn [andb]; try lia; try done.
    + f_equal. lia.
    + apply image_byte. unfold SECTSIZE. lia.
Qed.

(** [readseg] puts the bytes asked for in place, and whole sectors around them. *)
Lemma readseg_run pa count off img size (s : boot H) :
  on_disk (bhw s) img size -> 0 <= off -> 0 <= count -> off + count <= SECTSIZE * size -> size < 2 ^ 28 - 1 ->
  0 <= pa - off `mod` SECTSIZE -> pa + count + SECTSIZE < 2 ^ 32 ->
  exists m' h', readseg polls pa count off s = ([], Ret tt (mk_boot m' h')) /\ on_disk h' img size /\
    (forall i, 0 <= i < count -> m' (pa + i) = img (off + i)) /\
    (forall x, x < pa - off `mod` SECTSIZE -> m' x = bmem s x).
Proof.
  unfold SECTSIZE. intros Hd Ho Hc Hos Hsz Hpa Hmax. unfold readseg, SECTSIZE.
  pose proof (Z.mod_pos_bound off 512 ltac:(lia)) as Hm. pose proof (Z.div_mod off 512 ltac:(lia)) as Hdm.
  rewrite !u32_small by lia. set (p0 := pa - off `mod` 512) in *.
  set (j := Z.to_nat ((off `mod` 512 + count + 511) / 512)).
  pose proof (Z.div_mod (off `mod` 512 + count + 511) 512 ltac:(lia)). pose proof (Z.mod_pos_bound (off `mod` 512 + count + 511) 512 ltac:(lia)).
  pose proof (Z.div_mod count 512 ltac:(lia)). pose proof (Z.mod_pos_bound count 512 ltac:(lia)).
  assert (0 <= (off `mod` 512 + count + 511) / 512) by (apply Z.div_pos; lia).
  destruct (readseg_loop_run j (S (Z.to_nat (count / 512 + 1))) p0 (pa + count) (off / 512) img size s)
    as (m' & h' & E & D & M); unfold SECTSIZE; try lia; [done|].
  exists m', h'. split; [exact E|]. split; [exact D|]. unfold SECTSIZE in M. split.
  - intros i Hi. rewrite M. unfold with_file. rewrite filled_in by lia. f_equal. lia.
  - intros x Hx. rewrite M. unfold with_file. rewrite filled_out by lia. done.
Qed.
(** ** Segments *)

Record seg := mk_seg { g_pa : Z; g_filesz : Z; g_memsz : Z; g_off : Z }.

(** The program header at offset [o] of the file. *)
Definition header (img : mem) (o : Z) : seg :=
  mk_seg (load32 img (o + PH_PADDR)) (load32 img (o + PH_FILESZ)) (load32 img (o + PH_MEMSZ)) (load32 img (o + PH_OFF)).

(** The segment is in memory: its part of the file, and zeroes after it. *)
Definition present (m img : mem) (g : seg) : Prop :=
  (forall i, 0 <= i < g_filesz g -> m (g_pa g + i) = img (g_off g + i)) /\
  (forall i, g_filesz g <= i < g_memsz g -> m (g_pa g + i) = 0).

Definition g_end (g : seg) : Z := g_pa g + Z.max (g_filesz g) (g_memsz g).

(** The segments are in increasing order in memory from [lo] on, with room for the
    rest of the first sector of each, and inside the file. *)
Fixpoint placed (size lo : Z) (gs : list seg) : Prop :=
  match gs with
  | [] => True
  | g :: gs' =>
      lo <= g_pa g - g_off g `mod` SECTSIZE /\ g_end g + SECTSIZE < 2 ^ 32 /\
      g_off g + g_filesz g <= SECTSIZE * size /\ placed size (g_end g) gs'
  end.

(** The first page of the file is where [bootmain] puts it. *)
Definition scratch (m img : mem) : Prop := forall x, 0 <= x < 4096 -> m (0x10000 + x) = img x.

Lemma scratch_load m img o : scratch m img -> 0 <= o -> o + 4 <= 4096 -> load32 m (0x10000 + o) = load32 img o.
Proof using Type.
  intros Hs Ho H4. unfold load32. rewrite <- !Z.add_assoc. by rewrite !Hs by lia.
Qed.

Lemma load_segment_run o img size (s : boot H) :
  mem_ok img -> on_disk (bhw s) img size -> size < 2 ^ 28 - 1 -> scratch (bmem s) img -> 0 <= o -> o + 32 <= 4096 ->
  let g := header img o in
  placed size 0x11000 [g] ->
  exists m' h', load_segment polls (0x10000 + o) s = ([], Ret tt (mk_boot m' h')) /\ on_disk h' img size /\
    present m' img g /\ (forall x, x < g_pa g - g_off g `mod` SECTSIZE -> m' x = bmem s x).
Proof.
  intros Hok Hd Hsz Hs Ho H32 g (Hlo & Hend & Hfile & _).
  pose proof (load32_range img (o + PH_PADDR) Hok) as R1. pose proof (load32_range img (o + PH_FILESZ) Hok) as R2.
  pose proof (load32_range img (o + PH_OFF) Hok) as R3. pose proof (load32_range img (o + PH_MEMSZ) Hok) as R4.
  change (load32 img (o + PH_PADDR)) with (g_pa g) in R1. change (load32 img (o + PH_FILESZ)) with (g_filesz g) in R2.
  change (load32 img (o + PH_OFF)) with (g_off g) in R3. change (load32 img (o + PH_MEMSZ)) with (g_memsz g) in R4.
  unfold load_segment. rewrite (bind_nil get _ s s s) by done.
  assert (forall m f, scratch m img -> 0 <= f <= 20 -> load32 m (0x10000 + o + f) = load32 img (o + f)) as Hload.
  { intros m f Hm Hf. rewrite <- Z.add_assoc. apply scratch_load; [done|lia..]. }
  rewrite !Hload by (done || (unfold PH_PADDR, PH_FILESZ, PH_OFF; lia)). fold g. cbn zeta.
  change (load32 img (o + PH_PADDR)) with (g_pa g). change (load32 img (o + PH_FILESZ)) with (g_filesz g).
  change (load32 img (o + PH_OFF)) with (g_off g).
  pose proof (Z.mod_pos_bound (g_off g) SECTSIZE ltac:(done)) as Hmod. unfold g_end in Hend.
  destruct (readseg_run (g_pa g) (g_filesz g) (g_off g) img size s) as (m1 & h1 & E1 & D1 & P1 & L1); [done|lia..|].
  rewrite (bind_nil _ _ _ _ _ E1). set (s1 := mk_boot m1 h1). rewrite (bind_nil get _ s1 s1 s1) by done. cbn [bmem s1].
  assert (scratch m1 img) as Hs1.
  { intros x Hx. rewrite L1 by lia. by apply Hs. }
  rewrite !Hload by (done || (unfold PH_MEMSZ, PH_FILESZ; lia)).
  change (load32 img (o + PH_FILESZ)) with (g_filesz g). change (load32 img (o + PH_MEMSZ)) with (g_memsz g).
  destruct (Z.gtb_spec (g_memsz g) (g_filesz g)); cbn [when].
  - eexists _, h1. split; [reflexivity|]. split; [done|]. rewrite u32_small by lia.
    assert (forall x, stosb (Z.to_nat (g_memsz g - g_filesz g)) (g_pa g + g_filesz g) 0 m1 x =
      filled m1 (g_pa g + g_filesz g) (g_memsz g - g_filesz g) (fun _ => 0) x) as Hst.
    { intros x. rewrite stosb_filled by (unfold SECTSIZE in *; lia). rewrite Z2Nat.id by lia. done. }
    split; [split|].
    + intros i Hi. rewrite Hst, filled_out by lia. by apply P1.
    + intros i Hi. by rewrite Hst, filled_in by lia.
    + intros x Hx. rewrite Hst, filled_out by lia. by apply L1.
  - exists m1, h1. split; [done|]. split; [done|]. split; [split; [done|intros i Hi; lia]|done].
Qed.
Lemma placed_mono size lo lo' gs : lo' <= lo -> placed size lo gs -> placed size lo' gs.
Proof using Type. destruct gs as [|g gs]; [done|]. intros Hlo (K1 & K2 & K3 & K4). split; [lia|done]. Qed.

Lemma present_mono m m' img g : (forall x, x < g_end g -> m' x = m x) -> present m img g -> present m' img g.
Proof using Type.
  unfold g_end. intros Hm [P1 P2]. split; intros i Hi; rewrite Hm by lia; auto.
Qed.

Lemma load_all_run l phoff lo img size (s : boot H) :
  mem_ok img -> on_disk (bhw s) img size -> size < 2 ^ 28 - 1 -> scratch (bmem s) img -> 0 <= phoff -> 0x11000 <= lo ->
  Forall (fun i => 0 <= i /\ phoff + 32 * i + 32 <= 4096) l ->
  let gs := (fun i => header img (phoff + 32 * i)) <$> l in
  placed size lo gs ->
  exists m' h', for_all l (fun i => load_segment polls (0x10000 + phoff + PROGHDR_SIZE * i)) s = ([], Ret tt (mk_boot m' h')) /\
    on_disk h' img size /\ (forall g, g ∈ gs -> present m' img g) /\ (forall x, x < lo -> m' x = bmem s x).
Proof.
  intros Hok. revert lo s. induction l as [|i l IH]; intros lo s Hd Hsz Hs Hph Hlo Hl gs Hp; cbn [for_all].
  { exists (bmem s), (bhw s). split; [by destruct s|]. split; [done|]. split; [|done]. intros g Hg. by apply elem_of_nil in Hg. }
  apply Forall_cons in Hl as [[Hi Hi'] Hl]. cbn [fmap list_fmap] in gs. set (g := header img (phoff + 32 * i)) in *.
  destruct Hp as (K1 & K2 & K3 & K4). cbn [placed] in K4.
  destruct (load_segment_run (phoff + 32 * i) img size s Hok Hd Hsz Hs) as (m1 & h1 & E1 & D1 & P1 & L1); [lia|lia|split; [fold g; lia|done]|].
  fold g in P1, L1. unfold PROGHDR_SIZE. replace (0x10000 + phoff + 32 * i) with (0x10000 + (phoff + 32 * i)) by lia.
  rewrite (bind_nil _ _ _ _ _ E1). pose proof (Z.mod_pos_bound (g_off g) SECTSIZE ltac:(done)) as Hmod.
  assert (lo <= g_end g) as Hge.
  { unfold g_end. pose proof (load32_range img (phoff + 32 * i + PH_FILESZ) Hok) as R. change (load32 img (phoff + 32 * i + PH_FILESZ)) with (g_filesz g) in R. lia. }
  destruct (IH (g_end g) (mk_boot m1 h1)) as (m2 & h2 & E2 & D2 & P2 & L2); [done|done| |done|lia|done|done|].
  { intros x Hx. cbn [bmem]. rewrite L1 by lia. by apply Hs. }
  exists m2, h2. split; [exact E2|]. split; [done|]. cbn [bmem] in L2. split.
  - intros g' [->|Hg']%elem_of_cons; [|by apply P2]. by apply (present_mono m1).
  - intros x Hx. rewrite L2 by lia. apply L1. lia.
Qed.
End Spec.

(** C34: [bootmain] loads the kernel.  Given an ELF file on the disk from sector 1 on,
    whose headers are in its first page and whose segments are placed in memory in
    increasing order above the page where the headers are read, the loader ends with
    every segment in memory, its part of the file followed by zeroes, and jumps to the
    entry point; the whole sectors that are read around a segment never spoil another
    one. *)
Theorem bootmain_loads {H} `{Ports H} {bound : nat} `{!AtaSpec (H := H) bound} (img : mem) (size : Z) (s : boot H) :
  let phoff := load32 img ELF_PHOFF in
  let phnum := img ELF_PHNUM + 256 * img (ELF_PHNUM + 1) in
  let gs := (fun i => header img (phoff + 32 * i)) <$> zrange 0 (Z.to_nat phnum) in
  mem_ok img -> on_disk (bhw s) img size -> 8 <= size < 2 ^ 28 - 1 ->
  load32 img 0 = ELF_MAGIC -> phoff + 32 * phnum <= 4096 -> placed size 0x11000 gs ->
  exists s', bootmain (@fuel bound) s = ([], Ret (Some (load32 img ELF_ENTRY)) s') /\
    forall g, g ∈ gs -> present (bmem s') img g.
Proof.
  intros phoff phnum gs Hok Hd Hsz Hmagic Hhdr Hp. unfold bootmain.
  destruct (readseg_run 0x10000 4096 0 img size s) as (m1 & h1 & E1 & D1 & P1 & _); [done|unfold SECTSIZE; rewrite ?Z.mod_0_l by lia; lia..|].
  rewrite (bind_nil _ _ _ _ _ E1). set (s1 := mk_boot m1 h1). rewrite (bind_nil get _ s1 s1 s1) by done. cbn [bmem s1].
  assert (scratch m1 img) as Hs1 by (intros x Hx; rewrite P1 by lia; done).
  replace (load32 m1 0x10000) with (load32 m1 (0x10000 + 0)) by done.
  rewrite !(scratch_load m1 img) by (done || (unfold ELF_PHOFF; lia)). rewrite Hmagic, Z.eqb_refl. cbn [negb].
  assert (0 <= phoff < 2 ^ 32) as Hph by (by apply load32_range).
  assert (0 <= phnum) as Hn by (unfold phnum; pose proof (Hok ELF_PHNUM); pose proof (Hok (ELF_PHNUM + 1)); lia).
  rewrite (Hs1 ELF_PHNUM), <- Z.add_assoc, (Hs1 (ELF_PHNUM + 1)) by (unfold ELF_PHNUM; lia).
  fold phoff phnum. rewrite (u32_small (0x10000 + phoff)) by lia. rewrite u32_small by (unfold PROGHDR_SIZE; lia).
  replace ((0x10000 + phoff + PROGHDR_SIZE * phnum - (0x10000 + phoff)) / PROGHDR_SIZE) with phnum.
  2: { replace (0x10000 + phoff + PROGHDR_SIZE * phnum - (0x10000 + phoff)) with (phnum * PROGHDR_SIZE) by lia. by rewrite Z.div_mul. }
  destruct (load_all_run (zrange 0 (Z.to_nat phnum)) phoff 0x11000 img size s1) as (m2 & h2 & E2 & D2 & P2 & L2); try done; try lia.
  { apply Forall_forall. intros i Hi%elem_of_zrange. lia. }
  rewrite (bind_nil _ _ _ _ _ E2). set (s2 := mk_boot m2 h2). rewrite (bind_nil get _ s2 s2 s2) by done.
  exists s2. split; [|done]. cbn [bmem s2]. unfold ret. do 3 f_equal.
  apply scratch_load; [|unfold ELF_ENTRY; lia..]. intros x Hx. rewrite L2 by lia. by apply Hs1.
Qed.

(** A kernel of four bytes and as many zeroes, at 0x100064. *)
Module Tiny.
#[local] Existing Instance Ata.ata_ports.
#[local] Existing Instance Ata.ata_spec.

Definition file : list Z :=
  [127; 69; 76; 70; 1; 1; 1; 0; 0; 0; 0; 0; 0; 0; 0; 0; 2; 0; 3; 0; 1; 0; 0; 0; 12; 0; 16; 0] ++
  [52; 0; 0; 0; 0; 0; 0; 0; 0; 0; 0; 0; 52; 0; 32; 0; 1; 0; 0; 0; 0; 0; 0; 0] ++
  [1; 0; 0; 0; 100; 0; 0; 0; 100; 0; 16; 128; 100; 0; 16; 0; 4; 0; 0; 0; 8; 0; 0; 0; 7; 0; 0; 0; 4; 0; 0; 0] ++ repeat 0 16 ++ [1; 2; 3; 4].
Definition img : mem := fun x => byte_at file (Z.to_nat x).
Definition disk : Ata.ata :=
  Ata.mk_ata 0 0 0 0 Ata.Off false (fun d l => image_sector img (l - 1)).

Lemma img_ok : mem_ok img.
Proof.
  intros x. unfold img. rewrite byte_at_lookup. destruct (file !! Z.to_nat x) as [b|] eqn:E; cbn; [|lia].
  assert (forallb (fun b => (0 <=? b) && (b <? 256)) file = true) as Hf by reflexivity.
  rewrite forallb_forall in Hf. apply list_elem_of_lookup_2, list_elem_of_In, Hf in E. lia.
Qed.

Lemma bootmain_loads_witness :
  exists s', bootmain 2 (mk_boot (fun _ => 0xff) disk) = ([], Ret (Some 0x10000c) s') /\
    present (bmem s') img (mk_seg 0x100064 4 8 100) /\ bmem s' 0x100065 = 2 /\ bmem s' 0x100069 = 0.
Proof.
  destruct (bootmain_loads (bound := 1) img 8 (mk_boot (fun _ => 0xff) disk)) as (s' & E & P).
  - exact img_ok.
  - split; [reflexivity|]. intros k Hk. cbn. unfold image_sector. by replace (k + 1 - 1) with k by lia.
  - lia.
  - reflexivity.
  - vm_compute. discriminate.
  - vm_compute. repeat split; discriminate.
  - exists s'. split; [exact E|]. assert (present (bmem s') img (mk_seg 0x100064 4 8 100)) as K.
    { apply P. apply list_elem_of_In. left. vm_compute. reflexivity. }
    split; [exact K|]. destruct K as [K1 K2]. split; [exact (K1 1 ltac:(cbn; lia))|exact (K2 5 ltac:(cbn; lia))].
Defined.
End Tiny.
