(* ===== verification/Umalloc.v ===== *)
(** * The user-level allocator: umalloc.c

    The free list is a circular list of headers in the memory of the process, in
    the order of addresses; [freep] is where the last search ended.  The heap is
    what [sbrk] returned so far. *)

From stdpp Require Import base numbers list.
From S2P Require Import Prelude Bytes Mem.

Open Scope Z_scope.

(** [sizeof(Header)]; [s.ptr] is the first word of a header, [s.size] the second. *)
Definition HEADER : Z := 8.

(** The memory of the process, [freep], the end of the heap, and how often more
    memory was asked for. *)
Record heap := mk_heap { um : mem; freep : Z; brk : Z; asked : nat }.

Definition on_um (f : mem -> mem) (h : heap) : heap := mk_heap (f (um h)) (freep h) (brk h) (asked h).
Definition set_freep (p : Z) (h : heap) : heap := mk_heap (um h) p (brk h) (asked h).

Definition get_ptr (p : Z) : M heap Z := gets (fun h => load32 (um h) p).
Definition get_size (p : Z) : M heap Z := gets (fun h => load32 (um h) (p + 4)).
Definition set_ptr (p v : Z) : M heap unit := modify (on_um (fun m => store32 m p v)).
Definition set_size (p v : Z) : M heap unit := modify (on_um (fun m => store32 m (p + 4) v)).

Section Umalloc.
(** The address of the static header [base]. *)
Variable base : Z.
(** Whether the kernel has memory for the [n]-th request. *)
Variable sbrk_ok : nat -> bool.

(** The system call [sbrk] of an [int]: the old end of the heap, or -1.  A process
    never grows to [KERNBASE] and beyond.  With a negative argument it shrinks, unless
    less than nothing would be left; shrinking to nothing is reported as a failure. *)
Definition sbrk (n : Z) : M heap Z := fun h =>
  let n := s32 n in
  let answer r b := ([], Ret r (mk_heap (um h) (freep h) b (S (asked h)))) in
  if n >? 0 then
    if sbrk_ok (asked h) && (brk h + n <? 2 ^ 31) then answer (brk h) (brk h + n) else answer (2 ^ 32 - 1) (brk h)
  else
    let newsz := u32 (brk h + n) in
    if newsz >=? brk h then answer (brk h) (brk h)
    else if newsz =? 0 then answer (2 ^ 32 - 1) (brk h)
    else answer (brk h) newsz.

(** The loop of [free] that looks for the node before [bp]. *)
Fixpoint free_scan (fuel : nat) (bp p : Z) : M heap Z :=
  match fuel with
  | O => nofuel
  | S k =>
      let* q := get_ptr p in
      if (bp >? p) && (bp <? q) then ret p
      else if (p >=? q) && ((bp >? p) || (bp <? q)) then ret p
      else free_scan k bp q
  end.

(** [p + p->s.size] *)
Definition block_end (p size : Z) : Z := u32 (p + HEADER * size).

(** [bp] goes in front of the node after [p], or swallows it when they touch. *)
Definition join_next (bp p : Z) : M heap unit :=
  let* q := get_ptr p in
  let* bsize := get_size bp in
  if block_end bp bsize =? q then
    let* qsize := get_size q in
    set_size bp (u32 (bsize + qsize)) ;;
    let* qptr := get_ptr q in
    set_ptr bp qptr
  else set_ptr bp q.

(** [bp] goes behind [p], or is swallowed by it. *)
Definition join_prev (p bp : Z) : M heap unit :=
  let* psize := get_size p in
  if block_end p psize =? bp then
    let* bsize := get_size bp in
    set_size p (u32 (psize + bsize)) ;;
    let* bptr := get_ptr bp in
    set_ptr p bptr
  else set_ptr p bp.

Definition free (fuel : nat) (ap : Z) : M heap unit :=
  let bp := u32 (ap - HEADER) in
  let* fp := gets freep in
  let* p := free_scan fuel bp fp in
  join_next bp p ;;
  join_prev p bp ;;
  modify (set_freep p).

Definition morecore (fuel : nat) (nu : Z) : M heap Z :=
  let nu := if nu <? 4096 then 4096 else nu in
  let* p := sbrk (u32 (nu * HEADER)) in
  if p =? 2 ^ 32 - 1 then ret 0
  else
    set_size p nu ;;
    free fuel (u32 (p + HEADER)) ;;
    gets freep.

(** The part of the block [p] that is handed out, with [prevp] before it. *)
Definition take_block (prevp p size nunits : Z) : M heap Z :=
  let* r :=
    if size =? nunits then
      let* q := get_ptr p in
      set_ptr prevp q ;;
      ret p
    else
      set_size p (size - nunits) ;;
      let p' := block_end p (size - nunits) in
      set_size p' nunits ;;
      ret p' in
  modify (set_freep prevp) ;;
  ret (u32 (r + HEADER)).

(** The search loop of [malloc]. *)
Fixpoint malloc_scan (fuel : nat) (nunits prevp p : Z) : M heap Z :=
  match fuel with
  | O => nofuel
  | S k =>
      let* size := get_size p in
      if size >=? nunits then take_block prevp p size nunits
      else
        let* fp := gets freep in
        if p =? fp then
          let* p := morecore k nunits in
          if p =? 0 then ret 0
          else
            let* q := get_ptr p in
            malloc_scan k nunits p q
        else
          let* q := get_ptr p in
          malloc_scan k nunits p q
  end.

Definition malloc (fuel : nat) (nbytes : Z) : M heap Z :=
  let nunits := u32 (u32 (nbytes + HEADER - 1) / HEADER + 1) in
  let* fp := gets freep in
  let* prevp :=
    if fp =? 0 then
      modify (set_freep base) ;;
      set_ptr base base ;;
      set_size base 0 ;;
      ret base
    else ret fp in
  let* p := get_ptr prevp in
  malloc_scan fuel nunits prevp p.

End Umalloc.
