(* ===== verification/UmallocInv.v ===== *)
(** * The user-level allocator: blocks and the free list

    The heap is cut into blocks, free or in use.  The free ones are on the list,
    in the order of their addresses, behind the static header. *)

From stdpp Require Import base numbers list sorting.
From S2P Require Import Prelude Bytes Mem Umalloc.

Open Scope Z_scope.

(** ** Blocks: address and size in units *)

Definition block : Type := Z * Z.

(** The end of a block, which has at least a header. *)
Definition bend (x : block) : Z := x.1 + HEADER * Z.max x.2 1.

Definition before (x y : block) : Prop := bend x <= y.1.
Definition apart (x y : block) : Prop := before x y \/ before y x.

Definition hd_addr (l : list block) (d : Z) : Z := match l with [] => d | x :: _ => x.1 end.

(** The headers of [l] are linked, the last one to [last]. *)
Fixpoint chain (m : mem) (l : list block) (last : Z) : Prop :=
  match l with
  | [] => True
  | x :: l' => load32 m x.1 = hd_addr l' last /\ load32 m (x.1 + 4) = x.2 /\ chain m l' last
  end.

Fixpoint units (l : list block) : Z := match l with [] => 0 | x :: l' => x.2 + units l' end.

Lemma hd_addr_app l1 l2 d : hd_addr (l1 ++ l2) d = hd_addr l1 (hd_addr l2 d).
Proof. by destruct l1. Qed.

Lemma chain_app m l1 l2 last :
  chain m (l1 ++ l2) last <-> chain m l1 (hd_addr l2 last) /\ chain m l2 last.
Proof.
  induction l1 as [|x l1 IH]; cbn; [tauto|]. rewrite IH, hd_addr_app. tauto.
Qed.

(** Memory that agrees on the headers. *)
Definition same_header (m m' : mem) (x : block) : Prop :=
  forall i, x.1 <= i < x.1 + HEADER -> m' i = m i.

Lemma same_header_load m m' x :
  same_header m m' x -> load32 m' x.1 = load32 m x.1 /\ load32 m' (x.1 + 4) = load32 m (x.1 + 4).
Proof.
  unfold same_header, HEADER. intros H. split; apply load32_ext; intros; apply H; lia.
Qed.

Lemma chain_same m m' l last :
  Forall (same_header m m') l -> chain m l last -> chain m' l last.
Proof.
  induction 1 as [|x l Hx _ IH]; [done|]. cbn. intros (H1 & H2 & H3).
  destruct (same_header_load _ _ _ Hx) as [-> ->]. auto.
Qed.

Lemma chain_rotate m l1 l2 :
  chain m (l1 ++ l2) (hd_addr (l1 ++ l2) 0) -> chain m (l2 ++ l1) (hd_addr (l2 ++ l1) 0).
Proof.
  destruct l1 as [|x l1], l2 as [|y l2]; rewrite ?app_nil_r; try done.
  rewrite !chain_app. cbn. tauto.
Qed.

Lemma units_app l1 l2 : units (l1 ++ l2) = units l1 + units l2.
Proof. induction l1 as [|x l1 IH]; cbn; [lia|]. rewrite IH. lia. Qed.

(** ** The invariant *)

Section Inv.
Variable base heap0 : Z.

(** [N] is the free list from [base] on, [U] the blocks in use. *)
Record inv (h : heap) (N U : list block) : Prop := mk_inv {
  i_layout : 0 < base /\ base + HEADER <= heap0 /\ heap0 <= brk h < 2 ^ 31;
  i_base : exists L, N = (base, 0) :: L /\ Forall (fun x => 1 <= x.2) L;
  i_sorted : StronglySorted before N;
  i_chain : chain (um h) N base;
  i_freep : freep h ∈ N.*1;
  i_used : Forall (fun x => 1 <= x.2 /\ load32 (um h) (x.1 + 4) = x.2) U;
  i_nodup : NoDup U;
  i_apart : forall x y, x ∈ U -> y ∈ N \/ (y ∈ U /\ y <> x) -> apart x y;
  i_range : forall x, x ∈ N \/ x ∈ U -> base <= x.1 /\ bend x <= brk h;
  i_low : forall x, x ∈ U \/ (x ∈ N /\ x <> (base, 0)) -> heap0 <= x.1;
  i_units : HEADER * (units N + units U) = brk h - heap0
}.

(** [x] is the block a client may write in; nothing in it changes. *)
Definition kept (m m' : mem) (U : list block) : Prop :=
  forall x i, x ∈ U -> x.1 + 4 <= i < bend x -> m' i = m i.

Lemma kept_refl m U : kept m m U.
Proof. by intros x i _ _. Qed.

Lemma kept_after m1 m2 m3 U : kept m1 m2 U -> kept m2 m3 U -> kept m1 m3 U.
Proof. intros H1 H2 x i Hx Hi. by rewrite (H2 x i), (H1 x i). Qed.

(** A write inside a block apart from those in use. *)
Lemma kept_store m a v y U :
  (forall x, x ∈ U -> apart x y) -> y.1 <= a -> a + 4 <= bend y -> kept m (store32 m a v) U.
Proof.
  intros Hy H1 H2 x i Hx Hi. apply store32_other. destruct (Hy x Hx) as [H|H]; unfold before, bend in *; lia.
Qed.

Lemma bend_pos x : x.1 + HEADER <= bend x.
Proof. unfold bend, HEADER. lia. Qed.

Lemma bend_size x : 1 <= x.2 -> bend x = x.1 + HEADER * x.2.
Proof. unfold bend. intros. by rewrite Z.max_l. Qed.

(** ** The search of [free] *)

(** The test of the loop at [p] with [q] after it. *)
Definition stops (bp p q : Z) : bool :=
  (bp >? p) && (bp <? q) || (p >=? q) && ((bp >? p) || (bp <? q)).

Lemma free_scan_go fuel bp l1 p l2 last h :
  chain (um h) (l1 ++ p :: l2) last ->
  Forall (fun y => stops bp y.1 (load32 (um h) y.1) = false) l1 ->
  stops bp p.1 (load32 (um h) p.1) = true -> (length l1 < fuel)%nat ->
  free_scan fuel bp (hd_addr (l1 ++ p :: l2) last) h = ([], Ret p.1 h).
Proof.
  revert fuel. induction l1 as [|y l1 IH]; intros fuel Hc Hn Hp Hf;
    (destruct fuel as [|fuel]; [cbn in Hf; lia|]); cbn [free_scan hd_addr app].
  - unfold bind, get_ptr, gets. unfold stops in Hp. apply orb_true_iff in Hp as [->| ->]; [done|].
    by destruct ((bp >? p.1) && (bp <? load32 (um h) p.1)).
  - apply Forall_cons in Hn as [Hy Hn]. destruct Hc as (H1 & _ & Hc).
    rewrite (bind_nil _ _ _ (load32 (um h) y.1) h) by done.
    unfold stops in Hy. apply orb_false_iff in Hy as [-> ->].
    rewrite H1. apply IH; [done|done|done|cbn in Hf; lia].
Qed.

Lemma sorted_split N1 p N2 :
  StronglySorted before (N1 ++ p :: N2) ->
  (forall x, x ∈ N1 -> before x p) /\ (forall x, x ∈ N2 -> before p x) /\
  (forall x y, x ∈ N1 -> y ∈ N2 -> before x y).
Proof.
  intros (H1 & H2 & H3)%StronglySorted_app. repeat split.
  - intros x Hx. apply H1; [done|by left].
  - intros x Hx. apply StronglySorted_inv in H3 as [_ H3]. rewrite Forall_forall in H3. auto.
  - intros x y Hx Hy. apply H1; [done|by right].
Qed.

(** The place of a block among the free ones. *)
Lemma split_sorted x0 l b :
  StronglySorted before (x0 :: l) -> before x0 b -> (forall y, y ∈ l -> apart b y) ->
  exists N1 p N2, x0 :: l = N1 ++ p :: N2 /\ before p b /\ (forall y, y ∈ N2 -> before b y).
Proof.
  revert x0. induction l as [|y l IH]; intros x0 Hs Hx Ha.
  { exists [], x0, []. split; [done|]. split; [done|]. by intros y ?%elem_of_nil. }
  apply StronglySorted_inv in Hs as [Hs _]. destruct (Ha y) as [Hb|Hb]; [by left| |].
  - exists [], x0, (y :: l). split; [done|]. split; [done|].
    intros z [->|Hz]%elem_of_cons; [done|]. apply StronglySorted_inv in Hs as [_ Hs].
    rewrite Forall_forall in Hs. specialize (Hs z Hz). pose proof (bend_pos y).
    unfold before, HEADER in *. lia.
  - destruct (IH y Hs Hb) as (N1 & p & N2 & E & H1 & H2); [intros z Hz; apply Ha; by right|].
    exists (x0 :: N1), p, N2. by rewrite E.
Qed.

Lemma hd_addr_cases l d : hd_addr l d = d /\ l = [] \/ exists z, z ∈ l /\ hd_addr l d = z.1.
Proof. destruct l as [|z l]; [by left|]. right. exists z. split; [by left|done]. Qed.

Lemma chain_at m l1 y l2 last :
  chain m (l1 ++ y :: l2) last -> load32 m y.1 = hd_addr l2 last /\ load32 m (y.1 + 4) = y.2.
Proof. intros [_ H]%chain_app. cbn in H. tauto. Qed.

(** The loop stops at the node before [b] and at no other. *)
Lemma stops_at m N1 p N2 b :
  StronglySorted before (N1 ++ p :: N2) -> chain m (N1 ++ p :: N2) base ->
  (forall x, x ∈ N1 ++ p :: N2 -> base <= x.1) -> before p b -> (forall y, y ∈ N2 -> before b y) ->
  (forall y, y ∈ N1 \/ y ∈ N2 -> stops b.1 y.1 (load32 m y.1) = false) /\
  stops b.1 p.1 (load32 m p.1) = true.
Proof.
  intros Hs Hc Hb Hp Hn. destruct (sorted_split _ _ _ Hs) as (S1 & S2 & _).
  pose proof (bend_pos p). pose proof (bend_pos b).
  assert (base <= p.1) by (apply Hb, elem_of_app; right; by left).
  unfold before, HEADER in *. split; [intros y [Hy|Hy]|].
  - apply list_elem_of_split in Hy as (l1 & l2 & ->). rewrite <- app_assoc in Hc. cbn in Hc.
    destruct (chain_at _ _ _ _ _ Hc) as [-> _]. rewrite hd_addr_app. cbn.
    assert (y.1 < hd_addr l2 p.1 <= p.1) as Hz.
    { assert (y ∈ l1 ++ y :: l2) as Hin by (apply elem_of_app; right; by left).
      destruct (hd_addr_cases l2 p.1) as [[-> _]|(z & Hz & ->)].
      - specialize (S1 y Hin). pose proof (bend_pos y). unfold HEADER in *. lia.
      - apply StronglySorted_app in Hs as (_ & Hs & _). destruct (sorted_split _ _ _ Hs) as (_ & S3 & _).
        specialize (S3 z Hz). unfold before in S3. pose proof (bend_pos y). pose proof (bend_pos z).
        assert (bend z <= p.1) by (apply S1, elem_of_app; right; by right). unfold HEADER in *. lia. }
    unfold stops. zcase; done.
  - pose proof (Hn y Hy) as Hby. apply list_elem_of_split in Hy as (l1 & l2 & ->).
    rewrite app_comm_cons, app_assoc in Hc. destruct (chain_at _ _ _ _ _ Hc) as [-> _].
    destruct (hd_addr_cases l2 base) as [[-> _]|(z & Hz & ->)].
    + unfold stops. zcase; done.
    + apply StronglySorted_app in Hs as (_ & _ & Hs). apply StronglySorted_inv in Hs as [Hs _].
      destruct (sorted_split _ _ _ Hs) as (_ & S3 & _). specialize (S3 z Hz). unfold before in S3.
      pose proof (bend_pos y). unfold HEADER in *. unfold stops. zcase; done.
  - destruct (chain_at _ _ _ _ _ Hc) as [-> _].
    destruct (hd_addr_cases N2 base) as [[-> _]|(z & Hz & ->)].
    + unfold stops. zcase; done.
    + specialize (Hn z Hz). unfold stops. zcase; done.
Qed.

Lemma free_scan_spec fuel N1 p N2 b h :
  StronglySorted before (N1 ++ p :: N2) -> chain (um h) (N1 ++ p :: N2) base ->
  hd_addr (N1 ++ p :: N2) 0 = base ->
  (forall x, x ∈ N1 ++ p :: N2 -> base <= x.1) -> before p b -> (forall y, y ∈ N2 -> before b y) ->
  freep h ∈ (N1 ++ p :: N2).*1 -> (length (N1 ++ p :: N2) <= fuel)%nat ->
  free_scan fuel b.1 (freep h) h = ([], Ret p.1 h).
Proof.
  intros Hs Hc Hbase Hb Hp Hn Hf Hl.
  destruct (stops_at (um h) N1 p N2 b Hs Hc Hb Hp Hn) as [Hno Hyes].
  set (N := N1 ++ p :: N2) in *.
  apply list_elem_of_fmap in Hf as (x & Ex & Hx). apply list_elem_of_split in Hx as (A & B & EN).
  assert (chain (um h) (x :: B ++ A) x.1) as HC.
  { rewrite <- Hbase, EN in Hc. apply chain_rotate in Hc. exact Hc. }
  assert (p ∈ x :: B ++ A) as Hin.
  { assert (p ∈ N) as Hin by (apply elem_of_app; right; by left). rewrite EN in Hin.
    rewrite elem_of_app, elem_of_cons in Hin. rewrite elem_of_cons, elem_of_app. tauto. }
  apply list_elem_of_split_l in Hin as (l1 & l2 & EC & Hni). rewrite EC in HC.
  rewrite Ex. replace x.1 with (hd_addr (l1 ++ p :: l2) x.1) by (by rewrite <- EC).
  eapply free_scan_go; [exact HC| |done|].
  - apply Forall_forall. intros y Hy. apply Hno.
    assert (y ∈ N) as HyN.
    { rewrite EN, elem_of_app, elem_of_cons. assert (y ∈ x :: B ++ A) as Hy' by (rewrite EC; apply elem_of_app; by left).
      rewrite elem_of_cons, elem_of_app in Hy'. tauto. }
    unfold N in HyN. rewrite elem_of_app, elem_of_cons in HyN.
    destruct HyN as [?|[->|?]]; [by left|done|by right].
  - apply (f_equal length) in EC. rewrite length_app in EC. cbn in EC. rewrite length_app in EC.
    rewrite EN, length_app in Hl. cbn in Hl. lia.
Qed.

(** ** Linking a block in *)

(** Addresses and sizes that fit in a word. *)
Definition fits (x : block) : Prop := 0 < x.1 /\ 0 <= x.2 /\ bend x < 2 ^ 31.

Lemma hd_addr_fits l : Forall fits l -> 0 < base < 2 ^ 31 -> 0 < hd_addr l base < 2 ^ 31.
Proof.
  intros Hl Hb. destruct Hl as [|x l (H1 & H2 & H3) _]; [done|]. cbn. pose proof (bend_pos x).
  unfold HEADER in *. lia.
Qed.

Lemma block_end_fits x : fits x -> 1 <= x.2 -> block_end x.1 x.2 = bend x.
Proof.
  intros (H1 & H2 & H3) Hs. rewrite bend_size in * by done. unfold block_end. apply u32_small.
  unfold HEADER in *. lia.
Qed.

(** The memory outside the header of [x] is the same. *)
Definition only_header (x : Z) (m m' : mem) : Prop := forall i, i < x \/ x + HEADER <= i -> m' i = m i.

Lemma only_header_load x m m' a :
  only_header x m m' -> a + 4 <= x \/ x + HEADER <= a -> load32 m' a = load32 m a.
Proof. intros H Ha. apply load32_ext. intros i Hi. apply H. unfold HEADER in *. lia. Qed.

Lemma only_header_same x m m' y : only_header x m m' -> bend y <= x \/ x + HEADER <= y.1 -> same_header m m' y.
Proof. intros H Hy i Hi. apply H. pose proof (bend_pos y). unfold HEADER in *. lia. Qed.

Lemma only_header_stores x m v w : only_header x m (store32 (store32 m (x + 4) v) x w).
Proof. intros i Hi. unfold HEADER in Hi. by rewrite !store32_other by lia. Qed.

Lemma only_header_store x m w : only_header x m (store32 m x w).
Proof. intros i Hi. unfold HEADER in Hi. by rewrite !store32_other by lia. Qed.

(** The header written by [set_size] and [set_ptr]. *)
Lemma stores_load x m v w :
  0 <= v < 2 ^ 32 -> 0 <= w < 2 ^ 32 ->
  load32 (store32 (store32 m (x + 4) v) x w) x = w /\
  load32 (store32 (store32 m (x + 4) v) x w) (x + 4) = v.
Proof.
  intros Hv Hw. split; [by apply load32_store32_eq|].
  rewrite load32_store32_ne by lia. by apply load32_store32_eq.
Qed.

Lemma store_load x m w :
  0 <= w < 2 ^ 32 ->
  load32 (store32 m x w) x = w /\ load32 (store32 m x w) (x + 4) = load32 m (x + 4).
Proof. intros Hw. split; [by apply load32_store32_eq|]. by rewrite load32_store32_ne by lia. Qed.

Lemma join_next_spec b p N2 h :
  0 < base < 2 ^ 31 -> fits b -> 1 <= b.2 -> base < b.1 -> p + HEADER <= b.1 ->
  Forall fits N2 -> (forall y, y ∈ N2 -> before b y /\ 1 <= y.2) ->
  load32 (um h) p = hd_addr N2 base -> load32 (um h) (b.1 + 4) = b.2 -> chain (um h) N2 base ->
  exists m1 b1 N2r,
    join_next b.1 p h = ([], Ret tt (on_um (fun _ => m1) h)) /\
    only_header b.1 (um h) m1 /\
    load32 m1 b.1 = hd_addr N2r base /\ load32 m1 (b.1 + 4) = b1 /\
    ((b1 = b.2 /\ N2r = N2) \/ (exists qs, N2 = (bend b, qs) :: N2r /\ b1 = b.2 + qs)).
Proof.
  intros Hb Hf Hs1 Hbb Hpb HN Hn Hp Hsz Hc. unfold join_next.
  rewrite (bind_nil _ _ _ (hd_addr N2 base) h) by (unfold get_ptr, gets; by rewrite Hp).
  rewrite (bind_nil _ _ _ b.2 h) by (unfold get_size, gets; by rewrite Hsz).
  rewrite block_end_fits by done. pose proof (hd_addr_fits N2 HN Hb) as Hq.
  destruct (Z.eqb_spec (bend b) (hd_addr N2 base)) as [E|E].
  - destruct N2 as [|[q qs] N2]; cbn in E; [pose proof (bend_pos b); unfold HEADER in *; lia|].
    destruct Hc as (Hc1 & Hc2 & Hc3). cbn [fst snd] in *.
    apply Forall_cons in HN as [(Hq1 & Hq2 & Hq3) HN]. cbn [fst snd] in *.
    destruct (Hn (q, qs)) as [_ Hqs]; [by left|]. cbn in Hqs. rewrite bend_size in Hq3, E by done.
    cbn [fst snd] in *. destruct Hf as (Hf1 & Hf2 & Hf3). unfold HEADER in *.
    pose proof (hd_addr_fits N2 HN Hb) as Hq'.
    exists (store32 (store32 (um h) (b.1 + 4) (b.2 + qs)) b.1 (hd_addr N2 base)), (b.2 + qs), N2.
    split; [|split; [apply only_header_stores|]].
    + unfold bind, get_size, get_ptr, set_size, set_ptr, gets, modify, on_um. cbn.
      rewrite u32_small by lia. rewrite load32_store32_ne by lia. by rewrite Hc2, Hc1.
    + destruct (stores_load b.1 (um h) (b.2 + qs) (hd_addr N2 base)) as [-> ->]; [lia|lia|].
      split; [done|]. split; [done|]. right. exists qs. rewrite bend_size by done. unfold HEADER. by rewrite E.
  - exists (store32 (um h) b.1 (hd_addr N2 base)), b.2, N2. split; [done|].
    split; [apply only_header_store|].
    destruct (store_load b.1 (um h) (hd_addr N2 base)) as [-> ->]; [lia|]. auto.
Qed.

Lemma join_prev_spec b1 p bp r h :
  fits p -> fits (bp, b1) -> 1 <= b1 -> p.1 + HEADER <= bp -> (p.2 = 0 \/ p.1 + HEADER * p.2 <= bp) ->
  (1 <= p.2 -> bend (p.1, p.2 + b1) < 2 ^ 31 \/ p.1 + HEADER * p.2 < bp) ->
  0 <= r < 2 ^ 32 ->
  load32 (um h) (p.1 + 4) = p.2 -> load32 (um h) bp = r -> load32 (um h) (bp + 4) = b1 ->
  exists m2, join_prev p.1 bp h = ([], Ret tt (on_um (fun _ => m2) h)) /\
    only_header p.1 (um h) m2 /\
    ((1 <= p.2 /\ bend p = bp /\ load32 m2 p.1 = r /\ load32 m2 (p.1 + 4) = p.2 + b1) \/
     (load32 m2 p.1 = bp /\ load32 m2 (p.1 + 4) = p.2)).
Proof.
  intros (Hp1 & Hp2 & Hp3) (Hb1 & Hb2 & Hb3) H1 Hpb Hend Hsum Hr Hps Hbr Hbs. cbn [fst snd] in *.
  unfold join_prev. rewrite (bind_nil _ _ _ p.2 h) by (unfold get_size, gets; by rewrite Hps).
  assert (block_end p.1 p.2 = p.1 + HEADER * p.2) as ->.
  { apply u32_small. unfold bend, HEADER in *. lia. }
  rewrite bend_size in Hb3 by done. cbn [fst snd] in Hb3.
  destruct (Z.eqb_spec (p.1 + HEADER * p.2) bp) as [E|E].
  - assert (1 <= p.2) as Hp by (unfold HEADER in *; lia).
    destruct (Hsum Hp) as [Hs|Hs]; [|lia]. rewrite bend_size in Hs by (cbn; lia). cbn [fst snd] in Hs.
    exists (store32 (store32 (um h) (p.1 + 4) (p.2 + b1)) p.1 r).
    split; [|split; [apply only_header_stores|left]].
    + unfold bind, get_size, get_ptr, set_size, set_ptr, gets, modify, on_um. cbn.
      rewrite Hbs, u32_small by (unfold HEADER in *; lia).
      rewrite load32_store32_ne by (unfold HEADER in *; lia). by rewrite Hbr.
    + destruct (stores_load p.1 (um h) (p.2 + b1) r) as [-> ->]; [unfold HEADER in *; lia|done|].
      by rewrite bend_size.
  - exists (store32 (um h) p.1 bp). split; [done|]. split; [apply only_header_store|]. right.
    destruct (store_load p.1 (um h) bp) as [-> ->]; [unfold HEADER in *; lia|]. done.
Qed.

Lemma kept_header y m m' U :
  only_header y.1 m m' -> (forall x, x ∈ U -> apart x y) -> kept m m' U.
Proof.
  intros H Hy x i Hx Hi. apply H. pose proof (bend_pos y).
  destruct (Hy x Hx) as [Ha|Ha]; unfold before, HEADER in *; lia.
Qed.

Lemma kept_used m m' U :
  kept m m' U -> Forall (fun x => 1 <= x.2 /\ load32 m (x.1 + 4) = x.2) U ->
  Forall (fun x => 1 <= x.2 /\ load32 m' (x.1 + 4) = x.2) U.
Proof.
  intros Hk HU. apply Forall_forall. intros x Hx. rewrite Forall_forall in HU.
  destruct (HU x Hx) as [H1 H2]. split; [done|]. etransitivity; [|exact H2]. apply load32_ext. intros i Hi. apply (Hk x); [done|].
  pose proof (bend_pos x). unfold HEADER in *. lia.
Qed.

(** What [join_next] leaves: [b] and the blocks after it, joined where they touch. *)
Definition joined (b : block) (N2 : list block) (b1 : Z) (N2r : list block) : Prop :=
  (b1 = b.2 /\ N2r = N2) \/ (exists qs, N2 = (bend b, qs) :: N2r /\ b1 = b.2 + qs).

Lemma joined_facts b N2 b1 N2r :
  joined b N2 b1 N2r -> 1 <= b.2 -> StronglySorted before N2 ->
  (forall y, y ∈ N2 -> before b y /\ 1 <= y.2) ->
  b.2 <= b1 /\ StronglySorted before N2r /\
  (forall y, y ∈ N2r -> y ∈ N2 /\ before (b.1, b1) y) /\
  b1 + units N2r = b.2 + units N2 /\ (length N2r <= length N2)%nat /\
  (forall e, bend b <= e -> (forall y, y ∈ N2 -> bend y <= e) -> bend (b.1, b1) <= e) /\
  (forall x, 1 <= x.2 -> apart x b -> (forall y, y ∈ N2 -> apart x y) -> apart x (b.1, b1)).
Proof.
  intros Hj Hb Hs Hn. destruct Hj as [[-> ->]|(qs & -> & ->)].
  - destruct b as [a s]. cbn [fst snd] in *. split; [lia|]. split; [done|].
    split; [intros y Hy; split; [done|]; by apply Hn|]. auto with lia.
  - destruct (Hn (bend b, qs)) as [_ Hq]; [by left|]. cbn in Hq.
    apply StronglySorted_inv in Hs as [Hs Hall]. rewrite Forall_forall in Hall.
    assert (bend (b.1, b.2 + qs) = bend (bend b, qs)) as E.
    { rewrite !bend_size by (cbn; lia). cbn. lia. }
    split; [lia|]. split; [done|]. split; [|split; [cbn; lia|split; [cbn; lia|split]]].
    + intros y Hy. split; [by right|]. unfold before. rewrite E. by apply Hall.
    + intros e He Hy. rewrite E. apply Hy. by left.
    + intros x Hx Hxb Hxy. specialize (Hxy (bend b, qs) ltac:(by left)). unfold apart, before in *.
      rewrite E. rewrite (bend_size x) in * by done. cbn [fst] in *. unfold HEADER in *. lia.
Qed.

Lemma inv_fits h N U x : inv h N U -> x ∈ N \/ x ∈ U -> fits x.
Proof.
  intros H Hx. destruct (i_range _ _ _ H x Hx) as [H1 H2]. destruct (i_layout _ _ _ H) as (H3 & H4 & H5).
  split; [lia|]. split; [|lia]. destruct Hx as [Hx|Hx].
  - destruct (i_base _ _ _ H) as (L & -> & HL). apply elem_of_cons in Hx as [->|Hx]; [done|].
    rewrite Forall_forall in HL. specialize (HL x Hx). lia.
  - pose proof (i_used _ _ _ H) as HU. rewrite Forall_forall in HU. destruct (HU x Hx). lia.
Qed.

(** The places of the nodes around a block in use. *)
Lemma free_place h N b U :
  inv h N (b :: U) ->
  exists N1 p N2, N = N1 ++ p :: N2 /\ before p b /\ (forall y, y ∈ N2 -> before b y /\ 1 <= y.2) /\
    (N1 = [] -> p = (base, 0)) /\ (N1 <> [] -> 1 <= p.2 /\ exists N1', N1 = (base, 0) :: N1').
Proof.
  intros H. destruct (i_base _ _ _ H) as (L & -> & HL). rewrite Forall_forall in HL.
  assert (heap0 <= b.1) as Hlow by (apply (i_low _ _ _ H); left; by left).
  destruct (i_layout _ _ _ H) as (Hb0 & Hb1 & _).
  destruct (split_sorted (base, 0) L b) as (N1 & p & N2 & E & Hp & Hn).
  - apply (i_sorted _ _ _ H).
  - unfold before, bend, HEADER in *. cbn. lia.
  - intros y Hy. apply (i_apart _ _ _ H); [by left|]. left. by right.
  - exists N1, p, N2. split; [done|]. split; [done|]. destruct N1 as [|x N1]; cbn in E.
    + injection E as <- ->. split; [auto|]. done.
    + injection E as <- ->. split; [|split; [done|]].
      * intros y Hy. split; [auto|]. apply HL, elem_of_app. right. by right.
      * intros _. split; [|by exists N1]. apply HL, elem_of_app. right. by left.
Qed.

Lemma before_trans x y z : before x y -> before y z -> before x z.
Proof. unfold before. pose proof (bend_pos y). unfold HEADER in *. lia. Qed.

Lemma sorted_middle N1 X N2 :
  StronglySorted before N1 -> StronglySorted before X -> StronglySorted before N2 ->
  (forall x y, x ∈ N1 -> y ∈ X -> before x y) -> (forall x y, x ∈ X -> y ∈ N2 -> before x y) ->
  (forall x y, x ∈ N1 -> y ∈ N2 -> before x y) ->
  StronglySorted before (N1 ++ X ++ N2).
Proof.
  intros H1 HX H2 H1X HX2 H12. apply StronglySorted_app. split; [|split; [done|]].
  - intros x y Hx [Hy|Hy]%elem_of_app; auto.
  - apply StronglySorted_app. auto.
Qed.

(** The free list after [free]: the nodes [X] stand for [p], the freed block and
    what they were joined with. *)
Lemma free_inv h h' N1 p N2 b U X N2r :
  inv h (N1 ++ p :: N2) (b :: U) ->
  (exists L, N1 ++ X ++ N2r = (base, 0) :: L /\ Forall (fun x => 1 <= x.2) L) ->
  StronglySorted before X -> StronglySorted before N2r -> (forall y, y ∈ N2r -> y ∈ N2) ->
  (forall x, x ∈ X -> p.1 <= x.1 /\ bend x <= brk h) ->
  (forall x, x ∈ X -> x <> (base, 0) -> heap0 <= x.1) ->
  (forall x y, x ∈ X -> y ∈ N2r -> before x y) ->
  (forall x y, x ∈ U -> y ∈ X -> apart x y) ->
  p.1 ∈ X.*1 ->
  units X + units N2r = p.2 + b.2 + units N2 ->
  chain (um h') (N1 ++ X ++ N2r) base -> kept (um h) (um h') U ->
  freep h' = p.1 -> brk h' = brk h ->
  inv h' (N1 ++ X ++ N2r) U.
Proof.
  intros H Hbase HsX HsN Hsub HX Hlow HXN HXU HpX Hu Hc Hk Hfp Hbrk.
  destruct (sorted_split _ _ _ (i_sorted _ _ _ H)) as (S1 & S2 & S3).
  pose proof (i_sorted _ _ _ H) as (_ & HsN1 & _)%StronglySorted_app.
  split; rewrite ?Hbrk.
  - apply (i_layout _ _ _ H).
  - done.
  - apply sorted_middle; auto. intros x y Hx Hy. specialize (S1 x Hx). destruct (HX y Hy). unfold before in *. lia.
  - done.
  - rewrite Hfp, !fmap_app, !elem_of_app. auto.
  - eapply kept_used; [exact Hk|]. pose proof (i_used _ _ _ H) as Hused. by inversion Hused.
  - pose proof (i_nodup _ _ _ H) as Hd. by inversion Hd.
  - intros x y Hx Hy. rewrite !elem_of_app in Hy. destruct Hy as [[Hy|[Hy|Hy]]|[Hy Hne]].
    + apply (i_apart _ _ _ H); [by right|]. left. rewrite elem_of_app. by left.
    + auto.
    + apply (i_apart _ _ _ H); [by right|]. left. rewrite elem_of_app, elem_of_cons. auto.
    + apply (i_apart _ _ _ H); [by right|]. right. split; [by right|done].
  - intros x Hx. rewrite !elem_of_app in Hx. destruct Hx as [[Hx|[Hx|Hx]]|Hx].
    + apply (i_range _ _ _ H). left. rewrite elem_of_app. by left.
    + destruct (HX x Hx) as [H1 H2]. split; [|done].
      destruct (i_range _ _ _ H p) as [H3 _]; [|lia]. left. rewrite elem_of_app, elem_of_cons. auto.
    + apply (i_range _ _ _ H). left. rewrite elem_of_app, elem_of_cons. auto.
    + apply (i_range _ _ _ H). right. by right.
  - intros x [Hx|[Hx Hne]]; [apply (i_low _ _ _ H); left; by right|]. rewrite !elem_of_app in Hx.
    destruct Hx as [Hx|[Hx|Hx]]; [|by apply Hlow|]; apply (i_low _ _ _ H); right;
      (split; [|done]); rewrite elem_of_app, elem_of_cons; auto.
  - rewrite <- (i_units _ _ _ H), !units_app. cbn [units]. lia.
Qed.

(** The links after [free]: [N1] leads to [p], then [X], then [N2r]. *)
Lemma free_chain m0 m1 m2 N1 p N2 N2r b X :
  chain m0 (N1 ++ p :: N2) base -> StronglySorted before (N1 ++ p :: N2) ->
  before p b -> (forall y, y ∈ N2r -> y ∈ N2 /\ before b y) ->
  chain m0 N2r base ->
  only_header b.1 m0 m1 -> only_header p.1 m1 m2 ->
  hd_addr (X ++ N2r) base = p.1 -> chain m2 X (hd_addr N2r base) ->
  chain m2 (N1 ++ X ++ N2r) base.
Proof.
  intros Hc Hs Hpb Hn HcN H1 H2 Hhd HcX. destruct (sorted_split _ _ _ Hs) as (S1 & S2 & _).
  apply chain_app in Hc as [HcN1 _]. cbn in HcN1.
  assert (forall l, Forall (same_header m0 m1) l -> Forall (same_header m1 m2) l ->
    forall last, chain m0 l last -> chain m2 l last) as Hsame.
  { intros l Ha Hb last Hl. eapply chain_same; [exact Hb|]. by eapply chain_same. }
  rewrite !chain_app. split; [|split; [done|]].
  - rewrite Hhd. apply Hsame; [| |done]; apply Forall_forall; intros x Hx; specialize (S1 x Hx).
    + apply (only_header_same b.1); [done|]. left. apply (before_trans x p b S1 Hpb).
    + apply (only_header_same p.1); [done|]. by left.
  - apply Hsame; [| |done]; apply Forall_forall; intros x Hx; destruct (Hn x Hx) as [Hx2 Hbx].
    + apply (only_header_same b.1); [done|]. right. pose proof (bend_pos b). unfold before in Hbx. lia.
    + apply (only_header_same p.1); [done|]. right. pose proof (bend_pos p).
      specialize (S2 x Hx2). unfold before in S2. lia.
Qed.

Lemma joined_chain m b N2 b1 N2r : joined b N2 b1 N2r -> chain m N2 base -> chain m N2r base.
Proof. intros [[_ ->]|(qs & -> & _)]; [done|]. cbn. tauto. Qed.

Lemma free_sizes h x N1 N2 U : inv h ((x :: N1) ++ N2) U -> Forall (fun x => 1 <= x.2) N1.
Proof.
  intros H. destruct (i_base _ _ _ H) as (L & E & HL). injection E as _ <-. by apply Forall_app in HL as [? _].
Qed.

(** [free] puts a block in use on the free list. *)
Lemma free_spec fuel h N b U :
  inv h N (b :: U) -> (length N <= fuel)%nat ->
  exists h' N', free fuel (b.1 + HEADER) h = ([], Ret tt h') /\ inv h' N' U /\
    kept (um h) (um h') U /\ brk h' = brk h /\ asked h' = asked h /\
    (length N' <= S (length N))%nat /\ exists x, x ∈ N' /\ b.2 <= x.2.
Proof.
  intros H Hfuel. destruct (free_place _ _ _ _ H) as (N1 & p & N2 & -> & Hpb & Hn & Hbase0 & Hbase1).
  pose proof (i_sorted _ _ _ H) as Hs. pose proof (i_chain _ _ _ H) as Hc.
  destruct (sorted_split _ _ _ Hs) as (S1 & S2 & S3).
  assert (p ∈ N1 ++ p :: N2) as HpN by (rewrite elem_of_app, elem_of_cons; auto).
  assert (fits p) as Hfp by (apply (inv_fits _ _ _ _ H); auto).
  assert (fits b) as Hfb by (apply (inv_fits _ _ _ _ H); right; by left).
  assert (1 <= b.2 /\ load32 (um h) (b.1 + 4) = b.2) as [Hb1 Hbs].
  { pose proof (i_used _ _ _ H) as HU. rewrite Forall_forall in HU. apply HU. by left. }
  assert (Forall fits N2) as HfN2.
  { apply Forall_forall. intros y Hy. apply (inv_fits _ _ _ _ H). left. rewrite elem_of_app, elem_of_cons. auto. }
  destruct (i_layout _ _ _ H) as (Hl1 & Hl2 & Hl3).
  assert (heap0 <= b.1) as Hlow by (apply (i_low _ _ _ H); left; by left).
  destruct (chain_at _ _ _ _ _ Hc) as [Hpq Hps].
  pose proof Hfb as (Hfb1 & Hfb2 & Hfb3). pose proof (bend_pos p) as Hpe. pose proof (bend_pos b) as Hbe.
  assert (p.1 + HEADER <= b.1) as Hpb' by (unfold before in Hpb; lia).
  unfold free. rewrite u32_small by (unfold HEADER in *; lia).
  replace (b.1 + HEADER - HEADER) with b.1 by lia.
  rewrite (bind_nil _ _ _ (freep h) h) by done.
  erewrite bind_nil.
  2: { apply (free_scan_spec _ N1 p N2 b); try done.
       - destruct (i_base _ _ _ H) as (L & E & _). by rewrite E.
       - intros x Hx. apply (i_range _ _ _ H). by left.
       - intros y Hy. by apply Hn.
       - apply (i_freep _ _ _ H). }
  apply chain_app in Hc as Hc2. destruct Hc2 as [_ (_ & _ & HcN2)].
  destruct (join_next_spec b p.1 N2 h) as (m1 & b1 & N2r & E1 & O1 & Hb1p & Hb1s & Hj);
    try done; [unfold HEADER in *; lia|unfold HEADER in *; lia|].
  rewrite (bind_nil _ _ _ _ _ E1).
  assert (StronglySorted before N2) as HsN2.
  { apply StronglySorted_app in Hs as (_ & _ & Hs'). apply (StronglySorted_inv Hs'). }
  destruct (joined_facts b N2 b1 N2r Hj Hb1 HsN2 Hn) as (F1 & F2 & F3 & F4 & F5 & F6 & F7).
  assert (bend (b.1, b1) <= brk h) as Hb1e.
  { apply F6; [apply (i_range _ _ _ H); right; by left|]. intros y Hy. apply (i_range _ _ _ H).
    left. rewrite elem_of_app, elem_of_cons. auto. }
  assert (0 <= hd_addr N2r base < 2 ^ 32) as Hr.
  { assert (Forall fits N2r) as Hf2.
    { apply Forall_forall. intros y Hy. rewrite Forall_forall in HfN2. apply HfN2, F3, Hy. }
    pose proof (hd_addr_fits N2r Hf2 ltac:(unfold HEADER in *; lia)). lia. }
  destruct (join_prev_spec b1 p b.1 (hd_addr N2r base) (on_um (fun _ => m1) h)) as (m2 & E2 & O2 & Hcase);
    try done; cbn [um on_um] in *.
  { split; [done|]. split; [cbn; lia|]. lia. }
  { lia. }
  { destruct N1; [rewrite (Hbase0 eq_refl); by left|]. right.
    destruct (Hbase1 ltac:(done)) as [Hp1 _]. unfold before in Hpb. rewrite bend_size in Hpb by done. done. }
  { intros Hp1. unfold before in Hpb. rewrite bend_size in * by (cbn; lia). cbn [fst snd] in *.
    unfold HEADER in *. lia. }
  { rewrite (only_header_load b.1 (um h)); [done|done|]. unfold HEADER in *. lia. }
  rewrite (bind_nil _ _ _ _ _ E2).
  assert (forall x, x ∈ U -> apart x b /\ 1 <= x.2) as HUb.
  { intros x Hx. pose proof (i_used _ _ _ H) as HU. rewrite Forall_forall in HU. split; [|apply HU; by right].
    apply (i_apart _ _ _ H); [by right|]. right. split; [by left|]. intros <-.
    pose proof (i_nodup _ _ _ H) as Hd. by inversion Hd. }
  assert (forall x y, x ∈ U -> y ∈ N1 ++ p :: N2 -> apart x y) as HUN.
  { intros x y Hx Hy. apply (i_apart _ _ _ H); [by right|by left]. }
  assert (kept (um h) m2 U) as Hk.
  { eapply kept_after; [apply (kept_header b _ _ _ O1); apply HUb|].
    apply (kept_header p _ _ _ O2). intros x Hx. by apply HUN. }
  assert (forall x, x ∈ U -> apart x (b.1, b1)) as HUb1.
  { intros x Hx. apply F7; try apply HUb, Hx. intros y Hy. apply HUN; [done|].
    rewrite elem_of_app, elem_of_cons. auto. }
  assert (forall X, hd_addr (X ++ N2r) base = p.1 -> chain m2 X (hd_addr N2r base) ->
    chain m2 (N1 ++ X ++ N2r) base) as Hch.
  { intros X HX HcX. apply (free_chain (um h) m1 m2 N1 p N2 N2r b X); try done.
    - intros y Hy. split; [by apply F3|]. apply Hn, F3, Hy.
    - exact (joined_chain _ _ _ _ _ Hj HcN2). }
  assert (load32 m2 b.1 = hd_addr N2r base /\ load32 m2 (b.1 + 4) = b1) as [Hm2b Hm2s].
  { rewrite !(only_header_load p.1 m1 m2) by (done || (unfold HEADER in *; lia)). done. }
  assert (forall y, y ∈ N2r -> 1 <= y.2) as HN2r by (intros y Hy; apply Hn, F3, Hy).
  assert (bend p <= brk h) as Hpbrk by (apply (i_range _ _ _ H); by left).
  exists (set_freep p.1 (on_um (fun _ => m2) (on_um (fun _ => m1) h))).
  destruct Hcase as [(Hp1 & Hpe' & Hl2p & Hl2s)|(Hl2p & Hl2s)].
  - assert (bend (p.1, p.2 + b1) = bend (b.1, b1)) as Ebe.
    { rewrite !bend_size in * by (cbn; lia). cbn in *. lia. }
    exists (N1 ++ [(p.1, p.2 + b1)] ++ N2r). split; [done|]. split.
    + eapply (free_inv h _ N1 p N2 b U); try done; cbn [um on_um set_freep brk freep].
      * destruct N1 as [|x N1]; [rewrite (Hbase0 eq_refl) in Hp1; cbn in Hp1; lia|].
        destruct (Hbase1 ltac:(done)) as [_ (N1' & [= -> ->])]. exists (N1' ++ [(p.1, p.2 + b1)] ++ N2r).
        split; [done|]. apply Forall_app. split; [exact (free_sizes _ _ _ _ _ H)|].
        constructor; [cbn; lia|]. by apply Forall_forall.
      * by repeat constructor.
      * intros y Hy. by apply F3.
      * intros x ->%list_elem_of_singleton. cbn. rewrite Ebe. lia.
      * intros x ->%list_elem_of_singleton _. apply (i_low _ _ _ H p). right. split; [done|].
        intros E0. rewrite E0 in Hp1. cbn in Hp1. lia.
      * intros x y ->%list_elem_of_singleton Hy. unfold before. rewrite Ebe. by apply F3.
      * intros x y Hx ->%list_elem_of_singleton. specialize (HUb1 x Hx). specialize (HUN x p Hx HpN).
        destruct (HUb x Hx) as [_ Hx1]. unfold apart, before in *. rewrite Ebe.
        rewrite (bend_size x) in * by done. cbn [fst] in *. unfold HEADER in *. lia.
      * cbn. by left.
      * cbn. lia.
      * apply Hch; [done|]. cbn. auto.
    + split; [done|]. split; [done|]. split; [done|].
      split; [rewrite !length_app; unfold block in *; cbn; lia|].
      exists (p.1, p.2 + b1). split; [rewrite elem_of_app; right; by left|]. cbn. lia.
  - exists (N1 ++ [p; (b.1, b1)] ++ N2r). split; [done|]. split.
    + eapply (free_inv h _ N1 p N2 b U); try done; cbn [um on_um set_freep brk freep].
      * destruct N1 as [|x N1].
        { exists ((b.1, b1) :: N2r). cbn. rewrite (Hbase0 eq_refl). split; [done|].
          constructor; [cbn; lia|]. by apply Forall_forall. }
        destruct (Hbase1 ltac:(done)) as [Hp1 (N1' & [= -> ->])]. exists (N1' ++ [p; (b.1, b1)] ++ N2r).
        split; [done|]. apply Forall_app. split; [exact (free_sizes _ _ _ _ _ H)|].
        constructor; [done|]. constructor; [cbn; lia|]. by apply Forall_forall.
      * repeat constructor; done.
      * intros y Hy. by apply F3.
      * intros x [->| ->%list_elem_of_singleton]%elem_of_cons; (split; [cbn; unfold HEADER in *; lia|done]).
      * intros x [->| ->%list_elem_of_singleton]%elem_of_cons Hne; [apply (i_low _ _ _ H); auto|done].
      * intros x y [->| ->%list_elem_of_singleton]%elem_of_cons Hy; [apply S2|]; by apply F3.
      * intros x y Hx [->| ->%list_elem_of_singleton]%elem_of_cons; auto.
      * cbn. by left.
      * cbn. lia.
      * apply Hch; [done|]. cbn. auto.
    + split; [done|]. split; [done|]. split; [done|].
      split; [rewrite !length_app; unfold block in *; cbn; lia|].
      exists (b.1, b1). split; [rewrite elem_of_app; right; right; by left|]. done.
Qed.
End Inv.
