(* ===== verification/UmallocSpec.v ===== *)
(** * The user-level allocator: [malloc] and [free] as clients see them *)

From stdpp Require Import base numbers list sorting.
From S2P Require Import Prelude Bytes Mem Umalloc UmallocInv.

Open Scope Z_scope.

Section Malloc.
Variable base heap0 : Z.
Variable sbrk_ok : nat -> bool.

Abbreviation inv := (inv base heap0).

(** ** Taking a block off the free list *)








(** ** More memory *)





(** ** The search *)















(** ** Clients *)






(** *** More fuel changes no result *)

Definition more {A} (m m' : M heap A) : Prop := forall h, (m h).2 = NoFuel \/ m' h = m h.

Lemma more_refl {A} (m : M heap A) : more m m.
Proof using Type. by right. Qed.

Lemma more_bind {A B} (m m' : M heap A) (k k' : A -> M heap B) :
  more m m' -> (forall a, more (k a) (k' a)) -> more (bind m k) (bind m' k').
Proof using Type.
  intros Hm Hk h. unfold bind. destruct (Hm h) as [E|E].
  - left. destruct (m h) as [e []]; cbn in E; by try injection E.
  - rewrite E. destruct (m h) as [e [a s| | | |]]; try by right.
    destruct (Hk a s) as [E'|E']; [left|right]; [by destruct (k a s)|by rewrite E'].
Qed.

Lemma more_if {A} (b : bool) (m m' n n' : M heap A) :
  more m m' -> more n n' -> more (if b then m else n) (if b then m' else n').
Proof using Type. by destruct b. Qed.

Create HintDb more.
Hint Resolve more_refl more_bind more_if : more.







(** ** The calls on a good heap *)






(** The size is computed in a word: a request of almost 2^32 bytes gets the block of
    a request of 0 bytes. *)
Theorem malloc_wraps fuel n :
  0 <= n < 7 -> malloc base sbrk_ok fuel (2 ^ 32 - 7 + n) = malloc base sbrk_ok fuel 0.
Proof using Type.
  intros Hn. unfold malloc. replace (u32 (2 ^ 32 - 7 + n + HEADER - 1)) with n.
  - by rewrite Z.div_small by (unfold HEADER; lia).
  - unfold HEADER. replace (2 ^ 32 - 7 + n + 8 - 1) with (n + 1 * 2 ^ 32) by lia.
    unfold u32. rewrite Z.mod_add by lia. by rewrite Z.mod_small by lia.
Qed.

End Malloc.



