(* ===== verification/Sh.v ===== *)
(** * The shell: sh.c

    The parser works on the line in the buffer [buf], its bytes up to and with
    the NUL; a [char *] into it is an index.  A command node points at its words
    by the index of the first byte and of the byte after the last one; running a
    command uses the strings left there by [nulterminate].  [malloc] succeeds. *)

From stdpp Require Import base numbers list strings.
From S2P Require Import Prelude Bytes Mem Str User.

Open Scope Z_scope.

(** ** Commands *)

(** [struct cmd] and its variants, over the type of words.  [argv] holds the words
    before the null pointer. *)
Inductive cmd (W : Type) :=
  | EXEC (argv : list W)
  | REDIR (c : cmd W) (file : W) (mode fd : Z)
  | PIPE (left right : cmd W)
  | LIST (left right : cmd W)
  | BACK (c : cmd W).
Arguments EXEC {W}.
Arguments REDIR {W}.
Arguments PIPE {W}.
Arguments LIST {W}.
Arguments BACK {W}.

#[global] Instance cmd_eq_dec {W} `{EqDecision W} : EqDecision (cmd W).
Proof. solve_decision. Defined.

#[global] Instance cmd_fmap : FMap cmd := fun A B f =>
  fix go c :=
    match c with
    | EXEC argv => EXEC (f <$> argv)
    | REDIR c file mode fd => REDIR (go c) (f file) mode fd
    | PIPE l r => PIPE (go l) (go r)
    | LIST l r => LIST (go l) (go r)
    | BACK c => BACK (go c)
    end.

(** A word in the buffer: [q] and [eq]. *)
Definition span : Type := nat * nat.

Definition MAXARGS : nat := 10.

(** The constructors: a new node with its fields set. *)
Definition execcmd : cmd span := EXEC [].
Definition redircmd (c : cmd span) (file : span) (mode fd : Z) : cmd span := REDIR c file mode fd.
Definition pipecmd (left right : cmd span) : cmd span := PIPE left right.
Definition listcmd (left right : cmd span) : cmd span := LIST left right.
Definition backcmd (c : cmd span) : cmd span := BACK c.

(** ** Tokens *)

Definition whitespace : list Z := [32; 9; 13; 10; 11].
Definition symbols : list Z := codes "<|>&;()".

Definition TOK_WORD : Z := chr "a".
Definition TOK_APPEND : Z := chr "+".

Section Parser.
Variable buf : list Z.

(** [*s] *)
Definition char_at (s : nat) : Z := default 0 (buf !! s).

(** [while(s < es && p( *s)) s++], for [n = es - s] *)
Fixpoint scan (p : Z -> bool) (n s : nat) : nat :=
  match n with
  | O => s
  | S n' => if p (char_at s) then scan p n' (S s) else s
  end.

Definition skip_space (es s : nat) : nat := scan (strchr whitespace) (es - s) s.

Definition in_word (c : Z) : bool := negb (strchr whitespace c) && negb (strchr symbols c).

(** The token at [s]: its kind and its end. *)
Definition token_at (es s : nat) : Z * nat :=
  let c := char_at s in
  if c =? 0 then (0, s)
  else if strchr (codes "|();&<") c then (c, S s)
  else if c =? chr ">" then
    if char_at (S s) =? chr ">" then (TOK_APPEND, S (S s)) else (c, S s)
  else (TOK_WORD, scan in_word (es - s) s).

(** The state of the parser is [*ps].  The result is the token with [q] and [eq]. *)
Definition gettoken (es : nat) : M nat (Z * span) :=
  let* s := get in
  let q := skip_space es s in
  let '(tok, eq) := token_at es q in
  put (skip_space es eq) ;;
  ret (tok, (q, eq)).

Definition peek (es : nat) (toks : list Z) : M nat bool :=
  let* s := get in
  let s := skip_space es s in
  put s ;;
  ret (negb (char_at s =? 0) && strchr toks (char_at s)).

(** ** The parser *)

Fixpoint parseredirs (fuel es : nat) (c : cmd span) : M nat (cmd span) :=
  match fuel with
  | O => nofuel
  | S k =>
      let* more := peek es (codes "<>") in
      if more then
        let* t := gettoken es in
        let* f := gettoken es in
        if negb (f.1 =? TOK_WORD) then panic "missing file for redirection"
        else
          parseredirs k es
            (if t.1 =? chr "<" then redircmd c f.2 O_RDONLY 0
             else if t.1 =? chr ">" then redircmd c f.2 (Z.lor O_WRONLY O_CREATE) 1
             else if t.1 =? TOK_APPEND then redircmd c f.2 (Z.lor O_WRONLY O_CREATE) 1
             else c)
      else ret c
  end.

(** [cmd->argv[argc] = q; cmd->eargv[argc] = eq; argc++]: the [execcmd] node is
    under the redirections wrapped around it so far. *)
Fixpoint add_arg {W} (w : W) (c : cmd W) : cmd W :=
  match c with
  | EXEC argv => EXEC (argv ++ [w])
  | REDIR c file mode fd => REDIR (add_arg w c) file mode fd
  | _ => c
  end.

(** The loop of [parseexec] over the words. *)
Fixpoint parseargs (fuel es argc : nat) (c : cmd span) : M nat (cmd span) :=
  match fuel with
  | O => nofuel
  | S k =>
      let* stop := peek es (codes "|)&;") in
      if stop then ret c
      else
        let* t := gettoken es in
        if t.1 =? 0 then ret c
        else if negb (t.1 =? TOK_WORD) then panic "syntax"
        else if (MAXARGS <=? S argc)%nat then panic "too many args"
        else
          let* c := parseredirs (S es) es (add_arg t.2 c) in
          parseargs k es (S argc) c
  end.

(** The loop of [parseline] over the [&]s. *)
Fixpoint parseback (fuel es : nat) (c : cmd span) : M nat (cmd span) :=
  match fuel with
  | O => nofuel
  | S k =>
      let* more := peek es (codes "&") in
      if more then gettoken es ;; parseback k es (backcmd c) else ret c
  end.

Fixpoint parseline (fuel es : nat) : M nat (cmd span) :=
  match fuel with
  | O => nofuel
  | S k =>
      let* c := parsepipe k es in
      let* c := parseback (S es) es c in
      let* more := peek es (codes ";") in
      if more then
        gettoken es ;;
        let* r := parseline k es in
        ret (listcmd c r)
      else ret c
  end
with parsepipe (fuel es : nat) : M nat (cmd span) :=
  match fuel with
  | O => nofuel
  | S k =>
      let* c := parseexec k es in
      let* more := peek es (codes "|") in
      if more then
        gettoken es ;;
        let* r := parsepipe k es in
        ret (pipecmd c r)
      else ret c
  end
with parseexec (fuel es : nat) : M nat (cmd span) :=
  match fuel with
  | O => nofuel
  | S k =>
      let* block := peek es (codes "(") in
      if block then parseblock k es
      else
        let* c := parseredirs (S es) es execcmd in
        parseargs (S es) es 0 c
  end
with parseblock (fuel es : nat) : M nat (cmd span) :=
  match fuel with
  | O => nofuel
  | S k =>
      let* open := peek es (codes "(") in
      if negb open then panic "parseblock"
      else
        gettoken es ;;
        let* c := parseline k es in
        let* close := peek es (codes ")") in
        if negb close then panic "syntax - missing )"
        else gettoken es ;; parseredirs (S es) es c
  end.

(** [strlen(s)] is [es]; every call of the parser that does not consume a byte
    goes one level down, so four calls per byte are enough. *)
Definition parse_fuel (es : nat) : nat := (4 * es + 4)%nat.

(** [printf(2, ...)] of a string *)
Definition print_err {S} (s : list Z) : M S unit := for_all s (fun c => emit (EvPutc c)).

Definition parsetree (es : nat) : M nat (cmd span) :=
  let* c := parseline (parse_fuel es) es in
  peek es [] ;;
  let* s := get in
  if negb (s =? es)%nat then
    print_err (codes "leftovers: " ++ drop s (take es buf) ++ [10]) ;; panic "syntax"
  else ret c.

End Parser.

(** ** The words of a command *)

(** The writes of [nulterminate] to the buffer. *)
Definition terminate (buf : list Z) (w : span) : list Z := <[w.2 := 0]> buf.

Fixpoint nulterminate (c : cmd span) (buf : list Z) : list Z :=
  match c with
  | EXEC argv => foldl terminate buf argv
  | REDIR c file _ _ => terminate (nulterminate c buf) file
  | PIPE l r | LIST l r => nulterminate r (nulterminate l buf)
  | BACK c => nulterminate c buf
  end.

(** The string a [char *] points at. *)
Definition string_at (buf : list Z) (w : span) : list Z := c_string (drop w.1 buf).

(** [parsecmd] on the line [s]: the command with the strings its words point at
    after [nulterminate]. *)
Definition parsecmd (s : list Z) : list event * res nat (cmd (list Z)) :=
  bind (parsetree (s ++ [0]) (length s))
       (fun c => ret (string_at (nulterminate c (s ++ [0])) <$> c)) 0%nat.
