(* ===== verification/ShPrint.v ===== *)
(** * The shell's grammar: printing a command and parsing it back

    [print] writes a command the way one types it, with parentheses where the
    grammar needs them. *)

From stdpp Require Import base numbers list strings.
From S2P Require Import Prelude Bytes Mem Str User Sh ShParse.

Open Scope Z_scope.

Definition SPACE : Z := 32.

Definition print_word (w : list Z) : list Z := w ++ [SPACE].

Definition print_redir (d : list Z * Z * Z) : list Z :=
  (if d.2 =? 0 then chr "<" else chr ">") :: print_word d.1.1.

Definition paren (b : bool) (s : list Z) : list Z :=
  if b then [chr "("] ++ s ++ [chr ")"] else s.

(** The levels of the grammar: 0 a line, 1 a pipeline with [&]s, 2 a pipeline,
    3 one element of a pipeline. *)
Fixpoint print (lvl : nat) (t : cmd (list Z)) : list Z :=
  match t with
  | EXEC argv => concat (print_word <$> argv)
  | REDIR c file mode fd => print 3 c ++ print_redir (file, mode, fd)
  | PIPE l r => paren (2 <? lvl)%nat (print 3 l ++ [chr "|"] ++ print 2 r)
  | LIST l r => paren (0 <? lvl)%nat (print 1 l ++ [chr ";"] ++ print 0 r)
  | BACK c => paren (1 <? lvl)%nat (print 1 c ++ [chr "&"])
  end.

(** ** What is left to read *)

Fixpoint skip (p : Z -> bool) (l : list Z) : list Z :=
  match l with
  | [] => []
  | c :: l' => if p c then skip p l' else l
  end.

Abbreviation lskip := (skip (strchr whitespace)).

Lemma skip_length p l : (length (skip p l) <= length l)%nat.
Proof. induction l as [|c l IH]; cbn; [lia|]. destruct (p c); cbn; lia. Qed.

Lemma lskip_idem l : lskip (lskip l) = lskip l.
Proof.
  induction l as [|c l IH]; [done|]. cbn [skip]. destruct (strchr whitespace c) eqn:E; [done|].
  cbn [skip]. by rewrite E.
Qed.

(** The rest of the line starts with one of [toks], or is empty. *)
Definition fol (toks : string) (rest : list Z) : Prop :=
  match rest with
  | [] => True
  | c :: _ => c ∈ codes toks
  end.

(** Case analysis on a byte among finitely many. *)
Ltac tok_cases H :=
  cbn in H; repeat rewrite elem_of_cons in H; repeat rewrite elem_of_nil in H;
  repeat match type of H with _ \/ _ => destruct H as [H|H] end; try done.

Lemma fol_lskip toks rest : toks ∈ ["|)&;"; ")&;"; ");"; ")"]%string -> fol toks rest -> lskip rest = rest.
Proof.
  intros Ht Hf. destruct rest as [|c rest]; [done|]. cbn [fol] in Hf.
  assert (c ∈ codes "|)&;") as Hc.
  { repeat (apply elem_of_cons in Ht as [->|Ht]; [tok_cases Hf; subst; apply strchr_spec; reflexivity|]).
    by apply elem_of_nil in Ht. }
  clear Hf. tok_cases Hc; by subst.
Qed.

Lemma word_char_blank c : word_char c -> strchr whitespace c = false.
Proof. intros [H _]. unfold in_word in H. by destruct (strchr whitespace c). Qed.

Lemma word_char_symbol c : word_char c -> strchr symbols c = false.
Proof. intros [H _]. unfold in_word in H. destruct (strchr symbols c); [|done]. by rewrite andb_false_r in H. Qed.

Lemma lskip_word w r : is_word w -> lskip (w ++ r) = w ++ r.
Proof.
  intros [Hne Hw]. destruct w as [|c w]; [done|]. apply Forall_cons in Hw as [Hc _].
  cbn [app skip]. by rewrite word_char_blank.
Qed.

(** No word starts with a symbol. *)
Lemma word_no_tok toks w r :
  (forall d, strchr toks d = true -> strchr symbols d = true) -> is_word w ->
  match w ++ r with [] => false | c :: _ => strchr toks c end = false.
Proof.
  intros Ht [Hne Hw]. destruct w as [|c w]; [done|]. apply Forall_cons in Hw as [Hc _]. cbn.
  destruct (strchr toks c) eqn:E; [|done]. apply Ht in E. by rewrite word_char_symbol in E.
Qed.

Definition blanks (l : list Z) : Prop := Forall (fun c => strchr whitespace c = true) l.

Lemma lskip_blanks l : blanks l -> lskip l = [].
Proof. induction 1 as [|c l Hc _ IH]; [done|]. cbn [skip]. by rewrite Hc. Qed.

Lemma lskip_app r tl : lskip (lskip r ++ tl) = lskip (r ++ tl).
Proof.
  induction r as [|c r IH]; [done|]. cbn [skip app]. destruct (strchr whitespace c) eqn:E; [done|].
  cbn [skip app]. by rewrite E.
Qed.

(** A line, and the blanks at its end. *)
Section Line.
Variable line tail : list Z.
Hypothesis nonul : 0 ∉ line.
Hypothesis tail_blank : blanks tail.
Abbreviation buf := (line ++ [0]).
Abbreviation es := (length line).

(** [r] is what is left at [s], without the blanks before and [tail] after it. *)
Definition rem (s : nat) (r : list Z) : Prop :=
  (s <= es)%nat /\ lskip r = r /\ lskip (drop s line) = lskip (r ++ tail).

Lemma scan_skip p s :
  (s <= es)%nat -> drop (scan buf p (es - s) s) line = skip p (drop s line).
Proof using nonul.
  remember (es - s)%nat as n eqn:En. revert s En. induction n as [|n IH]; intros s En Hs.
  - cbn [scan]. by rewrite drop_ge by lia.
  - destruct (char_at_in line nonul s) as [H1 _]; [lia|]. rewrite (drop_S _ _ _ H1). cbn [scan skip].
    destruct (p (char_at buf s)); [apply IH; lia|]. by apply drop_S.
Qed.

Lemma skip_space_rem s r :
  rem s r -> rem (skip_space buf es s) r /\
             drop (skip_space buf es s) line = match r with [] => [] | _ => r ++ tail end.
Proof using nonul tail_blank.
  intros (Hs & Hr & Hd). destruct (skip_space_spec line s Hs) as [H1 _].
  assert (drop (skip_space buf es s) line = lskip (drop s line)) as E by (by apply scan_skip).
  split; [split; [apply H1|split; [done|]]; by rewrite E, lskip_idem|].
  rewrite E, Hd. destruct r as [|c r]; [by apply lskip_blanks|]. cbn [skip app] in *.
  destruct (strchr whitespace c); [|done].
  pose proof (skip_length (strchr whitespace) r) as Hl. rewrite Hr in Hl. cbn in Hl. lia.
Qed.

Lemma char_at_drop s c r : drop s line = c :: r -> char_at buf s = c /\ drop (S s) line = r /\ (S s <= es)%nat.
Proof using Type.
  intros E. assert (line !! s = Some c) as Hc.
  { by rewrite <- (Nat.add_0_r s), <- lookup_drop, E. }
  apply lookup_lt_Some in Hc as Hl. split; [|split; [|lia]].
  - unfold char_at. by rewrite lookup_app_l, Hc by done.
  - rewrite (drop_S _ _ _ Hc) in E. by injection E.
Qed.

Lemma char_at_end s : drop s line = [] -> char_at buf s = 0.
Proof using Type.
  intros E%(f_equal length). rewrite length_drop in E. cbn in E. apply char_at_out. lia.
Qed.

Lemma peek_rem toks s r :
  rem s r -> exists s', rem s' r /\
    peek buf es toks s = ([], Ret (match r with [] => false | c :: _ => strchr toks c end) s').
Proof using nonul tail_blank.
  intros Hr. destruct (skip_space_rem s r Hr) as [Hr' Hd]. exists (skip_space buf es s). split; [done|].
  cbv [peek bind get put ret]. cbn [app]. do 2 f_equal. destruct r as [|c r].
  - by rewrite (char_at_end _ Hd).
  - destruct (char_at_drop _ _ _ Hd) as [Hc [_ Hl]]. rewrite Hc.
    destruct (char_at_in line nonul (skip_space buf es s)) as [_ H0]; [lia|]. rewrite Hc in H0.
    by destruct (Z.eqb_spec c 0).
Qed.

(** [gettoken] at a one-byte symbol, at [>], at a word and at the end. *)
Lemma gettoken_rem s tok e r' :
  token_at buf es (skip_space buf es s) = (tok, e) -> (e <= es)%nat -> drop e line = r' ++ tail ->
  exists s', rem s' (lskip r') /\
    gettoken buf es s = ([], Ret (tok, (skip_space buf es s, e)) s').
Proof using nonul tail_blank.
  intros Ht He Hd. assert (rem e (lskip r')) as Hre.
  { split; [done|]. by rewrite lskip_idem, lskip_app, Hd. }
  destruct (skip_space_rem e _ Hre) as [Hr' _]. exists (skip_space buf es e). split; [done|].
  cbv [gettoken bind get put ret]. by rewrite Ht.
Qed.

Lemma gettoken_sym s c r :
  rem s (c :: r) -> c ∈ codes "|();&<" ->
  exists w s', rem s' (lskip r) /\ gettoken buf es s = ([], Ret (c, w) s').
Proof using nonul tail_blank.
  intros Hr Hc. destruct (skip_space_rem _ _ Hr) as [_ Hd].
  destruct (char_at_drop _ _ _ Hd) as (Hch & Hd' & Hl).
  destruct (gettoken_rem s c (S (skip_space buf es s)) r) as (s' & Hs' & E); [|done|done|eauto].
  - unfold token_at. rewrite Hch. apply strchr_spec in Hc as Hb. rewrite Hb.
    by tok_cases Hc; subst.
Qed.

Lemma gettoken_gt s c r :
  rem s (chr ">" :: c :: r) -> c <> chr ">" ->
  exists w s', rem s' (lskip (c :: r)) /\ gettoken buf es s = ([], Ret (chr ">", w) s').
Proof using nonul tail_blank.
  intros Hr Hc. destruct (skip_space_rem _ _ Hr) as [_ Hd].
  destruct (char_at_drop _ _ _ Hd) as (Hch & Hd' & Hl). destruct (char_at_drop _ _ _ Hd') as (Hch' & _).
  destruct (gettoken_rem s (chr ">") (S (skip_space buf es s)) (c :: r)) as (s' & Hs' & E); [|done|done|eauto].
  unfold token_at. rewrite Hch, Hch'. by destruct (Z.eqb_spec c (chr ">")).
Qed.

Lemma gettoken_end s :
  rem s [] -> exists w s', rem s' [] /\ gettoken buf es s = ([], Ret (0, w) s').
Proof using nonul tail_blank.
  intros Hr. destruct (skip_space_rem _ _ Hr) as [Hr' Hd].
  exists (skip_space buf es s, skip_space buf es s), (skip_space buf es s). split; [done|].
  assert (token_at buf es (skip_space buf es s) = (0, skip_space buf es s)) as Et
    by (unfold token_at; by rewrite (char_at_end _ Hd)).
  cbv [gettoken bind get put ret]. rewrite Et.
  by rewrite (skip_space_stay line (skip_space buf es s)) by (by rewrite (char_at_end _ Hd)).
Qed.

Lemma scan_word q w r :
  drop q line = w ++ SPACE :: r -> Forall word_char w ->
  scan buf in_word (es - q) q = (q + length w)%nat.
Proof using nonul.
  revert q. induction w as [|c w IH]; intros q E Hw.
  - destruct (char_at_drop _ _ _ E) as (Hc & _ & Hl). rewrite Nat.add_0_r.
    destruct (es - q)%nat; [done|]. cbn [scan]. by rewrite Hc.
  - apply Forall_cons in Hw as [[H1 _] Hw]. destruct (char_at_drop _ _ _ E) as (Hc & Hd & Hl).
    replace (es - q)%nat with (S (es - S q)) by lia. cbn [scan]. rewrite Hc, H1, IH by done. cbn. lia.
Qed.

Lemma gettoken_word s w r :
  rem s (w ++ SPACE :: r) -> is_word w ->
  exists sp s', text line sp = w /\ rem s' (lskip r) /\ gettoken buf es s = ([], Ret (TOK_WORD, sp) s').
Proof using nonul tail_blank.
  intros Hr [Hne Hw]. destruct (skip_space_rem _ _ Hr) as [[Hl0 _] Hd].
  set (q := skip_space buf es s) in *.
  assert (drop q line = w ++ SPACE :: r ++ tail) as Hd1.
  { rewrite Hd. destruct w; [done|]. cbn. by rewrite <- app_assoc. }
  clear Hd. rename Hd1 into Hd.
  assert (drop (q + length w) line = SPACE :: r ++ tail) as Hd2.
  { rewrite <- drop_drop, Hd, drop_app_length. done. }
  destruct (char_at_drop _ _ _ Hd2) as (_ & Hd3 & Hl).
  destruct (gettoken_rem s TOK_WORD (q + length w)%nat (SPACE :: r)) as (s' & Hs' & E); [|lia|done|].
  - fold q. unfold token_at. rewrite (scan_word q w (r ++ tail)) by done. destruct w as [|c w]; [done|].
    apply Forall_cons in Hw as [Hc _]. destruct (char_at_drop _ _ _ Hd) as (Hch & _). rewrite Hch.
    pose proof (symbols_split c) as Hs. destruct Hc as [Hc H0]. unfold in_word in Hc.
    destruct (strchr symbols c); [by rewrite andb_false_r in Hc|].
    symmetry in Hs. apply orb_false_iff in Hs as [-> ->]. by destruct (Z.eqb_spec c 0).
  - fold q in E. exists (q, (q + length w)%nat), s'. split; [|split; [|done]].
    + unfold text. cbn. rewrite Hd. replace (q + length w - q)%nat with (length w) by lia.
      apply take_app_length.
    + exact Hs'.
Qed.

(** ** Parsing what was printed *)

Definition parses (m : M nat (cmd span)) (s : nat) (t : cmd (list Z)) (r : list Z) : Prop :=
  exists c s', m s = ([], Ret c s') /\ text line <$> c = t /\ rem s' r.

Lemma rem_length s r : rem s r -> (length r <= es)%nat.
Proof using nonul tail_blank.
  intros Hs. destruct (skip_space_rem s r Hs) as [_ Hd%(f_equal length)].
  rewrite length_drop in Hd. destruct r; cbn in *; [lia|]. rewrite length_app in Hd. lia.
Qed.

Definition no_redir (rest : list Z) : Prop :=
  match rest with [] => false | c :: _ => strchr (codes "<>") c end = false.

Lemma parseredirs_none n c s rest :
  (0 < n)%nat -> no_redir rest -> rem s rest ->
  exists s', parseredirs buf n es c s = ([], Ret c s') /\ rem s' rest.
Proof using nonul tail_blank.
  intros Hn Hr Hs. destruct n as [|n]; [lia|]. cbn [parseredirs].
  destruct (peek_rem (codes "<>") s rest Hs) as (s1 & Hs1 & E). run_with E. rewrite Hr.
  by exists s1.
Qed.

Abbreviation print_redirs ds := (concat (print_redir <$> ds)).

Lemma print_redirs_skip ds rest : lskip rest = rest -> lskip (print_redirs ds ++ rest) = print_redirs ds ++ rest.
Proof using Type. intros Hr. destruct ds as [|[[f m] d] ds]; [done|].
  cbn [fmap list_fmap concat print_redir snd app]. by destruct (d =? 0). Qed.

Lemma print_redirs_cons f m d ds rest :
  print_redirs ((f, m, d) :: ds) ++ rest =
  (if d =? 0 then chr "<" else chr ">") :: f ++ SPACE :: print_redirs ds ++ rest.
Proof using Type.
  cbn [fmap list_fmap concat print_redir fst snd app]. unfold print_word. by rewrite <- !app_assoc.
Qed.

Lemma parseredirs_rem ds n c s rest :
  Forall (redir_ok is_word) ds -> lskip rest = rest -> no_redir rest ->
  rem s (print_redirs ds ++ rest) -> (length (print_redirs ds ++ rest) < n)%nat ->
  parses (parseredirs buf n es c) s (wrap ds (text line <$> c)) rest.
Proof using nonul tail_blank.
  intros Hds Hn Hno. revert n c s. induction Hds as [|[[f m] d] ds [Hf Hk] _ IH]; intros n c s Hs Hlen.
  { destruct (parseredirs_none n c s rest) as (s' & E & Hs'); [lia|done|done|]. by exists c, s'. }
  cbn in Hf, Hk. rewrite print_redirs_cons in Hs, Hlen.
  destruct n as [|n]; [cbn in Hlen; lia|]. cbn [parseredirs]. unfold parses.
  destruct (peek_rem (codes "<>") _ _ Hs) as (s1 & Hs1 & E). run_with E.
  assert (strchr (codes "<>") (if d =? 0 then chr "<" else chr ">") = true) as -> by (by case_match).
  assert (exists w s2, rem s2 (f ++ SPACE :: print_redirs ds ++ rest) /\
    gettoken buf es s1 = ([], Ret (if d =? 0 then chr "<" else chr ">", w) s2)) as (w & s2 & Hs2 & E2).
  { rewrite <- (lskip_word f (SPACE :: print_redirs ds ++ rest)) by done. destruct (d =? 0).
    - apply gettoken_sym; [done|]. by apply strchr_spec.
    - destruct Hf as [Hne Hw]. destruct f as [|c0 f]; [done|]. apply gettoken_gt; [done|].
      apply Forall_cons in Hw as [Hw%word_char_symbol _]. intros ->. done. }
  run_with E2.
  destruct (gettoken_word _ _ _ Hs2 Hf) as (sp & s3 & Hsp & Hs3 & E3). run_with E3. cbn [fst snd].
  rewrite Z.eqb_refl. cbn [negb]. rewrite print_redirs_skip in Hs3 by done.
  destruct (IH n (REDIR c sp m d) s3) as (c' & s' & E' & Ht & Hs'); [done| |].
  { cbn in Hlen. rewrite length_app in Hlen. cbn in Hlen. lia. }
  exists c', s'. split; [|split; [|done]].
  - rewrite <- E'. destruct Hk as [[-> ->]|[-> ->]]; reflexivity.
  - rewrite Ht. cbn. by rewrite Hsp.
Qed.

Lemma parses_bind (m : M nat (cmd span)) k s t r t' r' :
  parses m s t r -> (forall c s', text line <$> c = t -> rem s' r -> parses (k c) s' t' r') ->
  parses (bind m k) s t' r'.
Proof using Type.
  intros (c & s' & E & Ht & Hs) Hk. destruct (Hk c s' Ht Hs) as (c' & s2 & E2 & H).
  exists c', s2. by rewrite (bind_nil _ _ _ _ _ E).
Qed.

(** [if(peek(toks)) gettoken(..), k1 else k2] *)
Lemma parses_peek toks (k : bool -> M nat (cmd span)) s r t r' :
  rem s r ->
  (forall s', rem s' r -> parses (k (match r with [] => false | c :: _ => strchr toks c end)) s' t r') ->
  parses (bind (peek buf es toks) k) s t r'.
Proof using nonul tail_blank.
  intros Hs Hk. destruct (peek_rem toks s r Hs) as (s1 & Hs1 & E).
  destruct (Hk s1 Hs1) as (c & s2 & E2 & H). exists c, s2. by rewrite (bind_nil _ _ _ _ _ E).
Qed.

Lemma parses_sym (k : M nat (cmd span)) s c r t r' :
  rem s (c :: r) -> c ∈ codes "|();&<" -> lskip r = r ->
  (forall s', rem s' r -> parses k s' t r') -> parses (gettoken buf es ;; k) s t r'.
Proof using nonul tail_blank.
  intros Hs Hc Hr Hk. destruct (gettoken_sym s c r Hs Hc) as (w & s1 & Hs1 & E). rewrite Hr in Hs1.
  destruct (Hk s1 Hs1) as (c' & s2 & E2 & H). exists c', s2. by rewrite (bind_nil _ _ _ _ _ E).
Qed.

Lemma fol_no_redir rest : fol "|)&;" rest -> no_redir rest.
Proof using Type. destruct rest as [|c rest]; [done|]. intros Hc. unfold no_redir. tok_cases Hc; by subst. Qed.

Lemma fol_normal rest : fol "|)&;" rest -> lskip rest = rest.
Proof using Type. apply fol_lskip. by left. Qed.

Lemma add_arg_fmap {A B} (f : A -> B) w c : f <$> add_arg w c = add_arg (f w) (f <$> c).
Proof using Type. induction c; cbn; try done; [by rewrite fmap_app|by rewrite IHc]. Qed.

Abbreviation print_args ws := (concat (print_word <$> ws)).

Lemma print_args_cons w ws r : print_args (w :: ws) ++ r = w ++ SPACE :: print_args ws ++ r.
Proof using Type. cbn [fmap list_fmap concat]. unfold print_word at 1. by rewrite <- !app_assoc. Qed.

(** The line after some words is the next word or the redirections. *)
Lemma print_args_skip ws ds rest :
  Forall is_word ws -> lskip rest = rest ->
  lskip (print_args ws ++ print_redirs ds ++ rest) = print_args ws ++ print_redirs ds ++ rest.
Proof using Type.
  intros Hws Hr. destruct Hws as [|w ws Hw _]; [by apply print_redirs_skip|].
  rewrite print_args_cons. by apply lskip_word.
Qed.

Lemma no_redir_word w ws r : is_word w -> no_redir (print_args (w :: ws) ++ r).
Proof using Type.
  intros Hw. unfold no_redir. rewrite print_args_cons. apply word_no_tok; [|done].
  intros d Hd. apply strchr_spec in Hd. tok_cases Hd; by subst.
Qed.

Lemma parseargs_rem ws ds n argc c s rest :
  Forall is_word ws -> Forall (redir_ok is_word) ds -> fol "|)&;" rest -> (ws = [] -> ds = []) ->
  (argc + length ws < MAXARGS)%nat -> rem s (print_args ws ++ print_redirs ds ++ rest) ->
  (length (print_args ws ++ print_redirs ds ++ rest) < n)%nat ->
  parses (parseargs buf n es argc c) s (wrap ds (foldl (flip add_arg) (text line <$> c) ws)) rest.
Proof using nonul tail_blank.
  intros Hws Hds Hf. pose proof (fol_normal _ Hf) as Hn.
  revert ds Hds n argc c s. induction Hws as [|w ws Hw Hws IH]; intros ds Hds n argc c s Hnil Hmax Hs Hlen.
  - rewrite (Hnil eq_refl) in *. cbn [app concat fmap list_fmap] in *.
    destruct n as [|n]; [lia|]. cbn [parseargs]. apply (parses_peek _ _ _ rest); [done|]. intros s1 Hs1.
    destruct rest as [|c0 rest].
    + destruct (gettoken_end _ Hs1) as (w & s2 & Hs2 & E2). unfold parses. run_with E2. by exists c, s2.
    + cbn [fol] in Hf. apply strchr_spec in Hf. rewrite Hf. by exists c, s1.
  - rewrite print_args_cons in Hs, Hlen. destruct n as [|n]; [lia|]. cbn [parseargs].
    apply (parses_peek _ _ _ _ _ _ Hs). intros s1 Hs1. rewrite word_no_tok; [|intros d Hd|done].
    2: { apply strchr_spec in Hd. tok_cases Hd; by subst. }
    destruct (gettoken_word _ _ _ Hs1 Hw) as (sp & s2 & Hsp & Hs2 & E2). unfold parses. run_with E2.
    cbn [fst snd]. rewrite Z.eqb_refl. cbn [negb]. change (TOK_WORD =? 0) with false. cbn match.
    cbn in Hmax. destruct (Nat.leb_spec MAXARGS (S argc)); [lia|].
    rewrite print_args_skip in Hs2 by done. rewrite length_app in Hlen. cbn in Hlen.
    apply (parses_bind _ _ _ (wrap (if ws is [] then ds else []) (add_arg w (text line <$> c)))
             (print_args ws ++ print_redirs (if ws is [] then [] else ds) ++ rest)).
    + pose proof (rem_length _ _ Hs2) as Hl2. rewrite <- Hsp, <- add_arg_fmap. destruct ws as [|w' ws].
      * apply parseredirs_rem; [done|done|by apply fol_no_redir|done|cbn in *; lia].
      * assert (no_redir (print_args (w' :: ws) ++ print_redirs ds ++ rest)) as Hno
          by (apply Forall_cons in Hws as [Hw' _]; by apply no_redir_word).
        destruct (parseredirs_none (S es) (add_arg sp c) s2 _ ltac:(lia) Hno Hs2) as (s3 & E3 & Hs3).
        by exists (add_arg sp c), s3.
    + intros c' s3 Ht Hs3. destruct ws as [|w' ws].
      * cbn [app concat fmap list_fmap] in *.
        rewrite length_app in Hlen. change (foldl _ _ [w]) with (add_arg w (text line <$> c)).
        rewrite <- Ht. refine (IH [] ltac:(done) n (S argc) c' s3 _ _ _ _); [done|cbn; lia|done|cbn; lia].
      * change (text line <$> c' = add_arg w (text line <$> c)) in Ht.
        change (foldl ?f ?x (w :: ?l)) with (foldl f (add_arg w x) l). rewrite <- Ht.
        apply (IH ds Hds n (S argc) c' s3); [done|lia|done|lia].
Qed.

Lemma print_skip lvl t rest :
  cmd_wf is_word t -> lskip rest = rest -> lskip (print lvl t ++ rest) = print lvl t ++ rest.
Proof using Type.
  intros Ht. revert lvl rest.
  induction t as [argv|c IH f m d|l IHl r IHr|l IHl r IHr|c IH]; intros lvl rest Hr; cbn [print].
  - destruct Ht as [_ Ht]. exact (print_args_skip argv [] rest Ht Hr).
  - destruct Ht as (H1 & H2 & _). rewrite <- app_assoc. apply IH; [done|].
    pose proof (print_redirs_skip [(f, m, d)] rest Hr) as E. cbn [fmap list_fmap concat] in E.
    by rewrite app_nil_r in E.
  - unfold paren. destruct (2 <? lvl)%nat; [done|]. rewrite <- !app_assoc. apply IHl; [apply Ht|done].
  - unfold paren. destruct (0 <? lvl)%nat; [done|]. rewrite <- !app_assoc. apply IHl; [apply Ht|done].
  - unfold paren. destruct (1 <? lvl)%nat; [done|]. rewrite <- !app_assoc. apply IH; [apply Ht|done].
Qed.

Fixpoint backs (k : nat) (t : cmd (list Z)) : cmd (list Z) :=
  match k with O => t | S k => backs k (BACK t) end.

(** What each level of the parser reads. *)
Definition reads3 (t : cmd (list Z)) : Prop := forall n s ds rest,
  Forall (redir_ok is_word) ds -> fol "|)&;" rest ->
  rem s (print 3 t ++ print_redirs ds ++ rest) ->
  (4 * length (print 3 t ++ print_redirs ds ++ rest) + 2 <= n)%nat ->
  parses (parseexec buf n es) s (wrap ds t) rest.

Definition reads2 (t : cmd (list Z)) : Prop := forall n s rest,
  fol ")&;" rest -> rem s (print 2 t ++ rest) -> (4 * length (print 2 t ++ rest) + 3 <= n)%nat ->
  parses (parsepipe buf n es) s t rest.

Definition reads1 (t : cmd (list Z)) : Prop := forall n s k rest,
  fol ");" rest -> rem s (print 1 t ++ replicate k (chr "&") ++ rest) ->
  (4 * length (print 1 t ++ replicate k (chr "&") ++ rest) + 3 <= n)%nat ->
  parses (bind (parsepipe buf n es) (parseback buf (S es) es)) s (backs k t) rest.

Definition reads0 (t : cmd (list Z)) : Prop := forall n s rest,
  fol ")" rest -> rem s (print 0 t ++ rest) -> (4 * length (print 0 t ++ rest) + 4 <= n)%nat ->
  parses (parseline buf n es) s t rest.

Lemma fol_weaken toks toks' rest :
  (forall c, c ∈ codes toks -> c ∈ codes toks') -> fol toks rest -> fol toks' rest.
Proof using Type. destruct rest; [done|]. cbn. auto. Qed.

(** [solve_fol]: a follow set inside another one, or a byte outside of it. *)
Ltac solve_fol :=
  let c := fresh "c" in let H := fresh in
  intros c H; tok_cases H; subst; apply strchr_spec; reflexivity.

Lemma reads3_reads2 t : print 2 t = print 3 t -> reads3 t -> reads2 t.
Proof using nonul tail_blank.
  intros Ep H3 n s rest Hf Hs Hn. rewrite Ep in *. destruct n as [|n]; [lia|]. cbn [parsepipe].
  apply (parses_bind _ _ _ t rest).
  - apply (H3 n s [] rest); [done| |done|cbn; lia]. revert Hf. apply fol_weaken. solve_fol.
  - intros c s1 Ht Hs1. apply (parses_peek _ _ _ rest); [done|]. intros s2 Hs2.
    destruct rest as [|c0 rest]; [by exists c, s2|]. cbn [fol] in Hf.
    assert (strchr (codes "|") c0 = false) as -> by (tok_cases Hf; by subst). by exists c, s2.
Qed.

Lemma parseback_rem k n c s rest :
  fol ");" rest -> rem s (replicate k (chr "&") ++ rest) -> (k < n)%nat ->
  parses (parseback buf n es c) s (backs k (text line <$> c)) rest.
Proof using nonul tail_blank.
  intros Hf. assert (lskip rest = rest) as Hr.
  { apply (fol_lskip ");"); [|done]. do 2 right. by left. }
  revert n c s. induction k as [|k IH]; intros n c s Hs Hn.
  - destruct n as [|n]; [lia|]. cbn [parseback]. apply (parses_peek _ _ _ rest); [done|]. intros s1 Hs1.
    destruct rest as [|c0 rest]; [by exists c, s1|]. cbn [fol] in Hf.
    assert (strchr (codes "&") c0 = false) as -> by (tok_cases Hf; by subst). by exists c, s1.
  - destruct n as [|n]; [lia|]. cbn [parseback]. apply (parses_peek _ _ _ _ _ _ Hs). intros s1 Hs1.
    cbn [replicate app]. change (strchr (codes "&") (chr "&")) with true. cbn match.
    eapply parses_sym; [exact Hs1|by apply strchr_spec|by destruct k|].
    intros s2 Hs2. apply (IH n (BACK c) s2); [done|lia].
Qed.

Lemma reads2_reads1 t : print 1 t = print 2 t -> reads2 t -> reads1 t.
Proof using nonul tail_blank.
  intros Ep H2 n s k rest Hf Hs Hn. rewrite Ep in *.
  apply (parses_bind _ _ _ t (replicate k (chr "&") ++ rest)).
  - apply H2; [|done|done]. destruct k; [|by apply strchr_spec]. revert Hf. apply fol_weaken. solve_fol.
  - intros c s1 <- Hs1. apply parseback_rem; [done|done|].
    pose proof (rem_length _ _ Hs1) as Hl. rewrite length_app, length_replicate in Hl. lia.
Qed.

Lemma parses_assoc (m : M nat (cmd span)) (f : cmd span -> M nat (cmd span)) g s t r :
  parses (bind (bind m f) g) s t r -> parses (bind m (fun c => bind (f c) g)) s t r.
Proof using Type. intros (c & s' & E & H). exists c, s'. by rewrite <- bind_assoc. Qed.

(** The end of [parseline]: no [;], or one and another line. *)
Lemma parseline_end n s c t rest :
  fol ")" rest -> rem s rest -> text line <$> c = t ->
  parses (let* more := peek buf es (codes ";") in
          if more then gettoken buf es ;; let* r := parseline buf n es in ret (listcmd c r) else ret c) s t rest.
Proof using nonul tail_blank.
  intros Hf Hs Ht. apply (parses_peek _ _ _ rest); [done|]. intros s1 Hs1.
  destruct rest as [|c0 rest]; [by exists c, s1|]. cbn [fol] in Hf.
  assert (strchr (codes ";") c0 = false) as -> by (tok_cases Hf; by subst). by exists c, s1.
Qed.

Lemma reads1_reads0 t : print 0 t = print 1 t -> reads1 t -> reads0 t.
Proof using nonul tail_blank.
  intros Ep H1 n s rest Hf Hs Hn. rewrite Ep in *. destruct n as [|n]; [lia|]. cbn [parseline].
  apply parses_assoc, (parses_bind _ _ _ t rest).
  - apply (H1 n s 0%nat rest); [|done|cbn; lia]. revert Hf. apply fol_weaken. solve_fol.
  - intros c s1 Ht Hs1. by apply parseline_end.
Qed.

Lemma reads0_reads3 t :
  cmd_wf is_word t -> print 3 t = [chr "("] ++ print 0 t ++ [chr ")"] -> reads0 t -> reads3 t.
Proof using nonul tail_blank.
  intros Ht Ep H0 n s ds rest Hds Hf Hs Hn. rewrite Ep in *. rewrite <- !app_assoc in *. cbn [app] in *.
  destruct n as [|[|n]]; [cbn in Hn; lia..|]. cbn [parseexec parseblock].
  apply (parses_peek _ _ _ _ _ _ Hs). intros s1 Hs1. change (strchr (codes "(") (chr "(")) with true. cbn match.
  apply (parses_peek _ _ _ _ _ _ Hs1). intros s2 Hs2. change (strchr (codes "(") (chr "(")) with true. cbn [negb].
  eapply parses_sym; [exact Hs2|by apply strchr_spec|by apply print_skip|]. intros s3 Hs3.
  cbn [length] in Hn. eapply parses_bind.
  - apply H0; [|exact Hs3|lia]. by apply strchr_spec.
  - intros c s4 <- Hs4. apply (parses_peek _ _ _ _ _ _ Hs4). intros s5 Hs5.
    change (strchr (codes ")") (chr ")")) with true. cbn [negb].
    eapply parses_sym; [exact Hs5|by apply strchr_spec|by apply print_redirs_skip, fol_normal|].
    intros s6 Hs6. apply parseredirs_rem; [done|by apply fol_normal|by apply fol_no_redir|done|].
    pose proof (rem_length _ _ Hs6). lia.
Qed.

Lemma foldl_add_arg argv (done : list (list Z)) :
  foldl (flip add_arg) (EXEC done) argv = EXEC (done ++ argv).
Proof using Type.
  revert done. induction argv as [|w argv IH]; intros done; cbn; [by rewrite app_nil_r|].
  by rewrite IH, <- app_assoc.
Qed.

Lemma reads3_exec argv : cmd_wf is_word (EXEC argv) -> reads3 (EXEC argv).
Proof using nonul tail_blank.
  intros [Hmax Hw] n s ds rest Hds Hf Hs Hn. cbn [print] in *. destruct n as [|n]; [lia|]. cbn [parseexec].
  pose proof (rem_length _ _ Hs) as Hlen.
  apply (parses_peek _ _ _ _ _ _ Hs). intros s1 Hs1.
  assert (match print_args argv ++ print_redirs ds ++ rest with [] => false | c :: _ => strchr (codes "(") c end
    = false) as ->.
  { destruct argv as [|w argv].
    - destruct ds as [|[[f m] d] ds].
      + destruct rest as [|c rest]; [done|]. cbn [fol] in Hf. tok_cases Hf; by subst.
      + change (print_args [] ++ ?x) with x. rewrite print_redirs_cons. by destruct (d =? 0).
    - rewrite print_args_cons. apply word_no_tok; [|by inversion Hw].
      intros d Hd. apply strchr_spec in Hd. tok_cases Hd; by subst. }
  apply (parses_bind _ _ _ (wrap (if argv is [] then ds else []) (EXEC []))
           (print_args argv ++ print_redirs (if argv is [] then [] else ds) ++ rest)).
  - destruct argv as [|w argv].
    + apply (parseredirs_rem ds (S es) (EXEC [])); [done|by apply fol_normal|by apply fol_no_redir|done|].
      exact (le_n_S _ _ Hlen).
    + assert (no_redir (print_args (w :: argv) ++ print_redirs ds ++ rest)) as Hno
        by (apply Forall_cons in Hw as [Hw _]; by apply no_redir_word).
      destruct (parseredirs_none (S es) (EXEC []) s1 _ ltac:(lia) Hno Hs1) as (s2 & E & Hs2).
      by exists (EXEC []), s2.
  - intros c s2 Ht Hs2. pose proof (rem_length _ _ Hs2) as Hl2. destruct argv as [|w argv].
    + rewrite <- Ht. apply (parseargs_rem [] [] (S es) 0 c s2 rest); [done..|unfold MAXARGS; cbn; lia|done|].
      exact (le_n_S _ _ Hl2).
    + change (EXEC (w :: argv)) with (EXEC ([] ++ w :: argv)). rewrite <- foldl_add_arg.
      change (text line <$> c = EXEC []) in Ht. rewrite <- Ht.
      apply (parseargs_rem (w :: argv) ds (S es) 0 c s2 rest); [done..|exact (le_n_S _ _ Hl2)].
Qed.

Lemma reads3_redir c f m d :
  cmd_wf is_word (REDIR c f m d) -> reads3 c -> reads3 (REDIR c f m d).
Proof using nonul tail_blank.
  intros (Hc & Hf & Hk) H3 n s ds rest Hds Hfol Hs Hn. cbn [print] in *. rewrite <- !app_assoc in *.
  apply (H3 n s ((f, m, d) :: ds) rest); [by constructor|done| |];
    cbn [fmap list_fmap concat]; by rewrite <- app_assoc.
Qed.

Lemma reads2_pipe l r :
  cmd_wf is_word (PIPE l r) -> reads3 l -> reads2 r -> reads2 (PIPE l r).
Proof using nonul tail_blank.
  intros [Hl Hr] H3 H2 n s rest Hf Hs Hn. cbn [print paren] in *.
  change (2 <? 2)%nat with false in *. cbn [paren] in *. rewrite <- !app_assoc in *.
  destruct n as [|n]; [lia|]. cbn [parsepipe]. cbn [app] in *. rewrite length_app in Hn. cbn [length] in Hn.
  apply (parses_bind _ _ _ l (chr "|" :: print 2 r ++ rest)).
  - apply (H3 n s [] (chr "|" :: print 2 r ++ rest)); [done|by apply strchr_spec|done|].
    cbn [fmap list_fmap concat app]. rewrite length_app. cbn [length]. lia.
  - intros c s1 <- Hs1. apply (parses_peek _ _ _ _ _ _ Hs1). intros s2 Hs2.
    change (strchr (codes "|") (chr "|")) with true. cbn match.
    eapply parses_sym; [exact Hs2|by apply strchr_spec|apply print_skip; [done|]|].
    { apply (fol_lskip ")&;"); [|done]. right. by left. }
    intros s3 Hs3. eapply parses_bind; [apply H2; [done|exact Hs3|lia]|].
    intros c' s4 <- Hs4. by exists (PIPE c c'), s4.
Qed.

Lemma reads1_back c : reads1 c -> reads1 (BACK c).
Proof using nonul tail_blank.
  intros H1 n s k rest Hf Hs Hn. cbn [print] in *. change (1 <? 1)%nat with false in *. cbn [paren] in *.
  rewrite <- app_assoc in *. exact (H1 n s (S k) rest Hf Hs Hn).
Qed.

Lemma reads0_list l r :
  cmd_wf is_word (LIST l r) -> reads1 l -> reads0 r -> reads0 (LIST l r).
Proof using nonul tail_blank.
  intros [Hl Hr] H1 H0 n s rest Hf Hs Hn. cbn [print] in *. change (0 <? 0)%nat with false in *. cbn [paren] in *.
  rewrite <- !app_assoc in *. destruct n as [|n]; [lia|]. cbn [parseline]. cbn [app] in *.
  rewrite length_app in Hn. cbn [length] in Hn.
  apply parses_assoc, (parses_bind _ _ _ l (chr ";" :: print 0 r ++ rest)).
  - apply (H1 n s 0%nat (chr ";" :: print 0 r ++ rest)); [by apply strchr_spec|done|].
    cbn [replicate app]. rewrite length_app. cbn [length]. lia.
  - intros c s1 <- Hs1. apply (parses_peek _ _ _ _ _ _ Hs1). intros s2 Hs2.
    change (strchr (codes ";") (chr ";")) with true. cbn match.
    eapply parses_sym; [exact Hs2|by apply strchr_spec|apply print_skip; [done|]|].
    { apply (fol_lskip ")"); [|done]. do 3 right. by left. }
    intros s3 Hs3. eapply parses_bind; [apply H0; [done|exact Hs3|lia]|].
    intros c' s4 <- Hs4. by exists (LIST c c'), s4.
Qed.

Lemma parsetree_rem c s :
  parseline buf (parse_fuel es) es 0%nat = ([], Ret c s) -> rem s [] ->
  parsetree buf es 0%nat = ([], Ret c es).
Proof using nonul tail_blank.
  intros E Hs. unfold parsetree. run_with E. destruct (skip_space_rem s [] Hs) as [[Hl _] Hd].
  assert (skip_space buf es s = es) as Eq.
  { apply (f_equal length) in Hd. rewrite length_drop in Hd. cbn in Hd. lia. }
  cbv [bind peek get put ret]. rewrite Eq. by rewrite Nat.eqb_refl.
Qed.

Lemma reads t : cmd_wf is_word t -> reads3 t /\ reads2 t /\ reads1 t /\ reads0 t.
Proof using nonul tail_blank.
  induction t as [argv|c IH f m d|l IHl r IHr|l IHl r IHr|c IH]; intros Ht.
  - assert (reads3 (EXEC argv)) as H3 by (by apply reads3_exec).
    pose proof (reads3_reads2 (EXEC argv) eq_refl H3) as H2. pose proof (reads2_reads1 (EXEC argv) eq_refl H2) as H1.
    by pose proof (reads1_reads0 (EXEC argv) eq_refl H1).
  - assert (reads3 (REDIR c f m d)) as H3 by (apply reads3_redir; [done|]; apply IH, Ht).
    pose proof (reads3_reads2 (REDIR c f m d) eq_refl H3) as H2. pose proof (reads2_reads1 (REDIR c f m d) eq_refl H2) as H1.
    by pose proof (reads1_reads0 (REDIR c f m d) eq_refl H1).
  - assert (reads2 (PIPE l r)) as H2 by (apply reads2_pipe; [done|apply IHl, Ht|apply IHr, Ht]).
    pose proof (reads2_reads1 (PIPE l r) eq_refl H2) as H1. pose proof (reads1_reads0 (PIPE l r) eq_refl H1) as H0.
    by pose proof (reads0_reads3 (PIPE l r) Ht eq_refl H0).
  - assert (reads0 (LIST l r)) as H0 by (apply reads0_list; [done|apply IHl, Ht|apply IHr, Ht]).
    pose proof (reads0_reads3 (LIST l r) Ht eq_refl H0) as H3. pose proof (reads3_reads2 (LIST l r) eq_refl H3) as H2.
    by pose proof (reads2_reads1 (LIST l r) eq_refl H2).
  - assert (reads1 (BACK c)) as H1 by (apply reads1_back, IH, Ht).
    pose proof (reads1_reads0 (BACK c) eq_refl H1) as H0. pose proof (reads0_reads3 (BACK c) Ht eq_refl H0) as H3.
    by pose proof (reads3_reads2 (BACK c) eq_refl H3).
Qed.

End Line.

(** The printed form has no NUL. *)
Lemma print_nonul lvl t : cmd_wf is_word t -> 0 ∉ print lvl t.
Proof.
  assert (forall w, is_word w -> 0 ∉ w) as Hw.
  { intros w [_ Hw] H0. rewrite Forall_forall in Hw. by apply Hw in H0 as [_ ?]. }
  assert (forall b s, 0 ∉ s -> 0 ∉ paren b s) as Hp.
  { intros [] s Hs; [|done]. unfold paren. rewrite !not_elem_of_app.
    split; [|split; [done|]]; by apply strchr_false. }
  revert lvl. induction t as [argv|c IH f m d|l IHl r IHr|l IHl r IHr|c IH]; intros lvl Ht; cbn [print].
  - destruct Ht as [_ Ht]. induction Ht as [|w argv Hw' _ IH]; [by apply strchr_false|].
    cbn [fmap list_fmap concat]. unfold print_word at 1. rewrite !not_elem_of_app.
    split; [split; [auto|by apply strchr_false]|done].
  - destruct Ht as (Hc & Hf & _). rewrite not_elem_of_app. split; [auto|].
    unfold print_redir, print_word. cbn [fst snd]. rewrite not_elem_of_cons, not_elem_of_app.
    split; [by case_match|]. split; [auto|by apply strchr_false].
  - apply Hp. rewrite !not_elem_of_app. split; [by apply IHl, Ht|]. split; [by apply strchr_false|by apply IHr, Ht].
  - apply Hp. rewrite !not_elem_of_app. split; [by apply IHl, Ht|]. split; [by apply strchr_false|by apply IHr, Ht].
  - apply Hp. rewrite not_elem_of_app. split; [by apply IH|by apply strchr_false].
Qed.

(** The printed line may have blanks at the end. *)
Lemma parse_printed t tail :
  cmd_wf is_word t -> blanks tail ->
  parsecmd (print 0 t ++ tail) = ([], Ret t (length (print 0 t ++ tail))).
Proof.
  intros Ht Hb. assert (0 ∉ print 0 t ++ tail) as H0.
  { apply not_elem_of_app. split; [by apply print_nonul|]. intros H0.
    by apply (proj1 (Forall_forall _ _) Hb) in H0. }
  set (line := print 0 t ++ tail) in *.
  destruct (reads line tail H0 Hb t Ht) as (_ & _ & _ & Hr).
  destruct (Hr (parse_fuel (length line)) 0%nat []) as (c & s & E & Hc & Hs); [done| | |].
  { rewrite app_nil_r. split; [lia|]. rewrite drop_0. split; [|done].
    pose proof (print_skip 0 t [] Ht eq_refl) as Es. by rewrite app_nil_r in Es. }
  { rewrite app_nil_r. unfold parse_fuel, line. rewrite length_app. lia. }
  pose proof (parsetree_rem line tail H0 Hb c s E Hs) as Et.
  destruct (parsecmd_tree line H0) as [(ev & msg & Ep)|(ev & t' & n & Et' & _ & Ep)].
  - exfalso. unfold parsecmd in Ep. by rewrite (bind_nil _ _ _ _ _ Et) in Ep.
  - rewrite Et in Et'. injection Et' as <- <- <-. by rewrite Ep, Hc.
Qed.

(** C18: the parser reads back what is printed: for every well-formed command -
    lists, background commands, pipelines, redirections and simple commands nested
    in any way - parsing the printed line, with any blanks after it, gives exactly
    that command, without a message and up to the end of the line. *)
Theorem print_parse t tail :
  cmd_wf is_word t -> blanks tail ->
  parsecmd (print 0 t ++ tail) = ([], Ret t (length (print 0 t ++ tail))).
Proof. apply parse_printed. Qed.

Lemma print_parse_witness :
  let t := LIST (BACK (PIPE (EXEC [codes "ls"]) (REDIR (EXEC [codes "wc"; codes "-l"]) (codes "n") 513 1)))
                (REDIR (LIST (EXEC [codes "a"]) (EXEC [])) (codes "in") 0 0) in
  cmd_wf is_word t /\ print 0 t = codes "ls |wc -l >n &;(a ;)<in " /\
  parsecmd (codes "ls |wc -l >n &;(a ;)<in " ++ [10]) = ([], Ret t 25%nat).
Proof.
  cbv zeta. match goal with |- cmd_wf _ ?t /\ _ => assert (cmd_wf is_word t) as Ht end.
  { cbn [cmd_wf]. unfold is_word, word_char, redir_kind, MAXARGS. cbn.
    repeat match goal with
    | |- _ /\ _ => split
    | |- _ \/ _ => (left; split; reflexivity) || (right; split; reflexivity)
    | |- Forall _ _ => constructor
    | |- _ => first [done | lia]
    end. }
  split; [exact Ht|]. split; [reflexivity|]. refine (print_parse _ [10] Ht _). by repeat constructor.
Defined.
