(* ===== verification/ShRun.v ===== *)
(** * Running commands: runcmd and main of sh.c

    The shell's processes talk to the kernel by system calls only; a [prog] is
    what one process does with them.  Running it on a table of descriptors gives
    what happens: the programs started, with the descriptors they get, the
    messages, and the processes made.  Any call that needs a resource may fail. *)

From stdpp Require Import base numbers list strings.
From S2P Require Import Prelude Bytes Mem Str Proc Sysfile User Sh ShParse ShPrint.

Open Scope Z_scope.

(** ** The shell's processes *)

Inductive prog :=
  | Exit
  | Exec (path : list Z) (argv : list (list Z)) (failed : prog)
  | Open (path : list Z) (mode : Z) (k : Z -> prog)
  | Close (fd : Z) (k : prog)
  | Dup (fd : Z) (k : prog)
  | MkPipe (k : option (Z * Z) -> prog)
  | Fork (child failed parent : prog)
  | Wait (k : prog)
  | Chdir (path : list Z) (k : Z -> prog)
  | Gets (max : Z) (k : list Z -> prog)
  | Printf (fd : Z) (s : list Z) (k : prog).

(** [panic] of sh.c *)
Definition sh_panic (s : list Z) : prog := Printf 2 (s ++ [10]) Exit.

Definition fork1 (child parent : prog) : prog := Fork child (sh_panic (codes "fork")) parent.

Fixpoint runcmd (c : cmd (list Z)) : prog :=
  match c with
  | EXEC [] => Exit
  | EXEC (path :: args) =>
      Exec path (path :: args) (Printf 2 (codes "exec " ++ path ++ codes " failed" ++ [10]) Exit)
  | REDIR c file mode fd =>
      Close fd (Open file mode (fun r =>
        if r <? 0 then Printf 2 (codes "open " ++ file ++ codes " failed" ++ [10]) Exit
        else runcmd c))
  | LIST l r => fork1 (runcmd l) (Wait (runcmd r))
  | PIPE l r =>
      MkPipe (fun p =>
        match p with
        | None => sh_panic (codes "pipe")
        | Some (p0, p1) =>
            fork1 (Close 1 (Dup p1 (Close p0 (Close p1 (runcmd l)))))
              (fork1 (Close 0 (Dup p0 (Close p0 (Close p1 (runcmd r)))))
                 (Close p0 (Close p1 (Wait (Wait Exit)))))
        end)
  | BACK c => fork1 (runcmd c) Exit
  end.

(** [runcmd(parsecmd(buf))] *)
Definition run_line (s : list Z) : prog :=
  match parsecmd s with
  | (ev, Ret c _) => runcmd c
  | (ev, Panic msg) =>
      Printf 2 (omap (fun e => match e with EvPutc c => Some c | _ => None end) ev)
        (sh_panic (codes msg))
  | _ => Exit
  end.

Definition BUFSZ : Z := 100.

(** [getcmd]: prompt, clear the buffer, read a line; [None] at the end of the input. *)
Definition getcmd (k : option (list Z) -> prog) : prog :=
  Printf 2 (codes "$ ") (Gets BUFSZ (fun b =>
    match b with
    | [] => k None
    | c :: _ => k (if c =? 0 then None else Some b)
    end)).

(** [buf[0] == 'c' && buf[1] == 'd' && buf[2] == ' '] *)
Definition is_cd (b : list Z) : bool :=
  match b with
  | c :: d :: sp :: _ => (c =? chr "c") && (d =? chr "d") && (sp =? chr " ")
  | _ => false
  end.

(** [buf[strlen(buf)-1] = 0], as a string *)
Definition chop (b : list Z) : list Z := take (length (c_string b) - 1) (c_string b).

(** The loop of [main] over the lines. *)
Fixpoint main_loop (fuel : nat) : prog :=
  match fuel with
  | O => Exit
  | S k =>
      getcmd (fun o =>
        match o with
        | None => Exit
        | Some b =>
            if is_cd b then
              Chdir (drop 3 (chop b)) (fun r =>
                if r <? 0 then Printf 2 (codes "cannot cd " ++ drop 3 (chop b) ++ [10]) (main_loop k)
                else main_loop k)
            else fork1 (run_line (c_string b)) (Wait (main_loop k))
        end)
  end.

(** The loop of [main] that makes sure descriptors 0, 1 and 2 are open. *)
Fixpoint open_console (fuel : nat) (k : prog) : prog :=
  match fuel with
  | O => Exit
  | S n =>
      Open (codes "console") O_RDWR (fun fd =>
        if fd <? 0 then k
        else if 3 <=? fd then Close fd k
        else open_console n k)
  end.

(** The descriptors 0, 1, 2 and one more are opened at most; every turn over the
    lines takes a byte of the input. *)
Definition sh_main (input : list Z) : prog := open_console 4 (main_loop (S (length input))).

(** ** What the kernel does for them *)

(** What a descriptor refers to: an inherited file, one opened by the shell, an end
    of the pipe made by the [n]-th request. *)
Inductive desc :=
  | Given (i : nat)
  | Opened (path : list Z) (mode : Z)
  | ReadEnd (n : nat)
  | WriteEnd (n : nat).

Definition fdtab : Type := list (option desc).

Inductive deed :=
  | Ran (path : list Z) (argv : list (list Z)) (fds : fdtab)
  | Said (to : option desc) (s : list Z)
  | Forked (child : list deed)
  | Waited
  | Moved (path : list Z).

(** How many requests were made, and the input left on descriptor 0. *)
Record world := mk_world { requests : nat; input : list Z }.
Definition next (w : world) : world := mk_world (S (requests w)) (input w).

Section Run.
(** Whether the kernel grants the [n]-th request for a resource. *)
Variable grants : nat -> bool.

Definition fd_get (T : fdtab) (fd : Z) : option desc := mjoin (T !! Z.to_nat fd).

(** The lowest free descriptor gets the file. *)
Definition fd_new (T : fdtab) (d : desc) : option (nat * fdtab) :=
  match free_fd T with
  | Some i => Some (i, <[i := Some d]> T)
  | None => None
  end.

(** [Close] drops an open descriptor; closing a closed one returns -1, which the
    shell ignores. *)
Definition fd_close (T : fdtab) (fd : Z) : fdtab := <[Z.to_nat fd := None]> T.

Definition fd_dup (T : fdtab) (fd : Z) : fdtab :=
  match fd_get T fd with
  | Some d => match fd_new T d with Some (_, T') => T' | None => T end
  | None => T
  end.

Fixpoint run (p : prog) (T : fdtab) (w : world) : list deed * world :=
  match p with
  | Exit => ([], w)
  | Exec path argv failed =>
      if grants (requests w) then ([Ran path argv T], next w) else run failed T (next w)
  | Open path mode k =>
      match (if grants (requests w) then fd_new T (Opened path mode) else None) with
      | Some (i, T') => run (k (Z.of_nat i)) T' (next w)
      | None => run (k (-1)) T (next w)
      end
  | Close fd k => run k (fd_close T fd) w
  | Dup fd k => run k (fd_dup T fd) w
  | MkPipe k =>
      match (if grants (requests w) then fd_new T (ReadEnd (requests w)) else None) with
      | Some (i, T1) =>
          match fd_new T1 (WriteEnd (requests w)) with
          | Some (j, T2) => run (k (Some (Z.of_nat i, Z.of_nat j))) T2 (next w)
          | None => run (k None) T (next w)
          end
      | None => run (k None) T (next w)
      end
  | Fork child failed parent =>
      if grants (requests w) then
        let '(dc, w1) := run child T (next w) in
        let '(dp, w2) := run parent T w1 in
        (Forked dc :: dp, w2)
      else run failed T (next w)
  | Wait k => let '(d, w') := run k T w in (Waited :: d, w')
  | Chdir path k =>
      if grants (requests w) then
        let '(d, w') := run (k 0) T (next w) in (Moved path :: d, w')
      else run (k (-1)) T (next w)
  | Gets max k =>
      let '(b, rest) := Ulib.gets max (input w) in
      run (k b) T (mk_world (requests w) rest)
  | Printf fd s k => let '(d, w') := run k T w in (Said (fd_get T fd) s :: d, w')
  end.

(** ** What a command means

    Standard input, output and error are passed along; no other descriptor exists. *)

Definition std (i o e : desc) : fdtab := [Some i; Some o; Some e] ++ replicate (NOFILE - 3) None.

Definition fork_failed (e : desc) : list deed := [Said (Some e) (codes "fork" ++ [10])].

(** [n] counts the requests; the result has what happens and the next count. *)
Fixpoint meaning (c : cmd (list Z)) (i o e : desc) (n : nat) : list deed * nat :=
  match c with
  | EXEC [] => ([], n)
  | EXEC (path :: args) =>
      if grants n then ([Ran path (path :: args) (std i o e)], S n)
      else ([Said (Some e) (codes "exec " ++ path ++ codes " failed" ++ [10])], S n)
  | REDIR c file mode fd =>
      if grants n then
        if fd =? 0 then meaning c (Opened file mode) o e (S n)
        else meaning c i (Opened file mode) e (S n)
      else ([Said (Some e) (codes "open " ++ file ++ codes " failed" ++ [10])], S n)
  | LIST l r =>
      if grants n then
        let '(dl, n1) := meaning l i o e (S n) in
        let '(dr, n2) := meaning r i o e n1 in
        (Forked dl :: Waited :: dr, n2)
      else (fork_failed e, S n)
  | PIPE l r =>
      if grants n then
        if grants (S n) then
          let '(dl, n1) := meaning l i (WriteEnd n) e (S (S n)) in
          if grants n1 then
            let '(dr, n2) := meaning r (ReadEnd n) o e (S n1) in
            ([Forked dl; Forked dr; Waited; Waited], n2)
          else (Forked dl :: fork_failed e, S n1)
        else (fork_failed e, S (S n))
      else ([Said (Some e) (codes "pipe" ++ [10])], S n)
  | BACK c =>
      if grants n then
        let '(d, n1) := meaning c i o e (S n) in ([Forked d], n1)
      else (fork_failed e, S n)
  end.

(** The descriptors 3 and 4 of a new pipe, and the tables of the two ends after
    the children moved them to descriptors 1 and 0. *)
Lemma pipe_fds i o e n :
  exists T1 T2, fd_new (std i o e) (ReadEnd n) = Some (3%nat, T1) /\
    fd_new T1 (WriteEnd n) = Some (4%nat, T2) /\
    fd_close (fd_close (fd_dup (fd_close T2 1) 4) 3) 4 = std i (WriteEnd n) e /\
    fd_close (fd_close (fd_dup (fd_close T2 0) 3) 3) 4 = std (ReadEnd n) o e /\
    fd_get T2 2 = Some e.
Proof. do 2 eexists. repeat split; reflexivity. Qed.

Lemma runcmd_run c i o e w :
  cmd_wf is_word c ->
  run (runcmd c) (std i o e) w =
    ((meaning c i o e (requests w)).1, mk_world (meaning c i o e (requests w)).2 (input w)).
Proof.
  destruct w as [n inp]. cbn [requests input]. revert i o e n.
  induction c as [[|path args]|c IH f m fd|l IHl r IHr|l IHl r IHr|c IH]; intros i o e n Hc;
    cbn [runcmd meaning].
  - done.
  - cbn [run requests]. by destruct (grants n).
  - destruct Hc as (Hc & _ & [[-> ->]|[-> ->]]); cbn [run requests]; destruct (grants n); try done;
      cbn; apply IH, Hc.
  - destruct Hc as [Hl Hr]. cbn [run requests]. destruct (grants n); [|done].
    destruct (pipe_fds i o e n) as (T1 & T2 & -> & -> & HL & HR).
    change (Z.of_nat 3) with 3. change (Z.of_nat 4) with 4.
    cbn [run fork1]. unfold next. cbn [requests input]. destruct (grants (S n)).
    2: { cbn [run sh_panic]. by rewrite (proj2 HR). }
    rewrite HL, IHl by done.
    destruct (meaning l i _ e _) as [dl n1]. cbn [fst snd requests]. destruct (grants n1).
    2: { cbn [run sh_panic]. by rewrite (proj2 HR). }
    rewrite (proj1 HR), IHr by done. by destruct (meaning r _ o e _).
  - destruct Hc as [Hl Hr]. cbn [run fork1]. unfold next. cbn [requests input]. destruct (grants n); [|done].
    rewrite IHl by done. destruct (meaning l i o e (S n)) as [dl n1]. cbn [fst snd requests].
    rewrite IHr by done. by destruct (meaning r i o e n1).
  - cbn [run fork1]. unfold next. cbn [requests input]. destruct (grants n); [|done].
    rewrite IH by done. by destruct (meaning c i o e (S n)).
Qed.

(** C19: running a parsed command does what the command means: every program is
    started with exactly three descriptors, its standard input and output
    redirected to the files named or, in a pipeline, to the ends of one fresh
    pipe; no pipe end is left open in any process; and whatever call fails, the
    shell prints its message and goes no further. *)
Theorem runcmd_meaning c i o e w :
  cmd_wf is_word c ->
  run (runcmd c) (std i o e) w =
    ((meaning c i o e (requests w)).1, mk_world (meaning c i o e (requests w)).2 (input w)).
Proof. apply runcmd_run. Qed.

(** ** A session *)

(** What is typed: a command, or a change of directory. *)
Inductive entry := Do (t : cmd (list Z)) | Cd (dir : list Z).

Definition typed (x : entry) : list Z :=
  match x with
  | Do t => print 0 t ++ [10]
  | Cd dir => codes "cd " ++ dir ++ [10]
  end.

Definition plain (c : Z) : Prop := c <> 0 /\ c <> 10 /\ c <> 13.

Definition entry_ok (x : entry) : Prop :=
  (length (typed x) < Z.to_nat BUFSZ)%nat /\
  match x with
  | Do t => cmd_wf is_word t /\ is_cd (typed x) = false
  | Cd dir => Forall plain dir
  end.

(** Each line is answered by a prompt and what it means; a failing [fork] ends the
    shell, a failing [chdir] does not. *)
Fixpoint session (l : list entry) (i o e : desc) (n : nat) : list deed :=
  Said (Some e) (codes "$ ") ::
  match l with
  | [] => []
  | Do t :: l' =>
      if grants n then
        let '(d, n1) := meaning t i o e (S n) in
        Forked d :: Waited :: session l' i o e n1
      else fork_failed e
  | Cd dir :: l' =>
      if grants n then Moved dir :: session l' i o e (S n)
      else Said (Some e) (codes "cannot cd " ++ dir ++ [10]) :: session l' i o e (S n)
  end.

Lemma gets_line l rest k :
  Forall plain l -> (length l < k)%nat -> Ulib.gets_loop k (l ++ 10 :: rest) = (l ++ [10; 0], rest).
Proof using Type.
  intros Hl. revert k. induction Hl as [|c l (H0 & H1 & H2) _ IH]; intros k Hk;
    (destruct k as [|k]; [cbn in Hk; lia|]); [done|]. cbn [Ulib.gets_loop app].
  destruct (Z.eqb_spec c 10); [done|]. destruct (Z.eqb_spec c 13); [done|]. cbn [orb].
  rewrite IH by (cbn in Hk; lia). done.
Qed.

Lemma c_string_app l : 0 ∉ l -> c_string (l ++ [0]) = l.
Proof using Type.
  induction l as [|c l IH]; intros H0; [done|]. apply not_elem_of_cons in H0 as [Hc Hl]. cbn.
  destruct (Z.eqb_spec c 0); [done|]. by rewrite IH.
Qed.


Lemma is_cd_nul l : is_cd (l ++ [0]) = is_cd l.
Proof using Type. destruct l as [|a [|b [|c l]]]; try done. cbn. by rewrite !andb_false_r. Qed.

Definition plainb (c : Z) : bool := negb (c =? 0) && negb (c =? 10) && negb (c =? 13).

Lemma plain_one c : plainb c = true -> plain c.
Proof using Type. unfold plainb, plain. intros. repeat case_match; try done; lia. Qed.

Lemma plain_codes l : forallb plainb l = true -> Forall plain l.
Proof using Type.
  induction l as [|c l IH]; [by constructor|]. cbn. intros [Hc Hl]%andb_prop.
  constructor; [by apply plain_one|auto].
Qed.

(** Words and symbols are plain, so a printed command is one line. *)
Lemma print_plain lvl t : cmd_wf is_word t -> Forall plain (print lvl t).
Proof using Type.
  assert (forall w, is_word w -> Forall plain w) as Hw.
  { intros w [_ Hw]. eapply Forall_impl; [exact Hw|]. intros c [Hc H0]. split; [done|].
    split; intros ->; done. }
  assert (forall b s, Forall plain s -> Forall plain (paren b s)) as Hp.
  { intros [] s Hs; [|done]. unfold paren. apply Forall_app. split; [by apply plain_codes|].
    apply Forall_app. split; [done|by apply plain_codes]. }
  revert lvl. induction t as [argv|c IH f m d|l IHl r IHr|l IHl r IHr|c IH]; intros lvl Ht; cbn [print].
  - destruct Ht as [_ Ht]. induction Ht as [|w argv Hw' _ IH]; [by constructor|].
    cbn [fmap list_fmap concat]. unfold print_word at 1. rewrite !Forall_app.
    split; [split; [auto|by apply plain_codes]|done].
  - destruct Ht as (Hc & Hf & _). apply Forall_app. split; [auto|].
    unfold print_redir, print_word. cbn [fst snd]. apply Forall_cons. split; [by case_match; apply plain_one|].
    apply Forall_app. split; [auto|by apply plain_codes].
  - destruct Ht as [Hl Hr]. apply Hp. rewrite !Forall_app. split; [auto|split; [by apply plain_codes|auto]].
  - destruct Ht as [Hl Hr]. apply Hp. rewrite !Forall_app. split; [auto|split; [by apply plain_codes|auto]].
  - apply Hp. rewrite Forall_app. split; [auto|by apply plain_codes].
Qed.

(** A line typed is a run of plain bytes and a newline. *)
Lemma typed_line x :
  entry_ok x -> exists l, typed x = l ++ [10] /\ Forall plain l /\ (length l < 99)%nat /\ 0 ∉ typed x.
Proof using Type.
  intros [Hlen Hx]. assert (exists l, typed x = l ++ [10] /\ Forall plain l) as (l & E & Hl).
  { destruct x as [t|dir]; cbn in *.
    - exists (print 0 t). split; [done|]. apply print_plain, Hx.
    - exists (codes "cd " ++ dir). split; [done|]. apply Forall_app. split; [by apply plain_codes|done]. }
  exists l. split; [done|]. split; [done|]. split.
  - rewrite E, length_app in Hlen. cbn in Hlen. change (Z.to_nat BUFSZ) with 100%nat in Hlen. lia.
  - rewrite E. apply not_elem_of_app. split; [|by apply strchr_false].
    intros H0. by apply (proj1 (Forall_forall _ _) Hl) in H0 as [? _].
Qed.

(** One turn of the main loop reads one line. *)
Lemma main_loop_turn x l k T n :
  entry_ok x ->
  run (main_loop (S k)) T (mk_world n (typed x ++ l)) =
  (let '(d, w) := run (if is_cd (typed x) then
        Chdir (drop 3 (chop (typed x ++ [0]))) (fun r =>
          if r <? 0 then Printf 2 (codes "cannot cd " ++ drop 3 (chop (typed x ++ [0])) ++ [10]) (main_loop k)
          else main_loop k)
      else fork1 (run_line (typed x)) (Wait (main_loop k))) T (mk_world n l) in
   (Said (fd_get T 2) (codes "$ ") :: d, w)).
Proof using Type.
  intros Hx. destruct (typed_line x Hx) as (b & E & Hb & Hl & H0).
  cbn [main_loop]. unfold getcmd. cbn [run requests input].
  change (Ulib.gets BUFSZ ?i) with (Ulib.gets_loop 99 i).
  assert (Ulib.gets_loop 99 (typed x ++ l) = (typed x ++ [0], l)) as ->.
  { rewrite E, <- !app_assoc. exact (gets_line b l 99 Hb Hl). }
  rewrite <- (is_cd_nul (typed x)).
  replace (run_line (typed x)) with (run_line (c_string (typed x ++ [0]))) by (by rewrite c_string_app).
  destruct (typed x ++ [0]) as [|c b'] eqn:Eb; [by destruct (typed x)|].
  assert (c <> 0) as Hc.
  { intros ->. destruct (typed x) as [|c0 r]; [by destruct b|]. injection Eb as -> _. apply H0. by left. }
  by destruct (Z.eqb_spec c 0).
Qed.

Lemma run_line_typed t : cmd_wf is_word t -> run_line (typed (Do t)) = runcmd t.
Proof using Type.
  intros Ht. unfold run_line, typed. rewrite parse_printed; [done|done|]. by repeat constructor.
Qed.

Lemma chop_cd dir : Forall plain dir -> drop 3 (chop (typed (Cd dir) ++ [0])) = dir.
Proof using Type.
  intros Hd. unfold chop. rewrite c_string_app.
  - unfold typed. rewrite app_assoc, length_app, Nat.add_sub, take_app_length. done.
  - unfold typed. rewrite !not_elem_of_app. split; [by apply strchr_false|]. split; [|by apply strchr_false].
    intros H0. by apply (proj1 (Forall_forall _ _) Hd) in H0 as [? _].
Qed.

Lemma main_loop_session l i o e n k :
  Forall entry_ok l -> (length l < k)%nat ->
  (run (main_loop k) (std i o e) (mk_world n (concat (typed <$> l)))).1 = session l i o e n.
Proof.
  intros Hl. revert n k. induction Hl as [|x l Hx _ IH]; intros n k Hk;
    (destruct k as [|k]; [cbn in Hk; lia|]); [done|].
  cbn [fmap list_fmap concat]. rewrite main_loop_turn by done. cbn in Hk. destruct Hx as [_ Hx].
  destruct x as [t|dir]; cbn [session].
  - destruct Hx as [Ht ->]. rewrite run_line_typed by done. cbn [run fork1 requests].
    destruct (grants n); [|done]. rewrite runcmd_run by done. unfold next. cbn [requests input].
    destruct (meaning t i o e (S n)) as [d n1]. cbn [fst snd].
    specialize (IH n1 k ltac:(lia)). destruct (run _ _ _) as [d' w']. cbn in *. by rewrite IH.
  - change (is_cd (typed (Cd dir))) with true. cbn match. rewrite chop_cd by done.
    cbn [run requests]. unfold next. cbn [requests input].
    specialize (IH (S n) k ltac:(lia)).
    destruct (grants n); [change (0 <? 0) with false|change (-1 <? 0) with true]; cbn [run];
      destruct (run _ _ _) as [d' w']; cbn in *; by rewrite IH.
Qed.

Lemma typed_length l : (length l <= length (concat (typed <$> l)))%nat.
Proof using Type.
  induction l as [|x l IH]; [done|]. cbn [fmap list_fmap concat length]. rewrite length_app.
  destruct x; cbn [typed]; rewrite !length_app; cbn; lia.
Qed.

(** Descriptor 3 is opened and closed again, or the console cannot be opened. *)
Lemma open_console_std k i o e n inp :
  run (open_console 4 k) (std i o e) (mk_world n inp) = run k (std i o e) (mk_world (S n) inp).
Proof. cbn [open_console run requests]. by destruct (grants n). Qed.

(** A whole session: started with its three descriptors open, the shell prompts
    for, reads, parses and runs one typed line after the other, each command in a
    process of its own that it waits for, with [cd] done by the shell itself, until
    the input ends. *)
Theorem shell_session l i o e n :
  Forall entry_ok l ->
  (run (sh_main (concat (typed <$> l))) (std i o e) (mk_world n (concat (typed <$> l)))).1 =
  session l i o e (S n).
Proof.
  intros Hl. unfold sh_main. rewrite open_console_std. apply main_loop_session; [done|].
  pose proof (typed_length l). lia.
Qed.

End Run.

Definition pipeline : cmd (list Z) :=
  PIPE (EXEC [codes "ls"]) (REDIR (EXEC [codes "wc"]) (codes "n") (Z.lor O_WRONLY O_CREATE) 1).

Lemma pipeline_wf : cmd_wf is_word pipeline.
Proof.
  cbn [cmd_wf pipeline]. unfold is_word, word_char, redir_kind, MAXARGS. cbn.
  repeat match goal with
  | |- _ /\ _ => split
  | |- _ \/ _ => (left; split; reflexivity) || (right; split; reflexivity)
  | |- Forall _ _ => constructor
  | |- _ => first [done | lia]
  end.
Qed.

(** [ls | wc > n]: [ls] writes to the pipe that [wc] reads. *)
Lemma runcmd_meaning_witness :
  run (fun _ => true) (runcmd pipeline) (std (Given 0) (Given 1) (Given 2)) (mk_world 0 []) =
    ([Forked [Ran (codes "ls") [codes "ls"] (std (Given 0) (WriteEnd 0) (Given 2))];
      Forked [Ran (codes "wc") [codes "wc"] (std (ReadEnd 0) (Opened (codes "n") 513) (Given 2))];
      Waited; Waited], mk_world 6 []).
Proof. exact (runcmd_meaning (fun _ => true) pipeline _ _ _ (mk_world 0 []) pipeline_wf). Defined.

Lemma shell_session_witness :
  (run (fun _ => true) (sh_main (codes "cd d" ++ [10] ++ codes "ls |wc >n " ++ [10]))
     (std (Given 0) (Given 1) (Given 2))
     (mk_world 0 (codes "cd d" ++ [10] ++ codes "ls |wc >n " ++ [10]))).1 =
  [Said (Some (Given 2)) (codes "$ "); Moved (codes "d"); Said (Some (Given 2)) (codes "$ ");
   Forked [Forked [Ran (codes "ls") [codes "ls"] (std (Given 0) (WriteEnd 3) (Given 2))];
           Forked [Ran (codes "wc") [codes "wc"] (std (ReadEnd 3) (Opened (codes "n") 513) (Given 2))];
           Waited; Waited];
   Waited; Said (Some (Given 2)) (codes "$ ")].
Proof.
  refine (shell_session (fun _ => true) [Cd (codes "d"); Do pipeline] _ _ _ 0 _).
  repeat constructor; try (vm_compute; lia); try apply pipeline_wf; done.
Defined.
